(* ===== verification/_CoqProject ===== *)
-Q . S2P
Prelude.v
PyFloat.v
PyStr.v
Regex.v
PyVal.v
Json.v
JobContracts.v
JobLemmas.v
JobProperties.v
DurableQueue.v
QueueLemmas.v
QueueProperties.v
CanonicalJson.v
Sha256.v
Evidence.v
EvidenceValidator.v
EvidenceLemmas.v
EvidenceProperties.v
Decision.v
DecisionProperties.v
IngestionJobs.v
IngestionJobProperties.v
StateError.v
KnowledgeModels.v
Publication.v
PublicationLemmas.v
KnowledgeStore.v
PublicationProperties.v
TombstoneProperties.v
CatalogProperties.v
Authorization.v
AuthorizationProperties.v
Leases.v
LeaseProperties.v
LeaseClient.v
RateLimit.v
RateLimitProperties.v
Resilience.v
ResilienceProperties.v
LeaseClientProperties.v
PyNumber.v
ProfessorModels.v
Professor.v
Orchestrator.v
OrchestratorLemmas.v
StreamEquivalence.v
ProfessorProperties.v
RequestPolicy.v
Identity.v
IdentityProperties.v
DecisionGate.v
ChatBackend.v
GateLemmas.v
GateProperties.v
ChatBackendProperties.v
RetrievalText.v
Fusion.v
Retrieval.v
Rerank.v
RetrievalService.v
RetrievalLemmas.v
ServiceLemmas.v
RetrievalProperties.v
ServiceProperties.v
Chunking.v
ChunkLemmas.v
ChunkProperties.v
IngestPorts.v
IngestRetire.v
IngestRecover.v
IngestPipeline.v
IngestLogic.v
IngestVerify.v
IngestPublish.v
IngestProperties.v
Redaction.v
RedactionProperties.v
AuditSink.v
AuditProperties.v
