(* ===== verification/Prelude.v ===== *)
(** * RICK Intelligence: a verification library

    The library models the core of the RICK Intelligence runtime, a
    multi-tenant service that ingests documents, publishes them to a knowledge
    store and answers questions only from published, authorised evidence.  The
    definitions follow the Python sources under src/; the theorems state what
    makes each part correct.

    ** The program and the files that model it

    - Language layer.  [Prelude] (outcomes of calls, lists, tactics),
      [PyFloat] (binary64), [PyStr] (str), [PyVal] (objects and dicts),
      [PyNumber] (float() and text scans), [Regex] (regular expressions),
      [Json] and [CanonicalJson] (json.dumps), [Sha256] (hashlib's SHA-256 and
      SHA-1, uuid.uuid5), [StateError] (methods that mutate and may raise).
    - Durable jobs, src/packages/jobs contracts.py: [JobContracts], with
      [JobLemmas], [JobProperties].  The worker's SQLite queue,
      src/apps/worker durable_queue.py: [DurableQueue], [QueueLemmas],
      [QueueProperties]; it stores and replays those jobs.
    - Ingestion jobs, src/packages/ingestion jobs.py: [IngestionJobs],
      [IngestionJobProperties].
    - Canonical identities, src/packages/knowledge identity.py: [Identity],
      [IdentityProperties].
    - Ingestion, src/packages/ingestion: [Chunking] (chunking.py),
      [ChunkLemmas], [ChunkProperties]; pipeline.py in [IngestPorts] (the
      exchanged records, the adapters, the monad of a run, guards and the
      owned clean-up), [IngestRetire] (points, snapshots, embedding, rollback
      and retirement of a previous version), [IngestRecover]
      (recover_publication) and [IngestPipeline] (ingest, reindex and their
      stages), with [IngestLogic], [IngestVerify], [IngestPublish],
      [IngestProperties].
    - Knowledge, src/packages/knowledge: [KnowledgeModels] (models.py,
      fencing.py, json_boundary.py, aliases of identity.py), [Publication]
      (publication.py, against the class [PublicationAdapter]),
      [PublicationLemmas], [KnowledgeStore] (store.py, an instance of that
      class, with a heap of shared documents), [PublicationProperties],
      [TombstoneProperties], [CatalogProperties].  A publication is driven by
      an ingestion job.
    - Authorization, src/packages/authorization policy.py: [Authorization],
      [AuthorizationProperties].
    - Locking, src/packages/locking: [Leases] (validation.py, memory.py; the
      backend is a class with its laws), [LeaseClient] (client.py,
      heartbeat.py), [RateLimit] (rate_limit.py) and their properties.
    - Providers, src/packages/providers resilience.py: [Resilience],
      [ResilienceProperties].
    - Evidence, src/packages/evidence: [Evidence] (models.py),
      [EvidenceValidator] (validator.py), [EvidenceLemmas],
      [EvidenceProperties].
    - Decision, src/packages/decision: [Decision] (contracts.py, layer.py),
      [RequestPolicy] (request_policy.py), with their lemmas and properties.
    - Retrieval, src/packages/retrieval: [RetrievalText] (sparse.py), [Fusion]
      (fusion.py), [Retrieval] (pipeline.py, backends.py), [Rerank]
      (rerank.py), [RetrievalLemmas], [RetrievalProperties].  The service
      around it, src/apps/api services/retrieval_service.py:
      [RetrievalService], [ServiceLemmas], [ServiceProperties].
    - Professor, src/packages/professor orchestration.py: [ProfessorModels],
      [Professor], [Orchestrator] ([run] and [stream] of one request), with
      [OrchestratorLemmas], [StreamEquivalence], [ProfessorProperties].
    - Chat, src/apps/api services/professor_backend.py: [DecisionGate] (the
      gate between retrieval and the Professor), [ChatBackend] (the
      composition), [GateLemmas], [GateProperties], [ChatBackendProperties].
    - Redaction of events, src/packages/observability redaction.py:
      [Redaction], [RedactionProperties]; the local audit sink, src/apps/api
      services/audit.py, on top of it: [AuditSink], [AuditProperties].

    A chat request passes from [ChatBackend.generate] to [Orchestrator.run]
    (or [stream]), which takes a lease ([LeaseClient]), calls the gate as its
    retrieval function, the provider, and the gate again before delivery.  The
    gate classifies ([RequestPolicy]), asks a retrieval function (in the
    service, [RetrievalService] over [Retrieval]), issues evidence
    ([EvidenceValidator]) from the knowledge store, and decides ([Decision]).
    An upload passes from [IngestPipeline.ingest] through parsing, [Chunking],
    embedding and the vector index to a publication receipt ([Publication]);
    what it publishes is what the gate later serves.

    ** How state and errors are modelled

    A call that returns or raises is a [res E A]; [E] lists the exceptions of
    the component.  A method that mutates its object takes the state and gives
    the state afterwards, also when it raises where the code changes state
    before raising ([StateError]); methods under a lock are one step.  Objects
    that callers share with the store live in a heap ([KnowledgeStore]).
    Asynchronous dependency calls are arguments that return a value or raise;
    a time-out or a closed stream is a [schedule] that cuts the work at any
    point ([Orchestrator]).  A run of the pipeline is a monad of state, errors
    and the trace of its calls; the answers of the adapters and the
    cancellations of other threads are read from the world, between any two
    calls made without the service lock ([IngestPorts]).  Clock readings,
    random identifiers and tokens are arguments of the operation that reads
    them.

    ** What the theorems show

    - Jobs and queue: the state machine, a bound on the length of every run, a
      way out of every state, exclusive leases, stored payloads that read back
      as they were.
    - Ingestion: chunks cover the text, are traced to their place in it and
      are bounded; identities of documents are unambiguous; over any sequence
      of service calls a document is published only after it was verified, and
      every effect happens under the guard of its document.
    - Knowledge: every operation refines the life of a receipt and of a
      checkpoint, decisions are final, deletion and archival are final.
    - Authorization, leases, limiter, circuit: scope only narrows, a lease has
      one holder, the limiter is a sliding window, a circuit opens exactly on
      a streak of failures.
    - Evidence and decision: an identifier binds its content, and answers
      require every condition of the policy.
    - Retrieval: results stay in scope whatever the backends return, foreign
      rows are irrelevant, fusion computes the reference score, reranking
      permutes, and every item shown is published and active.
    - Professor and chat: an answer is grounded in trusted evidence, both
      delivery modes agree, the lease is released, the provider is reached
      only for reviewed requests, and every source of a delivered or cached
      answer is published and authorised at delivery.
    - Events: a redacted event is bounded in bytes and hides the value below
      every key that still reads as sensitive in it (two examples show keys
      that are cut before they are tested); the audit sink keeps the newest
      safe events.

    ** Bounds and fuel

    Recursion is structural wherever the code iterates over data.  Where it is
    not, the fuel is a bound on the work: one unit per member of a JSON
    object, taken from the length of its text ([Json]; [scan_members_app]
    shows that the members suffice), one per decimal digit, log2 n + 1 in all
    ([PyStr]), one per word for the blocks of SHA-256, and 17 digits for the
    shortest text of a double ([CanonicalJson]), which is how many always read
    back.  Doubles are exact: an integer multiple of 2^-1074, rounded after
    every operation.

    ** What the model leaves out

    - Strings are those of code points below 256; negative zero is zero; lists
      and tuples are one constructor; a [datetime] in a lineage, the exception
      RecursionError and the order of iteration over a set are not
      represented.  pydantic's validation of the values the program builds is
      written out; that of foreign objects is an argument.
    - math.tanh, math.log, math.sqrt, [x ** 0.5] and MD5 are arguments, as are
      embeddings, vector stores, the chat provider and Redis.  Also arguments
      are the rewriting of URLs and credentials inside a text ([inline]) and
      [strip_url]: the theorems hold for every such function.
    - The adapters, the parsers and the checks of the uploaded file are calls
      of the pipeline with arbitrary answers; the inspection of adapter
      signatures and the unused _mark_document_failed have no counterpart.
    - Not modelled: the PostgreSQL and SQLite adapters, Redis scripts, Qdrant
      and object storage clients, HTTP routes, user identity and OIDC, metrics
      and tracing, document parsers, the worker's process loop, the API's
      ingestion and chat services around the modelled cores, and the scripts
      of release gates.  They are statements of a database or a server, or
      threads, processes and HTTP around the parts above. *)

From Stdlib Require Export ZArith Lia List Bool Sorting.Permutation Sorting.Sorted.
From stdpp Require Export base option list gmap strings.

#[export] Set Default Goal Selector "!".

(** ** Fallible computations *)

(** A Python call either returns or raises.  [res E A] is that outcome; the
    error type [E] of each component lists the exceptions its code raises. *)
Inductive res (E A : Type) : Type :=
| Ok (a : A)
| Err (e : E).
Arguments Ok {E A} a.
Arguments Err {E A} e.

#[export] Instance res_mret {E} : MRet (res E) := fun A a => Ok a.
#[export] Instance res_mbind {E} : MBind (res E) := fun A B f m =>
  match m with Ok a => f a | Err e => Err e end.
#[export] Instance res_fmap {E} : FMap (res E) := fun A B f m =>
  match m with Ok a => Ok (f a) | Err e => Err e end.

(** [if b: raise e]. *)
Definition raise_if {E} (b : bool) (e : E) : res E unit :=
  if b then Err e else Ok tt.

(** A [for] loop whose body may raise, building a list. *)
Fixpoint res_mapM {E A B} (f : A -> res E B) (l : list A) : res E (list B) :=
  match l with
  | [] => Ok []
  | x :: l' => y ← f x; ys ← res_mapM f l'; Ok (y :: ys)
  end.

(** A [for] loop whose body may raise, threading a state. *)
Fixpoint res_foldM {E A S} (f : S -> A -> res E S) (s : S) (l : list A) : res E S :=
  match l with
  | [] => Ok s
  | x :: l' => s' ← f s x; res_foldM f s' l'
  end.

(** [try: m except e: h e]. *)
Definition res_catch {E F A} (m : res E A) (h : E -> res F A) : res F A :=
  match m with Ok a => Ok a | Err e => h e end.

Definition is_ok {E A} (m : res E A) : bool :=
  match m with Ok _ => true | Err _ => false end.

Section res_lemmas.
Context {E A B : Type}.

Lemma bind_Ok (m : res E A) (f : A -> res E B) b :
  (m ≫= f) = Ok b <-> exists a, m = Ok a /\ f a = Ok b.
Proof.
  destruct m as [a|e]; cbn; split.
  - eauto.
  - intros (a' & [= ->] & H); exact H.
  - discriminate.
  - intros (a' & [=] & _).
Qed.

Lemma bind_Err (m : res E A) (f : A -> res E B) e :
  (m ≫= f) = Err e <-> m = Err e \/ exists a, m = Ok a /\ f a = Err e.
Proof.
  destruct m as [a|e']; cbn; split.
  - eauto.
  - intros [[=]|(a' & [= ->] & H)]; exact H.
  - intros [= ->]; auto.
  - intros [[= ->]|(a' & [=] & _)]; reflexivity.
Qed.

(** [injection] without simplification. *)
Lemma Ok_inj (a b : A) : Ok (E := E) a = Ok b -> b = a.
Proof. now intros [= ->]. Qed.

Lemma bind_ret (a : A) (f : A -> res E B) : (Ok a ≫= f) = f a.
Proof. reflexivity. Qed.

Lemma raise_if_Ok (b : bool) (e : E) u : raise_if b e = Ok u <-> b = false.
Proof. destruct b, u; cbn; split; congruence. Qed.

Lemma raise_if_Err (b : bool) (e e' : E) : raise_if b e = Err e' <-> b = true /\ e = e'.
Proof. destruct b; cbn; split; intuition congruence. Qed.

Lemma raise_if_false (b : bool) (e : E) : b = false -> raise_if b e = Ok tt.
Proof. intros ->; reflexivity. Qed.

Lemma is_ok_true (m : res E A) : is_ok m = true <-> exists a, m = Ok a.
Proof. destruct m; cbn; split; [eauto | reflexivity | discriminate | intros (a & [=])]. Qed.

End res_lemmas.

Lemma res_mapM_Ok {E A B} (f : A -> res E B) l ys :
  res_mapM f l = Ok ys <-> Forall2 (fun x y => f x = Ok y) l ys.
Proof.
  revert ys; induction l as [|x l IH]; intros ys; cbn [res_mapM].
  - split; [intros [= <-]; constructor | inversion 1; reflexivity].
  - rewrite bind_Ok; split.
    + intros (y & Hy & H). apply bind_Ok in H as (ys' & Hys & [= <-]).
      constructor; [exact Hy | now apply IH].
    + inversion 1; subst. eexists; split; [eassumption|].
      apply bind_Ok; eexists; split; [apply IH; eassumption | reflexivity].
Qed.

(** ** Tactics *)

(** [res_inv H] splits a hypothesis [H] that says a computation returned
    normally into the facts its steps established. *)
Ltac res_inv1 H :=
  match type of H with
  | (_ ≫= _) = Ok _ => let a := fresh "a" in let H1 := fresh H in
      apply bind_Ok in H as (a & H1 & H); res_inv1 H1; res_inv1 H
  | raise_if _ _ = Ok _ => apply raise_if_Ok in H
  | Ok _ = Ok _ => injection H; clear H; intros; subst
  | Err _ = Ok _ => discriminate H
  | _ => idtac
  end.
Tactic Notation "res_inv" hyp(H) := res_inv1 H.

(** Turns the boolean guards of the code into propositions. *)
Ltac bool_to_prop :=
  repeat match goal with
  | H : andb _ _ = true |- _ => apply andb_prop in H; destruct H
  | H : orb _ _ = false |- _ => apply orb_false_iff in H; destruct H
  | H : negb _ = true |- _ => apply negb_true_iff in H
  | H : negb _ = false |- _ => apply negb_false_iff in H
  | H : Z.ltb _ _ = true |- _ => apply Z.ltb_lt in H
  | H : Z.ltb _ _ = false |- _ => apply Z.ltb_ge in H
  | H : Z.leb _ _ = true |- _ => apply Z.leb_le in H
  | H : Z.leb _ _ = false |- _ => apply Z.leb_gt in H
  | H : Z.eqb _ _ = true |- _ => apply Z.eqb_eq in H
  | H : Z.eqb _ _ = false |- _ => apply Z.eqb_neq in H
  | H : bool_decide _ = true |- _ => apply bool_decide_eq_true in H
  | H : bool_decide _ = false |- _ => apply bool_decide_eq_false in H
  end.

(** Membership in a literal list, case by case. *)
Ltac elem_cases H :=
  rewrite ?elem_of_cons, ?elem_of_nil in H;
  repeat match type of H with _ \/ _ => destruct H as [H|H] end;
  try discriminate H; try contradiction.

(** Case split on the scrutinee of the first [if]/[match] of the goal. *)
Ltac split_if :=
  match goal with
  | |- context [if ?b then _ else _] => destruct b eqn:?
  end.

(** ** Stable sorting: Python's [sorted] and [list.sort] *)

Section sort.
Context {A : Type} (leb : A -> A -> bool).

Fixpoint insert_by (x : A) (l : list A) : list A :=
  match l with
  | [] => [x]
  | y :: l' => if leb x y then x :: l else y :: insert_by x l'
  end.

Fixpoint sort_by (l : list A) : list A :=
  match l with
  | [] => []
  | x :: l' => insert_by x (sort_by l')
  end.

Lemma insert_by_perm x l : Permutation (x :: l) (insert_by x l).
Proof.
  induction l as [|y l IH]; cbn; [reflexivity|].
  split_if; [reflexivity|].
  etransitivity; [apply perm_swap | now apply perm_skip].
Qed.

Lemma sort_by_perm l : Permutation l (sort_by l).
Proof.
  induction l as [|x l IH]; cbn; [constructor|].
  etransitivity; [apply perm_skip, IH | apply insert_by_perm].
Qed.

Lemma sort_by_In x l : In x (sort_by l) <-> In x l.
Proof. split; apply Permutation_in; [symmetry|]; apply sort_by_perm. Qed.

Lemma sort_by_length l : length (sort_by l) = length l.
Proof. symmetry; apply Permutation_length, sort_by_perm. Qed.

Hypothesis leb_total : forall x y, leb x y = false -> leb y x = true.
Hypothesis leb_trans : forall x y z, leb x y = true -> leb y z = true -> leb x z = true.

Lemma insert_by_sorted x l :
  StronglySorted (fun a b => leb a b = true) l ->
  StronglySorted (fun a b => leb a b = true) (insert_by x l).
Proof.
  induction 1 as [|y l Hl IH Hy]; cbn; [repeat constructor|].
  split_if.
  - constructor; [now constructor|]. constructor; [assumption|].
    eapply List.Forall_impl; [|exact Hy]; cbn; eauto.
  - constructor; [exact IH|].
    apply List.Forall_forall; intros z Hz.
    apply (Permutation_in _ (Permutation_sym (insert_by_perm x l))) in Hz.
    destruct Hz as [<-|Hz]; [auto|].
    rewrite List.Forall_forall in Hy; auto.
Qed.

Lemma sort_by_sorted l : StronglySorted (fun a b => leb a b = true) (sort_by l).
Proof. induction l as [|x l IH]; cbn; [constructor | now apply insert_by_sorted]. Qed.
End sort.

(** A list that is already sorted is left unchanged. *)
Lemma sort_by_id {A} (leb : A -> A -> bool) l :
  StronglySorted (fun a b => leb a b = true) l -> sort_by leb l = l.
Proof.
  induction 1 as [|x l Hl IH Hx]; cbn; [reflexivity|].
  rewrite IH. destruct l as [|y l]; cbn; [reflexivity|].
  inversion Hx; subst. now rewrite H1.
Qed.

(** ** Lists *)

Fixpoint last_opt {A} (l : list A) : option A :=
  match l with
  | [] => None
  | [x] => Some x
  | _ :: l' => last_opt l'
  end.

Lemma last_opt_snoc {A} (l : list A) x : last_opt (l ++ [x]) = Some x.
Proof.
  induction l as [|y l IH]; [reflexivity|].
  destruct l; [reflexivity|]. exact IH.
Qed.

Lemma last_opt_None {A} (l : list A) : last_opt l = None <-> l = [].
Proof.
  split; [|intros ->; reflexivity].
  destruct l as [|y l] using rev_ind; [reflexivity|]. rewrite last_opt_snoc; discriminate.
Qed.

Lemma last_opt_Some {A} (l : list A) x : last_opt l = Some x -> exists l', l = l' ++ [x].
Proof.
  destruct l as [|y l _] using rev_ind; [discriminate|].
  rewrite last_opt_snoc; intros [= ->]; eauto.
Qed.

Lemma Forall2_In_l {A B} (R : A -> B -> Prop) l1 l2 x :
  List.Forall2 R l1 l2 -> In x l1 -> exists y, In y l2 /\ R x y.
Proof.
  induction 1 as [|a b l1 l2 Hab _ IH]; [intros []|]. intros [<-|Hx]; [exists b; split; [now left | exact Hab]|].
  destruct (IH Hx) as (y & Hy & HR). exists y. split; [now right | exact HR].
Qed.

Lemma firstn_In {A} n (l : list A) x : In x (firstn n l) -> In x l.
Proof. intros H. rewrite <- (firstn_skipn n l). apply in_or_app. now left. Qed.

Lemma res_mapM_In {E A B} (f : A -> res E B) l ys y : res_mapM f l = Ok ys -> In y ys -> exists x, In x l /\ f x = Ok y.
Proof.
  revert ys. induction l as [|x l IH]; cbn; intros ys H Hy; [apply Ok_inj in H as ->; destruct Hy|].
  apply bind_Ok in H as (z & Hz & H). apply bind_Ok in H as (zs & Hzs & H). apply Ok_inj in H as ->.
  destruct Hy as [-> | Hy]; [eauto|]. destruct (IH _ Hzs Hy) as (x' & ? & ?). eauto.
Qed.

Lemma res_mapM_In_r {E A B} (f : A -> res E B) l ys x : res_mapM f l = Ok ys -> In x l -> exists y, In y ys /\ f x = Ok y.
Proof.
  revert ys. induction l as [|z l IH]; cbn; intros ys H Hx; [destruct Hx|].
  apply bind_Ok in H as (y & Hy & H). apply bind_Ok in H as (zs & Hzs & H). apply Ok_inj in H as ->.
  destruct Hx as [-> | Hx]; [exists y; cbn; auto|]. destruct (IH _ Hzs Hx) as (y' & ? & ?). exists y'. cbn. auto.
Qed.
