(* ===== verification/PyFloat.v ===== *)
(** * Python floats: IEEE 754 binary64, exactly

    Every finite double is an integer multiple of [2^-1074], the smallest
    subnormal.  A finite double is therefore kept as that integer, and each
    arithmetic operation is the exact rational result rounded once, to nearest
    with ties to even, as the standard prescribes.  Negative zero is
    identified with zero: the code modelled here never distinguishes them. *)

From S2P Require Import Prelude.

Local Open Scope Z_scope.

(** ** Rounding *)

(** [p / q] rounded to the nearest integer, ties to even ([0 < q]). *)
Definition round_half_even (p q : Z) : Z :=
  let d := p / q in
  let r := p mod q in
  if 2 * r <? q then d
  else if q <? 2 * r then d + 1
  else if Z.even d then d else d + 1.

(** The exponent of the last of the 53 significant bits of [p / q]. *)
Definition quantum (p q : Z) : Z := Z.max 0 (Z.log2 (p / q) - 52).

Definition round_abs (p q : Z) : Z :=
  round_half_even p (q * 2 ^ quantum p q) * 2 ^ quantum p q.

(** The double nearest to [p / q], in units of [2^-1074]. *)
Definition round_double (p q : Z) : Z := Z.sgn p * round_abs (Z.abs p) q.

(** A stored double: a value rounding leaves unchanged. *)
Definition is_double (m : Z) : Prop := round_double m 1 = m.

Section rounding.
Context (q : Z) (q_pos : 0 < q).

Lemma round_half_even_near p :
  2 * q * round_half_even p q - q <= 2 * p <= 2 * q * round_half_even p q + q.
Proof.
  unfold round_half_even.
  pose proof (Z.div_mod p q ltac:(lia)). pose proof (Z.mod_pos_bound p q q_pos).
  destruct (2 * (p mod q) <? q) eqn:E1; [bool_to_prop; nia|].
  destruct (q <? 2 * (p mod q)) eqn:E2; bool_to_prop; [nia|].
  destruct (Z.even _); nia.
Qed.

Lemma round_half_even_mono p p' :
  p <= p' -> round_half_even p q <= round_half_even p' q.
Proof.
  intros Hle.
  pose proof (round_half_even_near p) as [Ha Hb].
  pose proof (round_half_even_near p') as [Hc Hd].
  destruct (Z.le_gt_cases (round_half_even p q) (round_half_even p' q)) as [|Hgt]; [assumption|].
  assert (p = p') as -> by nia. lia.
Qed.

Lemma round_half_even_exact k : round_half_even (k * q) q = k.
Proof.
  unfold round_half_even.
  rewrite Z.div_mul, Z.mod_mul by lia.
  destruct (2 * 0 <? q) eqn:E; bool_to_prop; [reflexivity | lia].
Qed.

Lemma round_half_even_nonneg p : 0 <= p -> 0 <= round_half_even p q.
Proof. intros H. rewrite <- (round_half_even_exact 0). now apply round_half_even_mono. Qed.
End rounding.

Lemma quantum_nonneg p q : 0 <= quantum p q.
Proof. unfold quantum; lia. Qed.

Lemma pow_quantum_pos p q : 0 < 2 ^ quantum p q.
Proof. apply Z.pow_pos_nonneg; [lia | apply quantum_nonneg]. Qed.

(** The quantum is the right one: [p / q < 2 ^ (quantum + 53)]. *)
Lemma quantum_upper p q : 0 <= p -> 0 < q -> p < 2 ^ 53 * (q * 2 ^ quantum p q).
Proof.
  intros Hp Hq. pose proof (Z.div_pos p q Hp Hq) as Hd.
  assert (p / q < 2 ^ 53 * 2 ^ quantum p q) as Hlt.
  { rewrite <- Z.pow_add_r by (pose proof (quantum_nonneg p q); lia).
    destruct (Z.eq_dec (p / q) 0) as [->|Hnz]; [apply Z.pow_pos_nonneg; pose proof (quantum_nonneg p q); lia|].
    pose proof (Z.log2_spec (p / q) ltac:(lia)) as [_ Hs].
    eapply Z.lt_le_trans; [exact Hs|].
    apply Z.pow_le_mono_r; unfold quantum; lia. }
  pose proof (Z.div_mod p q ltac:(lia)). pose proof (Z.mod_pos_bound p q Hq).
  remember (2 ^ quantum p q) as w. remember (p / q) as d. nia.
Qed.

(** ... and when it is positive, [2 ^ (quantum + 52) <= p / q]. *)
Lemma quantum_lower p q :
  0 <= p -> 0 < q -> 0 < quantum p q -> 2 ^ 52 * (q * 2 ^ quantum p q) <= p.
Proof.
  intros Hp Hq Hpos.
  assert (2 ^ 52 * 2 ^ quantum p q <= p / q) as Hle.
  { rewrite <- Z.pow_add_r by lia.
    unfold quantum in *. assert (0 < p / q) as Hd.
    { destruct (Z.le_gt_cases (p / q) 0) as [Hz|]; [|assumption].
      rewrite Z.log2_nonpos in Hpos by exact Hz. lia. }
    pose proof (Z.log2_spec (p / q) Hd) as [Hs _].
    eapply Z.le_trans; [|exact Hs]. apply Z.pow_le_mono_r; lia. }
  pose proof (Z.mul_div_le p q Hq).
  remember (2 ^ quantum p q) as w. remember (p / q) as d. nia.
Qed.

Lemma round_abs_nonneg p q : 0 <= p -> 0 < q -> 0 <= round_abs p q.
Proof.
  intros Hp Hq. unfold round_abs. pose proof (pow_quantum_pos p q) as Hw.
  apply Z.mul_nonneg_nonneg; [|lia]. apply round_half_even_nonneg; nia.
Qed.

Lemma round_abs_mono p p' q :
  0 <= p -> p <= p' -> 0 < q -> round_abs p q <= round_abs p' q.
Proof.
  intros Hp Hle Hq.
  assert (quantum p q <= quantum p' q) as Hqu.
  { unfold quantum. pose proof (Z.log2_le_mono (p / q) (p' / q) ltac:(apply Z.div_le_mono; lia)). lia. }
  unfold round_abs.
  pose proof (pow_quantum_pos p q) as Hw. pose proof (pow_quantum_pos p' q) as Hw'.
  destruct (Z.eq_dec (quantum p q) (quantum p' q)) as [->|Hne].
  { apply Z.mul_le_mono_nonneg_r; [lia|]. apply round_half_even_mono; nia. }
  (* the boundary [2 ^ (quantum p' + 52)] lies between the two results *)
  pose proof (quantum_upper p q Hp Hq) as Hu.
  pose proof (quantum_lower p' q ltac:(lia) Hq ltac:(pose proof (quantum_nonneg p q); lia)) as Hl.
  assert (2 ^ 53 * 2 ^ quantum p q <= 2 ^ 52 * 2 ^ quantum p' q) as Hb.
  { rewrite <- !Z.pow_add_r by (pose proof (quantum_nonneg p q); lia).
    apply Z.pow_le_mono_r; lia. }
  assert (round_half_even p (q * 2 ^ quantum p q) <= 2 ^ 53) as Hr.
  { rewrite <- (round_half_even_exact (q * 2 ^ quantum p q) ltac:(nia) (2 ^ 53)).
    apply round_half_even_mono; [nia|]. lia. }
  assert (2 ^ 52 <= round_half_even p' (q * 2 ^ quantum p' q)) as Hr'.
  { rewrite <- (round_half_even_exact (q * 2 ^ quantum p' q) ltac:(nia) (2 ^ 52)).
    apply round_half_even_mono; [nia|]. lia. }
  nia.
Qed.

(** Rounding is monotone: the basis of every ordering fact about sums. *)
Lemma round_double_mono p p' q :
  0 < q -> p <= p' -> round_double p q <= round_double p' q.
Proof.
  intros Hq Hle. unfold round_double.
  destruct (Z.lt_trichotomy p 0) as [Hp|[->|Hp]], (Z.lt_trichotomy p' 0) as [Hp'|[->|Hp']]; try lia.
  - rewrite !Z.sgn_neg, !Z.abs_neq by lia.
    pose proof (round_abs_mono (- p') (- p) q ltac:(lia) ltac:(lia) Hq). lia.
  - rewrite Z.sgn_neg, Z.abs_neq by lia. cbn [Z.sgn].
    pose proof (round_abs_nonneg (- p) q ltac:(lia) Hq). lia.
  - rewrite Z.sgn_neg, Z.abs_neq, Z.sgn_pos, Z.abs_eq by lia.
    pose proof (round_abs_nonneg (- p) q ltac:(lia) Hq).
    pose proof (round_abs_nonneg p' q ltac:(lia) Hq). lia.
  - rewrite (Z.sgn_pos p'), (Z.abs_eq p') by lia. cbn [Z.sgn].
    pose proof (round_abs_nonneg p' q ltac:(lia) Hq). lia.
  - rewrite !Z.sgn_pos, !Z.abs_eq by lia.
    pose proof (round_abs_mono p p' q ltac:(lia) ltac:(lia) Hq). lia.
Qed.

(** Integers of at most 53 significant bits are doubles. *)
Lemma round_abs_representable n e :
  0 <= n <= 2 ^ 53 -> 0 <= e -> round_abs (n * 2 ^ e) 1 = n * 2 ^ e.
Proof.
  intros Hn He. unfold round_abs. rewrite Z.mul_1_l.
  assert (exists k, n * 2 ^ e = k * 2 ^ quantum (n * 2 ^ e) 1) as [k Hk].
  { destruct (Z.eq_dec n 0) as [->|Hnz]; [exists 0; reflexivity|].
    assert (quantum (n * 2 ^ e) 1 <= e \/ (n = 2 ^ 53 /\ quantum (n * 2 ^ e) 1 = e + 1)) as [Hle|[-> Hq]].
    { unfold quantum. rewrite Z.div_1_r, Z.log2_mul_pow2 by lia.
      destruct (Z.eq_dec n (2 ^ 53)) as [->|Hne].
      - right. rewrite Z.log2_pow2 by lia. lia.
      - left. pose proof (Z.log2_lt_pow2 n 53 ltac:(lia)). lia. }
    - exists (n * 2 ^ (e - quantum (n * 2 ^ e) 1)).
      pose proof (quantum_nonneg (n * 2 ^ e) 1).
      rewrite <- Z.mul_assoc, <- Z.pow_add_r by lia. do 2 f_equal. lia.
    - exists (2 ^ 52). rewrite Hq, <- !Z.pow_add_r by lia. f_equal. lia. }
  pose proof (pow_quantum_pos (n * 2 ^ e) 1) as Hw.
  remember (2 ^ quantum (n * 2 ^ e) 1) as w eqn:Ew.
  rewrite Hk at 1. rewrite round_half_even_exact by exact Hw. congruence.
Qed.

Lemma representable_is_double n e :
  Z.abs n <= 2 ^ 53 -> 0 <= e -> is_double (n * 2 ^ e).
Proof.
  intros Hn He. unfold is_double, round_double.
  assert (0 < 2 ^ e) as Hw by (apply Z.pow_pos_nonneg; lia).
  rewrite Z.abs_mul, (Z.abs_eq (2 ^ e)), round_abs_representable by lia.
  rewrite Z.sgn_mul, (Z.sgn_pos (2 ^ e)) by lia.
  pose proof (Z.sgn_abs n). nia.
Qed.

(** Every result of rounding is a double. *)
Lemma round_double_is_double p q : 0 < q -> is_double (round_double p q).
Proof.
  intros Hq.
  assert (exists n e, round_double p q = n * 2 ^ e /\ Z.abs n <= 2 ^ 53 /\ 0 <= e) as (n & e & -> & Hn & He).
  { exists (Z.sgn p * round_half_even (Z.abs p) (q * 2 ^ quantum (Z.abs p) q)), (quantum (Z.abs p) q).
    split; [unfold round_double, round_abs; ring|]. split; [|apply quantum_nonneg].
    pose proof (pow_quantum_pos (Z.abs p) q) as Hw.
    pose proof (quantum_upper (Z.abs p) q ltac:(lia) Hq) as Hu.
    pose proof (round_half_even_nonneg (q * 2 ^ quantum (Z.abs p) q) ltac:(nia) (Z.abs p) ltac:(lia)) as H0.
    assert (round_half_even (Z.abs p) (q * 2 ^ quantum (Z.abs p) q) <= 2 ^ 53) as Hr.
    { rewrite <- (round_half_even_exact (q * 2 ^ quantum (Z.abs p) q) ltac:(nia) (2 ^ 53)).
      apply round_half_even_mono; [nia|]. lia. }
    rewrite Z.abs_mul. pose proof (Z.abs_sgn p) as Hs. destruct (Z.sgn_spec p) as [[? ->]|[[? ->]|[? ->]]]; lia. }
  now apply representable_is_double.
Qed.

(** ** Values and operations *)

(** One second (or any unit 1.0) in units of [2^-1074]. *)
Definition scale : Z := 2 ^ 1074.
(** The first magnitude that overflows: [2^1024]. *)
Definition overflow_limit : Z := 2 ^ 2098.

Inductive pyfloat : Type :=
| Fin (m : Z)          (* the finite double [m * 2^-1074] *)
| Inf (neg : bool)     (* [float("inf")], [float("-inf")] *)
| NaN.

#[export] Instance pyfloat_eq_dec : EqDecision pyfloat.
Proof. solve_decision. Defined.

(** The float nearest to [p / q] units, overflowing to an infinity. *)
Definition to_float (p q : Z) : pyfloat :=
  let m := round_double p q in
  if overflow_limit <=? Z.abs m then Inf (m <? 0) else Fin m.

(** The literal [num / den], e.g. [lit 1 10] for [0.1]. *)
Definition lit (num den : Z) : pyfloat := to_float (num * scale) den.

Definition fneg (x : pyfloat) : pyfloat :=
  match x with Fin m => Fin (- m) | Inf b => Inf (negb b) | NaN => NaN end.

Definition fadd (x y : pyfloat) : pyfloat :=
  match x, y with
  | Fin a, Fin b => to_float (a + b) 1
  | Inf s, Inf t => if Bool.eqb s t then Inf s else NaN
  | Inf s, Fin _ | Fin _, Inf s => Inf s
  | NaN, _ | _, NaN => NaN
  end.

Definition fsub (x y : pyfloat) : pyfloat := fadd x (fneg y).

Definition fmul (x y : pyfloat) : pyfloat :=
  match x, y with
  | Fin a, Fin b => to_float (a * b) scale
  | Inf s, Inf t => Inf (xorb s t)
  | Inf s, Fin a | Fin a, Inf s => if a =? 0 then NaN else Inf (xorb s (a <? 0))
  | NaN, _ | _, NaN => NaN
  end.

(** [x / y]; [None] is [ZeroDivisionError]. *)
Definition fdiv (x y : pyfloat) : option pyfloat :=
  match x, y with
  | NaN, Fin 0 | Inf _, Fin 0 | Fin _, Fin 0 => None
  | NaN, _ | _, NaN => Some NaN
  | Inf _, Inf _ => Some NaN
  | Inf s, Fin b => Some (Inf (xorb s (b <? 0)))
  | Fin _, Inf _ => Some (Fin 0)
  | Fin a, Fin b => Some (to_float (Z.sgn b * a * scale) (Z.abs b))
  end.

(** Comparisons; every comparison with a NaN is false. *)
Definition fle (x y : pyfloat) : bool :=
  match x, y with
  | NaN, _ | _, NaN => false
  | Fin a, Fin b => a <=? b
  | Inf s, Inf t => s || negb t
  | Inf s, Fin _ => s
  | Fin _, Inf t => negb t
  end.

Definition flt (x y : pyfloat) : bool :=
  match x, y with
  | NaN, _ | _, NaN => false
  | Fin a, Fin b => a <? b
  | Inf s, Inf t => s && negb t
  | Inf s, Fin _ => s
  | Fin _, Inf t => negb t
  end.

Definition feq (x y : pyfloat) : bool :=
  match x, y with
  | Fin a, Fin b => a =? b
  | Inf s, Inf t => Bool.eqb s t
  | _, _ => false
  end.

(** [math.isfinite]. *)
Definition fisfinite (x : pyfloat) : bool :=
  match x with Fin _ => true | _ => false end.

(** [min(x, y)] and [max(x, y)]: the first argument unless the second is
    strictly smaller (larger). *)
Definition fmin (x y : pyfloat) : pyfloat := if flt y x then y else x.
Definition fmax (x y : pyfloat) : pyfloat := if flt x y then y else x.

(** [float(n)] for an int; [None] is [OverflowError]. *)
Definition float_of_int (n : Z) : option pyfloat :=
  match to_float (n * scale) 1 with Fin m => Some (Fin m) | _ => None end.

(** The outcome of [float(value)]: a number, [TypeError]/[ValueError], or
    [OverflowError] (an [int] beyond the binary64 range). *)
Inductive float_call : Type := FloatOk (f : pyfloat) | FloatInvalid | FloatOverflow.

(** [int(x)] for a finite float: truncation toward zero. *)
Definition int_of_units (m : Z) : Z := Z.quot m scale.

(** A float that can exist: its mantissa is a double below the limit. *)
Definition fwf (x : pyfloat) : Prop :=
  match x with Fin m => is_double m /\ Z.abs m < overflow_limit | _ => True end.

Lemma scale_pos : 0 < scale.
Proof. apply Z.pow_pos_nonneg; lia. Qed.

Lemma to_float_wf p q : 0 < q -> fwf (to_float p q).
Proof.
  intros Hq. unfold to_float. split_if; cbn; [trivial|]. bool_to_prop.
  split; [now apply round_double_is_double | assumption].
Qed.

Lemma fadd_wf x y : fwf (fadd x y).
Proof.
  destruct x, y; cbn [fadd]; try exact I; [now apply to_float_wf|].
  split_if; exact I.
Qed.

Lemma round_double_0 q : round_double 0 q = 0.
Proof. reflexivity. Qed.

Lemma to_float_nonneg p q : 0 < q -> 0 <= p -> fle (Fin 0) (to_float p q) = true.
Proof.
  intros Hq Hp. pose proof (round_double_mono 0 p q Hq Hp) as H. rewrite round_double_0 in H.
  unfold to_float. split_if; cbn; bool_to_prop.
  - destruct (Z.ltb_spec (round_double p q) 0); [lia | reflexivity].
  - now apply Z.leb_le.
Qed.

(** Adding a nonnegative amount never moves a clock backwards. *)
Lemma fadd_ge a b :
  fwf (Fin a) -> 0 <= b -> fle (Fin a) (fadd (Fin a) (Fin b)) = true.
Proof.
  intros [Ha Hl] Hb. cbn [fadd].
  pose proof (round_double_mono a (a + b) 1 ltac:(lia) ltac:(lia)) as H. rewrite Ha in H.
  unfold to_float. split_if; cbn; bool_to_prop; [|now apply Z.leb_le].
  destruct (Z.ltb_spec (round_double (a + b) 1) 0) as [Hneg|]; [lia | reflexivity].
Qed.

(** Addition is monotone in both arguments. *)
Lemma fadd_mono a a' b b' :
  a <= a' -> b <= b' -> fle (fadd (Fin a) (Fin b)) (fadd (Fin a') (Fin b')) = true.
Proof.
  intros Ha Hb. cbn [fadd].
  pose proof (round_double_mono (a + b) (a' + b') 1 ltac:(lia) ltac:(lia)) as H.
  unfold to_float. repeat split_if; cbn; bool_to_prop.
  - destruct (Z.ltb_spec (round_double (a + b) 1) 0), (Z.ltb_spec (round_double (a' + b') 1) 0);
      reflexivity || lia.
  - destruct (Z.ltb_spec (round_double (a + b) 1) 0); [reflexivity | lia].
  - destruct (Z.ltb_spec (round_double (a' + b') 1) 0); [lia | reflexivity].
  - now apply Z.leb_le.
Qed.

(** A nonnegative double is a multiple of its quantum. *)
Lemma double_multiple a :
  is_double a -> 0 <= a -> exists n, a = n * 2 ^ quantum a 1.
Proof.
  intros Ha Hpos. unfold is_double, round_double in Ha.
  rewrite Z.abs_eq in Ha by lia. unfold round_abs in Ha.
  exists (Z.sgn a * round_half_even a (1 * 2 ^ quantum a 1)).
  rewrite <- Z.mul_assoc. symmetry; exact Ha.
Qed.

(** Adding at least [2 ^ k] units to a double below [2 ^ (k + 53)] is not
    absorbed by rounding: the sum is strictly larger. *)
Lemma round_double_strict a d k :
  is_double a -> 0 <= a -> 0 <= k -> a < 2 ^ (k + 53) -> 2 ^ k <= d ->
  a < round_double (a + d) 1.
Proof.
  intros Ha Hpos Hk Hlt Hd.
  assert (quantum a 1 <= k) as Hq.
  { unfold quantum. rewrite Z.div_1_r.
    destruct (Z.eq_dec a 0) as [->|]; [cbn; lia|].
    pose proof (Z.log2_lt_pow2 a (k + 53) ltac:(lia)). lia. }
  pose proof (quantum_nonneg a 1) as Hq0. pose proof (pow_quantum_pos a 1) as Hw.
  destruct (double_multiple a Ha Hpos) as [n Hn].
  pose proof (quantum_upper a 1 Hpos ltac:(lia)) as Hu. rewrite Z.mul_1_l in Hu.
  assert (is_double ((n + 1) * 2 ^ quantum a 1)) as Hnext.
  { apply representable_is_double; [|exact Hq0].
    remember (2 ^ quantum a 1) as w. nia. }
  pose proof (Z.pow_le_mono_r 2 (quantum a 1) k ltac:(lia) Hq) as Hpow.
  pose proof (round_double_mono ((n + 1) * 2 ^ quantum a 1) (a + d) 1 ltac:(lia) ltac:(lia)) as Hm.
  rewrite Hnext in Hm. lia.
Qed.

(** The same for float values: a clock below [2 ^ (k + 53)] units. *)
Lemma fadd_gt a d k :
  is_double a -> 0 <= a -> 0 <= k -> a < 2 ^ (k + 53) -> 2 ^ k <= d ->
  flt (Fin a) (fadd (Fin a) (Fin d)) = true.
Proof.
  intros Ha Hpos Hk Hlt Hd. cbn [fadd].
  pose proof (round_double_strict a d k Ha Hpos Hk Hlt Hd) as H.
  unfold to_float. split_if; cbn; bool_to_prop; [|now apply Z.ltb_lt].
  destruct (Z.ltb_spec (round_double (a + d) 1) 0); [lia | reflexivity].
Qed.

Lemma flt_Fin a b : flt (Fin a) (Fin b) = (a <? b).
Proof. reflexivity. Qed.
Lemma fle_Fin a b : fle (Fin a) (Fin b) = (a <=? b).
Proof. reflexivity. Qed.

(** Comparisons of floats that are numbers form a total order. *)
Definition is_number (x : pyfloat) : bool := match x with NaN => false | _ => true end.

Lemma fle_trans x y z : fle x y = true -> fle y z = true -> fle x z = true.
Proof.
  destruct x as [a|[]|], y as [b|[]|], z as [c|[]|]; cbn; try congruence;
    rewrite ?Z.leb_le; lia.
Qed.

Lemma flt_fle_trans x y z : flt x y = true -> fle y z = true -> flt x z = true.
Proof.
  destruct x as [a|[]|], y as [b|[]|], z as [c|[]|]; cbn; try congruence;
    rewrite ?Z.leb_le, ?Z.ltb_lt; lia.
Qed.

Lemma fle_flt_trans x y z : fle x y = true -> flt y z = true -> flt x z = true.
Proof.
  destruct x as [a|[]|], y as [b|[]|], z as [c|[]|]; cbn; try congruence;
    rewrite ?Z.leb_le, ?Z.ltb_lt; lia.
Qed.

Lemma flt_negb_fle x y :
  is_number x = true -> is_number y = true -> flt x y = negb (fle y x).
Proof.
  destruct x as [a|[]|], y as [b|[]|]; cbn; try congruence; intros _ _.
  apply Z.ltb_antisym.
Qed.

Lemma flt_irrefl x : flt x x = false.
Proof. destruct x as [a|[]|]; cbn; try reflexivity. apply Z.ltb_irrefl. Qed.

Lemma flt_not_fle x y : flt x y = true -> fle y x = false.
Proof. destruct x as [a|[]|], y as [b|[]|]; cbn; try congruence. intros H. apply Z.ltb_lt in H. now apply Z.leb_gt. Qed.

Create HintDb pyfloat.
#[export] Hint Resolve scale_pos to_float_wf fadd_wf fadd_ge flt_irrefl : pyfloat.

(** The model computes: [0.1 + 0.2] is the double next above [0.3]. *)
Example fadd_0_1_0_2 :
  fadd (lit 1 10) (lit 2 10) = lit 30000000000000004 100000000000000000
  /\ flt (lit 3 10) (fadd (lit 1 10) (lit 2 10)) = true.
Proof. split; vm_compute; reflexivity. Qed.

Example float_of_int_overflow : float_of_int (10 ^ 400) = None /\ float_of_int (2 ^ 53 + 1) = float_of_int (2 ^ 53).
Proof. split; vm_compute; reflexivity. Qed.
