(* ===== verification/PyStr.v ===== *)
(** * Python strings

    A [str] is modelled by a [string] whose characters are its code points:
    the strings of code points below 256 (Latin-1).  [strip], [lower],
    [isalnum], ... are Python's on that range, which they never leave. *)

From S2P Require Import Prelude PyFloat.
From Stdlib Require Import Ascii String.
From stdpp Require Import strings.

Local Open Scope Z_scope.

#[global] Arguments Strings.String.append !s1 s2 : simpl nomatch, rename.

(** ** Characters *)

Definition code (c : ascii) : Z := Z.of_N (N_of_ascii c).
Definition chr (z : Z) : ascii := ascii_of_N (Z.to_N z).

Definition in_range (lo hi : Z) (c : ascii) : bool := (lo <=? code c) && (code c <=? hi).
Definition is_char (z : Z) (c : ascii) : bool := code c =? z.

Definition is_upper_az := in_range 65 90.
Definition is_lower_az := in_range 97 122.
Definition is_digit := in_range 48 57.
Definition is_alnum_az (c : ascii) : bool := is_upper_az c || is_lower_az c || is_digit c.

(** The set of characters of a literal, as in a regular-expression class. *)
Fixpoint one_of (set : string) (c : ascii) : bool :=
  match set with
  | EmptyString => false
  | String d set' => Ascii.eqb c d || one_of set' c
  end.

(** [str.isspace] on one character. *)
Definition isspace (c : ascii) : bool :=
  in_range 9 13 c || in_range 28 32 c || is_char 133 c || is_char 160 c.

(** [str.isalnum] on one Latin-1 character: letters, digits, superscripts and
    fractions. *)
Definition isalnum (c : ascii) : bool :=
  is_alnum_az c || is_char 170 c || is_char 178 c || is_char 179 c || is_char 181 c || is_char 185 c
  || is_char 186 c || in_range 188 190 c || in_range 192 214 c || in_range 216 246 c || in_range 248 255 c.

(** [str.lower] on one character. *)
Definition lower_char (c : ascii) : ascii :=
  if is_upper_az c || (in_range 192 222 c && negb (is_char 215 c))
  then chr (code c + 32) else c.

(** ** Strings *)

Definition slen (s : string) : Z := Z.of_nat (Strings.String.length s).

Fixpoint sall (P : ascii -> bool) (s : string) : bool :=
  match s with EmptyString => true | String c s' => P c && sall P s' end.
Definition sany (P : ascii -> bool) (s : string) : bool := negb (sall (fun c => negb (P c)) s).

Definition is_empty (s : string) : bool := match s with EmptyString => true | _ => false end.

Fixpoint lstrip (s : string) : string :=
  match s with
  | EmptyString => EmptyString
  | String c s' => if isspace c then lstrip s' else s
  end.
Fixpoint rstrip (s : string) : string :=
  match s with
  | EmptyString => EmptyString
  | String c s' => let r := rstrip s' in if isspace c && is_empty r then EmptyString else String c r
  end.
Definition strip (s : string) : string := rstrip (lstrip s).

Fixpoint lower (s : string) : string :=
  match s with EmptyString => EmptyString | String c s' => String (lower_char c) (lower s') end.

(** [p in s], substring search. *)
Fixpoint contains (p s : string) : bool :=
  String.prefix p s || match s with EmptyString => false | String _ s' => contains p s' end.

Definition startswith (s p : string) : bool := String.prefix p s.
Fixpoint endswith (s p : string) : bool :=
  (if decide (s = p) then true else false)
  || match s with EmptyString => false | String _ s' => endswith s' p end.

(** [s.split(c)]. *)
Fixpoint split_on (c : ascii) (s : string) : list string :=
  match s with
  | EmptyString => [EmptyString]
  | String d s' =>
      match split_on c s' with
      | [] => [String d EmptyString]
      | w :: ws => if Ascii.eqb c d then EmptyString :: w :: ws else String d w :: ws
      end
  end.

(** [s[:n]] for [n >= 0]. *)
Fixpoint stake (n : nat) (s : string) : string :=
  match n, s with
  | S n', String c s' => String c (stake n' s')
  | _, _ => EmptyString
  end.

(** Code-point order, Python's [<=] on strings. *)
Definition str_leb (s t : string) : bool := String.leb s t.
Definition str_eqb (s t : string) : bool := bool_decide (s = t).

(** Python's [in] on a collection of strings. *)
Definition str_in (s : string) (l : list string) : bool := bool_decide (s ∈ l).

(** Patterns of the form [^H T{0,n}$] used with [fullmatch]. *)
Definition matches_head_tail (hd tl : ascii -> bool) (n : Z) (s : string) : bool :=
  match s with
  | EmptyString => false
  | String c s' => hd c && (slen s' <=? n) && sall tl s'
  end.

(** ** Decimal rendering: [str(n)] for a nonnegative int *)

Definition digit_char (d : Z) : ascii := chr (48 + d).
Fixpoint decimal_aux (fuel : nat) (n : Z) (acc : string) : string :=
  match fuel with
  | O => acc
  | S f => let acc' := String (digit_char (n mod 10)) acc in
           if n <? 10 then acc' else decimal_aux f (n / 10) acc'
  end.
(** [log2 n + 1] digits are always enough. *)
Definition decimal (n : Z) : string := decimal_aux (S (Z.to_nat (Z.log2 n))) n EmptyString.

(** ** Lemmas *)

Lemma code_bounds c : 0 <= code c < 256.
Proof. unfold code. pose proof (N_ascii_bounded c). lia. Qed.

Lemma code_chr z : 0 <= z < 256 -> code (chr z) = z.
Proof. intros H. unfold code, chr. rewrite N_ascii_embedding by lia. lia. Qed.

Lemma chr_code c : chr (code c) = c.
Proof. unfold code, chr. now rewrite N2Z.id, ascii_N_embedding. Qed.

Lemma code_inj c d : code c = code d -> c = d.
Proof. intros H. rewrite <- (chr_code c), <- (chr_code d). now rewrite H. Qed.

Lemma slen_nonneg s : 0 <= slen s.
Proof. unfold slen; lia. Qed.

Lemma slen_cons c s : slen (String c s) = slen s + 1.
Proof. unfold slen; cbn [Strings.String.length]; lia. Qed.

Lemma slen_app s t : slen (s +:+ t) = slen s + slen t.
Proof.
  induction s as [|c s IH]; [reflexivity|].
  change (String c s +:+ t) with (String c (s +:+ t)). rewrite !slen_cons. lia.
Qed.

Lemma is_empty_true s : is_empty s = true <-> s = EmptyString.
Proof. destruct s; cbn; split; congruence. Qed.

Lemma sall_impl (P Q : ascii -> bool) s :
  (forall c, P c = true -> Q c = true) -> sall P s = true -> sall Q s = true.
Proof. intros H. induction s as [|c s IH]; cbn; [trivial|]. intros HP; bool_to_prop. rewrite H, IH; auto. Qed.

Lemma sall_app P s t : sall P (s +:+ t) = sall P s && sall P t.
Proof.
  induction s as [|c s IH]; [reflexivity|].
  change (String c s +:+ t) with (String c (s +:+ t)). cbn [sall]. now rewrite IH, andb_assoc.
Qed.

Lemma sall_lstrip P s : sall P s = true -> sall P (lstrip s) = true.
Proof.
  induction s as [|c s IH]; cbn [lstrip]; [trivial|]. intros H.
  split_if; [|exact H]. cbn in H; bool_to_prop; auto.
Qed.

Lemma sall_rstrip P s : sall P s = true -> sall P (rstrip s) = true.
Proof.
  induction s as [|c s IH]; cbn [rstrip]; [trivial|]. intros H. cbn in H; bool_to_prop.
  split_if; [reflexivity|]. cbn. now rewrite H, IH.
Qed.

Lemma sall_strip P s : sall P s = true -> sall P (strip s) = true.
Proof. intros; now apply sall_rstrip, sall_lstrip. Qed.

(** A string with no whitespace is its own [strip]. *)
Lemma lstrip_nospace s : sall (fun c => negb (isspace c)) s = true -> lstrip s = s.
Proof. destruct s as [|c s]; cbn; [reflexivity|]. intros H; bool_to_prop. now rewrite H. Qed.

Lemma rstrip_nospace s : sall (fun c => negb (isspace c)) s = true -> rstrip s = s.
Proof.
  induction s as [|c s IH]; cbn; [reflexivity|]. intros H; bool_to_prop.
  rewrite H, IH by assumption. reflexivity.
Qed.

Lemma strip_nospace s : sall (fun c => negb (isspace c)) s = true -> strip s = s.
Proof. intros H. unfold strip. rewrite lstrip_nospace, rstrip_nospace; auto. Qed.

Lemma lstrip_idem s : lstrip (lstrip s) = lstrip s.
Proof.
  induction s as [|c s IH]; cbn [lstrip]; [reflexivity|].
  destruct (isspace c) eqn:E; [exact IH|]. cbn [lstrip]. now rewrite E.
Qed.

Lemma rstrip_idem s : rstrip (rstrip s) = rstrip s.
Proof.
  induction s as [|c s IH]; cbn [rstrip]; [reflexivity|].
  destruct (isspace c && is_empty (rstrip s)) eqn:E; [reflexivity|].
  cbn [rstrip]. now rewrite IH, E.
Qed.

(** [rstrip] keeps the first character of a string that starts with none. *)
Lemma lstrip_rstrip s : lstrip s = s -> lstrip (rstrip s) = rstrip s.
Proof.
  destruct s as [|c s]; cbn [lstrip rstrip]; [reflexivity|].
  destruct (isspace c) eqn:E.
  - intros H. exfalso. assert (slen (lstrip s) <= slen s) as Hl.
    { clear. induction s as [|c s IH]; cbn [lstrip]; [lia|].
      destruct (isspace c); rewrite ?slen_cons; lia. }
    rewrite H, slen_cons in Hl. lia.
  - intros _. cbn [andb lstrip]. now rewrite E.
Qed.

Lemma strip_idem s : strip (strip s) = strip s.
Proof.
  unfold strip. rewrite lstrip_rstrip by apply lstrip_idem. apply rstrip_idem.
Qed.

Lemma slen_lstrip s : slen (lstrip s) <= slen s.
Proof. induction s as [|c s IH]; cbn [lstrip]; [lia|]. destruct (isspace c); rewrite ?slen_cons in *; lia. Qed.

Lemma slen_rstrip s : slen (rstrip s) <= slen s.
Proof.
  induction s as [|c s IH]; cbn [rstrip]; [lia|].
  destruct (isspace c && is_empty (rstrip s)); rewrite ?slen_cons in *;
    [change (slen EmptyString) with 0; pose proof (slen_nonneg s)|]; lia.
Qed.

Lemma slen_strip s : slen (strip s) <= slen s.
Proof. unfold strip. pose proof (slen_rstrip (lstrip s)). pose proof (slen_lstrip s). lia. Qed.

Lemma lower_char_idem c : lower_char (lower_char c) = lower_char c.
Proof. destruct c as [[][][][][][][][]]; reflexivity. Qed.

Lemma lower_idem s : lower (lower s) = lower s.
Proof. induction s as [|c s IH]; cbn; [reflexivity|]. now rewrite lower_char_idem, IH. Qed.

Lemma slen_lower s : slen (lower s) = slen s.
Proof. induction s as [|c s IH]; cbn [lower]; [reflexivity|]. rewrite !slen_cons; lia. Qed.

Lemma isspace_lower c : isspace (lower_char c) = isspace c.
Proof. destruct c as [[][][][][][][][]]; reflexivity. Qed.

Lemma lower_lstrip s : lower (lstrip s) = lstrip (lower s).
Proof.
  induction s as [|c s IH]; cbn [lower lstrip]; [reflexivity|].
  rewrite isspace_lower. destruct (isspace c); [exact IH | reflexivity].
Qed.

Lemma is_empty_lower s : is_empty (lower s) = is_empty s.
Proof. destruct s; reflexivity. Qed.

Lemma lower_rstrip s : lower (rstrip s) = rstrip (lower s).
Proof.
  induction s as [|c s IH]; cbn [lower rstrip]; [reflexivity|].
  rewrite isspace_lower, <- IH, is_empty_lower.
  destruct (isspace c && is_empty (rstrip s)); reflexivity.
Qed.

Lemma lower_strip s : lower (strip s) = strip (lower s).
Proof. unfold strip. now rewrite lower_rstrip, lower_lstrip. Qed.

Lemma str_leb_total s t : str_leb s t = false -> str_leb t s = true.
Proof. unfold str_leb. destruct (Strings.String.leb_total s t); congruence. Qed.

Lemma str_leb_trans s t u : str_leb s t = true -> str_leb t u = true -> str_leb s u = true.
Proof.
  unfold str_leb. intros H1 H2.
  apply Is_true_true. apply Is_true_true in H1, H2.
  exact (transitivity (R := strings.String.le) H1 H2).
Qed.

Lemma str_leb_antisym s t : str_leb s t = true -> str_leb t s = true -> s = t.
Proof. apply Strings.String.leb_antisym. Qed.

Lemma str_eqb_eq s t : str_eqb s t = true <-> s = t.
Proof. apply bool_decide_eq_true. Qed.

Lemma str_in_spec s l : str_in s l = true <-> s ∈ l.
Proof. apply bool_decide_eq_true. Qed.

Lemma str_in_In x l : str_in x l = true <-> In x l.
Proof. now rewrite str_in_spec, list_elem_of_In. Qed.

Lemma str_in_false x l : str_in x l = false <-> ~ In x l.
Proof. rewrite <- str_in_In. now destruct (str_in x l). Qed.

Lemma matches_head_tail_sall hd tl n s :
  matches_head_tail hd tl n s = true -> sall (fun c => hd c || tl c) s = true.
Proof.
  destruct s as [|c s]; cbn; [discriminate|]. intros H; bool_to_prop.
  rewrite H; cbn. eapply sall_impl; [|eassumption]. intros d Hd. cbn in *. now rewrite Hd, orb_true_r.
Qed.

Lemma matches_head_tail_len hd tl n s :
  matches_head_tail hd tl n s = true -> 1 <= slen s <= n + 1.
Proof.
  destruct s as [|c s]; cbn [matches_head_tail]; [discriminate|]. intros H; bool_to_prop.
  rewrite slen_cons. pose proof (slen_nonneg s). lia.
Qed.

(** [sorted(set(l))]. *)
Definition sorted_set (l : list string) : list string := sort_by str_leb (remove_dups l).

Lemma sorted_set_In x l : In x (sorted_set l) <-> In x l.
Proof.
  unfold sorted_set. rewrite sort_by_In, <- !list_elem_of_In. apply elem_of_remove_dups.
Qed.

Create HintDb pystr.
Create Rewrite HintDb pystr.
#[export] Hint Resolve slen_nonneg slen_strip strip_idem lower_idem str_leb_total str_leb_trans : pystr.
#[export] Hint Rewrite strip_idem lower_idem slen_lower lower_strip slen_cons : pystr.
