(* ===== verification/Regex.v ===== *)
(** * Regular expressions with Brzozowski derivatives

    The patterns the code applies with [re.search] are written as terms of
    [re] and matched by derivatives; [re_matches_spec] relates the matcher to
    the usual denotation. *)

From S2P Require Import Prelude PyFloat PyStr.
From Stdlib Require Import Ascii String.

(** ** Syntax *)

Inductive re : Type :=
| Empty
| Eps
| Chr (p : ascii -> bool)
| Cat (r s : re)
| Alt (r s : re)
| Star (r : re).

Fixpoint nullable (r : re) : bool :=
  match r with
  | Empty | Chr _ => false
  | Eps | Star _ => true
  | Cat r s => nullable r && nullable s
  | Alt r s => nullable r || nullable s
  end.

(** Smart constructors keep derivatives small. *)
Definition cat (r s : re) : re :=
  match r, s with
  | Empty, _ | _, Empty => Empty
  | Eps, s => s
  | r, s => Cat r s
  end.
Definition alt (r s : re) : re :=
  match r, s with
  | Empty, s => s
  | r, Empty => r
  | r, s => Alt r s
  end.

Fixpoint deriv (c : ascii) (r : re) : re :=
  match r with
  | Empty | Eps => Empty
  | Chr p => if p c then Eps else Empty
  | Cat r s => if nullable r then alt (cat (deriv c r) s) (deriv c s) else cat (deriv c r) s
  | Alt r s => alt (deriv c r) (deriv c s)
  | Star r => cat (deriv c r) (Star r)
  end.

(** [re.fullmatch]. *)
Fixpoint re_matches (r : re) (s : string) : bool :=
  match s with
  | EmptyString => nullable r
  | String c s' => re_matches (deriv c r) s'
  end.

Definition any : re := Chr (fun _ => true).
(** [re.search]: a match anywhere. *)
Definition re_search (r : re) (s : string) : bool := re_matches (Cat (Star any) (Cat r (Star any))) s.

(** Abbreviations of the concrete syntax. *)
Definition re_opt (r : re) : re := Alt r Eps.
Definition re_plus (r : re) : re := Cat r (Star r).
Fixpoint re_rep (n : nat) (r : re) : re := match n with O => Eps | S n' => Cat r (re_rep n' r) end.
(** A literal under [IGNORECASE]. *)
Fixpoint word_i (s : string) : re :=
  match s with
  | EmptyString => Eps
  | String c s' => Cat (Chr (fun d => Ascii.eqb (lower_char d) (lower_char c))) (word_i s')
  end.
Fixpoint alts (l : list re) : re :=
  match l with [] => Empty | [r] => r | r :: l' => Alt r (alts l') end.
Fixpoint cats (l : list re) : re :=
  match l with [] => Eps | [r] => r | r :: l' => Cat r (cats l') end.
(** A character class under [IGNORECASE], given on lower-case letters. *)
Definition class_i (p : ascii -> bool) : re := Chr (fun c => p (lower_char c)).

(** ** Denotation *)

Inductive lang : re -> string -> Prop :=
| lang_eps : lang Eps EmptyString
| lang_chr p c : p c = true -> lang (Chr p) (String c EmptyString)
| lang_cat r s u v : lang r u -> lang s v -> lang (Cat r s) (u +:+ v)
| lang_alt_l r s u : lang r u -> lang (Alt r s) u
| lang_alt_r r s u : lang s u -> lang (Alt r s) u
| lang_star_nil r : lang (Star r) EmptyString
| lang_star_app r u v : lang r u -> lang (Star r) v -> lang (Star r) (u +:+ v).

Create HintDb regex.
#[export] Hint Constructors lang : regex.

Lemma append_nil_inv u v : u +:+ v = EmptyString -> u = EmptyString /\ v = EmptyString.
Proof. destruct u; cbn; [auto | discriminate]. Qed.

Lemma nullable_spec r : nullable r = true <-> lang r EmptyString.
Proof.
  split.
  - induction r; cbn; try discriminate; intros H; bool_to_prop; auto with regex.
    + change (EmptyString) with (EmptyString +:+ EmptyString); auto with regex.
    + apply orb_true_iff in H as [H|H]; auto with regex.
  - intros H. remember EmptyString as e eqn:E. revert E.
    induction H; intros E; cbn; try discriminate; auto.
    + apply append_nil_inv in E as [-> ->]. rewrite IHlang1, IHlang2; auto.
    + rewrite IHlang; auto.
    + rewrite IHlang by auto. apply orb_true_r.
Qed.

Lemma lang_cat_inv r s w : lang (Cat r s) w <-> exists u v, w = u +:+ v /\ lang r u /\ lang s v.
Proof.
  split; [inversion 1; eauto 6|]. intros (u & v & -> & Hu & Hv). now constructor.
Qed.

Lemma lang_cat_smart r s u : lang (cat r s) u <-> lang (Cat r s) u.
Proof.
  assert (forall t w, ~ lang (Cat Empty t) w) as Hl by (intros t w H; apply lang_cat_inv in H as (? & ? & _ & He & _); inversion He).
  assert (forall t w, ~ lang (Cat t Empty) w) as Hr by (intros t w H; apply lang_cat_inv in H as (? & ? & _ & _ & He); inversion He).
  assert (forall w, ~ lang Empty w) as H0 by (intros w H; inversion H).
  destruct r, s; cbn [cat]; split; intros H;
    try (now exfalso; eapply Hl; eassumption); try (now exfalso; eapply Hr; eassumption);
    try (now exfalso; eapply H0; eassumption); try exact H;
    try (now change u with (EmptyString +:+ u); constructor; [constructor | exact H]);
    apply lang_cat_inv in H as (a & b & -> & Ha & Hb); inversion Ha; subst; exact Hb.
Qed.

Lemma lang_alt_smart r s u : lang (alt r s) u <-> lang (Alt r s) u.
Proof.
  assert (forall w, ~ lang Empty w) as H0 by (intros w H; inversion H).
  destruct r, s; cbn [alt]; split; intros H; auto with regex;
    inversion H; subst; auto; exfalso; eapply H0; eassumption.
Qed.

Lemma lang_star_inv r c s :
  lang (Star r) (String c s) ->
  exists u v, s = u +:+ v /\ lang r (String c u) /\ lang (Star r) v.
Proof.
  intros H. remember (Star r) as t eqn:Et. remember (String c s) as w eqn:Ew.
  revert c s Ew. induction H; intros d w Ew; try discriminate.
  injection Et as ->. destruct u as [|e u].
  - cbn in Ew. subst v. eauto.
  - injection Ew as -> <-. eauto.
Qed.

Lemma deriv_spec c r s : lang (deriv c r) s <-> lang r (String c s).
Proof.
  revert s; induction r; intros w; cbn [deriv].
  - split; inversion 1.
  - split; inversion 1.
  - split.
    + destruct (p c) eqn:E; inversion 1; subst. now constructor.
    + inversion 1 as [|? ? Hp| | | | |]; subst. rewrite Hp. constructor.
  - assert (lang (Cat (deriv c r1) r2) w <-> exists u v, w = u +:+ v /\ lang r1 (String c u) /\ lang r2 v) as Hc.
    { rewrite lang_cat_inv. split; intros (u & v & -> & Hu & Hv); exists u, v; rewrite ?IHr1 in *; auto. }
    split.
    + intros H.
      assert (lang (Cat (deriv c r1) r2) w \/ (nullable r1 = true /\ lang (deriv c r2) w)) as [H1|[Hn H2]].
      { destruct (nullable r1); [|left; now apply lang_cat_smart].
        apply lang_alt_smart in H. inversion H; subst; [left; now apply lang_cat_smart | auto]. }
      * apply Hc in H1 as (u & v & -> & Hu & Hv).
        change (String c (u +:+ v)) with (String c u +:+ v). now constructor.
      * apply IHr2 in H2. apply nullable_spec in Hn.
        change (String c w) with (EmptyString +:+ String c w). now constructor.
    + intros H. apply lang_cat_inv in H as (u & v & E & Hu & Hv).
      destruct u as [|d u].
      * cbn in E; subst v. apply nullable_spec in Hu. rewrite Hu.
        apply lang_alt_smart, lang_alt_r. now apply IHr2.
      * cbn in E. injection E as <- ->.
        assert (lang (cat (deriv c r1) r2) (u +:+ v)) by (apply lang_cat_smart, Hc; eauto).
        destruct (nullable r1); [now apply lang_alt_smart, lang_alt_l | assumption].
  - rewrite lang_alt_smart. split; inversion 1; subst.
    + now apply lang_alt_l, IHr1.
    + now apply lang_alt_r, IHr2.
    + now apply lang_alt_l, IHr1.
    + now apply lang_alt_r, IHr2.
  - rewrite lang_cat_smart. split.
    + intros H. apply lang_cat_inv in H as (u & v & -> & Hu & Hv).
      change (String c (u +:+ v)) with (String c u +:+ v). constructor; [now apply IHr | exact Hv].
    + intros H. apply lang_star_inv in H as (u & v & -> & Hu & Hv).
      constructor; [now apply IHr | exact Hv].
Qed.

Lemma re_matches_spec r s : re_matches r s = true <-> lang r s.
Proof.
  revert r; induction s as [|c s IH]; intros r; cbn.
  - apply nullable_spec.
  - rewrite IH. apply deriv_spec.
Qed.

Lemma lang_star_any s : lang (Star any) s.
Proof.
  induction s as [|c s IH]; [constructor|].
  change (String c s) with (String c EmptyString +:+ s). constructor; [now constructor | exact IH].
Qed.

(** [re.search] finds exactly the strings with a factor in the language. *)
Lemma re_search_spec r s : re_search r s = true <-> exists u v w, s = u +:+ v +:+ w /\ lang r v.
Proof.
  unfold re_search. rewrite re_matches_spec. split.
  - intros H. apply lang_cat_inv in H as (u & t & -> & Hu & Ht).
    apply lang_cat_inv in Ht as (v & w & -> & Hv & Hw). eauto.
  - intros (u & v & w & -> & Hv). constructor; [apply lang_star_any|]. constructor; [exact Hv | apply lang_star_any].
Qed.
