(* ===== verification/PyVal.v ===== *)
(** * Python objects and dictionaries

    [pyval] is the part of Python's object universe that reaches the runtime
    type checks of the code ([isinstance(x, str)] and the like).  A [dict] is
    an association list in insertion order. *)

From S2P Require Import Prelude PyFloat PyStr.
From stdpp Require Import strings.

#[local] Set Warnings "-register-all".

Inductive pyval : Type :=
| VNone
| VBool (b : bool)
| VInt (z : Z)
| VFloat (f : pyfloat)
| VStr (s : string)
| VList (l : list pyval)
| VDict (items : list (string * pyval)).

#[export] Instance VStr_inj : Inj (=) (=) VStr.
Proof. now intros s t [= ->]. Qed.

(** Truth value. *)
Definition py_truthy (v : pyval) : bool :=
  match v with
  | VNone => false
  | VBool b => b
  | VInt z => negb (z =? 0)%Z
  | VFloat (Fin 0) => false
  | VFloat _ => true
  | VStr s => negb (is_empty s)
  | VList l => negb (bool_decide (length l = 0%nat))
  | VDict d => negb (bool_decide (length d = 0%nat))
  end.

(** ** Insertion-ordered dictionaries *)

Section dict.
Context {V : Type}.

Fixpoint dict_get (k : string) (d : list (string * V)) : option V :=
  match d with
  | [] => None
  | (k', v) :: d' => if str_eqb k k' then Some v else dict_get k d'
  end.

(** [d[k] = v]: an existing key keeps its position. *)
Fixpoint dict_set (k : string) (v : V) (d : list (string * V)) : list (string * V) :=
  match d with
  | [] => [(k, v)]
  | (k', v') :: d' => if str_eqb k k' then (k', v) :: d' else (k', v') :: dict_set k v d'
  end.

Fixpoint dict_del (k : string) (d : list (string * V)) : list (string * V) :=
  match d with
  | [] => []
  | (k', v') :: d' => if str_eqb k k' then d' else (k', v') :: dict_del k d'
  end.

Definition dict_keys (d : list (string * V)) : list string := map fst d.

(** [dict(sorted(d.items()))]: the keys are distinct, so comparing the pairs
    is comparing the keys. *)
Definition item_leb (a b : string * V) : bool := str_leb (fst a) (fst b).
Definition dict_sorted (d : list (string * V)) : list (string * V) := sort_by item_leb d.

Lemma dict_get_set k k' v d :
  dict_get k (dict_set k' v d) = if str_eqb k k' then Some v else dict_get k d.
Proof.
  induction d as [|[k2 v2] d IH]; cbn; [reflexivity|].
  destruct (str_eqb k' k2) eqn:E; cbn.
  - apply str_eqb_eq in E as <-. now destruct (str_eqb k k').
  - rewrite IH. destruct (str_eqb k k2) eqn:E2, (str_eqb k k') eqn:E3; try reflexivity.
    apply str_eqb_eq in E2, E3. subst. unfold str_eqb in E. now rewrite bool_decide_eq_false in E.
Qed.

Lemma dict_keys_set k v d k' :
  k' ∈ dict_keys (dict_set k v d) <-> k' = k \/ k' ∈ dict_keys d.
Proof.
  induction d as [|[k2 v2] d IH]; cbn.
  - rewrite list_elem_of_singleton. rewrite elem_of_nil. tauto.
  - destruct (str_eqb k k2) eqn:E; cbn; rewrite !elem_of_cons.
    + apply str_eqb_eq in E as ->. tauto.
    + unfold dict_keys in *. rewrite IH. tauto.
Qed.

Lemma NoDup_dict_set k v d : NoDup (dict_keys d) -> NoDup (dict_keys (dict_set k v d)).
Proof.
  induction d as [|[k2 v2] d IH]; cbn; intros H.
  - apply NoDup_cons; split; [apply not_elem_of_nil | constructor].
  - destruct (str_eqb k k2) eqn:E; cbn; [exact H|].
    apply NoDup_cons in H as [Hn Hd]. apply NoDup_cons; split; [|auto].
    change (k2 ∉ dict_keys (dict_set k v d)). rewrite dict_keys_set.
    intros [->|Hin]; [|now apply Hn].
    unfold str_eqb in E. now rewrite bool_decide_eq_false in E.
Qed.

Lemma In_dict_set k v d p : In p (dict_set k v d) -> p = (k, v) \/ In p d.
Proof.
  induction d as [|[k2 v2] d IH]; cbn; [intros [<-|[]]; auto|].
  destruct (str_eqb k k2) eqn:E; cbn; intros [<-|H]; auto.
  - apply str_eqb_eq in E as ->; auto.
  - apply IH in H as [->|H]; auto.
Qed.

Lemma dict_set_fresh k v d : k ∉ dict_keys d -> dict_set k v d = d ++ [(k, v)].
Proof.
  induction d as [|[k2 v2] d IH]; cbn; [reflexivity|].
  rewrite elem_of_cons. intros H. unfold str_eqb.
  rewrite bool_decide_eq_false_2 by tauto. f_equal. apply IH; tauto.
Qed.

Lemma dict_sorted_sorted d :
  StronglySorted (fun a b => item_leb a b = true) (dict_sorted d).
Proof.
  apply sort_by_sorted; unfold item_leb; intros; [now apply str_leb_total|].
  eapply str_leb_trans; eassumption.
Qed.

Lemma dict_sorted_In p d : In p (dict_sorted d) <-> In p d.
Proof. apply sort_by_In. Qed.

Lemma dict_sorted_idem d : dict_sorted (dict_sorted d) = dict_sorted d.
Proof. apply sort_by_id, dict_sorted_sorted. Qed.

Lemma NoDup_dict_sorted d : NoDup (dict_keys d) -> NoDup (dict_keys (dict_sorted d)).
Proof.
  unfold dict_keys. intros H.
  now rewrite <- (Permutation_map fst (sort_by_perm item_leb d)).
Qed.

Lemma dict_get_In k v d : dict_get k d = Some v -> In (k, v) d.
Proof.
  induction d as [|[k2 v2] d IH]; cbn; [discriminate|].
  destruct (str_eqb k k2) eqn:E; [|auto].
  apply str_eqb_eq in E as ->. intros [= ->]; auto.
Qed.

Lemma In_dict_get k v d : NoDup (dict_keys d) -> In (k, v) d -> dict_get k d = Some v.
Proof.
  induction d as [|[k2 v2] d IH]; cbn; intros Hn; [intros []|].
  apply NoDup_cons in Hn as [Hk Hn]. intros [[= -> ->]|H].
  - unfold str_eqb. now rewrite bool_decide_eq_true_2.
  - unfold str_eqb. rewrite bool_decide_eq_false_2; [auto|].
    intros ->. apply Hk, list_elem_of_In. now apply (in_map fst) in H.
Qed.

Lemma dict_get_None k d : dict_get k d = None <-> k ∉ dict_keys d.
Proof.
  induction d as [|[k2 v2] d IH]; cbn; [split; [intros _; apply not_elem_of_nil | auto]|].
  rewrite not_elem_of_cons. unfold str_eqb. case_bool_decide as E; [split; [discriminate | tauto]|].
  unfold dict_keys in IH. rewrite IH. tauto.
Qed.

(** Two sorted dicts with the same lookups are the same dict. *)
Lemma dict_sorted_ext d1 d2 :
  StronglySorted (fun a b => item_leb a b = true) d1 -> NoDup (dict_keys d1) ->
  StronglySorted (fun a b => item_leb a b = true) d2 -> NoDup (dict_keys d2) ->
  (forall k, dict_get k d1 = dict_get k d2) -> d1 = d2.
Proof.
  intros Hs1; revert d2. induction Hs1 as [|[k1 v1] d1 Hs1 IH H1]; intros d2 Hn1 Hs2 Hn2 He.
  - destruct d2 as [|[k2 v2] d2]; [reflexivity|]. specialize (He k2). cbn in He.
    unfold str_eqb in He. rewrite bool_decide_eq_true_2 in He; [discriminate | reflexivity].
  - assert (dict_get k1 d2 = Some v1) as G1.
    { rewrite <- He. cbn. unfold str_eqb. now rewrite bool_decide_eq_true_2. }
    destruct Hs2 as [|[k2 v2] d2 Hs2 H2]; [discriminate|].
    assert (dict_get k2 ((k1, v1) :: d1) = Some v2) as G2.
    { rewrite He. cbn. unfold str_eqb. now rewrite bool_decide_eq_true_2. }
    apply NoDup_cons in Hn1 as [Hk1 Hn1], Hn2 as [Hk2 Hn2].
    rewrite List.Forall_forall in H1, H2.
    assert (k1 = k2) as <-.
    { apply dict_get_In in G1 as [[= <- _]|G1]; [reflexivity|].
      apply dict_get_In in G2 as [[= <- _]|G2]; [reflexivity|].
      apply str_leb_antisym; [apply (H1 _ G2) | apply (H2 _ G1)]. }
    cbn in G1. unfold str_eqb in G1. rewrite bool_decide_eq_true_2 in G1 by reflexivity.
    injection G1 as ->. f_equal. apply IH; auto.
    intros k. destruct (decide (k = k1)) as [->|Hne].
    + apply dict_get_None in Hk1, Hk2. cbn in Hk1, Hk2. now rewrite Hk1, Hk2.
    + specialize (He k). cbn in He. unfold str_eqb in He.
      now rewrite bool_decide_eq_false_2 in He.
Qed.

Lemma dict_filter_sorted P d :
  StronglySorted (fun a b => item_leb a b = true) d ->
  StronglySorted (fun a b => item_leb a b = true) (List.filter P d).
Proof.
  induction 1 as [|p d Hd IH Hp]; cbn; [constructor|].
  destruct (P p); [|exact IH]. constructor; [exact IH|].
  rewrite List.Forall_forall in *. intros x [Hx _]%filter_In. auto.
Qed.

Lemma NoDup_dict_filter P d : NoDup (dict_keys d) -> NoDup (dict_keys (List.filter P d)).
Proof.
  induction d as [|p d IH]; cbn; [auto|]. intros [Hp Hd]%NoDup_cons.
  destruct (P p); [|auto]. cbn. apply NoDup_cons. split; [|auto].
  intros Hin. apply Hp. rewrite list_elem_of_In in *. apply in_map_iff in Hin as (x & <- & Hx).
  apply in_map. now apply filter_In in Hx.
Qed.

Lemma dict_get_filter_key (P : string -> bool) k d :
  dict_get k (List.filter (fun kv => P (fst kv)) d) = if P k then dict_get k d else None.
Proof.
  induction d as [|[k2 v2] d IH]; cbn; [now destruct (P k)|].
  unfold str_eqb in *. destruct (P k2) eqn:E; cbn; unfold str_eqb; case_bool_decide as Ek;
    subst; rewrite ?E in *; auto.
Qed.
End dict.

Create HintDb pydict.
#[export] Hint Resolve NoDup_dict_set NoDup_dict_sorted dict_sorted_sorted : pydict.

(** ** Equality and iteration *)

(** The exact value of a number ([True] is 1), as an unrounded [Fin]. *)
Definition py_number (v : pyval) : option pyfloat :=
  match v with
  | VBool b => Some (Fin ((if b then 1 else 0) * scale))
  | VInt z => Some (Fin (z * scale))
  | VFloat f => Some f
  | _ => None
  end.

(** [==].  Lists and tuples are not told apart, and a NaN inside a container is
    never equal to itself. *)
Fixpoint py_eqb (a b : pyval) {struct a} : bool :=
  match a, b with
  | VNone, VNone => true
  | VStr s, VStr t => str_eqb s t
  | VList l, VList r =>
      (fix go (l r : list pyval) {struct l} : bool :=
         match l, r with
         | [], [] => true
         | x :: l', y :: r' => py_eqb x y && go l' r'
         | _, _ => false
         end) l r
  | VDict d, VDict e =>
      bool_decide (length d = length e) &&
      (fix go (d : list (string * pyval)) : bool :=
         match d with
         | [] => true
         | (k, x) :: d' => match dict_get k e with Some y => py_eqb x y | None => false end && go d'
         end) d
  | _, _ => match py_number a, py_number b with Some x, Some y => feq x y | _, _ => false end
  end.

(** [v == s] for a string [s]. *)
Definition is_str (v : pyval) (s : string) : bool := match v with VStr t => str_eqb t s | _ => false end.

Lemma is_str_eq v s : is_str v s = true <-> v = VStr s.
Proof. destruct v; cbn; try (split; discriminate). rewrite str_eqb_eq. split; congruence. Qed.

Lemma is_str_refl s : is_str (VStr s) s = true.
Proof. now apply is_str_eq. Qed.

(** [mapping.get(name)]. *)
Definition dict_read (name : string) (d : list (string * pyval)) : pyval := from_option id VNone (dict_get name d).

(** [d.update(e)], and [{**d, **e}]. *)
Definition dict_update (d e : list (string * pyval)) : list (string * pyval) :=
  fold_left (fun d kv => dict_set (fst kv) (snd kv) d) e d.

Definition is_none (v : pyval) : bool := match v with VNone => true | _ => false end.

(** The characters of a string, each as a string. *)
Fixpoint str_chars (s : string) : list pyval :=
  match s with EmptyString => [] | String c s' => VStr (String c EmptyString) :: str_chars s' end.

(** [list(v)]; [None] is [TypeError]. *)
Definition py_iter (v : pyval) : option (list pyval) :=
  match v with
  | VList l => Some l
  | VStr s => Some (str_chars s)
  | VDict d => Some (map (fun kv => VStr (fst kv)) d)
  | _ => None
  end.

(** Lists and dicts are not hashable. *)
Definition py_hashable (v : pyval) : bool := match v with VList _ | VDict _ => false | _ => true end.

(** [len(set(l))] for hashable values. *)
Fixpoint py_distinct (l : list pyval) : nat :=
  match l with [] => 0%nat | x :: l' => if existsb (py_eqb x) l' then py_distinct l' else S (py_distinct l') end.

Lemma py_distinct_le l : (py_distinct l <= length l)%nat.
Proof. induction l as [|x l IH]; cbn; [lia|]. destruct (existsb (py_eqb x) l); lia. Qed.

Lemma py_eqb_str s v : py_eqb (VStr s) v = is_str v s.
Proof. destruct v; cbn; try reflexivity. unfold str_eqb. apply bool_decide_ext. split; congruence. Qed.

(** Strings are counted once each. *)
Lemma py_distinct_NoDup l : (forall v, In v l -> exists s, v = VStr s) ->
  py_distinct l = length l <-> NoDup l.
Proof.
  induction l as [|x l IH]; cbn [py_distinct length]; intros Hs; [split; constructor|].
  assert (forall v, In v l -> exists s, v = VStr s) as Hs' by (intros v Hv; apply Hs; now right).
  specialize (IH Hs'). destruct (Hs x (or_introl eq_refl)) as [s ->].
  pose proof (py_distinct_le l) as Hle. destruct (existsb (py_eqb (VStr s)) l) eqn:E.
  - split; [lia|]. intros [Hn _]%NoDup_cons. exfalso. apply Hn, list_elem_of_In.
    apply existsb_exists in E as (v & Hv & He). rewrite py_eqb_str, is_str_eq in He. now subst.
  - rewrite NoDup_cons. split.
    + intros H. split; [|apply IH; lia]. intros Hin%list_elem_of_In.
      enough (existsb (py_eqb (VStr s)) l = true) by congruence. apply existsb_exists.
      exists (VStr s). split; [exact Hin|]. rewrite py_eqb_str. apply is_str_refl.
    + intros [_ H]. apply IH in H. lia.
Qed.

(** ** Equality is transitive *)

Section pyval_nested.
Context (P : pyval -> Prop).
Hypothesis Hnone : P VNone.
Hypothesis Hbool : forall b, P (VBool b).
Hypothesis Hint_ : forall z, P (VInt z).
Hypothesis Hfloat : forall f, P (VFloat f).
Hypothesis Hstr : forall s, P (VStr s).
Hypothesis Hlist : forall l, (forall v, In v l -> P v) -> P (VList l).
Hypothesis Hdict : forall d, (forall k v, In (k, v) d -> P v) -> P (VDict d).

(** Induction through the lists and dicts. *)
Fixpoint pyval_nested_ind (v : pyval) : P v.
Proof.
  destruct v as [ | b | z | f | s | l | d ]; [auto | auto | auto | auto | auto | apply Hlist | apply Hdict].
  - induction l as [|x l IH]; intros v; [intros [] | intros [<- | H]; [apply pyval_nested_ind | exact (IH v H)]].
  - induction d as [|[k0 x] d IH]; intros k v; [intros [] | intros [[= _ <-] | H]; [apply pyval_nested_ind | exact (IH k v H)]].
Qed.
End pyval_nested.

Lemma py_eqb_list l r : py_eqb (VList l) (VList r) = true <-> Forall2 (fun x y => py_eqb x y = true) l r.
Proof.
  revert r. induction l as [|x l IH]; intros [|y r]; cbn.
  - split; [constructor | reflexivity].
  - split; [discriminate | intros H; inversion H].
  - split; [discriminate | intros H; inversion H].
  - rewrite andb_true_iff. cbn in IH. rewrite IH. split; [intros [H1 H2]; now constructor | intros H; inversion H; auto].
Qed.

Lemma py_eqb_dict d e : py_eqb (VDict d) (VDict e) = true <->
  length d = length e /\ forall k x, In (k, x) d -> exists y, dict_get k e = Some y /\ py_eqb x y = true.
Proof.
  cbn. rewrite andb_true_iff, bool_decide_eq_true. apply and_iff_compat_l.
  induction d as [|[k x] d IH]; [split; [intros _ k x [] | reflexivity]|].
  rewrite andb_true_iff, IH. split.
  - intros [H1 H2] k' x' [[= <- <-] | H]; [|apply H2, H]. destruct (dict_get k e) as [y|]; [eauto | discriminate].
  - intros H. split; [|intros k' x' Hin; apply H; right; exact Hin].
    destruct (H k x (or_introl eq_refl)) as (y & -> & Hy). exact Hy.
Qed.

Lemma feq_trans x y z : feq x y = true -> feq y z = true -> feq x z = true.
Proof.
  destruct x, y, z; cbn; try discriminate.
  - rewrite !Z.eqb_eq. congruence.
  - rewrite !eqb_true_iff. congruence.
Qed.

(** Equal numbers. *)
Lemma py_eqb_number a b : py_number a <> None -> py_eqb a b = true -> exists x y, py_number a = Some x /\ py_number b = Some y /\ feq x y = true.
Proof. destruct a; cbn; try congruence; intros _; destruct b; cbn; try discriminate; eauto. Qed.

Lemma py_number_eqb a b x y : py_number a = Some x -> py_number b = Some y -> feq x y = true -> py_eqb a b = true.
Proof. destruct a, b; cbn; try discriminate; intros [= <-] [= <-]; auto. Qed.

Lemma py_eqb_trans a b c : py_eqb a b = true -> py_eqb b c = true -> py_eqb a c = true.
Proof.
  assert (Hnum : forall a, py_number a <> None -> forall b c, py_eqb a b = true -> py_eqb b c = true -> py_eqb a c = true).
  { clear. intros a Ha b c H1 H2. apply py_eqb_number in H1 as (x & y & Hx & Hy & E1); [|exact Ha].
    apply py_eqb_number in H2 as (y' & z & Hy' & Hz & E2); [|congruence].
    rewrite Hy in Hy'. injection Hy' as <-. eapply py_number_eqb; eauto using feq_trans. }
  revert b c. induction a as [ | b0 | z | f | s | l IH | d IH ] using pyval_nested_ind;
    try (apply Hnum; discriminate).
  - intros b c Hb Hc. destruct b; cbn in Hb; try discriminate. exact Hc.
  - intros b c Hb Hc. rewrite py_eqb_str, is_str_eq in Hb. subst. exact Hc.
  - intros b c Hb Hc. destruct b as [ | | | | | r | ]; cbn in Hb; try discriminate.
    destruct c as [ | | | | | t | ]; cbn in Hc; try discriminate.
    change (py_eqb (VList l) (VList r) = true) in Hb. change (py_eqb (VList r) (VList t) = true) in Hc.
    rewrite py_eqb_list in *. revert t Hc. induction Hb as [|x y l r Hxy Hb IHb]; intros t Hc; inversion Hc; subst; constructor.
    + eapply IH; [now left | eassumption | assumption].
    + apply IHb; [|assumption]. intros v Hv. apply IH. now right.
  - intros b c Hb Hc. destruct b as [ | | | | | | e ]; cbn in Hb; try discriminate.
    destruct c as [ | | | | | | g ]; cbn in Hc; try discriminate.
    change (py_eqb (VDict d) (VDict e) = true) in Hb. change (py_eqb (VDict e) (VDict g) = true) in Hc.
    rewrite py_eqb_dict in *. destruct Hb as [Hl Hb], Hc as [Hl' Hc]. split; [congruence|].
    intros k x Hin. destruct (Hb k x Hin) as (y & Hy & Hxy). destruct (Hc k y (dict_get_In _ _ _ Hy)) as (z & Hz & Hyz).
    exists z. split; [exact Hz|]. eapply IH; eassumption.
Qed.

