(* ===== verification/Json.v ===== *)
(** * JSON text of flat string objects

    [json.dumps(d, ensure_ascii=False, sort_keys=True, separators=(",", ":"))]
    for a [dict[str, str]], and [json.loads] restricted to the texts whose
    value is such a dict.  Any other document gives [None]: the callers map
    every other JSON value to the same result as a parse error.  A [\uXXXX]
    escape above 255 is outside the string model and also gives [None]. *)

From S2P Require Import Prelude PyStr PyVal.
From Stdlib Require Import Ascii String.
From stdpp Require Import strings list.

Local Open Scope Z_scope.

Definition quote_char : ascii := chr 34.
Definition backslash : ascii := chr 92.

(** ** Writing *)

Definition hex_digit (d : Z) : ascii := if d <? 10 then chr (48 + d) else chr (87 + d).

Definition escape_char (c : ascii) : string :=
  if is_char 34 c then String backslash (String quote_char EmptyString)
  else if is_char 92 c then String backslash (String backslash EmptyString)
  else if is_char 10 c then String backslash "n"
  else if is_char 13 c then String backslash "r"
  else if is_char 9 c then String backslash "t"
  else if is_char 8 c then String backslash "b"
  else if is_char 12 c then String backslash "f"
  else if code c <? 32 then
    String backslash ("u00" +:+ String (hex_digit (code c / 16)) (String (hex_digit (code c mod 16)) EmptyString))
  else String c EmptyString.

Fixpoint escape (s : string) : string :=
  match s with EmptyString => EmptyString | String c s' => escape_char c +:+ escape s' end.

Definition json_quote (s : string) : string :=
  String quote_char (escape s +:+ String quote_char EmptyString).

Definition json_member (kv : string * string) : string :=
  json_quote (fst kv) +:+ String (chr 58) (json_quote (snd kv)).

Fixpoint json_members (d : list (string * string)) : string :=
  match d with
  | [] => EmptyString
  | [kv] => json_member kv
  | kv :: d' => json_member kv +:+ String (chr 44) (json_members d')
  end.

Definition json_dumps (d : list (string * string)) : string :=
  String (chr 123) (json_members (dict_sorted d) +:+ String (chr 125) EmptyString).

(** [len(s.encode("utf-8"))]. *)
Fixpoint utf8_len (s : string) : Z :=
  match s with EmptyString => 0 | String c s' => (if code c <? 128 then 1 else 2) + utf8_len s' end.

(** ** Reading *)

Definition hex_value (c : ascii) : option Z :=
  if is_digit c then Some (code c - 48)
  else if in_range 97 102 c then Some (code c - 87)
  else if in_range 65 70 c then Some (code c - 55)
  else None.

Definition hex4 (a b c d : ascii) : option Z :=
  match hex_value a, hex_value b, hex_value c, hex_value d with
  | Some w, Some x, Some y, Some z => Some (4096 * w + 256 * x + 16 * y + z)
  | _, _, _, _ => None
  end.

Definition simple_escape (c : ascii) : option ascii :=
  if is_char 34 c || is_char 92 c || is_char 47 c then Some c
  else if is_char 110 c then Some (chr 10)
  else if is_char 114 c then Some (chr 13)
  else if is_char 116 c then Some (chr 9)
  else if is_char 98 c then Some (chr 8)
  else if is_char 102 c then Some (chr 12)
  else None.

Definition push (c : ascii) (r : option (string * string)) : option (string * string) :=
  match r with Some (s, rest) => Some (String c s, rest) | None => None end.

(** The rest of a string literal, after its opening quote. *)
Fixpoint scan_string (s : string) : option (string * string) :=
  match s with
  | EmptyString => None
  | String c s1 =>
      if is_char 34 c then Some (EmptyString, s1)
      else if is_char 92 c then
        match s1 with
        | EmptyString => None
        | String e s2 =>
            match simple_escape e with
            | Some ch => push ch (scan_string s2)
            | None =>
                if is_char 117 e then
                  match s2 with
                  | String h1 (String h2 (String h3 (String h4 s3))) =>
                      match hex4 h1 h2 h3 h4 with
                      | Some n => if n <? 256 then push (chr n) (scan_string s3) else None
                      | None => None
                      end
                  | _ => None
                  end
                else None
            end
        end
      else if code c <? 32 then None
      else push c (scan_string s1)
  end.

Fixpoint skip_ws (s : string) : string :=
  match s with
  | String c s' => if is_char 32 c || is_char 9 c || is_char 10 c || is_char 13 c then skip_ws s' else s
  | EmptyString => EmptyString
  end.

(** The next token if it is the given character. *)
Definition expect (z : Z) (s : string) : option string :=
  match skip_ws s with
  | String c s' => if is_char z c then Some s' else None
  | EmptyString => None
  end.

Fixpoint scan_members (fuel : nat) (s : string) : option (list (string * string) * string) :=
  match fuel with
  | O => None
  | S fuel' =>
      s1 ← expect 34 s; k ← scan_string s1;
      s2 ← expect 58 (snd k); s3 ← expect 34 s2; v ← scan_string s3;
      match expect 44 (snd v) with
      | Some s4 => r ← scan_members fuel' s4; Some ((fst k, fst v) :: fst r, snd r)
      | None => s4 ← expect 125 (snd v); Some ([(fst k, fst v)], s4)
      end
  end.

(** [json.loads] with an [object_pairs_hook] that rejects duplicate keys. *)
Definition json_loads_flat (s : string) : option (list (string * string)) :=
  s1 ← expect 123 s;
  r ← match expect 125 s1 with
      | Some s2 => Some ([], s2)
      | None => scan_members (Strings.String.length s) s1
      end;
  match skip_ws (snd r) with
  | EmptyString => if bool_decide (NoDup (dict_keys (fst r))) then Some (fst r) else None
  | _ => None
  end.

(** ** Round trip *)

Lemma scan_escape_char c r : scan_string (escape_char c +:+ r) = push c (scan_string r).
Proof. destruct c as [[][][][][][][][]]; reflexivity. Qed.

Lemma app_assoc_str a b c : (a +:+ b) +:+ c = a +:+ (b +:+ c).
Proof. induction a as [|x a IH]; cbn; [reflexivity | now rewrite IH]. Qed.

Lemma scan_escape s r : scan_string (escape s +:+ String quote_char r) = Some (s, r).
Proof.
  induction s as [|c s IH]; [reflexivity|].
  cbn [escape]. now rewrite app_assoc_str, scan_escape_char, IH.
Qed.

Lemma quote_app s r : json_quote s +:+ r = String quote_char (escape s +:+ String quote_char r).
Proof. unfold json_quote. cbn [Strings.String.append]. now rewrite app_assoc_str. Qed.

Lemma member_app kv r :
  json_member kv +:+ r = String quote_char (escape (fst kv) +:+ String quote_char
    (String (chr 58) (String quote_char (escape (snd kv) +:+ String quote_char r)))).
Proof.
  unfold json_member. rewrite app_assoc_str, quote_app. cbn [Strings.String.append]. now rewrite quote_app.
Qed.

Lemma expect_eq z c s : is_char z c = true -> skip_ws (String c s) = String c s -> expect z (String c s) = Some s.
Proof. intros H1 H2. unfold expect. now rewrite H2, H1. Qed.

Lemma scan_members_step fuel kv r :
  scan_members (S fuel) (json_member kv +:+ r) =
  match expect 44 r with
  | Some s4 => x ← scan_members fuel s4; Some (kv :: fst x, snd x)
  | None => s4 ← expect 125 r; Some ([kv], s4)
  end.
Proof.
  rewrite member_app. destruct kv as [k v]. cbn [scan_members fst snd].
  rewrite expect_eq by reflexivity. cbn [mbind option_bind].
  rewrite scan_escape. cbn [mbind option_bind fst snd].
  rewrite expect_eq by reflexivity. cbn [mbind option_bind].
  rewrite expect_eq by reflexivity. cbn [mbind option_bind].
  rewrite scan_escape. reflexivity.
Qed.

Lemma scan_members_app d fuel r : d <> [] -> (length d <= fuel)%nat ->
  scan_members fuel (json_members d +:+ String (chr 125) r) = Some (d, r).
Proof.
  revert fuel; induction d as [|kv d IH]; [congruence|]. intros fuel _ Hf.
  destruct fuel as [|fuel]; [cbn in Hf; lia|]. destruct d as [|kv2 d].
  - cbn [json_members]. now rewrite scan_members_step.
  - change (json_members (kv :: kv2 :: d)) with (json_member kv +:+ String (chr 44) (json_members (kv2 :: d))).
    rewrite app_assoc_str, scan_members_step. cbn [Strings.String.append].
    rewrite expect_eq by reflexivity.
    rewrite IH; [reflexivity | discriminate | cbn in *; lia].
Qed.

Lemma members_length d : (length d <= Strings.String.length (json_members d))%nat.
Proof.
  assert (forall a b, Strings.String.length (a +:+ b) = (Strings.String.length a + Strings.String.length b)%nat) as L
    by (intros a b; induction a; cbn; lia).
  induction d as [|kv d IH]; [cbn; lia|]. destruct d as [|kv2 d].
  - cbn. unfold json_member, json_quote. cbn. lia.
  - change (json_members (kv :: kv2 :: d)) with (json_member kv +:+ String (chr 44) (json_members (kv2 :: d))).
    rewrite L. cbn [length Strings.String.length] in *. lia.
Qed.

(** Reading what was written gives the object back, its keys sorted. *)
Lemma json_loads_dumps d : NoDup (dict_keys d) -> json_loads_flat (json_dumps d) = Some (dict_sorted d).
Proof.
  intros Hn. unfold json_loads_flat, json_dumps. rewrite expect_eq by reflexivity. cbn [mbind option_bind].
  pose proof (NoDup_dict_sorted d Hn) as Hn'. destruct (dict_sorted d) as [|kv d'] eqn:E; [reflexivity|].
  assert (expect 125 (json_members (kv :: d') +:+ String (chr 125) EmptyString) = None) as ->.
  { destruct d'; [|change (json_members (kv :: p :: d')) with
      (json_member kv +:+ String (chr 44) (json_members (p :: d'))); rewrite app_assoc_str];
    cbn [json_members]; now rewrite member_app. }
  rewrite scan_members_app; [|discriminate|].
  - cbn [mbind option_bind fst snd skip_ws]. now rewrite bool_decide_eq_true_2.
  - pose proof (members_length (kv :: d')) as Hl. cbn [Strings.String.length].
    assert (forall a b, (Strings.String.length a <= Strings.String.length (a +:+ b))%nat) as L
      by (intros a b; induction a; cbn; lia).
    specialize (L (json_members (kv :: d')) (String (chr 125) EmptyString)). lia.
Qed.
