(* ===== verification/JobContracts.v ===== *)
(** * Durable job contracts (packages/jobs/src/rick_jobs/contracts.py)

    The value types of a durable job, their validating constructors, and the
    operations that move a [Job] through its states.  Timestamps accepted by
    [_timestamp] are finite doubles and are kept by their mantissa ([Z], see
    [PyFloat]). *)

From S2P Require Import Prelude PyFloat PyStr Regex PyVal.
From Stdlib Require Import Ascii String.
From stdpp Require Import strings.

Local Open Scope Z_scope.

(** ** Constants *)

Definition MAX_IDENTIFIER_LENGTH : Z := 128.
Definition MAX_OPERATION_LENGTH : Z := 64.
Definition MAX_ERROR_CODE_LENGTH : Z := 64.
Definition MAX_MESSAGE_LENGTH : Z := 256.
Definition MAX_PAYLOAD_FIELDS : Z := 32.
Definition MAX_PAYLOAD_KEY_LENGTH : Z := 64.
Definition MAX_PAYLOAD_VALUE_LENGTH : Z := 512.
Definition MAX_METADATA_FIELDS : Z := 32.
Definition MAX_ATTEMPTS : Z := 64.
Definition _TRACE_PAYLOAD_FIELDS : list string := ["traceparent"; "tracestate"].

Definition ident_char (c : ascii) : bool := is_alnum_az c || one_of "_.:-" c.
Definition field_char (c : ascii) : bool := is_lower_az c || is_digit c || one_of "_.:-" c.

Definition _IDENTIFIER : string -> bool := matches_head_tail is_alnum_az ident_char 127.
Definition _OPERATION : string -> bool := matches_head_tail is_alnum_az ident_char 63.
Definition _FIELD : string -> bool := matches_head_tail is_lower_az field_char 63.
Definition _SAFE_ERROR : string -> bool := matches_head_tail is_lower_az field_char 63.

Definition _METADATA_VALUE : string -> bool :=
  matches_head_tail is_alnum_az (fun c => is_alnum_az c || one_of "_.:/@?=&%+~,-" c) 511.

(** [[a-z0-9]] and the separators, under the pattern's IGNORECASE flag. *)
Definition az09 (c : ascii) : bool := is_lower_az c || is_digit c.
Definition re_space : re := Chr isspace.
Definition re_sep (set : string) : re := re_opt (Chr (one_of set)).
Definition re_anywhere (r : re) : re := cats [Star any; r; Star any].
Definition re_content_body_text : re := alts [word_i "content"; word_i "body"; word_i "text"].

(** [_SENSITIVE_METADATA_VALUE.search], as the language of the whole string. *)
Definition _SENSITIVE_METADATA_VALUE : re := alts [
  cats [Alt Eps (Cat (Star any) (class_i (fun c => negb (az09 c))));
        alts [word_i "sk"; word_i "pk"; word_i "rk"; word_i "ghp"; word_i "glpat";
              Cat (word_i "xox") (class_i (one_of "baprs"))];
        Chr (one_of "_"); Star (class_i (fun c => az09 c || one_of "_-" c));
        Alt Eps (Cat (class_i (fun c => negb (az09 c))) (Star any))];
  re_anywhere (cats [Alt (word_i "bearer") (word_i "basic"); re_plus re_space;
        re_rep 8 (class_i (fun c => az09 c || one_of "._~+/=-" c))]);
  re_anywhere (cats [alts [cats [word_i "api"; re_sep "_-"; word_i "key"]; word_i "authorization";
        word_i "password"; word_i "secret"; word_i "token";
        cats [word_i "private"; re_sep "_ -"; word_i "key"]];
        Star re_space; Chr (one_of ":=")]);
  re_anywhere (cats [word_i "raw"; re_sep "-_. "; re_opt (Cat (word_i "document") (re_sep "-_. "));
        re_content_body_text]);
  re_anywhere (cats [re_opt (Cat (word_i "full") (re_sep "-_. ")); word_i "document"; re_sep "-_. ";
        re_content_body_text]);
  re_anywhere (cats [word_i "provider"; re_sep "-_. "; Alt (word_i "response") (word_i "result")]);
  re_anywhere (cats [word_i "-----begin"; Star (Chr (one_of "-_ "));
        re_opt (Alt (word_i "private") (word_i "secret")); Star (Chr (one_of "-_ ")); word_i "key-----"])].

Definition _SAFE_METADATA_KEYS : list string :=
  ["attempt_id"; "byte_size"; "bytes"; "checksum"; "chunk_id"; "collection_id"; "document_id";
   "etag"; "filename"; "hash"; "index_version"; "job_id"; "lease_id"; "mime_type"; "model_id";
   "object_key"; "operation"; "page"; "provider_id"; "schema_version"; "section"; "size";
   "source_key"; "stage"; "state"; "status"; "tenant_id"; "trace_id"; "traceparent"; "tracestate";
   "uri"; "url"; "version"; "vector_id"; "workspace_id"].

Definition _FORBIDDEN_FIELD_PARTS : list string :=
  ["api_key"; "apikey"; "authorization"; "bearer"; "credential"; "content"; "document_text";
   "password"; "pem"; "prompt"; "private"; "provider_response"; "provider_result"; "raw_content";
   "response"; "result"; "secret"; "token"; "text"].

Definition _METADATA_KEY_SUFFIXES : list string :=
  ["_id"; "_key"; "_ref"; "_version"; "_hash"; "_checksum"; "_uri"; "_url"].

(** ** Errors *)

Inductive job_error : Type :=
| JobValidationError (msg : string)
| JobIdempotencyConflictError (msg : string)
| InvalidTransitionError (msg : string)
| OverflowError.  (* [float(n)] on an int beyond the double range *)

Abbreviation jres := (res job_error).
Definition invalid (b : bool) (msg : string) : jres unit := raise_if b (JobValidationError msg).
Definition forbidden_transition (b : bool) (msg : string) : jres unit :=
  raise_if b (InvalidTransitionError msg).

(** ** Job states *)

Inductive JobState : Type :=
| PENDING | QUEUED | RUNNING | SUCCEEDED | FAILED | CANCELLED | RETRYING | DEAD_LETTER.

#[export] Instance JobState_eq_dec : EqDecision JobState.
Proof. solve_decision. Defined.

Definition all_states : list JobState :=
  [PENDING; QUEUED; RUNNING; SUCCEEDED; FAILED; CANCELLED; RETRYING; DEAD_LETTER].

Definition state_eqb (a b : JobState) : bool := bool_decide (a = b).
Definition state_in (s : JobState) (l : list JobState) : bool := bool_decide (s ∈ l).

Definition state_value (s : JobState) : string :=
  match s with
  | PENDING => "PENDING" | QUEUED => "QUEUED" | RUNNING => "RUNNING" | SUCCEEDED => "SUCCEEDED"
  | FAILED => "FAILED" | CANCELLED => "CANCELLED" | RETRYING => "RETRYING"
  | DEAD_LETTER => "DEAD_LETTER"
  end.

(** [JobState(v)]: lookup of a member by its value. *)
Definition parse_state (v : pyval) : option JobState :=
  match v with
  | VStr s => find (fun st => str_eqb (state_value st) s) all_states
  | _ => None
  end.

Definition terminal (s : JobState) : bool := state_in s [SUCCEEDED; CANCELLED; DEAD_LETTER].

Definition _TRANSITIONS (s : JobState) : list JobState :=
  match s with
  | PENDING => [QUEUED; CANCELLED]
  | QUEUED => [RUNNING; CANCELLED]
  | RUNNING => [SUCCEEDED; FAILED; CANCELLED]
  | FAILED => [RETRYING; DEAD_LETTER]
  | RETRYING => [QUEUED; DEAD_LETTER; CANCELLED]
  | SUCCEEDED | CANCELLED | DEAD_LETTER => []
  end.

Definition allowed_transitions (state : pyval) : jres (list JobState) :=
  match parse_state state with
  | Some s => Ok (_TRANSITIONS s)
  | None => Err (JobValidationError "state is invalid")
  end.

Definition can_transition (from_state to_state : pyval) : bool :=
  match parse_state to_state, parse_state from_state with
  | Some t, Some f =>
      match allowed_transitions (VStr (state_value f)) with
      | Ok l => state_in t l
      | Err _ => false
      end
  | _, _ => false
  end.

(** ** Scalar validators *)

Definition _text (value : pyval) (field_name : string) (maximum : Z) : jres string :=
  match value with
  | VStr s =>
      let result := strip s in
      invalid (is_empty result || (maximum <? slen result) || sany (is_char 0) result)
        (field_name +:+ " is invalid");;
      invalid (sany (fun c => (code c <? 32) && negb (is_char 9 c)) result)
        (field_name +:+ " contains a control character");;
      Ok result
  | _ => Err (JobValidationError (field_name +:+ " must be text"))
  end.

Definition _identifier (value : pyval) (field_name : string) : jres string :=
  result ← _text value field_name MAX_IDENTIFIER_LENGTH;
  invalid (negb (_IDENTIFIER result)) (field_name +:+ " is not a valid identifier");;
  Ok result.

Definition _operation (value : pyval) : jres string :=
  result ← _text value "operation" MAX_OPERATION_LENGTH;
  invalid (negb (_OPERATION result)) "operation is not a valid identifier";;
  Ok result.

(** [any(forbidden in part for part in s.split(".") for forbidden in ...)]. *)
Definition has_forbidden_part (s : string) : bool :=
  existsb (fun part => existsb (fun f => contains f part) _FORBIDDEN_FIELD_PARTS)
    (split_on "."%char s).

Definition _field_name (value : pyval) (field_name : string) : jres string :=
  text ← _text value field_name MAX_PAYLOAD_KEY_LENGTH;
  let result := lower text in
  invalid (negb (_FIELD result)) (field_name +:+ " is not a valid field name");;
  invalid (has_forbidden_part result) (field_name +:+ " is sensitive or untrusted");;
  Ok result.

Definition _metadata_key (value : pyval) (field_name : string) : jres string :=
  key ← _field_name value field_name;
  invalid (negb (str_in key _SAFE_METADATA_KEYS) && negb (existsb (endswith key) _METADATA_KEY_SUFFIXES))
    (field_name +:+ " is not an approved metadata field");;
  Ok key.

(** One iteration of the loop of [_bounded_map]. *)
Definition _bounded_map_item (field_name : string) (value_limit : Z)
    (clean : list (string * string)) (item : pyval * pyval) : jres (list (string * string)) :=
  key ← _metadata_key (fst item) (field_name +:+ ".key");
  clean_value ← _text (snd item) (field_name +:+ "." +:+ key) value_limit;
  invalid (negb (_METADATA_VALUE clean_value))
    (field_name +:+ "." +:+ key +:+ " must be a compact metadata reference");;
  invalid (re_matches _SENSITIVE_METADATA_VALUE clean_value)
    (field_name +:+ "." +:+ key +:+ " looks like secret or raw content");;
  Ok (dict_set key clean_value clean).

(** [value] is the mapping's [items()]. *)
Definition _bounded_map (value : list (pyval * pyval)) (field_name : string)
    (maximum_fields value_limit : Z) : jres (list (string * string)) :=
  invalid (maximum_fields <? Z.of_nat (length value)) (field_name +:+ " has too many fields");;
  clean ← res_foldM (_bounded_map_item field_name value_limit) [] value;
  Ok (dict_sorted clean).

Definition _idempotency_payload (payload : list (string * string)) : list (string * string) :=
  List.filter (fun kv => negb (str_in (fst kv) _TRACE_PAYLOAD_FIELDS)) payload.

Definition _timestamp (value : pyval) (field_name : string) : jres Z :=
  let finite (f : pyfloat) :=
    match f with
    | Fin m => invalid (m <? 0) (field_name +:+ " must be a finite timestamp");; Ok m
    | _ => Err (JobValidationError (field_name +:+ " must be a finite timestamp"))
    end in
  match value with
  | VInt n => match float_of_int n with Some f => finite f | None => Err OverflowError end
  | VFloat f => finite f
  | _ => Err (JobValidationError (field_name +:+ " must be a finite timestamp"))
  end.

Definition _attempt_number (value : pyval) (field_name : string) : jres Z :=
  match value with
  | VInt n => invalid (negb ((1 <=? n) && (n <=? MAX_ATTEMPTS))) (field_name +:+ " is out of range");; Ok n
  | _ => Err (JobValidationError (field_name +:+ " is out of range"))
  end.

(** ** Value types *)

Record JobScope : Type := { sc_tenant_id : string; sc_workspace_id : string; sc_collection_id : string }.

#[export] Instance JobScope_eq_dec : EqDecision JobScope.
Proof. solve_decision. Defined.

Definition JobScope_new (tenant_id workspace_id collection_id : pyval) : jres JobScope :=
  t ← _identifier tenant_id "tenant_id";
  w ← _identifier workspace_id "workspace_id";
  c ← _identifier collection_id "collection_id";
  Ok {| sc_tenant_id := t; sc_workspace_id := w; sc_collection_id := c |}.

Record JobFailure : Type := {
  f_code : string; f_message : string; f_retryable : bool; f_attempt : Z; f_occurred_at : Z }.

#[export] Instance JobFailure_eq_dec : EqDecision JobFailure.
Proof. solve_decision. Defined.

Definition JobFailure_new (code message : pyval) (retryable : bool) (attempt occurred_at : pyval)
    : jres JobFailure :=
  text ← _text code "failure.code" MAX_ERROR_CODE_LENGTH;
  let code' := lower text in
  invalid (negb (_SAFE_ERROR code') || has_forbidden_part code') "failure.code is invalid";;
  message' ← _text message "failure.message" MAX_MESSAGE_LENGTH;
  attempt' ← _attempt_number attempt "failure.attempt";
  occurred' ← _timestamp occurred_at "failure.occurred_at";
  Ok {| f_code := code'; f_message := message'; f_retryable := retryable; f_attempt := attempt';
        f_occurred_at := occurred' |}.

Definition vtime (t : Z) : pyval := VFloat (Fin t).
Definition vopt {A} (f : A -> pyval) (o : option A) : pyval := from_option f VNone o.

Definition _failure_dict (failure : JobFailure) : pyval :=
  VDict [("code", VStr (f_code failure)); ("message", VStr (f_message failure));
         ("retryable", VBool (f_retryable failure)); ("attempt", VInt (f_attempt failure));
         ("occurred_at", vtime (f_occurred_at failure))].

Record JobContinuation : Type := {
  ct_job_id : string; ct_scope : JobScope; ct_attempt : Z; ct_created_at : Z; ct_started_at : Z;
  ct_attempt_id : pyval }.

Definition JobContinuation_new (job_id : pyval) (scope : JobScope) (attempt created_at started_at : pyval)
    (attempt_id : pyval) : jres JobContinuation :=
  job_id' ← _text job_id "job_id" MAX_IDENTIFIER_LENGTH;
  attempt' ← _attempt_number attempt "attempt";
  created ← _timestamp created_at "created_at";
  started ← _timestamp started_at "started_at";
  invalid (started <? created) "continuation time is out of order";;
  _text attempt_id "attempt_id" MAX_IDENTIFIER_LENGTH;;
  Ok {| ct_job_id := job_id'; ct_scope := scope; ct_attempt := attempt'; ct_created_at := created;
        ct_started_at := started; ct_attempt_id := attempt_id |}.

Record JobResult : Type := {
  r_output_refs : list (string * string); r_document_id : option string; r_completed_at : Z }.

#[export] Instance JobResult_eq_dec : EqDecision JobResult.
Proof. solve_decision. Defined.

Definition JobResult_new (output_refs : list (pyval * pyval)) (document_id : option pyval)
    (completed_at : pyval) : jres JobResult :=
  refs ← _bounded_map output_refs "result.output_refs" MAX_METADATA_FIELDS MAX_PAYLOAD_VALUE_LENGTH;
  doc ← match document_id with
        | None => Ok None
        | Some d => d' ← _identifier d "result.document_id"; Ok (Some d')
        end;
  completed ← _timestamp completed_at "result.completed_at";
  Ok {| r_output_refs := refs; r_document_id := doc; r_completed_at := completed |}.

(** [JobPublicationFacts] validates itself by building a [JobContinuation] and
    keeps exactly its fields. *)
Definition JobPublicationFacts : Type := JobContinuation.
Definition JobPublicationFacts_new := JobContinuation_new.

Record JobPublicationResult : Type := { pr_result : JobResult; pr_facts : JobPublicationFacts }.

Definition JobPublicationResult_new (output_refs : list (pyval * pyval)) (document_id : option pyval)
    (completed_at : pyval) (facts : JobPublicationFacts) : jres JobPublicationResult :=
  r ← JobResult_new output_refs document_id completed_at;
  invalid (r_completed_at r <? ct_started_at facts) "publication finish precedes its start";;
  Ok {| pr_result := r; pr_facts := facts |}.

Record JobPublicationCancellation : Type := { pc_facts : JobPublicationFacts; pc_completed_at : option Z }.

Definition JobPublicationCancellation_new (facts : JobPublicationFacts) (completed_at : option pyval)
    : jres JobPublicationCancellation :=
  match completed_at with
  | None => Ok {| pc_facts := facts; pc_completed_at := None |}
  | Some v =>
      finished ← _timestamp v "completed_at";
      invalid (finished <? ct_started_at facts) "publication finish precedes its start";;
      Ok {| pc_facts := facts; pc_completed_at := Some finished |}
  end.

Record JobLease : Type := {
  l_job_id : string; l_scope : JobScope; l_worker_id : string; l_token : string;
  l_acquired_at : Z; l_expires_at : Z; l_heartbeat_at : Z }.

Definition JobLease_new (job_id : pyval) (scope : JobScope) (worker_id token : pyval)
    (acquired_at expires_at heartbeat_at : pyval) : jres JobLease :=
  job_id' ← _identifier job_id "lease.job_id";
  worker' ← _identifier worker_id "lease.worker_id";
  token' ← _identifier token "lease.token";
  acquired ← _timestamp acquired_at "lease.acquired_at";
  expires ← _timestamp expires_at "lease.expires_at";
  heartbeat ← _timestamp heartbeat_at "lease.heartbeat_at";
  invalid (expires <=? acquired) "lease.expires_at must be after lease.acquired_at";;
  invalid (negb ((acquired <=? heartbeat) && (heartbeat <=? expires)))
    "lease.heartbeat_at must be within the lease window";;
  Ok {| l_job_id := job_id'; l_scope := scope; l_worker_id := worker'; l_token := token';
        l_acquired_at := acquired; l_expires_at := expires; l_heartbeat_at := heartbeat |}.

Definition active_at (l : JobLease) (now : pyval) : jres bool :=
  timestamp ← _timestamp now "now";
  Ok ((l_acquired_at l <=? timestamp) && (timestamp <? l_expires_at l)).

Record JobAttempt : Type := {
  a_number : Z; a_worker_id : string; a_state : JobState; a_started_at : Z;
  a_finished_at : option Z; a_failure : option JobFailure }.

#[export] Instance JobAttempt_eq_dec : EqDecision JobAttempt.
Proof. solve_decision. Defined.

(** The consistency rules of [JobAttempt.__post_init__] between state, end
    and failure. *)
Definition attempt_checks (number started : Z) (state : JobState) (finished_at : option Z)
    (failure : option JobFailure) : jres unit :=
  match state, finished_at with
  | RUNNING, _ =>
      invalid (bool_decide (is_Some finished_at) || bool_decide (is_Some failure))
        "running attempts cannot be finished or failed"
  | _, None => Err (JobValidationError "finished attempts require finished_at")
  | FAILED, Some finished =>
      match failure with
      | Some f =>
          invalid (negb (f_attempt f =? number)) "failed attempts require their matching failure";;
          invalid (f_occurred_at f <? started) "attempt.failure.occurred_at precedes attempt.started_at";;
          invalid (finished <? f_occurred_at f) "attempt.failure.occurred_at is after attempt.finished_at"
      | None => Err (JobValidationError "failed attempts require their matching failure")
      end
  | _, Some _ => invalid (bool_decide (is_Some failure)) "only failed attempts may contain a failure"
  end.

Definition JobAttempt_new (number worker_id : pyval) (state : JobState) (started_at : pyval)
    (finished_at : option pyval) (failure : option JobFailure) : jres JobAttempt :=
  number' ← _attempt_number number "attempt.number";
  worker' ← _identifier worker_id "attempt.worker_id";
  invalid (negb (state_in state [RUNNING; SUCCEEDED; FAILED; CANCELLED]))
    "attempt.state is not an attempt lifecycle state";;
  started ← _timestamp started_at "attempt.started_at";
  finished ← match finished_at with
             | None => Ok None
             | Some v =>
                 f ← _timestamp v "attempt.finished_at";
                 invalid (f <? started) "attempt.finished_at precedes attempt.started_at";;
                 Ok (Some f)
             end;
  attempt_checks number' started state finished failure;;
  Ok {| a_number := number'; a_worker_id := worker'; a_state := state; a_started_at := started;
        a_finished_at := finished; a_failure := failure |}.

Definition attempt_as_dict (a : JobAttempt) : pyval :=
  VDict [("number", VInt (a_number a)); ("worker_id", VStr (a_worker_id a));
         ("state", VStr (state_value (a_state a))); ("started_at", vtime (a_started_at a));
         ("finished_at", vopt vtime (a_finished_at a)); ("failure", vopt _failure_dict (a_failure a))].

(** ** The job *)

Record Job : Type := {
  j_job_id : string; j_tenant_id : string; j_workspace_id : string; j_collection_id : string;
  j_operation : string; j_idempotency_key : string; j_payload : list (string * string);
  j_state : JobState; j_max_attempts : Z; j_attempts : list JobAttempt;
  j_result : option JobResult; j_failure : option JobFailure;
  j_available_at : Z; j_created_at : Z; j_updated_at : Z; j_version : Z }.

#[export] Instance Job_eq_dec : EqDecision Job.
Proof. solve_decision. Defined.

Definition attempt_count (j : Job) : Z := Z.of_nat (length (j_attempts j)).
Definition last_attempt (j : Job) : option JobAttempt := last_opt (j_attempts j).

Definition scope (j : Job) : JobScope :=
  {| sc_tenant_id := j_tenant_id j; sc_workspace_id := j_workspace_id j;
     sc_collection_id := j_collection_id j |}.

Definition retry_eligible (j : Job) : bool :=
  (attempt_count j <? j_max_attempts j) && state_in (j_state j) [FAILED; RETRYING]
  && match j_failure j with Some f => f_retryable f | None => false end.

(** [range(1, n + 1)]. *)
Definition range1 (n : nat) : list Z := map Z.of_nat (seq 1 n).

(** [for previous, current in zip(attempts, attempts[1:])]. *)
Fixpoint chronological (attempts : list JobAttempt) : bool :=
  match attempts with
  | previous :: (current :: _) as rest =>
      match a_finished_at previous with
      | None => false
      | Some finished => (finished <=? a_started_at current) && chronological rest
      end
  | _ => true
  end.

(** [__post_init__], the checks on the attempt list. *)
Definition job_attempts_checks (max_attempts : Z) (attempts : list JobAttempt) : jres unit :=
  invalid (negb ((0 <? max_attempts) && (max_attempts <=? MAX_ATTEMPTS))) "max_attempts is out of range";;
  invalid (MAX_ATTEMPTS <? Z.of_nat (length attempts)) "attempts is invalid";;
  invalid (negb (bool_decide (map a_number attempts = range1 (length attempts))))
    "attempt numbers must be contiguous";;
  invalid (max_attempts <? Z.of_nat (length attempts)) "attempt count exceeds max_attempts";;
  invalid (negb (chronological attempts)) "attempt history is not chronological".

(** [lo <= t <= hi]. *)
Definition within (lo t hi : Z) : bool := (lo <=? t) && (t <=? hi).

Definition attempt_lifetime_check (created updated : Z) (_ : unit) (a : JobAttempt) : jres unit :=
  invalid ((a_started_at a <? created) || (updated <? a_started_at a))
    "attempt.started_at is outside the job lifetime";;
  invalid (match a_finished_at a with Some t => updated <? t | None => false end)
    "attempt.finished_at is after job.updated_at";;
  invalid (match a_failure a with Some f => negb (within created (f_occurred_at f) updated) | None => false end)
    "attempt.failure.occurred_at is outside the job lifetime".

(** [__post_init__], the checks on times and version. *)
Definition job_lifetime_checks (j : Job) : jres unit :=
  invalid (j_available_at j <? j_created_at j) "available_at precedes created_at";;
  invalid (j_updated_at j <? j_created_at j) "updated_at precedes created_at";;
  invalid (j_version j <? 1) "version is invalid";;
  res_foldM (attempt_lifetime_check (j_created_at j) (j_updated_at j)) tt (j_attempts j);;
  invalid (match j_result j with
           | Some r => negb (within (j_created_at j) (r_completed_at r) (j_updated_at j))
           | None => false end)
    "result.completed_at is outside the job lifetime";;
  invalid (match j_failure j with
           | Some f => negb (within (j_created_at j) (f_occurred_at f) (j_updated_at j))
           | None => false end)
    "failure.occurred_at is outside the job lifetime".

Definition has_result (j : Job) : bool := bool_decide (is_Some (j_result j)).
Definition has_failure (j : Job) : bool := bool_decide (is_Some (j_failure j)).
Definition last_state_is (j : Job) (s : JobState) : bool :=
  match last_attempt j with Some a => state_eqb (a_state a) s | None => false end.

(** The branch of [__post_init__] for FAILED, RETRYING and DEAD_LETTER jobs. *)
Definition job_failure_checks (j : Job) : jres unit :=
  let name := lower (state_value (j_state j)) in
  match last_attempt j with
  | Some a =>
      invalid (negb (state_eqb (a_state a) FAILED)) (name +:+ " jobs require a failed attempt");;
      match j_failure j with
      | Some f =>
          invalid (negb (f_attempt f =? a_number a)) (name +:+ " jobs require their latest failure");;
          invalid (negb (bool_decide (Some f = a_failure a)))
            (name +:+ " job failure differs from latest attempt");;
          let latest_attempt_time := from_option id (j_updated_at j) (a_finished_at a) in
          invalid (f_occurred_at f <? a_started_at a) "failure.occurred_at is before the latest attempt";;
          invalid (latest_attempt_time <? f_occurred_at f) "failure.occurred_at is after the latest attempt";;
          invalid (has_result j) (name +:+ " jobs cannot contain a result");;
          invalid (state_eqb (j_state j) RETRYING && negb (f_retryable f))
            "retrying jobs require a retryable failure";;
          invalid (state_eqb (j_state j) RETRYING && (j_max_attempts j <=? attempt_count j))
            "retrying jobs cannot exceed max_attempts"
      | None => Err (JobValidationError (name +:+ " jobs require their latest failure"))
      end
  | None => Err (JobValidationError (name +:+ " jobs require a failed attempt"))
  end.

(** [__post_init__], the checks on what each state may contain. *)
Definition job_state_checks (j : Job) : jres unit :=
  match j_state j with
  | PENDING =>
      invalid (negb (bool_decide (j_attempts j = [])) || has_result j || has_failure j)
        "pending jobs cannot contain execution history"
  | QUEUED =>
      invalid (has_result j || has_failure j) "queued jobs cannot contain a result or active failure";;
      match last_attempt j with
      | None => Ok tt
      | Some a =>
          invalid (negb (state_eqb (a_state a) FAILED)) "queued jobs may only resume after a failed attempt";;
          invalid (match a_failure a with
                   | None => true
                   | Some f => negb (f_retryable f) || (j_max_attempts j <=? attempt_count j)
                   end) "queued jobs may only resume when retry remains eligible"
      end
  | RUNNING =>
      invalid (negb (last_state_is j RUNNING)) "running jobs require an active attempt";;
      invalid (has_result j || has_failure j) "running jobs cannot contain a result or failure"
  | SUCCEEDED =>
      invalid (negb (last_state_is j SUCCEEDED)) "succeeded jobs require a succeeded attempt";;
      invalid (negb (has_result j) || has_failure j) "succeeded jobs require only a result"
  | FAILED | RETRYING | DEAD_LETTER => job_failure_checks j
  | CANCELLED =>
      invalid (has_result j || has_failure j) "cancelled jobs cannot contain a result or active failure";;
      invalid (last_state_is j RUNNING) "cancelled jobs cannot contain an active attempt";;
      invalid (match last_attempt j with
               | Some a => negb (state_in (a_state a) [FAILED; CANCELLED])
               | None => false end)
        "cancelled jobs require no attempt or a cancelled/failed latest attempt"
  end;;
  match j_state j, j_result j, last_attempt j with
  | SUCCEEDED, Some r, Some a =>
      let latest_attempt_time := from_option id (j_updated_at j) (a_finished_at a) in
      invalid (r_completed_at r <? a_started_at a) "result.completed_at is before the succeeded attempt";;
      invalid (latest_attempt_time <? r_completed_at r) "result.completed_at is after the succeeded attempt"
  | _, _, _ => Ok tt
  end.

(** [Job(...)]: the dataclass constructor with its [__post_init__]. *)
Definition Job_new (job_id tenant_id workspace_id collection_id operation idempotency_key : pyval)
    (payload : list (pyval * pyval)) (state : JobState) (max_attempts : Z) (attempts : list JobAttempt)
    (result : option JobResult) (failure : option JobFailure) (available_at created_at updated_at : pyval)
    (version : Z) : jres Job :=
  job_id' ← _identifier job_id "job_id";
  tenant' ← _identifier tenant_id "tenant_id";
  workspace' ← _identifier workspace_id "workspace_id";
  collection' ← _identifier collection_id "collection_id";
  operation' ← _operation operation;
  key' ← _identifier idempotency_key "idempotency_key";
  payload' ← _bounded_map payload "payload" MAX_PAYLOAD_FIELDS MAX_PAYLOAD_VALUE_LENGTH;
  job_attempts_checks max_attempts attempts;;
  available ← _timestamp available_at "available_at";
  created ← _timestamp created_at "created_at";
  updated ← _timestamp updated_at "updated_at";
  let j := {| j_job_id := job_id'; j_tenant_id := tenant'; j_workspace_id := workspace';
              j_collection_id := collection'; j_operation := operation'; j_idempotency_key := key';
              j_payload := payload'; j_state := state; j_max_attempts := max_attempts;
              j_attempts := attempts; j_result := result; j_failure := failure;
              j_available_at := available; j_created_at := created; j_updated_at := updated;
              j_version := version |} in
  job_lifetime_checks j;;
  job_state_checks j;;
  Ok j.

Definition str_items (l : list (string * string)) : list (pyval * pyval) :=
  map (fun kv => (VStr (fst kv), VStr (snd kv))) l.

(** [Job(...)] applied to the fields of an existing job: what every operation
    below does with a modified copy. *)
Definition Job_rebuild (j : Job) : jres Job :=
  Job_new (VStr (j_job_id j)) (VStr (j_tenant_id j)) (VStr (j_workspace_id j)) (VStr (j_collection_id j))
    (VStr (j_operation j)) (VStr (j_idempotency_key j)) (str_items (j_payload j)) (j_state j)
    (j_max_attempts j) (j_attempts j) (j_result j) (j_failure j) (vtime (j_available_at j))
    (vtime (j_created_at j)) (vtime (j_updated_at j)) (j_version j).

Definition Job_create (job_id tenant_id workspace_id collection_id operation idempotency_key : pyval)
    (payload : list (pyval * pyval)) (now : pyval) (max_attempts : Z) : jres Job :=
  timestamp ← _timestamp now "now";
  Job_new job_id tenant_id workspace_id collection_id operation idempotency_key payload
    PENDING max_attempts [] None None (vtime timestamp) (vtime timestamp) (vtime timestamp) 1.

(** ** Operations *)

(** The copy of [j] every operation passes to the constructor: identity,
    envelope and creation time are kept. *)
Definition job_copy (j : Job) (state : JobState) (attempts : list JobAttempt) (result : option JobResult)
    (failure : option JobFailure) (available_at updated_at version : Z) : Job :=
  {| j_job_id := j_job_id j; j_tenant_id := j_tenant_id j; j_workspace_id := j_workspace_id j;
     j_collection_id := j_collection_id j; j_operation := j_operation j;
     j_idempotency_key := j_idempotency_key j; j_payload := j_payload j;
     j_state := state; j_max_attempts := j_max_attempts j; j_attempts := attempts;
     j_result := result; j_failure := failure; j_available_at := available_at;
     j_created_at := j_created_at j; j_updated_at := updated_at; j_version := version |}.

Definition start_attempt (j : Job) (worker_id now : pyval) : jres Job :=
  forbidden_transition (negb (state_eqb (j_state j) QUEUED)) "only queued jobs can start an attempt";;
  forbidden_transition (j_max_attempts j <=? attempt_count j) "attempt limit is exhausted";;
  timestamp ← _timestamp now "now";
  forbidden_transition (timestamp <? j_updated_at j) "job time cannot move backwards";;
  attempt ← JobAttempt_new (VInt (attempt_count j + 1)) worker_id RUNNING (vtime timestamp) None None;
  Job_rebuild (job_copy j RUNNING (j_attempts j ++ [attempt]) None None (j_available_at j) timestamp
                 (j_version j + 1)).

(** What [finish_attempt] derives from the target state: the attempt's final
    state and the failure to record. *)
Definition finish_outcome (target : JobState) (current : JobAttempt) (timestamp : Z)
    (result : option JobResult) (failure : option JobFailure) : jres (JobState * option JobFailure) :=
  match target with
  | SUCCEEDED =>
      match result, failure with
      | Some r, None =>
          forbidden_transition (timestamp <? r_completed_at r) "result.completed_at is after the transition";;
          Ok (SUCCEEDED, None)
      | _, _ => Err (InvalidTransitionError "SUCCEEDED requires only a result")
      end
  | CANCELLED =>
      forbidden_transition (bool_decide (is_Some result) || bool_decide (is_Some failure))
        "CANCELLED cannot contain a result or failure";;
      Ok (CANCELLED, None)
  | _ =>
      match failure with
      | None => Err (InvalidTransitionError (state_value target +:+ " requires a failure"))
      | Some f =>
          forbidden_transition (negb (f_attempt f =? a_number current))
            "failure.attempt must match the active attempt";;
          forbidden_transition (timestamp <? f_occurred_at f) "failure.occurred_at is after the transition";;
          forbidden_transition (bool_decide (is_Some result))
            (state_value target +:+ " cannot contain a result");;
          Ok (FAILED, Some f)
      end
  end.

Definition optional_timestamp (default : Z) (v : option pyval) (field_name : string) : jres Z :=
  match v with None => Ok default | Some v' => _timestamp v' field_name end.

Definition finish_attempt (j : Job) (to_state : pyval) (now : pyval) (result : option JobResult)
    (failure : option JobFailure) (available_at finished_at : option pyval) : jres Job :=
  match parse_state to_state with
  | None => Err (InvalidTransitionError "target state is invalid")
  | Some target =>
    match j_state j, last_attempt j with
    | RUNNING, Some current =>
        forbidden_transition (negb (state_eqb (a_state current) RUNNING)) "job has no active attempt";;
        forbidden_transition (negb (state_in target [SUCCEEDED; FAILED; CANCELLED]))
          ("RUNNING -> " +:+ state_value target +:+ " cannot finish an attempt");;
        timestamp ← _timestamp now "now";
        forbidden_transition (timestamp <? j_updated_at j) "job time cannot move backwards";;
        outcome ← finish_outcome target current timestamp result failure;
        let '(attempt_state, observed_failure) := outcome in
        completion ← optional_timestamp timestamp finished_at "finished_at";
        forbidden_transition (negb (within (a_started_at current) completion timestamp))
          "attempt completion is outside its lifetime";;
        forbidden_transition
          (match target, finished_at, result with
           | SUCCEEDED, Some _, Some r => negb (completion =? r_completed_at r)
           | _, _, _ => false
           end) "attempt completion differs from its result";;
        finished_attempt ← JobAttempt_new (VInt (a_number current)) (VStr (a_worker_id current))
          attempt_state (vtime (a_started_at current)) (Some (vtime completion)) observed_failure;
        next_available ← optional_timestamp (j_available_at j) available_at "available_at";
        Job_rebuild (job_copy j target (removelast (j_attempts j) ++ [finished_attempt]) result
                       observed_failure next_available timestamp (j_version j + 1))
    | _, _ => Err (InvalidTransitionError "only running jobs can finish an attempt")
    end
  end.

(** The part of [transition] for jobs that are not RUNNING: the failure to
    carry over. *)
Definition transition_failure_checks (j : Job) (target : JobState) (failure : option JobFailure) : jres unit :=
  let observed_failure := match failure with Some f => Some f | None => j_failure j end in
  if state_in target [FAILED; RETRYING; DEAD_LETTER] then
    match observed_failure with
    | None => Err (InvalidTransitionError (state_value target +:+ " requires a failure"))
    | Some f =>
        forbidden_transition (negb (f_attempt f =? attempt_count j))
          "failure.attempt must match the latest attempt";;
        if state_eqb target RETRYING then
          forbidden_transition (negb (f_retryable f)) "RETRYING requires a retryable failure";;
          forbidden_transition (j_max_attempts j <=? attempt_count j) "retry limit is exhausted"
        else Ok tt
    end
  else forbidden_transition (bool_decide (is_Some failure))
         (state_value target +:+ " cannot contain a failure").

Definition transition (j : Job) (to_state : pyval) (now : pyval) (result : option JobResult)
    (failure : option JobFailure) (available_at : option pyval) : jres Job :=
  match parse_state to_state with
  | None => Err (InvalidTransitionError "target state is invalid")
  | Some target =>
      forbidden_transition (negb (can_transition (VStr (state_value (j_state j))) (VStr (state_value target))))
        (state_value (j_state j) +:+ " -> " +:+ state_value target +:+ " is not allowed");;
      forbidden_transition (state_eqb target RUNNING) "use start_attempt to enter RUNNING";;
      if state_eqb (j_state j) RUNNING then
        finish_attempt j (VStr (state_value target)) now result failure available_at None
      else
        forbidden_transition (state_eqb target SUCCEEDED) "only an active attempt can succeed";;
        forbidden_transition (bool_decide (is_Some result)) (state_value target +:+ " cannot contain a result");;
        let observed_failure := match failure with Some f => Some f | None => j_failure j end in
        transition_failure_checks j target failure;;
        timestamp ← _timestamp now "now";
        forbidden_transition (timestamp <? j_updated_at j) "job time cannot move backwards";;
        forbidden_transition
          (match observed_failure with Some f => timestamp <? f_occurred_at f | None => false end)
          "failure.occurred_at is after the transition";;
        next_available ← optional_timestamp (j_available_at j) available_at "available_at";
        let next_failure := if state_in target [FAILED; RETRYING; DEAD_LETTER] then observed_failure else None in
        Job_rebuild (job_copy j target (j_attempts j) result next_failure next_available timestamp
                       (j_version j + 1))
  end.

Definition as_dict (j : Job) : pyval :=
  VDict [("contract_version", VStr "jobs-contract-v1"); ("job_id", VStr (j_job_id j));
         ("tenant_id", VStr (j_tenant_id j)); ("workspace_id", VStr (j_workspace_id j));
         ("collection_id", VStr (j_collection_id j)); ("operation", VStr (j_operation j));
         ("idempotency_key", VStr (j_idempotency_key j));
         ("payload", VDict (map (fun kv => (fst kv, VStr (snd kv))) (j_payload j)));
         ("state", VStr (state_value (j_state j))); ("max_attempts", VInt (j_max_attempts j));
         ("attempt_count", VInt (attempt_count j));
         ("attempts", VList (map attempt_as_dict (j_attempts j)));
         ("available_at", vtime (j_available_at j)); ("created_at", vtime (j_created_at j));
         ("updated_at", vtime (j_updated_at j)); ("version", VInt (j_version j));
         ("result", vopt (fun r => VDict
            [("output_refs", VDict (map (fun kv => (fst kv, VStr (snd kv))) (r_output_refs r)));
             ("document_id", vopt VStr (r_document_id r)); ("completed_at", vtime (r_completed_at r))])
            (j_result j));
         ("failure", vopt _failure_dict (j_failure j))].

(** [JobLease.matches]. *)
Definition matches (l : JobLease) (job : Job) (worker_id token : string) : bool :=
  str_eqb (l_job_id l) (j_job_id job) && bool_decide (l_scope l = scope job)
  && str_eqb (l_worker_id l) worker_id && str_eqb (l_token l) token.

Definition idempotency_identity (j : Job) : string * string * string * string :=
  (j_tenant_id j, j_workspace_id j, j_collection_id j, j_idempotency_key j).

Definition idempotency_envelope (j : Job) : string * list (string * string) * Z :=
  (j_operation j, _idempotency_payload (j_payload j), j_max_attempts j).

Definition ensure_idempotent (existing : option Job) (candidate : Job) : jres Job :=
  match existing with
  | None => Ok candidate
  | Some e =>
      raise_if (negb (bool_decide (idempotency_identity e = idempotency_identity candidate)))
        (JobIdempotencyConflictError "idempotency key is outside the existing job scope");;
      raise_if (negb (bool_decide (idempotency_envelope e = idempotency_envelope candidate)))
        (JobIdempotencyConflictError "idempotency key was reused for a different request");;
      Ok e
  end.
