(* ===== verification/JobLemmas.v ===== *)
(** * Lemmas on the job contracts

    Inversion and evaluation of the checked constructors, the step relation of the life cycle
    and its reachable states, and runs of commands on one job. *)

From Stdlib Require Import Ascii String.
From stdpp Require Import strings relations list.
From S2P Require Import Prelude PyFloat PyStr Regex PyVal JobContracts.

Local Open Scope Z_scope.

(** ** Lemmas on the job contracts

    Normalisation: every validator returns a value it accepts unchanged, so a
    constructed job can be rebuilt; and what the validators guarantee about
    the values they return. *)

(** ** Guards *)

Lemma invalid_Ok b m u : invalid b m = Ok u <-> b = false.
Proof. apply raise_if_Ok. Qed.

Lemma forbidden_Ok b m u : forbidden_transition b m = Ok u <-> b = false.
Proof. apply raise_if_Ok. Qed.

Lemma invalid_pass b m : b = false -> invalid b m = Ok tt.
Proof. apply raise_if_false. Qed.

Lemma forbidden_pass b m : b = false -> forbidden_transition b m = Ok tt.
Proof. apply raise_if_false. Qed.

(** Splits a successful run of a checked computation into its guards. *)
Ltac run_inv H :=
  lazymatch type of H with
  | (_ ≫= _) = Ok _ => let a := fresh "a" in let H1 := fresh H in
      apply bind_Ok in H as (a & H1 & H); run_inv H1; run_inv H
  | invalid _ _ = Ok _ => apply invalid_Ok in H
  | forbidden_transition _ _ = Ok _ => apply forbidden_Ok in H
  | raise_if _ _ = Ok _ => apply raise_if_Ok in H
  | Ok _ = Ok _ => injection H as H; try subst
  | Err _ = Ok _ => discriminate H
  | _ => idtac
  end.

(** Runs a guard of the goal that is known to pass. *)
Ltac run_pass :=
  first [rewrite invalid_pass by (first [assumption | reflexivity])
        | rewrite forbidden_pass by (first [assumption | reflexivity])];
  cbn [mbind res_mbind].

(** Passes the first guard of the goal, leaving its condition to prove. *)
Ltac guard_pass :=
  lazymatch goal with
  | |- (invalid ?b ?m ≫= _) = _ => rewrite (invalid_pass b m); [cbn [mbind res_mbind]|]
  | |- (forbidden_transition ?b ?m ≫= _) = _ => rewrite (forbidden_pass b m); [cbn [mbind res_mbind]|]
  | |- invalid ?b ?m = _ => rewrite (invalid_pass b m); [reflexivity|]
  | |- forbidden_transition ?b ?m = _ => rewrite (forbidden_pass b m); [reflexivity|]
  end.

(** ** Scalars *)

Lemma text_inv v n m s :
  _text v n m = Ok s ->
  exists s0, v = VStr s0 /\ s = strip s0 /\ s <> EmptyString /\ slen s <= m
    /\ sany (is_char 0) s = false
    /\ sany (fun c => (code c <? 32) && negb (is_char 9 c)) s = false.
Proof.
  destruct v; cbn [_text]; intros H; run_inv H.
  bool_to_prop. eexists; split; [reflexivity|]. repeat split; auto.
  intros E; rewrite E in *; discriminate.
Qed.

Lemma text_idem v n m s n' : _text v n m = Ok s -> _text (VStr s) n' m = Ok s.
Proof.
  intros H. apply text_inv in H as (s0 & _ & -> & Hne & Hl & H0 & Hc).
  cbn [_text]. rewrite strip_idem, H0, Hc.
  destruct (is_empty (strip s0)) eqn:E; [apply is_empty_true in E; contradiction|].
  destruct (Z.ltb_spec m (slen (strip s0))); [lia|]. reflexivity.
Qed.

Lemma identifier_inv v n s : _identifier v n = Ok s -> _text v n MAX_IDENTIFIER_LENGTH = Ok s /\ _IDENTIFIER s = true.
Proof. unfold _identifier. intros H; run_inv H. bool_to_prop. auto. Qed.

Lemma identifier_idem v n s n' : _identifier v n = Ok s -> _identifier (VStr s) n' = Ok s.
Proof.
  intros H. apply identifier_inv in H as [Ht Hi].
  unfold _identifier. rewrite (text_idem _ _ _ _ n' Ht). cbn. now rewrite Hi.
Qed.

Lemma operation_idem v s : _operation v = Ok s -> _operation (VStr s) = Ok s.
Proof.
  unfold _operation. intros H; run_inv H. bool_to_prop.
  rewrite (text_idem _ _ _ _ "operation" H0). cbn. now rewrite H1.
Qed.

Lemma timestamp_inv v n t : _timestamp v n = Ok t -> 0 <= t.
Proof.
  destruct v as [| |z|f| | |]; cbn; try discriminate.
  - destruct (float_of_int z) as [[m| |]|]; cbn; try discriminate.
    intros H; run_inv H. bool_to_prop. assumption.
  - destruct f; cbn; try discriminate. intros H; run_inv H. bool_to_prop. assumption.
Qed.

Lemma timestamp_vtime t n : 0 <= t -> _timestamp (vtime t) n = Ok t.
Proof.
  intros H. unfold vtime, _timestamp. rewrite invalid_pass; [reflexivity|]. now apply Z.ltb_ge.
Qed.

Lemma timestamp_vtime_inv t n t' : _timestamp (vtime t) n = Ok t' -> t' = t /\ 0 <= t.
Proof. unfold vtime, _timestamp. intros H; run_inv H. bool_to_prop. auto. Qed.

Lemma attempt_number_int n f : 1 <= n <= MAX_ATTEMPTS -> _attempt_number (VInt n) f = Ok n.
Proof.
  intros [H1 H2]. unfold _attempt_number. rewrite invalid_pass; [reflexivity|].
  apply negb_false_iff, andb_true_intro; split; now apply Z.leb_le.
Qed.

Lemma attempt_number_inv v f n : _attempt_number v f = Ok n -> v = VInt n /\ 1 <= n <= MAX_ATTEMPTS.
Proof.
  destruct v; cbn; try discriminate. intros H; run_inv H. bool_to_prop. auto.
Qed.

Lemma optional_timestamp_None d n : optional_timestamp d None n = Ok d.
Proof. reflexivity. Qed.

(** ** Field names and metadata maps *)

(** What [_metadata_key] accepts. *)
Definition approved_key (k : string) : Prop :=
  _FIELD k = true /\ has_forbidden_part k = false
  /\ (k ∈ _SAFE_METADATA_KEYS \/ existsb (endswith k) _METADATA_KEY_SUFFIXES = true).

(** What [_bounded_map] accepts as a value. *)
Definition compact_value (limit : Z) (v : string) : Prop :=
  slen v <= limit /\ _METADATA_VALUE v = true /\ re_matches _SENSITIVE_METADATA_VALUE v = false.

Lemma field_char_plain c : field_char c = true ->
  isspace c = false /\ is_char 0 c = false /\ (code c <? 32) && negb (is_char 9 c) = false /\ lower_char c = c.
Proof. destruct c as [[][][][][][][][]]; cbv; intuition congruence. Qed.

Lemma sall_field_plain s : sall field_char s = true ->
  strip s = s /\ sany (is_char 0) s = false
  /\ sany (fun c => (code c <? 32) && negb (is_char 9 c)) s = false /\ lower s = s.
Proof.
  intros H. split; [|split; [|split]].
  - apply strip_nospace. eapply sall_impl; [|exact H]. intros c Hc. now destruct (field_char_plain c Hc) as (-> & _).
  - unfold sany. apply negb_false_iff. eapply sall_impl; [|exact H].
    intros c Hc. now destruct (field_char_plain c Hc) as (_ & -> & _).
  - unfold sany. apply negb_false_iff. eapply sall_impl; [|exact H].
    intros c Hc. now destruct (field_char_plain c Hc) as (_ & _ & -> & _).
  - induction s as [|c s IH]; cbn in *; [reflexivity|]. bool_to_prop.
    destruct (field_char_plain c H) as (_ & _ & _ & ->). now rewrite IH.
Qed.

Lemma FIELD_chars s : _FIELD s = true -> sall field_char s = true.
Proof.
  intros H. apply matches_head_tail_sall in H. eapply sall_impl; [|exact H].
  intros c Hc. unfold field_char in *. destruct (is_lower_az c); cbn in *; auto.
Qed.

Lemma text_FIELD s n : _FIELD s = true -> _text (VStr s) n MAX_PAYLOAD_KEY_LENGTH = Ok s.
Proof.
  intros H. pose proof (matches_head_tail_len _ _ _ _ H) as Hl.
  destruct (sall_field_plain s (FIELD_chars s H)) as (Hs & H0 & Hc & _).
  cbn [_text]. rewrite Hs, H0, Hc.
  destruct (is_empty s) eqn:E; [apply is_empty_true in E as ->; discriminate|].
  destruct (Z.ltb_spec MAX_PAYLOAD_KEY_LENGTH (slen s)); [unfold MAX_PAYLOAD_KEY_LENGTH in *; lia|].
  reflexivity.
Qed.

Lemma metadata_key_inv v n k : _metadata_key v n = Ok k -> approved_key k.
Proof.
  unfold _metadata_key, _field_name. intros H; run_inv H. bool_to_prop.
  split; [assumption|]. split; [assumption|].
  match goal with Hk : _ && _ = false |- _ => apply andb_false_iff in Hk as [Hk|Hk] end;
    bool_to_prop; [left; now apply str_in_spec | auto].
Qed.

Lemma metadata_key_approved k n : approved_key k -> _metadata_key (VStr k) n = Ok k.
Proof.
  intros (Hf & Hp & Hk). unfold _metadata_key, _field_name.
  rewrite (text_FIELD k n Hf). cbn [mbind res_mbind].
  destruct (sall_field_plain k (FIELD_chars k Hf)) as (_ & _ & _ & ->).
  rewrite Hf, Hp. cbn [negb invalid raise_if mbind res_mbind].
  rewrite invalid_pass; [reflexivity|]. apply andb_false_iff.
  destruct Hk as [Hk|Hk]; [left | right]; apply negb_false_iff; [now apply str_in_spec | exact Hk].
Qed.

Lemma item_inv n lim clean it clean' :
  _bounded_map_item n lim clean it = Ok clean' ->
  exists k v, clean' = dict_set k v clean /\ approved_key k /\ compact_value lim v
    /\ (forall n', _text (VStr v) n' lim = Ok v).
Proof.
  unfold _bounded_map_item. intros H; run_inv H. bool_to_prop.
  exists a, a0. split; [reflexivity|]. split; [eapply metadata_key_inv; eassumption|].
  split; [|intros; eapply text_idem; eassumption].
  split; [|auto]. now apply text_inv in H1 as (? & _ & _ & _ & ? & _).
Qed.

Lemma item_pass n lim clean k v :
  approved_key k -> compact_value lim v -> _text (VStr v) (n +:+ "." +:+ k) lim = Ok v ->
  _bounded_map_item n lim clean (VStr k, VStr v) = Ok (dict_set k v clean).
Proof.
  intros Hk (_ & Hv & Hs) Ht. unfold _bounded_map_item. cbn [fst snd].
  rewrite metadata_key_approved by exact Hk. cbn [mbind res_mbind].
  rewrite Ht. cbn [mbind res_mbind]. rewrite Hv, Hs. reflexivity.
Qed.

(** What holds of every entry of a map [_bounded_map] returns. *)
Definition entry_ok (lim : Z) (kv : string * string) : Prop :=
  approved_key (fst kv) /\ compact_value lim (snd kv)
  /\ (forall n', _text (VStr (snd kv)) n' lim = Ok (snd kv)).

Lemma fold_items_inv n lim items clean0 clean :
  res_foldM (_bounded_map_item n lim) clean0 items = Ok clean ->
  NoDup (dict_keys clean0) -> (forall p, In p clean0 -> entry_ok lim p) ->
  NoDup (dict_keys clean) /\ (forall p, In p clean -> entry_ok lim p)
  /\ (length clean <= length clean0 + length items)%nat.
Proof.
  revert clean0; induction items as [|it items IH]; intros clean0; cbn [res_foldM].
  - intros [= ->] Hn Hf. cbn. split; [|split]; auto. lia.
  - intros H Hn Hf. apply bind_Ok in H as (clean1 & H1 & H).
    apply item_inv in H1 as (k & v & -> & Hk & Hv & Ht).
    destruct (IH _ H) as (Hn' & Hf' & Hl').
    { now apply NoDup_dict_set. }
    { intros p Hp. apply In_dict_set in Hp as [->|Hp]; [split; [|split]; auto | auto]. }
    split; [exact Hn'|]. split; [exact Hf'|].
    assert (length (dict_set k v clean0) <= S (length clean0))%nat.
    { clear. induction clean0 as [|[k2 v2] d IHd]; cbn; [lia|]. destruct (str_eqb k k2); cbn; lia. }
    cbn. lia.
Qed.

Lemma bounded_map_inv items n maxf lim d :
  _bounded_map items n maxf lim = Ok d ->
  Z.of_nat (length d) <= maxf /\ NoDup (dict_keys d)
  /\ StronglySorted (fun a b => item_leb a b = true) d /\ (forall p, In p d -> entry_ok lim p).
Proof.
  unfold _bounded_map. intros H; run_inv H. bool_to_prop.
  apply fold_items_inv in H1 as (Hn & Hf & Hl); [|constructor|intros ? []].
  split; [|split; [|split]].
  - unfold dict_sorted. rewrite sort_by_length. cbn in Hl. lia.
  - now apply NoDup_dict_sorted.
  - apply dict_sorted_sorted.
  - intros p Hp. apply Hf. exact (proj1 (dict_sorted_In p _) Hp).
Qed.

Lemma fold_items_fresh n lim d clean0 :
  (forall p, In p d -> entry_ok lim p) -> NoDup (dict_keys (clean0 ++ d)) ->
  res_foldM (_bounded_map_item n lim) clean0 (str_items d) = Ok (clean0 ++ d).
Proof.
  revert clean0; induction d as [|[k v] d IH]; intros clean0 Hf Hn.
  - cbn. now rewrite app_nil_r.
  - cbn [str_items map res_foldM fst snd].
    destruct (Hf (k, v) (or_introl eq_refl)) as (Hk & Hv & Ht). cbn [fst snd] in Hk, Hv, Ht.
    rewrite item_pass by auto. cbn [mbind res_mbind].
    unfold dict_keys in Hn. rewrite map_app in Hn. cbn in Hn.
    assert (k ∉ dict_keys clean0) as Hfresh.
    { apply NoDup_app in Hn as (_ & Hd & _). intros Hin. apply (Hd k Hin), elem_of_cons; now left. }
    rewrite (dict_set_fresh k v clean0 Hfresh).
    fold (str_items d).
    rewrite IH.
    + now rewrite <- app_assoc.
    + intros p Hp. apply Hf. now right.
    + unfold dict_keys. rewrite !map_app, <- app_assoc. exact Hn.
Qed.

(** A map that was accepted is accepted again, unchanged. *)
Lemma bounded_map_idem items n maxf lim d n' :
  _bounded_map items n maxf lim = Ok d -> _bounded_map (str_items d) n' maxf lim = Ok d.
Proof.
  intros H. apply bounded_map_inv in H as (Hl & Hn & Hs & Hf).
  unfold _bounded_map.
  replace (length (str_items d)) with (length d) by (unfold str_items; now rewrite length_map).
  rewrite invalid_pass by now apply Z.ltb_ge. cbn [mbind res_mbind].
  rewrite (fold_items_fresh n' lim d []) by auto. cbn.
  unfold dict_sorted. now rewrite sort_by_id.
Qed.

(** ** The life of a durable job

    Constructed jobs are stable under reconstruction; every operation yields
    a constructed job; and, over all runs from [Job_create], the state
    machine, the attempt history and the number of steps behave as the
    contract intends. *)

(** ** Constructed jobs *)

Definition ident_ok (s : string) : Prop := forall n, _identifier (VStr s) n = Ok s.

(** The fields the constructor normalises are already normal. *)
Definition leafs_ok (j : Job) : Prop :=
  ident_ok (j_job_id j) /\ ident_ok (j_tenant_id j) /\ ident_ok (j_workspace_id j)
  /\ ident_ok (j_collection_id j) /\ _operation (VStr (j_operation j)) = Ok (j_operation j)
  /\ ident_ok (j_idempotency_key j)
  /\ _bounded_map (str_items (j_payload j)) "payload" MAX_PAYLOAD_FIELDS MAX_PAYLOAD_VALUE_LENGTH
     = Ok (j_payload j).

Record job_valid (j : Job) : Prop := {
  v_leafs : leafs_ok j;
  v_attempts : job_attempts_checks (j_max_attempts j) (j_attempts j) = Ok tt;
  v_available : 0 <= j_available_at j;
  v_created : 0 <= j_created_at j;
  v_updated : 0 <= j_updated_at j;
  v_lifetime : job_lifetime_checks j = Ok tt;
  v_state : job_state_checks j = Ok tt }.

Lemma ident_ok_intro v n s : _identifier v n = Ok s -> ident_ok s.
Proof. intros H n'. eapply identifier_idem; eassumption. Qed.

Lemma unit_ok {E} (m : res E unit) u : m = Ok u -> m = Ok tt.
Proof. now destruct u. Qed.

Lemma new_valid a b c d e f p st mx at_ r fl av cr up ver j :
  Job_new a b c d e f p st mx at_ r fl av cr up ver = Ok j -> job_valid j.
Proof.
  unfold Job_new. intros H.
  apply bind_Ok in H as (x1 & H1 & H). apply bind_Ok in H as (x2 & H2 & H).
  apply bind_Ok in H as (x3 & H3 & H). apply bind_Ok in H as (x4 & H4 & H).
  apply bind_Ok in H as (x5 & H5 & H). apply bind_Ok in H as (x6 & H6 & H).
  apply bind_Ok in H as (x7 & H7 & H). apply bind_Ok in H as (u8 & H8 & H).
  apply bind_Ok in H as (x9 & H9 & H). apply bind_Ok in H as (x10 & H10 & H).
  apply bind_Ok in H as (x11 & H11 & H). apply bind_Ok in H as (u12 & H12 & H).
  apply bind_Ok in H as (u13 & H13 & [= <-]).
  split; cbn [j_max_attempts j_attempts j_available_at j_created_at j_updated_at];
    eauto using timestamp_inv, unit_ok.
  repeat split; cbn; eauto using ident_ok_intro, operation_idem, bounded_map_idem.
Qed.

Lemma rebuild_leafs j j' : leafs_ok j -> Job_rebuild j = Ok j' -> j' = j /\ job_valid j.
Proof.
  intros Hl H. pose proof Hl as (H1 & H2 & H3 & H4 & H5 & H6 & H7).
  pose proof (new_valid _ _ _ _ _ _ _ _ _ _ _ _ _ _ _ _ _ H) as Hv.
  enough (j' = j) as -> by auto.
  unfold Job_rebuild, Job_new in H. rewrite H1, H2, H3, H4, H5, H6 in H. cbn [mbind res_mbind] in H.
  rewrite H7 in H. cbn [mbind res_mbind] in H.
  apply bind_Ok in H as (u & _ & H).
  apply bind_Ok in H as (x9 & H9 & H). apply bind_Ok in H as (x10 & H10 & H).
  apply bind_Ok in H as (x11 & H11 & H). apply bind_Ok in H as (u12 & H12 & H).
  apply bind_Ok in H as (u13 & H13 & [= <-]).
  apply timestamp_vtime_inv in H9 as [-> _], H10 as [-> _], H11 as [-> _].
  now destruct j.
Qed.

Lemma valid_rebuild j : job_valid j -> Job_rebuild j = Ok j.
Proof.
  intros [(H1 & H2 & H3 & H4 & H5 & H6 & H7) Ha Hav Hcr Hup Hl Hs].
  unfold Job_rebuild, Job_new. rewrite H1, H2, H3, H4, H5, H6. cbn [mbind res_mbind].
  rewrite H7. cbn [mbind res_mbind]. rewrite Ha. cbn [mbind res_mbind].
  rewrite !timestamp_vtime by assumption. cbn [mbind res_mbind].
  destruct j; cbn in *. rewrite Hl. cbn. rewrite Hs. reflexivity.
Qed.

Lemma copy_leafs j st at_ r f av up ver :
  leafs_ok (job_copy j st at_ r f av up ver) <-> leafs_ok j.
Proof. reflexivity. Qed.

(** ** What each operation does when it succeeds *)

Lemma parse_state_value s : parse_state (VStr (state_value s)) = Some s.
Proof. destruct s; reflexivity. Qed.

Lemma parse_state_inv v s : parse_state v = Some s -> v = VStr (state_value s).
Proof.
  destruct v as [| | | |str| |]; cbn; try discriminate. intros H.
  repeat match type of H with
  | (if str_eqb ?a ?b then _ else _) = _ => destruct (str_eqb a b) eqn:E;
      [apply str_eqb_eq in E; injection H as <-; now subst | clear E]
  end. discriminate.
Qed.

Lemma can_transition_value f t :
  can_transition (VStr (state_value f)) (VStr (state_value t)) = state_in t (_TRANSITIONS f).
Proof. unfold can_transition, allowed_transitions. rewrite !parse_state_value. reflexivity. Qed.

Lemma state_eqb_eq a b : state_eqb a b = true <-> a = b.
Proof. apply bool_decide_eq_true. Qed.

Lemma state_in_eq s l : state_in s l = true <-> s ∈ l.
Proof. apply bool_decide_eq_true. Qed.

(** An attempt that went through its constructor. *)
Record attempt_wf (a : JobAttempt) : Prop := {
  aw_worker : ident_ok (a_worker_id a);
  aw_number : 1 <= a_number a <= MAX_ATTEMPTS;
  aw_started : 0 <= a_started_at a;
  aw_finished : forall t, a_finished_at a = Some t -> a_started_at a <= t;
  aw_checks : attempt_checks (a_number a) (a_started_at a) (a_state a) (a_finished_at a) (a_failure a) = Ok tt }.

Lemma attempt_new_inv n w st s fin f a :
  JobAttempt_new n w st s fin f = Ok a ->
  attempt_wf a /\ n = VInt (a_number a) /\ _identifier w "attempt.worker_id" = Ok (a_worker_id a)
  /\ a_state a = st /\ _timestamp s "attempt.started_at" = Ok (a_started_at a) /\ a_failure a = f
  /\ match fin with
     | None => a_finished_at a = None
     | Some v => exists t, _timestamp v "attempt.finished_at" = Ok t /\ a_finished_at a = Some t
     end.
Proof.
  unfold JobAttempt_new. intros H.
  apply bind_Ok in H as (n' & Hn & H). apply bind_Ok in H as (w' & Hw & H).
  apply bind_Ok in H as (u1 & _ & H). apply bind_Ok in H as (s' & Hs & H).
  apply bind_Ok in H as (fin' & Hf & H). apply bind_Ok in H as (u2 & Hc & [= <-]).
  apply attempt_number_inv in Hn as [-> Hn]. cbn.
  split; [|repeat split; auto].
  - split; cbn; eauto using ident_ok_intro, timestamp_inv, unit_ok.
    intros t ->. destruct fin as [v|]; [|discriminate].
    apply bind_Ok in Hf as (t' & _ & Hf). apply bind_Ok in Hf as (u3 & Hlt & [= <-]).
    apply invalid_Ok in Hlt. now bool_to_prop.
  - destruct fin as [v|]; [|now injection Hf].
    apply bind_Ok in Hf as (t' & Ht & Hf). apply bind_Ok in Hf as (u3 & _ & [= <-]). eauto.
Qed.

(** A job all of whose parts went through their constructors. *)
Definition job_wf (j : Job) : Prop := job_valid j /\ List.Forall attempt_wf (j_attempts j).

Definition new_active_attempt (j : Job) (worker : string) (t : Z) : JobAttempt :=
  {| a_number := attempt_count j + 1; a_worker_id := worker; a_state := RUNNING; a_started_at := t;
     a_finished_at := None; a_failure := None |}.

Lemma start_attempt_inv j w now j' :
  job_wf j -> start_attempt j w now = Ok j' ->
  exists worker t, _timestamp now "now" = Ok t
    /\ j_state j = QUEUED /\ attempt_count j < j_max_attempts j /\ j_updated_at j <= t
    /\ j' = job_copy j RUNNING (j_attempts j ++ [new_active_attempt j worker t])
              None None (j_available_at j) t (j_version j + 1)
    /\ job_wf j'.
Proof.
  intros [Hv Hf] H. unfold start_attempt in H.
  apply bind_Ok in H as (u1 & H1 & H). apply bind_Ok in H as (u2 & H2 & H).
  apply bind_Ok in H as (t & Ht & H). apply bind_Ok in H as (u3 & H3 & H).
  apply bind_Ok in H as (a & Ha & H).
  apply forbidden_Ok in H1, H2, H3. bool_to_prop. apply state_eqb_eq in H1.
  apply attempt_new_inv in Ha as (Hw & [= Hn] & _ & Hst & Hs & Hfl & Hfin).
  apply timestamp_vtime_inv in Hs as [Hs _].
  apply rebuild_leafs in H as [-> Hv']; [|apply copy_leafs, Hv].
  assert (a = new_active_attempt j (a_worker_id a) t) as Ea.
  { destruct a; cbn in *; unfold new_active_attempt; congruence. }
  exists (a_worker_id a), t. rewrite <- Ea. do 5 (split; [auto; fail|]).
  split; [exact Hv'|]. apply List.Forall_app; auto.
Qed.

(** The attempt that replaces the active one when it finishes. *)
Definition finished_from (current a : JobAttempt) : Prop :=
  a_number a = a_number current /\ a_worker_id a = a_worker_id current
  /\ a_started_at a = a_started_at current /\ a_state a <> RUNNING.

Lemma finish_outcome_inv target current t r f st obs :
  target ∈ [SUCCEEDED; FAILED; CANCELLED] ->
  finish_outcome target current t r f = Ok (st, obs) ->
  st = target /\ obs = (if state_eqb target FAILED then f else None)
  /\ (r <> None <-> target = SUCCEEDED) /\ (f <> None <-> target = FAILED).
Proof.
  intros Ht H. destruct target; cbn [finish_outcome] in H;
    try (exfalso; elem_cases Ht; fail).
  - destruct r; [destruct f|]; try discriminate.
    apply bind_Ok in H as (u & _ & [= <- <-]). cbn. repeat split; congruence.
  - destruct f; [|discriminate].
    apply bind_Ok in H as (u & _ & H). apply bind_Ok in H as (u2 & _ & H).
    apply bind_Ok in H as (u3 & Hr & [= <- <-]). apply forbidden_Ok, bool_decide_eq_false in Hr.
    destruct r; [destruct Hr; eauto|]. cbn. repeat split; congruence.
  - apply bind_Ok in H as (u & Hr & [= <- <-]). apply forbidden_Ok in Hr. bool_to_prop.
    destruct r as [r|]; [exfalso; eauto|]. destruct f as [f|]; [exfalso; eauto|].
    cbn. repeat split; congruence.
Qed.

Lemma finish_attempt_inv j to now r f av fin j' :
  job_wf j -> finish_attempt j to now r f av fin = Ok j' ->
  exists target current a t avail,
    to = VStr (state_value target) /\ target ∈ [SUCCEEDED; FAILED; CANCELLED]
    /\ j_state j = RUNNING /\ last_attempt j = Some current /\ a_state current = RUNNING
    /\ j_updated_at j <= t /\ finished_from current a /\ a_state a = target
    /\ j' = job_copy j target (removelast (j_attempts j) ++ [a]) r
              (if state_eqb target FAILED then f else None) avail t (j_version j + 1)
    /\ job_wf j'.
Proof.
  intros [Hv Hall] H. unfold finish_attempt in H.
  destruct (parse_state to) as [target|] eqn:Hp; [|discriminate]. apply parse_state_inv in Hp.
  destruct (j_state j) eqn:Hs; try discriminate.
  destruct (last_attempt j) as [current|] eqn:Hc; [|discriminate].
  apply bind_Ok in H as (u1 & H1 & H). apply bind_Ok in H as (u2 & H2 & H).
  apply bind_Ok in H as (t & _ & H). apply bind_Ok in H as (u3 & H3 & H).
  apply bind_Ok in H as ([st obs] & Ho & H). apply bind_Ok in H as (compl & _ & H).
  apply bind_Ok in H as (u4 & _ & H). apply bind_Ok in H as (u5 & _ & H).
  apply bind_Ok in H as (a & Ha & H). apply bind_Ok in H as (avail & _ & H).
  apply forbidden_Ok in H1, H2, H3. bool_to_prop.
  apply state_eqb_eq in H1. apply state_in_eq in H2.
  apply finish_outcome_inv in Ho as (-> & -> & _); [|exact H2].
  destruct (last_opt_Some _ _ Hc) as [pre Hpre].
  rewrite Hpre, List.Forall_app in Hall. destruct Hall as [Hall Hcur].
  inversion_clear Hcur as [|? ? Hcw _].
  apply attempt_new_inv in Ha as (Hw & [= Hn] & Hwk & Hst & Hsa & Hfl & Hfin).
  apply timestamp_vtime_inv in Hsa as [Hsa _].
  rewrite (aw_worker _ Hcw) in Hwk. injection Hwk as Hwk.
  apply rebuild_leafs in H as [-> Hv']; [|apply copy_leafs, Hv].
  exists target, current, a, t, avail.
  do 6 (split; [auto; fail|]).
  split; [repeat split; auto; rewrite Hst; intros ->; elem_cases H2|].
  split; [exact Hst|]. split; [reflexivity|]. split; [exact Hv'|].
  cbn. rewrite Hpre, removelast_last. apply List.Forall_app; auto.
Qed.

Lemma transition_inv j to now r f av j' :
  job_wf j -> transition j to now r f av = Ok j' ->
  exists target, to = VStr (state_value target) /\ target ∈ _TRANSITIONS (j_state j) /\ target <> RUNNING
    /\ ((j_state j = RUNNING /\ finish_attempt j to now r f av None = Ok j')
        \/ (j_state j <> RUNNING /\ target <> SUCCEEDED /\ exists fl avail t, j_updated_at j <= t
            /\ j' = job_copy j target (j_attempts j) None fl avail t (j_version j + 1) /\ job_wf j')).
Proof.
  intros [Hv Hall] H. unfold transition in H.
  destruct (parse_state to) as [target|] eqn:Hp; [|discriminate]. apply parse_state_inv in Hp.
  apply bind_Ok in H as (u1 & H1 & H). apply bind_Ok in H as (u2 & H2 & H).
  apply forbidden_Ok in H1, H2. rewrite can_transition_value in H1. bool_to_prop.
  apply state_in_eq in H1. apply bool_decide_eq_false in H2.
  exists target. do 3 (split; [auto; fail|]).
  destruct (state_eqb (j_state j) RUNNING) eqn:Hs.
  { apply state_eqb_eq in Hs. left. subst to. auto. }
  right. apply bool_decide_eq_false in Hs. split; [exact Hs|].
  apply bind_Ok in H as (u3 & H3 & H). apply bind_Ok in H as (u4 & H4 & H).
  apply bind_Ok in H as (u5 & _ & H). apply bind_Ok in H as (t & _ & H).
  apply bind_Ok in H as (u6 & H6 & H). apply bind_Ok in H as (u7 & _ & H).
  apply bind_Ok in H as (avail & _ & H).
  apply forbidden_Ok in H3, H4, H6. apply bool_decide_eq_false in H3, H4. bool_to_prop.
  split; [exact H3|].
  assert (r = None) as -> by (destruct r; [destruct H4; eauto | reflexivity]).
  apply rebuild_leafs in H as [-> Hv']; [|apply copy_leafs, Hv].
  do 3 eexists. split; [exact H6|]. split; [reflexivity|]. split; [exact Hv' | exact Hall].
Qed.

(** ** Runs of a durable job

    The step relation of the job contract, the invariants of every run, the
    bound on the length of a run and the operations that are always possible. *)

Lemma state_eqb_neq a b : a <> b -> state_eqb a b = false.
Proof. apply bool_decide_eq_false_2. Qed.

(** ** The step relation *)

(** One successful call of an operation of [Job]. *)
Inductive step (j j' : Job) : Prop :=
| step_start w now : start_attempt j w now = Ok j' -> step j j'
| step_finish to now r f av fin : finish_attempt j to now r f av fin = Ok j' -> step j j'
| step_transition to now r f av : transition j to now r f av = Ok j' -> step j j'.

(** What a step does to the attempt list. *)
Inductive history_step : list JobAttempt -> list JobAttempt -> Prop :=
| history_same l : history_step l l
| history_open l a : a_state a = RUNNING -> history_step l (l ++ [a])
| history_close l c a : a_state c = RUNNING -> finished_from c a -> history_step (l ++ [c]) (l ++ [a]).

(** What every step does, whatever its arguments. *)
Record step_effect (j j' : Job) : Prop := {
  se_state : j_state j' ∈ _TRANSITIONS (j_state j);
  se_history : history_step (j_attempts j) (j_attempts j');
  se_count : length (j_attempts j') =
             (length (j_attempts j) + if state_eqb (j_state j') RUNNING then 1 else 0)%nat;
  se_wf : job_wf j';
  se_updated : j_updated_at j <= j_updated_at j';
  se_version : j_version j' = j_version j + 1;
  se_max : j_max_attempts j' = j_max_attempts j;
  se_payload : j_payload j' = j_payload j;
  se_operation : j_operation j' = j_operation j;
  se_job_id : j_job_id j' = j_job_id j;
  se_identity : idempotency_identity j' = idempotency_identity j;
  se_created : j_created_at j' = j_created_at j }.

Lemma job_wf_init a b c d e f p now mx j :
  Job_create a b c d e f p now mx = Ok j -> job_wf j.
Proof.
  unfold Job_create. intros H. apply bind_Ok in H as (t & _ & H).
  pose proof (new_valid _ _ _ _ _ _ _ _ _ _ _ _ _ _ _ _ _ H) as Hv. split; [exact Hv|].
  unfold Job_new in H. run_inv H. constructor.
Qed.

Lemma finish_effect j to now r f av fin j' :
  job_wf j -> finish_attempt j to now r f av fin = Ok j' -> step_effect j j'.
Proof.
  intros Hw H. apply finish_attempt_inv in H
    as (tg & c & a & t & avail & _ & Ht & Hs & Hl & Hc & Hu & Hf & _ & -> & Hw'); [|exact Hw].
  destruct (last_opt_Some _ _ Hl) as [pre Hpre].
  split; cbn; auto.
  - rewrite Hs. exact Ht.
  - rewrite Hpre, removelast_last. now constructor.
  - rewrite Hpre, removelast_last, !length_app. cbn.
    rewrite state_eqb_neq; [lia|]. intros ->; elem_cases Ht.
Qed.

Lemma step_effect_of j j' : job_wf j -> step j j' -> step_effect j j'.
Proof.
  intros Hw [w now H|to now r f av fin H|to now r f av H].
  - apply start_attempt_inv in H as (wk & t & _ & Hs & Hn & Hu & -> & Hw'); [|exact Hw].
    split; cbn; auto.
    + rewrite Hs. cbn. set_solver.
    + now constructor.
    + rewrite length_app. reflexivity.
  - eauto using finish_effect.
  - apply transition_inv in H as (tg & _ & Hin & Hr & [[_ H]|(Hs & _ & fl & avail & t & Hu & -> & Hw')]);
      [eauto using finish_effect| |exact Hw].
    split; cbn; auto; [constructor|].
    rewrite state_eqb_neq by exact Hr. lia.
Qed.

Lemma step_wf j j' : job_wf j -> step j j' -> job_wf j'.
Proof. intros Hw H. exact (se_wf _ _ (step_effect_of _ _ Hw H)). Qed.

Lemma run_wf j j' : job_wf j -> rtc step j j' -> job_wf j'.
Proof. intros Hw H. induction H; eauto using step_wf. Qed.

(** ** Facts every well-formed job has *)

Lemma attempts_facts mx l : job_attempts_checks mx l = Ok tt ->
  0 < mx <= MAX_ATTEMPTS /\ map a_number l = range1 (length l)
  /\ Z.of_nat (length l) <= mx /\ chronological l = true.
Proof.
  unfold job_attempts_checks. intros H; run_inv H. bool_to_prop. auto.
Qed.

Lemma attempts_pass mx l :
  0 < mx <= MAX_ATTEMPTS -> map a_number l = range1 (length l) ->
  Z.of_nat (length l) <= mx -> chronological l = true -> job_attempts_checks mx l = Ok tt.
Proof.
  intros [H1 H2] Hn Hl Hc. unfold job_attempts_checks.
  rewrite Hc, (bool_decide_eq_true_2 _ Hn).
  replace (0 <? mx) with true by (symmetry; now apply Z.ltb_lt).
  replace (mx <=? MAX_ATTEMPTS) with true by (symmetry; now apply Z.leb_le).
  replace (MAX_ATTEMPTS <? Z.of_nat (length l)) with false by (symmetry; apply Z.ltb_ge; lia).
  replace (mx <? Z.of_nat (length l)) with false by (symmetry; apply Z.ltb_ge; lia).
  reflexivity.
Qed.

Lemma range1_snoc n : range1 (S n) = range1 n ++ [Z.of_nat n + 1].
Proof. unfold range1. rewrite seq_S, map_app. cbn. do 2 f_equal. lia. Qed.

Lemma last_number l a : map a_number l = range1 (length l) -> last_opt l = Some a ->
  a_number a = Z.of_nat (length l).
Proof.
  intros H Hl. destruct (last_opt_Some _ _ Hl) as [pre ->].
  rewrite length_app, map_app in *. cbn in *. rewrite Nat.add_1_r, range1_snoc in *.
  apply app_inj_tail in H as [_ H]. lia.
Qed.

(** The attempts of a well-formed job before the last are finished. *)
Lemma chronological_snoc l a : chronological (l ++ [a]) = true <->
  chronological l = true /\ match last_opt l with
    | None => True
    | Some p => exists t, a_finished_at p = Some t /\ t <= a_started_at a
    end.
Proof.
  induction l as [|x l IH]; [cbn; tauto|].
  destruct l as [|y l].
  - cbn. destruct (a_finished_at x) as [t|].
    + rewrite andb_true_r, Z.leb_le. split; [intros H; split; eauto|].
      intros (_ & t' & [= <-] & H). exact H.
    + split; [discriminate | intros (_ & t' & [=] & _)].
  - change (last_opt (x :: y :: l)) with (last_opt (y :: l)).
    change (chronological ((x :: y :: l) ++ [a])) with
      (match a_finished_at x with None => false
       | Some finished => (finished <=? a_started_at y) && chronological ((y :: l) ++ [a]) end).
    change (chronological (x :: y :: l)) with
      (match a_finished_at x with None => false
       | Some finished => (finished <=? a_started_at y) && chronological (y :: l) end).
    destruct (a_finished_at x) as [t|]; [|split; [discriminate | intros [[=] _]]].
    rewrite !andb_true_iff, IH. tauto.
Qed.

Lemma chronological_prefix l1 l2 : chronological (l1 ++ l2) = true -> chronological l1 = true.
Proof.
  induction l2 as [|x l2 IH] using rev_ind; [now rewrite app_nil_r|].
  rewrite app_assoc. intros H. apply chronological_snoc in H as [H _]. auto.
Qed.

Lemma running_unfinished a : attempt_wf a -> (a_state a = RUNNING <-> a_finished_at a = None).
Proof.
  intros Hw. pose proof (aw_checks _ Hw) as H. unfold attempt_checks in H.
  destruct (a_state a), (a_finished_at a) eqn:E; try discriminate;
    split; intros; try congruence.
  all: run_inv H; bool_to_prop; match goal with Hn : ~ is_Some (Some _) |- _ => destruct Hn; eauto end.
Qed.

Lemma running_is_last j l1 a l2 :
  job_wf j -> j_attempts j = l1 ++ a :: l2 -> a_state a = RUNNING -> l2 = [].
Proof.
  intros [Hv Hall] E Hr. destruct l2 as [|b l2]; [reflexivity|exfalso].
  destruct (attempts_facts _ _ (v_attempts _ Hv)) as (_ & _ & _ & Hc).
  rewrite E, List.Forall_app in Hall. destruct Hall as [_ Ha]. inversion_clear Ha as [|? ? Hwa _].
  apply (running_unfinished _ Hwa) in Hr.
  rewrite E in Hc. replace (l1 ++ a :: b :: l2) with (((l1 ++ [a]) ++ [b]) ++ l2) in Hc
    by now rewrite <- !app_assoc.
  apply chronological_prefix, chronological_snoc in Hc as [_ Hc].
  rewrite last_opt_snoc in Hc. destruct Hc as (t & Ht & _). congruence.
Qed.

(** What [job_state_checks] guarantees of the attempt count in each state. *)
Lemma state_count j : job_wf j ->
  0 <= attempt_count j <= j_max_attempts j /\ 0 < j_max_attempts j
  /\ match j_state j with
     | PENDING => attempt_count j = 0
     | QUEUED | RETRYING => attempt_count j < j_max_attempts j
     | RUNNING | SUCCEEDED | FAILED | DEAD_LETTER => 0 < attempt_count j
     | CANCELLED => True
     end.
Proof.
  intros [Hv _]. destruct (attempts_facts _ _ (v_attempts _ Hv)) as (Hm & _ & Hl & _).
  unfold attempt_count. split; [lia|]. split; [lia|].
  pose proof (v_state _ Hv) as H. unfold job_state_checks in H.
  apply bind_Ok in H as (u & H & _).
  assert (forall a, last_attempt j = Some a -> (0 < length (j_attempts j))%nat) as Hpos.
  { unfold last_attempt. intros a Ha. destruct (j_attempts j); [discriminate | cbn; lia]. }
  assert (forall s, last_state_is j s = true -> 0 < Z.of_nat (length (j_attempts j))) as Hpos'.
  { unfold last_state_is. intros s Hs. destruct (last_attempt j) eqn:E; [|discriminate].
    specialize (Hpos _ eq_refl). lia. }
  unfold job_failure_checks in H.
  destruct (j_state j); try exact I.
  - run_inv H. bool_to_prop. now match goal with E : j_attempts j = [] |- _ => rewrite E end.
  - apply bind_Ok in H as (u1 & _ & H). destruct (last_attempt j) as [a|] eqn:E.
    + apply bind_Ok in H as (u2 & _ & H). apply invalid_Ok in H.
      destruct (a_failure a); [|discriminate]. bool_to_prop. exact H0.
    + apply last_opt_None in E. rewrite E. cbn. lia.
  - run_inv H. bool_to_prop. eauto.
  - run_inv H. bool_to_prop. eauto.
  - destruct (last_attempt j) eqn:E; [|discriminate]. specialize (Hpos _ eq_refl). lia.
  - destruct (last_attempt j) eqn:E; [|discriminate].
    apply bind_Ok in H as (? & _ & H). destruct (j_failure j); [|discriminate].
    do 6 (apply bind_Ok in H as (? & _ & H)). apply invalid_Ok in H.
    apply andb_false_iff in H as [H|H]; [discriminate|]. bool_to_prop. exact H.
  - destruct (last_attempt j) eqn:E; [|discriminate]. specialize (Hpos _ eq_refl). lia.
Qed.

(** ** Length of runs *)

(** How many steps a job has left at most: an attempt costs four (queue,
    start, fail, retry). *)
Definition steps_left (j : Job) : Z :=
  let rest := 4 * (j_max_attempts j - attempt_count j) in
  match j_state j with
  | PENDING => rest
  | QUEUED => rest - 1
  | RUNNING => rest + 2
  | FAILED => rest + 1
  | RETRYING => rest
  | SUCCEEDED | CANCELLED | DEAD_LETTER => 0
  end.

Lemma steps_left_nonneg j : job_wf j -> 0 <= steps_left j.
Proof.
  intros Hw. destruct (state_count j Hw) as (Hc & Hm & Hs). unfold steps_left.
  destruct (j_state j); lia.
Qed.

Lemma steps_left_step j j' : job_wf j -> step j j' -> steps_left j' < steps_left j.
Proof.
  intros Hw H. pose proof (step_effect_of _ _ Hw H) as E.
  destruct (state_count j Hw) as (Hc & Hm & Hs).
  destruct (state_count j' (se_wf _ _ E)) as (Hc' & Hm' & Hs').
  pose proof (se_state _ _ E) as Ht. pose proof (se_count _ _ E) as Hn. pose proof (se_max _ _ E) as Hx.
  unfold steps_left, attempt_count in *. rewrite Hn, Hx in *.
  destruct (j_state j) eqn:Ej; cbn [_TRANSITIONS] in Ht; elem_cases Ht; rewrite Ht in *;
    repeat match goal with |- context [state_eqb ?a ?b] => first
      [ rewrite (state_eqb_neq a b) in * by discriminate
      | change (state_eqb a b) with true in * ] end;
    cbv iota in *; lia.
Qed.

Lemma run_bounded j j' n : job_wf j -> nsteps step n j j' -> Z.of_nat n <= steps_left j.
Proof.
  intros Hw H. induction H as [j|n j k j' Hs Hr IH]; [pose proof (steps_left_nonneg j Hw); lia|].
  specialize (IH (step_wf _ _ Hw Hs)). pose proof (steps_left_step _ _ Hw Hs). lia.
Qed.

(** ** Operations that are always possible *)

Lemma lifetime_fold c u l :
  res_foldM (attempt_lifetime_check c u) tt l = Ok tt <->
  List.Forall (fun a => attempt_lifetime_check c u tt a = Ok tt) l.
Proof.
  induction l as [|a l IH]; cbn [res_foldM]; [split; auto|].
  split.
  - intros H. apply bind_Ok in H as ([] & Ha & H). constructor; [exact Ha | now apply IH].
  - intros H. inversion_clear H as [|? ? Ha Hl]. rewrite Ha. cbn. now apply IH.
Qed.

Lemma lifetime_check_Ok c u a : attempt_lifetime_check c u tt a = Ok tt <->
  c <= a_started_at a <= u
  /\ (forall t, a_finished_at a = Some t -> t <= u)
  /\ (forall f, a_failure a = Some f -> c <= f_occurred_at f <= u).
Proof.
  unfold attempt_lifetime_check, within. split.
  - intros H. apply bind_Ok in H as (u1 & H1 & H). apply bind_Ok in H as (u2 & H2 & H).
    apply invalid_Ok in H1, H2, H. split; [bool_to_prop; lia|]. split.
    + intros t E. rewrite E in H2. now bool_to_prop.
    + intros f E. rewrite E in H. bool_to_prop. lia.
  - intros (H1 & H2 & H3).
    guard_pass; [guard_pass; [guard_pass|]|].
    + destruct (a_failure a) as [f|]; [|reflexivity]. specialize (H3 f eq_refl).
      apply negb_false_iff, andb_true_intro; split; apply Z.leb_le; lia.
    + destruct (a_finished_at a) as [t|]; [|reflexivity]. apply Z.ltb_ge; auto.
    + apply orb_false_iff; split; apply Z.ltb_ge; lia.
Qed.

(** The times of a well-formed job, as facts. *)
Lemma lifetime_facts j : job_lifetime_checks j = Ok tt <->
  j_created_at j <= j_available_at j /\ j_created_at j <= j_updated_at j /\ 1 <= j_version j
  /\ List.Forall (fun a => attempt_lifetime_check (j_created_at j) (j_updated_at j) tt a = Ok tt) (j_attempts j)
  /\ (forall r, j_result j = Some r -> j_created_at j <= r_completed_at r <= j_updated_at j)
  /\ (forall f, j_failure j = Some f -> j_created_at j <= f_occurred_at f <= j_updated_at j).
Proof.
  unfold job_lifetime_checks, within. split.
  - intros H. apply bind_Ok in H as (u1 & H1 & H). apply bind_Ok in H as (u2 & H2 & H).
    apply bind_Ok in H as (u3 & H3 & H). apply bind_Ok in H as ([] & H4 & H).
    apply bind_Ok in H as (u5 & H5 & H). apply invalid_Ok in H1, H2, H3, H5, H.
    apply lifetime_fold in H4. apply Z.ltb_ge in H1, H2, H3.
    do 4 (split; [assumption|]). split.
    + intros r E. rewrite E in H5. bool_to_prop. lia.
    + intros f E. rewrite E in H. bool_to_prop. lia.
  - intros (H1 & H2 & H3 & H4 & H5 & H6).
    do 3 (guard_pass; [|apply Z.ltb_ge; lia]).
    rewrite (proj2 (lifetime_fold _ _ _) H4). cbn [mbind res_mbind].
    guard_pass; [guard_pass|].
    + destruct (j_failure j) as [f|]; [|reflexivity]. specialize (H6 f eq_refl).
      apply negb_false_iff, andb_true_intro; split; apply Z.leb_le; lia.
    + destruct (j_result j) as [r|]; [|reflexivity]. specialize (H5 r eq_refl).
      apply negb_false_iff, andb_true_intro; split; apply Z.leb_le; lia.
Qed.

Lemma lifetime_later c u u' a : u <= u' ->
  attempt_lifetime_check c u tt a = Ok tt -> attempt_lifetime_check c u' tt a = Ok tt.
Proof.
  rewrite !lifetime_check_Ok. intros Hu (H1 & H2 & H3). split; [lia|]. split.
  - intros t Ht. specialize (H2 t Ht). lia.
  - intros f Hf. specialize (H3 f Hf). lia.
Qed.

(** A modified copy of a valid job is accepted as soon as its attempt list,
    times and state rules are. *)
Lemma copy_accepted j st l r f av t :
  job_valid j -> j_updated_at j <= t -> j_created_at j <= av ->
  job_attempts_checks (j_max_attempts j) l = Ok tt ->
  List.Forall (fun a => attempt_lifetime_check (j_created_at j) t tt a = Ok tt) l ->
  (forall x, r = Some x -> j_created_at j <= r_completed_at x <= t) ->
  (forall x, f = Some x -> j_created_at j <= f_occurred_at x <= t) ->
  let j' := job_copy j st l r f av t (j_version j + 1) in
  job_state_checks j' = Ok tt -> Job_rebuild j' = Ok j'.
Proof.
  intros Hv Ht Hav Hl Hlife Hr Hf j' Hs.
  pose proof (v_created _ Hv) as Hc.
  destruct (proj1 (lifetime_facts j) (v_lifetime _ Hv)) as (_ & H2 & H3 & _).
  apply valid_rebuild. split; cbn; try lia.
  - apply copy_leafs, Hv.
  - exact Hl.
  - apply lifetime_facts. cbn. repeat split; auto; try lia; eapply Hr || eapply Hf; eassumption.
  - exact Hs.
Qed.

Lemma finished_lifetime j t : job_valid j -> j_updated_at j <= t ->
  List.Forall (fun a => attempt_lifetime_check (j_created_at j) t tt a = Ok tt) (j_attempts j).
Proof.
  intros Hv Ht. destruct (proj1 (lifetime_facts j) (v_lifetime _ Hv)) as (_ & _ & _ & H & _).
  eapply List.Forall_impl; [|exact H]. intros a. now apply lifetime_later.
Qed.

(** The last attempt of a QUEUED job, if any, failed and finished. *)
Lemma queued_last j a : job_wf j -> j_state j = QUEUED -> last_attempt j = Some a ->
  a_state a = FAILED /\ exists t, a_finished_at a = Some t /\ t <= j_updated_at j.
Proof.
  intros [Hv Hall] Hs Hl. pose proof (v_state _ Hv) as H. unfold job_state_checks in H.
  rewrite Hs, Hl in H. apply bind_Ok in H as (u & H & _). run_inv H. bool_to_prop.
  apply state_eqb_eq in H1. split; [exact H1|].
  destruct (last_opt_Some _ _ Hl) as [pre Hpre].
  pose proof (finished_lifetime j (j_updated_at j) Hv ltac:(lia)) as Hlife.
  rewrite Hpre, List.Forall_app in Hall, Hlife.
  destruct Hall as [_ Ha], Hlife as [_ Hlife].
  inversion_clear Ha as [|? ? Hwa _]. inversion_clear Hlife as [|? ? Hla _].
  destruct (a_finished_at a) as [t|] eqn:E.
  - exists t. split; [reflexivity|]. apply lifetime_check_Ok in Hla as (_ & Hla & _). auto.
  - apply (running_unfinished _ Hwa) in E. congruence.
Qed.

Lemma start_attempt_accepted j w t :
  job_wf j -> j_state j = QUEUED -> ident_ok w -> j_updated_at j <= t ->
  start_attempt j (VStr w) (vtime t) =
  Ok (job_copy j RUNNING (j_attempts j ++ [new_active_attempt j w t]) None None (j_available_at j) t
        (j_version j + 1)).
Proof.
  intros Hw Hs Hi Ht. pose proof Hw as [Hv Hall].
  destruct (state_count j Hw) as (Hc & Hm & Hn). rewrite Hs in Hn.
  destruct (attempts_facts _ _ (v_attempts _ Hv)) as (Hmx & Hnum & Hlen & Hchr).
  destruct (proj1 (lifetime_facts j) (v_lifetime _ Hv)) as (Hav & Hup & _).
  pose proof (v_created _ Hv) as H0.
  unfold start_attempt. rewrite Hs.
  guard_pass; [|reflexivity]. guard_pass; [|now apply Z.leb_gt].
  rewrite timestamp_vtime by lia. cbn [mbind res_mbind].
  guard_pass; [|now apply Z.ltb_ge].
  unfold JobAttempt_new. rewrite attempt_number_int by lia. cbn [mbind res_mbind].
  rewrite Hi. cbn [mbind res_mbind]. rewrite invalid_pass by reflexivity. cbn [mbind res_mbind].
  rewrite timestamp_vtime by lia. cbn [mbind res_mbind].
  replace (attempt_checks (attempt_count j + 1) t RUNNING None None)
    with (Ok (E := job_error) tt) by reflexivity. cbn [mbind res_mbind].
  apply copy_accepted; auto; try discriminate.
  - apply attempts_pass; [lia| | |].
    + rewrite map_app, length_app. cbn [map length]. rewrite Nat.add_1_r, range1_snoc, Hnum. reflexivity.
    + rewrite length_app. unfold attempt_count in Hn. cbn [length]. lia.
    + apply chronological_snoc. split; [exact Hchr|].
      destruct (last_opt (j_attempts j)) as [a|] eqn:El; [|exact I].
      destruct (queued_last j a Hw Hs El) as (_ & t' & Ht' & Hle).
      exists t'. split; [exact Ht'|]. cbn. lia.
  - apply List.Forall_app. split; [now apply finished_lifetime|].
    constructor; [|constructor]. apply lifetime_check_Ok. cbn. repeat split; try lia; discriminate.
  - unfold job_state_checks, last_state_is, last_attempt, job_copy, has_result, has_failure.
    cbn [j_attempts j_state j_result j_failure].
    rewrite last_opt_snoc. reflexivity.
Qed.

(** The job's failure record in the FAILED, RETRYING and DEAD_LETTER states. *)
Lemma failed_facts j : job_wf j -> state_in (j_state j) [FAILED; RETRYING; DEAD_LETTER] = true ->
  exists a f, last_attempt j = Some a /\ a_state a = FAILED /\ j_failure j = Some f
    /\ a_failure a = Some f /\ f_attempt f = attempt_count j /\ f_occurred_at f <= j_updated_at j
    /\ j_result j = None.
Proof.
  intros [Hv Hall] Hs. apply state_in_eq in Hs.
  assert (job_failure_checks j = Ok tt) as H.
  { pose proof (v_state _ Hv) as H. unfold job_state_checks in H.
    apply bind_Ok in H as ([] & H & _). destruct (j_state j); try (exfalso; elem_cases Hs; fail); exact H. }
  unfold job_failure_checks in H.
  destruct (last_attempt j) as [a|] eqn:El; [|discriminate].
  apply bind_Ok in H as (u1 & H1 & H). destruct (j_failure j) as [f|] eqn:Ef; [|discriminate].
  apply bind_Ok in H as (u2 & H2 & H). apply bind_Ok in H as (u3 & H3 & H).
  apply bind_Ok in H as (u4 & _ & H). apply bind_Ok in H as (u5 & _ & H).
  apply bind_Ok in H as (u6 & H6 & _). apply invalid_Ok in H1, H2, H3, H6. bool_to_prop.
  apply state_eqb_eq in H1.
  destruct (attempts_facts _ _ (v_attempts _ Hv)) as (_ & Hnum & _ & _).
  destruct (proj1 (lifetime_facts j) (v_lifetime _ Hv)) as (_ & _ & _ & _ & _ & Hf).
  specialize (Hf f Ef). symmetry in H3.
  exists a, f. repeat split; auto; try lia.
  - rewrite H2. exact (last_number _ _ Hnum El).
  - apply bool_decide_eq_false in H6. destruct (j_result j); [destruct H6; eauto | reflexivity].
Qed.

(** A waiting job's last attempt, if any, failed. *)
Lemma waiting_last j a : job_wf j -> state_in (j_state j) [PENDING; QUEUED; RETRYING] = true ->
  last_attempt j = Some a -> a_state a = FAILED.
Proof.
  intros Hw Hs Hl. destruct (j_state j) eqn:E; try discriminate.
  - destruct (state_count j Hw) as (_ & _ & Hn). rewrite E in Hn.
    unfold attempt_count in Hn. unfold last_attempt in Hl.
    destruct (j_attempts j); [discriminate | cbn in Hn; lia].
  - now destruct (queued_last j a Hw E Hl).
  - destruct (failed_facts j Hw) as (a' & f & Hl' & Ha & _); [now rewrite E|]. congruence.
Qed.

Lemma waiting_failure j f : job_wf j -> state_in (j_state j) [PENDING; QUEUED; RETRYING] = true ->
  j_failure j = Some f -> f_occurred_at f <= j_updated_at j.
Proof.
  intros [Hv _] _ Hf. destruct (proj1 (lifetime_facts j) (v_lifetime _ Hv)) as (_ & _ & _ & _ & _ & H).
  specialize (H f Hf). lia.
Qed.

Lemma cancelled_checks j l av t v :
  match last_opt l with Some a => state_in (a_state a) [FAILED; CANCELLED] = true | None => True end ->
  job_state_checks (job_copy j CANCELLED l None None av t v) = Ok tt.
Proof.
  intros Hl. unfold job_state_checks, last_state_is, last_attempt, job_copy, has_result, has_failure.
  cbn [j_state j_attempts j_result j_failure]. destruct (last_opt l) as [a|]; [|reflexivity].
  rewrite Hl. destruct (a_state a); try discriminate; reflexivity.
Qed.

Lemma cancel_waiting_accepted j t :
  job_wf j -> state_in (j_state j) [PENDING; QUEUED; RETRYING] = true -> j_updated_at j <= t ->
  transition j (VStr (state_value CANCELLED)) (vtime t) None None None =
  Ok (job_copy j CANCELLED (j_attempts j) None None (j_available_at j) t (j_version j + 1)).
Proof.
  intros Hw Hs Ht. pose proof Hw as [Hv _].
  pose proof (v_updated _ Hv) as H0.
  destruct (proj1 (lifetime_facts j) (v_lifetime _ Hv)) as (Hav & _ & _).
  unfold transition. rewrite parse_state_value, can_transition_value.
  assert (state_in CANCELLED (_TRANSITIONS (j_state j)) = true /\ state_eqb (j_state j) RUNNING = false)
    as [E1 E2] by (destruct (j_state j); try discriminate; split; reflexivity).
  rewrite E1, E2. guard_pass; [|reflexivity]. guard_pass; [|reflexivity].
  guard_pass; [|reflexivity]. guard_pass; [|reflexivity].
  unfold transition_failure_checks.
  change (state_in CANCELLED [FAILED; RETRYING; DEAD_LETTER]) with false. cbv iota.
  guard_pass; [|reflexivity].
  rewrite timestamp_vtime by lia. cbn [mbind res_mbind].
  guard_pass; [|now apply Z.ltb_ge].
  guard_pass; [|].
  - unfold optional_timestamp. cbn [mbind res_mbind].
    apply copy_accepted; auto; try discriminate.
    + exact (v_attempts _ Hv).
    + now apply finished_lifetime.
    + apply cancelled_checks. destruct (last_opt (j_attempts j)) as [a|] eqn:El; [|exact I].
      now rewrite (waiting_last j a Hw Hs El).
  - destruct (j_failure j) as [f|] eqn:Ef; [|reflexivity].
    pose proof (waiting_failure j f Hw Hs Ef). apply Z.ltb_ge. lia.
Qed.

Lemma running_current j : job_wf j -> j_state j = RUNNING ->
  exists pre a, j_attempts j = pre ++ [a] /\ last_attempt j = Some a /\ a_state a = RUNNING /\ attempt_wf a
    /\ a_number a = attempt_count j /\ j_created_at j <= a_started_at a <= j_updated_at j.
Proof.
  intros [Hv Hall] Hs. pose proof (v_state _ Hv) as H. unfold job_state_checks in H. rewrite Hs in H.
  apply bind_Ok in H as (u & H & _). apply bind_Ok in H as (u1 & H1 & _).
  apply invalid_Ok in H1. bool_to_prop. unfold last_state_is in H1.
  destruct (last_attempt j) as [a|] eqn:El; [|discriminate]. apply state_eqb_eq in H1.
  destruct (last_opt_Some _ _ El) as [pre Hpre].
  destruct (attempts_facts _ _ (v_attempts _ Hv)) as (_ & Hnum & _ & _).
  pose proof (finished_lifetime j (j_updated_at j) Hv ltac:(lia)) as Hlife.
  pose proof (last_number _ _ Hnum El) as Hn.
  rewrite Hpre, List.Forall_app in Hall, Hlife.
  destruct Hall as [_ Ha], Hlife as [_ Hlife].
  inversion_clear Ha as [|? ? Hwa _]. inversion_clear Hlife as [|? ? Hla _].
  apply lifetime_check_Ok in Hla as (Hla & _).
  exists pre, a. do 4 (split; [first [assumption | reflexivity]|]). split; assumption.
Qed.

Definition cancelled_attempt (a : JobAttempt) (t : Z) : JobAttempt :=
  {| a_number := a_number a; a_worker_id := a_worker_id a; a_state := CANCELLED;
     a_started_at := a_started_at a; a_finished_at := Some t; a_failure := None |}.

Lemma cancelled_attempt_new a t : attempt_wf a -> a_started_at a <= t ->
  JobAttempt_new (VInt (a_number a)) (VStr (a_worker_id a)) CANCELLED (vtime (a_started_at a))
    (Some (vtime t)) None = Ok (cancelled_attempt a t).
Proof.
  intros [Hw Hn Hs _ _] Ht. unfold JobAttempt_new. rewrite attempt_number_int by lia. cbn [mbind res_mbind].
  rewrite Hw. cbn [mbind res_mbind]. guard_pass; [|reflexivity].
  rewrite !timestamp_vtime by lia. cbn [mbind res_mbind].
  rewrite (invalid_pass (t <? a_started_at a)) by now apply Z.ltb_ge. reflexivity.
Qed.

Lemma cancel_running_accepted j t :
  job_wf j -> j_state j = RUNNING -> j_updated_at j <= t ->
  exists pre a, j_attempts j = pre ++ [a] /\
  transition j (VStr (state_value CANCELLED)) (vtime t) None None None =
  Ok (job_copy j CANCELLED (pre ++ [cancelled_attempt a t]) None None (j_available_at j) t (j_version j + 1)).
Proof.
  intros Hw Hs Ht. pose proof Hw as [Hv _].
  destruct (running_current j Hw Hs) as (pre & a & Hpre & Hl & Ha & Hwa & Hn & Hst).
  exists pre, a. split; [exact Hpre|].
  pose proof (v_updated _ Hv) as H0.
  destruct (proj1 (lifetime_facts j) (v_lifetime _ Hv)) as (Hav & _ & _).
  destruct (attempts_facts _ _ (v_attempts _ Hv)) as (Hmx & Hnum & Hlen & Hchr).
  unfold transition. rewrite parse_state_value, can_transition_value, Hs.
  guard_pass; [|reflexivity]. guard_pass; [|reflexivity].
  change (state_eqb RUNNING RUNNING) with true. cbv iota.
  unfold finish_attempt. rewrite parse_state_value, Hs, Hl, Ha.
  guard_pass; [|reflexivity]. guard_pass; [|reflexivity].
  rewrite timestamp_vtime by lia. cbn [mbind res_mbind].
  guard_pass; [|now apply Z.ltb_ge].
  change (finish_outcome CANCELLED a t None None) with (Ok (E := job_error) (CANCELLED, @None JobFailure)).
  cbn [mbind res_mbind optional_timestamp].
  guard_pass; [|unfold within; apply negb_false_iff, andb_true_intro; split; apply Z.leb_le; lia].
  guard_pass; [|reflexivity].
  rewrite cancelled_attempt_new by (auto; lia). cbn [mbind res_mbind].
  rewrite Hpre, removelast_last.
  apply copy_accepted; auto; try discriminate.
  - apply attempts_pass; [lia| | |].
    + rewrite map_app, length_app. rewrite Hpre, map_app, length_app in Hnum. exact Hnum.
    + rewrite length_app. rewrite Hpre, length_app in Hlen. exact Hlen.
    + rewrite Hpre in Hchr. apply chronological_snoc. now apply chronological_snoc in Hchr.
  - pose proof (finished_lifetime j t Hv Ht) as Hlife. rewrite Hpre, List.Forall_app in Hlife.
    apply List.Forall_app. split; [apply Hlife|]. constructor; [|constructor].
    apply lifetime_check_Ok. cbn. split; [lia|]. split; [|discriminate]. intros ? [= <-]. lia.
  - apply cancelled_checks. now rewrite last_opt_snoc.
Qed.

Lemma dead_letter_accepted j t :
  job_wf j -> j_state j = FAILED -> j_updated_at j <= t ->
  transition j (VStr (state_value DEAD_LETTER)) (vtime t) None None None =
  Ok (job_copy j DEAD_LETTER (j_attempts j) None (j_failure j) (j_available_at j) t (j_version j + 1)).
Proof.
  intros Hw Hs Ht. pose proof Hw as [Hv _].
  pose proof (v_updated _ Hv) as H0.
  destruct (proj1 (lifetime_facts j) (v_lifetime _ Hv)) as (Hav & _ & _ & _ & _ & Hlf).
  destruct (failed_facts j Hw) as (a & f & Hl & Ha & Hf & Haf & Hn & Hocc & Hr); [now rewrite Hs|].
  unfold transition. rewrite parse_state_value, can_transition_value, Hs.
  guard_pass; [|reflexivity]. guard_pass; [|reflexivity].
  change (state_eqb FAILED RUNNING) with false. cbv iota.
  guard_pass; [|reflexivity]. guard_pass; [|reflexivity].
  unfold transition_failure_checks. rewrite Hf.
  change (state_in DEAD_LETTER [FAILED; RETRYING; DEAD_LETTER]) with true. cbv iota.
  rewrite (forbidden_pass (negb (f_attempt f =? attempt_count j)))
    by (apply negb_false_iff, Z.eqb_eq; exact Hn).
  change (state_eqb DEAD_LETTER RETRYING) with false. cbn [mbind res_mbind].
  rewrite timestamp_vtime by lia. cbn [mbind res_mbind].
  guard_pass; [|now apply Z.ltb_ge]. guard_pass; [|apply Z.ltb_ge; lia].
  cbn [optional_timestamp mbind res_mbind].
  apply copy_accepted; auto; try discriminate.
  - exact (v_attempts _ Hv).
  - now apply finished_lifetime.
  - intros x [= <-]. specialize (Hlf f Hf). lia.
  - pose proof (v_state _ Hv) as H. unfold job_state_checks in *. rewrite Hs in H.
    apply bind_Ok in H as ([] & H & _). unfold job_failure_checks in *. unfold last_attempt in *.
    cbn [job_copy j_state j_attempts j_failure j_max_attempts j_result j_updated_at] in *.
    rewrite Hl, Hf in *.
    apply bind_Ok in H as (u1 & H1 & H). apply bind_Ok in H as (u2 & H2 & H).
    apply bind_Ok in H as (u3 & H3 & H). apply bind_Ok in H as (u4 & H4 & H).
    apply bind_Ok in H as (u5 & H5 & H). apply invalid_Ok in H1, H2, H3, H4, H5.
    destruct (last_opt_Some _ _ Hl) as [pre Hpre].
    assert (exists t', a_finished_at a = Some t') as [t' Et].
    { destruct (a_finished_at a) eqn:E; [eauto|]. destruct Hw as [_ Hall].
      rewrite Hpre, List.Forall_app in Hall. destruct Hall as [_ Hall].
      inversion_clear Hall as [|? ? Hwa _]. apply (running_unfinished _ Hwa) in E. congruence. }
    rewrite Et in *. cbn [from_option] in *.
    rewrite !invalid_pass by first [assumption | reflexivity]. reflexivity.
Qed.
