(* ===== verification/JobProperties.v ===== *)
(** * What the job contracts guarantee

    The properties of [rick_jobs.contracts] over all jobs the operations can
    produce, each with a concrete instance. *)

From S2P Require Import Prelude PyFloat PyStr Regex PyVal JobContracts JobLemmas.
From Stdlib Require Import Ascii String.
From stdpp Require Import strings relations list.

Local Open Scope Z_scope.

(** Jobs a program can hold: created, then moved by operations. *)
Inductive job_reachable : Job -> Prop :=
| reach_create a b c d e f p now mx j : Job_create a b c d e f p now mx = Ok j -> job_reachable j
| reach_step j j' : job_reachable j -> step j j' -> job_reachable j'.

Lemma reachable_wf j : job_reachable j -> job_wf j.
Proof. induction 1; eauto using job_wf_init, step_wf. Qed.

(** ** Sample jobs for the instances *)

Definition sample_payload : list (pyval * pyval) :=
  [(VStr "traceparent", VStr "00-aa"); (VStr "document_id", VStr "doc-1")].

Definition sample_create (max_attempts : Z) (trace : string) : jres Job :=
  Job_create (VStr "job-1") (VStr "tenant-a") (VStr "ws-1") (VStr "col-1") (VStr "ingest.document")
    (VStr "key-1") [(VStr "traceparent", VStr trace); (VStr "document_id", VStr "doc-1")]
    (VInt 0) max_attempts.

Definition sample_failure : option JobFailure :=
  match JobFailure_new (VStr "parser.timeout") (VStr "parser timed out") true (VInt 1) (VInt 0) with
  | Ok f => Some f
  | Err _ => None
  end.

(** The operations of the sample runs. *)
Inductive sample_op : Type := Enqueue | Start | Fail_retryable | Retry | Succeed.

Definition sample_run1 (op : sample_op) (j : Job) : jres Job :=
  match op with
  | Enqueue => transition j (VStr "QUEUED") (VInt 0) None None None
  | Start => start_attempt j (VStr "worker-1") (VInt 0)
  | Fail_retryable => transition j (VStr "FAILED") (VInt 0) None sample_failure None
  | Retry => transition j (VStr "RETRYING") (VInt 0) None None None
  | Succeed =>
      r ← JobResult_new [(VStr "artifact_ref", VStr "obj-1")] (Some (VStr "doc-1")) (VInt 0);
      finish_attempt j (VStr "SUCCEEDED") (VInt 0) (Some r) None None None
  end.

(** A job after some operations, from a creation with two attempts at most. *)
Definition sample (ops : list sample_op) : jres Job :=
  j ← sample_create 2 "00-aa"; res_foldM (fun j op => sample_run1 op j) j ops.

Lemma sample_run1_step op j j' : sample_run1 op j = Ok j' -> step j j'.
Proof.
  destruct op; cbn [sample_run1]; intros H;
    first [ eapply step_start; eassumption | eapply step_transition; eassumption
          | apply bind_Ok in H as (r & _ & H); eapply step_finish; eassumption ].
Qed.

Lemma sample_reachable ops j : sample ops = Ok j -> job_reachable j.
Proof.
  unfold sample. intros H. apply bind_Ok in H as (j0 & H0 & H).
  assert (job_reachable j0) as Hr by (eapply reach_create; exact H0). clear H0.
  revert j0 Hr H. induction ops as [|op ops IH]; cbn; intros j0 Hr H; [now injection H as ->|].
  apply bind_Ok in H as (j1 & H1 & H). eapply IH; [|exact H].
  eapply reach_step; [exact Hr | eapply sample_run1_step, H1].
Qed.

(** ** Termination *)

(** C15: from creation, every sequence of [start_attempt], [finish_attempt] and
    [transition] calls that succeed has at most [4 * max_attempts] steps: no
    job can be retried, requeued or cancelled for ever. *)
Theorem job_run_bounded a b c d e f p now mx j0 j n :
  Job_create a b c d e f p now mx = Ok j0 -> nsteps step n j0 j -> Z.of_nat n <= 4 * mx.
Proof.
  intros H Hn. pose proof (job_wf_init _ _ _ _ _ _ _ _ _ _ H) as Hw.
  pose proof (run_bounded _ _ _ Hw Hn) as Hb.
  unfold Job_create in H. apply bind_Ok in H as (t & _ & H). unfold Job_new in H. run_inv H.
  unfold steps_left, attempt_count in Hb. cbn in Hb. lia.
Qed.

(** The bound is reached: one attempt, queued, started, failed, buried. *)
Lemma job_run_bounded_witness :
  exists j0 j, sample_create 1 "t" = Ok j0 /\ nsteps step 4 j0 j /\ Z.of_nat 4 <= 4 * 1.
Proof.
  eexists; eexists. split; [vm_compute; reflexivity|].
  match goal with |- nsteps step 4 ?j0 ?j /\ _ => assert (nsteps step 4 j0 j) as Hn end.
  { eapply nsteps_l; [eapply (step_transition _ _ (VStr "QUEUED") (VInt 0) None None None); vm_compute; reflexivity|].
    eapply nsteps_l; [eapply (step_start _ _ (VStr "worker-1") (VInt 0)); vm_compute; reflexivity|].
    eapply nsteps_l; [eapply (step_transition _ _ (VStr "FAILED") (VInt 0) None sample_failure None); vm_compute; reflexivity|].
    eapply nsteps_l; [eapply (step_transition _ _ (VStr "DEAD_LETTER") (VInt 0) None None None); vm_compute; reflexivity|].
    constructor. }
  split; [exact Hn|].
  eapply (job_run_bounded (VStr "job-1") (VStr "tenant-a") (VStr "ws-1") (VStr "col-1") (VStr "ingest.document")
    (VStr "key-1") [(VStr "traceparent", VStr "t"); (VStr "document_id", VStr "doc-1")] (VInt 0) 1);
    [vm_compute; reflexivity | exact Hn].
Defined.

(** C35: a reachable job that is not in a terminal state is never stuck: at any
    time not before its last update it can be moved to a terminal state, a
    FAILED job to DEAD_LETTER and every other one to CANCELLED. *)
Theorem job_never_stuck j t :
  job_reachable j -> terminal (j_state j) = false -> j_updated_at j <= t ->
  let target := if state_eqb (j_state j) FAILED then DEAD_LETTER else CANCELLED in
  exists j', transition j (VStr (state_value target)) (vtime t) None None None = Ok j'
    /\ j_state j' = target /\ terminal target = true.
Proof.
  intros Hr Ht Hu. pose proof (reachable_wf j Hr) as Hw.
  destruct (j_state j) eqn:Hs; try discriminate; cbn zeta.
  1, 2, 5: eexists; split; [apply cancel_waiting_accepted; auto; now rewrite Hs | split; reflexivity].
  - destruct (cancel_running_accepted j t Hw Hs Hu) as (pre & a & _ & H).
    eexists; split; [exact H | split; reflexivity].
  - eexists; split; [now apply dead_letter_accepted | split; reflexivity].
Qed.

Lemma job_never_stuck_witness :
  exists j j', sample [Enqueue; Start] = Ok j
    /\ transition j (VStr "CANCELLED") (vtime 7) None None None = Ok j' /\ j_state j' = CANCELLED.
Proof.
  destruct (sample [Enqueue; Start]) as [j|e] eqn:E; [|vm_compute in E; discriminate E].
  assert (j_state j = RUNNING /\ j_updated_at j = 0) as [Hs Hu] by (vm_compute in E; now injection E as <-).
  destruct (job_never_stuck j 7) as (j' & H & Hs' & _);
    [exact (sample_reachable _ _ E) | now rewrite Hs | rewrite Hu; lia |].
  rewrite Hs in H, Hs'. exists j, j'. auto.
Defined.

(** ** The state machine *)

(** Whatever the arguments of the call, a successful operation follows an
    edge of [_TRANSITIONS], and a job in a terminal state accepts none. *)
Theorem job_steps_follow_transitions j j' :
  job_reachable j -> step j j' ->
  can_transition (VStr (state_value (j_state j))) (VStr (state_value (j_state j'))) = true
  /\ terminal (j_state j) = false.
Proof.
  intros Hr Hs. pose proof (se_state _ _ (step_effect_of _ _ (reachable_wf _ Hr) Hs)) as H.
  rewrite can_transition_value. split; [now apply state_in_eq|].
  destruct (j_state j); try reflexivity; now apply elem_of_nil in H.
Qed.

Lemma job_steps_follow_transitions_witness :
  exists j j', sample [Enqueue] = Ok j /\ sample_run1 Start j = Ok j' /\ j_state j' = RUNNING
    /\ can_transition (VStr (state_value (j_state j))) (VStr (state_value (j_state j'))) = true.
Proof.
  destruct (sample [Enqueue]) as [j|e] eqn:E; [|vm_compute in E; discriminate E].
  destruct (sample_run1 Start j) as [j'|e] eqn:E';
    [|vm_compute in E; injection E as <-; vm_compute in E'; discriminate E'].
  exists j, j'. split; [reflexivity|]. split; [exact E'|].
  split; [vm_compute in E; injection E as <-; vm_compute in E'; now injection E' as <-|].
  apply (job_steps_follow_transitions j j' (sample_reachable _ _ E) (sample_run1_step _ _ _ E')).
Defined.

(** ** The attempt history *)

Lemma history_step_lookup l l' i a :
  history_step l l' -> l !! i = Some a ->
  exists a', l' !! i = Some a' /\ a_number a' = a_number a /\ a_worker_id a' = a_worker_id a
    /\ a_started_at a' = a_started_at a /\ (a_state a <> RUNNING -> a' = a).
Proof.
  intros [l0|l0 x _|l0 c x Hc (H1 & H2 & H3 & _)] Hi.
  - eauto 10.
  - exists a. rewrite lookup_app_l by (eapply lookup_lt_Some; eassumption). auto.
  - apply lookup_app_Some in Hi as [Hi|[Hlen Hi]].
    + exists a. rewrite lookup_app_l by (eapply lookup_lt_Some; eassumption). auto.
    + destruct (i - length l0)%nat eqn:E; [|discriminate]. injection Hi as <-.
      exists x. rewrite lookup_app_r by exact Hlen. rewrite E. repeat split; auto. congruence.
Qed.

(** The attempt history is append-only. In any later job of the run every
    attempt is still at its position with its number, worker and start, an
    attempt that had finished is unchanged altogether, the request (scope, key,
    operation, payload, limit, creation) is the same, and time and version
    have not gone back. *)
Theorem job_history_append_only j j' :
  job_reachable j -> rtc step j j' ->
  (forall i a, j_attempts j !! i = Some a ->
     exists a', j_attempts j' !! i = Some a' /\ a_number a' = a_number a
       /\ a_worker_id a' = a_worker_id a /\ a_started_at a' = a_started_at a
       /\ (a_state a <> RUNNING -> a' = a))
  /\ idempotency_identity j' = idempotency_identity j
  /\ idempotency_envelope j' = idempotency_envelope j
  /\ j_payload j' = j_payload j /\ j_job_id j' = j_job_id j /\ j_created_at j' = j_created_at j
  /\ j_updated_at j <= j_updated_at j' /\ j_version j <= j_version j'.
Proof.
  intros Hr Hrun. pose proof (reachable_wf j Hr) as Hw. clear Hr.
  induction Hrun as [j|j j1 j' Hs Hrun IH]; [repeat split; eauto 10; lia|].
  pose proof (step_effect_of _ _ Hw Hs) as E.
  destruct (IH (se_wf _ _ E)) as (Hh & Hid & Hen & Hp & Hj & Hc & Hu & Hve).
  destruct E as [_ Eh _ _ Eu Eve Em Ep Eo Ej Ei Ec].
  split.
  - intros i a Hi. destruct (history_step_lookup _ _ _ _ Eh Hi) as (a1 & Hi1 & N1 & W1 & S1 & F1).
    destruct (Hh _ _ Hi1) as (a2 & Hi2 & N2 & W2 & S2 & F2).
    exists a2. repeat split; try congruence.
    intros Hf. rewrite (F1 Hf) in F2. auto.
  - unfold idempotency_envelope in *. rewrite Em, Ep, Eo in Hen. repeat split; try congruence; lia.
Qed.

Lemma job_history_append_only_witness :
  exists j j', sample [Enqueue; Start; Fail_retryable] = Ok j /\ rtc step j j'
    /\ j_state j' = QUEUED /\ j_attempts j' !! 0%nat = j_attempts j !! 0%nat.
Proof.
  destruct (sample [Enqueue; Start; Fail_retryable]) as [j|e] eqn:E; [|vm_compute in E; discriminate E].
  destruct (sample_run1 Retry j) as [j1|e] eqn:E1;
    [|vm_compute in E; injection E as <-; vm_compute in E1; discriminate E1].
  destruct (sample_run1 Enqueue j1) as [j'|e] eqn:E2;
    [|vm_compute in E; injection E as <-; vm_compute in E1; injection E1 as <-;
      vm_compute in E2; discriminate E2].
  assert (rtc step j j') as Hrun
    by (eapply rtc_l; [eapply sample_run1_step, E1|]; eapply rtc_once, sample_run1_step, E2).
  exists j, j'. split; [reflexivity|]. split; [exact Hrun|]. split.
  { vm_compute in E; injection E as <-; vm_compute in E1; injection E1 as <-;
      vm_compute in E2; now injection E2 as <-. }
  destruct (job_history_append_only j j' (sample_reachable _ _ E) Hrun) as (Hh & _).
  destruct (j_attempts j !! 0%nat) as [a|] eqn:Ea;
    [|vm_compute in E; injection E as <-; discriminate Ea].
  destruct (Hh _ _ Ea) as (a' & Ha' & _ & _ & _ & Hf). rewrite Ha', Hf; [reflexivity|].
  vm_compute in E; injection E as <-. vm_compute in Ea. injection Ea as <-. discriminate.
Defined.

Lemma last_running j a : job_wf j -> last_attempt j = Some a -> a_state a = RUNNING -> j_state j = RUNNING.
Proof.
  intros Hw Hl Ha. destruct (j_state j) eqn:Es; try reflexivity; exfalso.
  1, 2, 6: assert (a_state a = FAILED) by (eapply waiting_last; eauto; now rewrite Es); congruence.
  2, 4: destruct (failed_facts j Hw) as (a' & f & Hl' & Hf & _); [now rewrite Es | congruence].
  all: destruct Hw as [Hv _]; pose proof (v_state _ Hv) as H; unfold job_state_checks in H;
    rewrite Es in H; apply bind_Ok in H as (u & H & _); unfold last_state_is in H; rewrite Hl, Ha in H;
    apply bind_Ok in H as (u1 & H1 & H).
  - discriminate.
  - apply bind_Ok in H as (u2 & H2 & _). discriminate.
Qed.

(** At most one attempt is active: an attempt of a reachable job is RUNNING
    exactly when it is the last one and the job itself is RUNNING; and the
    attempts are numbered 1, 2, ... up to at most [max_attempts]. *)
Theorem job_single_active_attempt j i a :
  job_reachable j -> j_attempts j !! i = Some a ->
  (a_state a = RUNNING <-> j_state j = RUNNING /\ S i = length (j_attempts j))
  /\ a_number a = Z.of_nat i + 1 /\ a_number a <= j_max_attempts j.
Proof.
  intros Hr Hi. pose proof (reachable_wf j Hr) as Hw.
  destruct (attempts_facts _ _ (v_attempts _ (proj1 Hw))) as (_ & Hnum & Hlen & _).
  pose proof (lookup_lt_Some _ _ _ Hi) as Hlt.
  assert (a_number a = Z.of_nat i + 1) as Hn.
  { assert ((a_number <$> j_attempts j) !! i = Some (a_number a)) as H
      by now rewrite list_lookup_fmap, Hi.
    change (a_number <$> j_attempts j) with (map a_number (j_attempts j)) in H.
    rewrite Hnum in H. unfold range1 in H.
    change (map Z.of_nat (seq 1 (length (j_attempts j)))) with (Z.of_nat <$> seq 1 (length (j_attempts j))) in H.
    rewrite list_lookup_fmap, lookup_seq_lt in H by exact Hlt. cbn in H. injection H as <-. lia. }
  split; [|lia]. split.
  - intros Ha. destruct (list_elem_of_split_length _ _ _ Hi) as (l1 & l2 & E & Hl1).
    pose proof (running_is_last j l1 a l2 Hw E Ha) as ->.
    split; [|rewrite E, length_app; cbn; lia].
    eapply last_running; [exact Hw| |exact Ha]. unfold last_attempt. rewrite E. apply last_opt_snoc.
  - intros [Hs Hl]. destruct (running_current j Hw Hs) as (pre & a' & E & _ & Ha' & _).
    rewrite E, length_app in Hl. cbn in Hl. rewrite E in Hi.
    rewrite lookup_app_r in Hi by lia. replace (i - length pre)%nat with 0%nat in Hi by lia.
    now injection Hi as <-.
Qed.

Lemma job_single_active_attempt_witness :
  exists j a, sample [Enqueue; Start] = Ok j /\ j_attempts j !! 0%nat = Some a
    /\ (a_state a = RUNNING <-> j_state j = RUNNING /\ 1%nat = length (j_attempts j)) /\ a_number a = 1.
Proof.
  destruct (sample [Enqueue; Start]) as [j|e] eqn:E; [|vm_compute in E; discriminate E].
  destruct (j_attempts j !! 0%nat) as [a|] eqn:Ea;
    [|vm_compute in E; injection E as <-; discriminate Ea].
  exists j, a. split; [reflexivity|]. split; [exact Ea|].
  destruct (job_single_active_attempt j 0 a (sample_reachable _ _ E) Ea) as (H & Hn & _). auto.
Defined.

(** A QUEUED reachable job can always be claimed: for a valid worker id and
    a time not before its last update, [start_attempt] succeeds and yields
    exactly this job with one more active attempt, so neither the attempt
    limit nor a check of the constructor can reject it. *)
Theorem job_queued_can_start j w t :
  job_reachable j -> j_state j = QUEUED -> _identifier (VStr w) "worker_id" = Ok w -> j_updated_at j <= t ->
  start_attempt j (VStr w) (vtime t) =
  Ok (job_copy j RUNNING (j_attempts j ++ [new_active_attempt j w t]) None None (j_available_at j) t
        (j_version j + 1)).
Proof.
  intros Hr Hs Hi Ht. apply start_attempt_accepted; eauto using reachable_wf, ident_ok_intro.
Qed.

Lemma job_queued_can_start_witness :
  exists j j', sample [Enqueue; Start; Fail_retryable; Retry; Enqueue] = Ok j
    /\ start_attempt j (VStr "worker-2") (vtime 3) = Ok j' /\ attempt_count j' = 2.
Proof.
  destruct (sample [Enqueue; Start; Fail_retryable; Retry; Enqueue]) as [j|e] eqn:E;
    [|vm_compute in E; discriminate E].
  assert (j_state j = QUEUED /\ j_updated_at j = 0 /\ length (j_attempts j) = 1%nat) as (Hs & Hu & Hl)
    by (vm_compute in E; now injection E as <-).
  exists j. eexists. split; [reflexivity|]. split.
  - apply (job_queued_can_start j "worker-2" 3 (sample_reachable _ _ E) Hs); [reflexivity | rewrite Hu; lia].
  - unfold attempt_count. cbn. rewrite length_app, Hl. reflexivity.
Defined.

(** ** Construction *)

(** The constructor is a normal form: rebuilding a job from the fields of a
    constructed one (what every operation and every repository does) accepts
    them and changes nothing. *)
Theorem job_constructor_idempotent a b c d e f p st mx ats r fl av cr up ver j :
  Job_new a b c d e f p st mx ats r fl av cr up ver = Ok j -> Job_rebuild j = Ok j.
Proof. intros H. apply valid_rebuild. eapply new_valid, H. Qed.

Lemma job_constructor_idempotent_witness :
  exists j, Job_new (VStr " job-1 ") (VStr "t") (VStr "w") (VStr "c") (VStr "ingest") (VStr "k") []
      PENDING 3 [] None None (VInt 0) (VInt 0) (VInt 0) 1 = Ok j
    /\ j_job_id j = "job-1" /\ Job_rebuild j = Ok j.
Proof.
  eexists. split; [vm_compute; reflexivity|]. split; [reflexivity|].
  eapply (job_constructor_idempotent (VStr " job-1 ") (VStr "t") (VStr "w") (VStr "c") (VStr "ingest") (VStr "k")
    [] PENDING 3 [] None None (VInt 0) (VInt 0) (VInt 0) 1). vm_compute. reflexivity.
Defined.

(** A payload, reference or metadata map that is accepted is bounded, has
    distinct keys in ascending order, approved and free of sensitive name
    parts, and compact values that do not look like secrets; and it is
    accepted again unchanged. *)
Theorem bounded_map_safe items name maxf limit d :
  _bounded_map items name maxf limit = Ok d ->
  Z.of_nat (length d) <= maxf /\ NoDup (dict_keys d)
  /\ StronglySorted (fun x y => item_leb x y = true) d
  /\ (forall k v, In (k, v) d ->
        _FIELD k = true /\ has_forbidden_part k = false
        /\ (k ∈ _SAFE_METADATA_KEYS \/ existsb (endswith k) _METADATA_KEY_SUFFIXES = true)
        /\ slen v <= limit /\ _METADATA_VALUE v = true /\ re_matches _SENSITIVE_METADATA_VALUE v = false)
  /\ _bounded_map (str_items d) name maxf limit = Ok d.
Proof.
  intros H. pose proof (bounded_map_idem _ _ _ _ _ name H) as Hi.
  apply bounded_map_inv in H as (Hl & Hn & Hs & He).
  do 3 (split; [assumption|]). split; [|exact Hi].
  intros k v Hin. destruct (He _ Hin) as ((H1 & H2 & H3) & (H4 & H5 & H6) & _). auto 10.
Qed.

Lemma bounded_map_safe_witness :
  exists d, _bounded_map sample_payload "payload" MAX_PAYLOAD_FIELDS MAX_PAYLOAD_VALUE_LENGTH = Ok d
    /\ dict_keys d = ["document_id"; "traceparent"] /\ NoDup (dict_keys d).
Proof.
  eexists. split; [vm_compute; reflexivity|]. split; [reflexivity|].
  eapply (bounded_map_safe sample_payload "payload" MAX_PAYLOAD_FIELDS MAX_PAYLOAD_VALUE_LENGTH).
  vm_compute. reflexivity.
Defined.

(** ** Idempotent submission *)

Lemma envelope_payload_ext j1 j2 : job_valid j1 -> job_valid j2 ->
  (_idempotency_payload (j_payload j1) = _idempotency_payload (j_payload j2) <->
   forall k, k ∉ _TRACE_PAYLOAD_FIELDS -> dict_get k (j_payload j1) = dict_get k (j_payload j2)).
Proof.
  intros V1%v_leafs V2%v_leafs.
  destruct V1 as (_ & _ & _ & _ & _ & _ & P1), V2 as (_ & _ & _ & _ & _ & _ & P2).
  apply bounded_map_inv in P1 as (_ & N1 & S1 & _), P2 as (_ & N2 & S2 & _).
  unfold _idempotency_payload. split.
  - intros H k Hk. apply (f_equal (dict_get k)) in H.
    rewrite !(dict_get_filter_key (fun k => negb (str_in k _TRACE_PAYLOAD_FIELDS))) in H.
    destruct (str_in k _TRACE_PAYLOAD_FIELDS) eqn:E; [apply str_in_spec in E; contradiction|exact H].
  - intros H. apply dict_sorted_ext; auto using dict_filter_sorted, NoDup_dict_filter.
    intros k. rewrite !(dict_get_filter_key (fun k => negb (str_in k _TRACE_PAYLOAD_FIELDS))).
    destruct (str_in k _TRACE_PAYLOAD_FIELDS) eqn:E; cbn; [reflexivity|]. apply H.
    intros Hin. apply str_in_spec in Hin. congruence.
Qed.

(** Resubmitting a request replays the stored job, and only then: for an
    existing job [ensure_idempotent] returns that job when the candidate has
    the same scope and key, operation, attempt limit and payload up to the
    trace headers, and is a conflict error in every other case. *)
Theorem ensure_idempotent_spec e c r :
  job_reachable e -> job_reachable c ->
  (ensure_idempotent (Some e) c = Ok r <->
   r = e /\ j_tenant_id e = j_tenant_id c /\ j_workspace_id e = j_workspace_id c
   /\ j_collection_id e = j_collection_id c /\ j_idempotency_key e = j_idempotency_key c
   /\ j_operation e = j_operation c /\ j_max_attempts e = j_max_attempts c
   /\ forall k, k ∉ _TRACE_PAYLOAD_FIELDS -> dict_get k (j_payload e) = dict_get k (j_payload c))
  /\ (forall x, ensure_idempotent (Some e) c = Err x -> exists m, x = JobIdempotencyConflictError m).
Proof.
  intros He Hc.
  pose proof (envelope_payload_ext e c (proj1 (reachable_wf _ He)) (proj1 (reachable_wf _ Hc))) as Hp.
  unfold ensure_idempotent.
  destruct (bool_decide (idempotency_identity e = idempotency_identity c)) eqn:H1; bool_to_prop;
    cbn [negb raise_if mbind res_mbind].
  2: { split; [|intros x [= <-]; eauto]. split; [discriminate|].
       intros (_ & ? & ? & ? & ? & _). destruct H1. unfold idempotency_identity. congruence. }
  destruct (bool_decide (idempotency_envelope e = idempotency_envelope c)) eqn:H2; bool_to_prop;
    cbn [negb raise_if mbind res_mbind].
  - split; [|discriminate]. split; [|intros (-> & _); reflexivity]. intros [= <-].
    unfold idempotency_identity, idempotency_envelope in *.
    injection H1 as -> -> -> ->. injection H2 as Ho Hpl Hm. pose proof (proj1 Hp Hpl). auto 10.
  - split; [|intros x [= <-]; eauto]. split; [discriminate|].
    intros (_ & _ & _ & _ & _ & Ho & Hm & Hpl). destruct H2.
    unfold idempotency_envelope. rewrite (proj2 Hp Hpl). congruence.
Qed.

(** The retry of a request under a new trace is a replay. *)
Lemma ensure_idempotent_spec_witness :
  exists e c, sample_create 2 "00-aa" = Ok e /\ sample_create 2 "00-bb" = Ok c /\ e <> c
    /\ ensure_idempotent (Some e) c = Ok e.
Proof.
  destruct (sample_create 2 "00-aa") as [e|x] eqn:E; [|vm_compute in E; discriminate E].
  destruct (sample_create 2 "00-bb") as [c|x] eqn:C; [|vm_compute in C; discriminate C].
  exists e, c. split; [reflexivity|]. split; [reflexivity|].
  split; [vm_compute in E, C; injection E as <-; injection C as <-; discriminate|].
  apply (ensure_idempotent_spec e c e); [eapply reach_create, E | eapply reach_create, C |].
  vm_compute in E, C; injection E as <-; injection C as <-.
  do 7 (split; [reflexivity|]). intros k Hk. cbn [j_payload dict_get].
  destruct (str_eqb k "document_id"); [reflexivity|].
  destruct (str_eqb k "traceparent") eqn:Et; [|reflexivity].
  apply str_eqb_eq in Et. destruct Hk. rewrite Et. apply elem_of_cons. now left.
Defined.
