(* ===== verification/DurableQueue.v ===== *)
(** * The local durable queue (apps/worker/durable_queue.py)

    The SQLite table is a list of rows in insertion order.  A method is a
    function from the table (and its arguments) to either an error, which
    rolls the transaction back, or its result with the new table.  Times are
    binary64 values.  What [float(value)] does with a clock reading is given
    by [float_call].  The random part of a lease token is an argument of
    [claim]. *)

From S2P Require Import Prelude PyFloat PyStr PyVal Json.
From Stdlib Require Import Ascii String.
From stdpp Require Import strings list.

Local Open Scope Z_scope.

Definition MAX_JSON_BYTES : Z := 32 * 1024.
Definition MAX_TEXT : Z := 256.
Definition MAX_QUEUE_ROWS : Z := 100000.
Definition MAX_TERMINAL_ROWS : Z := 100000.

Definition key_char (c : ascii) : bool := is_alnum_az c || one_of "_.:-" c.
Definition _KEY : string -> bool := matches_head_tail is_alnum_az key_char 127.
Definition _SAFE_ERROR : string -> bool :=
  matches_head_tail is_lower_az (fun c => is_lower_az c || is_digit c || one_of "_.:-" c) 63.

Definition _ALLOWED_PAYLOAD : list string :=
  ["operation"; "document_id"; "source_key"; "filename"; "request_id"; "correlation_id";
   "collection_id"; "workspace_id"; "tenant_id"].

Inductive queue_error : Type :=
| QueueConfigurationError (m : string)
| QueueCapacityError (m : string)
| QueueNotFoundError (m : string)
| QueueLeaseError (m : string)
| QueueIdempotencyError (m : string)
| QueueOverflowError.

Notation qres := (res queue_error).

Definition config_error {A} (m : string) : qres A := Err (QueueConfigurationError m).
Definition config_check (b : bool) (m : string) : qres unit := raise_if b (QueueConfigurationError m).

(** ** Validation *)

Definition _safe_text (value : pyval) (label : string) (limit : Z) : qres string :=
  match value with
  | VStr s =>
      let candidate := strip s in
      config_check (is_empty candidate || (limit <? slen candidate) || sany (is_char 0) candidate
                    || sany (fun c => code c <? 32) candidate) (label +:+ " is invalid");;
      Ok candidate
  | _ => config_error (label +:+ " must be text")
  end.

Definition _safe_key (value : pyval) (label : string) : qres string :=
  candidate ← _safe_text value label 128;
  config_check (negb (_KEY candidate)) (label +:+ " is invalid");;
  Ok candidate.

Definition _safe_scope (value : pyval) (label : string) : qres string := _safe_key value label.

Definition payload_item (clean : list (string * string)) (it : string * pyval)
    : qres (list (string * string)) :=
  config_check (negb (str_in (fst it) _ALLOWED_PAYLOAD)) "payload contains an unsupported field";;
  match snd it with
  | VStr raw =>
      v ← _safe_text (VStr raw) ("payload." +:+ fst it) MAX_TEXT;
      Ok (dict_set (fst it) v clean)
  | _ => config_error "payload values must be bounded text"
  end.

(** The validated mapping with its JSON text. *)
Definition _payload (value : pyval) : qres (string * list (string * string)) :=
  match value with
  | VDict ((_ :: _) as items) =>
      clean ← res_foldM payload_item [] items;
      let encoded := json_dumps clean in
      config_check (MAX_JSON_BYTES <? utf8_len encoded) "payload is too large";;
      Ok (encoded, clean)
  | _ => config_error "payload must be a non-empty mapping"
  end.

Definition str_dict (d : list (string * string)) : pyval :=
  VDict (map (fun kv => (fst kv, VStr (snd kv))) d).

Definition _decode_payload (value : string) : list (string * string) :=
  if MAX_JSON_BYTES <? utf8_len value then []
  else match json_loads_flat value with
       | Some parsed =>
           match _payload (str_dict parsed) with
           | Ok (_, clean) => clean
           | Err _ => []
           end
       | None => []
       end.

Definition _safe_error (value : pyval) : qres string :=
  text ← _safe_text value "error" 64;
  let candidate := lower text in
  config_check (negb (_SAFE_ERROR candidate)
                || existsb (fun token => contains token candidate) ["token"; "secret"; "password"; "bearer"])
    "error is invalid";;
  Ok candidate.

Definition _finite_now (value : float_call) : qres pyfloat :=
  match value with
  | FloatOk f => config_check (negb (fisfinite f)) "clock returned a non-finite value";; Ok f
  | FloatInvalid => config_error "clock returned an invalid value"
  | FloatOverflow => Err QueueOverflowError
  end.

(** ** Rows and records *)

Inductive qstatus : Type := queued | leased | acked | dead | cancelled.

#[export] Instance qstatus_eq_dec : EqDecision qstatus.
Proof. solve_decision. Defined.

Definition status_text (s : qstatus) : string :=
  match s with
  | queued => "queued" | leased => "leased" | acked => "acked" | dead => "dead" | cancelled => "cancelled"
  end.

Definition status_terminal (s : qstatus) : bool :=
  match s with acked | dead | cancelled => true | _ => false end.
Definition status_active (s : qstatus) : bool := negb (status_terminal s).

(** A row of [durable_jobs]. *)
Record row : Type := {
  q_job_id : string; q_idempotency_key : string; q_status : qstatus; q_payload_json : string;
  q_tenant_id : string; q_workspace_id : string; q_collection_id : string; q_attempts : Z;
  q_available_at : pyfloat; q_lease_until : option pyfloat; q_lease_owner : option string;
  q_created_at : pyfloat; q_updated_at : pyfloat; q_last_error : option string }.

#[export] Instance row_eq_dec : EqDecision row.
Proof. solve_decision. Defined.

Definition table := list row.

Record QueueRecord : Type := {
  qr_job_id : string; qr_idempotency_key : string; qr_status : qstatus;
  qr_payload : list (string * string); qr_tenant_id : string; qr_workspace_id : string;
  qr_collection_id : string; qr_attempts : Z; qr_available_at : pyfloat;
  qr_lease_until : option pyfloat; qr_lease_token : option string; qr_created_at : pyfloat;
  qr_updated_at : pyfloat; qr_last_error : option string }.

Definition record_terminal (r : QueueRecord) : bool := status_terminal (qr_status r).

Definition _decode (r : row) : QueueRecord :=
  {| qr_job_id := q_job_id r; qr_idempotency_key := q_idempotency_key r; qr_status := q_status r;
     qr_payload := _decode_payload (q_payload_json r); qr_tenant_id := q_tenant_id r;
     qr_workspace_id := q_workspace_id r; qr_collection_id := q_collection_id r;
     qr_attempts := q_attempts r; qr_available_at := q_available_at r;
     qr_lease_until := q_lease_until r; qr_lease_token := q_lease_owner r;
     qr_created_at := q_created_at r; qr_updated_at := q_updated_at r; qr_last_error := q_last_error r |}.

(** The updates of the SQL statements. *)
Definition release_row (r : row) (s : qstatus) (available_at : pyfloat) (error : option string)
    (now : pyfloat) : row :=
  {| q_job_id := q_job_id r; q_idempotency_key := q_idempotency_key r; q_status := s;
     q_payload_json := q_payload_json r; q_tenant_id := q_tenant_id r;
     q_workspace_id := q_workspace_id r; q_collection_id := q_collection_id r;
     q_attempts := q_attempts r; q_available_at := available_at; q_lease_until := None;
     q_lease_owner := None; q_created_at := q_created_at r; q_updated_at := now; q_last_error := error |}.

Definition lease_row (r : row) (attempts : Z) (until : pyfloat) (owner : option string) (now : pyfloat) : row :=
  {| q_job_id := q_job_id r; q_idempotency_key := q_idempotency_key r; q_status := leased;
     q_payload_json := q_payload_json r; q_tenant_id := q_tenant_id r;
     q_workspace_id := q_workspace_id r; q_collection_id := q_collection_id r;
     q_attempts := attempts; q_available_at := q_available_at r; q_lease_until := Some until;
     q_lease_owner := owner; q_created_at := q_created_at r; q_updated_at := now;
     q_last_error := q_last_error r |}.

(** [WHERE job_id = ?]. *)
Definition has_id (job_id : string) (r : row) : bool := str_eqb (q_job_id r) job_id.
Definition find_row (t : table) (job_id : string) : option row := List.find (has_id job_id) t.
Definition update_row (t : table) (job_id : string) (f : row -> row) : table :=
  map (fun r => if has_id job_id r then f r else r) t.
Definition _row (t : table) (job_id : string) : option QueueRecord := option_map _decode (find_row t job_id).

Definition count_rows (P : row -> bool) (t : table) : Z := Z.of_nat (length (List.filter P t)).
Definition terminal_row (r : row) : bool := status_terminal (q_status r).
Definition active_row (r : row) : bool := status_active (q_status r).

(** ** Configuration *)

Record queue_config : Type := {
  max_pending : Z; max_terminal_rows : Z; max_attempts : Z;
  lease_seconds : pyfloat; backoff_seconds : pyfloat }.

(** [isinstance(v, int) and not isinstance(v, bool)] with a range. *)
Definition int_in (v : pyval) (lo hi : Z) : option Z :=
  match v with VInt n => if (lo <=? n) && (n <=? hi) then Some n else None | _ => None end.

(** [isinstance(v, (int, float))] with a range of the converted value. *)
Definition float_in (v : pyval) (lo hi : pyfloat) (m : string) : qres pyfloat :=
  let check f := config_check (negb (fle lo f && fle f hi)) m;; Ok f in
  match v with
  | VFloat f => check f
  | VBool b => check (if b then lit 1 1 else Fin 0)
  | VInt n => match float_of_int n with Some f => check f | None => Err QueueOverflowError end
  | _ => config_error m
  end.

(** The argument checks of [SQLiteDurableQueue.__init__]. *)
Definition queue_config_new (production : bool) (mode : string)
    (max_pending max_terminal_rows max_attempts lease_seconds backoff_seconds : pyval) : qres queue_config :=
  config_check (negb (str_in mode ["local"; "test"]) || production)
    "local durable queue cannot run in production mode";;
  match int_in max_pending 1 MAX_QUEUE_ROWS with
  | None => config_error "max_pending is out of range"
  | Some pending =>
      terminal ← match max_terminal_rows with
                 | VNone => Ok (Z.min MAX_TERMINAL_ROWS (Z.max 64 (pending * 4)))
                 | v => match int_in v 1 MAX_TERMINAL_ROWS with
                        | Some n => Ok n
                        | None => config_error "max_terminal_rows is out of range"
                        end
                 end;
      match int_in max_attempts 1 64 with
      | None => config_error "max_attempts is out of range"
      | Some attempts =>
          lease ← float_in lease_seconds (lit 1 10) (lit 86400 1) "lease_seconds is out of range";
          backoff ← float_in backoff_seconds (Fin 0) (lit 86400 1) "backoff_seconds is out of range";
          Ok {| DurableQueue.max_pending := pending; DurableQueue.max_terminal_rows := terminal;
                DurableQueue.max_attempts := attempts; DurableQueue.lease_seconds := lease;
                DurableQueue.backoff_seconds := backoff |}
      end
  end.

(** ** Operations *)

(** [ORDER BY created_at, job_id] and [ORDER BY updated_at, created_at, job_id]. *)
Definition created_leb (a b : row) : bool :=
  flt (q_created_at a) (q_created_at b)
  || (feq (q_created_at a) (q_created_at b) && str_leb (q_job_id a) (q_job_id b)).
Definition updated_leb (a b : row) : bool :=
  flt (q_updated_at a) (q_updated_at b) || (feq (q_updated_at a) (q_updated_at b) && created_leb a b).

Section operations.
Context (cfg : queue_config).

(** [min(backoff_seconds * (2 ** max(0, attempts - 1)), 86_400.0)]; a
    product of two finite numbers of this range cannot raise. *)
Definition retry_delay (attempts : Z) : pyfloat :=
  let factor := match float_of_int (2 ^ Z.max 0 (attempts - 1)) with Some f => f | None => Inf false end in
  fmin (fmul (backoff_seconds cfg) factor) (lit 86400 1).

Definition prune_victims (preserve : option string) (t : table) : list row :=
  let excess := count_rows terminal_row t - max_terminal_rows cfg in
  let candidates := List.filter (fun r => terminal_row r
                      && match preserve with Some id => negb (has_id id r) | None => true end) t in
  firstn (Z.to_nat excess) (sort_by updated_leb candidates).

Definition _prune_terminal_rows (preserve_job_id : option string) (t : table) : table :=
  if count_rows terminal_row t - max_terminal_rows cfg <=? 0 then t
  else List.filter
         (fun r => negb (str_in (q_job_id r) (map q_job_id (prune_victims preserve_job_id t)))) t.

(** A leased row whose lease has run out: [status = 'leased' AND lease_until <= ?]. *)
Definition lease_expired (now : pyfloat) (r : row) : bool :=
  bool_decide (q_status r = leased)
  && match q_lease_until r with Some u => fle u now | None => false end.

Definition recover_row (now : pyfloat) (r : row) : row :=
  if lease_expired now r then
    if max_attempts cfg <=? q_attempts r then
      release_row r dead (q_available_at r) (Some "lease_expired") now
    else release_row r queued (fadd now (retry_delay (q_attempts r))) (Some "lease_expired") now
  else r.

Definition _recover_expired (now : pyfloat) (t : table) : Z * table :=
  (count_rows (lease_expired now) t, map (recover_row now) t).

Definition payload_eqb (a b : list (string * string)) : bool :=
  (length a =? length b)%nat && forallb (fun kv => bool_decide (dict_get (fst kv) b = Some (snd kv))) a.

Definition new_row (job_id key payload_json tenant workspace collection : string) (now : pyfloat) : row :=
  {| q_job_id := job_id; q_idempotency_key := key; q_status := queued; q_payload_json := payload_json;
     q_tenant_id := tenant; q_workspace_id := workspace; q_collection_id := collection; q_attempts := 0;
     q_available_at := now; q_lease_until := None; q_lease_owner := None; q_created_at := now;
     q_updated_at := now; q_last_error := None |}.

Definition find_key (t : table) (key : string) : option row :=
  List.find (fun r => str_eqb (q_idempotency_key r) key) t.

(** The transaction of [enqueue], on validated arguments. *)
Definition enqueue_tx (job_id key payload_json : string) (clean : list (string * string))
    (tenant workspace collection : string) (timestamp : pyfloat) (t : table) : qres (QueueRecord * table) :=
  let t1 := snd (_recover_expired timestamp t) in
  match find_key t1 key with
  | Some existing =>
      let existing_record := _decode existing in
      raise_if (negb (payload_eqb (qr_payload existing_record) clean)
                || negb (str_eqb (qr_job_id existing_record) job_id))
        (QueueIdempotencyError "idempotency key conflicts with an existing job");;
      Ok (existing_record, _prune_terminal_rows (Some (qr_job_id existing_record)) t1)
  | None =>
      raise_if (max_pending cfg <=? count_rows active_row t1) (QueueCapacityError "durable queue is full");;
      raise_if (bool_decide (is_Some (find_row t1 job_id))) (QueueIdempotencyError "job identity already exists");;
      let inserted := new_row job_id key payload_json tenant workspace collection timestamp in
      Ok (_decode inserted, _prune_terminal_rows (Some job_id) (t1 ++ [inserted]))
  end.

Definition enqueue (job_id idempotency_key payload tenant_id workspace_id collection_id : pyval)
    (now : float_call) (t : table) : qres (QueueRecord * table) :=
  job_id' ← _safe_key job_id "job_id";
  key ← _safe_key idempotency_key "idempotency_key";
  tenant ← _safe_scope tenant_id "tenant_id";
  workspace ← _safe_scope workspace_id "workspace_id";
  collection ← _safe_scope collection_id "collection_id";
  p ← _payload payload;
  timestamp ← _finite_now now;
  enqueue_tx job_id' key (fst p) (snd p) tenant workspace collection timestamp t.

Definition claimable (now : pyfloat) (r : row) : bool :=
  bool_decide (q_status r = queued) && fle (q_available_at r) now.

(** The rows [claim] selects, in order. *)
Definition claim_candidates (now : pyfloat) (limit : nat) (t : table) : list row :=
  firstn limit (sort_by created_leb (List.filter (claimable now) t)).

Definition lease_owner_text (worker_id token : string) : string := worker_id +:+ ":" +:+ token.

(** One turn of the claim loop: the update and the row read back. *)
Definition claim_row (worker_id : string) (now : pyfloat) (job_id token : string) (t : table)
    : list QueueRecord * table :=
  match List.find (fun r => has_id job_id r && bool_decide (q_status r = queued)) t with
  | None => ([], t)
  | Some _ =>
      let t' := map (fun r => if has_id job_id r && bool_decide (q_status r = queued) then
                   lease_row r (q_attempts r + 1) (fadd now (lease_seconds cfg))
                     (Some (lease_owner_text worker_id token)) now
                 else r) t in
      (match _row t' job_id with Some r => [r] | None => [] end, t')
  end.

(** The loop over the selected ids; turn [i] draws [token i]. *)
Fixpoint claim_rows (worker_id : string) (now : pyfloat) (token : nat -> string) (i : nat)
    (ids : list string) (t : table) : list QueueRecord * table :=
  match ids with
  | [] => ([], t)
  | id :: ids' =>
      let '(r1, t1) := claim_row worker_id now id (token i) t in
      let '(r2, t2) := claim_rows worker_id now token (S i) ids' t1 in
      (r1 ++ r2, t2)
  end.

Definition claim_tx (worker_id : string) (limit : nat) (timestamp : pyfloat) (token : nat -> string)
    (t : table) : list QueueRecord * table :=
  let t1 := _prune_terminal_rows None (snd (_recover_expired timestamp t)) in
  claim_rows worker_id timestamp token 0 (map q_job_id (claim_candidates timestamp limit t1)) t1.

Definition claim (worker_id limit : pyval) (now : float_call) (token : nat -> string) (t : table)
    : qres (list QueueRecord * table) :=
  worker ← _safe_key worker_id "worker_id";
  match int_in limit 1 100 with
  | None => config_error "claim limit is out of range"
  | Some n =>
      timestamp ← _finite_now now;
      Ok (claim_tx worker (Z.to_nat n) timestamp token t)
  end.

(** [WHERE job_id=? AND status='leased' AND lease_owner=? AND lease_until > ?]. *)
Definition owned (job_id lease_token : string) (now : pyfloat) (r : row) : bool :=
  has_id job_id r && bool_decide (q_status r = leased) && bool_decide (q_lease_owner r = Some lease_token)
  && match q_lease_until r with Some u => flt now u | None => false end.

Definition _owned_row (t : table) (job_id lease_token : string) (now : pyfloat) : option row :=
  List.find (owned job_id lease_token now) t.

(** [record = self._row(job_id)] after an update of an existing row. *)
Definition read_back (t : table) (job_id : string) : qres QueueRecord :=
  match _row t job_id with Some r => Ok r | None => Err (QueueNotFoundError "job does not exist") end.

Definition heartbeat_tx (job_id lease_token : string) (timestamp : pyfloat) (t : table)
    : qres (QueueRecord * table) :=
  match _owned_row t job_id lease_token timestamp with
  | None =>
      match _row t job_id with
      | None => Err (QueueNotFoundError "job does not exist")
      | Some _ => Err (QueueLeaseError "lease is not owned by this worker")
      end
  | Some _ =>
      let t' := map (fun r => if has_id job_id r && bool_decide (q_status r = leased) then
                   lease_row r (q_attempts r) (fadd timestamp (lease_seconds cfg)) (q_lease_owner r) timestamp
                 else r) t in
      record ← read_back t' job_id;
      Ok (record, t')
  end.

Definition heartbeat (job_id lease_token : pyval) (now : float_call) (t : table)
    : qres (QueueRecord * table) :=
  job_id' ← _safe_key job_id "job_id";
  token ← _safe_text lease_token "lease_token" 256;
  timestamp ← _finite_now now;
  heartbeat_tx job_id' token timestamp t.

Definition finish_tx (job_id lease_token : string) (status : qstatus) (timestamp : pyfloat) (t : table)
    : qres (QueueRecord * table) :=
  match _owned_row t job_id lease_token timestamp with
  | None => Err (QueueLeaseError "lease is not owned by this worker")
  | Some _ =>
      let t' := update_row t job_id
                  (fun r => release_row r status (q_available_at r) (q_last_error r) timestamp) in
      record ← read_back t' job_id;
      Ok (record, _prune_terminal_rows (Some job_id) t')
  end.

Definition _finish (job_id lease_token : pyval) (status : qstatus) (now : float_call) (t : table)
    : qres (QueueRecord * table) :=
  job_id' ← _safe_key job_id "job_id";
  token ← _safe_text lease_token "lease_token" 256;
  timestamp ← _finite_now now;
  finish_tx job_id' token status timestamp t.

Definition ack (job_id lease_token : pyval) (now : float_call) (t : table) : qres (QueueRecord * table) :=
  _finish job_id lease_token acked now t.

Definition fail_tx (job_id lease_token error : string) (timestamp : pyfloat) (t : table)
    : qres (QueueRecord * table) :=
  match _owned_row t job_id lease_token timestamp with
  | None => Err (QueueLeaseError "lease is not owned by this worker")
  | Some r0 =>
      let attempts := q_attempts r0 in
      let status := if max_attempts cfg <=? attempts then dead else queued in
      let available_at := if max_attempts cfg <=? attempts then timestamp
                          else fadd timestamp (retry_delay attempts) in
      let t' := update_row t job_id (fun r => release_row r status available_at (Some error) timestamp) in
      record ← read_back t' job_id;
      Ok (record, _prune_terminal_rows (if bool_decide (status = dead) then Some job_id else None) t')
  end.

Definition fail (job_id lease_token error : pyval) (now : float_call) (t : table)
    : qres (QueueRecord * table) :=
  job_id' ← _safe_key job_id "job_id";
  token ← _safe_text lease_token "lease_token" 256;
  safe_error ← _safe_error error;
  timestamp ← _finite_now now;
  fail_tx job_id' token safe_error timestamp t.

Definition cancel_tx (job_id : string) (lease_token : option string) (timestamp : pyfloat) (t : table)
    : qres (QueueRecord * table) :=
  match find_row t job_id with
  | None => Err (QueueNotFoundError "job does not exist")
  | Some r =>
      raise_if (bool_decide (q_status r = leased)
                && match lease_token with
                   | None => true
                   | Some token => negb (bool_decide (q_lease_owner r = Some token))
                   end) (QueueLeaseError "leased job requires its owner to cancel");;
      if status_terminal (q_status r) then Ok (_decode r, _prune_terminal_rows (Some job_id) t)
      else
        let t' := update_row t job_id
                    (fun r => release_row r cancelled (q_available_at r) (q_last_error r) timestamp) in
        record ← read_back t' job_id;
        Ok (record, _prune_terminal_rows (Some job_id) t')
  end.

Definition cancel (job_id : pyval) (lease_token : option pyval) (now : float_call) (t : table)
    : qres (QueueRecord * table) :=
  job_id' ← _safe_key job_id "job_id";
  token ← match lease_token with
          | None => Ok None
          | Some v => token ← _safe_text v "lease_token" 256; Ok (Some token)
          end;
  timestamp ← _finite_now now;
  cancel_tx job_id' token timestamp t.

Definition recover (now : float_call) (t : table) : qres (Z * table) :=
  timestamp ← _finite_now now;
  let '(recovered, t1) := _recover_expired timestamp t in
  Ok (recovered, _prune_terminal_rows None t1).
End operations.

Definition get (job_id : pyval) (t : table) : qres (option QueueRecord) :=
  job_id' ← _safe_key job_id "job_id"; Ok (_row t job_id').

(** [list]: [statuses] is [None] or the elements of the given set. *)
Definition list_jobs (limit : pyval) (statuses : option (list string)) (t : table) : qres (list QueueRecord) :=
  match int_in limit 1 1000 with
  | None => config_error "list limit is out of range"
  | Some n =>
      config_check (match statuses with
                    | Some l => negb (forallb (fun s => str_in s ["queued"; "leased"; "acked"; "dead"; "cancelled"]) l)
                    | None => false
                    end) "invalid queue status filter";;
      let chosen := match statuses with
                    | Some ((_ :: _) as l) => List.filter (fun r => str_in (status_text (q_status r)) l) t
                    | _ => t
                    end in
      Ok (map _decode (firstn (Z.to_nat n) (sort_by created_leb chosen)))
  end.

(** [_initialize] on an existing file: the stored table, pruned. *)
Definition _initialize (cfg : queue_config) (t : table) : table := _prune_terminal_rows cfg None t.
