(* ===== verification/QueueLemmas.v ===== *)
(** * The durable queue: invariant and frame lemmas *)

From Stdlib Require Import Ascii String.
From stdpp Require Import strings list.
From S2P Require Import Prelude PyFloat PyStr PyVal Json DurableQueue.

Local Open Scope Z_scope.

(** ** The invariant *)

(** A configuration the constructor accepted. *)
Definition cfg_ok (c : queue_config) : Prop :=
  1 <= max_pending c <= MAX_QUEUE_ROWS /\ 1 <= max_terminal_rows c <= MAX_TERMINAL_ROWS
  /\ 1 <= max_attempts c <= 64
  /\ fle (lit 1 10) (lease_seconds c) = true /\ fle (lease_seconds c) (lit 86400 1) = true
  /\ fle (Fin 0) (backoff_seconds c) = true /\ fle (backoff_seconds c) (lit 86400 1) = true.

(** A lease is present exactly while the row is leased, and a row waits for
    another attempt only while it has one left. *)
Definition row_ok (c : queue_config) (r : row) : Prop :=
  match q_status r with
  | queued => 0 <= q_attempts r < max_attempts c /\ q_lease_until r = None /\ q_lease_owner r = None
  | leased => 1 <= q_attempts r <= max_attempts c /\ is_Some (q_lease_until r) /\ is_Some (q_lease_owner r)
  | _ => 0 <= q_attempts r <= max_attempts c /\ q_lease_until r = None /\ q_lease_owner r = None
  end.

Record table_wf (c : queue_config) (t : table) : Prop := {
  tw_ids : NoDup (map q_job_id t);
  tw_keys : NoDup (map q_idempotency_key t);
  tw_rows : forall r, In r t -> row_ok c r;
  tw_active : count_rows active_row t <= max_pending c }.

Definition table_ok (c : queue_config) (t : table) : Prop :=
  table_wf c t /\ count_rows terminal_row t <= max_terminal_rows c.

Lemma int_in_Some v lo hi n : int_in v lo hi = Some n -> v = VInt n /\ lo <= n <= hi.
Proof.
  destruct v; cbn; try discriminate. destruct (_ && _) eqn:E; [|discriminate].
  intros [= ->]. bool_to_prop. auto.
Qed.

Lemma float_in_Ok v lo hi m f : float_in v lo hi m = Ok f -> fle lo f = true /\ fle f hi = true.
Proof.
  assert (forall g, (config_check (negb (fle lo g && fle g hi)) m;; Ok g) = Ok f ->
                    fle lo f = true /\ fle f hi = true) as G.
  { intros g H. apply bind_Ok in H as (u & H & [= <-]). apply raise_if_Ok in H. bool_to_prop. auto. }
  destruct v; cbn [float_in]; try discriminate; eauto.
  destruct (float_of_int z); [eauto | discriminate].
Qed.

Lemma config_new_ok p m a b c d e cfg : queue_config_new p m a b c d e = Ok cfg -> cfg_ok cfg.
Proof.
  unfold queue_config_new. intros H. apply bind_Ok in H as (u & _ & H).
  destruct (int_in a 1 MAX_QUEUE_ROWS) as [pe|] eqn:Ea; [|discriminate].
  apply bind_Ok in H as (te & Ht & H).
  destruct (int_in c 1 64) as [at'|] eqn:Ec; [|discriminate].
  apply bind_Ok in H as (le & Hl & H). apply bind_Ok in H as (bo & Hb & [= <-]).
  apply int_in_Some in Ea as [_ Ea], Ec as [_ Ec]. apply float_in_Ok in Hl, Hb.
  assert (1 <= te <= MAX_TERMINAL_ROWS) as Hte.
  { assert (forall n, int_in b 1 MAX_TERMINAL_ROWS = Some n -> 1 <= n <= MAX_TERMINAL_ROWS) as G
      by (intros n Hn; now apply int_in_Some in Hn).
    destruct b; cbn [int_in] in *; try discriminate.
    - injection Ht as <-. unfold MAX_TERMINAL_ROWS. lia.
    - destruct (_ && _); [injection Ht as <-; auto | discriminate]. }
  unfold cfg_ok. cbn. tauto.
Qed.

(** ** Counting rows *)

Lemma count_cons P r t : count_rows P (r :: t) = (if P r then 1 else 0) + count_rows P t.
Proof. unfold count_rows. cbn. destruct (P r); cbn [length]; lia. Qed.

Lemma count_app P t1 t2 : count_rows P (t1 ++ t2) = count_rows P t1 + count_rows P t2.
Proof. unfold count_rows. rewrite List.filter_app, length_app. lia. Qed.

Lemma count_nonneg P t : 0 <= count_rows P t.
Proof. unfold count_rows. lia. Qed.

Lemma count_map_le P f t : (forall r, In r t -> P (f r) = true -> P r = true) ->
  count_rows P (map f t) <= count_rows P t.
Proof.
  induction t as [|r t IH]; [reflexivity|]. intros H. cbn [map]. rewrite !count_cons.
  specialize (IH (fun r Hr => H r (or_intror Hr))). specialize (H r (or_introl eq_refl)).
  destruct (P (f r)); [rewrite H by reflexivity; lia|]. destruct (P r); lia.
Qed.

Lemma count_filter_le P Q t : count_rows P (List.filter Q t) <= count_rows P t.
Proof.
  induction t as [|r t IH]; cbn [List.filter]; [reflexivity|].
  destruct (Q r); rewrite !count_cons; destruct (P r); lia.
Qed.

(** ** Lists with distinct ids *)

Lemma NoDup_map_filter {A B} (f : A -> B) P l : NoDup (map f l) -> NoDup (map f (List.filter P l)).
Proof.
  induction l as [|x l IH]; cbn; [auto|]. intros [Hx Hl]%NoDup_cons.
  destruct (P x); [|auto]. cbn. apply NoDup_cons. split; [|auto].
  intros Hin. apply Hx. rewrite list_elem_of_In in *.
  apply in_map_iff in Hin as (y & <- & Hy). apply in_map. now apply filter_In in Hy.
Qed.

Lemma NoDup_map_inj {A B} (f : A -> B) l x y :
  NoDup (map f l) -> In x l -> In y l -> f x = f y -> x = y.
Proof.
  induction l as [|z l IH]; cbn; [intros _ []|]. intros [Hz Hl]%NoDup_cons.
  assert (forall w, In w l -> f w = f z -> False) as G.
  { intros w Hw E. apply Hz. rewrite <- E. apply list_elem_of_In, in_map, Hw. }
  intros [<-|Hx] [<-|Hy] E; auto; exfalso; eauto using eq_sym.
Qed.

Lemma NoDup_map_NoDup {A B} (f : A -> B) l : NoDup (map f l) -> List.NoDup l.
Proof.
  intros H. apply NoDup_ListNoDup. eapply NoDup_fmap_1. exact H.
Qed.

Lemma filter_comm {A} (P Q : A -> bool) l :
  List.filter P (List.filter Q l) = List.filter Q (List.filter P l).
Proof.
  induction l as [|x l IH]; cbn; [reflexivity|].
  destruct (P x) eqn:E1, (Q x) eqn:E2; cbn; rewrite ?E1, ?E2, ?IH; reflexivity.
Qed.

(** Removing the rows with given ids removes as many rows as there are ids. *)
Lemma filter_out_length {A B} `{EqDecision B} (f : A -> B) (l V : list A) :
  NoDup (map f l) -> List.NoDup V -> (forall v, In v V -> In v l) ->
  (length (List.filter (fun x => negb (bool_decide (f x ∈ map f V))) l) + length V = length l)%nat.
Proof.
  intros Hl HV Hsub.
  assert (length V = length (List.filter (fun x => bool_decide (f x ∈ map f V)) l)) as ->.
  { apply Permutation_length, (Stdlib.Sorting.Permutation.NoDup_Permutation); [exact HV| |].
    - apply List.NoDup_filter. eapply NoDup_map_NoDup, Hl.
    - intros x. rewrite filter_In, bool_decide_eq_true, list_elem_of_In. split.
      + intros Hx. auto using in_map.
      + intros [Hx Hin]. apply in_map_iff in Hin as (y & E & Hy).
        rewrite (NoDup_map_inj f l x y); auto. }
  pose proof (List.filter_length (fun x => bool_decide (f x ∈ map f V)) l). lia.
Qed.

(** ** Pruning *)

Section prune.
Context (cfg : queue_config).

Notation excess t := (count_rows terminal_row t - max_terminal_rows cfg).
Notation candidate p r := (terminal_row r && match p with Some id => negb (has_id id r) | None => true end).

Lemma victims_In p t r : In r (prune_victims cfg p t) -> In r t /\ candidate p r = true.
Proof.
  unfold prune_victims. intros H%firstn_In. apply (proj1 (sort_by_In _ _ _)), filter_In in H. exact H.
Qed.

Lemma victims_NoDup p t : NoDup (map q_job_id t) -> List.NoDup (prune_victims cfg p t).
Proof.
  intros Hn. unfold prune_victims.
  assert (List.NoDup (sort_by updated_leb (List.filter (fun r => candidate p r) t))) as H.
  { eapply Permutation_NoDup; [apply sort_by_perm|]. apply List.NoDup_filter.
    eapply NoDup_map_NoDup, Hn. }
  rewrite <- (firstn_skipn (Z.to_nat (excess t))) in H. eapply NoDup_app_remove_r, H.
Qed.

(** A row stays unless it is one of the victims. *)
Lemma prune_In p t r : NoDup (map q_job_id t) ->
  (In r (_prune_terminal_rows cfg p t) <->
   In r t /\ (0 < excess t -> ~ In r (prune_victims cfg p t))).
Proof.
  intros Hn. unfold _prune_terminal_rows. destruct (Z.leb_spec (excess t) 0).
  - split; [split; [assumption | lia] | now intros [? _]].
  - rewrite filter_In, negb_true_iff. split; intros [Hr Hv]; (split; [exact Hr|]).
    + intros _ Hin. apply bool_decide_eq_false in Hv. apply Hv, list_elem_of_In, in_map, Hin.
    + apply bool_decide_eq_false. intros Hin%list_elem_of_In. apply in_map_iff in Hin as (v & E & Hin).
      apply Hv; [lia|]. rewrite <- (NoDup_map_inj q_job_id t v r); auto.
      now apply victims_In in Hin as [? _].
Qed.

Lemma prune_sub p t r : In r (_prune_terminal_rows cfg p t) -> In r t.
Proof.
  unfold _prune_terminal_rows. destruct (_ <=? 0); [auto|]. now intros [H _]%filter_In.
Qed.

Lemma prune_keeps p t r : NoDup (map q_job_id t) -> In r t ->
  active_row r = true \/ p = Some (q_job_id r) -> In r (_prune_terminal_rows cfg p t).
Proof.
  intros Hn Hr Hk. apply prune_In; [exact Hn|]. split; [exact Hr|]. intros _ Hv.
  apply victims_In in Hv as [_ Hv]. bool_to_prop. destruct Hk as [Ha | ->].
  - unfold active_row, status_active in Ha. unfold terminal_row in *. now rewrite H in Ha.
  - unfold has_id, str_eqb in H0. rewrite bool_decide_eq_true_2 in H0 by reflexivity. discriminate.
Qed.

Lemma prune_wf p t : table_wf cfg t -> table_wf cfg (_prune_terminal_rows cfg p t).
Proof.
  intros [H1 H2 H3 H4]. split.
  - unfold _prune_terminal_rows. destruct (_ <=? 0); [auto|]. now apply NoDup_map_filter.
  - unfold _prune_terminal_rows. destruct (_ <=? 0); [auto|]. now apply NoDup_map_filter.
  - intros r Hr. apply H3. eapply prune_sub, Hr.
  - unfold _prune_terminal_rows. destruct (_ <=? 0); [auto|].
    pose proof (count_filter_le active_row
      (fun r => negb (str_in (q_job_id r) (map q_job_id (prune_victims cfg p t)))) t). lia.
Qed.

Lemma preserved_at_most_one p t : NoDup (map q_job_id t) ->
  (count_rows terminal_row t <= Z.of_nat (length (List.filter (fun r => candidate p r) t)) + 1).
Proof.
  unfold count_rows. destruct p as [id|].
  2: { intros _. replace (List.filter (fun r => terminal_row r && true) t) with (List.filter terminal_row t);
         [lia|]. apply List.filter_ext. intros r. now rewrite andb_true_r. }
  induction t as [|r t IH]; cbn [List.filter map length]; [lia|].
  intros [Hr Hn]%NoDup_cons. specialize (IH Hn).
  destruct (terminal_row r); cbn [andb]; [|exact IH].
  destruct (has_id id r) eqn:E; cbn [negb length]; [|lia].
  replace (List.filter (fun r => terminal_row r && negb (has_id id r)) t) with (List.filter terminal_row t);
    [lia|]. apply List.filter_ext_in. intros r' Hr'. destruct (has_id id r') eqn:E'; [|now rewrite andb_true_r].
  exfalso. apply Hr. unfold has_id in *. apply str_eqb_eq in E, E'. rewrite E, <- E'.
  now apply list_elem_of_In, in_map.
Qed.

(** After pruning, the terminal history is inside its budget. *)
Lemma prune_terminal p t : 1 <= max_terminal_rows cfg -> NoDup (map q_job_id t) ->
  count_rows terminal_row (_prune_terminal_rows cfg p t) <= max_terminal_rows cfg.
Proof.
  intros Hm Hn. unfold _prune_terminal_rows. destruct (Z.leb_spec (excess t) 0); [lia|].
  set (V := prune_victims cfg p t).
  assert (Z.of_nat (length V) = excess t) as HV.
  { unfold V, prune_victims. rewrite length_firstn, sort_by_length.
    pose proof (preserved_at_most_one p t Hn). lia. }
  unfold count_rows.
  rewrite filter_comm. unfold str_in.
  assert (forall v, In v V -> In v (List.filter terminal_row t)) as Hsub.
  { intros v Hv. apply victims_In in Hv as [Hv1 Hv2]. bool_to_prop. apply filter_In; auto. }
  pose proof (filter_out_length q_job_id (List.filter terminal_row t) V
    (NoDup_map_filter _ _ _ Hn) (victims_NoDup p t Hn) Hsub) as HL.
  unfold count_rows in *. lia.
Qed.

Lemma prune_ok p t : cfg_ok cfg -> table_wf cfg t -> table_ok cfg (_prune_terminal_rows cfg p t).
Proof.
  intros Hc Hw. split; [now apply prune_wf|]. apply prune_terminal; [apply Hc | apply Hw].
Qed.
End prune.

(** ** The statements keep the invariant *)

Lemma map_wf c f t :
  (forall r, In r t -> q_job_id (f r) = q_job_id r /\ q_idempotency_key (f r) = q_idempotency_key r
     /\ row_ok c (f r) /\ (active_row (f r) = true -> active_row r = true)) ->
  table_wf c t -> table_wf c (map f t).
Proof.
  intros Hf [H1 H2 H3 H4].
  assert (map q_job_id (map f t) = map q_job_id t
          /\ map q_idempotency_key (map f t) = map q_idempotency_key t) as [E1 E2]
    by (rewrite !map_map; split; apply map_ext_in; intros r Hr; now apply Hf).
  split; rewrite ?E1, ?E2; auto.
  - intros r (r' & <- & Hr')%in_map_iff. now apply Hf.
  - etransitivity; [apply count_map_le|exact H4]. intros r Hr. now apply Hf.
Qed.

Lemma recover_row_id c now r :
  q_job_id (recover_row c now r) = q_job_id r /\ q_idempotency_key (recover_row c now r) = q_idempotency_key r
  /\ q_payload_json (recover_row c now r) = q_payload_json r.
Proof. unfold recover_row. destruct (lease_expired now r), (max_attempts c <=? q_attempts r); auto. Qed.

Lemma recover_row_ok c now r : row_ok c r -> row_ok c (recover_row c now r).
Proof.
  unfold recover_row. destruct (lease_expired now r) eqn:E; [|auto].
  unfold lease_expired in E. bool_to_prop. unfold row_ok at 1. rewrite H.
  intros (Ha & _ & _). destruct (Z.leb_spec (max_attempts c) (q_attempts r)); cbn; repeat split; lia.
Qed.

Lemma recover_row_active c now r : active_row (recover_row c now r) = true -> active_row r = true.
Proof.
  unfold recover_row. destruct (lease_expired now r) eqn:E; [|auto].
  unfold lease_expired in E. bool_to_prop. intros _. unfold active_row. now rewrite H.
Qed.

Lemma recover_wf c now t : table_wf c t -> table_wf c (snd (_recover_expired c now t)).
Proof.
  intros Hw. apply map_wf; [|exact Hw]. intros r Hr.
  destruct (recover_row_id c now r) as (-> & -> & _).
  repeat split; auto; [apply recover_row_ok, Hw, Hr | apply recover_row_active].
Qed.

Lemma recover_ids c now t : map q_job_id (snd (_recover_expired c now t)) = map q_job_id t.
Proof. cbn. rewrite map_map. apply map_ext. intros r. apply recover_row_id. Qed.

Lemma find_row_Some t id r : find_row t id = Some r -> In r t /\ q_job_id r = id.
Proof.
  unfold find_row. intros H. apply List.find_some in H as [H E]. unfold has_id in E.
  apply str_eqb_eq in E. auto.
Qed.

Lemma find_row_In t r : NoDup (map q_job_id t) -> In r t -> find_row t (q_job_id r) = Some r.
Proof.
  intros Hn Hr. destruct (find_row t (q_job_id r)) as [r'|] eqn:E.
  - apply find_row_Some in E as [Hr' E]. f_equal. eapply NoDup_map_inj; eauto.
  - unfold find_row in E. eapply List.find_none in E; [|exact Hr].
    unfold has_id, str_eqb in E. now rewrite bool_decide_eq_true_2 in E.
Qed.

Lemma find_row_None t id : find_row t id = None <-> id ∉ map q_job_id t.
Proof.
  rewrite list_elem_of_In. split.
  - intros H Hin. apply in_map_iff in Hin as (r & <- & Hr). unfold find_row in H.
    eapply List.find_none in H; [|exact Hr]. unfold has_id, str_eqb in H. now rewrite bool_decide_eq_true_2 in H.
  - intros H. destruct (find_row t id) eqn:E; [|reflexivity]. apply find_row_Some in E as [Hr <-].
    destruct H. now apply in_map.
Qed.

Lemma find_key_Some t k r : find_key t k = Some r -> In r t /\ q_idempotency_key r = k.
Proof.
  unfold find_key. intros H. apply List.find_some in H as [H E]. apply str_eqb_eq in E. auto.
Qed.

Lemma find_key_None t k : find_key t k = None -> k ∉ map q_idempotency_key t.
Proof.
  rewrite list_elem_of_In. intros H Hin. apply in_map_iff in Hin as (r & <- & Hr). unfold find_key in H.
  eapply List.find_none in H; [|exact Hr]. unfold str_eqb in H. now rewrite bool_decide_eq_true_2 in H.
Qed.

Lemma NoDup_snoc {A} (l : list A) x : NoDup l -> x ∉ l -> NoDup (l ++ [x]).
Proof.
  intros H Hx. apply NoDup_app. split; [exact H|]. split.
  - intros y Hy Hin. apply list_elem_of_singleton in Hin. congruence.
  - apply NoDup_singleton.
Qed.

Lemma insert_wf c t id key pj te wo co now :
  cfg_ok c -> table_wf c t -> find_row t id = None -> find_key t key = None ->
  count_rows active_row t < max_pending c ->
  table_wf c (t ++ [new_row id key pj te wo co now]).
Proof.
  intros Hc [H1 H2 H3 H4] Hid Hkey Ha. split.
  - rewrite map_app. apply NoDup_snoc; [exact H1|]. now apply find_row_None.
  - rewrite map_app. apply NoDup_snoc; [exact H2|]. now apply find_key_None.
  - intros r [Hr|[<-|[]]]%in_app_or; [auto|]. unfold row_ok. cbn. destruct Hc as (_ & _ & Hc & _).
    repeat split; lia.
  - rewrite count_app, count_cons. change (count_rows active_row []) with 0.
    change (active_row (new_row id key pj te wo co now)) with true. cbv iota. lia.
Qed.

(** [update_row] with the statement that ends a lease. *)
Lemma update_release_wf c t id s g e now :
  table_wf c t ->
  (forall r, In r t -> q_job_id r = id -> active_row r = true
     /\ (s = queued -> q_attempts r < max_attempts c)) ->
  s <> leased ->
  table_wf c (update_row t id (fun r => release_row r s (g r) (e r) now)).
Proof.
  intros Hw Hr Hs. apply map_wf; [|exact Hw]. intros r Hin.
  pose proof (tw_rows _ _ Hw r Hin) as Hok.
  destruct (has_id id r) eqn:E; [|auto]. unfold has_id in E. apply str_eqb_eq in E.
  destruct (Hr r Hin E) as [Ha Hq]. cbn. repeat split; auto.
  unfold row_ok in *. cbn. unfold active_row in Ha.
  destruct (q_status r), s; try discriminate; try congruence; intuition lia.
Qed.

Lemma owned_true id tok now r : owned id tok now r = true <->
  q_job_id r = id /\ q_status r = leased /\ q_lease_owner r = Some tok
  /\ exists u, q_lease_until r = Some u /\ flt now u = true.
Proof.
  unfold owned, has_id. rewrite !andb_true_iff, str_eqb_eq, !bool_decide_eq_true.
  destruct (q_lease_until r) as [u|]; split.
  - intros [[[? ?] ?] ?]. repeat split; eauto.
  - intros (? & ? & ? & u' & [= <-] & ?). auto.
  - intros [_ [=]].
  - intros (? & ? & ? & u' & [=] & ?).
Qed.

Lemma owned_row_Some t id tok now r : _owned_row t id tok now = Some r ->
  In r t /\ owned id tok now r = true.
Proof. apply List.find_some. Qed.

Lemma owned_row_In t id tok now r : NoDup (map q_job_id t) -> In r t -> owned id tok now r = true ->
  _owned_row t id tok now = Some r.
Proof.
  intros Hn Hr Ho. unfold _owned_row. destruct (List.find (owned id tok now) t) as [r'|] eqn:E.
  - apply List.find_some in E as [Hr' Ho']. f_equal. apply owned_true in Ho as [<- _], Ho' as [E' _].
    eapply NoDup_map_inj; eauto.
  - eapply List.find_none in E; [|exact Hr]. congruence.
Qed.

Lemma owned_unique c t id tok now r r' : table_wf c t -> _owned_row t id tok now = Some r ->
  In r' t -> q_job_id r' = id -> r' = r.
Proof.
  intros Hw H Hr' E. apply owned_row_Some in H as [Hr Ho]. apply owned_true in Ho as [Ei _].
  eapply NoDup_map_inj; [apply Hw| exact Hr'|exact Hr|]. congruence.
Qed.

(** ** The claim loop *)

Definition claim_update (c : queue_config) (w : string) (now : pyfloat) (id tok : string) (r : row) : row :=
  if has_id id r && bool_decide (q_status r = queued) then
    lease_row r (q_attempts r + 1) (fadd now (lease_seconds c)) (Some (lease_owner_text w tok)) now
  else r.

Lemma claim_row_table c w now id tok t : snd (claim_row c w now id tok t) = map (claim_update c w now id tok) t.
Proof.
  unfold claim_row. destruct (List.find _ t) as [r|] eqn:E; [reflexivity|]. cbn.
  symmetry. rewrite <- (map_id t) at 2. apply map_ext_in. intros r Hr. unfold claim_update.
  eapply List.find_none in E; [|exact Hr]. cbn in E. now rewrite E.
Qed.

Lemma claim_update_id c w now id tok r :
  q_job_id (claim_update c w now id tok r) = q_job_id r
  /\ q_idempotency_key (claim_update c w now id tok r) = q_idempotency_key r
  /\ terminal_row (claim_update c w now id tok r) = terminal_row r
  /\ active_row (claim_update c w now id tok r) = active_row r.
Proof.
  unfold claim_update. destruct (_ && _) eqn:E; [|auto]. bool_to_prop.
  unfold terminal_row, active_row. now rewrite H0.
Qed.

Lemma claim_update_ok c w now id tok r : row_ok c r -> row_ok c (claim_update c w now id tok r).
Proof.
  unfold claim_update. destruct (_ && _) eqn:E; [|auto]. bool_to_prop.
  unfold row_ok. rewrite H0. cbn. intros (Ha & _). repeat split; eauto; lia.
Qed.

Lemma claim_rows_ind c w now token (P : table -> Prop) :
  (forall id tok t, P t -> P (map (claim_update c w now id tok) t)) ->
  forall ids i t, P t -> P (snd (claim_rows c w now token i ids t)).
Proof.
  intros Hstep ids. induction ids as [|id ids IH]; intros i t Ht; [exact Ht|]. cbn [claim_rows].
  pose proof (claim_row_table c w now id (token i) t) as E.
  destruct (claim_row c w now id (token i) t) as [r1 t1]. cbn in E.
  specialize (IH (S i) t1). destruct (claim_rows c w now token (S i) ids t1) as [r2 t2]. cbn in *.
  apply IH. subst t1. apply Hstep, Ht.
Qed.

Lemma claim_rows_ok c w now token ids i t :
  table_ok c t -> table_ok c (snd (claim_rows c w now token i ids t)).
Proof.
  apply claim_rows_ind. intros id tok t' [Hw Ht]. split.
  - apply map_wf; [|exact Hw]. intros r Hr. destruct (claim_update_id c w now id tok r) as (-> & -> & _ & Ha).
    repeat split; [apply claim_update_ok, Hw, Hr | congruence].
  - etransitivity; [apply count_map_le | exact Ht]. intros r _.
    destruct (claim_update_id c w now id tok r) as (_ & _ & -> & _). auto.
Qed.

(** ** Calls *)

(** A call of one of the methods that write. *)
Inductive queue_op : Type :=
| Op_enqueue (job_id key payload tenant workspace collection : pyval) (now : float_call)
| Op_claim (worker_id limit : pyval) (now : float_call) (token : nat -> string)
| Op_heartbeat (job_id lease_token : pyval) (now : float_call)
| Op_ack (job_id lease_token : pyval) (now : float_call)
| Op_fail (job_id lease_token error : pyval) (now : float_call)
| Op_cancel (job_id : pyval) (lease_token : option pyval) (now : float_call)
| Op_recover (now : float_call).

Definition op_time (o : queue_op) : float_call :=
  match o with
  | Op_enqueue _ _ _ _ _ _ n | Op_claim _ _ n _ | Op_heartbeat _ _ n | Op_ack _ _ n
  | Op_fail _ _ _ n | Op_cancel _ _ n | Op_recover n => n
  end.

Definition queue_run (c : queue_config) (o : queue_op) (t : table) : qres table :=
  match o with
  | Op_enqueue j k p te wo co n => fmap snd (enqueue c j k p te wo co n t)
  | Op_claim w l n tok => fmap snd (claim c w l n tok t)
  | Op_heartbeat j tok n => fmap snd (heartbeat c j tok n t)
  | Op_ack j tok n => fmap snd (ack c j tok n t)
  | Op_fail j tok e n => fmap snd (fail c j tok e n t)
  | Op_cancel j tok n => fmap snd (cancel c j tok n t)
  | Op_recover n => fmap snd (recover c n t)
  end.

(** The job id and lease token a call presents, once validated. *)
Definition presented (o : queue_op) : option (string * string) :=
  match o with
  | Op_heartbeat j tok _ | Op_ack j tok _ | Op_fail j tok _ _ | Op_cancel j (Some tok) _ =>
      match _safe_key j "job_id", _safe_text tok "lease_token" 256 with
      | Ok id, Ok k => Some (id, k)
      | _, _ => None
      end
  | _ => None
  end.

(** A call as the rest of the program sees it: an error rolls back. *)
Definition queue_exec (c : queue_config) (t : table) (o : queue_op) : table :=
  match queue_run c o t with Ok t' => t' | Err _ => t end.

(** What the calls do on validated arguments: every successful call is one of
    these transactions at a finite time. *)
Inductive queue_tx (c : queue_config) (now : pyfloat) (t : table) : option (string * string) -> table -> Prop :=
| Tx_enqueue id k pj cl te wo co r t' :
    enqueue_tx c id k pj cl te wo co now t = Ok (r, t') -> queue_tx c now t None t'
| Tx_claim w n tok r t' : claim_tx c w n now tok t = (r, t') -> queue_tx c now t None t'
| Tx_heartbeat id tok r t' : heartbeat_tx c id tok now t = Ok (r, t') -> queue_tx c now t (Some (id, tok)) t'
| Tx_finish id tok r t' : finish_tx c id tok acked now t = Ok (r, t') -> queue_tx c now t (Some (id, tok)) t'
| Tx_fail id tok e r t' : fail_tx c id tok e now t = Ok (r, t') -> queue_tx c now t (Some (id, tok)) t'
| Tx_cancel id tok r t' : cancel_tx c id tok now t = Ok (r, t') ->
    queue_tx c now t (match tok with Some k => Some (id, k) | None => None end) t'
| Tx_recover : queue_tx c now t None (_prune_terminal_rows c None (snd (_recover_expired c now t))).

Lemma finite_now_Ok v f : _finite_now v = Ok f -> v = FloatOk f /\ fisfinite f = true.
Proof.
  destruct v; cbn; try discriminate. intros H. apply bind_Ok in H as (u & H & [= <-]).
  apply raise_if_Ok in H. bool_to_prop. auto.
Qed.

Lemma res_fmap_Ok {A B} (f : A -> B) (m : qres A) b : fmap f m = Ok b -> exists a, m = Ok a /\ b = f a.
Proof. destruct m; cbn; intros [= <-]; eauto. Qed.

Lemma update_row_map t id f : update_row t id f = map (fun r => if has_id id r then f r else r) t.
Proof. reflexivity. Qed.

Lemma heartbeat_tx_Ok c id tok now t r t' : heartbeat_tx c id tok now t = Ok (r, t') ->
  exists r0, _owned_row t id tok now = Some r0 /\
    t' = map (fun r => if has_id id r && bool_decide (q_status r = leased) then
                     lease_row r (q_attempts r) (fadd now (lease_seconds c)) (q_lease_owner r) now
                   else r) t.
Proof.
  unfold heartbeat_tx. destruct (_owned_row t id tok now) as [r0|]; [|destruct (_row t id); discriminate].
  intros H. apply bind_Ok in H as (x & _ & [= <- <-]). eauto.
Qed.

Lemma finish_tx_Ok c id tok s now t r t' : finish_tx c id tok s now t = Ok (r, t') ->
  exists r0, _owned_row t id tok now = Some r0 /\
    t' = _prune_terminal_rows c (Some id)
           (update_row t id (fun r => release_row r s (q_available_at r) (q_last_error r) now)).
Proof.
  unfold finish_tx. destruct (_owned_row t id tok now) as [r0|]; [|discriminate].
  intros H. apply bind_Ok in H as (x & _ & [= <- <-]). eauto.
Qed.

Definition fail_status (c : queue_config) (r : row) : qstatus :=
  if max_attempts c <=? q_attempts r then dead else queued.
Definition fail_available (c : queue_config) (now : pyfloat) (r : row) : pyfloat :=
  if max_attempts c <=? q_attempts r then now else fadd now (retry_delay c (q_attempts r)).

Lemma fail_tx_Ok c id tok e now t r t' : fail_tx c id tok e now t = Ok (r, t') ->
  exists r0 p, _owned_row t id tok now = Some r0 /\
    t' = _prune_terminal_rows c p
           (update_row t id (fun r => release_row r (fail_status c r0) (fail_available c now r0) (Some e) now)).
Proof.
  unfold fail_tx. destruct (_owned_row t id tok now) as [r0|]; [|discriminate].
  intros H. apply bind_Ok in H as (x & _ & [= <- <-]). eauto.
Qed.

Lemma cancel_tx_Ok c id tok now t r t' : cancel_tx c id tok now t = Ok (r, t') ->
  exists r0, find_row t id = Some r0
    /\ (q_status r0 = leased -> exists k, tok = Some k /\ q_lease_owner r0 = Some k)
    /\ ((status_terminal (q_status r0) = true /\ t' = _prune_terminal_rows c (Some id) t)
        \/ (status_terminal (q_status r0) = false
            /\ t' = _prune_terminal_rows c (Some id)
                 (update_row t id (fun r => release_row r cancelled (q_available_at r) (q_last_error r) now)))).
Proof.
  unfold cancel_tx. destruct (find_row t id) as [r0|]; [|discriminate].
  intros H. apply bind_Ok in H as (u & Hg & H). apply raise_if_Ok in Hg.
  exists r0. split; [reflexivity|]. split.
  - intros E. rewrite bool_decide_eq_true_2 in Hg by exact E. destruct tok as [k|]; [|discriminate].
    cbn [andb] in Hg. bool_to_prop. eauto.
  - destruct (status_terminal (q_status r0)); [injection H as <- <-; auto|].
    apply bind_Ok in H as (x & _ & [= <- <-]). auto.
Qed.

Lemma run_tx c o t t' : queue_run c o t = Ok t' ->
  exists now, op_time o = FloatOk now /\ fisfinite now = true /\ queue_tx c now t (presented o) t'.
Proof.
  destruct o as [| |j tok n|j tok n|j tok e n|j tok n|]; cbn [queue_run op_time presented]; intros H;
    apply res_fmap_Ok in H as ([r t1] & H & ->); cbn [snd].
  - unfold enqueue in H. do 6 (apply bind_Ok in H as (? & _ & H)).
    apply bind_Ok in H as (f & [Hf1 Hf2]%finite_now_Ok & H). eexists; repeat split; eauto using queue_tx.
  - unfold claim in H. apply bind_Ok in H as (? & _ & H). destruct (int_in limit 1 100); [|discriminate].
    apply bind_Ok in H as (f & [Hf1 Hf2]%finite_now_Ok & H). injection H as H.
    eexists; repeat split; eauto using queue_tx.
  - unfold heartbeat in H. apply bind_Ok in H as (id & -> & H). apply bind_Ok in H as (k & -> & H).
    apply bind_Ok in H as (f & [Hf1 Hf2]%finite_now_Ok & H). eexists; repeat split; eauto using queue_tx.
  - unfold ack, _finish in H. apply bind_Ok in H as (id & -> & H). apply bind_Ok in H as (k & -> & H).
    apply bind_Ok in H as (f & [Hf1 Hf2]%finite_now_Ok & H). eexists; repeat split; eauto using queue_tx.
  - unfold fail in H. apply bind_Ok in H as (id & -> & H). apply bind_Ok in H as (k & -> & H).
    apply bind_Ok in H as (se & _ & H).
    apply bind_Ok in H as (f & [Hf1 Hf2]%finite_now_Ok & H). eexists; repeat split; eauto using queue_tx.
  - unfold cancel in H. apply bind_Ok in H as (id & Hid & H). apply bind_Ok in H as (k & Hk & H).
    apply bind_Ok in H as (f & [Hf1 Hf2]%finite_now_Ok & H). exists f. split; [exact Hf1|]. split; [exact Hf2|].
    destruct tok as [v|].
    + apply bind_Ok in Hk as (k' & Hk & [= <-]). rewrite Hid, Hk. exact (Tx_cancel _ _ _ _ (Some k') _ _ H).
    + injection Hk as <-. exact (Tx_cancel _ _ _ _ None _ _ H).
  - unfold recover in H. apply bind_Ok in H as (f & [Hf1 Hf2]%finite_now_Ok & H).
    injection H as <- <-. exists f. repeat split; [exact Hf1 | exact Hf2 | apply Tx_recover].
Qed.

Lemma tx_ok c now t pr t' : cfg_ok c -> table_ok c t -> queue_tx c now t pr t' -> table_ok c t'.
Proof.
  intros Hc [Hw Ht] H. pose proof (recover_wf c now t Hw) as Hr.
  destruct H as [id k pj cl te wo co r t' H|w n tok r t' H|id tok r t' H|id tok r t' H|id tok e r t' H|id tok r t' H|].
  - unfold enqueue_tx in H. destruct (find_key _ k) as [ex|] eqn:Ek.
    + apply bind_Ok in H as (u & _ & [= <- <-]). now apply prune_ok.
    + apply bind_Ok in H as (u & H1 & H). apply bind_Ok in H as (u2 & H2 & [= <- <-]).
      apply raise_if_Ok in H1, H2. apply Z.leb_gt in H1. apply bool_decide_eq_false in H2.
      apply prune_ok; [exact Hc|]. apply insert_wf; auto.
      destruct (find_row _ id); [destruct H2; eauto | reflexivity].
  - unfold claim_tx in H. replace t' with (snd (r, t')) by reflexivity. rewrite <- H.
    now apply claim_rows_ok, prune_ok.
  - apply heartbeat_tx_Ok in H as (r0 & _ & ->). split.
    + apply map_wf; [|exact Hw]. intros x Hx. pose proof (tw_rows _ _ Hw x Hx) as Hok.
      destruct (_ && _) eqn:E; [|auto]. bool_to_prop. unfold row_ok in *. rewrite H0 in Hok. cbn.
      unfold active_row. rewrite H0. repeat split; try apply Hok; eauto.
    + etransitivity; [apply count_map_le | exact Ht]. intros x _. destruct (_ && _); [discriminate | auto].
  - apply finish_tx_Ok in H as (r0 & Ho & ->). apply prune_ok; [exact Hc|].
    apply update_release_wf; [exact Hw | | discriminate]. intros x Hx E.
    rewrite (owned_unique _ _ _ _ _ _ _ Hw Ho Hx E). apply owned_row_Some in Ho as [_ Ho].
    apply owned_true in Ho as (_ & Hs & _). unfold active_row. rewrite Hs. split; [reflexivity | discriminate].
  - apply fail_tx_Ok in H as (r0 & p & Ho & ->). apply prune_ok; [exact Hc|].
    apply update_release_wf; [exact Hw | |unfold fail_status; destruct (_ <=? _); discriminate].
    intros x Hx E.
    rewrite (owned_unique _ _ _ _ _ _ _ Hw Ho Hx E). apply owned_row_Some in Ho as [_ Ho].
    apply owned_true in Ho as (_ & Hs & _). unfold active_row. rewrite Hs. split; [reflexivity|].
    unfold fail_status. destruct (Z.leb_spec (max_attempts c) (q_attempts r0)); [discriminate | auto].
  - apply cancel_tx_Ok in H as (r0 & Hf & _ & [[_ ->]|[Hs ->]]); apply prune_ok; auto.
    apply update_release_wf; [exact Hw | | discriminate]. intros x Hx E.
    apply find_row_Some in Hf as [Hin Hid].
    rewrite (NoDup_map_inj q_job_id t x r0 (tw_ids _ _ Hw) Hx Hin) by congruence.
    unfold active_row, status_active. rewrite Hs. split; [reflexivity | discriminate].
  - now apply prune_ok.
Qed.

Lemma exec_ok c t o : cfg_ok c -> table_ok c t -> table_ok c (queue_exec c t o).
Proof.
  intros Hc Ht. unfold queue_exec. destruct (queue_run c o t) as [t'|e] eqn:E; [|exact Ht].
  apply run_tx in E as (now & _ & _ & H). eapply tx_ok; eassumption.
Qed.

Lemma empty_ok c : cfg_ok c -> table_ok c [].
Proof.
  intros (H1 & H2 & _). split; [split|]; cbn; try constructor; try (intros ? []); unfold count_rows; cbn; lia.
Qed.

Lemma fold_exec_ok c ops t : cfg_ok c -> table_ok c t -> table_ok c (fold_left (queue_exec c) ops t).
Proof. intros Hc. revert t; induction ops as [|o ops IH]; intros t Ht; [exact Ht|]. cbn. auto using exec_ok. Qed.
