(* ===== verification/QueueProperties.v ===== *)
(** * What the durable queue guarantees

    The bounds of the table, protection of a live lease, claims, fencing of
    stale owners, idempotent replay and the stored payload's round trip. *)

From Stdlib Require Import Ascii String.
From stdpp Require Import strings list.
From S2P Require Import Prelude PyFloat PyStr PyVal Json DurableQueue QueueLemmas.

Local Open Scope Z_scope.

(** ** Live leases *)

Definition live_lease (now : pyfloat) (owner : string) (r : row) : Prop :=
  q_status r = leased /\ q_lease_owner r = Some owner
  /\ exists u, q_lease_until r = Some u /\ flt now u = true.

Lemma live_active now o r : live_lease now o r -> active_row r = true.
Proof. intros (H & _). unfold active_row. now rewrite H. Qed.

Lemma live_not_expired now o r : live_lease now o r -> lease_expired now r = false.
Proof.
  intros (H & _ & u & Hu & Hlt). unfold lease_expired. rewrite Hu.
  apply flt_not_fle in Hlt. now rewrite Hlt, andb_false_r.
Qed.

Lemma map_keeps (f : row -> row) t r : In r t -> f r = r -> In r (map f t).
Proof. intros H E. rewrite <- E. now apply in_map. Qed.

Lemma recover_keeps c now o t r : live_lease now o r -> In r t -> In r (snd (_recover_expired c now t)).
Proof.
  intros Hl Hr. apply map_keeps; [exact Hr|]. unfold recover_row. now rewrite (live_not_expired _ _ _ Hl).
Qed.

Lemma update_row_keeps c p t id f r :
  NoDup (map q_job_id t) -> (forall x, q_job_id (f x) = q_job_id x) ->
  In r t -> active_row r = true -> q_job_id r <> id ->
  In r (_prune_terminal_rows c p (update_row t id f)).
Proof.
  intros Hn Hf Hr Ha Hne. apply prune_keeps; auto.
  - unfold update_row. rewrite map_map.
    rewrite (map_ext _ q_job_id); [exact Hn|]. intros x. destruct (has_id id x); auto.
  - apply map_keeps; [exact Hr|]. unfold has_id, str_eqb. now rewrite bool_decide_eq_false_2.
Qed.

Lemma tx_keeps_live c now pr t t' owner r :
  table_wf c t -> In r t -> live_lease now owner r -> pr <> Some (q_job_id r, owner) ->
  queue_tx c now t pr t' -> In r t'.
Proof.
  intros Hw Hr Hl Hpr H. pose proof (recover_keeps c now owner t r Hl Hr) as Hrec.
  pose proof (tw_ids _ _ Hw) as Hids. pose proof (live_active _ _ _ Hl) as Ha.
  pose proof (recover_wf c now t Hw) as Hrw. pose proof Hl as (Hs & Ho & _).
  assert (forall id tok r0, _owned_row t id tok now = Some r0 -> pr = Some (id, tok) -> q_job_id r <> id) as Howned.
  { intros id tok r0 H0 -> E. pose proof (owned_unique _ _ _ _ _ _ _ Hw H0 Hr E) as ->.
    apply owned_row_Some in H0 as [_ H0]. apply owned_true in H0 as (_ & _ & H0 & _). congruence. }
  destruct H as [id k pj cl te wo co x t' H|w n tok x t' H|id tok x t' H|id tok x t' H|id tok e x t' H
                |id tok x t' H|].
  - unfold enqueue_tx in H. destruct (find_key _ k) as [ex|] eqn:Ek.
    + apply bind_Ok in H as (u & _ & [= <- <-]). apply prune_keeps; auto. apply Hrw.
    + apply bind_Ok in H as (u & _ & H). apply bind_Ok in H as (u2 & H2 & [= <- <-]).
      apply raise_if_Ok in H2. apply bool_decide_eq_false in H2.
      apply prune_keeps; [|apply in_or_app; now left | now left].
      rewrite map_app. apply NoDup_snoc; [apply Hrw|]. apply find_row_None.
      destruct (find_row (snd (_recover_expired c now t)) id) eqn:Ef; [destruct H2; eauto | exact Ef].
  - unfold claim_tx in H. replace t' with (snd (x, t')) by reflexivity. rewrite <- H.
    apply claim_rows_ind.
    + intros id tk t0 H0. apply map_keeps; [exact H0|]. unfold claim_update.
      rewrite (bool_decide_eq_false_2 (q_status r = queued)), andb_false_r by congruence. reflexivity.
    + apply prune_keeps; auto. apply Hrw.
  - apply heartbeat_tx_Ok in H as (r0 & H0 & ->). apply map_keeps; [exact Hr|].
    unfold has_id, str_eqb. now rewrite bool_decide_eq_false_2 by eauto.
  - apply finish_tx_Ok in H as (r0 & H0 & ->). apply update_row_keeps; eauto.
  - apply fail_tx_Ok in H as (r0 & p & H0 & ->). apply update_row_keeps; eauto.
  - apply cancel_tx_Ok in H as (r0 & H0 & Hlease & [[_ ->]|[_ ->]]); [now apply prune_keeps; auto|].
    apply update_row_keeps; auto. intros E. apply find_row_Some in H0 as [Hin Hid].
    pose proof (NoDup_map_inj q_job_id t r r0 Hids Hr Hin ltac:(congruence)) as <-.
    destruct (Hlease Hs) as (k & -> & Hk). apply Hpr. congruence.
  - apply prune_keeps; auto. apply Hrw.
Qed.

(** ** Sample queue *)

Definition sample_cfg : queue_config :=
  {| max_pending := 2; max_terminal_rows := 1; max_attempts := 2; lease_seconds := lit 30 1;
     backoff_seconds := lit 1 1 |}.

Definition at_second (n : Z) : float_call := FloatOk (lit n 1).

Definition sample_enqueue (id : string) (n : Z) : queue_op :=
  Op_enqueue (VStr id) (VStr ("key-" +:+ id)) (VDict [("document_id", VStr "doc"); ("operation", VStr "ingest")])
    (VStr "t") (VStr "w") (VStr "c") (at_second n).

Definition sample_claim (worker : string) (n : Z) : queue_op :=
  Op_claim (VStr worker) (VInt 1) (at_second n) (fun i => "tok" +:+ decimal (Z.of_nat i) +:+ decimal n).

Lemma FloatOk_inj f g : FloatOk f = FloatOk g -> g = f.
Proof. now intros [= ->]. Qed.

Lemma sample_cfg_built :
  queue_config_new false "local" (VInt 2) (VInt 1) (VInt 2) (VInt 30) (VInt 1) = Ok sample_cfg.
Proof. vm_compute. reflexivity. Qed.

(** Whatever calls are made on a new queue, in whatever order and with
    whatever arguments (failing calls included), job ids and idempotency keys
    stay unique, active rows stay within [max_pending], terminal rows within
    [max_terminal_rows], attempts within [max_attempts], and exactly the leased
    rows carry a lease. *)
Theorem queue_bounds production mode a b c d e cfg ops :
  queue_config_new production mode a b c d e = Ok cfg ->
  let t := fold_left (queue_exec cfg) ops [] in
  NoDup (map q_job_id t) /\ NoDup (map q_idempotency_key t)
  /\ count_rows active_row t <= max_pending cfg
  /\ count_rows terminal_row t <= max_terminal_rows cfg
  /\ (forall r, In r t ->
        0 <= q_attempts r <= max_attempts cfg
        /\ (q_status r = queued -> q_attempts r < max_attempts cfg)
        /\ (q_status r = leased <-> is_Some (q_lease_owner r))
        /\ (q_status r = leased <-> is_Some (q_lease_until r))).
Proof.
  intros Hc%config_new_ok t.
  destruct (fold_exec_ok cfg ops [] Hc (empty_ok cfg Hc)) as [[H1 H2 H3 H4] H5].
  do 4 (split; [assumption|]). intros r Hr. specialize (H3 r Hr). unfold row_ok in H3.
  destruct (q_status r); destruct H3 as (Ha & Hu & Ho); rewrite ?Hu, ?Ho;
    repeat split; intros; try lia; try discriminate; auto; try (now apply is_Some_None in H).
Qed.

Lemma queue_bounds_witness :
  let t := fold_left (queue_exec sample_cfg)
             [sample_enqueue "a" 0; sample_enqueue "b" 0; sample_enqueue "c" 0; sample_claim "w1" 1] [] in
  length t = 2%nat /\ NoDup (map q_job_id t) /\ count_rows active_row t <= 2.
Proof.
  split; [vm_compute; reflexivity|].
  destruct (queue_bounds _ _ _ _ _ _ _ _
    [sample_enqueue "a" 0; sample_enqueue "b" 0; sample_enqueue "c" 0; sample_claim "w1" 1] sample_cfg_built)
    as (H1 & _ & H3 & _).
  split; [exact H1 | exact H3].
Defined.

(** C6: a live lease is exclusive. As long as every call of a sequence happens
    before the lease of a row runs out, and none presents that row's job id
    together with its lease token, the row is untouched: no other worker can
    claim, acknowledge, fail, cancel, recover or prune it. *)
Theorem queue_live_lease_exclusive cfg t ops r owner :
  cfg_ok cfg -> table_ok cfg t -> In r t ->
  (forall o, In o ops ->
     (forall now, op_time o = FloatOk now -> live_lease now owner r)
     /\ presented o <> Some (q_job_id r, owner)) ->
  In r (fold_left (queue_exec cfg) ops t).
Proof.
  intros Hc. revert t. induction ops as [|o ops IH]; intros t Ht Hr Hops; [exact Hr|]. cbn [fold_left].
  apply IH; [now apply exec_ok | | intros o' Ho'; apply Hops; now right].
  unfold queue_exec. destruct (queue_run cfg o t) as [t'|x] eqn:E; [|exact Hr].
  apply run_tx in E as (now & Hnow & _ & Htx). destruct (Hops o (or_introl eq_refl)) as [Hl Hp].
  eapply tx_keeps_live; [apply Ht | exact Hr | apply Hl, Hnow | exact Hp | exact Htx].
Qed.

Lemma queue_live_lease_exclusive_witness :
  let t := fold_left (queue_exec sample_cfg) [sample_enqueue "a" 0; sample_claim "w1" 1] [] in
  exists r, t = [r] /\ q_lease_owner r = Some "w1:tok01"
    /\ In r (fold_left (queue_exec sample_cfg)
               [sample_claim "w2" 2; Op_ack (VStr "a") (VStr "w2:tok02") (at_second 5); Op_recover (at_second 30)] t).
Proof.
  intros t.
  assert (exists r, t = [r] /\ q_lease_owner r = Some "w1:tok01" /\ q_status r = leased
            /\ q_lease_until r = Some (lit 31 1) /\ q_job_id r = "a") as (r & Et & Ho & Hs & Hu & Hi)
    by (eexists; split; [vm_compute; reflexivity | repeat split; vm_compute; reflexivity]).
  exists r. split; [exact Et|]. split; [exact Ho|].
  eapply (queue_live_lease_exclusive sample_cfg t _ r "w1:tok01").
  - exact (config_new_ok _ _ _ _ _ _ _ _ sample_cfg_built).
  - apply fold_exec_ok; [|apply empty_ok]; exact (config_new_ok _ _ _ _ _ _ _ _ sample_cfg_built).
  - rewrite Et. now left.
  - intros o Hin. rewrite Hi. cbn in Hin.
    destruct Hin as [<-|[<-|[<-|[]]]]; (split;
      [ intros now ->%FloatOk_inj; split; [exact Hs|]; split; [exact Ho|]; exists (lit 31 1);
        split; [exact Hu | vm_compute; reflexivity]
      | vm_compute; discriminate ]).
Defined.

(** ** Claims *)

Definition claimed_row (c : queue_config) (owner : string) (now : pyfloat) (r : row) : row :=
  lease_row r (q_attempts r + 1) (fadd now (lease_seconds c)) (Some owner) now.

Lemma claim_row_hit c w now id tok t r :
  NoDup (map q_job_id t) -> In r t -> q_job_id r = id -> q_status r = queued ->
  claim_row c w now id tok t =
  ([_decode (claimed_row c (lease_owner_text w tok) now r)], map (claim_update c w now id tok) t).
Proof.
  intros Hn Hr Hid Hs.
  assert (claim_update c w now id tok r = claimed_row c (lease_owner_text w tok) now r) as Hu.
  { unfold claim_update, has_id, str_eqb. now rewrite !bool_decide_eq_true_2. }
  assert (_row (map (claim_update c w now id tok) t) id
          = Some (_decode (claimed_row c (lease_owner_text w tok) now r))) as Hf.
  { unfold _row. rewrite <- Hid at 2. rewrite <- Hu.
    rewrite <- (proj1 (claim_update_id c w now id tok r)), find_row_In; [reflexivity | | now apply in_map].
    rewrite map_map. rewrite (map_ext _ q_job_id); [exact Hn|]. intros x. apply claim_update_id. }
  unfold claim_row.
  destruct (List.find _ t) as [r0|] eqn:E.
  - change (map (fun r => if has_id id r && bool_decide (q_status r = queued) then _ else r) t)
      with (map (claim_update c w now id tok) t). now rewrite Hf.
  - eapply List.find_none in E; [|exact Hr]. cbn in E. unfold has_id, str_eqb in E.
    now rewrite !bool_decide_eq_true_2 in E.
Qed.

Lemma claim_rows_spec c w now token ids : forall i t,
  NoDup ids -> NoDup (map q_job_id t) ->
  (forall id, In id ids -> exists r, In r t /\ q_job_id r = id /\ q_status r = queued) ->
  exists rows, map q_job_id rows = ids
    /\ (forall r, In r rows -> In r t /\ q_status r = queued)
    /\ Forall2 (fun q r => exists k, q = _decode (claimed_row c (lease_owner_text w (token k)) now r))
         (fst (claim_rows c w now token i ids t)) rows.
Proof.
  induction ids as [|id ids IH]; intros i t Hni Hnt Hin.
  - exists []. repeat split; try constructor; destruct H.
  - apply NoDup_cons in Hni as [Hid Hni].
    destruct (Hin id (or_introl eq_refl)) as (r & Hr & Hrid & Hrs).
    cbn [claim_rows]. rewrite (claim_row_hit c w now id (token i) t r Hnt Hr Hrid Hrs).
    destruct (IH (S i) (map (claim_update c w now id (token i)) t) Hni) as (rows & Hrows & Hin' & HF).
    + rewrite map_map, (map_ext _ q_job_id); [exact Hnt|]. intros x. apply claim_update_id.
    + intros id' Hid'. destruct (Hin id' (or_intror Hid')) as (r' & Hr' & <- & Hs').
      exists r'. split; [|auto]. apply map_keeps; [exact Hr'|]. unfold claim_update, has_id, str_eqb.
      rewrite (bool_decide_eq_false_2 (q_job_id r' = id)); [reflexivity|].
      intros <-. apply Hid, list_elem_of_In, Hid'.
    + destruct (claim_rows c w now token (S i) ids _) as [rs t2]. cbn [fst] in *.
      exists (r :: rows). split; [cbn; congruence|]. split.
      * intros x [<-|Hx]; [auto|]. destruct (Hin' x Hx) as [Hx1 Hx2]. split; [|exact Hx2].
        apply in_map_iff in Hx1 as (y & Hy & Hyt). unfold claim_update in Hy.
        destruct (_ && _); [|congruence]. rewrite <- Hy in Hx2. discriminate.
      * constructor; [now exists i | exact HF].
Qed.

Lemma candidates_In now n t r : In r (claim_candidates now n t) -> In r t /\ claimable now r = true.
Proof. unfold claim_candidates. intros H%firstn_In. apply (proj1 (sort_by_In _ _ _)), filter_In in H. exact H. Qed.

Lemma candidates_NoDup now n t : NoDup (map q_job_id t) -> NoDup (map q_job_id (claim_candidates now n t)).
Proof.
  intros Hn. unfold claim_candidates.
  assert (NoDup (map q_job_id (sort_by created_leb (List.filter (claimable now) t)))) as H.
  { rewrite <- (Permutation_map q_job_id (sort_by_perm created_leb (List.filter (claimable now) t))).
    now apply NoDup_map_filter. }
  rewrite <- (firstn_skipn n (sort_by created_leb _)), map_app in H. now apply NoDup_app in H.
Qed.

(** A claim never takes a row that is leased and not expired, never more
    rows than asked for and never a row twice. Each record returned is a row
    that was queued, or whose lease had run out, with one more attempt and
    within [max_attempts], leased to this worker until [now + lease_seconds]. *)
Theorem queue_claim_exclusive c t w limit now token rs t' :
  cfg_ok c -> table_ok c t -> claim_tx c w limit now token t = (rs, t') ->
  (length rs <= limit)%nat /\ NoDup (map qr_job_id rs)
  /\ (forall q, In q rs -> exists r k, In r t /\ qr_job_id q = q_job_id r
        /\ (q_status r = queued \/ lease_expired now r = true)
        /\ qr_attempts q = q_attempts r + 1 /\ qr_attempts q <= max_attempts c
        /\ qr_status q = leased /\ qr_lease_until q = Some (fadd now (lease_seconds c))
        /\ qr_lease_token q = Some (w +:+ ":" +:+ token k)).
Proof.
  intros Hc [Hw _] H. unfold claim_tx in H.
  set (t1 := _prune_terminal_rows c None (snd (_recover_expired c now t))) in *.
  assert (table_wf c t1) as Hw1 by (apply prune_wf, recover_wf, Hw).
  pose proof (tw_ids _ _ Hw1) as Hn1.
  destruct (claim_rows_spec c w now token (map q_job_id (claim_candidates now limit t1)) 0 t1)
    as (rows & Hids & Hin & HF); [now apply candidates_NoDup | exact Hn1 | |].
  { intros id (r & <- & Hr)%in_map_iff. apply candidates_In in Hr as [Hr Hcl]. exists r.
    unfold claimable in Hcl. bool_to_prop. auto. }
  rewrite H in HF. cbn [fst] in HF.
  assert (map qr_job_id rs = map q_job_id rows) as Eids.
  { clear - HF. induction HF as [|q r rs rows (k & ->) _ IH]; cbn; congruence. }
  split; [|split].
  - rewrite <- (length_map qr_job_id), Eids, Hids, length_map. unfold claim_candidates.
    rewrite length_firstn. lia.
  - rewrite Eids, Hids. now apply candidates_NoDup.
  - intros q Hq. destruct (Forall2_In_l _ _ _ _ HF Hq) as (r & Hr & k & ->).
    apply Hin in Hr as [Hr Hs]. pose proof (tw_rows _ _ Hw1 r Hr) as Hok.
    unfold row_ok in Hok. rewrite Hs in Hok. destruct Hok as [Ha _].
    apply prune_sub in Hr. apply in_map_iff in Hr as (r0 & E & Hr0).
    exists r0, k. cbn. split; [exact Hr0|]. subst r.
    split; [apply recover_row_id|]. revert Hs Ha. unfold recover_row.
    destruct (lease_expired now r0) eqn:Ex.
    + destruct (max_attempts c <=? q_attempts r0); cbn; [discriminate|]. intros _ Ha.
      repeat split; auto; lia.
    + intros Hs Ha. repeat split; auto; lia.
Qed.

Lemma queue_claim_exclusive_witness :
  let t := fold_left (queue_exec sample_cfg)
             [sample_enqueue "a" 0; sample_claim "w1" 1; Op_recover (at_second 40)] [] in
  exists q, fst (claim_tx sample_cfg "w2" 5 (lit 42 1) (fun _ => "x") t) = [q]
    /\ qr_attempts q = 2 /\ qr_lease_token q = Some "w2:x" /\ qr_attempts q <= 2.
Proof.
  intros t. pose proof (config_new_ok _ _ _ _ _ _ _ _ sample_cfg_built) as Hc.
  assert (table_ok sample_cfg t) as Ht by (apply fold_exec_ok; [|apply empty_ok]; exact Hc).
  destruct (queue_claim_exclusive sample_cfg t "w2" 5 (lit 42 1) (fun _ => "x") _ _ Hc Ht
              (surjective_pairing _)) as (_ & _ & H).
  assert (exists q, fst (claim_tx sample_cfg "w2" 5 (lit 42 1) (fun _ => "x") t) = [q]
            /\ qr_attempts q = 2 /\ qr_lease_token q = Some "w2:x") as (q & Eq & Ha & Hk)
    by (eexists; split; [vm_compute; reflexivity | split; reflexivity]).
  exists q. split; [exact Eq|]. split; [exact Ha|]. split; [exact Hk|].
  rewrite Eq in H. destruct (H q (or_introl eq_refl)) as (r & k & _ & _ & _ & _ & Hle & _). exact Hle.
Defined.

(** ** Fencing *)

(** The row of job [id] is leased under token [tok] and the lease still runs. *)
Definition held (t : table) (id tok : string) (now : pyfloat) (r : row) : Prop :=
  In r t /\ q_job_id r = id /\ live_lease now tok r.

Lemma owned_held t id tok now r : NoDup (map q_job_id t) ->
  (_owned_row t id tok now = Some r <-> held t id tok now r).
Proof.
  intros Hn. split.
  - intros [Hr Ho]%owned_row_Some. apply owned_true in Ho as (Hi & Hs & Hk & Hu). repeat split; auto.
  - intros (Hr & Hi & Hs & Hk & Hu). apply owned_row_In; auto. apply owned_true. auto.
Qed.

Lemma update_read_back t id (f : row -> row) r :
  NoDup (map q_job_id t) -> (forall x, q_job_id (f x) = q_job_id x) -> In r t -> q_job_id r = id ->
  forall (P : row -> bool), P r = true ->
  read_back (map (fun x => if has_id id x && P x then f x else x) t) id = Ok (_decode (f r)).
Proof.
  intros Hn Hf Hr Hi P HP. unfold read_back, _row.
  set (g := fun x => if has_id id x && P x then f x else x).
  assert (g r = f r) as Eg by (unfold g, has_id, str_eqb; now rewrite bool_decide_eq_true_2, HP).
  assert (forall x, q_job_id (g x) = q_job_id x) as Hg by (intros x; unfold g; destruct (_ && _); auto).
  rewrite <- Hi, <- (Hg r), find_row_In; [cbn; now rewrite Eg | | now apply in_map].
  rewrite map_map, (map_ext _ q_job_id); auto.
Qed.

Lemma update_row_read_back t id f r :
  NoDup (map q_job_id t) -> (forall x, q_job_id (f x) = q_job_id x) -> In r t -> q_job_id r = id ->
  read_back (update_row t id f) id = Ok (_decode (f r)).
Proof.
  intros Hn Hf Hr Hi. rewrite <- (update_read_back t id f r Hn Hf Hr Hi (fun _ => true) eq_refl). f_equal.
  unfold update_row. apply map_ext. intros x. now rewrite andb_true_r.
Qed.

Lemma finish_tx_held c t id tok s now r : NoDup (map q_job_id t) -> held t id tok now r ->
  finish_tx c id tok s now t =
  Ok (_decode (release_row r s (q_available_at r) (q_last_error r) now),
      _prune_terminal_rows c (Some id)
        (update_row t id (fun r => release_row r s (q_available_at r) (q_last_error r) now))).
Proof.
  intros Hn Hh. unfold finish_tx. rewrite (proj2 (owned_held _ _ _ _ r Hn) Hh).
  destruct Hh as (Hr & Hi & _). cbv zeta. rewrite (update_row_read_back t id _ r) by auto. reflexivity.
Qed.

Lemma fail_tx_held c t id tok e now r : NoDup (map q_job_id t) -> held t id tok now r ->
  exists t', fail_tx c id tok e now t =
    Ok (_decode (release_row r (fail_status c r) (fail_available c now r) (Some e) now), t').
Proof.
  intros Hn Hh. unfold fail_tx. rewrite (proj2 (owned_held _ _ _ _ r Hn) Hh).
  destruct Hh as (Hr & Hi & _). cbv zeta. rewrite (update_row_read_back t id _ r) by auto. eexists. reflexivity.
Qed.

Lemma heartbeat_tx_held c t id tok now r : NoDup (map q_job_id t) -> held t id tok now r ->
  exists t', heartbeat_tx c id tok now t =
    Ok (_decode (lease_row r (q_attempts r) (fadd now (lease_seconds c)) (q_lease_owner r) now), t').
Proof.
  intros Hn Hh. unfold heartbeat_tx. rewrite (proj2 (owned_held _ _ _ _ r Hn) Hh).
  destruct Hh as (Hr & Hi & Hs & _).
  rewrite (update_read_back t id (fun r => lease_row r (q_attempts r) (fadd now (lease_seconds c)) (q_lease_owner r) now) r)
    by auto using bool_decide_eq_true_2. eexists. reflexivity.
Qed.

Lemma acked_not_held c t id tok s now t' q tok' now' : table_ok c t -> cfg_ok c -> s <> leased -> s <> queued ->
  finish_tx c id tok s now t = Ok (q, t') -> _owned_row t' id tok' now' = None.
Proof.
  intros [Hw _] Hc Hs Hs' H. apply finish_tx_Ok in H as (r0 & H0 & ->).
  destruct (_owned_row _ id tok' now') as [x|] eqn:E; [exfalso|reflexivity].
  apply owned_row_Some in E as [Hx Hox]. apply prune_sub in Hx. unfold update_row in Hx.
  apply in_map_iff in Hx as (y & <- & Hy). apply owned_true in Hox as (Hi & Hl & _).
  destruct (has_id id y) eqn:E; [cbn in Hl; congruence|].
  unfold has_id, str_eqb in E. apply bool_decide_eq_false in E. contradiction.
Qed.

(** Only the worker that holds the live lease settles a job. [ack],
    [fail] and [heartbeat] succeed exactly when the row is leased under the
    presented token and the lease has not run out; an acknowledged job cannot
    be acknowledged again under any token; a failed job is dead when its
    attempts are used up and otherwise queued again after the backoff. *)
Theorem queue_owner_fencing c t id tok now :
  cfg_ok c -> table_ok c t ->
  (is_ok (finish_tx c id tok acked now t) = true <-> exists r, held t id tok now r)
  /\ (is_ok (heartbeat_tx c id tok now t) = true <-> exists r, held t id tok now r)
  /\ (forall e, is_ok (fail_tx c id tok e now t) = true <-> exists r, held t id tok now r)
  /\ (forall q t', finish_tx c id tok acked now t = Ok (q, t') ->
        qr_status q = acked /\ qr_lease_token q = None
        /\ forall tok' now', is_ok (finish_tx c id tok' acked now' t') = false)
  /\ (forall e q t', fail_tx c id tok e now t = Ok (q, t') ->
        (qr_status q = dead /\ qr_attempts q = max_attempts c)
        \/ (qr_status q = queued /\ qr_attempts q < max_attempts c
            /\ qr_available_at q = fadd now (retry_delay c (qr_attempts q)))).
Proof.
  intros Hc Ht. pose proof Ht as [Hw _]. pose proof (tw_ids _ _ Hw) as Hn.
  split; [|split; [|split; [|split]]].
  - split; [|intros (r & Hr); now rewrite (finish_tx_held c t id tok acked now r Hn Hr)].
    intros ([q t'] & H)%is_ok_true. apply finish_tx_Ok in H as (r & H & _). exists r. now apply owned_held.
  - split; [|intros (r & Hr); destruct (heartbeat_tx_held c t id tok now r Hn Hr) as (t' & ->); reflexivity].
    intros ([q t'] & H)%is_ok_true. apply heartbeat_tx_Ok in H as (r & H & _). exists r. now apply owned_held.
  - intros e. split; [|intros (r & Hr); destruct (fail_tx_held c t id tok e now r Hn Hr) as (t' & ->); reflexivity].
    intros ([q t'] & H)%is_ok_true. apply fail_tx_Ok in H as (r & p & H & _). exists r. now apply owned_held.
  - intros q t' H. pose proof H as H'. apply finish_tx_Ok in H' as (r & Ho & _).
    pose proof (proj1 (owned_held _ _ _ _ r Hn) Ho) as Hh.
    split; [|split].
    1, 2: rewrite (finish_tx_held c t id tok acked now r Hn Hh) in H;
      apply (f_equal (fun m => match m with Ok x => fst x | Err _ => q end)) in H; cbn in H; now subst q.
    intros tok' now'. unfold finish_tx.
    now rewrite (acked_not_held c t id tok acked now t' q tok' now' Ht Hc ltac:(discriminate) ltac:(discriminate) H).
  - intros e q t' H. pose proof H as H'. apply fail_tx_Ok in H' as (r & p & Ho & _).
    pose proof (proj1 (owned_held _ _ _ _ r Hn) Ho) as Hh.
    destruct (fail_tx_held c t id tok e now r Hn Hh) as (t2 & E). rewrite E in H.
    apply (f_equal (fun m => match m with Ok x => fst x | Err _ => q end)) in H. cbn [fst] in H. subst q. cbn.
    destruct Hh as (Hr & _ & Hs & _). pose proof (tw_rows _ _ Hw r Hr) as Hok. unfold row_ok in Hok.
    rewrite Hs in Hok. unfold fail_status, fail_available.
    destruct (Z.leb_spec (max_attempts c) (q_attempts r)); [left | right]; repeat split; lia.
Qed.

Lemma queue_owner_fencing_witness :
  let t := fold_left (queue_exec sample_cfg) [sample_enqueue "a" 0; sample_claim "w1" 1] [] in
  is_ok (finish_tx sample_cfg "a" "w1:tok01" acked (lit 5 1) t) = true
  /\ ((exists r, held t "a" "w1:tok01" (lit 5 1) r))
  /\ ~ (exists r, held t "a" "w1:other" (lit 5 1) r).
Proof.
  intros t. pose proof (config_new_ok _ _ _ _ _ _ _ _ sample_cfg_built) as Hc.
  assert (table_ok sample_cfg t) as Ht by (apply fold_exec_ok; [|apply empty_ok]; exact Hc).
  assert (is_ok (finish_tx sample_cfg "a" "w1:tok01" acked (lit 5 1) t) = true) as H by (vm_compute; reflexivity).
  split; [exact H|]. split.
  - exact (proj1 (proj1 (queue_owner_fencing sample_cfg t "a" "w1:tok01" (lit 5 1) Hc Ht)) H).
  - intros Hh. apply (proj1 (queue_owner_fencing sample_cfg t "a" "w1:other" (lit 5 1) Hc Ht)) in Hh.
    vm_compute in Hh. discriminate.
Defined.

(** ** The stored payload *)

Definition payload_entry_ok (kv : string * string) : Prop :=
  str_in (fst kv) _ALLOWED_PAYLOAD = true
  /\ forall l, _safe_text (VStr (snd kv)) l MAX_TEXT = Ok (snd kv).

Lemma safe_text_idem v l m s l' : _safe_text v l m = Ok s -> _safe_text (VStr s) l' m = Ok s.
Proof.
  destruct v; cbn [_safe_text]; try discriminate. intros H. apply bind_Ok in H as (u & H & [= <-]).
  apply raise_if_Ok in H. rewrite strip_idem, H. reflexivity.
Qed.

Lemma payload_item_inv clean it clean' : payload_item clean it = Ok clean' ->
  exists v, clean' = dict_set (fst it) v clean /\ payload_entry_ok (fst it, v).
Proof.
  unfold payload_item. intros H. apply bind_Ok in H as (u & Hk & H). apply raise_if_Ok in Hk.
  apply negb_false_iff in Hk. destruct (snd it); try discriminate.
  apply bind_Ok in H as (v & Hv & [= <-]). exists v. split; [reflexivity|]. split; [exact Hk|].
  intros l. eapply safe_text_idem, Hv.
Qed.

Lemma dict_set_nonempty {V} k (v : V) d : dict_set k v d <> [].
Proof. destruct d as [|[k' v'] d]; cbn; [discriminate|]. destruct (str_eqb k k'); discriminate. Qed.

Lemma payload_fold_inv items clean0 clean :
  res_foldM payload_item clean0 items = Ok clean ->
  NoDup (dict_keys clean0) -> (forall p, In p clean0 -> payload_entry_ok p) ->
  NoDup (dict_keys clean) /\ (forall p, In p clean -> payload_entry_ok p)
  /\ (items <> [] \/ clean0 <> [] -> clean <> []).
Proof.
  revert clean0; induction items as [|it items IH]; intros clean0; cbn [res_foldM].
  - intros [= ->] Hn Hf. split; [exact Hn|]. split; [exact Hf|]. intros [H|H]; congruence.
  - intros H Hn Hf. apply bind_Ok in H as (clean1 & H1 & H).
    apply payload_item_inv in H1 as (v & -> & Hv).
    destruct (IH _ H) as (Hn' & Hf' & Hne).
    + now apply NoDup_dict_set.
    + intros p [->|Hp]%In_dict_set; auto.
    + split; [exact Hn'|]. split; [exact Hf'|]. intros _. apply Hne. right. apply dict_set_nonempty.
Qed.

Lemma payload_item_pass clean k v : payload_entry_ok (k, v) ->
  payload_item clean (k, VStr v) = Ok (dict_set k v clean).
Proof. intros [Hk Hv]. cbn [fst snd] in *. unfold payload_item. cbn [fst snd]. now rewrite Hk, Hv. Qed.

Lemma payload_fold_fresh d clean0 :
  (forall p, In p d -> payload_entry_ok p) -> NoDup (dict_keys (clean0 ++ d)) ->
  res_foldM payload_item clean0 (map (fun kv => (fst kv, VStr (snd kv))) d) = Ok (clean0 ++ d).
Proof.
  revert clean0; induction d as [|[k v] d IH]; intros clean0 Hf Hn; [cbn; now rewrite app_nil_r|].
  cbn [map res_foldM fst snd]. rewrite payload_item_pass by (apply Hf; now left). cbn [mbind res_mbind].
  assert (k ∉ dict_keys clean0) as Hfresh.
  { unfold dict_keys in *. rewrite map_app in Hn. apply NoDup_app in Hn as (_ & Hd & _).
    intros Hin. apply (Hd k Hin), elem_of_cons. now left. }
  rewrite dict_set_fresh by exact Hfresh. rewrite IH.
  - now rewrite <- app_assoc.
  - intros p Hp. apply Hf. now right.
  - now rewrite <- app_assoc.
Qed.

Lemma payload_inv v enc clean : _payload v = Ok (enc, clean) ->
  enc = json_dumps clean /\ utf8_len enc <= MAX_JSON_BYTES /\ clean <> []
  /\ NoDup (dict_keys clean) /\ (forall p, In p clean -> payload_entry_ok p).
Proof.
  unfold _payload. destruct v as [| | | | | |items]; try discriminate. destruct items as [|it items]; [discriminate|].
  intros H. apply bind_Ok in H as (cl & H1 & H). apply bind_Ok in H as (u & H2 & [= <- <-]).
  apply raise_if_Ok, Z.ltb_ge in H2.
  apply payload_fold_inv in H1 as (Hn & Hf & Hne); [|constructor | intros ? []].
  split; [reflexivity|]. split; [exact H2|]. split; [apply Hne; now left|]. split; [exact Hn | exact Hf].
Qed.

Lemma decode_encoded v enc clean : _payload v = Ok (enc, clean) -> _decode_payload enc = dict_sorted clean.
Proof.
  intros H. destruct (payload_inv _ _ _ H) as (-> & Hl & Hne & Hn & Hf).
  unfold _decode_payload. rewrite (proj2 (Z.ltb_ge _ _) Hl), json_loads_dumps by exact Hn.
  unfold str_dict, _payload.
  destruct (dict_sorted clean) as [|kv d] eqn:E.
  { exfalso. apply Hne. apply length_zero_iff_nil. rewrite <- (sort_by_length item_leb clean).
    unfold dict_sorted in E. now rewrite E. }
  assert (res_foldM payload_item [] (map (fun kv => (fst kv, VStr (snd kv))) (kv :: d)) = Ok (kv :: d)) as Hfold.
  { apply (payload_fold_fresh (kv :: d) []); rewrite <- E.
    - intros p Hp. apply Hf. exact (proj1 (dict_sorted_In p clean) Hp).
    - now apply NoDup_dict_sorted. }
  cbn [map] in *. rewrite Hfold. cbn [mbind res_mbind]. rewrite <- E.
  assert (json_dumps (dict_sorted clean) = json_dumps clean) as -> by (unfold json_dumps; now rewrite dict_sorted_idem).
  unfold config_check. now rewrite (proj2 (Z.ltb_ge _ _) Hl).
Qed.

Lemma payload_eqb_sorted d : NoDup (dict_keys d) -> payload_eqb (dict_sorted d) d = true.
Proof.
  intros Hn. unfold payload_eqb, dict_sorted. rewrite sort_by_length, Nat.eqb_refl. cbn [andb].
  apply forallb_forall. intros [k v] Hin. apply bool_decide_eq_true. cbn [fst snd].
  apply In_dict_get; [exact Hn|]. exact (proj1 (sort_by_In _ _ _) Hin).
Qed.

(** C36: what is stored is what was submitted: decoding the JSON text written
    for an accepted payload, through the same checks and the rejection of
    duplicate keys, gives the accepted mapping (keys sorted), with only allowed
    fields. *)
Theorem queue_payload_roundtrip v enc clean :
  _payload v = Ok (enc, clean) ->
  _decode_payload enc = dict_sorted clean /\ payload_eqb (_decode_payload enc) clean = true
  /\ NoDup (dict_keys clean) /\ (forall k, k ∈ dict_keys clean -> k ∈ _ALLOWED_PAYLOAD).
Proof.
  intros H. pose proof (decode_encoded _ _ _ H) as E. rewrite E.
  destruct (payload_inv _ _ _ H) as (_ & _ & _ & Hn & Hf).
  repeat split; auto using payload_eqb_sorted.
  intros k Hk. unfold dict_keys in Hk. apply list_elem_of_In, in_map_iff in Hk as (kv & <- & Hkv).
  apply str_in_spec. now apply Hf.
Qed.

Lemma queue_payload_roundtrip_witness :
  exists enc clean,
    _payload (VDict [("operation", VStr " ingest "); ("filename", VStr "a\b.pdf")]) = Ok (enc, clean)
    /\ _decode_payload enc = [("filename", "a\b.pdf"); ("operation", "ingest")].
Proof.
  eexists; eexists. split; [vm_compute; reflexivity|].
  refine (eq_trans (proj1 (queue_payload_roundtrip
    (VDict [("operation", VStr " ingest "); ("filename", VStr "a\b.pdf")]) _ _ _)) _).
  - vm_compute. reflexivity.
  - vm_compute. reflexivity.
Defined.

(** ** Idempotent enqueue *)

Lemma find_key_In t r : NoDup (map q_idempotency_key t) -> In r t ->
  find_key t (q_idempotency_key r) = Some r.
Proof.
  intros Hn Hr. destruct (find_key t (q_idempotency_key r)) as [r'|] eqn:E.
  - apply find_key_Some in E as [Hr' E]. f_equal. eapply NoDup_map_inj; eauto.
  - apply find_key_None in E. destruct E. now apply list_elem_of_In, in_map.
Qed.

(** The table holds job [id] under [key] with this payload. *)
Definition stored (t : table) (id key : string) (clean : list (string * string)) (r : row) : Prop :=
  In r t /\ q_job_id r = id /\ q_idempotency_key r = key
  /\ payload_eqb (_decode_payload (q_payload_json r)) clean = true.

Lemma recover_stored c now t id key clean r : stored t id key clean r ->
  stored (snd (_recover_expired c now t)) id key clean (recover_row c now r).
Proof.
  intros (Hr & Hi & Hk & Hp). destruct (recover_row_id c now r) as (E1 & E2 & E3).
  repeat split; try congruence. now apply in_map.
Qed.

Lemma enqueue_tx_stored c id key v enc clean te wo co now t q t' :
  cfg_ok c -> table_ok c t -> _payload v = Ok (enc, clean) ->
  enqueue_tx c id key enc clean te wo co now t = Ok (q, t') -> exists r, stored t' id key clean r.
Proof.
  intros Hc [Hw _] Hp H. unfold enqueue_tx in H. pose proof (recover_wf c now t Hw) as Hrw.
  destruct (find_key _ key) as [ex|] eqn:Ek.
  - apply bind_Ok in H as (u & H1 & [= <- <-]). apply raise_if_Ok in H1. bool_to_prop.
    apply str_eqb_eq in H0. apply find_key_Some in Ek as [Hin Hkey].
    exists ex. repeat split; auto. apply prune_keeps; auto. apply Hrw.
  - apply bind_Ok in H as (u & H1 & H). apply bind_Ok in H as (u2 & H2 & [= <- <-]).
    apply raise_if_Ok in H2. apply bool_decide_eq_false in H2.
    exists (new_row id key enc te wo co now). split.
    + apply prune_keeps; [|apply in_or_app; right; now left | now left].
      rewrite map_app. apply NoDup_snoc; [apply Hrw|]. apply find_row_None.
      destruct (find_row (snd (_recover_expired c now t)) id) eqn:Ef; [destruct H2; eauto | exact Ef].
    + repeat split. cbn. rewrite (decode_encoded _ _ _ Hp). apply payload_eqb_sorted.
      now destruct (payload_inv _ _ _ Hp) as (_ & _ & _ & Hn & _).
Qed.

Lemma enqueue_tx_replay c id key enc clean te wo co now t r :
  table_ok c t -> stored t id key clean r ->
  exists q t', enqueue_tx c id key enc clean te wo co now t = Ok (q, t')
    /\ qr_job_id q = id /\ qr_idempotency_key q = key /\ payload_eqb (qr_payload q) clean = true
    /\ (forall x, In x (map q_job_id t') -> In x (map q_job_id t)) /\ exists r', stored t' id key clean r'.
Proof.
  intros [Hw _] Hs. pose proof (recover_wf c now t Hw) as Hrw.
  pose proof (recover_stored c now t id key clean r Hs) as (Hr & Hi & Hk & Hp).
  unfold enqueue_tx. rewrite <- Hk, find_key_In; [|apply Hrw | exact Hr].
  cbn [_decode qr_payload qr_job_id]. rewrite Hp, Hi. unfold str_eqb. rewrite bool_decide_eq_true_2 by reflexivity.
  cbn [negb orb raise_if mbind res_mbind]. do 2 eexists. split; [reflexivity|].
  cbn [qr_job_id qr_idempotency_key qr_payload _decode].
  split; [exact Hi|]. split; [reflexivity|]. split; [exact Hp|]. split.
  - intros x Hx. rewrite <- (recover_ids c now t). apply in_map_iff in Hx as (y & <- & Hy).
    apply in_map. eapply prune_sub, Hy.
  - exists (recover_row c now r). split; [|auto].
    apply prune_keeps; [apply Hrw | exact Hr | right; now rewrite Hi].
Qed.

(** Enqueueing is idempotent: repeating an accepted call, at any later
    reading of the clock, is accepted, returns the job stored by the first call
    and adds no row. *)
Theorem queue_enqueue_idempotent c j k p te wo co now now' t q t1 :
  cfg_ok c -> table_ok c t ->
  enqueue c j k p te wo co (FloatOk now) t = Ok (q, t1) -> fisfinite now' = true ->
  exists q' t2, enqueue c j k p te wo co (FloatOk now') t1 = Ok (q', t2)
    /\ qr_job_id q' = qr_job_id q /\ qr_idempotency_key q' = qr_idempotency_key q
    /\ (forall x, In x (map q_job_id t2) -> In x (map q_job_id t1)).
Proof.
  intros Hc Ht H Hfin. pose proof H as H0. unfold enqueue in H0.
  apply bind_Ok in H0 as (j' & H1 & H0). apply bind_Ok in H0 as (k' & H2 & H0).
  apply bind_Ok in H0 as (te' & H3 & H0). apply bind_Ok in H0 as (wo' & H4 & H0).
  apply bind_Ok in H0 as (co' & H5 & H0). apply bind_Ok in H0 as ([enc clean] & H6 & H0).
  apply bind_Ok in H0 as (f & [[= <-] Hf]%finite_now_Ok & H0). cbn [fst snd] in H0.
  destruct (enqueue_tx_stored c j' k' p enc clean te' wo' co' now t q t1 Hc Ht H6 H0) as (r & Hr).
  assert (table_ok c t1) as Ht1 by (eapply tx_ok; [exact Hc | exact Ht | eapply Tx_enqueue, H0]).
  destruct (enqueue_tx_replay c j' k' enc clean te' wo' co' now' t1 r Ht1 Hr)
    as (q' & t2 & E & Ei & Ek & _ & Hsub & _).
  exists q', t2. split; [|split; [|split; [|exact Hsub]]].
  - unfold enqueue. rewrite H1, H2, H3, H4, H5, H6. cbn [mbind res_mbind _finite_now]. rewrite Hfin.
    cbn [negb config_check raise_if mbind res_mbind fst snd]. exact E.
  - rewrite Ei. unfold enqueue_tx in H0. destruct (find_key _ k') as [ex|] eqn:Ex.
    + apply bind_Ok in H0 as (u & G & [= <- _]). apply raise_if_Ok in G. bool_to_prop.
      symmetry. cbn. now apply str_eqb_eq.
    + apply bind_Ok in H0 as (u & _ & H0). apply bind_Ok in H0 as (u2 & _ & [= <- _]). reflexivity.
  - rewrite Ek. unfold enqueue_tx in H0. destruct (find_key _ k') as [ex|] eqn:Ex.
    + apply bind_Ok in H0 as (u & _ & [= <- _]). now apply find_key_Some in Ex as [_ <-].
    + apply bind_Ok in H0 as (u & _ & H0). apply bind_Ok in H0 as (u2 & _ & [= <- _]). reflexivity.
Qed.

Lemma queue_enqueue_idempotent_witness :
  exists q t1 q' t2,
    enqueue sample_cfg (VStr "a") (VStr "key-a") (VDict [("operation", VStr "ingest")])
      (VStr "t") (VStr "w") (VStr "c") (at_second 0) [] = Ok (q, t1)
    /\ enqueue sample_cfg (VStr "a") (VStr "key-a") (VDict [("operation", VStr "ingest")])
      (VStr "t") (VStr "w") (VStr "c") (at_second 9) t1 = Ok (q', t2)
    /\ qr_job_id q' = qr_job_id q.
Proof.
  pose proof (config_new_ok _ _ _ _ _ _ _ _ sample_cfg_built) as Hc.
  destruct (enqueue sample_cfg (VStr "a") (VStr "key-a") (VDict [("operation", VStr "ingest")])
      (VStr "t") (VStr "w") (VStr "c") (at_second 0) []) as [[q t1]|e] eqn:E;
    [|vm_compute in E; discriminate E].
  destruct (queue_enqueue_idempotent sample_cfg _ _ _ _ _ _ (lit 0 1) (lit 9 1) [] q t1 Hc (empty_ok _ Hc) E)
    as (q' & t2 & E2 & Hi & _); [vm_compute; reflexivity|].
  exists q, t1, q', t2. split; [reflexivity|]. split; [exact E2 | exact Hi].
Defined.
