(* ===== verification/CanonicalJson.v ===== *)
(** * Canonical JSON of Python values

    [repr] of a float (shortest text that reads back as the same double) and
    [json.dumps(value, ensure_ascii=True, sort_keys=True,
    separators=(",", ":"), allow_nan=False)]. *)

From Stdlib Require Import Ascii String.
From stdpp Require Import strings.
From S2P Require Import Prelude PyFloat PyStr PyVal Json.

Local Open Scope Z_scope.

(** ** [repr(int)] and [repr(float)] *)

Definition int_repr (n : Z) : string := if n <? 0 then String (chr 45) (decimal (- n)) else decimal n.

(** The float nearest to [c * 10^k]. *)
Definition dec_float (c k : Z) : pyfloat :=
  if 0 <=? k then to_float (c * 10 ^ k * scale) 1 else to_float (c * scale) (10 ^ (- k)).

(** [e] with [10^(e-1) <= m / scale < 10^e], searched upwards from [e]. *)
Fixpoint decimal_exponent (fuel : nat) (e m : Z) : Z :=
  match fuel with
  | O => e
  | S f =>
      let below := if 0 <=? e then m <? 10 ^ e * scale else m * 10 ^ (- e) <? scale in
      if below then e else decimal_exponent f (e + 1) m
  end.

(** The [n]-digit decimals next to [m] units, below and above, and whether the
    upper one is strictly nearer or, at the same distance, the even one. *)
Definition decimal_neighbours (n e m : Z) : Z * Z * bool :=
  let k := n - e in
  let num := if 0 <=? k then m * 10 ^ k else m in
  let den := if 0 <=? k then scale else scale * 10 ^ (- k) in
  let lo := num / den in
  let r := 2 * (num mod den) in
  (lo, lo + 1, (den <? r) || ((r =? den) && Z.odd lo)).

(** The shortest digits that read back as [m]: the nearest [n]-digit decimal
    that does, for the least [n]. *)
Fixpoint shortest_digits (fuel : nat) (n e m : Z) : Z * Z :=
  let '(lo, hi, up) := decimal_neighbours n e m in
  let reads c := bool_decide (dec_float c (e - n) = Fin m) in
  match fuel with
  | O => (if up then hi else lo, e - n)
  | S f =>
      if reads lo && reads hi then (if up then hi else lo, e - n)
      else if reads lo then (lo, e - n)
      else if reads hi then (hi, e - n)
      else shortest_digits f (n + 1) e m
  end.

(** Drops the trailing zeros of [c * 10^k]. *)
Fixpoint drop_zeros (fuel : nat) (c k : Z) : Z * Z :=
  match fuel with
  | O => (c, k)
  | S f => if c mod 10 =? 0 then drop_zeros f (c / 10) (k + 1) else (c, k)
  end.

Fixpoint zeros (n : nat) : string := match n with O => EmptyString | S n' => String (chr 48) (zeros n') end.
Fixpoint sdrop (n : nat) (s : string) : string :=
  match n, s with S n', String _ s' => sdrop n' s' | _, _ => s end.

Definition point (a b : string) : string := a +:+ String (chr 46) b.

(** [decpt] digits stand before the decimal point. *)
Definition place_digits (digits : string) (decpt : Z) : string :=
  let n := slen digits in
  if (decpt <=? -4) || (16 <? decpt) then
    let ex := decpt - 1 in
    let e_digits := decimal (Z.abs ex) in
    (if n =? 1 then digits else point (stake 1 digits) (sdrop 1 digits)) +:+
    String (chr 101) (String (chr (if ex <? 0 then 45 else 43))
      (if slen e_digits =? 1 then String (chr 48) e_digits else e_digits))
  else if decpt <=? 0 then point (zeros 1) (zeros (Z.to_nat (- decpt)) +:+ digits)
  else if n <=? decpt then point (digits +:+ zeros (Z.to_nat (decpt - n))) (zeros 1)
  else point (stake (Z.to_nat decpt) digits) (sdrop (Z.to_nat decpt) digits).

(** A lower bound of the decimal exponent of [a] units: [log2] times
    [log10 2 = 0.30103], rounded down, less one for the rounding. *)
Definition exponent_estimate (a : Z) : Z := (Z.log2 a - 1074) * 30103 / 100000 - 1.

(** The estimate is at most 4 too low; 17 digits are enough for a double. *)
Definition float_repr (m : Z) : string :=
  if m =? 0 then point (zeros 1) (zeros 1)
  else
    let a := Z.abs m in
    let e := decimal_exponent 4 (exponent_estimate a) a in
    let '(c, k) := shortest_digits 16 1 e a in
    let '(c, k) := drop_zeros 17 c k in
    let digits := decimal c in
    let text := place_digits digits (slen digits + k) in
    if m <? 0 then String (chr 45) text else text.

Definition float_text (f : pyfloat) : string :=
  match f with Fin m => float_repr m | Inf true => "-inf" | Inf false => "inf" | NaN => "nan" end.

Example repr_ex : map float_text [lit (-5) 2] = ["-2.5"]%string.
Proof. vm_compute. reflexivity. Qed.

(** ** [json.dumps] *)

(** A character outside the printable ASCII range is [\u00XX]. *)
Definition escape_ascii_char (c : ascii) : string :=
  if in_range 32 126 c then escape_char c
  else if in_range 8 13 c && negb (is_char 11 c) then escape_char c
  else String backslash ("u00" +:+ String (hex_digit (code c / 16)) (String (hex_digit (code c mod 16)) EmptyString)).

Fixpoint escape_ascii (s : string) : string :=
  match s with EmptyString => EmptyString | String c s' => escape_ascii_char c +:+ escape_ascii s' end.

Definition quote_ascii (s : string) : string :=
  String quote_char (escape_ascii s +:+ String quote_char EmptyString).

Fixpoint join_commas (l : list string) : string :=
  match l with
  | [] => EmptyString
  | [x] => x
  | x :: l' => x +:+ String (chr 44) (join_commas l')
  end.

(** All of a list of optional values. *)
Fixpoint all_some {A} (l : list (option A)) : option (list A) :=
  match l with
  | [] => Some []
  | x :: l' => match x, all_some l' with Some y, Some ys => Some (y :: ys) | _, _ => None end
  end.

(** [json.dumps(v, sort_keys=True, separators=(",", ":"), allow_nan=False)] for
    a way to write strings; [None] is the [ValueError] for a NaN or an
    infinity. *)
Fixpoint json_text (quote : string -> string) (v : pyval) : option string :=
  match v with
  | VNone => Some "null"%string
  | VBool true => Some "true"%string
  | VBool false => Some "false"%string
  | VInt n => Some (int_repr n)
  | VFloat (Fin m) => Some (float_repr m)
  | VFloat _ => None
  | VStr s => Some (quote s)
  | VList l =>
      items ← all_some ((fix go (l : list pyval) : list (option string) :=
                match l with [] => [] | x :: l' => json_text quote x :: go l' end) l);
      Some (String (chr 91) (join_commas items +:+ String (chr 93) EmptyString))
  | VDict d =>
      members ← all_some ((fix go (d : list (string * pyval)) : list (option (string * string)) :=
                  match d with
                  | [] => []
                  | (k, x) :: d' => (t ← json_text quote x; Some (k, t)) :: go d'
                  end) d);
      Some (String (chr 123)
        (join_commas (map (fun kt => quote (fst kt) +:+ String (chr 58) (snd kt)) (dict_sorted members))
         +:+ String (chr 125) EmptyString))
  end.

(** With [ensure_ascii=True], and with [ensure_ascii=False]. *)
Definition canonical_json (v : pyval) : option string := json_text quote_ascii v.
Definition json_utf8 (v : pyval) : option string := json_text json_quote v.

Example canonical_json_ex :
  canonical_json (VDict [("b", VList [VInt (-3); VNone; VBool true]); ("a", VStr (String (chr 233) (String (chr 10) "x")))])%string
  = Some ("{" +:+ quote_ascii "a" +:+ ":" +:+ String (chr 34) "\u00e9\nx" +:+ String (chr 34) "," +:+ quote_ascii "b" +:+ ":[-3,null,true]}")%string.
Proof. vm_compute. reflexivity. Qed.
