(* ===== verification/Sha256.v ===== *)
(** * SHA-256 and SHA-1

    The two digests that the code takes from hashlib (and uuid.uuid5 for SHA-1), on the bytes
    of a string, as the standards define them; the standard test vectors are the examples. *)

From Stdlib Require Import Ascii String.
From stdpp Require Import strings.
From S2P Require Import Prelude PyFloat PyStr Json.

Local Open Scope Z_scope.

(** ** SHA-256

    [hashlib.sha256(data).hexdigest()] on a byte string (FIPS 180-4), with
    32-bit words as [Z].  The evidence identifiers are prefixes of it. *)

(** ** 32-bit words *)

Definition mask32 : Z := 4294967295.
Definition w32 (x : Z) : Z := Z.land x mask32.
Definition add32 (x y : Z) : Z := w32 (x + y).
Definition rotr (n x : Z) : Z := Z.lor (Z.shiftr x n) (w32 (Z.shiftl x (32 - n))).

Definition ch (x y z : Z) : Z := Z.lxor (Z.land x y) (Z.land (Z.lxor x mask32) z).
Definition maj (x y z : Z) : Z := Z.lxor (Z.lxor (Z.land x y) (Z.land x z)) (Z.land y z).
Definition big_sigma0 (x : Z) : Z := Z.lxor (Z.lxor (rotr 2 x) (rotr 13 x)) (rotr 22 x).
Definition big_sigma1 (x : Z) : Z := Z.lxor (Z.lxor (rotr 6 x) (rotr 11 x)) (rotr 25 x).
Definition small_sigma0 (x : Z) : Z := Z.lxor (Z.lxor (rotr 7 x) (rotr 18 x)) (Z.shiftr x 3).
Definition small_sigma1 (x : Z) : Z := Z.lxor (Z.lxor (rotr 17 x) (rotr 19 x)) (Z.shiftr x 10).

(** The constants are the first 32 bits of the fractional parts of roots of
    the first primes. *)
Definition is_prime (n : Z) : bool :=
  (1 <? n) && forallb (fun d => negb (n mod Z.of_nat d =? 0)) (seq 2 (Z.to_nat (n - 2))).

Definition first_primes (k : nat) : list Z := take k (List.filter is_prime (map Z.of_nat (seq 2 400))).

(** The greatest [r] with [r ^ e <= n], found bit by bit. *)
Fixpoint root (e : Z) (bits : nat) (r n : Z) : Z :=
  match bits with
  | O => r
  | S bits' =>
      let r' := r + 2 ^ Z.of_nat bits' in
      root e bits' (if r' ^ e <=? n then r' else r) n
  end.

Definition root_fraction (e p : Z) : Z := w32 (root e 40 0 (p * 2 ^ (32 * e))).

Definition round_constants : list Z := Eval vm_compute in map (root_fraction 3) (first_primes 64).

(** The working variables [a] to [h] and the chaining value. *)
Record words8 : Type := W8 { wa : Z; wb : Z; wc : Z; wd : Z; we : Z; wf : Z; wg : Z; wh : Z }.

Definition initial_hash : words8 := Eval vm_compute in
  match map (root_fraction 2) (first_primes 8) with
  | [a; b; c; d; e; f; g; h] => W8 a b c d e f g h
  | _ => W8 0 0 0 0 0 0 0 0
  end.

(** ** The message *)

Fixpoint string_bytes (s : string) : list Z :=
  match s with EmptyString => [] | String c s' => code c :: string_bytes s' end.

(** The [n] bytes of [x], most significant first. *)
Fixpoint be_bytes (n : nat) (x : Z) : list Z :=
  match n with O => [] | S n' => Z.land (Z.shiftr x (8 * Z.of_nat n')) 255 :: be_bytes n' x end.

Definition pad (bytes : list Z) : list Z :=
  let len := Z.of_nat (length bytes) in
  bytes ++ [128] ++ repeat 0 (Z.to_nat ((55 - len) mod 64)) ++ be_bytes 8 (8 * len).

Fixpoint be_words (bytes : list Z) : list Z :=
  match bytes with
  | a :: b :: c :: d :: rest => (((a * 256 + b) * 256 + c) * 256 + d) :: be_words rest
  | _ => []
  end.

Fixpoint chunks (fuel : nat) (words : list Z) : list (list Z) :=
  match fuel, words with
  | S f, _ :: _ => take 16 words :: chunks f (drop 16 words)
  | _, _ => []
  end.

(** ** Compression *)

(** [n] more schedule words; [window] holds the last 16, oldest first. *)
Fixpoint schedule (n : nat) (window : list Z) : list Z :=
  match n with
  | O => []
  | S n' =>
      let w i := nth i window 0 in
      let x := add32 (add32 (small_sigma1 (w 14%nat)) (w 9%nat)) (add32 (small_sigma0 (w 1%nat)) (w 0%nat)) in
      x :: schedule n' (drop 1 window ++ [x])
  end.

Definition round (v : words8) (kw : Z * Z) : words8 :=
  let '(k, w) := kw in
  let t1 := add32 (add32 (add32 (wh v) (big_sigma1 (we v))) (add32 (ch (we v) (wf v) (wg v)) k)) w in
  let t2 := add32 (big_sigma0 (wa v)) (maj (wa v) (wb v) (wc v)) in
  W8 (add32 t1 t2) (wa v) (wb v) (wc v) (add32 (wd v) t1) (we v) (wf v) (wg v).

Definition compress (h : words8) (block : list Z) : words8 :=
  let v := fold_left round (combine round_constants (block ++ schedule 48 block)) h in
  W8 (add32 (wa h) (wa v)) (add32 (wb h) (wb v)) (add32 (wc h) (wc v)) (add32 (wd h) (wd v))
     (add32 (we h) (we v)) (add32 (wf h) (wf v)) (add32 (wg h) (wg v)) (add32 (wh h) (wh v)).

Definition sha256_words (s : string) : words8 :=
  let words := be_words (pad (string_bytes s)) in
  fold_left compress (chunks (length words) words) initial_hash.

(** ** The hexadecimal digest *)

Fixpoint hex_digits (n : nat) (x : Z) : string :=
  match n with
  | O => EmptyString
  | S n' => String (hex_digit (Z.land (Z.shiftr x (4 * Z.of_nat n')) 15)) (hex_digits n' x)
  end.

Definition hexdigest (s : string) : string :=
  let h := sha256_words s in
  hex_digits 8 (wa h) +:+ hex_digits 8 (wb h) +:+ hex_digits 8 (wc h) +:+ hex_digits 8 (wd h) +:+
  hex_digits 8 (we h) +:+ hex_digits 8 (wf h) +:+ hex_digits 8 (wg h) +:+ hex_digits 8 (wh h).

(** The test vectors of the standard. *)
Example sha256_empty : hexdigest EmptyString =
  "e3b0c44298fc1c149afbf4c8996fb92427ae41e4649b934ca495991b7852b855"%string.
Proof. vm_compute. reflexivity. Qed.

Example sha256_abc : hexdigest "abc"%string =
  "ba7816bf8f01cfea414140de5dae2223b00361a396177a9cb410ff61f20015ad"%string.
Proof. vm_compute. reflexivity. Qed.

Example sha256_two_blocks : hexdigest "abcdbcdecdefdefgefghfghighijhijkijkljklmklmnlmnomnopnopq"%string =
  "248d6a61d20638b8e5c026930c3e6039a33ce45964ff2167f6ecedd419db06c1"%string.
Proof. vm_compute. reflexivity. Qed.

(** ** The form of a digest *)

Definition is_hex_char (c : ascii) : bool := is_digit c || in_range 97 102 c.

Lemma hex_digit_is_hex d : 0 <= d < 16 -> is_hex_char (hex_digit d) = true.
Proof.
  intros H. unfold hex_digit, is_hex_char, is_digit, in_range.
  destruct (Z.ltb_spec d 10); rewrite code_chr by lia; lia.
Qed.

Lemma hex_digits_form n x : sall is_hex_char (hex_digits n x) = true /\ slen (hex_digits n x) = Z.of_nat n.
Proof.
  induction n as [|n [IH1 IH2]]; [split; reflexivity|]. cbn [hex_digits sall]. split.
  - rewrite IH1, andb_true_r. apply hex_digit_is_hex.
    change 15 with (Z.ones 4). rewrite Z.land_ones by lia. apply Z.mod_pos_bound. lia.
  - rewrite slen_cons, IH2. lia.
Qed.

Lemma hexdigest_form s : sall is_hex_char (hexdigest s) = true /\ slen (hexdigest s) = 64.
Proof.
  unfold hexdigest. generalize (sha256_words s) as h. intros h. split.
  - rewrite !sall_app, !(proj1 (hex_digits_form 8 _)). reflexivity.
  - rewrite !slen_app, !(proj2 (hex_digits_form 8 _)). reflexivity.
Qed.

#[global] Opaque hexdigest.

(** ** SHA-1 and name-based identifiers

    [uuid.uuid5]: the SHA-1 digest (FIPS 180-4) of a namespace and a name, cut
    to 16 bytes and stamped with the version and the variant (RFC 4122). *)

Record words5 : Type := W5 { va : Z; vb : Z; vc : Z; vd : Z; ve : Z }.

Definition sha1_initial : words5 := W5 1732584193 4023233417 2562383102 271733878 3285377520.

Definition rotl (n x : Z) : Z := rotr (32 - n) x.

(** [n] more schedule words; [window] holds the last 16, oldest first. *)
Fixpoint sha1_schedule (n : nat) (window : list Z) : list Z :=
  match n with
  | O => []
  | S n' =>
      let w i := nth i window 0 in
      let x := rotl 1 (Z.lxor (Z.lxor (w 13%nat) (w 8%nat)) (Z.lxor (w 2%nat) (w 0%nat))) in
      x :: sha1_schedule n' (drop 1 window ++ [x])
  end.

(** The function and the constant of round [t]. *)
Definition sha1_mix (t : nat) (b c d : Z) : Z :=
  if (t <? 20)%nat then ch b c d
  else if (t <? 40)%nat then Z.lxor (Z.lxor b c) d
  else if (t <? 60)%nat then maj b c d
  else Z.lxor (Z.lxor b c) d.

Definition sha1_constant (t : nat) : Z :=
  if (t <? 20)%nat then 1518500249 else if (t <? 40)%nat then 1859775393
  else if (t <? 60)%nat then 2400959708 else 3395469782.

Definition sha1_round (v : words5) (tw : nat * Z) : words5 :=
  let '(t, w) := tw in
  W5 (add32 (add32 (add32 (rotl 5 (va v)) (sha1_mix t (vb v) (vc v) (vd v))) (add32 (ve v) (sha1_constant t))) w)
     (va v) (rotl 30 (vb v)) (vc v) (vd v).

Definition sha1_compress (h : words5) (block : list Z) : words5 :=
  let v := fold_left sha1_round (combine (seq 0 80) (block ++ sha1_schedule 64 block)) h in
  W5 (add32 (va h) (va v)) (add32 (vb h) (vb v)) (add32 (vc h) (vc v)) (add32 (vd h) (vd v)) (add32 (ve h) (ve v)).

Definition sha1_words (bytes : list Z) : words5 :=
  let words := be_words (pad bytes) in
  fold_left sha1_compress (chunks (length words) words) sha1_initial.

Definition sha1 (bytes : list Z) : list Z :=
  let h := sha1_words bytes in
  be_bytes 4 (va h) ++ be_bytes 4 (vb h) ++ be_bytes 4 (vc h) ++ be_bytes 4 (vd h) ++ be_bytes 4 (ve h).

Definition hex_bytes (bytes : list Z) : string := foldr (fun b s => hex_digits 2 b +:+ s) EmptyString bytes.

Example sha1_abc : hex_bytes (sha1 (string_bytes "abc"%string)) = "a9993e364706816aba3e25717850c26c9cd0d89d"%string.
Proof. vm_compute. reflexivity. Qed.

(** ** UUIDs *)

(** The bytes of a UUID. *)
Definition uuid : Type := list Z.

(** The version is 5, the variant that of RFC 4122. *)
Definition stamp_version (bytes : list Z) : uuid :=
  take 6 bytes ++ [Z.lor 80 (Z.land (nth 6 bytes 0) 15); nth 7 bytes 0; Z.lor 128 (Z.land (nth 8 bytes 0) 63)]
  ++ take 7 (drop 9 bytes).

(** [uuid5(namespace, name)]; [name] as its UTF-8 bytes. *)
Definition uuid5 (namespace : uuid) (name : string) : uuid := stamp_version (sha1 (namespace ++ string_bytes name)).

(** [str(uuid)]. *)
Definition uuid_text (u : uuid) : string :=
  let part from n := hex_bytes (take n (drop from u)) in
  (part 0%nat 4%nat +:+ "-" +:+ part 4%nat 2%nat +:+ "-" +:+ part 6%nat 2%nat +:+ "-" +:+ part 8%nat 2%nat +:+ "-"
   +:+ part 10%nat 6%nat)%string.

Definition NAMESPACE_URL : uuid := [107; 167; 184; 17; 157; 173; 17; 209; 128; 180; 0; 192; 79; 212; 48; 200].

Example uuid5_ex : uuid_text (uuid5 NAMESPACE_URL "https://rick-intelligence.local/rag-contract-v1"%string)
  = "cba73bf4-6032-51b4-ab06-d52dbaf1f931"%string.
Proof. vm_compute. reflexivity. Qed.

#[global] Opaque uuid5 uuid_text.
