(* ===== verification/Evidence.v ===== *)
(** * Server-issued evidence (packages/evidence, models.py)

    Evidence excerpts, bundles and their content-addressed identifiers.  The
    pydantic models are records; [X_validate] is [X.model_validate].  A record
    value is any instance, whether or not it went through validation
    ([model_construct] does not).  The constant [contract_version] is left
    out, and a citation map is the mapping without its order. *)

From Stdlib Require Import Ascii String.
From stdpp Require Import strings gmap.
From S2P Require Import Prelude PyFloat PyStr PyVal Json CanonicalJson Sha256.

Local Open Scope string_scope.
Local Open Scope Z_scope.

Definition _MAX_QUERY_CHARS : Z := 20000.
Definition _MAX_SOURCE_CHARS : Z := 2000.
Definition _MAX_SECTION_CHARS : Z := 1000.
Definition _MAX_TEXT_CHARS : Z := 1000000.

Definition _EVIDENCE_DIGEST_FIELDS : list string :=
  ["tenant_id"; "workspace_id"; "collection_id"; "document_id"; "document_version"; "chunk_id"; "source";
   "page_start"; "page_end"; "section"; "checksum"; "text"; "retrieval_score"; "reranking_score"].

(** [pydantic.ValidationError] is a [ValueError]. *)
Inductive ev_error : Type :=
| EvValueError
| EvTypeError
| EvAttributeError
| EvOverflowError
| EvidenceValidationError (code : string).

Notation eres := (res ev_error).

Definition invalid_if (b : bool) : eres unit := raise_if b EvValueError.

(** ** Field validators *)

Definition token_char (c : ascii) : bool := is_alnum_az c || one_of "_.:/-" c.
Definition _TOKEN : string -> bool := matches_head_tail is_alnum_az token_char 127.

Definition _token (value : pyval) : eres string :=
  match value with
  | VStr s =>
      let v := strip s in
      invalid_if (is_empty v || (128 <? slen v) || negb (_TOKEN v));; Ok v
  | _ => Err EvValueError
  end.

Definition _bounded_text (value : pyval) (maximum : Z) (required : bool) : eres string :=
  match value with
  | VStr s =>
      let v := strip s in
      invalid_if (required && is_empty v);;
      invalid_if (maximum <? slen v);;
      Ok v
  | _ => Err EvValueError
  end.

Definition _optional_text (value : pyval) (maximum : Z) : eres (option string) :=
  match value with
  | VNone => Ok None
  | _ => t ← _bounded_text value maximum true; Ok (Some t)
  end.

Definition score_limit : pyfloat := lit 1000000000 1.
Definition fabs (f : pyfloat) : pyfloat := match f with Fin m => Fin (Z.abs m) | Inf _ => Inf false | NaN => NaN end.

(** The checks after the conversion to a float. *)
Definition bounded_score (f : pyfloat) : eres pyfloat :=
  invalid_if (negb (fisfinite f));;
  invalid_if (flt score_limit (fabs f));;
  Ok f.

Definition _finite_score (value : pyval) : eres pyfloat :=
  match value with
  | VInt n => match float_of_int n with Some f => bounded_score f | None => Err EvOverflowError end
  | VFloat f => bounded_score f
  | _ => Err EvValueError
  end.

Definition _page (value : pyval) : eres (option Z) :=
  match value with
  | VNone => Ok None
  | VInt n => invalid_if ((n <? 0) || (10000000 <? n));; Ok (Some n)
  | _ => Err EvValueError
  end.

(** ** Scopes *)

Record EvidenceScope : Type := mk_scope { s_tenant_id : string; s_workspace_id : string; s_collection_id : string }.

#[export] Instance EvidenceScope_eq_dec : EqDecision EvidenceScope.
Proof. solve_decision. Defined.

(** [getattr(scope, name)] for the three scope fields. *)
Definition scope_fields (s : EvidenceScope) : list (string * string) :=
  [("tenant_id", s_tenant_id s); ("workspace_id", s_workspace_id s); ("collection_id", s_collection_id s)].

Definition EvidenceScope_new (tenant_id workspace_id collection_id : pyval) : eres EvidenceScope :=
  t ← _token tenant_id; w ← _token workspace_id; c ← _token collection_id;
  Ok (mk_scope t w c).

(** [extra="forbid"]. *)
Definition no_extra (fields : list string) (d : list (string * pyval)) : bool :=
  forallb (fun kv => str_in (fst kv) fields) d.

Definition EvidenceScope_validate (d : list (string * pyval)) : eres EvidenceScope :=
  invalid_if (negb (no_extra ["tenant_id"; "workspace_id"; "collection_id"] d));;
  EvidenceScope_new (dict_read "tenant_id" d) (dict_read "workspace_id" d) (dict_read "collection_id" d).

(** ** Evidence *)

Record Evidence : Type := mk_evidence {
  evidence_id : string;
  tenant_id : string; workspace_id : string; collection_id : string;
  document_id : string; document_version : string; chunk_id : string;
  source : string; page_start : option Z; page_end : option Z; section : option string;
  checksum : string; text : string;
  retrieval_score : pyfloat; reranking_score : pyfloat }.

#[export] Instance Evidence_eq_dec : EqDecision Evidence.
Proof. solve_decision. Defined.

Definition opt_int (o : option Z) : pyval := match o with Some n => VInt n | None => VNone end.
Definition opt_str (o : option string) : pyval := match o with Some s => VStr s | None => VNone end.

(** The attributes the digest reads. *)
Definition evidence_fields (e : Evidence) : list (string * pyval) :=
  [("tenant_id", VStr (tenant_id e)); ("workspace_id", VStr (workspace_id e));
   ("collection_id", VStr (collection_id e)); ("document_id", VStr (document_id e));
   ("document_version", VStr (document_version e)); ("chunk_id", VStr (chunk_id e));
   ("source", VStr (source e)); ("page_start", opt_int (page_start e)); ("page_end", opt_int (page_end e));
   ("section", opt_str (section e)); ("checksum", VStr (checksum e)); ("text", VStr (text e));
   ("retrieval_score", VFloat (retrieval_score e)); ("reranking_score", VFloat (reranking_score e))].

Definition _evidence_payload (d : list (string * pyval)) : pyval :=
  VDict (map (fun name => (name, dict_read name d)) _EVIDENCE_DIGEST_FIELDS).

(** [hashlib.sha256(_canonical_json(value)).hexdigest()[:32]] behind a prefix. *)
Definition content_id (prefix : string) (payload : pyval) : eres string :=
  match canonical_json payload with
  | Some json => Ok (prefix +:+ stake 32 (hexdigest json))
  | None => Err EvValueError
  end.

Definition server_evidence_id (d : list (string * pyval)) : eres string := content_id "ev_" (_evidence_payload d).

(** [^ev_[0-9a-f]{32}$] and [^eb_[0-9a-f]{32}$] on a string of length 35. *)
Definition id_pattern (prefix s : string) : bool :=
  (slen s =? 35) && startswith s prefix && sall is_hex_char (sdrop 3 s).

(** A value of a field that must be an identifier of the pattern. *)
Definition id_field (prefix : string) (v : pyval) : eres string :=
  match v with VStr s => invalid_if (negb (id_pattern prefix s));; Ok s | _ => Err EvValueError end.

(** An [OverflowError] in a validator is not collected like a [ValueError]: it
    aborts the validation. *)
Definition overflows (v : pyval) : bool :=
  match v with VInt n => match float_of_int n with None => true | _ => false end | _ => false end.

(** [validate_server_identity_and_pages]. *)
Definition validate_server_identity_and_pages (e : Evidence) : eres Evidence :=
  invalid_if match page_start e, page_end e with Some a, Some b => b <? a | _, _ => false end;;
  expected ← server_evidence_id (evidence_fields e);
  invalid_if (negb (str_eqb (evidence_id e) expected));;
  Ok e.

Definition Evidence_validate (d : list (string * pyval)) : eres Evidence :=
  let field name := dict_read name d in
  raise_if (overflows (field "retrieval_score") || overflows (field "reranking_score")) EvOverflowError;;
  invalid_if (negb (no_extra ("evidence_id" :: _EVIDENCE_DIGEST_FIELDS) d));;
  eid ← id_field "ev_" (field "evidence_id");
  ten ← _token (field "tenant_id"); wor ← _token (field "workspace_id"); col ← _token (field "collection_id");
  doc ← _token (field "document_id"); ver ← _token (field "document_version"); chu ← _token (field "chunk_id");
  src ← _bounded_text (field "source") 2000 true;
  ps ← _page (field "page_start"); pe ← _page (field "page_end");
  sec ← _optional_text (field "section") _MAX_SECTION_CHARS;
  chk ← _bounded_text (field "checksum") 256 true;
  txt ← _bounded_text (field "text") _MAX_TEXT_CHARS true;
  rs ← _finite_score (field "retrieval_score"); rr ← _finite_score (field "reranking_score");
  validate_server_identity_and_pages (mk_evidence eid ten wor col doc ver chu src ps pe sec chk txt rs rr).

(** [Evidence.issue]: normalise, derive the identifier, validate. *)
Definition Evidence_issue (a_tenant a_workspace a_collection a_document a_version a_chunk a_source a_checksum a_text
    a_page_start a_page_end a_section a_retrieval a_reranking : pyval) : eres Evidence :=
  ten ← _token a_tenant; wor ← _token a_workspace; col ← _token a_collection;
  doc ← _token a_document; ver ← _token a_version; chu ← _token a_chunk;
  src ← _bounded_text a_source _MAX_SOURCE_CHARS true;
  chk ← _bounded_text a_checksum 256 true;
  txt ← _bounded_text a_text _MAX_TEXT_CHARS true;
  sec ← _optional_text a_section _MAX_SECTION_CHARS;
  ps ← _page a_page_start; pe ← _page a_page_end;
  rs ← _finite_score a_retrieval; rr ← _finite_score a_reranking;
  let payload := evidence_fields (mk_evidence EmptyString ten wor col doc ver chu src ps pe sec chk txt rs rr) in
  eid ← server_evidence_id payload;
  Evidence_validate (payload ++ [("evidence_id", VStr eid)]).

Definition scope_of (e : Evidence) : eres EvidenceScope :=
  EvidenceScope_new (VStr (tenant_id e)) (VStr (workspace_id e)) (VStr (collection_id e)).

Definition citation_marker (eid : string) : string := "[cite:" +:+ eid +:+ "]".

(** ** Bundles *)

(** An element of a bundle's [evidence] tuple; only an unvalidated bundle can
    hold something else than evidence. *)
Inductive bundle_item : Type := Item (e : Evidence) | Other_item (v : pyval).

Record EvidenceBundle : Type := mk_bundle {
  bundle_id : string;
  b_tenant_id : string; b_workspace_id : string; b_collection_id : string;
  query : string;
  evidence : list bundle_item;
  citation_map : gmap string string }.

(** [_read(item, "evidence_id")]. *)
Definition item_id (i : bundle_item) : pyval :=
  match i with
  | Item e => VStr (evidence_id e)
  | Other_item (VDict d) => dict_read "evidence_id" d
  | Other_item _ => VNone
  end.

Definition _bundle_payload (t w c q : string) (items : list bundle_item) : pyval :=
  VDict [("tenant_id", VStr t); ("workspace_id", VStr w); ("collection_id", VStr c); ("query", VStr q);
         ("evidence_ids", VList (map item_id items))].

Definition server_bundle_id (t w c q : string) (items : list bundle_item) : eres string :=
  content_id "eb_" (_bundle_payload t w c q items).

Definition bundle_server_id (b : EvidenceBundle) : eres string :=
  server_bundle_id (b_tenant_id b) (b_workspace_id b) (b_collection_id b) (query b) (evidence b).

(** [{identifier: f"[cite:{identifier}]" for identifier in ids}]. *)
Definition citations_for (ids : list string) : gmap string string :=
  list_to_map (map (fun eid => (eid, citation_marker eid)) ids).

Definition evidence_of (items : list bundle_item) : list Evidence :=
  flat_map (fun i => match i with Item e => [e] | Other_item _ => [] end) items.

Definition is_item (i : bundle_item) : bool := match i with Item _ => true | Other_item _ => false end.

(** [len(ids) != len(set(ids))]. *)
Definition has_duplicates (ids : list string) : bool := negb (bool_decide (NoDup ids)).

Definition in_scope (t w c : string) (e : Evidence) : bool :=
  str_eqb (tenant_id e) t && str_eqb (workspace_id e) w && str_eqb (collection_id e) c.

Definition validate_scope_citations_and_identity (b : EvidenceBundle) : eres EvidenceBundle :=
  let items := evidence_of (evidence b) in
  let ids := map evidence_id items in
  invalid_if (negb (forallb (in_scope (b_tenant_id b) (b_workspace_id b) (b_collection_id b)) items));;
  invalid_if (has_duplicates ids);;
  invalid_if (negb (bool_decide (citation_map b = citations_for ids)));;
  expected ← bundle_server_id b;
  invalid_if (negb (str_eqb (bundle_id b) expected));;
  Ok b.

(** The elements of the tuple are instances already: pydantic takes them as
    they are. *)
Definition EvidenceBundle_validate (a_id a_tenant a_workspace a_collection a_query : pyval)
    (items : list Evidence) (cmap : gmap string string) : eres EvidenceBundle :=
  bid ← id_field "eb_" a_id;
  t ← _token a_tenant; w ← _token a_workspace; c ← _token a_collection;
  q ← _bounded_text a_query _MAX_QUERY_CHARS true;
  invalid_if (100 <? Z.of_nat (length items));;
  invalid_if (100 <? Z.of_nat (size cmap));;
  validate_scope_citations_and_identity (mk_bundle bid t w c q (map Item items) cmap).

Definition EvidenceBundle_build (a_tenant a_workspace a_collection a_query : pyval) (items : list bundle_item)
    : eres EvidenceBundle :=
  t ← _token a_tenant; w ← _token a_workspace; c ← _token a_collection;
  q ← _bounded_text a_query _MAX_QUERY_CHARS true;
  raise_if (negb (forallb is_item items)) EvTypeError;;
  bid ← server_bundle_id t w c q items;
  EvidenceBundle_validate (VStr bid) (VStr t) (VStr w) (VStr c) (VStr q) (evidence_of items)
    (citations_for (map evidence_id (evidence_of items))).

Definition build_from_scope (s : EvidenceScope) (a_query : pyval) (items : list bundle_item) : eres EvidenceBundle :=
  EvidenceBundle_build (VStr (s_tenant_id s)) (VStr (s_workspace_id s)) (VStr (s_collection_id s)) a_query items.

Definition bundle_scope (b : EvidenceBundle) : eres EvidenceScope :=
  EvidenceScope_new (VStr (b_tenant_id b)) (VStr (b_workspace_id b)) (VStr (b_collection_id b)).

Definition citation_ids (b : EvidenceBundle) : list string := map evidence_id (evidence_of (evidence b)).
Definition citation_for (b : EvidenceBundle) (eid : string) : option string := citation_map b !! eid.

#[global] Opaque score_limit.
