(* ===== verification/EvidenceValidator.v ===== *)
(** * Evidence validation (packages/evidence, validator.py)

    Issuing evidence from untrusted retrieval candidates, and the fail-closed
    checks of bundles, citations and claims. *)

From Stdlib Require Import Ascii String.
From stdpp Require Import strings gmap.
From S2P Require Import Prelude PyFloat PyStr PyVal Evidence.

Local Open Scope string_scope.
Local Open Scope Z_scope.
Local Open Scope list_scope.

(** ** Values at the boundary *)

(** A retrieval candidate: a mapping, or an object with its attributes and
    what [model_dump()] gives ([None]: there is none, or it raises). *)
Inductive candidate : Type :=
| C_mapping (d : list (string * pyval))
| C_object (attributes : list (string * pyval)) (dump : option pyval).

Inductive scope_arg : Type :=
| Scope_typed (s : EvidenceScope)
| Scope_mapping (d : list (string * pyval))
| Scope_other.

(** What a call of the authority's [resolve] does. *)
Inductive resolver_result : Type :=
| Resolved (v : pyval)
| Resolver_rejects (code : string)
| Resolver_fails.

Inductive authority : Type :=
| No_authority
| Not_callable
| Authority (resolve : candidate -> EvidenceScope -> resolver_result).

(** An argument of type [object]. *)
Inductive value : Type := V_bundle (b : EvidenceBundle) | V_evidence (e : Evidence) | V_other.

Definition fails {A} (code : string) : eres A := Err (EvidenceValidationError code).
Definition fail_if (b : bool) (code : string) : eres unit := raise_if b (EvidenceValidationError code).

(** ** Reports *)

Record EvidenceValidationReport : Type := mk_evidence_report {
  er_valid : bool; er_error_codes : list string; er_evidence_count : Z; er_bundle_id : option string }.

Record CitationValidationReport : Type := mk_citation_report {
  cr_valid : bool; cr_error_codes : list string; cr_cited_count : Z; cr_resolved_count : Z }.

Record ClaimSupportReport : Type := mk_claim_report {
  cs_valid : bool; cs_error_codes : list string; cs_cited_count : Z;
  cs_claim_token_count : Z; cs_matched_token_count : Z; cs_coverage : pyfloat }.

(** The field constraints of the report models. *)
Definition evidence_report (r : EvidenceValidationReport) : eres EvidenceValidationReport :=
  invalid_if ((16 <? Z.of_nat (length (er_error_codes r))) || (100 <? er_evidence_count r));; Ok r.

Definition citation_report (r : CitationValidationReport) : eres CitationValidationReport :=
  invalid_if ((16 <? Z.of_nat (length (cr_error_codes r))) || (100 <? cr_cited_count r)
              || (100 <? cr_resolved_count r));; Ok r.

Definition claim_report (r : ClaimSupportReport) : eres ClaimSupportReport :=
  invalid_if ((16 <? Z.of_nat (length (cs_error_codes r))) || (100 <? cs_cited_count r)
              || (10000 <? cs_claim_token_count r) || (10000 <? cs_matched_token_count r)
              || negb (fle (Fin 0) (cs_coverage r) && fle (cs_coverage r) (lit 1 1)));; Ok r.

(** [tuple(dict.fromkeys(errors))]. *)
Fixpoint from_keys (seen l : list string) : list string :=
  match l with
  | [] => []
  | x :: l' => if str_in x seen then from_keys seen l' else x :: from_keys (x :: seen) l'
  end.
Definition error_codes (errors : list string) : list string := from_keys [] errors.

Definition no_errors (errors : list string) : bool := match errors with [] => true | _ => false end.
Definition error_if (b : bool) (code : string) : list string := if b then [code] else [].

(** ** Reading a candidate *)

Definition _scope (v : scope_arg) : eres EvidenceScope :=
  match v with
  | Scope_typed s => Ok s
  | Scope_mapping d => res_catch (EvidenceScope_validate d) (fun _ => fails "invalid_scope")
  | Scope_other => fails "invalid_scope"
  end.

Definition _read (c : candidate) (name : string) : pyval :=
  match c with C_mapping d => dict_read name d | C_object attributes _ => dict_read name attributes end.

(** The first of the named values that is not [None]. *)
Fixpoint _candidate_value (d : list (string * pyval)) (names : list string) (default : pyval) : pyval :=
  match names with
  | [] => default
  | name :: names' =>
      let v := dict_read name d in
      if is_none v then _candidate_value d names' default else v
  end.

Definition _candidate_mapping (c : candidate) : option (list (string * pyval)) :=
  match c with
  | C_mapping d => Some d
  | C_object _ (Some (VDict d)) => Some d
  | C_object _ _ => None
  end.

(** ** Words *)

(** [re.findall(r"[^\W_]+", s)]: the maximal runs of letters and digits. *)
Fixpoint words_from (current : string) (s : string) : list string :=
  match s with
  | EmptyString => if is_empty current then [] else [current]
  | String c s' =>
      if isalnum c then words_from (current +:+ String c EmptyString) s'
      else (if is_empty current then [] else [current]) ++ words_from EmptyString s'
  end.

(** [str.casefold]: the sharp s becomes [ss].  The micro sign, whose folding is
    a Greek letter no other character here folds to, is kept. *)
Fixpoint casefold (s : string) : string :=
  match s with
  | EmptyString => EmptyString
  | String c s' => if is_char 223 c then "ss" +:+ casefold s' else String (lower_char c) (casefold s')
  end.

Definition _STOP_WORDS : list string :=
  ["a"; "as"; "o"; "os"; "e"; "and"; "or"; "de"; "da"; "do"; "das"; "dos";
   "um"; "uma"; "uns"; "umas"; "the"; "of"; "to"; "in"; "on"; "for"; "with";
   "is"; "are"; "be"; "this"; "that"; "it"; "que"; "se"; "em"; "no"; "na";
   "nos"; "nas"; "por"; "para"; "com"; "um"; "uma"; String (chr 233) EmptyString; "ao"; "aos"].

Definition _meaningful_tokens (s : string) : gset string :=
  list_to_set (List.filter (fun t => negb (str_in t _STOP_WORDS)) (map casefold (words_from EmptyString s))).

(** ** The validator *)

Record EvidenceValidator : Type := mk_validator {
  max_bundle_items : Z; max_text_chars : Z; min_claim_token_coverage : pyfloat;
  v_authority : authority; require_authority : bool }.

Definition EvidenceValidator_new (items chars coverage : pyval) (auth : authority) (required : bool)
    : eres EvidenceValidator :=
  items' ← match items with VInt n => Ok n | _ => Err EvTypeError end;
  invalid_if ((items' <? 0) || (100 <? items'));;
  chars' ← match chars with VInt n => Ok n | _ => Err EvTypeError end;
  invalid_if ((chars' <? 1) || (_MAX_TEXT_CHARS <? chars'));;
  coverage' ← _finite_score coverage;
  invalid_if (negb (fle (Fin 0) coverage' && fle coverage' (lit 1 1)));;
  invalid_if (required && match auth with No_authority => true | _ => false end);;
  Ok (mk_validator items' chars' coverage' auth required).

(** The fields' default values. *)
Definition default_validator : EvidenceValidator :=
  mk_validator 20 _MAX_TEXT_CHARS (lit 80 100) No_authority false.

(** Some scope field of the record is not the scope's. *)
Definition scope_differs (s : EvidenceScope) (read : string -> pyval) : bool :=
  existsb (fun nv => negb (is_str (read (fst nv)) (snd nv))) (scope_fields s).

Definition _resolve_authoritative (self : EvidenceValidator) (c : candidate) (scope : EvidenceScope) : eres candidate :=
  match v_authority self with
  | No_authority => if require_authority self then fails "authoritative_resolution_unavailable" else Ok c
  | Not_callable => fails "authoritative_resolution_unavailable"
  | Authority resolve =>
      match resolve c scope with
      | Resolver_rejects code => fails code
      | Resolver_fails => fails "authoritative_resolution_failed"
      | Resolved (VDict d) =>
          fail_if (scope_differs scope (fun name => dict_read name d)) "authoritative_scope_mismatch";;
          fail_if (existsb (fun name => negb (is_none (_read c name)) && negb (py_eqb (dict_read name d) (_read c name)))
                     ["document_id"; "chunk_id"]) "authoritative_identity_mismatch";;
          Ok (C_mapping d)
      | Resolved _ => fails "authoritative_evidence_missing"
      end
  end.

(** [isinstance(value, str) and value.strip()]. *)
Definition is_text (v : pyval) : bool := match v with VStr s => negb (is_empty (strip s)) | _ => false end.
Definition text_longer (v : pyval) (n : Z) : bool := match v with VStr s => n <? slen (strip s) | _ => false end.

(** [except EvidenceValidationError: raise / except Exception: raise
    EvidenceValidationError(code)]. *)
Definition wrap {A} (m : eres A) (code : string) : eres A :=
  res_catch m (fun e => match e with EvidenceValidationError c => fails c | _ => fails code end).

Definition issue (self : EvidenceValidator) (c : candidate) (scope : scope_arg) (document_version : pyval)
    (_resolved_candidate : option (list (string * pyval))) : eres Evidence :=
  expected ← _scope scope;
  fail_if (existsb (fun nv => negb (is_none (_read c (fst nv))) && negb (is_str (_read c (fst nv)) (snd nv)))
             (scope_fields expected)) "candidate_scope_mismatch";;
  resolved ← match _resolved_candidate with
             | Some d => Ok (C_mapping d)
             | None => _resolve_authoritative self c expected
             end;
  match _candidate_mapping resolved with
  | None => fails "invalid_evidence_candidate"
  | Some d =>
      fail_if (scope_differs expected (fun name => dict_read name d)) "authoritative_scope_mismatch";;
      let candidate_version := _candidate_value d ["document_version"; "version"] VNone in
      fail_if (negb (is_none document_version) && negb (is_none candidate_version)
               && negb (py_eqb candidate_version document_version)) "document_version_mismatch";;
      let version := if is_none document_version then candidate_version else document_version in
      fail_if (negb (is_text version)) "document_version_missing";;
      let txt := _candidate_value d ["text"; "excerpt"] VNone in
      fail_if (negb (is_text txt) || text_longer txt (max_text_chars self)) "invalid_excerpt";;
      let src := _candidate_value d ["source"; "document_filename"] VNone in
      let chk := _candidate_value d ["checksum"; "content_checksum"] VNone in
      let doc := _candidate_value d ["document_id"] VNone in
      let chu := _candidate_value d ["chunk_id"] VNone in
      fail_if (negb (forallb is_text [src; chk; doc; chu])) "incomplete_provenance";;
      wrap (Evidence_issue (VStr (s_tenant_id expected)) (VStr (s_workspace_id expected)) (VStr (s_collection_id expected))
              doc version chu src chk txt
              (_candidate_value d ["page_start"; "page"] VNone) (_candidate_value d ["page_end"] VNone)
              (_candidate_value d ["section"; "heading"] VNone)
              (_candidate_value d ["retrieval_score"; "score"] (VFloat (Fin 0)))
              (_candidate_value d ["reranking_score"; "rerank_score"; "bm25f_score"] (VFloat (Fin 0))))
           "invalid_evidence_candidate"
  end.

(** The loop of [build_bundle]; [count] items are issued already. *)
Fixpoint issue_all (self : EvidenceValidator) (scope : scope_arg) (document_version : pyval) (count : Z)
    (candidates : list candidate) : eres (list Evidence) :=
  match candidates with
  | [] => Ok []
  | c :: rest =>
      fail_if (max_bundle_items self <=? count) "evidence_limit_exceeded";;
      e ← issue self c scope document_version None;
      es ← issue_all self scope document_version (count + 1) rest;
      Ok (e :: es)
  end.

Definition build_bundle (self : EvidenceValidator) (a_query : pyval) (candidates : list candidate) (scope : scope_arg)
    (document_version : pyval) : eres EvidenceBundle :=
  items ← issue_all self scope document_version 0 candidates;
  expected ← _scope scope;
  wrap (build_from_scope expected a_query (map Item items)) "invalid_evidence_bundle".

(** ** Bundle and item checks *)

(** The error of the optional [expected_scope] against the value's own scope. *)
Definition expected_scope_errors (expected_scope : option scope_arg) (own : eres EvidenceScope) (code : string)
    : eres (list string) :=
  match expected_scope with
  | None => Ok []
  | Some arg =>
      match _scope arg with
      | Err (EvidenceValidationError c) => Ok [c]
      | Err e => Err e
      | Ok s => o ← own; Ok (error_if (negb (bool_decide (o = s))) code)
      end
  end.

(** The loop over the items: errors and identifiers so far. *)
Definition check_item (b : EvidenceBundle) (acc : list string * list string) (i : bundle_item)
    : eres (list string * list string) :=
  let '(errors, ids) := acc in
  match i with
  | Other_item _ => Ok (errors ++ ["evidence_type_invalid"], ids)
  | Item e =>
      s ← scope_of e; bs ← bundle_scope b;
      eid ← server_evidence_id (evidence_fields e);
      Ok (errors ++ error_if (negb (bool_decide (s = bs))) "evidence_scope_mismatch"
                 ++ error_if (negb (str_eqb (evidence_id e) eid)) "evidence_id_invalid",
          ids ++ [evidence_id e])
  end.

Definition validate_bundle (self : EvidenceValidator) (v : value) (expected_scope : option scope_arg)
    : eres EvidenceValidationReport :=
  match v with
  | V_bundle b =>
      errors0 ← expected_scope_errors expected_scope (bundle_scope b) "bundle_scope_mismatch";
      acc ← res_foldM (check_item b) (errors0, []) (evidence b);
      bid ← bundle_server_id b;
      let '(errors1, ids) := acc in
      let errors := errors1
        ++ error_if (has_duplicates ids) "duplicate_evidence_id"
        ++ error_if (negb (bool_decide (citation_map b = citations_for ids))) "citation_map_invalid"
        ++ error_if (negb (str_eqb (bundle_id b) bid)) "bundle_id_invalid" in
      evidence_report (mk_evidence_report (no_errors errors) (error_codes errors)
                         (Z.of_nat (length (evidence b))) (Some (bundle_id b)))
  | _ => evidence_report (mk_evidence_report false ["bundle_type_invalid"] 0 None)
  end.

Definition validate_evidence (self : EvidenceValidator) (v : value) (expected_scope : option scope_arg)
    : eres EvidenceValidationReport :=
  match v with
  | V_evidence e =>
      errors0 ← expected_scope_errors expected_scope (scope_of e) "evidence_scope_mismatch";
      eid ← server_evidence_id (evidence_fields e);
      let errors := errors0 ++ error_if (negb (str_eqb (evidence_id e) eid)) "evidence_id_invalid" in
      evidence_report (mk_evidence_report (no_errors errors) (error_codes errors) 1 None)
  | _ => evidence_report (mk_evidence_report false ["evidence_type_invalid"] 0 None)
  end.

Definition validate (self : EvidenceValidator) (v : value) (expected_scope : option scope_arg)
    : eres EvidenceValidationReport :=
  match v with
  | V_evidence _ => validate_evidence self v expected_scope
  | _ => validate_bundle self v expected_scope
  end.

(** ** Citations *)

Definition is_nonempty_str (v : pyval) : bool := match v with VStr s => negb (is_empty s) | _ => false end.

(** [identifier in bundle.citation_map]. *)
Definition resolves (b : EvidenceBundle) (v : pyval) : bool :=
  match v with VStr s => bool_decide (is_Some (citation_map b !! s)) | _ => false end.

Definition validate_citations (self : EvidenceValidator) (v : value) (cited : pyval) : eres CitationValidationReport :=
  match v with
  | V_bundle b =>
      bundle_report ← validate_bundle self v None;
      if negb (er_valid bundle_report) then citation_report (mk_citation_report false ["bundle_invalid"] 0 0)
      else match cited with
      | VStr _ => citation_report (mk_citation_report false ["citation_sequence_invalid"] 0 0)
      | _ =>
          match py_iter cited with
          | None => Err EvTypeError
          | Some ids =>
              raise_if (negb (forallb py_hashable ids)) EvTypeError;;
              let resolved := length (List.filter (resolves b) ids) in
              let errors := error_if (bool_decide (ids = [])) "citation_missing"
                ++ error_if (negb (forallb is_nonempty_str ids)) "citation_id_invalid"
                ++ error_if (negb (bool_decide (py_distinct ids = length ids))) "duplicate_citation"
                ++ error_if (negb (bool_decide (resolved = length ids))) "unknown_citation" in
              citation_report (mk_citation_report (no_errors errors) (error_codes errors)
                                 (Z.of_nat (length ids)) (Z.of_nat resolved))
          end
      end
  | _ => citation_report (mk_citation_report false ["bundle_type_invalid"] 0 0)
  end.

(** ** Claims *)

(** [{item.evidence_id: item for item in bundle.evidence}]: the last wins. *)
Definition by_id (items : list Evidence) : gmap string Evidence :=
  list_to_map (rev (map (fun e => (evidence_id e, e)) items)).

(** The tokens of the cited items' texts. *)
Definition cited_tokens (items : gmap string Evidence) (ids : list pyval) : gset string :=
  fold_left (fun acc v =>
    match v with
    | VStr s => match items !! s with Some e => acc ∪ _meaningful_tokens (text e) | None => acc end
    | _ => acc
    end) ids ∅.

Definition evidence_tokens_of (v : value) (cited : pyval) : eres (gset string) :=
  match v with
  | V_bundle b =>
      raise_if (negb (forallb is_item (evidence b))) EvAttributeError;;
      match py_iter cited with
      | None => Err EvTypeError
      | Some ids =>
          raise_if (negb (forallb py_hashable ids)) EvTypeError;;
          Ok (cited_tokens (by_id (evidence_of (evidence b))) ids)
      end
  | _ => Ok ∅
  end.

Definition coverage_of (matched total : nat) : pyfloat :=
  match total with O => Fin 0 | _ => to_float (Z.of_nat matched * scale) (Z.of_nat total) end.

Definition validate_claim_support (self : EvidenceValidator) (claim : pyval) (v : value) (cited : pyval)
    : eres ClaimSupportReport :=
  r ← validate_citations self v cited;
  let errors := cr_error_codes r in
  let invalid := claim_report (mk_claim_report false (error_codes (errors ++ ["claim_invalid"])) (cr_cited_count r)
                                 0 0 (Fin 0)) in
  match _bounded_text claim (max_text_chars self) true with
  | Err _ => invalid
  | Ok normalized =>
      let claim_tokens := _meaningful_tokens normalized in
      evidence_tokens ← evidence_tokens_of v cited;
      let matched := size (claim_tokens ∩ evidence_tokens) in
      let coverage := coverage_of matched (size claim_tokens) in
      let errors := errors
        ++ error_if (bool_decide (claim_tokens = ∅)) "claim_has_no_terms"
        ++ error_if (flt coverage (min_claim_token_coverage self)) "claim_support_below_threshold" in
      claim_report (mk_claim_report (no_errors errors) (error_codes errors) (cr_cited_count r)
                      (Z.of_nat (size claim_tokens)) (Z.of_nat matched) coverage)
  end.
