(* ===== verification/EvidenceLemmas.v ===== *)
(** * Lemmas on evidence: validators are idempotent, issued objects are well
    formed, and validation accepts exactly the well-formed ones. *)

From Stdlib Require Import Ascii String.
From stdpp Require Import strings gmap.
From S2P Require Import Prelude PyFloat PyStr PyVal CanonicalJson Sha256 Evidence EvidenceValidator.

Local Open Scope string_scope.
Local Open Scope Z_scope.
Local Open Scope list_scope.

(** ** Field validators *)

Lemma invalid_if_Ok b u : invalid_if b = Ok u <-> b = false.
Proof. apply raise_if_Ok. Qed.

Lemma invalid_if_false b : b = false -> invalid_if b = Ok tt.
Proof. intros ->. reflexivity. Qed.

Lemma _token_Ok v t : _token v = Ok t ->
  (exists s, v = VStr s /\ t = strip s) /\ _token (VStr t) = Ok t /\ 1 <= slen t <= 128.
Proof.
  destruct v as [| | | |s| |]; try discriminate. cbn [_token]. intros H.
  apply bind_Ok in H as (u & H & [= <-]). apply invalid_if_Ok in H. split; [eauto|]. split.
  - rewrite strip_idem, H. reflexivity.
  - bool_to_prop. now apply matches_head_tail_len in H0.
Qed.

Lemma _token_again v t : _token v = Ok t -> _token (VStr t) = Ok t.
Proof. intros H. apply (_token_Ok _ _ H). Qed.

Lemma _bounded_text_Ok v n r t : _bounded_text v n r = Ok t ->
  (exists s, v = VStr s /\ t = strip s) /\ _bounded_text (VStr t) n r = Ok t /\ slen t <= n
  /\ (r = true -> t <> EmptyString).
Proof.
  destruct v as [| | | |s| |]; try discriminate. cbn [_bounded_text]. intros H.
  apply bind_Ok in H as (u & H & H'). apply bind_Ok in H' as (u' & H' & [= <-]).
  apply invalid_if_Ok in H, H'. rewrite strip_idem, H, H'. repeat split; eauto.
  - bool_to_prop. lia.
  - intros ->. cbn in H. now apply is_empty_true in E || (intros E; rewrite E in H).
Qed.

Lemma _bounded_text_again v n r t : _bounded_text v n r = Ok t -> _bounded_text (VStr t) n r = Ok t.
Proof. intros H. apply (_bounded_text_Ok _ _ _ _ H). Qed.

Lemma _optional_text_again v n o : _optional_text v n = Ok o -> _optional_text (opt_str o) n = Ok o.
Proof.
  intros H. assert (o = None \/ exists t, _bounded_text v n true = Ok t /\ o = Some t) as [->|(t & Ht & ->)].
  { destruct v; cbn [_optional_text] in H; [injection H as <-; auto | ..];
      (apply bind_Ok in H as (t & H & [= <-]); eauto). }
  - reflexivity.
  - cbn [opt_str _optional_text]. now rewrite (_bounded_text_again _ _ _ _ Ht).
Qed.

Lemma _page_again v o : _page v = Ok o -> _page (opt_int o) = Ok o.
Proof.
  destruct v; try discriminate; cbn [_page].
  - intros [= <-]. reflexivity.
  - intros H. apply bind_Ok in H as (u & H & [= <-]). apply invalid_if_Ok in H. cbn [opt_int _page]. now rewrite H.
Qed.

Definition score_ok (f : pyfloat) : bool := fisfinite f && negb (flt score_limit (fabs f)).

Lemma bounded_score_Ok f g : bounded_score f = Ok g <-> g = f /\ score_ok f = true.
Proof.
  unfold bounded_score, score_ok. destruct (fisfinite f), (flt score_limit (fabs f)); cbn; split;
    intuition congruence.
Qed.

Lemma _finite_score_float f : score_ok f = true -> _finite_score (VFloat f) = Ok f.
Proof. intros H. now apply bounded_score_Ok. Qed.

Lemma _finite_score_Ok v f : _finite_score v = Ok f -> score_ok f = true.
Proof.
  unfold _finite_score. destruct v; try discriminate.
  - destruct (float_of_int z); [|discriminate]. intros [-> H]%bounded_score_Ok. exact H.
  - intros [-> H]%bounded_score_Ok. exact H.
Qed.

Lemma score_json f : score_ok f = true -> exists t, canonical_json (VFloat f) = Some t.
Proof.
  intros H. assert (fisfinite f = true) as Hf by (unfold score_ok in H; now bool_to_prop).
  clear H. destruct f; try discriminate Hf. cbn. eauto.
Qed.

(** ** Identifiers *)

Lemma sall_stake P n s : sall P s = true -> sall P (stake n s) = true.
Proof.
  revert n. induction s as [|c s IH]; intros [|n]; cbn; auto. intros H. bool_to_prop. now rewrite H, IH.
Qed.

Lemma slen_stake n s : Z.of_nat n <= slen s -> slen (stake n s) = Z.of_nat n.
Proof.
  revert s. induction n as [|n IH]; intros [|c s] H; try reflexivity.
  - unfold slen in H; cbn in H; lia.
  - cbn [stake]. rewrite slen_cons in *. rewrite IH; lia.
Qed.

Lemma content_id_form prefix p i : slen prefix = 3 -> content_id prefix p = Ok i -> id_pattern prefix i = true.
Proof.
  intros Hp. unfold content_id. destruct (canonical_json p) as [t|]; [|discriminate]. intros ->%Ok_inj.
  destruct (hexdigest_form t) as [Hh Hl]. unfold id_pattern.
  rewrite slen_app, slen_stake, Hp by lia.
  destruct prefix as [|a [|b [|c [|d r]]]]; try discriminate Hp.
  2: { exfalso. rewrite !slen_cons in Hp. pose proof (slen_nonneg r). lia. }
  pose proof (sall_stake is_hex_char 32 _ Hh) as Hs. revert Hs. generalize (stake 32 (hexdigest t)) as w.
  intros w Hs. cbn. rewrite Hs, andb_true_r.
  repeat match goal with |- context [ascii_dec ?a ?a] => destruct (ascii_dec a a); [|congruence] end.
  destruct w; reflexivity.
Qed.

Lemma content_id_ok prefix p t : canonical_json p = Some t -> content_id prefix p = Ok (prefix +:+ stake 32 (hexdigest t)).
Proof. unfold content_id. now intros ->. Qed.

Lemma id_field_str prefix s : id_pattern prefix s = true -> id_field prefix (VStr s) = Ok s.
Proof. intros H. unfold id_field. now rewrite H. Qed.

Lemma id_field_Ok prefix v s : id_field prefix v = Ok s -> v = VStr s /\ id_pattern prefix s = true.
Proof.
  destruct v; try discriminate. unfold id_field. intros H. apply bind_Ok in H as (u & H & [= <-]).
  apply invalid_if_Ok, negb_false_iff in H. auto.
Qed.

(** ** Well-formed evidence *)

Definition pages_ok (e : Evidence) : bool :=
  match page_start e, page_end e with Some a, Some b => negb (b <? a) | _, _ => true end.

(** Every field is a fixed point of its validator. *)
Record normalised (e : Evidence) : Prop := {
  nf_tenant : _token (VStr (tenant_id e)) = Ok (tenant_id e);
  nf_workspace : _token (VStr (workspace_id e)) = Ok (workspace_id e);
  nf_collection : _token (VStr (collection_id e)) = Ok (collection_id e);
  nf_document : _token (VStr (document_id e)) = Ok (document_id e);
  nf_version : _token (VStr (document_version e)) = Ok (document_version e);
  nf_chunk : _token (VStr (chunk_id e)) = Ok (chunk_id e);
  nf_source : _bounded_text (VStr (source e)) _MAX_SOURCE_CHARS true = Ok (source e);
  nf_page_start : _page (opt_int (page_start e)) = Ok (page_start e);
  nf_page_end : _page (opt_int (page_end e)) = Ok (page_end e);
  nf_section : _optional_text (opt_str (section e)) _MAX_SECTION_CHARS = Ok (section e);
  nf_checksum : _bounded_text (VStr (checksum e)) 256 true = Ok (checksum e);
  nf_text : _bounded_text (VStr (text e)) _MAX_TEXT_CHARS true = Ok (text e);
  nf_retrieval : score_ok (retrieval_score e) = true;
  nf_reranking : score_ok (reranking_score e) = true }.

Record evidence_wf (e : Evidence) : Prop := {
  wf_normalised : normalised e;
  wf_pages : pages_ok e = true;
  wf_id : server_evidence_id (evidence_fields e) = Ok (evidence_id e);
  wf_pattern : id_pattern "ev_" (evidence_id e) = true }.

Lemma issued_payload_read e eid :
  let d := evidence_fields e ++ [("evidence_id", VStr eid)] in
  (dict_read "evidence_id" d = VStr eid
   /\ dict_read "tenant_id" d = VStr (tenant_id e) /\ dict_read "workspace_id" d = VStr (workspace_id e)
   /\ dict_read "collection_id" d = VStr (collection_id e) /\ dict_read "document_id" d = VStr (document_id e)
   /\ dict_read "document_version" d = VStr (document_version e) /\ dict_read "chunk_id" d = VStr (chunk_id e)
   /\ dict_read "source" d = VStr (source e))
  /\ (dict_read "page_start" d = opt_int (page_start e) /\ dict_read "page_end" d = opt_int (page_end e)
   /\ dict_read "section" d = opt_str (section e) /\ dict_read "checksum" d = VStr (checksum e)
   /\ dict_read "text" d = VStr (text e) /\ dict_read "retrieval_score" d = VFloat (retrieval_score e)
   /\ dict_read "reranking_score" d = VFloat (reranking_score e)
   /\ no_extra ("evidence_id" :: _EVIDENCE_DIGEST_FIELDS) d = true).
Proof. intros d. split; repeat split; reflexivity. Qed.

(** The digest does not depend on the identifier. *)
Definition with_id (e : Evidence) (eid : string) : Evidence :=
  mk_evidence eid (tenant_id e) (workspace_id e) (collection_id e) (document_id e) (document_version e) (chunk_id e)
    (source e) (page_start e) (page_end e) (section e) (checksum e) (text e) (retrieval_score e) (reranking_score e).

Lemma fields_with_id e eid : evidence_fields (with_id e eid) = evidence_fields e.
Proof. reflexivity. Qed.

Lemma server_identity_Ok e e' : validate_server_identity_and_pages e = Ok e' <->
  e' = e /\ pages_ok e = true /\ server_evidence_id (evidence_fields e) = Ok (evidence_id e).
Proof.
  unfold validate_server_identity_and_pages, pages_ok.
  generalize (server_evidence_id (evidence_fields e)) as r. intros r.
  replace (match page_start e, page_end e with Some a, Some b => negb (b <? a) | _, _ => true end)
    with (negb match page_start e, page_end e with Some a, Some b => b <? a | _, _ => false end)
    by (destruct (page_start e), (page_end e); reflexivity).
  generalize (match page_start e, page_end e with Some a, Some b => b <? a | _, _ => false end) as p. intros p.
  destruct p; cbn [invalid_if raise_if mbind res_mbind negb]; [split; [discriminate | intuition discriminate]|].
  destruct r as [i|er]; cbn; [|split; [discriminate | intuition discriminate]].
  destruct (str_eqb (evidence_id e) i) eqn:E; cbn.
  - apply str_eqb_eq in E as <-. split; [intros [= ->]; auto | intros (-> & _); reflexivity].
  - split; [discriminate|]. intros (_ & _ & [= ->]). unfold str_eqb in E. now rewrite bool_decide_eq_true_2 in E.
Qed.

(** [model_validate] of a normalised payload: only the identity and the pages
    are left to check. *)
Lemma validate_normalised e eid : normalised e -> id_pattern "ev_" eid = true ->
  Evidence_validate (evidence_fields e ++ [("evidence_id", VStr eid)])
  = validate_server_identity_and_pages (with_id e eid).
Proof.
  intros [] Hp. pose proof (issued_payload_read e eid) as R. cbv zeta in R.
  unfold Evidence_validate. revert R. generalize (evidence_fields e ++ [("evidence_id", VStr eid)]) as d.
  intros d ((R1 & R2 & R3 & R4 & R5 & R6 & R7 & R8) & (R9 & R10 & R11 & R12 & R13 & R14 & R15 & R16)).
  cbv zeta. rewrite R1, R2, R3, R4, R5, R6, R7, R8, R9, R10, R11, R12, R13, R14, R15, R16. cbn [negb overflows orb].
  rewrite (id_field_str _ _ Hp), nf_tenant0, nf_workspace0, nf_collection0, nf_document0, nf_version0, nf_chunk0.
  change 2000 with _MAX_SOURCE_CHARS.
  rewrite nf_source0, nf_page_start0, nf_page_end0, nf_section0, nf_checksum0, nf_text0.
  rewrite (_finite_score_float _ nf_retrieval0), (_finite_score_float _ nf_reranking0).
  reflexivity.
Qed.

(** What a successful [Evidence.issue] returns. *)
Lemma Evidence_issue_Ok t w c d v k src chk txt ps pe sec rs rr e :
  Evidence_issue t w c d v k src chk txt ps pe sec rs rr = Ok e ->
  evidence_wf e
  /\ (_token t = Ok (tenant_id e) /\ _token w = Ok (workspace_id e) /\ _token c = Ok (collection_id e)
      /\ _token d = Ok (document_id e) /\ _token v = Ok (document_version e) /\ _token k = Ok (chunk_id e))
  /\ (_bounded_text src _MAX_SOURCE_CHARS true = Ok (source e) /\ _bounded_text chk 256 true = Ok (checksum e)
      /\ _bounded_text txt _MAX_TEXT_CHARS true = Ok (text e) /\ _optional_text sec _MAX_SECTION_CHARS = Ok (section e))
  /\ (_page ps = Ok (page_start e) /\ _page pe = Ok (page_end e)
      /\ _finite_score rs = Ok (retrieval_score e) /\ _finite_score rr = Ok (reranking_score e)).
Proof.
  unfold Evidence_issue. intros H.
  apply bind_Ok in H as (t' & H1 & H). apply bind_Ok in H as (w' & H2 & H). apply bind_Ok in H as (c' & H3 & H).
  apply bind_Ok in H as (d' & H4 & H). apply bind_Ok in H as (v' & H5 & H). apply bind_Ok in H as (k' & H6 & H).
  apply bind_Ok in H as (src' & H7 & H). apply bind_Ok in H as (chk' & H8 & H). apply bind_Ok in H as (txt' & H9 & H).
  apply bind_Ok in H as (sec' & H10 & H). apply bind_Ok in H as (ps' & H11 & H). apply bind_Ok in H as (pe' & H12 & H).
  apply bind_Ok in H as (rs' & H13 & H). apply bind_Ok in H as (rr' & H14 & H). cbv zeta in H.
  set (e0 := mk_evidence EmptyString t' w' c' d' v' k' src' ps' pe' sec' chk' txt' rs' rr') in *.
  apply bind_Ok in H as (i & Hi & H).
  assert (normalised e0) as Hn.
  { split; first [eapply _token_again | eapply _bounded_text_again | eapply _optional_text_again | eapply _page_again
                 | eapply _finite_score_Ok]; eassumption. }
  pose proof (content_id_form "ev_" _ _ eq_refl Hi) as Hp.
  rewrite (validate_normalised e0 i Hn Hp) in H. apply server_identity_Ok in H as (-> & Hpg & Hid).
  split; [split; [destruct Hn; split; assumption | exact Hpg | exact Hid | exact Hp]|].
  repeat split; assumption.
Qed.

(** ** Bundles *)

Lemma evidence_of_items es : evidence_of (map Item es) = es.
Proof. unfold evidence_of. induction es as [|e es IH]; cbn; [reflexivity | now rewrite IH]. Qed.

Lemma all_items l : forallb is_item l = true <-> l = map Item (evidence_of l).
Proof.
  unfold evidence_of. induction l as [|[e|v] l IH]; cbn; [split; reflexivity | |].
  - rewrite IH. split; [intros E; f_equal; exact E | intros [= E]; exact E].
  - split; [discriminate|]. intros E. exfalso.
    destruct (flat_map _ l); discriminate.
Qed.

Lemma error_if_nil b code : error_if b code = [] <-> b = false.
Proof. destruct b; cbn; split; congruence. Qed.

Lemma has_duplicates_false ids : has_duplicates ids = false <-> NoDup ids.
Proof. unfold has_duplicates. now rewrite negb_false_iff, bool_decide_eq_true. Qed.

Lemma neg_str_eqb s t : negb (str_eqb s t) = false <-> s = t.
Proof. now rewrite negb_false_iff, str_eqb_eq. Qed.

Lemma neg_decide P `{Decision P} : negb (bool_decide P) = false <-> P.
Proof. now rewrite negb_false_iff, bool_decide_eq_true. Qed.

(** An item of the bundle passes its checks. *)
Definition item_ok (b : EvidenceBundle) (e : Evidence) : Prop :=
  (exists s, scope_of e = Ok s /\ bundle_scope b = Ok s)
  /\ server_evidence_id (evidence_fields e) = Ok (evidence_id e).

(** What an accepted bundle is. *)
Record bundle_valid (b : EvidenceBundle) (es : list Evidence) : Prop := {
  bv_items : evidence b = map Item es;
  bv_item : forall e, In e es -> item_ok b e;
  bv_nodup : NoDup (map evidence_id es);
  bv_map : citation_map b = citations_for (map evidence_id es);
  bv_id : bundle_server_id b = Ok (bundle_id b) }.

Definition scope_matches (expected : option scope_arg) (b : EvidenceBundle) : Prop :=
  match expected with
  | None => True
  | Some arg => exists s, _scope arg = Ok s /\ bundle_scope b = Ok s
  end.

Lemma check_item_Ok b errs ids i errs' ids' : check_item b (errs, ids) i = Ok (errs', ids') ->
  ids' = ids ++ map evidence_id (evidence_of [i])
  /\ (errs' = [] <-> errs = [] /\ is_item i = true /\ forall e, In e (evidence_of [i]) -> item_ok b e).
Proof.
  destruct i as [e|v]; cbn [check_item evidence_of flat_map map app is_item].
  - intros H. apply bind_Ok in H as (s & Hs & H). apply bind_Ok in H as (bs & Hb & H).
    apply bind_Ok in H as (i & Hi & H). injection H as <- <-. split; [reflexivity|].
    rewrite !app_nil, !error_if_nil, neg_decide, neg_str_eqb. split.
    + intros (-> & -> & <-). do 2 (split; [reflexivity|]). intros e' [<-|[]]. split; eauto.
    + intros (-> & _ & He). destruct (He e (or_introl eq_refl)) as [(s' & Hs' & Hb') Hi']. repeat split; congruence.
  - intros [= <- <-]. rewrite app_nil_r. split; [reflexivity|]. rewrite app_nil. intuition discriminate.
Qed.

Lemma check_items_Ok b l : forall errs ids errs' ids', res_foldM (check_item b) (errs, ids) l = Ok (errs', ids') ->
  ids' = ids ++ map evidence_id (evidence_of l)
  /\ (errs' = [] <-> errs = [] /\ forallb is_item l = true /\ forall e, In e (evidence_of l) -> item_ok b e).
Proof.
  induction l as [|i l IH]; intros errs ids errs' ids'; cbn [res_foldM].
  - intros [= <- <-]. cbn. rewrite app_nil_r. split; [reflexivity|]. intuition.
  - intros H. apply bind_Ok in H as ([errs1 ids1] & H1 & H).
    apply check_item_Ok in H1 as [-> E1]. apply IH in H as [-> E2].
    assert (evidence_of (i :: l) = evidence_of [i] ++ evidence_of l) as ->.
    { unfold evidence_of. cbn. now rewrite app_nil_r. }
    rewrite map_app, app_assoc. split; [reflexivity|].
    rewrite E2, E1. cbn [forallb]. rewrite andb_true_iff.
    split.
    + intros ((? & ? & ?) & ? & ?). do 2 (split; [auto|]). intros e He. apply in_app_or in He as [He|He]; auto.
    + intros (? & [? ?] & Hin). split; [do 2 (split; [auto|]) | split; [auto|]]; intros e He; apply Hin, in_or_app; auto.
Qed.

Lemma no_errors_nil l : no_errors l = true <-> l = [].
Proof. destruct l; cbn; split; congruence. Qed.

Lemma evidence_report_Ok r r' : evidence_report r = Ok r' -> r' = r.
Proof. intros H. apply bind_Ok in H as (u & _ & [= <-]). reflexivity. Qed.

Lemma expected_scope_Ok expected b errs :
  expected_scope_errors expected (bundle_scope b) "bundle_scope_mismatch" = Ok errs ->
  errs = [] <-> scope_matches expected b.
Proof.
  destruct expected as [arg|]; cbn; [|intros [= <-]; tauto].
  destruct (_scope arg) as [s|[| | | |c]]; try discriminate.
  - intros H. apply bind_Ok in H as (o & Ho & H). injection H as <-. rewrite error_if_nil, neg_decide, Ho.
    split; [intros ->; eauto | intros (s' & [= <-] & [= <-]); reflexivity].
  - intros [= <-]. split; [discriminate|]. intros (s & [=] & _).
Qed.

(** A report accepts exactly the valid bundles of the expected scope. *)
Lemma validate_bundle_spec self b expected r : validate_bundle self (V_bundle b) expected = Ok r ->
  (er_valid r = true <-> (exists es, bundle_valid b es) /\ scope_matches expected b)
  /\ er_bundle_id r = Some (bundle_id b) /\ er_evidence_count r = Z.of_nat (length (evidence b)).
Proof.
  unfold validate_bundle. intros H. apply bind_Ok in H as (errs0 & H0 & H).
  apply bind_Ok in H as ([errs ids] & H1 & H). apply bind_Ok in H as (bid & Hb & H).
  apply expected_scope_Ok in H0. apply check_items_Ok in H1 as [-> E]. apply evidence_report_Ok in H as ->.
  cbn [er_valid er_bundle_id er_evidence_count]. split; [|auto].
  rewrite no_errors_nil, !app_nil, !error_if_nil, has_duplicates_false, neg_decide, neg_str_eqb, E, H0.
  cbn [app]. split.
  - intros ((Hs & Hi & He) & Hn & Hm & <-). apply all_items in Hi. split; [|exact Hs].
    exists (evidence_of (evidence b)). split; auto.
  - intros [(es & [Hi He Hn Hm Hid]) Hs]. rewrite Hi, evidence_of_items, all_items, evidence_of_items.
    do 3 (split; [tauto|]). congruence.
Qed.

Lemma check_item_accept b e errs ids : item_ok b e ->
  check_item b (errs, ids) (Item e) = Ok (errs, ids ++ [evidence_id e]).
Proof.
  intros [(s & Hs & Hb) Hi]. cbn [check_item]. rewrite Hs, Hb, Hi. cbn [mbind res_mbind].
  rewrite bool_decide_eq_true_2 by reflexivity. unfold str_eqb. rewrite bool_decide_eq_true_2 by reflexivity.
  cbn [negb error_if app]. now rewrite app_nil_r.
Qed.

Lemma check_items_accept b es : (forall e, In e es -> item_ok b e) -> forall errs ids,
  res_foldM (check_item b) (errs, ids) (map Item es) = Ok (errs, ids ++ map evidence_id es).
Proof.
  induction es as [|e es IH]; intros He errs ids; cbn [map res_foldM]; [now rewrite app_nil_r|].
  rewrite check_item_accept by (apply He; now left). cbn [mbind res_mbind].
  rewrite IH by (intros x Hx; apply He; now right). now rewrite <- app_assoc.
Qed.

(** A valid bundle of the expected scope is accepted. *)
Lemma validate_bundle_accepts self b es expected :
  bundle_valid b es -> (length es <= 100)%nat -> scope_matches expected b ->
  validate_bundle self (V_bundle b) expected
  = Ok (mk_evidence_report true [] (Z.of_nat (length es)) (Some (bundle_id b))).
Proof.
  intros [Hi He Hn Hm Hid] Hl Hs. unfold validate_bundle.
  assert (expected_scope_errors expected (bundle_scope b) "bundle_scope_mismatch" = Ok []) as ->.
  { destruct expected as [arg|]; [|reflexivity]. destruct Hs as (s & Ha & Hb). cbn [expected_scope_errors]. rewrite Ha, Hb.
    cbn. now rewrite bool_decide_eq_true_2. }
  cbn [mbind res_mbind]. rewrite Hi, check_items_accept by exact He. cbn [mbind res_mbind app].
  rewrite Hid. cbn [mbind res_mbind]. apply has_duplicates_false in Hn. rewrite Hn, <- Hm.
  rewrite bool_decide_eq_true_2 by reflexivity. unfold str_eqb. rewrite bool_decide_eq_true_2 by reflexivity.
  cbn [negb error_if app no_errors error_codes from_keys]. rewrite length_map. unfold evidence_report.
  cbn [er_error_codes er_evidence_count length]. rewrite invalid_if_false; [reflexivity|].
  destruct (Z.ltb_spec 100 (Z.of_nat (length es))); [lia | reflexivity].
Qed.

Lemma EvidenceScope_new_Ok t w c s : EvidenceScope_new t w c = Ok s ->
  _token t = Ok (s_tenant_id s) /\ _token w = Ok (s_workspace_id s) /\ _token c = Ok (s_collection_id s).
Proof.
  unfold EvidenceScope_new. intros H. apply bind_Ok in H as (t' & Ht & H). apply bind_Ok in H as (w' & Hw & H).
  apply bind_Ok in H as (c' & Hc & H). injection H as <-. auto.
Qed.

(** A scope that went through validation. *)
Definition scope_wf (s : EvidenceScope) : Prop :=
  EvidenceScope_new (VStr (s_tenant_id s)) (VStr (s_workspace_id s)) (VStr (s_collection_id s)) = Ok s.

Lemma scope_new_eq t w c t' w' c' : _token t = Ok t' -> _token w = Ok w' -> _token c = Ok c' ->
  EvidenceScope_new t w c = Ok (mk_scope t' w' c').
Proof. intros Ht Hw Hc. unfold EvidenceScope_new. now rewrite Ht, Hw, Hc. Qed.

Lemma scope_of_wf e : evidence_wf e -> scope_of e = Ok (mk_scope (tenant_id e) (workspace_id e) (collection_id e)).
Proof. intros [[] _ _ _]. now apply scope_new_eq. Qed.

Lemma in_scope_eq t w c e : in_scope t w c e = true <-> tenant_id e = t /\ workspace_id e = w /\ collection_id e = c.
Proof. unfold in_scope. rewrite !andb_true_iff, !str_eqb_eq. tauto. Qed.

(** What a successful [EvidenceBundle.build] returns. *)
Lemma EvidenceBundle_build_Ok t w c q items b : EvidenceBundle_build t w c q items = Ok b ->
  exists es, items = map Item es /\ evidence b = map Item es
  /\ (_token t = Ok (b_tenant_id b) /\ _token w = Ok (b_workspace_id b) /\ _token c = Ok (b_collection_id b)
      /\ _bounded_text q _MAX_QUERY_CHARS true = Ok (query b))
  /\ (length es <= 100)%nat
  /\ (forall e, In e es -> in_scope (b_tenant_id b) (b_workspace_id b) (b_collection_id b) e = true)
  /\ NoDup (map evidence_id es)
  /\ citation_map b = citations_for (map evidence_id es)
  /\ bundle_server_id b = Ok (bundle_id b).
Proof.
  unfold EvidenceBundle_build. intros H.
  apply bind_Ok in H as (t' & Ht & H). apply bind_Ok in H as (w' & Hw & H). apply bind_Ok in H as (c' & Hc & H).
  apply bind_Ok in H as (q' & Hq & H). apply bind_Ok in H as (u & Hi & H). apply bind_Ok in H as (bid & Hb & H).
  apply raise_if_Ok, negb_false_iff, all_items in Hi. rewrite Hi in Hb |- *.
  set (es := evidence_of items) in *. exists es. unfold EvidenceBundle_validate in H.
  rewrite (id_field_str _ _ (content_id_form "eb_" _ _ eq_refl Hb)), (_token_again _ _ Ht), (_token_again _ _ Hw),
    (_token_again _ _ Hc), (_bounded_text_again _ _ _ _ Hq) in H. cbn [mbind res_mbind] in H.
  apply bind_Ok in H as (u1 & Hl & H). apply bind_Ok in H as (u2 & _ & H).
  apply invalid_if_Ok in Hl. unfold validate_scope_citations_and_identity in H.
  cbn [b_tenant_id b_workspace_id b_collection_id evidence citation_map bundle_id] in H.
  rewrite evidence_of_items in H.
  apply bind_Ok in H as (u3 & Hs & H). apply bind_Ok in H as (u4 & Hn & H). apply bind_Ok in H as (u5 & _ & H).
  change (bundle_server_id _) with (server_bundle_id t' w' c' q' (map Item es)) in H. rewrite Hb in H.
  cbn [mbind res_mbind] in H. apply bind_Ok in H as (u6 & _ & H). injection H as <-.
  apply invalid_if_Ok in Hs, Hn. apply negb_false_iff in Hs. rewrite forallb_forall in Hs.
  apply has_duplicates_false in Hn. bool_to_prop. cbn. repeat split; auto. lia.
Qed.

Lemma built_bundle_valid t w c q es b : EvidenceBundle_build t w c q (map Item es) = Ok b ->
  (forall e, In e es -> evidence_wf e) ->
  bundle_valid b es /\ (length es <= 100)%nat
  /\ bundle_scope b = Ok (mk_scope (b_tenant_id b) (b_workspace_id b) (b_collection_id b)).
Proof.
  intros H He. apply EvidenceBundle_build_Ok in H as (es' & Hes & Hi & (Ht & Hw & Hc & _) & Hl & Hs & Hn & Hm & Hid).
  assert (es' = es) as -> by (rewrite <- (evidence_of_items es'), <- Hes; apply evidence_of_items).
  assert (bundle_scope b = Ok (mk_scope (b_tenant_id b) (b_workspace_id b) (b_collection_id b))) as Hb.
  { apply scope_new_eq; eapply _token_again; eassumption. }
  split; [|auto]. split; auto. intros e Hin. split.
  - eexists. split; [apply scope_of_wf; auto|]. apply Hs, in_scope_eq in Hin as (-> & -> & ->). exact Hb.
  - now apply He.
Qed.

(** ** Issuing from candidates *)

Lemma wrap_Ok {A} (m : eres A) code a : wrap m code = Ok a <-> m = Ok a.
Proof. unfold wrap, fails. destruct m as [x|[| | | |c]]; cbn; split; congruence. Qed.

Lemma scope_differs_false s read : scope_differs s read = false <->
  read "tenant_id" = VStr (s_tenant_id s) /\ read "workspace_id" = VStr (s_workspace_id s)
  /\ read "collection_id" = VStr (s_collection_id s).
Proof.
  unfold scope_differs. cbn [existsb scope_fields fst snd].
  rewrite !orb_false_iff, !negb_false_iff, !is_str_eq. tauto.
Qed.

(** The record the fields of an issued item are read from. *)
Definition issued_from (self : EvidenceValidator) (c : candidate) (s : EvidenceScope)
    (given : option (list (string * pyval))) (d : list (string * pyval)) : Prop :=
  match given with
  | Some g => d = g
  | None => exists c', _resolve_authoritative self c s = Ok c' /\ _candidate_mapping c' = Some d
  end.

(** The [Evidence.issue] call on that record. *)
Definition issue_record (s : EvidenceScope) (d : list (string * pyval)) (version : pyval) : eres Evidence :=
  Evidence_issue (VStr (s_tenant_id s)) (VStr (s_workspace_id s)) (VStr (s_collection_id s))
    (_candidate_value d ["document_id"] VNone) version (_candidate_value d ["chunk_id"] VNone)
    (_candidate_value d ["source"; "document_filename"] VNone)
    (_candidate_value d ["checksum"; "content_checksum"] VNone)
    (_candidate_value d ["text"; "excerpt"] VNone)
    (_candidate_value d ["page_start"; "page"] VNone) (_candidate_value d ["page_end"] VNone)
    (_candidate_value d ["section"; "heading"] VNone)
    (_candidate_value d ["retrieval_score"; "score"] (VFloat (Fin 0)))
    (_candidate_value d ["reranking_score"; "rerank_score"; "bm25f_score"] (VFloat (Fin 0))).

(** The version the item gets: the caller's, or the record's. *)
Definition record_version (d : list (string * pyval)) (version : pyval) : pyval :=
  if is_none version then _candidate_value d ["document_version"; "version"] VNone else version.

Lemma issue_Ok self c scope ver given e : issue self c scope ver given = Ok e ->
  exists s d, _scope scope = Ok s /\ issued_from self c s given d
  /\ scope_differs s (fun name => dict_read name d) = false
  /\ issue_record s d (record_version d ver) = Ok e
  /\ slen (text e) <= max_text_chars self.
Proof.
  unfold issue. intros H. apply bind_Ok in H as (s & Hs & H). apply bind_Ok in H as (u & _ & H).
  apply bind_Ok in H as (c' & Hc & H). destruct (_candidate_mapping c') as [d|] eqn:Hd; [|discriminate].
  apply bind_Ok in H as (u1 & H1 & H). apply raise_if_Ok in H1. cbv zeta in H.
  apply bind_Ok in H as (u2 & _ & H). apply bind_Ok in H as (u3 & _ & H). apply bind_Ok in H as (u4 & H4 & H).
  apply bind_Ok in H as (u5 & _ & H). apply wrap_Ok in H. change (issue_record s d (record_version d ver) = Ok e) in H.
  exists s, d. split; [exact Hs|]. split.
  { destruct given as [g|]; cbn; [|eauto]. injection Hc as <-. cbn in Hd. congruence. }
  split; [exact H1|]. split; [exact H|].
  apply raise_if_Ok, orb_false_iff in H4 as [_ H4].
  apply Evidence_issue_Ok in H as (_ & _ & (_ & _ & Ht & _) & _).
  apply _bounded_text_Ok in Ht as ((x & Hx & ->) & _). rewrite Hx in H4. cbn in H4. bool_to_prop. lia.
Qed.

Lemma issue_wf self c scope ver given e s : issue self c scope ver given = Ok e -> _scope scope = Ok s -> scope_wf s ->
  evidence_wf e /\ scope_of e = Ok s /\ slen (text e) <= max_text_chars self.
Proof.
  intros H Hs Hw. apply issue_Ok in H as (s' & d & Hs' & _ & _ & H & Ht).
  assert (s' = s) as -> by congruence. apply Evidence_issue_Ok in H as (He & (H1 & H2 & H3 & _) & _).
  split; [exact He|]. split; [|exact Ht]. rewrite (scope_of_wf _ He).
  apply EvidenceScope_new_Ok in Hw as (W1 & W2 & W3). destruct s as [a b c']; cbn in *. congruence.
Qed.

Lemma issue_all_Ok self scope ver cands : forall count es, issue_all self scope ver count cands = Ok es ->
  List.Forall2 (fun c e => issue self c scope ver None = Ok e) cands es
  /\ count + Z.of_nat (length es) <= Z.max count (max_bundle_items self).
Proof.
  induction cands as [|c cands IH]; intros count es; cbn [issue_all].
  - intros [= <-]. split; [constructor | cbn; lia].
  - intros H. apply bind_Ok in H as (u & Hl & H). apply bind_Ok in H as (e & He & H).
    apply bind_Ok in H as (es' & Hes & H). injection H as <-. apply raise_if_Ok in Hl.
    apply IH in Hes as [Hf Hn]. split; [now constructor|]. bool_to_prop. cbn [length]. lia.
Qed.
