(* ===== verification/EvidenceProperties.v ===== *)
(** * Properties of evidence: issued bundles are accepted everywhere, an
    identifier binds its content, citations resolve only inside the bundle,
    and the canonical authority is the only source of the issued fields. *)

From Stdlib Require Import Ascii String.
From stdpp Require Import strings gmap.
From S2P Require Import Prelude PyFloat PyStr PyVal CanonicalJson Sha256 Evidence EvidenceValidator EvidenceLemmas.

Local Open Scope string_scope.
Local Open Scope Z_scope.
Local Open Scope list_scope.

(** ** A concrete bundle *)

Definition sample_scope : EvidenceScope := mk_scope "tenant-1" "ws-1" "rag_phase0".

Definition sample_candidate (chunk txt : string) : candidate :=
  C_mapping [("tenant_id", VStr "tenant-1"); ("workspace_id", VStr "ws-1"); ("collection_id", VStr "rag_phase0");
             ("document_id", VStr "doc-1"); ("version", VStr "v1"); ("chunk_id", VStr chunk);
             ("source", VStr "manual.pdf"); ("checksum", VStr "abc"); ("excerpt", VStr txt);
             ("page", VInt 3); ("score", VFloat (lit 1 2))].

Definition sample_candidates : list candidate :=
  [sample_candidate "c1" " Dogs need 10 ml of water. "; sample_candidate "c2" "Cats sleep."].

Definition sample_bundle : eres EvidenceBundle :=
  build_bundle default_validator (VStr "How much water?") sample_candidates (Scope_typed sample_scope) VNone.

(** ** Issued bundles *)

(** Whatever the retrieval candidates, a bundle that is issued is accepted:
    it holds one well-formed item per candidate, within the item and text
    limits, every item in the caller's scope under its content-derived
    identifier, and every validator accepts it for that scope without an
    error. *)
Theorem evidence_bundle_issued self q cands scope ver b s self' :
  build_bundle self q cands scope ver = Ok b -> _scope scope = Ok s -> scope_wf s ->
  exists es, evidence b = map Item es /\ length es = length cands
  /\ Z.of_nat (length es) <= Z.max 0 (max_bundle_items self)
  /\ (forall e, In e es -> evidence_wf e /\ scope_of e = Ok s /\ slen (text e) <= max_text_chars self)
  /\ validate_bundle self' (V_bundle b) (Some scope)
     = Ok (mk_evidence_report true [] (Z.of_nat (length cands)) (Some (bundle_id b))).
Proof.
  intros H Hs Hw. unfold build_bundle in H. apply bind_Ok in H as (es & Hes & H).
  rewrite Hs in H. apply wrap_Ok in H. apply issue_all_Ok in Hes as [Hf Hn]. cbn in Hn.
  assert (forall e, In e es -> evidence_wf e /\ scope_of e = Ok s /\ slen (text e) <= max_text_chars self) as He.
  { clear H Hn. induction Hf as [|c e cands es Hc _ IH]; [intros e []|].
    intros e' [<-|Hin]; [eapply issue_wf; eassumption | auto]. }
  pose proof (List.Forall2_length Hf) as Hl. unfold build_from_scope in H.
  pose proof (EvidenceBundle_build_Ok _ _ _ _ _ _ H) as (es' & Hes & Hi & (Ht & Hwo & Hc & _) & _).
  assert (es' = es) as -> by (rewrite <- (evidence_of_items es'), <- Hes; apply evidence_of_items).
  apply built_bundle_valid in H as (Hv & Hle & Hb); [|intros e Hin; now apply He].
  exists es. split; [exact Hi|]. split; [auto|]. split; [exact Hn|]. split; [exact He|].
  rewrite Hl. apply validate_bundle_accepts; [exact Hv | exact Hle|]. exists s. split; [exact Hs|].
  apply EvidenceScope_new_Ok in Hw as (W1 & W2 & W3). rewrite Hb. destruct s; cbn in *. congruence.
Qed.

Lemma evidence_bundle_issued_witness : exists b,
  sample_bundle = Ok b
  /\ validate_bundle default_validator (V_bundle b) (Some (Scope_typed sample_scope))
     = Ok (mk_evidence_report true [] 2 (Some (bundle_id b))).
Proof.
  destruct sample_bundle as [b|e] eqn:E; [|exfalso; revert E; vm_compute; discriminate].
  exists b. split; [reflexivity|].
  destruct (evidence_bundle_issued default_validator (VStr "How much water?") sample_candidates
              (Scope_typed sample_scope) VNone b sample_scope default_validator E eq_refl)
    as (es & _ & _ & _ & _ & H).
  - vm_compute. reflexivity.
  - exact H.
Defined.

(** ** Identifiers bind their content *)

(** Two different payloads with the same identifier: a collision of the
    truncated SHA-256 digest. *)
Definition collide (prefix : string) (p1 p2 : pyval) : Prop :=
  p1 <> p2 /\ exists i, content_id prefix p1 = Ok i /\ content_id prefix p2 = Ok i.

Definition evidence_payload (e : Evidence) : pyval := _evidence_payload (evidence_fields e).
Definition bundle_payload (b : EvidenceBundle) : pyval :=
  _bundle_payload (b_tenant_id b) (b_workspace_id b) (b_collection_id b) (query b) (evidence b).

Lemma opt_int_inj a b : opt_int a = opt_int b -> a = b.
Proof. destruct a, b; cbn; congruence. Qed.

Lemma opt_str_inj a b : opt_str a = opt_str b -> a = b.
Proof. destruct a, b; cbn; congruence. Qed.

Lemma evidence_payload_eq e :
  evidence_payload e = VDict
    [("tenant_id", VStr (tenant_id e)); ("workspace_id", VStr (workspace_id e));
     ("collection_id", VStr (collection_id e)); ("document_id", VStr (document_id e));
     ("document_version", VStr (document_version e)); ("chunk_id", VStr (chunk_id e));
     ("source", VStr (source e)); ("page_start", opt_int (page_start e)); ("page_end", opt_int (page_end e));
     ("section", opt_str (section e)); ("checksum", VStr (checksum e)); ("text", VStr (text e));
     ("retrieval_score", VFloat (retrieval_score e)); ("reranking_score", VFloat (reranking_score e))].
Proof. reflexivity. Qed.

Lemma evidence_payload_inj e1 e2 : evidence_id e1 = evidence_id e2 -> evidence_payload e1 = evidence_payload e2 -> e1 = e2.
Proof.
  intros Hi H. rewrite !evidence_payload_eq in H. injection H. destruct e1, e2; cbn in *.
  intros. subst. f_equal; auto using opt_int_inj, opt_str_inj.
Qed.

(** One item: the same identifier is the same item, or a collision. *)
Lemma evidence_binding e1 e2 :
  server_evidence_id (evidence_fields e1) = Ok (evidence_id e1) ->
  server_evidence_id (evidence_fields e2) = Ok (evidence_id e2) ->
  evidence_id e1 = evidence_id e2 -> e1 = e2 \/ collide "ev_" (evidence_payload e1) (evidence_payload e2).
Proof.
  intros H1 H2 Hi. destruct (decide (e1 = e2)) as [->|Hne]; [auto|]. right. split.
  - intros E. now apply Hne, evidence_payload_inj.
  - exists (evidence_id e1). split; [exact H1|]. rewrite Hi. exact H2.
Qed.

Lemma evidence_list_binding es1 : forall es2,
  (forall e, In e es1 -> server_evidence_id (evidence_fields e) = Ok (evidence_id e)) ->
  (forall e, In e es2 -> server_evidence_id (evidence_fields e) = Ok (evidence_id e)) ->
  map evidence_id es1 = map evidence_id es2 ->
  es1 = es2 \/ exists e1 e2, In e1 es1 /\ In e2 es2 /\ collide "ev_" (evidence_payload e1) (evidence_payload e2).
Proof.
  induction es1 as [|e1 es1 IH]; intros [|e2 es2] H1 H2 Hm; try discriminate Hm; [auto|].
  cbn in Hm. injection Hm as He Hm.
  destruct (evidence_binding e1 e2) as [->|Hc]; auto using in_eq.
  - destruct (IH es2) as [->|(a & b & Ha & Hb & Hc)]; auto using in_cons.
    right. exists a, b. auto using in_cons.
  - right. exists e1, e2. auto using in_eq.
Qed.

Lemma bundle_payload_inj b1 b2 es1 es2 :
  evidence b1 = map Item es1 -> evidence b2 = map Item es2 -> bundle_payload b1 = bundle_payload b2 ->
  b_tenant_id b1 = b_tenant_id b2 /\ b_workspace_id b1 = b_workspace_id b2
  /\ b_collection_id b1 = b_collection_id b2 /\ query b1 = query b2 /\ map evidence_id es1 = map evidence_id es2.
Proof.
  unfold bundle_payload, _bundle_payload. intros -> -> H. injection H as Ht Hw Hc Hq He.
  repeat split; auto. clear -He. revert es2 He.
  induction es1 as [|e1 es1 IH]; intros [|e2 es2] H; try discriminate H; [reflexivity|].
  cbn in H. injection H as H1 H. cbn. now rewrite H1, (IH es2 H).
Qed.


(** The same bundle issued again, from tidier candidates. *)
Definition sample_bundle_again : eres EvidenceBundle :=
  build_bundle default_validator (VStr " How much water?")
    [sample_candidate "c1 " "Dogs need 10 ml of water."; sample_candidate " c2" "Cats sleep. "]
    (Scope_typed sample_scope) VNone.

Definition accepted (r : eres EvidenceValidationReport) : bool :=
  match r with Ok r => er_valid r | Err _ => false end.


(** ** Citations *)

Lemma citations_for_Some ids s : is_Some (citations_for ids !! s) <-> In s ids.
Proof.
  unfold citations_for. rewrite <- not_eq_None_Some, <- not_elem_of_list_to_map.
  assert ((map (fun eid => (eid, citation_marker eid)) ids).*1 = ids) as ->.
  { induction ids as [|i ids IH]; cbn; [reflexivity | f_equal; exact IH]. }
  rewrite list_elem_of_In. destruct (in_dec String.string_dec s ids); tauto.
Qed.

Lemma filter_all {A} (P : A -> bool) l : length (List.filter P l) = length l <-> forallb P l = true.
Proof.
  induction l as [|x l IH]; cbn; [tauto|]. pose proof (List.filter_length_le P l).
  destruct (P x); cbn; [rewrite <- IH; lia | split; [lia | discriminate]].
Qed.

Lemma all_strings l : forallb is_nonempty_str l = true -> exists ids, l = map VStr ids /\ ~ In EmptyString ids.
Proof.
  induction l as [|x l IH]; cbn; [exists []; auto|]. intros [Hx Hl]%andb_true_iff.
  destruct (IH Hl) as (ids & -> & Hn). destruct x; try discriminate. exists (s :: ids). split; [reflexivity|].
  intros [->|Hin]; [discriminate | auto].
Qed.

Lemma citation_report_Ok r r' : citation_report r = Ok r' -> r' = r.
Proof. intros H. apply bind_Ok in H as (u & _ & [= <-]). reflexivity. Qed.

Lemma bundle_ids_nonempty b es i : bundle_valid b es -> In i (map evidence_id es) -> is_empty i = false.
Proof.
  intros [_ He _ _ _] Hi. apply in_map_iff in Hi as (e & <- & Hin). destruct (He e Hin) as [_ Hid].
  apply content_id_form in Hid; [|reflexivity]. destruct (evidence_id e); [discriminate | reflexivity].
Qed.

(** A list of identifiers passes the four checks. *)
Lemma citation_errors_spec b es ids : bundle_valid b es ->
  error_if (bool_decide (ids = [])) "citation_missing"
    ++ error_if (negb (forallb is_nonempty_str ids)) "citation_id_invalid"
    ++ error_if (negb (bool_decide (py_distinct ids = length ids))) "duplicate_citation"
    ++ error_if (negb (bool_decide (length (List.filter (resolves b) ids) = length ids))) "unknown_citation" = []
  <-> exists l, ids = map VStr l /\ l <> [] /\ NoDup l /\ forall i, In i l -> In i (citation_ids b).
Proof.
  intros Hv. assert (citation_ids b = map evidence_id es) as ->.
  { unfold citation_ids. rewrite (bv_items _ _ Hv). now rewrite evidence_of_items. }
  assert (forall i, resolves b (VStr i) = true <-> In i (map evidence_id es)) as Hr.
  { intros i. cbn. rewrite bool_decide_eq_true, (bv_map _ _ Hv). apply citations_for_Some. }
  rewrite !app_nil, !error_if_nil, bool_decide_eq_false, negb_false_iff, !neg_decide, filter_all. split.
  - intros (Hne & Hs & Hd & Hf). apply all_strings in Hs as (l & -> & _). exists l. split; [reflexivity|].
    split; [intros ->; now apply Hne|]. split.
    + apply py_distinct_NoDup in Hd; [now apply NoDup_fmap_1 in Hd|]. intros v (i & <- & _)%in_map_iff. eauto.
    + intros i Hi. rewrite forallb_forall in Hf. apply Hr, Hf, in_map, Hi.
  - intros (l & -> & Hne & Hn & Hin). split; [now destruct l|]. split; [|split].
    + apply forallb_forall. intros v (i & <- & Hi)%in_map_iff. cbn. rewrite (bundle_ids_nonempty b es i Hv); auto.
    + apply py_distinct_NoDup; [intros v (i & <- & _)%in_map_iff; eauto|].
      now apply (NoDup_fmap_2 VStr).
    + apply forallb_forall. intros v (i & <- & Hi)%in_map_iff. apply Hr. auto.
Qed.

(** Citations resolve only inside the server's bundle: a citation list is
    accepted exactly when the bundle itself is valid and the list is a
    non-empty sequence of distinct identifiers of its items; then every
    citation is counted as resolved. *)
Theorem evidence_citations_resolve self v cited r :
  validate_citations self v cited = Ok r ->
  (cr_valid r = true <->
   exists b es l, v = V_bundle b /\ bundle_valid b es /\ (forall s, cited <> VStr s)
     /\ py_iter cited = Some (map VStr l) /\ l <> [] /\ NoDup l /\ (forall i, In i l -> In i (citation_ids b)))
  /\ (cr_valid r = true -> cr_error_codes r = [] /\ cr_resolved_count r = cr_cited_count r).
Proof.
  intros H. destruct v as [b|e|]; cbn [validate_citations] in H.
  2, 3: apply citation_report_Ok in H as ->; cbn; split;
    [split; [discriminate | intros (? & ? & ? & [=] & _)] | discriminate].
  apply bind_Ok in H as (br & Hb & H). apply validate_bundle_spec in Hb as [Hb _].
  destruct (er_valid br) eqn:V; cbn [negb] in H.
  2: { apply citation_report_Ok in H as ->. cbn. split; [|discriminate]. split; [discriminate|].
       intros (b' & es & l & [= <-] & Hv & _). enough (false = true) by discriminate. apply Hb. cbn. eauto. }
  destruct (proj1 Hb eq_refl) as [(es & Hv) _]. destruct (py_iter cited) as [ids|] eqn:Hi.
  2: { destruct cited; try discriminate. }
  assert ((exists s, cited = VStr s) \/ forall s, cited <> VStr s) as [[s ->]|Hns].
  { destruct cited; eauto; right; discriminate. }
  { apply citation_report_Ok in H as ->. cbn. split; [|discriminate]. split; [discriminate|].
    intros (b' & es' & l & _ & _ & Hns & _). now destruct (Hns s). }
  assert ((raise_if (negb (forallb py_hashable ids)) EvTypeError;;
           let resolved := length (List.filter (resolves b) ids) in
           let errors := error_if (bool_decide (ids = [])) "citation_missing"
                ++ error_if (negb (forallb is_nonempty_str ids)) "citation_id_invalid"
                ++ error_if (negb (bool_decide (py_distinct ids = length ids))) "duplicate_citation"
                ++ error_if (negb (bool_decide (resolved = length ids))) "unknown_citation" in
           citation_report (mk_citation_report (no_errors errors) (error_codes errors)
                              (Z.of_nat (length ids)) (Z.of_nat resolved))) = Ok r) as H'.
  { destruct cited; try discriminate; try exact H. now destruct (Hns s). }
  clear H. apply bind_Ok in H' as (u & _ & H). cbv zeta in H. apply citation_report_Ok in H as ->.
  cbn [cr_valid cr_error_codes cr_resolved_count cr_cited_count]. rewrite no_errors_nil.
  pose proof (citation_errors_spec b es ids Hv) as Hc. split.
  - rewrite Hc. split.
    + intros (l & -> & Hl). exists b, es, l. auto.
    + intros (b' & es' & l & [= <-] & _ & _ & [= ->] & Hl). eauto.
  - intros E. rewrite E. split; [reflexivity|]. apply Hc in E as (l & -> & _ & _ & Hin).
    f_equal. apply filter_all, forallb_forall. intros v (i & <- & Hi')%in_map_iff. cbn.
    apply bool_decide_eq_true. rewrite (bv_map _ _ Hv). apply citations_for_Some.
    specialize (Hin i Hi'). unfold citation_ids in Hin. now rewrite (bv_items _ _ Hv), evidence_of_items in Hin.
Qed.

(** The identifiers of the sample's items, and one that is not issued. *)
Definition sample_ids : list string := match sample_bundle with Ok b => citation_ids b | Err _ => [] end.

Lemma evidence_citations_resolve_witness : exists b r,
  sample_bundle = Ok b
  /\ validate_citations default_validator (V_bundle b) (VList (map VStr ["ev_00000000000000000000000000000000"])) = Ok r
  /\ cr_valid r = false.
Proof.
  assert (match sample_bundle with
          | Ok b => match validate_citations default_validator (V_bundle b)
                            (VList (map VStr ["ev_00000000000000000000000000000000"])) with
                    | Ok r => forallb (fun i => negb (str_eqb i "ev_00000000000000000000000000000000")) (citation_ids b)
                    | Err _ => false
                    end
          | Err _ => false
          end = true) as H by (vm_compute; reflexivity).
  revert H. destruct sample_bundle as [b|]; [|discriminate].
  destruct (validate_citations default_validator (V_bundle b) (VList (map VStr ["ev_00000000000000000000000000000000"])))
    as [r|] eqn:R; [|discriminate].
  intros Hno. exists b, r. split; [reflexivity|]. split; [exact R|].
  destruct (evidence_citations_resolve _ _ _ _ R) as [H _].
  destruct (cr_valid r); [|reflexivity]. exfalso.
  destruct (proj1 H eq_refl) as (b' & es & l & Hb & _ & _ & Hl & _ & _ & Hin). injection Hb as <-.
  cbn in Hl. injection Hl as Hl. destruct l as [|i [|]]; try discriminate Hl. injection Hl as <-.
  specialize (Hin _ (or_introl eq_refl)). rewrite forallb_forall in Hno. apply Hno in Hin.
  apply negb_true_iff in Hin. unfold str_eqb in Hin. now rewrite bool_decide_eq_true_2 in Hin.
Defined.

(** ** The canonical authority *)

(** The identity a candidate claims agrees with the record's. *)
Definition claims (c : candidate) (d : list (string * pyval)) (name : string) : Prop :=
  _read c name = VNone \/ py_eqb (dict_read name d) (_read c name) = true.

(** With a canonical authority the issued item comes from the authority's
    record alone: the resolver answered a mapping inside the caller's scope
    that agrees with the candidate's document and chunk, every field of the
    item is read from that mapping, and any other candidate the resolver
    answers the same way yields the same item.  Without an authority, a
    validator that requires one issues nothing. *)
Theorem evidence_authority_final self c scope ver e :
  issue self c scope ver None = Ok e ->
  require_authority self = true \/ v_authority self <> No_authority ->
  exists resolve s d, v_authority self = Authority resolve /\ _scope scope = Ok s
  /\ resolve c s = Resolved (VDict d)
  /\ scope_differs s (fun name => dict_read name d) = false
  /\ claims c d "document_id" /\ claims c d "chunk_id"
  /\ issue_record s d (record_version d ver) = Ok e
  /\ (forall c' e', resolve c' s = Resolved (VDict d) -> issue self c' scope ver None = Ok e' -> e' = e).
Proof.
  assert (forall c e, issue self c scope ver None = Ok e ->
    require_authority self = true \/ v_authority self <> No_authority ->
    exists resolve s d, v_authority self = Authority resolve /\ _scope scope = Ok s
    /\ resolve c s = Resolved (VDict d) /\ scope_differs s (fun name => dict_read name d) = false
    /\ claims c d "document_id" /\ claims c d "chunk_id" /\ issue_record s d (record_version d ver) = Ok e) as Hone.
  { clear. intros c e H Ha. apply issue_Ok in H as (s & d & Hs & (c' & Hc & Hd) & Hsc & H & _).
    unfold _resolve_authoritative in Hc. destruct (v_authority self) as [| |resolve] eqn:Hv.
    - destruct Ha as [Ha|Ha]; [|contradiction]. rewrite Ha in Hc. discriminate.
    - discriminate.
    - exists resolve, s. destruct (resolve c s) as [v|code|] eqn:R; [|discriminate..].
      destruct v as [| | | | | |d']; try discriminate.
      apply bind_Ok in Hc as (u & _ & Hc). apply bind_Ok in Hc as (u' & Hid & Hc). injection Hc as <-.
      cbn in Hd. injection Hd as <-. exists d'. apply raise_if_Ok in Hid. cbn [existsb] in Hid.
      rewrite !orb_false_iff, !andb_false_iff, !negb_false_iff in Hid. destruct Hid as (H1 & H2 & _).
      assert (forall name, is_none (_read c name) = true \/ py_eqb (dict_read name d') (_read c name) = true -> claims c d' name) as Hcl.
      { intros name [Hn|Hn]; [left | right; exact Hn]. destruct (_read c name); [reflexivity | discriminate..]. }
      do 4 (split; [auto|]). split; [|split]; auto. }
  intros H Ha. destruct (Hone c e H Ha) as (resolve & s & d & Hv & Hs & Hr & Hsc & H1 & H2 & Hi).
  exists resolve, s, d. do 7 (split; [assumption|]). intros c' e' Hr' H'.
  destruct (Hone c' e' H' Ha) as (resolve' & s' & d' & Hv' & Hs' & Hr2 & _ & _ & _ & Hi').
  assert (resolve' = resolve) as -> by congruence. assert (s' = s) as -> by congruence.
  assert (d' = d) as -> by congruence. congruence.
Qed.

(** A resolver that knows one document. *)
Definition sample_record : list (string * pyval) :=
  [("tenant_id", VStr "tenant-1"); ("workspace_id", VStr "ws-1"); ("collection_id", VStr "rag_phase0");
   ("document_id", VStr "doc-1"); ("version", VStr "v1"); ("chunk_id", VStr "c1");
   ("source", VStr "manual.pdf"); ("checksum", VStr "abc"); ("text", VStr "Canonical text.")].

Definition sample_resolver (c : candidate) (s : EvidenceScope) : resolver_result := Resolved (VDict sample_record).

Definition authoritative_validator : EvidenceValidator :=
  mk_validator 20 _MAX_TEXT_CHARS (lit 80 100) (Authority sample_resolver) true.

(** The candidate's forged text is not the item's. *)
Lemma evidence_authority_final_witness : exists e,
  issue authoritative_validator (sample_candidate "c1" "Forged text.") (Scope_typed sample_scope) VNone None = Ok e
  /\ exists d, sample_resolver (sample_candidate "c1" "Forged text.") sample_scope = Resolved (VDict d)
     /\ issue_record sample_scope d (record_version d VNone) = Ok e.
Proof.
  destruct (issue authoritative_validator (sample_candidate "c1" "Forged text.") (Scope_typed sample_scope) VNone None)
    as [e|e] eqn:E; [|exfalso; revert E; vm_compute; discriminate].
  exists e. split; [reflexivity|].
  destruct (evidence_authority_final _ _ _ _ _ E (or_introl eq_refl)) as (resolve & s & d & Hv & Hs & Hr & _ & _ & _ & Hi & _).
  injection Hv as <-. injection Hs as <-. exists d. split; [exact Hr | exact Hi].
Defined.

(** ** Claims *)

Lemma claim_report_Ok r r' : claim_report r = Ok r' -> r' = r.
Proof. intros H. apply bind_Ok in H as (u & _ & [= <-]). reflexivity. Qed.

Lemma error_codes_nil errors : error_codes errors = [] <-> errors = [].
Proof. destruct errors as [|x l]; cbn; [tauto|]. split; discriminate. Qed.

(** An accepted citation report is one without error codes. *)
Lemma citations_valid_codes self v cited r : validate_citations self v cited = Ok r ->
  cr_error_codes r = [] <-> cr_valid r = true.
Proof.
  assert (forall ok codes m n, (codes = [] <-> ok = true) ->
    citation_report (mk_citation_report ok codes m n) = Ok r -> cr_error_codes r = [] <-> cr_valid r = true) as Hk.
  { intros ok codes m n Hc H. apply citation_report_Ok in H as ->. exact Hc. }
  assert (forall code : string, [code] = [] <-> false = true) as Hone by (split; discriminate).
  destruct v as [b|e|]; cbn [validate_citations]; [|now apply Hk..]. intros H. apply bind_Ok in H as (br & _ & H).
  destruct (negb (er_valid br)); [now apply Hk in H|].
  destruct cited; try (now apply Hk in H); try discriminate H; cbn [py_iter] in H;
    apply bind_Ok in H as (u & _ & H); (apply Hk in H; [exact H|]);
    now rewrite error_codes_nil, no_errors_nil.
Qed.

(** A claim is supported only if its citations are, and it is cut off
    exactly at the coverage threshold: the report is valid precisely when the
    citations are accepted, the claim is a text within the limit with at
    least one meaningful word, and the fraction of those words that occur in
    the texts of the cited items is not below the threshold; the counts of a
    claim that is read are those of these two word sets. *)
Theorem evidence_claim_support self claim v cited r :
  validate_claim_support self claim v cited = Ok r ->
  exists cr, validate_citations self v cited = Ok cr
  /\ (cs_valid r = true <->
      cr_valid cr = true /\ exists t words,
        _bounded_text claim (max_text_chars self) true = Ok t /\ evidence_tokens_of v cited = Ok words
        /\ _meaningful_tokens t <> ∅
        /\ flt (coverage_of (size (_meaningful_tokens t ∩ words)) (size (_meaningful_tokens t)))
               (min_claim_token_coverage self) = false)
  /\ cs_matched_token_count r <= cs_claim_token_count r.
Proof.
  unfold validate_claim_support. intros H. apply bind_Ok in H as (cr & Hc & H). exists cr. split; [exact Hc|].
  rewrite <- (citations_valid_codes _ _ _ _ Hc). cbv zeta in H. destruct (_bounded_text claim (max_text_chars self) true) as [t|err] eqn:Ht.
  2: { apply claim_report_Ok in H as ->. cbn. split; [|lia]. split; [discriminate|].
       intros (_ & t & w & [=] & _). }
  apply bind_Ok in H as (words & Hw & H). apply claim_report_Ok in H as ->.
  cbn [cs_valid cs_matched_token_count cs_claim_token_count]. split.
  - rewrite no_errors_nil, !app_nil, !error_if_nil, bool_decide_eq_false. split.
    + intros (H1 & H2 & H3). split; [exact H1|]. eauto 10.
    + intros (H1 & t' & w' & [= <-] & Hw' & H2 & H3). assert (w' = words) as -> by congruence. auto.
  - apply inj_le, subseteq_size. set_solver.
Qed.

Lemma evidence_claim_support_witness : exists b r cr,
  sample_bundle = Ok b
  /\ validate_claim_support default_validator (VStr "Dogs drink water") (V_bundle b) (VList (map VStr sample_ids)) = Ok r
  /\ validate_citations default_validator (V_bundle b) (VList (map VStr sample_ids)) = Ok cr
  /\ cs_matched_token_count r <= cs_claim_token_count r.
Proof.
  assert (match sample_bundle with
          | Ok b => is_ok (validate_claim_support default_validator (VStr "Dogs drink water") (V_bundle b)
                             (VList (map VStr sample_ids)))
          | Err _ => false
          end = true) as H by (vm_compute; reflexivity).
  revert H. generalize sample_ids as ids. intros ids. destruct sample_bundle as [b|]; [|discriminate].
  destruct (validate_claim_support default_validator (VStr "Dogs drink water") (V_bundle b) (VList (map VStr ids)))
    as [r|] eqn:R; [|discriminate]. intros _.
  destruct (evidence_claim_support _ _ _ _ _ R) as (cr & Hc & _ & Hle). exists b, r, cr. auto.
Defined.

(** ** Limits *)

Lemma from_keys_length l : forall seen, (length (from_keys seen l) <= length l)%nat.
Proof.
  induction l as [|x l IH]; intros seen; cbn; [lia|]. pose proof (IH seen). pose proof (IH (x :: seen)).
  destruct (str_in x seen); cbn; lia.
Qed.

Lemma error_if_length b code : (length (error_if b code) <= 1)%nat.
Proof. destruct b; cbn; lia. Qed.

(** The check of a list of hashable values against a valid bundle. *)
Definition citation_errors (b : EvidenceBundle) (ids : list pyval) : list string :=
  error_if (bool_decide (ids = [])) "citation_missing"
  ++ error_if (negb (forallb is_nonempty_str ids)) "citation_id_invalid"
  ++ error_if (negb (bool_decide (py_distinct ids = length ids))) "duplicate_citation"
  ++ error_if (negb (bool_decide (length (List.filter (resolves b) ids) = length ids))) "unknown_citation".

Lemma validate_citations_list self b es ids :
  bundle_valid b es -> (length es <= 100)%nat -> forallb py_hashable ids = true ->
  validate_citations self (V_bundle b) (VList ids)
  = if 100 <? Z.of_nat (length ids) then Err EvValueError
    else Ok (mk_citation_report (no_errors (citation_errors b ids)) (error_codes (citation_errors b ids))
               (Z.of_nat (length ids)) (Z.of_nat (length (List.filter (resolves b) ids)))).
Proof.
  intros Hv Hl Hh. cbn [validate_citations]. rewrite (validate_bundle_accepts self b es None Hv Hl I).
  cbn [mbind res_mbind er_valid negb py_iter]. rewrite Hh. cbn [negb raise_if mbind res_mbind]. cbv zeta.
  change (error_if _ "citation_missing" ++ _) with (citation_errors b ids).
  assert (length (error_codes (citation_errors b ids)) <= 4)%nat as H4.
  { unfold error_codes. etransitivity; [apply from_keys_length|]. unfold citation_errors. rewrite !length_app.
    repeat match goal with |- context [length (error_if ?b ?c)] =>
      lazymatch goal with H : (length (error_if b c) <= 1)%nat |- _ => fail | _ => pose proof (error_if_length b c) end end.
    lia. }
  pose proof (List.filter_length_le (resolves b) ids) as Hr.
  unfold citation_report. cbn [cr_error_codes cr_cited_count cr_resolved_count].
  replace (16 <? Z.of_nat (length (error_codes (citation_errors b ids)))) with false by lia. cbn [orb].
  destruct (Z.ltb_spec 100 (Z.of_nat (length ids))); [reflexivity|].
  replace (100 <? Z.of_nat (length (List.filter (resolves b) ids))) with false by lia. reflexivity.
Qed.

(** The citation check of a list of identifiers, as a decision layer sees it. *)
Lemma cited_ids_valid self b es l : bundle_valid b es -> (length es <= 100)%nat -> (length l <= 100)%nat ->
  exists r, validate_citations self (V_bundle b) (VList (map VStr l)) = Ok r
  /\ (cr_valid r = true <-> l <> [] /\ NoDup l /\ forall i, In i l -> In i (citation_ids b)).
Proof.
  intros Hv He Hl. rewrite (validate_citations_list self b es _ Hv He).
  2: { apply forallb_forall. intros v (s & <- & _)%in_map_iff. reflexivity. }
  rewrite length_map. replace (100 <? Z.of_nat (length l)) with false by lia. eexists. split; [reflexivity|].
  cbn [cr_valid]. rewrite no_errors_nil. unfold citation_errors. rewrite (citation_errors_spec b es _ Hv). split.
  - intros (l' & Hm & H). apply (inj (map VStr)) in Hm as <-. exact H.
  - intros H. exists l. auto.
Qed.

(** On a valid bundle a citation list never makes the check crash unless
    it is too long: for a list of hashable values the check returns a report
    exactly when there are at most 100 citations, and otherwise raises the
    report model's [ValidationError] instead of answering. *)
Theorem evidence_citation_limit self b es ids :
  bundle_valid b es -> (length es <= 100)%nat -> forallb py_hashable ids = true ->
  (Z.of_nat (length ids) <= 100 -> is_ok (validate_citations self (V_bundle b) (VList ids)) = true)
  /\ (100 < Z.of_nat (length ids) -> validate_citations self (V_bundle b) (VList ids) = Err EvValueError).
Proof.
  intros Hv Hl Hh. rewrite (validate_citations_list self b es ids Hv Hl Hh).
  split; intros Hn; destruct (Z.ltb_spec 100 (Z.of_nat (length ids))); reflexivity || lia.
Qed.

Lemma evidence_citation_limit_witness : exists b es, sample_bundle = Ok b /\ bundle_valid b es
  /\ validate_citations default_validator (V_bundle b) (VList (repeat (VStr "x") 101)) = Err EvValueError.
Proof.
  destruct sample_bundle as [b|e] eqn:E; [|exfalso; revert E; vm_compute; discriminate].
  destruct (evidence_bundle_issued default_validator _ _ (Scope_typed sample_scope) VNone b sample_scope
              default_validator E eq_refl) as (es & _ & Hl & _ & _ & H); [vm_compute; reflexivity|].
  apply validate_bundle_spec in H as [H _]. destruct (proj1 H eq_refl) as [(es' & Hv) _].
  exists b, es'. split; [reflexivity|]. split; [exact Hv|].
  refine (proj2 (evidence_citation_limit default_validator b es' (repeat (VStr "x") 101) Hv _ eq_refl) _).
  - revert E. destruct Hv as [Hi _ _ _ _]. clear Hl. intros E. unfold sample_bundle, build_bundle in E.
    apply bind_Ok in E as (l & _ & E). cbn [_scope mbind res_mbind] in E. apply wrap_Ok in E.
    apply EvidenceBundle_build_Ok in E as (es2 & _ & Hi2 & _ & Hle & _).
    assert (es2 = es') as ->; [|exact Hle]. rewrite <- (evidence_of_items es2), <- (evidence_of_items es'). congruence.
  - reflexivity.
Defined.
