(* ===== verification/Decision.v ===== *)
(** * The decision layer (packages/decision, contracts.py and layer.py)

    The signals of one request, the policy, and the fixed-order evaluation that
    turns them into one of five actions.  [X_new] is the pydantic constructor
    of the model [X] on the values of its fields; enum fields are typed. *)

From Stdlib Require Import Ascii String.
From stdpp Require Import strings gmap.
From S2P Require Import Prelude PyFloat PyStr PyVal Evidence EvidenceValidator.

Local Open Scope string_scope.
Local Open Scope Z_scope.
Local Open Scope list_scope.

Inductive DecisionAction : Type := ANSWER | RETRIEVE_AGAIN | ASK_FOR_CLARIFICATION | ABSTAIN | ESCALATE.
Inductive DomainRisk : Type := risk_UNKNOWN | LOW | MEDIUM | HIGH | CRITICAL.
Inductive IntentClarity : Type := clarity_UNKNOWN | CLEAR | AMBIGUOUS | UNSUPPORTED.
Inductive CitationSupportStatus : Type := PASS | FAIL | INCONCLUSIVE | NOT_RUN.

#[export] Instance DecisionAction_eq_dec : EqDecision DecisionAction.
Proof. solve_decision. Defined.
#[export] Instance DomainRisk_eq_dec : EqDecision DomainRisk.
Proof. solve_decision. Defined.
#[export] Instance IntentClarity_eq_dec : EqDecision IntentClarity.
Proof. solve_decision. Defined.

(** ** Field validators *)

Definition unit_float (f : pyfloat) : eres pyfloat :=
  invalid_if (negb (fisfinite f && fle (Fin 0) f && fle f (lit 1 1)));; Ok f.

Definition _bounded_signal (v : pyval) : eres pyfloat :=
  match v with
  | VInt n => match float_of_int n with Some f => unit_float f | None => Err EvOverflowError end
  | VFloat f => unit_float f
  | _ => Err EvValueError
  end.

Definition optional_signal (v : pyval) : eres (option pyfloat) :=
  match v with VNone => Ok None | _ => f ← _bounded_signal v; Ok (Some f) end.

Definition code_char (c : ascii) : bool := is_lower_az c || is_digit c || is_char 95 c.
Definition _SAFE_CODE : string -> bool := matches_head_tail is_lower_az code_char 63.

Definition _safe_code (v : pyval) : eres string :=
  match v with VStr s => invalid_if (negb (_SAFE_CODE (strip s)));; Ok (strip s) | _ => Err EvValueError end.

(** A strict [int] within [ge]/[le]. *)
Definition int_field (lo hi : Z) (v : pyval) : eres Z :=
  match v with VInt n => invalid_if (negb ((lo <=? n) && (n <=? hi)));; Ok n | _ => Err EvValueError end.

Definition bool_field (v : pyval) : eres bool := match v with VBool b => Ok b | _ => Err EvValueError end.

(** [str | None] with [min_length=1, max_length=128]. *)
Definition scope_field (v : pyval) : eres (option string) :=
  match v with
  | VNone => Ok None
  | VStr s => invalid_if (negb ((1 <=? slen s) && (slen s <=? 128)));; Ok (Some s)
  | _ => Err EvValueError
  end.

(** ** The models *)

Record UserIntent : Type := mk_intent { intent_code : string; clarity : IntentClarity }.

Definition UserIntent_new (a_code : pyval) (a_clarity : IntentClarity) : eres UserIntent :=
  c ← _safe_code a_code; Ok (mk_intent c a_clarity).

Record CitationSupportMetrics : Type := mk_metrics {
  m_status : CitationSupportStatus;
  citation_precision : option pyfloat; citation_recall : option pyfloat;
  citation_completeness : option pyfloat; unsupported_claim_rate : option pyfloat; faithfulness : option pyfloat;
  evaluated_claims : Z; m_source : string }.

Definition CitationSupportMetrics_new (status : CitationSupportStatus)
    (precision recall completeness unsupported faithful claims src : pyval) : eres CitationSupportMetrics :=
  raise_if (existsb overflows [precision; recall; completeness; unsupported; faithful]) EvOverflowError;;
  p ← optional_signal precision; r ← optional_signal recall; c ← optional_signal completeness;
  u ← optional_signal unsupported; f ← optional_signal faithful;
  n ← int_field 0 10000 claims; s ← _safe_code src;
  Ok (mk_metrics status p r c u f n s).

Record DecisionPolicy : Type := mk_policy {
  min_evidence_count : Z; min_retrieval_quality : pyfloat; min_citation_support : pyfloat;
  require_citation_support_metrics : bool;
  min_citation_precision : pyfloat; min_citation_recall : pyfloat; min_citation_completeness : pyfloat;
  max_unsupported_claim_rate : pyfloat; min_faithfulness : pyfloat; require_faithfulness : bool;
  required_citation_support_source : option string;
  min_provider_confidence_signal : pyfloat; max_retrieval_attempts : Z;
  answerable_risk_levels : list DomainRisk }.

Definition optional_code (v : pyval) : eres (option string) :=
  match v with VNone => Ok None | _ => s ← _safe_code v; Ok (Some s) end.

Definition DecisionPolicy_new (count quality support require_metrics precision recall completeness unsupported
    faithful require_faithful source_code provider attempts : pyval) (levels : list DomainRisk) : eres DecisionPolicy :=
  raise_if (existsb overflows [quality; support; precision; recall; completeness; unsupported; faithful; provider])
    EvOverflowError;;
  n ← int_field 1 100 count; q ← _bounded_signal quality; s ← _bounded_signal support;
  rm ← bool_field require_metrics;
  p ← _bounded_signal precision; r ← _bounded_signal recall; c ← _bounded_signal completeness;
  u ← _bounded_signal unsupported; f ← _bounded_signal faithful; rf ← bool_field require_faithful;
  src ← optional_code source_code; pr ← _bounded_signal provider; a ← int_field 0 10 attempts;
  Ok (mk_policy n q s rm p r c u f rf src pr a levels).

(** The fields' default values. *)
Definition default_policy : DecisionPolicy :=
  mk_policy 1 (lit 65 100) (lit 80 100) false (lit 80 100) (lit 80 100) (lit 80 100) (Fin 0) (lit 80 100) false None
    (lit 60 100) 1 [LOW].

Record DecisionInput : Type := mk_input {
  evidence_bundle : option EvidenceBundle;
  i_tenant_id : option string; i_workspace_id : option string; i_collection_id : option string;
  retrieval_quality : pyfloat; evidence_count : Z; citation_support : pyfloat;
  citation_support_metrics : option CitationSupportMetrics;
  provider_confidence_signal : option pyfloat;
  domain_risk : DomainRisk; user_intent : UserIntent; policy : DecisionPolicy;
  retrieval_attempt : Z; retrieval_available : bool; integrity_ok : bool; policy_allows_answer : bool;
  human_review_required : bool; cited_evidence_ids : option (list string) }.

(** [tuple[str, ...] | None] from a list or tuple. *)
Definition citation_ids_field (v : pyval) : eres (option (list string)) :=
  match v with
  | VNone => Ok None
  | VList l =>
      ids ← res_mapM (fun x => match x with VStr s => Ok s | _ => Err EvValueError end) l;
      Ok (Some ids)
  | _ => Err EvValueError
  end.

Definition opt_scope (t w c : option string) : option (string * string * string) :=
  match t, w, c with Some t, Some w, Some c => Some (t, w, c) | _, _, _ => None end.

Definition request_scope (i : DecisionInput) : eres (option EvidenceScope) :=
  match i_tenant_id i with
  | None => Ok None
  | Some t =>
      s ← EvidenceScope_new (VStr t) (opt_str (i_workspace_id i)) (opt_str (i_collection_id i)); Ok (Some s)
  end.

(** [validate_scope_and_bundle_count]; a [ValidationError] inside it is one of
    the model's. *)
Definition validate_scope_and_bundle_count (i : DecisionInput) : eres DecisionInput :=
  let values := [i_tenant_id i; i_workspace_id i; i_collection_id i] in
  invalid_if (existsb (fun v => bool_decide (is_Some v)) values && negb (forallb (fun v => bool_decide (is_Some v)) values));;
  match evidence_bundle i with
  | None => Ok i
  | Some b =>
      invalid_if (negb (evidence_count i =? Z.of_nat (length (evidence b))));;
      match opt_scope (i_tenant_id i) (i_workspace_id i) (i_collection_id i) with
      | None => Ok i
      | Some (t, w, c) =>
          expected ← EvidenceScope_new (VStr t) (VStr w) (VStr c);
          own ← bundle_scope b;
          invalid_if (negb (bool_decide (own = expected)));;
          Ok i
      end
  end.

Definition DecisionInput_new (bundle : option EvidenceBundle)
    (tenant workspace collection quality count support : pyval) (metrics : option CitationSupportMetrics)
    (provider : pyval) (risk : DomainRisk) (intent : UserIntent) (pol : DecisionPolicy)
    (attempt available integrity allows review cited : pyval) : eres DecisionInput :=
  raise_if (existsb overflows [quality; support; provider]) EvOverflowError;;
  t ← scope_field tenant; w ← scope_field workspace; c ← scope_field collection;
  q ← _bounded_signal quality; n ← int_field 0 100 count; s ← _bounded_signal support;
  p ← optional_signal provider; a ← int_field 0 100 attempt;
  av ← bool_field available; ok ← bool_field integrity; al ← bool_field allows; hr ← bool_field review;
  ids ← citation_ids_field cited;
  validate_scope_and_bundle_count (mk_input bundle t w c q n s metrics p risk intent pol a av ok al hr ids).

Record Decision : Type := mk_decision {
  d_action : DecisionAction; d_reason_code : string; d_message : string; d_evidence_bundle_id : option string;
  d_retrieval_attempt : Z; d_retry_allowed : bool; d_requires_clarification : bool; d_requires_human_review : bool }.

Definition is_action (a b : DecisionAction) : bool := bool_decide (a = b).

(** [validate_action_flags]. *)
Definition validate_action_flags (d : Decision) : eres Decision :=
  invalid_if (xorb (d_retry_allowed d) (is_action (d_action d) RETRIEVE_AGAIN));;
  invalid_if (xorb (d_requires_clarification d) (is_action (d_action d) ASK_FOR_CLARIFICATION));;
  invalid_if (xorb (d_requires_human_review d) (is_action (d_action d) ESCALATE));;
  invalid_if (is_action (d_action d) ANSWER
              && match d_evidence_bundle_id d with Some s => is_empty s | None => true end);;
  Ok d.

Definition Decision_new (action : DecisionAction) (reason message : string) (bid : option string) (attempt : Z)
    (retry clarification review : bool) : eres Decision :=
  code ← _safe_code (VStr reason);
  invalid_if (negb ((1 <=? slen message) && (slen message <=? 512)));;
  a ← int_field 0 100 (VInt attempt);
  validate_action_flags (mk_decision action code message bid a retry clarification review).

(** ** The layer *)

Definition _MESSAGES (a : DecisionAction) : string :=
  match a with
  | ANSWER => "The available evidence passed the configured grounding checks."
  | RETRIEVE_AGAIN => "The available evidence did not pass grounding checks; retrieve authorized evidence again."
  | ASK_FOR_CLARIFICATION => "Please clarify the request before a grounded answer is generated."
  | ABSTAIN => "The available evidence is insufficient for a grounded answer."
  | ESCALATE => "This request requires additional review before an answer is generated."
  end.

Definition _make (i : DecisionInput) (action : DecisionAction) (reason : string) (bid : option string) : eres Decision :=
  Decision_new action reason (_MESSAGES action) bid (retrieval_attempt i)
    (is_action action RETRIEVE_AGAIN) (is_action action ASK_FOR_CLARIFICATION) (is_action action ESCALATE).

Definition _retry_or_abstain (i : DecisionInput) (reason : string) : eres Decision :=
  if retrieval_available i && (retrieval_attempt i <? max_retrieval_attempts (policy i))
  then _make i RETRIEVE_AGAIN reason None
  else _make i ABSTAIN (if slen reason <=? 54 then reason +:+ "_exhausted" else "evidence_insufficient") None.

(** The loop over the three minimum checks. *)
Fixpoint minimum_failure (checks : list (option pyfloat * pyfloat * string)) : option string :=
  match checks with
  | [] => None
  | (observed, minimum, reason) :: rest =>
      match observed with
      | None => Some "citation_support_metrics_incomplete"
      | Some o => if flt o minimum then Some reason else minimum_failure rest
      end
  end.

Definition _citation_support_failure (i : DecisionInput) : option string :=
  let pol := policy i in
  match citation_support_metrics i with
  | None =>
      if require_citation_support_metrics pol then Some "citation_support_metrics_missing"
      else if flt (citation_support i) (min_citation_support pol) then Some "citation_support_below_minimum"
      else None
  | Some m =>
      match m_status m with
      | PASS =>
          if evaluated_claims m <? 1 then Some "citation_support_metrics_empty"
          else if match required_citation_support_source pol with
                  | Some s => negb (str_eqb (m_source m) s)
                  | None => false
                  end then Some "citation_support_source_invalid"
          else match minimum_failure
              [(citation_precision m, min_citation_precision pol, "citation_precision_below_minimum");
               (citation_recall m, min_citation_recall pol, "citation_recall_below_minimum");
               (citation_completeness m, min_citation_completeness pol, "citation_completeness_below_minimum")] with
          | Some reason => Some reason
          | None =>
              match unsupported_claim_rate m with
              | None => Some "citation_support_metrics_incomplete"
              | Some u =>
                  if flt (max_unsupported_claim_rate pol) u then Some "unsupported_claim_rate_above_maximum"
                  else match faithfulness m with
                  | None => if require_faithfulness pol then Some "citation_support_metrics_incomplete" else None
                  | Some f => if flt f (min_faithfulness pol) then Some "faithfulness_below_minimum" else None
                  end
              end
          end
      | _ => Some "citation_support_metrics_not_pass"
      end
  end.

(** The gates on a bundle that is there and valid: evidence, citations,
    support, provider signal. *)
Definition decide_on_evidence (v : EvidenceValidator) (i : DecisionInput) (b : EvidenceBundle) : eres Decision :=
  let bid := Some (bundle_id b) in
  if evidence_count i <? min_evidence_count (policy i) then _retry_or_abstain i "evidence_count_below_minimum"
  else if flt (retrieval_quality i) (min_retrieval_quality (policy i)) then
    _retry_or_abstain i "retrieval_quality_below_minimum"
  else
    citations_ok ← match cited_evidence_ids i with
                   | None => Ok true
                   | Some ids => r ← validate_citations v (V_bundle b) (VList (map VStr ids)); Ok (cr_valid r)
                   end;
    if negb citations_ok then _make i ABSTAIN "citation_registry_invalid" bid
    else match _citation_support_failure i with
    | Some reason => _retry_or_abstain i reason
    | None =>
        match provider_confidence_signal i with
        | None => _make i ABSTAIN "provider_signal_missing" bid
        | Some p =>
            if flt p (min_provider_confidence_signal (policy i)) then _make i ABSTAIN "provider_signal_below_minimum" bid
            else _make i ANSWER "grounded_evidence" bid
        end
    end.

(** The gates on the request: review, risk, intent, policy. *)
Definition decide_on_request (v : EvidenceValidator) (i : DecisionInput) : eres Decision :=
  let bid := option_map bundle_id (evidence_bundle i) in
  if human_review_required i then _make i ESCALATE "human_review_required" bid
  else if negb (bool_decide (domain_risk i ∈ answerable_risk_levels (policy i))) then
    _make i ESCALATE (match domain_risk i with risk_UNKNOWN => "risk_unknown" | _ => "risk_requires_review" end) bid
  else match clarity (user_intent i) with
  | clarity_UNKNOWN | AMBIGUOUS => _make i ASK_FOR_CLARIFICATION "intent_needs_clarification" bid
  | UNSUPPORTED => _make i ABSTAIN "intent_unsupported" bid
  | CLEAR =>
      if negb (policy_allows_answer i) then _make i ABSTAIN "policy_denied" bid
      else match evidence_bundle i with
      | None => _retry_or_abstain i "evidence_bundle_missing"
      | Some b => decide_on_evidence v i b
      end
  end.

Definition decide (v : EvidenceValidator) (i : DecisionInput) : eres Decision :=
  let bid := option_map bundle_id (evidence_bundle i) in
  if negb (integrity_ok i) then _make i ESCALATE "input_integrity_failed" bid
  else match evidence_bundle i with
  | None => if 0 <? evidence_count i then _make i ESCALATE "evidence_bundle_missing" None else decide_on_request v i
  | Some b =>
      scope ← request_scope i;
      report ← validate_bundle v (V_bundle b) (option_map Scope_typed scope);
      if negb (er_valid report) then _make i ESCALATE "evidence_validation_failed" bid else decide_on_request v i
  end.
