(* ===== verification/DecisionProperties.v ===== *)
(** * Properties of the decision layer: when it answers, that it always
    decides, when it escalates, and how often it may retry. *)

From Stdlib Require Import Ascii String.
From stdpp Require Import strings gmap.
From S2P Require Import Prelude PyFloat PyStr PyVal Evidence EvidenceValidator EvidenceLemmas EvidenceProperties Decision.

Local Open Scope string_scope.
Local Open Scope Z_scope.
Local Open Scope list_scope.

(** ** Building a decision *)

(** What [_make] returns when it returns. *)
Definition made (i : DecisionInput) (a : DecisionAction) (reason : string) (bid : option string) : Decision :=
  mk_decision a (strip reason) (_MESSAGES a) bid (retrieval_attempt i)
    (is_action a RETRIEVE_AGAIN) (is_action a ASK_FOR_CLARIFICATION) (is_action a ESCALATE).

(** A decision the model's validators accept. *)
Record decision_wf (d : Decision) : Prop := {
  dw_code : _SAFE_CODE (d_reason_code d) = true;
  dw_message : 1 <= slen (d_message d) <= 512;
  dw_attempt : 0 <= d_retrieval_attempt d <= 100;
  dw_retry : d_retry_allowed d = is_action (d_action d) RETRIEVE_AGAIN;
  dw_clarification : d_requires_clarification d = is_action (d_action d) ASK_FOR_CLARIFICATION;
  dw_review : d_requires_human_review d = is_action (d_action d) ESCALATE;
  dw_bundle : d_action d = ANSWER -> exists s, d_evidence_bundle_id d = Some s /\ s <> EmptyString }.

Lemma message_length a : (1 <=? slen (_MESSAGES a)) && (slen (_MESSAGES a) <=? 512) = true.
Proof. destruct a; reflexivity. Qed.

Lemma _make_Ok i a reason bid d : _make i a reason bid = Ok d ->
  d = made i a reason bid /\ decision_wf d.
Proof.
  unfold _make, Decision_new. intros H. apply bind_Ok in H as (c & Hc & H). apply bind_Ok in H as (u & _ & H).
  apply bind_Ok in H as (n & Hn & H). unfold _safe_code in Hc. apply bind_Ok in Hc as (u1 & Hc & [= <-]).
  apply invalid_if_Ok, negb_false_iff in Hc. unfold int_field in Hn. apply bind_Ok in Hn as (u2 & Hn & [= <-]).
  apply invalid_if_Ok, negb_false_iff in Hn. unfold validate_action_flags in H. cbn in H.
  rewrite !xorb_nilpotent in H. cbn [invalid_if raise_if mbind res_mbind] in H.
  apply bind_Ok in H as (u3 & Hb & [= <-]). apply invalid_if_Ok in Hb. split; [reflexivity|].
  pose proof (message_length a). bool_to_prop. split; cbn; auto.
  intros ->. cbn in Hb. destruct bid as [s|]; [|discriminate]. exists s. split; [reflexivity|]. now intros ->.
Qed.

(** [_make] never fails on a safe reason code. *)
Lemma _make_total i a reason bid :
  strip reason = reason -> _SAFE_CODE reason = true -> 0 <= retrieval_attempt i <= 100 ->
  (a = ANSWER -> exists s, bid = Some s /\ s <> EmptyString) ->
  _make i a reason bid = Ok (made i a reason bid).
Proof.
  intros Hs Hc Hn Hb. unfold _make, Decision_new, made. cbn [_safe_code]. rewrite Hs, Hc, message_length.
  cbn [negb invalid_if raise_if mbind res_mbind int_field].
  replace ((0 <=? retrieval_attempt i) && (retrieval_attempt i <=? 100)) with true by lia.
  cbn [negb invalid_if raise_if mbind res_mbind]. unfold validate_action_flags.
  cbn [d_retry_allowed d_requires_clarification d_requires_human_review d_action d_evidence_bundle_id].
  rewrite !xorb_nilpotent. cbn [invalid_if raise_if mbind res_mbind]. rewrite invalid_if_false; [reflexivity|].
  destruct (is_action a ANSWER) eqn:E; [|reflexivity]. apply bool_decide_eq_true in E.
  destruct (Hb E) as (s & -> & Hne). destruct s; [congruence | reflexivity].
Qed.

Ltac safe_code := first [reflexivity | vm_compute; reflexivity].

(** A reason that [_retry_or_abstain] can carry. *)
Definition retry_reason (r : string) : bool :=
  let r' := if slen r <=? 54 then r +:+ "_exhausted" else "evidence_insufficient" in
  str_eqb (strip r) r && _SAFE_CODE r && str_eqb (strip r') r' && _SAFE_CODE r'.

Lemma retry_total i r : retry_reason r = true -> 0 <= retrieval_attempt i <= 100 ->
  exists d, _retry_or_abstain i r = Ok d.
Proof.
  unfold retry_reason, _retry_or_abstain. rewrite !andb_true_iff, !str_eqb_eq. intros [[[H1 H2] H3] H4] Hn.
  destruct (retrieval_available i && _); rewrite _make_total; eauto; discriminate.
Qed.

Lemma retry_action i r d : _retry_or_abstain i r = Ok d ->
  (d_action d = RETRIEVE_AGAIN /\ retrieval_available i = true
   /\ retrieval_attempt i < max_retrieval_attempts (policy i)) \/ d_action d = ABSTAIN.
Proof.
  unfold _retry_or_abstain. destruct (retrieval_available i && _) eqn:E; intros H;
    apply _make_Ok in H as [-> _]; [left | now right].
  bool_to_prop. auto.
Qed.

Lemma support_failure_reason i r : _citation_support_failure i = Some r -> retry_reason r = true.
Proof.
  unfold _citation_support_failure. intros H.
  repeat match type of H with
  | match ?x with _ => _ end = _ => destruct x eqn:?
  | (if ?x then _ else _) = _ => destruct x eqn:?
  end; try discriminate; try (injection H as <-; vm_compute; reflexivity).
  cbn [minimum_failure] in *.
  repeat match goal with
  | E : match ?x with _ => _ end = Some _ |- _ => destruct x eqn:?
  | E : (if ?x then _ else _) = Some _ |- _ => destruct x eqn:?
  end; simplify_eq; vm_compute; reflexivity.
Qed.

(** ** When the layer answers *)

(** An observation is there and not below the minimum. *)
Definition meets (observed : option pyfloat) (minimum : pyfloat) : Prop :=
  exists x, observed = Some x /\ flt x minimum = false.

(** The observed citation support meets the policy. *)
Definition supported (i : DecisionInput) : Prop :=
  let pol := policy i in
  match citation_support_metrics i with
  | None => require_citation_support_metrics pol = false
            /\ flt (citation_support i) (min_citation_support pol) = false
  | Some m =>
      m_status m = PASS /\ 1 <= evaluated_claims m
      /\ (forall s, required_citation_support_source pol = Some s -> m_source m = s)
      /\ meets (citation_precision m) (min_citation_precision pol)
      /\ meets (citation_recall m) (min_citation_recall pol)
      /\ meets (citation_completeness m) (min_citation_completeness pol)
      /\ (exists u, unsupported_claim_rate m = Some u /\ flt (max_unsupported_claim_rate pol) u = false)
      /\ match faithfulness m with
         | None => require_faithfulness pol = false
         | Some f => flt f (min_faithfulness pol) = false
         end
  end.

Lemma if_None {A} (c : bool) (x : A) k : (if c then Some x else k) = None <-> c = false /\ k = None.
Proof. destruct c; intuition discriminate. Qed.

Lemma match_None {A} (o : option A) (k : option A) :
  match o with Some x => Some x | None => k end = None <-> o = None /\ k = None.
Proof. destruct o; intuition discriminate. Qed.

Lemma minimum_failure_None checks : minimum_failure checks = None <->
  forall o m r, In (o, m, r) checks -> meets o m.
Proof.
  unfold meets. induction checks as [|[[o m] r] checks IH]; cbn [minimum_failure]; [split; [intros _ ? ? ? [] | auto]|].
  destruct o as [x|]; [rewrite if_None, IH|]; split.
  - intros [Hx H] o' m' r' [[= <- <- <-]|Hin]; eauto.
  - intros H. split; [|intros o' m' r' Hin; apply (H o' m' r'); now right].
    destruct (H _ _ _ (or_introl eq_refl)) as (y & [= <-] & Hy). exact Hy.
  - discriminate.
  - intros H. destruct (H _ _ _ (or_introl eq_refl)) as (y & [=] & _).
Qed.

Lemma support_failure_None i : _citation_support_failure i = None <-> supported i.
Proof.
  unfold _citation_support_failure, supported. destruct (citation_support_metrics i) as [m|].
  2: { rewrite !if_None. tauto. }
  destruct (m_status m); try (split; [discriminate | intros [[=] _]]).
  rewrite !if_None, match_None, minimum_failure_None, Z.ltb_ge.
  assert (match required_citation_support_source (policy i) with Some s => negb (str_eqb (m_source m) s) | None => false end = false
          <-> forall s, required_citation_support_source (policy i) = Some s -> m_source m = s) as ->.
  { destruct (required_citation_support_source (policy i)) as [s|]; [|split; [discriminate | reflexivity]].
    rewrite neg_str_eqb. split; [intros ? ? [= <-]; assumption | auto]. }
  split.
  - intros (Hn & Hs & Hc & H). cbn [In] in Hc. do 3 (split; [eauto|]).
    do 3 (split; [eapply Hc; eauto 10|]).
    destruct (unsupported_claim_rate m) as [u|]; [|discriminate]. apply if_None in H as [Hu H].
    split; [eauto|]. destruct (faithfulness m); apply if_None in H; tauto.
  - intros (_ & Hn & Hs & Hp & Hr & Hc & (u & -> & Hu) & Hf). do 2 (split; [auto|]). split.
    + intros o mi r [[= <- <- <-]|[[= <- <- <-]|[[= <- <- <-]|[]]]]; assumption.
    + rewrite Hu. destruct (faithfulness m); now rewrite Hf.
Qed.

(** ** Inputs the service can hold *)

(** An input that went through its constructor, whose bundle (if any) is valid
    and whose citation list fits a report. *)
Record input_ok (i : DecisionInput) : Prop := {
  io_attempt : 0 <= retrieval_attempt i <= 100;
  io_count : forall b, evidence_bundle i = Some b -> evidence_count i = Z.of_nat (length (evidence b));
  io_scope : forall b, evidence_bundle i = Some b ->
             exists s, request_scope i = Ok s /\ forall e, s = Some e -> bundle_scope b = Ok e;
  io_cited : forall l, cited_evidence_ids i = Some l -> (length l <= 100)%nat }.

Definition bundle_ok (b : EvidenceBundle) (es : list Evidence) : Prop := bundle_valid b es /\ (length es <= 100)%nat.

(** The constructor gives such inputs. *)
Lemma DecisionInput_new_ok bd t w c q n s m p r it pol a av ok al hr ids i :
  DecisionInput_new bd t w c q n s m p r it pol a av ok al hr ids = Ok i ->
  (forall l, cited_evidence_ids i = Some l -> (length l <= 100)%nat) -> input_ok i.
Proof.
  unfold DecisionInput_new. intros H Hl. apply bind_Ok in H as (u & _ & H).
  apply bind_Ok in H as (t' & Ht & H). apply bind_Ok in H as (w' & Hw & H). apply bind_Ok in H as (c' & Hc & H).
  apply bind_Ok in H as (q' & _ & H). apply bind_Ok in H as (n' & _ & H). apply bind_Ok in H as (s' & _ & H).
  apply bind_Ok in H as (p' & _ & H). apply bind_Ok in H as (a' & Ha & H). apply bind_Ok in H as (av' & _ & H).
  apply bind_Ok in H as (ok' & _ & H). apply bind_Ok in H as (al' & _ & H). apply bind_Ok in H as (hr' & _ & H).
  apply bind_Ok in H as (ids' & _ & H). unfold int_field in Ha. destruct a as [| |z| | | |]; try discriminate.
  apply bind_Ok in Ha as (u1 & Ha & Ez). injection Ez as <-. apply invalid_if_Ok, negb_false_iff in Ha.
  unfold validate_scope_and_bundle_count in H. cbn [i_tenant_id i_workspace_id i_collection_id evidence_bundle evidence_count] in H.
  apply bind_Ok in H as (u2 & Hs & H). apply invalid_if_Ok in Hs.
  destruct bd as [b|].
  2: { injection H as <-. split; cbn; [bool_to_prop; lia | discriminate | discriminate | exact Hl]. }
  apply bind_Ok in H as (u3 & Hn & H). apply invalid_if_Ok, negb_false_iff, Z.eqb_eq in Hn.
  assert (forall i', Ok (E := ev_error) i' = Ok i -> (exists s0, request_scope i' = Ok s0 /\ forall e, s0 = Some e -> bundle_scope b = Ok e) ->
    i' = mk_input (Some b) t' w' c' q' n' s' m p' r it pol z av' ok' al' hr' ids' -> input_ok i) as Hfin.
  { intros i' E (s0 & Hs0 & He) Ei. injection E as <-. split.
    - subst i'. cbn. bool_to_prop. lia.
    - subst i'. cbn. intros b' [= <-]. exact Hn.
    - intros b' Hb'. exists s0. split; [exact Hs0|]. subst i'. cbn in Hb'. injection Hb' as <-. exact He.
    - exact Hl. }
  destruct t' as [t'|], w' as [w'|], c' as [c'|]; try discriminate Hs; cbn [opt_scope] in H.
  - apply bind_Ok in H as (e & He & H). apply bind_Ok in H as (o & Ho & H). apply bind_Ok in H as (u4 & Heq & H).
    apply invalid_if_Ok, neg_decide in Heq as ->. refine (Hfin _ H _ eq_refl). exists (Some e). split.
    + unfold request_scope. cbn [i_tenant_id i_workspace_id i_collection_id opt_str]. now rewrite He.
    + intros e' [= <-]. exact Ho.
  - refine (Hfin _ H _ eq_refl). exists None. split; [reflexivity | discriminate].
Qed.

(** ** The gates *)

(** Everything an answer rests on. *)
Record grounded (i : DecisionInput) : Prop := {
  gr_integrity : integrity_ok i = true;
  gr_review : human_review_required i = false;
  gr_risk : domain_risk i ∈ answerable_risk_levels (policy i);
  gr_clear : clarity (user_intent i) = CLEAR;
  gr_allowed : policy_allows_answer i = true;
  gr_count : min_evidence_count (policy i) <= evidence_count i;
  gr_quality : flt (retrieval_quality i) (min_retrieval_quality (policy i)) = false;
  gr_bundle : exists b es, evidence_bundle i = Some b /\ bundle_valid b es
    /\ forall l, cited_evidence_ids i = Some l -> l <> [] /\ NoDup l /\ forall x, In x l -> In x (citation_ids b);
  gr_support : supported i;
  gr_signal : meets (provider_confidence_signal i) (min_provider_confidence_signal (policy i)) }.

(** The request gates pass. *)
Definition request_open (i : DecisionInput) : Prop :=
  human_review_required i = false /\ domain_risk i ∈ answerable_risk_levels (policy i)
  /\ clarity (user_intent i) = CLEAR /\ policy_allows_answer i = true.

(** The evidence gates pass for the bundle [b]. *)
Definition evidence_enough (i : DecisionInput) (b : EvidenceBundle) : Prop :=
  min_evidence_count (policy i) <= evidence_count i
  /\ flt (retrieval_quality i) (min_retrieval_quality (policy i)) = false
  /\ (forall l, cited_evidence_ids i = Some l -> l <> [] /\ NoDup l /\ forall x, In x l -> In x (citation_ids b))
  /\ supported i
  /\ meets (provider_confidence_signal i) (min_provider_confidence_signal (policy i)).

Lemma bundle_id_nonempty b es : bundle_valid b es -> bundle_id b <> EmptyString.
Proof.
  intros [_ _ _ _ Hid]. apply content_id_form in Hid; [|reflexivity]. intros E. rewrite E in Hid. discriminate.
Qed.

(** The call returns a well-formed decision that answers exactly when [A],
    escalates exactly when [E], and retries only while attempts are left. *)
Definition outcome (i : DecisionInput) (A E : Prop) (r : eres Decision) : Prop :=
  exists d, r = Ok d /\ decision_wf d /\ (d_action d = ANSWER <-> A) /\ (d_action d = ESCALATE <-> E)
  /\ (d_action d = RETRIEVE_AGAIN -> retrieval_attempt i < max_retrieval_attempts (policy i)).

Section outcomes.
Context (i : DecisionInput) (Ha : 0 <= retrieval_attempt i <= 100).

Lemma outcome_make (A E : Prop) a r bid :
  str_eqb (strip r) r && _SAFE_CODE r = true -> (a = ANSWER -> exists s, bid = Some s /\ s <> EmptyString) ->
  a <> RETRIEVE_AGAIN -> (a = ANSWER <-> A) -> (a = ESCALATE <-> E) -> outcome i A E (_make i a r bid).
Proof.
  rewrite andb_true_iff, str_eqb_eq. intros [Hs Hc] Hb Hr HA HE.
  pose proof (_make_total i a r bid Hs Hc Ha Hb) as H. exists (made i a r bid). split; [exact H|].
  split; [exact (proj2 (_make_Ok _ _ _ _ _ H))|]. cbn. split; [exact HA|]. split; [exact HE|]. intros. contradiction.
Qed.

Lemma outcome_escalate (A E : Prop) r bid : str_eqb (strip r) r && _SAFE_CODE r = true -> ~ A -> E ->
  outcome i A E (_make i ESCALATE r bid).
Proof. intros Hr HA HE. apply outcome_make; [exact Hr | discriminate | discriminate | intuition discriminate | tauto]. Qed.

Lemma outcome_stop (A E : Prop) a r bid : a = ABSTAIN \/ a = ASK_FOR_CLARIFICATION ->
  str_eqb (strip r) r && _SAFE_CODE r = true -> ~ A -> ~ E -> outcome i A E (_make i a r bid).
Proof. intros [-> | ->] Hr HA HE; (apply outcome_make; [exact Hr | discriminate | discriminate | intuition discriminate..]). Qed.

Lemma outcome_retry (A E : Prop) r : retry_reason r = true -> ~ A -> ~ E -> outcome i A E (_retry_or_abstain i r).
Proof.
  intros Hr HA HE. destruct (retry_total i r Hr Ha) as [d Hd]. exists d. split; [exact Hd|].
  assert (decision_wf d) as Hw by (unfold _retry_or_abstain in Hd; destruct (_ && _); now apply _make_Ok in Hd).
  split; [exact Hw|]. apply retry_action in Hd as [(E1 & _ & Hlt)|E1]; rewrite E1; intuition discriminate.
Qed.

Lemma outcome_iff (A A' E E' : Prop) r : outcome i A E r -> (A <-> A') -> (E <-> E') -> outcome i A' E' r.
Proof. intros (d & H1 & H2 & H3 & H4 & H5) HA HE. exists d. rewrite <- HA, <- HE. auto. Qed.
End outcomes.

(** The evidence stage always decides, never escalates, and answers exactly
    when its gates pass. *)
Lemma decide_on_evidence_spec v i b es : bundle_ok b es -> input_ok i ->
  outcome i (evidence_enough i b) False (decide_on_evidence v i b).
Proof.
  intros [Hv Hl] [Ha _ _ Hcited]. unfold decide_on_evidence, evidence_enough, meets.
  destruct (Z.ltb_spec (evidence_count i) (min_evidence_count (policy i))) as [Hc|Hc].
  { apply outcome_retry; [exact Ha | safe_code | lia | tauto]. }
  destruct (flt (retrieval_quality i) (min_retrieval_quality (policy i))).
  { apply outcome_retry; [exact Ha | safe_code | intuition discriminate | tauto]. }
  assert (exists ok, match cited_evidence_ids i with
                     | None => Ok true
                     | Some ids => r ← validate_citations v (V_bundle b) (VList (map VStr ids)); Ok (cr_valid r)
                     end = Ok ok
          /\ (ok = true <-> forall l, cited_evidence_ids i = Some l ->
                l <> [] /\ NoDup l /\ forall x, In x l -> In x (citation_ids b))) as (ok & -> & Hok).
  { destruct (cited_evidence_ids i) as [l|]; [|exists true; split; [reflexivity | split; [discriminate | auto]]].
    destruct (cited_ids_valid v b es l Hv Hl (Hcited l eq_refl)) as (r & -> & Hr). exists (cr_valid r).
    split; [reflexivity|]. rewrite Hr. split; [intros H ? [= <-]; exact H | auto]. }
  cbn [mbind res_mbind]. destruct ok; cbn [negb].
  2: { apply outcome_stop; [exact Ha | auto | safe_code | intuition discriminate | tauto]. }
  destruct (_citation_support_failure i) as [r|] eqn:Hs.
  { apply outcome_retry; [exact Ha | exact (support_failure_reason i r Hs) | | tauto].
    intros (_ & _ & _ & H & _). apply support_failure_None in H. congruence. }
  apply support_failure_None in Hs. destruct (provider_confidence_signal i) as [p|].
  2: { apply outcome_stop; [exact Ha | auto | safe_code | naive_solver | tauto]. }
  destruct (flt p (min_provider_confidence_signal (policy i))) eqn:Ep.
  { apply outcome_stop; [exact Ha | auto | safe_code | | tauto]. intros (_ & _ & _ & _ & x & [= <-] & Hx). congruence. }
  apply outcome_make; [exact Ha | safe_code | | discriminate | | intuition discriminate].
  - intros _. eexists. split; [reflexivity | exact (bundle_id_nonempty b es Hv)].
  - split; [intros _; naive_solver | reflexivity].
Qed.

(** The request stage, with the bundle (if any) already accepted. *)
Lemma decide_on_request_spec v i : input_ok i ->
  (forall b, evidence_bundle i = Some b -> exists es, bundle_ok b es) ->
  outcome i (request_open i /\ exists b, evidence_bundle i = Some b /\ evidence_enough i b)
    (human_review_required i = true \/ domain_risk i ∉ answerable_risk_levels (policy i))
    (decide_on_request v i).
Proof.
  intros Hi Hb. pose proof (io_attempt _ Hi) as Ha. unfold decide_on_request, request_open.
  destruct (human_review_required i). { apply outcome_escalate; [exact Ha | safe_code | intuition discriminate | auto]. }
  case_bool_decide as Hr; cbn [negb].
  2: { destruct (domain_risk i); (apply outcome_escalate; [exact Ha | safe_code | tauto | auto]). }
  destruct (clarity (user_intent i)).
  1, 3, 4: apply outcome_stop; [exact Ha | auto | safe_code | intuition discriminate | intuition discriminate].
  destruct (policy_allows_answer i); cbn [negb].
  2: apply outcome_stop; [exact Ha | auto | safe_code | intuition discriminate | intuition discriminate].
  destruct (evidence_bundle i) as [b|].
  - destruct (Hb b eq_refl) as [es He]. eapply outcome_iff; [exact (decide_on_evidence_spec v i b es He Hi) | |].
    + split; [eauto 10|]. intros [_ (b' & [= <-] & H)]. exact H.
    + intuition discriminate.
  - apply outcome_retry; [exact Ha | safe_code | | intuition discriminate]. intros [_ (b & [=] & _)].
Qed.

(** The bundle can be checked at all: validation returns a report. *)
Definition checkable (v : EvidenceValidator) (i : DecisionInput) : Prop :=
  forall b, evidence_bundle i = Some b -> is_ok (validate_bundle v (V_bundle b) None) = true.

(** What makes the layer escalate. *)
Definition escalates (i : DecisionInput) : Prop :=
  integrity_ok i = false
  \/ (evidence_bundle i = None /\ 0 < evidence_count i)
  \/ (exists b, evidence_bundle i = Some b /\ ~ exists es, bundle_valid b es)
  \/ human_review_required i = true \/ domain_risk i ∉ answerable_risk_levels (policy i).

Lemma report_count v b r : validate_bundle v (V_bundle b) None = Ok r -> (length (evidence b) <= 100)%nat.
Proof.
  unfold validate_bundle. intros H. apply bind_Ok in H as (e0 & _ & H). apply bind_Ok in H as ([es ids] & _ & H).
  apply bind_Ok in H as (bid & _ & H). unfold evidence_report in H. apply bind_Ok in H as (u & H & _).
  apply invalid_if_Ok in H. cbn [er_evidence_count] in H. bool_to_prop. lia.
Qed.

(** Asking for the scope the bundle already has changes nothing. *)
Lemma same_scope_report v b s : (forall e, s = Some e -> bundle_scope b = Ok e) ->
  validate_bundle v (V_bundle b) (option_map Scope_typed s) = validate_bundle v (V_bundle b) None.
Proof.
  intros Hs. destruct s as [e|]; [|reflexivity]. cbn [option_map]. unfold validate_bundle, expected_scope_errors.
  cbn [_scope]. rewrite (Hs e eq_refl). cbn [mbind res_mbind]. now rewrite bool_decide_eq_true_2.
Qed.

Lemma grounded_split i : grounded i <->
  integrity_ok i = true /\ request_open i
  /\ exists b, evidence_bundle i = Some b /\ (exists es, bundle_valid b es) /\ evidence_enough i b.
Proof.
  unfold request_open, evidence_enough. split.
  - intros [H1 H2 H3 H4 H5 H6 H7 (b & es & Hb & Hv & Hc) H9 H10]. eauto 20.
  - intros (H1 & (H2 & H3 & H4 & H5) & b & Hb & [es Hv] & H6 & H7 & Hc & H9 & H10). split; eauto 10.
Qed.

(** The whole evaluation. *)
Lemma decide_spec v i : input_ok i -> checkable v i -> outcome i (grounded i) (escalates i) (decide v i).
Proof.
  intros Hi Hc. pose proof (io_attempt _ Hi) as Ha. unfold decide.
  destruct (integrity_ok i) eqn:Hint; cbn [negb].
  2: { apply outcome_escalate; [exact Ha | safe_code | rewrite grounded_split; intuition congruence | now left]. }
  destruct (evidence_bundle i) as [b|] eqn:Hb.
  - destruct (io_scope _ Hi b Hb) as (s & -> & Hs). cbn [mbind res_mbind]. rewrite (same_scope_report v b s Hs).
    specialize (Hc b Hb). destruct (validate_bundle v (V_bundle b) None) as [r|] eqn:Hr; [|discriminate]. cbn [mbind res_mbind].
    pose proof (report_count _ _ _ Hr) as Hlen. apply validate_bundle_spec in Hr as [Hr _]. cbn [scope_matches] in Hr.
    destruct (er_valid r); cbn [negb].
    + destruct (proj1 Hr eq_refl) as [Hv _]. eapply outcome_iff; [apply (decide_on_request_spec v i Hi) | |].
      * intros b' Hb'. assert (b' = b) as -> by congruence. destruct Hv as [es Hv]. exists es. split; [exact Hv|].
        rewrite (bv_items _ _ Hv), length_map in Hlen. exact Hlen.
      * rewrite grounded_split, Hb. split; [intros (Ho & b' & [= <-] & He); eauto 10 | intros (_ & Ho & b' & [= <-] & _ & He); eauto].
      * unfold escalates. rewrite Hint, Hb. split; [tauto|].
        intros [[=]|[[[=] _]|[(b' & [= <-] & Hn)|H]]]; [now destruct Hn | exact H].
    + apply outcome_escalate; [exact Ha | safe_code | |].
      * rewrite grounded_split, Hb. intros (_ & _ & b' & [= <-] & Hv & _). assert (false = true) by tauto. discriminate.
      * right; right; left. exists b. split; [exact Hb|]. intros Hv. assert (false = true) by tauto. discriminate.
  - destruct (Z.ltb_spec 0 (evidence_count i)) as [Hn|Hn].
    + apply outcome_escalate; [exact Ha | safe_code | rewrite grounded_split, Hb; naive_solver | right; left; auto].
    + eapply outcome_iff; [apply (decide_on_request_spec v i Hi); congruence | |].
      * rewrite grounded_split, Hb. naive_solver.
      * unfold escalates. rewrite Hint, Hb. split; [tauto|]. intros [[=]|[[_ ?]|[(b' & [=] & _)|H]]]; [lia | exact H].
Qed.

(** ** Properties *)

(** C10: the decision layer answers exactly when everything an answer rests on
    is there: intact input, no pending human review, an answerable risk, a
    clear and permitted intent, a valid bundle with enough items of enough
    quality, citations that are distinct items of that bundle, observed
    citation support and a provider signal that meet the policy. *)
Theorem decision_answer_iff v i d : input_ok i -> checkable v i -> decide v i = Ok d ->
  (d_action d = ANSWER <-> grounded i).
Proof.
  intros Hi Hc Hd. destruct (decide_spec v i Hi Hc) as (d' & Hd' & _ & HA & _). congruence.
Qed.

(** The layer never fails on an input the service can hold: it returns a
    decision the output model accepts, and it escalates exactly when the
    integrity, the evidence bundle, human review or the risk demands it, no
    matter how good every other signal is. *)
Theorem decision_total v i : input_ok i -> checkable v i ->
  exists d, decide v i = Ok d /\ decision_wf d /\ (d_action d = ESCALATE <-> escalates i).
Proof.
  intros Hi Hc. destruct (decide_spec v i Hi Hc) as (d & Hd & Hw & _ & HE & _). eauto.
Qed.

(** Retrieval is bounded: a workflow that consults the layer under one
    policy with attempts 0, 1, 2, ... and retrieves again whenever told to
    does so at most [max_retrieval_attempts] times. *)
Theorem decision_retry_bounded v pol (inputs : list DecisionInput) :
  (forall k i, inputs !! k = Some i ->
     input_ok i /\ checkable v i /\ policy i = pol /\ retrieval_attempt i = Z.of_nat k
     /\ exists d, decide v i = Ok d /\ d_action d = RETRIEVE_AGAIN) ->
  Z.of_nat (length inputs) <= Z.max 0 (max_retrieval_attempts pol).
Proof.
  intros H. destruct inputs as [|i0 l] using rev_ind; [cbn; lia|]. clear IHl.
  destruct (H (length l) i0) as (Hi & Hc & Hp & Hat & d & Hd & Hr).
  { rewrite lookup_app_r by lia. now rewrite Nat.sub_diag. }
  destruct (decide_spec v i0 Hi Hc) as (d' & Hd' & _ & _ & _ & Hlt). rewrite length_app. cbn [length].
  assert (d' = d) as -> by congruence. specialize (Hlt Hr). rewrite Hp in Hlt. lia.
Qed.

(** ** Witnesses *)

(** A request whose bundle, citations and signals are good. *)
Definition sample_input (b : EvidenceBundle) (attempt : Z) (q : pyfloat) : DecisionInput :=
  mk_input (Some b) (Some "tenant-1") (Some "ws-1") (Some "rag_phase0") q 2 (lit 9 10) None (Some (lit 7 10))
    LOW (mk_intent "document_help" CLEAR) default_policy attempt true true true false (Some (citation_ids b)).

Lemma sample_input_ok : exists b, sample_bundle = Ok b
  /\ forall k q, 0 <= k <= 100 ->
     input_ok (sample_input b k q) /\ checkable default_validator (sample_input b k q).
Proof.
  assert (match sample_bundle with
          | Ok b => (Z.of_nat (length (evidence b)) =? 2)
              && match bundle_scope b with Ok s => bool_decide (s = sample_scope) | _ => false end
              && (length (citation_ids b) <=? 100)%nat
              && is_ok (validate_bundle default_validator (V_bundle b) None)
          | Err _ => false
          end = true) as H by (vm_compute; reflexivity).
  revert H. destruct sample_bundle as [b|]; [|discriminate]. rewrite !andb_true_iff.
  intros [[[Hn Hs] Hc] Hv]. exists b. split; [reflexivity|]. intros k q Hk.
  destruct (bundle_scope b) as [s|] eqn:Hb; [|discriminate]. bool_to_prop. subst s. split.
  - split; cbn; auto.
    + intros b' [= <-]. congruence.
    + intros b' [= <-]. exists (Some sample_scope). split; [vm_compute; reflexivity|]. intros e [= <-]. exact Hb.
    + intros l [= <-]. now apply Nat.leb_le.
  - intros b' [= <-]. exact Hv.
Qed.

(** The decisions on the sample: an answer, and a retry while the quality is
    low. *)
Definition action_of (r : eres Decision) : option DecisionAction :=
  match r with Ok d => Some (d_action d) | Err _ => None end.

Lemma sample_actions :
  match sample_bundle with
  | Ok b => (action_of (decide default_validator (sample_input b 0 (lit 9 10))),
             action_of (decide default_validator (sample_input b 0 (lit 1 10))),
             action_of (decide default_validator (sample_input b 1 (lit 1 10))))
  | Err _ => (None, None, None)
  end = (Some ANSWER, Some RETRIEVE_AGAIN, Some ABSTAIN).
Proof. vm_compute. reflexivity. Qed.

Lemma action_of_Some r a : action_of r = Some a -> exists d, r = Ok d /\ d_action d = a.
Proof. destruct r as [d|]; [|discriminate]. intros [= <-]. eauto. Qed.

Lemma decision_answer_iff_witness : exists b, sample_bundle = Ok b /\ grounded (sample_input b 0 (lit 9 10)).
Proof.
  destruct sample_input_ok as (b & Hb & Hi). pose proof sample_actions as H. rewrite Hb in H.
  apply (f_equal (fun x => fst (fst x))) in H. cbn [fst] in H. apply action_of_Some in H as (d & Hd & Ha).
  exists b. split; [exact Hb|]. destruct (Hi 0 (lit 9 10) ltac:(lia)) as [H1 H2].
  exact (proj1 (decision_answer_iff _ _ _ H1 H2 Hd) Ha).
Defined.

Lemma decision_total_witness : exists b d, sample_bundle = Ok b
  /\ decide default_validator (sample_input b 0 (lit 9 10)) = Ok d /\ decision_wf d.
Proof.
  destruct sample_input_ok as (b & Hb & Hi). destruct (Hi 0 (lit 9 10) ltac:(lia)) as [H1 H2].
  destruct (decision_total _ _ H1 H2) as (d & Hd & Hw & _). exists b, d. auto.
Defined.

Lemma decision_retry_bounded_witness : exists b, sample_bundle = Ok b
  /\ Z.of_nat (length [sample_input b 0 (lit 1 10)]) <= Z.max 0 (max_retrieval_attempts default_policy).
Proof.
  destruct sample_input_ok as (b & Hb & Hi). pose proof sample_actions as H. rewrite Hb in H.
  apply (f_equal (fun x => snd (fst x))) in H. cbn [fst snd] in H. apply action_of_Some in H as (d & Hd & Ha).
  exists b. split; [exact Hb|]. apply (decision_retry_bounded default_validator).
  intros [|k] i; [|discriminate]. intros [= <-]. destruct (Hi 0 (lit 1 10) ltac:(lia)) as [H1 H2]. eauto 10.
Defined.
