(* ===== verification/IngestionJobs.v ===== *)
(** * Ingestion jobs (packages/ingestion, jobs.py)

    The job a pipeline drives through its stages, with bounded heartbeats.
    [time.time()] is an argument of the operations that read it. *)

From Stdlib Require Import Ascii String.
From stdpp Require Import strings.
From S2P Require Import Prelude PyFloat PyStr PyVal.

Local Open Scope string_scope.
Local Open Scope Z_scope.
Local Open Scope list_scope.

Definition TERMINAL_STATES : list string := ["published"; "failed"; "cancelled"].
Definition MAX_HEARTBEATS : nat := 128.
Definition _HEARTBEAT_FIELDS : list string := ["pages_done"; "pages_total"].

Definition _ALLOWED_TRANSITIONS : list (string * list string) :=
  [("queued", ["validating"; "cancelled"; "failed"]);
   ("validating", ["parsing"; "failed"; "cancelled"]);
   ("parsing", ["chunking"; "failed"; "cancelled"]);
   ("chunking", ["embedding"; "failed"; "cancelled"]);
   ("embedding", ["indexing"; "failed"; "cancelled"]);
   ("indexing", ["verifying"; "failed"; "cancelled"]);
   ("verifying", ["published"; "failed"; "cancelled"]);
   ("published", []);
   ("failed", ["queued"]);
   ("cancelled", ["queued"])].

Definition TRANSIENT_ERROR_CODES : list string :=
  ["provider_timeout"; "provider_unavailable"; "vector_store_unavailable"; "lock_unavailable"; "storage_unavailable"].
Definition PERMANENT_ERROR_CODES : list string := ["validation_error"; "unsupported_media_type"; "request_too_large"].

Definition is_retryable (error_code : option string) : bool :=
  match error_code with
  | None => false
  | Some c => if str_in c TRANSIENT_ERROR_CODES then true else if str_in c PERMANENT_ERROR_CODES then false else false
  end.

Inductive ingestion_error : Type := InvalidTransitionError.

Record IngestionJob : Type := mk_ijob {
  ij_tenant_id : string; ij_workspace_id : string; ij_collection_id : string; ij_job_id : string;
  ij_document_id : option string; ij_status : string; ij_stage : string; ij_progress : pyfloat; ij_attempt : Z;
  ij_error_code : option string; ij_safe_error_message : option string;
  ij_created_at : pyfloat; ij_started_at : option pyfloat; ij_finished_at : option pyfloat;
  ij_cancel_requested : bool; ij_heartbeats : list pyval; ij_metadata : list (string * pyval) }.

(** [IngestionJob(tenant_id=..., workspace_id=..., collection_id=...)]. *)
Definition IngestionJob_new (tenant workspace collection job_id : string) (now : pyfloat) : IngestionJob :=
  mk_ijob tenant workspace collection job_id None "queued" "queued" (Fin 0) 1 None None now None None false [] [].

(** [min(1.0, max(0.0, progress))]. *)
Definition clamp (p : pyfloat) : pyfloat := fmin (lit 1 1) (fmax (Fin 0) p).

Definition is_restart (status to_status : string) : bool :=
  str_in status ["failed"; "cancelled"] && str_eqb to_status "queued".

Definition job_transition (now : pyfloat) (to_status : string) (error_code message : option string)
    (progress : option pyfloat) (j : IngestionJob) : res ingestion_error IngestionJob :=
  raise_if (negb (str_in to_status (from_option id [] (dict_get (ij_status j) _ALLOWED_TRANSITIONS)))) InvalidTransitionError;;
  Ok (mk_ijob (ij_tenant_id j) (ij_workspace_id j) (ij_collection_id j) (ij_job_id j) (ij_document_id j)
        to_status to_status
        (match progress with Some p => clamp p | None => ij_progress j end)
        (if is_restart (ij_status j) to_status then ij_attempt j + 1 else ij_attempt j)
        error_code message (ij_created_at j)
        (match ij_started_at j with
         | None => if str_eqb to_status "queued" then None else Some now
         | s => s
         end)
        (if str_in to_status TERMINAL_STATES then Some now else ij_finished_at j)
        (ij_cancel_requested j) (ij_heartbeats j) (ij_metadata j)).

Definition compensate_published_failure (now : pyfloat) (error_code message : string) (j : IngestionJob)
    : res ingestion_error IngestionJob :=
  raise_if (negb (str_eqb (ij_status j) "published")) InvalidTransitionError;;
  Ok (mk_ijob (ij_tenant_id j) (ij_workspace_id j) (ij_collection_id j) (ij_job_id j) (ij_document_id j)
        "failed" "failed" (clamp (ij_progress j)) (ij_attempt j) (Some error_code) (Some message)
        (ij_created_at j) (ij_started_at j) (Some now)
        (ij_cancel_requested j) (ij_heartbeats j) (ij_metadata j)).

(** A counter a heartbeat may carry. *)
Definition safe_counter (v : pyval) : bool :=
  match v with VInt n => (0 <=? n) && (n <=? 10000000) | _ => false end.

Definition safe_fields (fields : list (string * pyval)) : list (string * pyval) :=
  flat_map (fun key => let v := dict_read key fields in if safe_counter v then [(key, v)] else []) _HEARTBEAT_FIELDS.

Definition job_heartbeat (now : pyfloat) (fields : list (string * pyval)) (j : IngestionJob) : IngestionJob :=
  let beats := ij_heartbeats j ++ [VDict (("at", VFloat now) :: ("stage", VStr (ij_stage j)) :: safe_fields fields)] in
  mk_ijob (ij_tenant_id j) (ij_workspace_id j) (ij_collection_id j) (ij_job_id j) (ij_document_id j)
    (ij_status j) (ij_stage j) (ij_progress j) (ij_attempt j) (ij_error_code j) (ij_safe_error_message j)
    (ij_created_at j) (ij_started_at j) (ij_finished_at j) (ij_cancel_requested j)
    (drop (length beats - MAX_HEARTBEATS) beats) (ij_metadata j).

(** ** Runs *)

Inductive job_call : Type :=
| Call_transition (now : pyfloat) (to_status : string) (error_code message : option string) (progress : option pyfloat)
| Call_compensate (now : pyfloat) (error_code message : string)
| Call_heartbeat (now : pyfloat) (fields : list (string * pyval)).

(** A call that raises leaves the job as it was. *)
Definition job_do (j : IngestionJob) (c : job_call) : IngestionJob :=
  match c with
  | Call_transition now to e m p => match job_transition now to e m p j with Ok j' => j' | Err _ => j end
  | Call_compensate now e m => match compensate_published_failure now e m j with Ok j' => j' | Err _ => j end
  | Call_heartbeat now f => job_heartbeat now f j
  end.

(** How many of the calls changed the status. *)
Fixpoint status_changes (calls : list job_call) (j : IngestionJob) : nat :=
  match calls with
  | [] => 0%nat
  | c :: calls' =>
      let j' := job_do j c in
      ((if str_eqb (ij_status j') (ij_status j) then 0 else 1) + status_changes calls' j')%nat
  end.

Definition job_run (calls : list job_call) (j : IngestionJob) : IngestionJob := fold_left job_do calls j.

(** ** Invariant *)

(** The place of a status on the way through one attempt. *)
Definition rank (status : string) : Z :=
  match dict_get status [("queued", 0); ("validating", 1); ("parsing", 2); ("chunking", 3); ("embedding", 4);
                         ("indexing", 5); ("verifying", 6); ("published", 7); ("cancelled", 8); ("failed", 8)] with
  | Some r => r
  | None => 8
  end.

(** A heartbeat holds a time, a stage and bounded counters, nothing else. *)
Definition safe_heartbeat (v : pyval) : Prop :=
  exists at_ stage fields, v = VDict (("at", VFloat at_) :: ("stage", VStr stage) :: fields)
  /\ str_in stage (dict_keys _ALLOWED_TRANSITIONS) = true
  /\ forall k x, In (k, x) fields -> In k _HEARTBEAT_FIELDS /\ exists n, x = VInt n /\ 0 <= n <= 10000000.

Record job_inv (j : IngestionJob) : Prop := {
  ji_status : str_in (ij_status j) (dict_keys _ALLOWED_TRANSITIONS) = true;
  ji_stage : ij_stage j = ij_status j;
  ji_attempt : 1 <= ij_attempt j;
  ji_progress : fle (Fin 0) (ij_progress j) = true /\ fle (ij_progress j) (lit 1 1) = true;
  ji_beats : (length (ij_heartbeats j) <= MAX_HEARTBEATS)%nat;
  ji_safe : forall v, In v (ij_heartbeats j) -> safe_heartbeat v;
  ji_finished : str_in (ij_status j) TERMINAL_STATES = true -> ij_finished_at j <> None;
  ji_started : ij_status j <> "queued" -> ij_started_at j <> None }.
