(* ===== verification/IngestionJobProperties.v ===== *)
(** * Properties of ingestion jobs

    Every run of a job keeps its invariant, and the number of status changes
    is bounded by the number of attempts. *)

From Stdlib Require Import Ascii String.
From stdpp Require Import strings.
From S2P Require Import Prelude PyFloat PyStr PyVal IngestionJobs.

Local Open Scope string_scope.
Local Open Scope Z_scope.
Local Open Scope list_scope.

(** ** Bounds of the fields *)

Lemma lit_1_Fin : exists m, lit 1 1 = Fin m /\ 0 <= m.
Proof. exists (2 ^ 1074). split; [vm_compute; reflexivity | lia]. Qed.

Lemma clamp_bounded p : fle (Fin 0) (clamp p) = true /\ fle (clamp p) (lit 1 1) = true.
Proof.
  unfold clamp. destruct lit_1_Fin as (m & -> & Hm).
  assert (exists q, fmin (Fin m) (fmax (Fin 0) p) = Fin q /\ 0 <= q <= m) as (q & -> & Hq).
  - unfold fmin, fmax. destruct p as [x | [] | ].
    + rewrite flt_Fin. destruct (0 <? x) eqn:?; rewrite flt_Fin; split_if; bool_to_prop; eauto with lia.
    + cbn. split_if; bool_to_prop; eauto with lia.
    + exists m. cbn. auto with lia.
    + cbn. split_if; bool_to_prop; eauto with lia.
  - rewrite !fle_Fin. split; apply Z.leb_le; lia.
Qed.

Lemma safe_counter_spec v : safe_counter v = true -> exists n, v = VInt n /\ 0 <= n <= 10000000.
Proof. destruct v; cbn; try discriminate. intros H; bool_to_prop. eexists; split; [reflexivity | lia]. Qed.

Lemma safe_fields_spec fields k x :
  In (k, x) (safe_fields fields) -> In k _HEARTBEAT_FIELDS /\ exists n, x = VInt n /\ 0 <= n <= 10000000.
Proof.
  unfold safe_fields. intros (key & Hkey & H)%in_flat_map. cbv zeta in H.
  destruct (safe_counter (dict_read key fields)) eqn:Hs; [|destruct H].
  destruct H as [[= <- <-] | []]. split; [exact Hkey | apply safe_counter_spec, Hs].
Qed.

Lemma last_n_In {A} n (l : list A) x : In x (drop n l) -> In x l.
Proof. intros H. rewrite <- (take_drop n l). apply in_or_app. right. exact H. Qed.

(** ** One call *)

(** Where a status may go, and how far that takes the attempt. *)
Lemma transition_target s s' :
  str_in s' (from_option id [] (dict_get s _ALLOWED_TRANSITIONS)) = true ->
  str_in s' (dict_keys _ALLOWED_TRANSITIONS) = true
  /\ (if is_restart s s' then 9 + rank s' > rank s else rank s' > rank s) /\ s' <> s.
Proof.
  intros H. cbn in H.
  repeat match type of H with
  | context [decide (?a = s)] => destruct (decide (a = s)) as [<- | _]
  | context [if ?b then _ else _] => let E := fresh in destruct b eqn:E; [apply str_eqb_eq in E; subst s|]
  end;
  apply str_in_spec in H; unfold from_option, id in H; elem_cases H; try (now inversion H);
  subst; (split; [reflexivity | split; [reflexivity | discriminate]]).
Qed.

Lemma job_inv_new tenant workspace collection job_id now : job_inv (IngestionJob_new tenant workspace collection job_id now).
Proof.
  constructor; cbn; try reflexivity; try discriminate; try congruence; try lia; try tauto.
Qed.

Lemma job_transition_inv now s' e m p j j' :
  job_inv j -> job_transition now s' e m p j = Ok j' -> job_inv j'.
Proof.
  intros [Hst Hsg Ha Hp Hb Hs Hf Hr]. unfold job_transition.
  destruct (str_in s' (from_option _ _ _)) eqn:Hin; cbn [negb raise_if mbind res_mbind]; [|discriminate]. intros [= <-].
  apply transition_target in Hin as (Hk & _ & _).
  constructor; cbn [ij_status ij_stage ij_attempt ij_progress ij_heartbeats ij_finished_at ij_started_at]; try assumption.
  - reflexivity.
  - split_if; lia.
  - destruct p; [apply clamp_bounded | exact Hp].
  - intros ->. discriminate.
  - intros Hq. destruct (ij_started_at j); [discriminate|].
    destruct (str_eqb s' "queued") eqn:E; [apply str_eqb_eq in E; contradiction | discriminate].
Qed.

Lemma job_compensate_inv now e m j j' :
  job_inv j -> compensate_published_failure now e m j = Ok j' -> job_inv j'.
Proof.
  intros [Hst Hsg Ha Hp Hb Hs Hf Hr]. unfold compensate_published_failure.
  destruct (str_eqb _ _) eqn:Hin; cbn [negb raise_if mbind res_mbind]; [|discriminate]. intros [= <-].
  apply str_eqb_eq in Hin.
  constructor; cbn [ij_status ij_stage ij_attempt ij_progress ij_heartbeats ij_finished_at ij_started_at]; try assumption.
  - reflexivity.
  - reflexivity.
  - apply clamp_bounded.
  - discriminate.
  - intros _. apply Hr. rewrite Hin. discriminate.
Qed.

Lemma job_heartbeat_inv now fields j : job_inv j -> job_inv (job_heartbeat now fields j).
Proof.
  intros [Hst Hsg Ha Hp Hb Hs Hf Hr].
  constructor; cbn [ij_status ij_stage ij_attempt ij_progress ij_heartbeats ij_finished_at ij_started_at job_heartbeat]; try assumption.
  - rewrite length_drop. lia.
  - intros v H. apply last_n_In, in_app_or in H as [H | [<- | []]]; [apply Hs, H|].
    exists now, (ij_stage j), (safe_fields fields). split; [reflexivity | split].
    + rewrite Hsg. exact Hst.
    + apply safe_fields_spec.
Qed.

Lemma job_do_inv j c : job_inv j -> job_inv (job_do j c).
Proof.
  intros H. destruct c; cbn [job_do].
  - destruct (job_transition _ _ _ _ _ _) eqn:E; [eapply job_transition_inv; eassumption | exact H].
  - destruct (compensate_published_failure _ _ _ _) eqn:E; [eapply job_compensate_inv; eassumption | exact H].
  - apply job_heartbeat_inv, H.
Qed.

(** How far a job has come: nine places an attempt. *)
Definition travelled (j : IngestionJob) : Z := 9 * (ij_attempt j - 1) + rank (ij_status j).

Lemma job_do_travelled j c :
  travelled j + (if str_eqb (ij_status (job_do j c)) (ij_status j) then 0 else 1) <= travelled (job_do j c).
Proof.
  assert (Hsame : forall s, str_eqb s s = true) by (intros s; apply str_eqb_eq; reflexivity).
  destruct c; cbn [job_do].
  - unfold job_transition. destruct (str_in to_status (from_option _ _ _)) eqn:Hin; cbn [negb raise_if].
    + apply transition_target in Hin as (_ & Hr & Hne). rewrite bind_ret. unfold travelled. cbn [ij_status ij_attempt].
      destruct (str_eqb to_status (ij_status j)) eqn:E; [apply str_eqb_eq in E; contradiction|].
      destruct (is_restart _ _); lia.
    + cbn. rewrite Hsame. lia.
  - unfold compensate_published_failure. destruct (str_eqb (ij_status j) "published") eqn:E; cbn [negb raise_if].
    + apply str_eqb_eq in E. rewrite bind_ret. unfold travelled. cbn [ij_status ij_attempt]. rewrite E. vm_compute (rank _).
      change (str_eqb "failed" "published") with false. cbn match. lia.
    + cbn. rewrite Hsame. lia.
  - unfold travelled. cbn [ij_status ij_attempt job_heartbeat]. rewrite Hsame. lia.
Qed.

Lemma job_run_travelled calls j : travelled j + Z.of_nat (status_changes calls j) <= travelled (job_run calls j).
Proof.
  revert j. induction calls as [|c calls IH]; intros j; cbn [status_changes job_run fold_left]; [lia|].
  pose proof (job_do_travelled j c). specialize (IH (job_do j c)). unfold job_run in IH.
  destruct (str_eqb _ _); lia.
Qed.

Lemma job_run_inv calls j : job_inv j -> job_inv (job_run calls j).
Proof. revert j. induction calls as [|c calls IH]; intros j H; [exact H | apply IH, job_do_inv, H]. Qed.

(** ** Properties *)

(** Whatever sequence of transitions, compensations and heartbeats the
    pipeline calls on a new job, refused ones included, the job stays well
    formed: its stage is its status, the progress is between 0 and 1, there
    are at most 128 heartbeats and each holds a time, a stage and counters up
    to ten million only, and a job that left the queue has its times.  The
    number of status changes is bounded by the place reached: nine an
    attempt, so a job that is not queued again stops changing. *)
Theorem ingestion_job_bounded tenant workspace collection job_id created calls :
  let j0 := IngestionJob_new tenant workspace collection job_id created in
  let j := job_run calls j0 in
  ij_stage j = ij_status j /\ fle (Fin 0) (ij_progress j) = true /\ fle (ij_progress j) (lit 1 1) = true
  /\ (length (ij_heartbeats j) <= 128)%nat /\ (forall v, In v (ij_heartbeats j) -> safe_heartbeat v)
  /\ (str_in (ij_status j) TERMINAL_STATES = true -> ij_finished_at j <> None)
  /\ (ij_status j <> "queued" -> ij_started_at j <> None)
  /\ 1 <= ij_attempt j
  /\ Z.of_nat (status_changes calls j0) <= 9 * (ij_attempt j - 1) + rank (ij_status j).
Proof.
  cbv zeta. set (j0 := IngestionJob_new _ _ _ _ _).
  destruct (job_run_inv calls j0 (job_inv_new _ _ _ _ _)) as [Hst Hsg Ha [Hp Hq] Hb Hs Hf Hr].
  pose proof (job_run_travelled calls j0) as Ht.
  change (travelled j0) with 0 in Ht. rewrite Z.add_0_l in Ht. unfold travelled in Ht.
  split_and!; assumption.
Qed.
