(* ===== verification/StateError.v ===== *)
(** * Stateful calls that may raise

    A method that mutates a shared object and may raise is a function from the
    object's state to the state it leaves and its outcome: a raise keeps the
    changes made before it. *)

From S2P Require Import Prelude.

Definition M (S E A : Type) : Type := S -> S * res E A.

Section monad.
Context {S E : Type}.

#[export] Instance M_ret : MRet (M S E) := fun A a s => (s, Ok a).
#[export] Instance M_bind : MBind (M S E) := fun A B f m s =>
  match m s with
  | (s', Ok a) => f a s'
  | (s', Err e) => (s', Err e)
  end.

(** A computation that reads nothing and changes nothing. *)
Definition lift {A} (r : res E A) : M S E A := fun s => (s, r).
Definition gets {A} (f : S -> A) : M S E A := fun s => (s, Ok (f s)).
Definition modify (f : S -> S) : M S E unit := fun s => (f s, Ok tt).
Definition raise {A} (e : E) : M S E A := fun s => (s, Err e).
(** [if b: raise e]. *)
Definition guard_not (b : bool) (e : E) : M S E unit := lift (raise_if b e).

(** [try: m except e: h e]; the changes made before the raise are kept. *)
Definition try_except {A} (m : M S E A) (h : E -> M S E A) : M S E A :=
  fun s => match m s with (s', Ok a) => (s', Ok a) | (s', Err e) => h e s' end.
(** [m] inside a [try] whose handlers look at the outcome. *)
Definition attempt {A} (m : M S E A) : M S E (res E A) := fun s => let '(s', r) := m s in (s', Ok r).

(** The state a call leaves, and what it gives. *)
Definition exec {A} (m : M S E A) (s : S) : S := fst (m s).
Definition eval {A} (m : M S E A) (s : S) : res E A := snd (m s).
End monad.

(** ** What a call may do to the state *)

Section effects.
Context {S E : Type}.

(** Every run of [m] relates the state before to the state after. *)
Definition respects (R : S -> S -> Prop) {A} (m : M S E A) : Prop := forall s, R s (exec m s).

(** [m] leaves the state as it was. *)
Definition reads {A} (m : M S E A) : Prop := forall s, exec m s = s.

Lemma reads_lift {A} (r : res E A) : reads (lift r).
Proof. now intros s. Qed.

Lemma reads_gets {A} (f : S -> A) : reads (gets f).
Proof. now intros s. Qed.

Lemma reads_bind {A B} (m : M S E A) (f : A -> M S E B) :
  reads m -> (forall a, reads (f a)) -> reads (m ≫= f).
Proof.
  intros Hm Hf s. specialize (Hm s). unfold exec, mbind, M_bind in *.
  destruct (m s) as [s' [a|e]]; cbn in *; subst; [apply Hf | reflexivity].
Qed.

(** A call that reads and succeeds hands its value on. *)
Lemma bind_reads {A B} (m : M S E A) (f : A -> M S E B) s :
  reads m -> (m ≫= f) s = match eval m s with Ok a => f a s | Err e => (s, Err e) end.
Proof.
  intros Hm. specialize (Hm s). unfold exec, eval, mbind, M_bind in *.
  destruct (m s) as [s' [a|e]]; cbn in *; now subst.
Qed.

Lemma exec_bind_ret {A B} (m : M S E A) (f : A -> B) s : exec (m ≫= fun a => mret (f a)) s = exec m s.
Proof. unfold exec, mbind, M_bind. now destruct (m s) as [s' [a|e]]. Qed.

Lemma exec_bind {A B} (m : M S E A) (f : A -> M S E B) s :
  exec (m ≫= f) s = match eval m s with Ok a => exec (f a) (exec m s) | Err _ => exec m s end.
Proof. unfold exec, eval, mbind, M_bind. now destruct (m s) as [s' [a|e]]. Qed.

Lemma bind_lift {A B} (r : res E A) (f : A -> M S E B) s :
  (lift r ≫= f) s = match r with Ok a => f a s | Err e => (s, Err e) end.
Proof. now destruct r. Qed.

Lemma bind_mret {A B} (a : A) (f : A -> M S E B) s : (mret a ≫= f) s = f a s.
Proof. reflexivity. Qed.

Lemma bind_guard {B} (b : bool) (e : E) (f : unit -> M S E B) s :
  (guard_not b e ≫= f) s = if b then (s, Err e) else f tt s.
Proof. now destruct b. Qed.

Lemma bind_modify {B} (g : S -> S) (f : unit -> M S E B) s : (modify g ≫= f) s = f tt (g s).
Proof. reflexivity. Qed.

Lemma bind_gets {A B} (g : S -> A) (f : A -> M S E B) s : (gets g ≫= f) s = f (g s) s.
Proof. reflexivity. Qed.

End effects.

(** A preorder on states that every call of a program respects is respected
    by the program. *)
Section preorder.
Context {S E : Type} (R : S -> S -> Prop) `{!PreOrder R}.

Lemma respects_reads {A} (m : M S E A) : reads m -> respects R m.
Proof. intros Hm s. rewrite Hm. reflexivity. Qed.

Lemma respects_bind {A B} (m : M S E A) (f : A -> M S E B) :
  respects R m -> (forall a, respects R (f a)) -> respects R (m ≫= f).
Proof.
  intros Hm Hf s. specialize (Hm s). unfold exec, mbind, M_bind in *.
  destruct (m s) as [s' [a|e]]; cbn in *; [etrans; [exact Hm | apply Hf] | exact Hm].
Qed.

Lemma respects_lift {A} (r : res E A) : respects R (lift r).
Proof. intros s. cbn. reflexivity. Qed.

Lemma respects_mret {A} (a : A) : respects R (mret (M := M S E) a).
Proof. intros s. cbn. reflexivity. Qed.

Lemma respects_raise {A} (e : E) : respects R (raise (A := A) e).
Proof. intros s. cbn. reflexivity. Qed.

Lemma respects_gets {A} (f : S -> A) : respects R (gets (E := E) f).
Proof. intros s. cbn. reflexivity. Qed.

Lemma respects_guard b (e : E) : respects R (guard_not b e).
Proof. apply respects_lift. Qed.

Lemma respects_modify f : (forall s, R s (f s)) -> respects R (modify (E := E) f).
Proof. intros H s. apply H. Qed.
End preorder.

Create HintDb respects.
#[export] Hint Resolve respects_lift respects_mret respects_raise respects_gets respects_guard respects_reads : respects.

(** Steps through a program of calls that respect a preorder. *)
Ltac respect :=
  repeat match goal with
  | |- respects _ (_ ≫= _) => apply respects_bind; [exact _ | | intros ?]
  | |- respects _ (if ?b then _ else _) => destruct b
  | |- respects _ (match ?o with _ => _ end) => destruct o
  | |- respects _ (let _ := _ in _) => cbv zeta
  | _ => solve [eauto with respects typeclass_instances]
  end.

Create HintDb reads.
#[export] Hint Resolve reads_lift reads_gets reads_bind : reads.

(** The next call of a monadic program that runs on a known state. *)
Ltac mstep := cbv beta zeta; first [rewrite bind_lift | rewrite bind_guard | rewrite bind_gets | rewrite bind_modify].

(** ** Postconditions *)

Section wp.
Context {S E : Type}.

(** From [s], [m] returns with [Q] or raises with [R]. *)
Definition wp {A} (m : M S E A) (Q : A -> S -> Prop) (R : E -> S -> Prop) (s : S) : Prop :=
  match m s with (s', Ok a) => Q a s' | (s', Err e) => R e s' end.

Lemma wp_bind {A B} (m : M S E A) (f : A -> M S E B) Q R s :
  wp m (fun a => wp (f a) Q R) R s -> wp (m ≫= f) Q R s.
Proof. unfold wp, mbind, M_bind. now destruct (m s) as [s' [a|e]]. Qed.

Lemma wp_mono {A} (m : M S E A) (Q Q' : A -> S -> Prop) (R R' : E -> S -> Prop) s :
  wp m Q R s -> (forall a s', Q a s' -> Q' a s') -> (forall e s', R e s' -> R' e s') -> wp m Q' R' s.
Proof. unfold wp. destruct (m s) as [s' [a|e]]; auto. Qed.

Lemma wp_attempt {A} (m : M S E A) Q R s :
  wp m (fun a => Q (Ok a)) (fun e => Q (Err e)) s -> wp (attempt m) Q R s.
Proof. unfold wp, attempt. now destruct (m s) as [s' [a|e]]. Qed.

Lemma wp_try {A} (m : M S E A) h Q R s : wp m Q (fun e => wp (h e) Q R) s -> wp (try_except m h) Q R s.
Proof. unfold wp, try_except. now destruct (m s) as [s' [a|e]]. Qed.

Lemma wp_lift {A} (r : res E A) (Q : A -> S -> Prop) (R : E -> S -> Prop) s :
  (forall a, r = Ok a -> Q a s) -> (forall e, r = Err e -> R e s) -> wp (lift r) Q R s.
Proof. unfold wp, lift. destruct r; auto. Qed.

Lemma wp_guard (b : bool) (e : E) (Q : unit -> S -> Prop) R s :
  (b = false -> Q tt s) -> (b = true -> R e s) -> wp (guard_not b e) Q R s.
Proof. destruct b; cbn; auto. Qed.

Lemma wp_modify (f : S -> S) (Q : unit -> S -> Prop) R s : Q tt (f s) -> wp (modify (E := E) f) Q R s.
Proof. exact id. Qed.

Lemma wp_gets {A} (f : S -> A) (Q : A -> S -> Prop) R s : Q (f s) s -> wp (gets (E := E) f) Q R s.
Proof. exact id. Qed.

Lemma wp_ret {A} (a : A) (Q : A -> S -> Prop) (R : E -> S -> Prop) s : Q a s -> wp (mret (M := M S E) a) Q R s.
Proof. exact id. Qed.

Lemma wp_raise {A} (e : E) (Q : A -> S -> Prop) (R : E -> S -> Prop) s : R e s -> wp (raise e) Q R s.
Proof. exact id. Qed.

Lemma wp_run {A} (m : M S E A) s s' r Q R :
  wp m Q R s -> m s = (s', r) -> match r with Ok a => Q a s' | Err e => R e s' end.
Proof. unfold wp. intros H E0. rewrite E0 in H. exact H. Qed.
End wp.

(** One step of a program under [wp]. *)
Ltac wp_step :=
  match goal with
  | |- wp (_ ≫= _) _ _ _ => apply wp_bind
  | |- wp (attempt _) _ _ _ => apply wp_attempt
  | |- wp (lift _) _ _ _ => apply wp_lift; [intros ? ? | intros ? ?]
  | |- wp (guard_not _ _) _ _ _ => apply wp_guard; intros ?
  | |- wp (modify _) _ _ _ => apply wp_modify
  | |- wp (gets _) _ _ _ => apply wp_gets
  | |- wp (mret _) _ _ _ => apply wp_ret
  | |- wp (raise _) _ _ _ => apply wp_raise
  end.
