(* ===== verification/KnowledgeModels.v ===== *)
(** * Knowledge models and catalog aliases (packages/knowledge)

    models.py (documents, chunks, collections, lineage), the metadata encoding
    of json_boundary.py, and the pure part of fencing.py: ownership,
    tombstones and the alias family of a collection.  The clock of
    [utc_timestamp] is an argument; lineage timestamps are [None] or strings
    (a [datetime] is not represented). *)

From Stdlib Require Import Ascii String.
From stdpp Require Import strings.
From S2P Require Import Prelude PyFloat PyStr PyVal Json CanonicalJson StateError.

Local Open Scope string_scope.
Local Open Scope Z_scope.
Local Open Scope list_scope.

(** The exceptions of the package; [KeyError] is a missing dict key. *)
Inductive k_error : Type := OwnershipLostError | ValueError | KeyError.

#[export] Instance k_error_eq_dec : EqDecision k_error.
Proof. solve_decision. Defined.

(** ** json_boundary.py *)

Definition MAX_METADATA_JSON_BYTES : Z := 256 * 1024.

Definition encode_metadata (value : pyval) : res k_error string :=
  match value with
  | VDict _ =>
      match json_utf8 value with
      | Some encoded => raise_if (MAX_METADATA_JSON_BYTES <? utf8_len encoded) ValueError;; Ok encoded
      | None => Err ValueError
      end
  | _ => Err ValueError
  end.

(** ** models.py *)

Definition DOCUMENT_STATUSES : list string :=
  ["draft"; "processing"; "published"; "unpublished"; "deleted"; "partial"; "failed"].

Record Document : Type := mk_document {
  d_document_id : string; d_workspace_id : string; d_collection_id : string; d_tenant_id : string;
  d_document_version : string; d_content_checksum : string; d_filename : string; d_display_filename : string;
  d_title : string; d_source_type : string; d_mime_type : string; d_language : option string; d_status : string;
  d_parser_version : string; d_chunker_version : string; d_embedding_model : string; d_embedding_version : string;
  d_metadata : list (string * pyval); d_ingestion_version : string; d_object_ref : string;
  d_created_at : option string; d_published_at : option string }.

Record Chunk : Type := mk_chunk {
  ch_chunk_id : string; ch_document_id : string; ch_tenant_id : string; ch_parent_chunk_id : option string;
  ch_chunk_index : Z; ch_text : string; ch_page_start : option Z; ch_page_end : option Z; ch_section : option string;
  ch_heading : option string; ch_token_count : Z; ch_checksum : string; ch_parser_version : string;
  ch_chunker_version : string; ch_embedding_version : string; ch_index_version : string;
  ch_metadata : list (string * pyval) }.

Record Collection : Type := mk_collection {
  co_workspace_id : string; co_collection_id : string; co_tenant_id : string; co_title : string;
  co_description : string; co_status : string; co_version : Z; co_metadata : list (string * pyval) }.

Definition with_status (s : string) (d : Document) : Document :=
  mk_document (d_document_id d) (d_workspace_id d) (d_collection_id d) (d_tenant_id d) (d_document_version d)
    (d_content_checksum d) (d_filename d) (d_display_filename d) (d_title d) (d_source_type d) (d_mime_type d)
    (d_language d) s (d_parser_version d) (d_chunker_version d) (d_embedding_model d) (d_embedding_version d)
    (d_metadata d) (d_ingestion_version d) (d_object_ref d) (d_created_at d) (d_published_at d).

Definition with_filename (f : string) (d : Document) : Document :=
  mk_document (d_document_id d) (d_workspace_id d) (d_collection_id d) (d_tenant_id d) (d_document_version d)
    (d_content_checksum d) f (d_display_filename d) (d_title d) (d_source_type d) (d_mime_type d)
    (d_language d) (d_status d) (d_parser_version d) (d_chunker_version d) (d_embedding_model d) (d_embedding_version d)
    (d_metadata d) (d_ingestion_version d) (d_object_ref d) (d_created_at d) (d_published_at d).

Definition with_lineage (ingestion object_ref : string) (created published : option string) (d : Document) : Document :=
  mk_document (d_document_id d) (d_workspace_id d) (d_collection_id d) (d_tenant_id d) (d_document_version d)
    (d_content_checksum d) (d_filename d) (d_display_filename d) (d_title d) (d_source_type d) (d_mime_type d)
    (d_language d) (d_status d) (d_parser_version d) (d_chunker_version d) (d_embedding_model d) (d_embedding_version d)
    (d_metadata d) ingestion object_ref created published.

Definition with_collection_id (c : string) (k : Collection) : Collection :=
  mk_collection (co_workspace_id k) c (co_tenant_id k) (co_title k) (co_description k) (co_status k) (co_version k)
    (co_metadata k).

(** [bool(value.strip())]. *)
Definition nonblank (s : string) : bool := negb (is_empty (strip s)).

Definition _timestamp_text (value : option string) : res k_error (option string) :=
  match value with
  | None => Ok None
  | Some s => if nonblank s then Ok (Some (strip s)) else Err ValueError
  end.

(** [a or b] for strings. *)
Definition str_or (a b : string) : string := if is_empty a then b else a.

Definition object_ref_default (d : Document) : string :=
  match dict_read "object_key" (d_metadata d) with
  | VStr s => if nonblank s then s else str_or (str_or (d_filename d) (d_display_filename d)) (d_document_id d)
  | _ => str_or (str_or (d_filename d) (d_display_filename d)) (d_document_id d)
  end.

(** Two readings of the clock: for the creation and for the publication. *)
Definition stamps : Type := string * string.

(** The document is mutated in place; a bad publication timestamp raises after
    the creation timestamp was written. *)
Definition materialize_lineage (now : stamps) (published : bool) : M Document k_error unit :=
  d ← gets id;
  created ← lift (_timestamp_text (d_created_at d));
  let created := Some (from_option id (fst now) created) in
  modify (with_lineage (d_ingestion_version d) (d_object_ref d) created (d_published_at d));;
  published_at ← lift (_timestamp_text (d_published_at d));
  modify (with_lineage
    (if nonblank (d_ingestion_version d) then strip (d_ingestion_version d) else d_document_version d)
    (if nonblank (d_object_ref d) then strip (d_object_ref d) else strip (object_ref_default d))
    created
    (match published_at with Some t => Some t | None => if published then Some (snd now) else None end)).

(** ** fencing.py *)

Definition ATTEMPT_METADATA_KEY : string := "_ingestion_attempt".

Definition CANONICAL_COLLECTION_ID : string := "rag_phase0".
Definition COLLECTION_ALIASES : list (string * string) :=
  [(CANONICAL_COLLECTION_ID, CANONICAL_COLLECTION_ID); ("cvg_master_rag", CANONICAL_COLLECTION_ID);
   ("rickvet_documents", CANONICAL_COLLECTION_ID)].

Definition canonical_catalog_id (collection_id : string) : string :=
  from_option id collection_id (dict_get (strip collection_id) COLLECTION_ALIASES).

Definition catalog_collection_ids (collection_id : string) : list string :=
  let canonical := canonical_catalog_id collection_id in
  canonical :: sort_by str_leb
    (map fst (List.filter (fun kv => str_eqb (snd kv) canonical && negb (str_eqb (fst kv) canonical)) COLLECTION_ALIASES)).

Definition is_archived (c : Collection) : bool := str_eqb (co_status c) "archived".

(** [keys.index(k)]. *)
Fixpoint index_of (k : string) (keys : list string) : nat :=
  match keys with [] => 0%nat | x :: keys' => if str_eqb x k then 0%nat else S (index_of k keys') end.

(** The order of [(status != "archived", keys.index(collection_id))]. *)
Definition catalog_before (keys : list string) (a b : Collection) : bool :=
  if Bool.eqb (is_archived a) (is_archived b)
  then (index_of (co_collection_id a) keys <? index_of (co_collection_id b) keys)%nat
  else is_archived a.

(** [min(candidates, key=...)]: the first of the least. *)
Fixpoint min_first {A} (before : A -> A -> bool) (best : A) (l : list A) : A :=
  match l with [] => best | x :: l' => min_first before (if before x best then x else best) l' end.

Definition select_catalog_collection (collections : list (option Collection)) (collection_id : string) : option Collection :=
  let keys := catalog_collection_ids collection_id in
  match List.filter (fun c => str_in (co_collection_id c) keys) (omap id collections) with
  | [] => None
  | c :: cs => Some (min_first (catalog_before keys) c cs)
  end.

(** The scope a collection guard locks: [collection_guard_key] up to its text. *)
Definition collection_guard_scope (tenant workspace collection : string) : res k_error (string * string * string) :=
  raise_if (negb (nonblank tenant && nonblank workspace && nonblank collection)) ValueError;;
  Ok (tenant, workspace, canonical_catalog_id collection).

Definition attempt_of (d : Document) : pyval := dict_read ATTEMPT_METADATA_KEY (d_metadata d).

Definition require_owner (document : option Document) (attempt_id : string) : res k_error unit :=
  match document with
  | None => Err OwnershipLostError
  | Some d => raise_if (str_eqb (d_status d) "deleted" || negb (is_str (attempt_of d) attempt_id)) OwnershipLostError
  end.

Definition opt_str_eqb (a b : option string) : bool :=
  match a, b with None, None => true | Some s, Some t => str_eqb s t | _, _ => false end.

(** Equality of every field but the status. *)
Definition same_but_status (a b : Document) : bool :=
  str_eqb (d_document_id a) (d_document_id b) && str_eqb (d_workspace_id a) (d_workspace_id b) &&
  str_eqb (d_collection_id a) (d_collection_id b) && str_eqb (d_tenant_id a) (d_tenant_id b) &&
  str_eqb (d_document_version a) (d_document_version b) && str_eqb (d_content_checksum a) (d_content_checksum b) &&
  str_eqb (d_filename a) (d_filename b) && str_eqb (d_display_filename a) (d_display_filename b) &&
  str_eqb (d_title a) (d_title b) && str_eqb (d_source_type a) (d_source_type b) &&
  str_eqb (d_mime_type a) (d_mime_type b) && opt_str_eqb (d_language a) (d_language b) &&
  str_eqb (d_parser_version a) (d_parser_version b) && str_eqb (d_chunker_version a) (d_chunker_version b) &&
  str_eqb (d_embedding_model a) (d_embedding_model b) && str_eqb (d_embedding_version a) (d_embedding_version b) &&
  py_eqb (VDict (d_metadata a)) (VDict (d_metadata b)) && str_eqb (d_ingestion_version a) (d_ingestion_version b) &&
  str_eqb (d_object_ref a) (d_object_ref b) && opt_str_eqb (d_created_at a) (d_created_at b) &&
  opt_str_eqb (d_published_at a) (d_published_at b).

Definition require_unchanged_tombstone (now : stamps) (current : option Document) (snapshot : Document) : res k_error Document :=
  match current with
  | None => Err ValueError
  | Some cur =>
      raise_if (negb (str_eqb (d_status cur) "deleted") || negb (str_in (d_status snapshot) DOCUMENT_STATUSES)) ValueError;;
      let '(candidate, outcome) := materialize_lineage now false snapshot in
      outcome ≫= fun _ =>
      let candidate := if is_empty (d_filename snapshot) && str_eqb (d_filename cur) (d_object_ref candidate)
                       then with_filename (d_filename cur) candidate else candidate in
      let candidate := match d_published_at snapshot with
                       | None => with_lineage (d_ingestion_version candidate) (d_object_ref candidate)
                                   (d_created_at candidate) (d_published_at cur) candidate
                       | Some _ => candidate
                       end in
      raise_if (negb (same_but_status cur candidate)) ValueError;;
      Ok (with_status (d_status candidate) cur)
  end.

Definition require_deleted_snapshot (now : stamps) (current : option Document) (snapshot : Document) : res k_error Document :=
  raise_if (str_eqb (d_status snapshot) "deleted") ValueError;;
  require_unchanged_tombstone now current snapshot.
