(* ===== verification/Publication.v ===== *)
(** * Publication receipts and ingestion checkpoints (packages/knowledge, publication.py)

    [PublicationStore] is written against what an adapter gives it: reads and
    writes of receipts and checkpoints.  That interface is the class
    [PublicationAdapter], with the laws its client relies on in
    [AdapterLaws].  The job argument is the ingestion job of jobs.py.  The
    guards serialise the calls: one call is one step.  The adapter's commit
    clock is an argument. *)

From Stdlib Require Import Ascii String.
From stdpp Require Import strings.
From S2P Require Import Prelude PyFloat PyStr PyVal Json CanonicalJson StateError IngestionJobs KnowledgeModels.

Local Open Scope string_scope.
Local Open Scope Z_scope.
Local Open Scope list_scope.

(** ** Snapshots *)

Record Snapshot : Type := mk_snapshot {
  sn_attempt : Z; sn_created_at : pyfloat; sn_started_at : option pyfloat; sn_finished_at : option pyfloat;
  sn_metadata : list (string * pyval); sn_heartbeats : list pyval }.

Definition opt_float (t : option pyfloat) : pyval := match t with None => VNone | Some f => VFloat f end.

Definition snapshot_value (s : Snapshot) : pyval :=
  VDict [("attempt", VInt (sn_attempt s)); ("created_at", VFloat (sn_created_at s));
         ("started_at", opt_float (sn_started_at s)); ("finished_at", opt_float (sn_finished_at s));
         ("metadata", VDict (sn_metadata s)); ("heartbeats", VList (sn_heartbeats s))].

Definition with_finished (t : option pyfloat) (s : Snapshot) : Snapshot :=
  mk_snapshot (sn_attempt s) (sn_created_at s) (sn_started_at s) t (sn_metadata s) (sn_heartbeats s).

Definition identity_ok (v : pyval) : bool :=
  match v with VStr s => nonblank s && (slen s <=? 256) | _ => false end.

Definition require_publication_identities (values : list pyval) : res k_error unit :=
  raise_if (negb (forallb identity_ok values)) ValueError.

Definition bad_time (t : pyfloat) : bool := negb (fisfinite t) || flt t (Fin 0).

Definition is_true (v : pyval) : bool := match v with VBool true => true | _ => false end.

(** Absent, or exactly the int [n]. *)
Definition absent_or_int (n : Z) (v : option pyval) : bool :=
  match v with None => true | Some (VInt m) => m =? n | Some _ => false end.

Definition times_ordered (s : Snapshot) : bool :=
  negb (from_option (fun st => flt st (sn_created_at s)) false (sn_started_at s)) &&
  negb (from_option (fun f => flt f (from_option id (sn_created_at s) (sn_started_at s))) false (sn_finished_at s)).

Definition document_owner (s : Snapshot) (attempt_id : pyval) : pyval :=
  from_option id attempt_id (dict_get "published_document_attempt" (sn_metadata s)).

Definition validate_publication_snapshot (s : Snapshot) (attempt_id document_attempt : pyval) : res k_error unit :=
  raise_if (negb ((1 <=? sn_attempt s) && (sn_attempt s <=? 64))) ValueError;;
  raise_if (bad_time (sn_created_at s) || from_option bad_time false (sn_started_at s)
            || from_option bad_time false (sn_finished_at s)) ValueError;;
  raise_if (negb (times_ordered s)) ValueError;;
  raise_if (negb (py_eqb (dict_read "publication_attempt" (sn_metadata s)) attempt_id)) OwnershipLostError;;
  let owner := document_owner s attempt_id in
  let legacy_dedup := is_true (dict_read "deduplicated" (sn_metadata s)) && is_none owner && py_eqb document_attempt attempt_id in
  raise_if (negb (py_eqb owner document_attempt) && negb legacy_dedup) OwnershipLostError;;
  raise_if (negb (absent_or_int (sn_attempt s) (dict_get "queue_attempt" (sn_metadata s)))) ValueError;;
  encode_metadata (snapshot_value s);;
  Ok tt.

(** [job.metadata["publication_attempt"]]. *)
Definition job_attempt (j : IngestionJob) : res k_error pyval :=
  match dict_get "publication_attempt" (ij_metadata j) with Some v => Ok v | None => Err KeyError end.

(** [metadata.setdefault(key, value)]. *)
Definition set_default (k : string) (v : pyval) (d : list (string * pyval)) : list (string * pyval) :=
  match dict_get k d with Some _ => d | None => dict_set k v d end.

Definition publication_snapshot (j : IngestionJob) (document_attempt : option string) : res k_error Snapshot :=
  attempt_id ← job_attempt j;
  let metadata :=
    match document_attempt with
    | Some d => if is_true (dict_read "deduplicated" (ij_metadata j))
                then set_default "published_document_attempt" (VStr d) (ij_metadata j) else ij_metadata j
    | None => ij_metadata j
    end in
  let s := mk_snapshot (ij_attempt j) (ij_created_at j) (ij_started_at j) (ij_finished_at j) metadata (ij_heartbeats j) in
  validate_publication_snapshot s attempt_id
    (match document_attempt with
     | Some d => VStr d
     | None => from_option id attempt_id (dict_get "published_document_attempt" (ij_metadata j))
     end);;
  Ok s.

(** ** Receipts and checkpoints *)

Definition pub_key : Type := string * string * string * string.

Inductive outcome : Type := pending | committed | failed | cancelled.
#[export] Instance outcome_eq_dec : EqDecision outcome.
Proof. solve_decision. Defined.

Inductive ckpt_state : Type := active | c_committed | c_failed | c_cancelled.
#[export] Instance ckpt_state_eq_dec : EqDecision ckpt_state.
Proof. solve_decision. Defined.

Definition outcome_name (o : outcome) : string :=
  match o with pending => "pending" | committed => "committed" | failed => "failed" | cancelled => "cancelled" end.
Definition state_name (c : ckpt_state) : string :=
  match c with active => "active" | c_committed => "committed" | c_failed => "failed" | c_cancelled => "cancelled" end.

Record Receipt : Type := mk_receipt {
  rc_job_id : string; rc_tenant_id : string; rc_workspace_id : string; rc_collection_id : string;
  rc_document_id : string; rc_attempt_id : string; rc_document_attempt : string; rc_outcome : outcome;
  rc_cancel_requested : bool; rc_ready_count : Z; rc_job_snapshot : Snapshot }.

Record Checkpoint : Type := mk_checkpoint {
  ck_job_id : string; ck_tenant_id : string; ck_workspace_id : string; ck_collection_id : string;
  ck_attempt_id : string; ck_document_id : option string; ck_fingerprint : pyval; ck_state : ckpt_state;
  ck_cancel_requested : bool; ck_job_snapshot : Snapshot; ck_artifacts : list (string * pyval) }.

Definition receipt_key (r : Receipt) : pub_key := (rc_tenant_id r, rc_workspace_id r, rc_collection_id r, rc_job_id r).
Definition checkpoint_key (c : Checkpoint) : pub_key := (ck_tenant_id c, ck_workspace_id c, ck_collection_id c, ck_job_id c).
Definition job_key (j : IngestionJob) : pub_key := (ij_tenant_id j, ij_workspace_id j, ij_collection_id j, ij_job_id j).

Definition with_outcome (o : outcome) (r : Receipt) : Receipt :=
  mk_receipt (rc_job_id r) (rc_tenant_id r) (rc_workspace_id r) (rc_collection_id r) (rc_document_id r) (rc_attempt_id r)
    (rc_document_attempt r) o (rc_cancel_requested r) (rc_ready_count r) (rc_job_snapshot r).
Definition with_cancel (b : bool) (r : Receipt) : Receipt :=
  mk_receipt (rc_job_id r) (rc_tenant_id r) (rc_workspace_id r) (rc_collection_id r) (rc_document_id r) (rc_attempt_id r)
    (rc_document_attempt r) (rc_outcome r) b (rc_ready_count r) (rc_job_snapshot r).
Definition with_snapshot (s : Snapshot) (r : Receipt) : Receipt :=
  mk_receipt (rc_job_id r) (rc_tenant_id r) (rc_workspace_id r) (rc_collection_id r) (rc_document_id r) (rc_attempt_id r)
    (rc_document_attempt r) (rc_outcome r) (rc_cancel_requested r) (rc_ready_count r) s.

Definition checkpoint_with (document_id : option string) (fingerprint : pyval) (state : ckpt_state) (cancel : bool)
    (s : Snapshot) (artifacts : list (string * pyval)) (c : Checkpoint) : Checkpoint :=
  mk_checkpoint (ck_job_id c) (ck_tenant_id c) (ck_workspace_id c) (ck_collection_id c) (ck_attempt_id c)
    document_id fingerprint state cancel s artifacts.

Definition opt_str (s : option string) : pyval := match s with None => VNone | Some t => VStr t end.

Definition checkpoint_value (c : Checkpoint) : pyval :=
  VDict [("job_id", VStr (ck_job_id c)); ("tenant_id", VStr (ck_tenant_id c)); ("workspace_id", VStr (ck_workspace_id c));
         ("collection_id", VStr (ck_collection_id c)); ("attempt_id", VStr (ck_attempt_id c));
         ("document_id", opt_str (ck_document_id c)); ("fingerprint", ck_fingerprint c);
         ("state", VStr (state_name (ck_state c))); ("cancel_requested", VBool (ck_cancel_requested c));
         ("job_snapshot", snapshot_value (ck_job_snapshot c)); ("artifacts", VDict (ck_artifacts c))].

Definition MAX_CHECKPOINT_BYTES : Z := 64 * 1024 * 1024.

Definition encode_checkpoint (record : pyval) : res k_error string :=
  match json_utf8 record with
  | Some encoded => raise_if (MAX_CHECKPOINT_BYTES <? utf8_len encoded) ValueError;; Ok encoded
  | None => Err ValueError
  end.

Definition _publication_matches (r : Receipt) (d : Document) : bool :=
  str_eqb (rc_document_id r) (d_document_id d) && str_eqb (rc_tenant_id r) (d_tenant_id d)
  && str_eqb (rc_workspace_id r) (d_workspace_id d) && str_eqb (rc_collection_id r) (d_collection_id d)
  && is_str (attempt_of d) (rc_document_attempt r).

(** A new decision, stamped with the adapter's clock unless that regressed. *)
Definition _terminal_publication (now : pyfloat) (current : Receipt) (o : outcome) : res k_error Receipt :=
  let saved := rc_job_snapshot current in
  validate_publication_snapshot saved (VStr (rc_attempt_id current)) (VStr (rc_document_attempt current));;
  raise_if (negb (bool_decide (rc_outcome current = pending))) OwnershipLostError;;
  let lower := from_option id (sn_created_at saved) (sn_started_at saved) in
  let saved' := match sn_finished_at saved with
                | None => if fisfinite now && fle lower now then with_finished (Some now) saved else saved
                | Some _ => saved
                end in
  Ok (with_outcome o (with_snapshot saved' current)).

(** What a write keeps of the stored receipt of the same attempt. *)
Definition merge_receipt (current : option Receipt) (candidate : Receipt) : Receipt :=
  match current with
  | Some cur =>
      if str_eqb (rc_attempt_id cur) (rc_attempt_id candidate) then
        let o := if bool_decide (rc_outcome cur = pending) then rc_outcome candidate else rc_outcome cur in
        let cancel := rc_cancel_requested candidate || rc_cancel_requested cur in
        with_outcome (if cancel && bool_decide (o = failed) then cancelled else o) (with_cancel cancel candidate)
      else candidate
  | None => candidate
  end.

Definition mark_receipt (attempt : pyval) (r : Receipt) : Receipt :=
  if is_str attempt (rc_attempt_id r) && bool_decide (rc_outcome r = pending) then with_cancel true r else r.

(** ** The adapter *)

Class PublicationAdapter (St : Type) : Type := {
  read_publication : pub_key -> St -> option Receipt;
  write_publication : Receipt -> St -> St;
  mark_publication_cancel : pub_key -> pyval -> St -> St;
  read_checkpoint : pub_key -> St -> option Checkpoint;
  write_checkpoint : Checkpoint -> M St k_error unit }.

(** Reading back, and the merge a write makes. *)
Class AdapterLaws (St : Type) {A : PublicationAdapter St} : Prop := {
  read_write_publication : forall r s k,
    read_publication k (write_publication r s) =
    if decide (k = receipt_key r) then Some (merge_receipt (read_publication k s) r) else read_publication k s;
  checkpoint_write_publication : forall r s k, read_checkpoint k (write_publication r s) = read_checkpoint k s;
  read_mark : forall a s k k',
    read_publication k' (mark_publication_cancel k a s) =
    if decide (k' = k) then mark_receipt a <$> read_publication k s else read_publication k' s;
  checkpoint_mark : forall a s k k', read_checkpoint k' (mark_publication_cancel k a s) = read_checkpoint k' s;
  read_write_checkpoint : forall c s k,
    read_checkpoint k (exec (write_checkpoint c) s) =
    match eval (write_checkpoint c) s with
    | Ok _ => if decide (k = checkpoint_key c) then Some c else read_checkpoint k s
    | Err _ => read_checkpoint k s
    end;
  publication_write_checkpoint : forall c s k, read_publication k (exec (write_checkpoint c) s) = read_publication k s }.

(** ** The store's operations *)

Section store.
Context {St : Type} `{A : PublicationAdapter St}.

Definition key_values (k : pub_key) : list pyval :=
  let '(tenant, workspace, collection, job) := k in [VStr job; VStr tenant; VStr workspace; VStr collection].

Definition get_publication (k : pub_key) : M St k_error (option Receipt) :=
  lift (require_publication_identities (key_values k));;
  gets (read_publication k).

Definition get_ingestion_checkpoint (k : pub_key) : M St k_error (option Checkpoint) :=
  lift (require_publication_identities (key_values k));;
  record ← gets (read_checkpoint k);
  match record with
  | None => mret None
  | Some c =>
      guard_not (negb (bool_decide (checkpoint_key c = k))) OwnershipLostError;;
      lift (validate_publication_snapshot (ck_job_snapshot c) (VStr (ck_attempt_id c))
              (document_owner (ck_job_snapshot c) (VStr (ck_attempt_id c))));;
      lift (encode_checkpoint (checkpoint_value c));;
      mret (Some c)
  end.

Definition opt_feq (a b : option pyfloat) : bool :=
  match a, b with None, None => true | Some x, Some y => feq x y | _, _ => false end.

Definition _checkpoint_supplies_finish (current : Receipt) (finished : pyfloat) : M St k_error bool :=
  checkpoint ← get_ingestion_checkpoint (receipt_key current);
  mret match checkpoint with
       | None => false
       | Some c =>
           let a := ck_job_snapshot c in
           let b := rc_job_snapshot current in
           str_eqb (ck_attempt_id c) (rc_attempt_id current)
           && str_eqb (state_name (ck_state c)) (outcome_name (rc_outcome current))
           && opt_str_eqb (ck_document_id c) (Some (rc_document_id current))
           && ((sn_attempt a =? sn_attempt b) && feq (sn_created_at a) (sn_created_at b)
               && opt_feq (sn_started_at a) (sn_started_at b))
           && opt_feq (sn_finished_at a) (Some finished)
       end.

Definition facts_changed (saved : Snapshot) (j : IngestionJob) : bool :=
  negb (ij_attempt j =? sn_attempt saved) || negb (feq (ij_created_at j) (sn_created_at saved))
  || match sn_started_at saved with None => false | Some s => negb (opt_feq (ij_started_at j) (Some s)) end.

Definition _check_checkpoint_facts (current : Checkpoint) (j : IngestionJob) : res k_error unit :=
  raise_if (facts_changed (ck_job_snapshot current) j) OwnershipLostError.

Definition is_final (s : ckpt_state) : bool := bool_decide (s = c_committed) || bool_decide (s = c_cancelled).

(** [{"published": "committed", "failed": "failed", "cancelled": "cancelled"}[status]]. *)
Definition outcome_of_status (status : string) : res k_error outcome :=
  match dict_get status [("published", committed); ("failed", failed); ("cancelled", cancelled)] with
  | Some o => Ok o
  | None => Err KeyError
  end.

Definition status_of_outcome (o : outcome) : string :=
  match o with pending => EmptyString | committed => "published" | failed => "failed" | cancelled => "cancelled" end.

Definition state_of_outcome (o : outcome) : ckpt_state :=
  match o with pending => active | committed => c_committed | failed => c_failed | cancelled => c_cancelled end.

(** A string attempt, as [require_publication_identities] leaves it. *)
Definition attempt_text (v : pyval) : res k_error string := match v with VStr s => Ok s | _ => Err ValueError end.

Definition begin_ingestion_checkpoint (j : IngestionJob) : M St k_error Checkpoint :=
  attempt ← lift (job_attempt j);
  lift (require_publication_identities (key_values (job_key j) ++ [attempt]));;
  attempt_id ← lift (attempt_text attempt);
  snapshot ← lift (publication_snapshot j None);
  current ← get_ingestion_checkpoint (job_key j);
  let record := mk_checkpoint (ij_job_id j) (ij_tenant_id j) (ij_workspace_id j) (ij_collection_id j) attempt_id None VNone
                  active false snapshot [] in
  match current with
  | Some c =>
      if str_eqb (ck_attempt_id c) attempt_id then
        lift (_check_checkpoint_facts c j);;
        mret c
      else
        guard_not (negb (ij_attempt j =? sn_attempt (ck_job_snapshot c) + 1) || is_final (ck_state c)) OwnershipLostError;;
        write_checkpoint record;;
        mret record
  | None =>
      write_checkpoint record;;
      mret record
  end.

(** A saved output may only be repeated, or a vector list extended. *)
Definition output_unchanged (artifacts : list (string * pyval)) (entry : string * pyval) : bool :=
  let '(key, saved) := entry in
  match dict_get key artifacts with
  | None => false
  | Some proposed =>
      match str_eqb key "vectors", saved, proposed with
      | true, VList s, VList p => (length s <=? length p)%nat && py_eqb (VList (take (length s) p)) (VList s)
      | _, _, _ => py_eqb proposed saved
      end
  end.

Definition set_cancel_requested (j : IngestionJob) : IngestionJob :=
  mk_ijob (ij_tenant_id j) (ij_workspace_id j) (ij_collection_id j) (ij_job_id j) (ij_document_id j)
    (ij_status j) (ij_stage j) (ij_progress j) (ij_attempt j) (ij_error_code j) (ij_safe_error_message j)
    (ij_created_at j) (ij_started_at j) (ij_finished_at j) true (ij_heartbeats j) (ij_metadata j).

(** Gives the job too: a requested cancellation is handed to the worker. *)
Definition save_ingestion_checkpoint (j : IngestionJob) (fingerprint : pyval) (artifacts : list (string * pyval))
    : M St k_error (IngestionJob * Checkpoint) :=
  lift (encode_checkpoint (VDict artifacts));;
  current ← get_ingestion_checkpoint (job_key j);
  match current with
  | None => raise OwnershipLostError
  | Some c =>
      attempt ← lift (job_attempt j);
      guard_not (negb (is_str attempt (ck_attempt_id c))) OwnershipLostError;;
      guard_not (negb (bool_decide (ck_state c = active))) OwnershipLostError;;
      lift (_check_checkpoint_facts c j);;
      guard_not (negb (is_none (ck_fingerprint c))
                 && (negb (py_eqb (ck_fingerprint c) fingerprint) || negb (opt_str_eqb (ck_document_id c) (ij_document_id j))))
        OwnershipLostError;;
      if ck_cancel_requested c then mret (set_cancel_requested j, c)
      else
        guard_not (negb (forallb (output_unchanged artifacts) (ck_artifacts c))) OwnershipLostError;;
        snapshot ← lift (publication_snapshot j None);
        let candidate := checkpoint_with (ij_document_id j) fingerprint (ck_state c) (ck_cancel_requested c) snapshot artifacts c in
        write_checkpoint candidate;;
        mret (j, candidate)
  end.

(** The receipt contradicts the finish of the checkpoint of its attempt. *)
Definition finish_refused (c : Checkpoint) (j : IngestionJob) (state : outcome) (receipt : option Receipt) : bool :=
  match receipt with
  | None => false
  | Some r =>
      str_eqb (rc_attempt_id r) (ck_attempt_id c)
      && (negb (bool_decide (rc_outcome r = state))
          || (negb (opt_feq (ij_finished_at j) (sn_finished_at (rc_job_snapshot r)))
              && negb (is_none (opt_float (sn_finished_at (rc_job_snapshot r)))
                       && bool_decide (ck_state c = state_of_outcome state)
                       && negb (is_none (opt_float (sn_finished_at (ck_job_snapshot c))))
                       && opt_feq (sn_finished_at (ck_job_snapshot c)) (ij_finished_at j))))
  end.

Definition finish_ingestion_checkpoint (j : IngestionJob) : M St k_error unit :=
  current ← get_ingestion_checkpoint (job_key j);
  match current with
  | None => mret tt
  | Some c =>
      attempt ← lift (job_attempt j);
      guard_not (negb (is_str attempt (ck_attempt_id c))) OwnershipLostError;;
      lift (_check_checkpoint_facts c j);;
      guard_not (negb (is_none (opt_float (sn_finished_at (ck_job_snapshot c))))
                 && negb (opt_feq (ij_finished_at j) (sn_finished_at (ck_job_snapshot c)))) OwnershipLostError;;
      state ← lift (outcome_of_status (ij_status j));
      receipt ← get_publication (job_key j);
      guard_not (finish_refused c j state receipt) OwnershipLostError;;
      guard_not (negb (bool_decide (ck_state c = active)) && negb (bool_decide (ck_state c = state_of_outcome state)))
        OwnershipLostError;;
      snapshot ← lift (publication_snapshot j None);
      write_checkpoint (checkpoint_with (ck_document_id c) (ck_fingerprint c) (state_of_outcome state)
                          (ck_cancel_requested c || ij_cancel_requested j) snapshot [] c)
  end.

Definition repairable (c : Checkpoint) (r : Receipt) : bool :=
  bool_decide (ck_state c = c_committed) && bool_decide (rc_outcome r = committed)
  && str_eqb (ck_attempt_id c) (rc_attempt_id r) && is_none (opt_str (ck_document_id c))
  && is_none (ck_fingerprint c) && bool_decide (length (ck_artifacts c) = 0%nat)
  && Bool.eqb (ck_cancel_requested c) (rc_cancel_requested r)
  && py_eqb (snapshot_value (ck_job_snapshot c)) (snapshot_value (rc_job_snapshot r))
  && is_true (dict_read "deduplicated" (sn_metadata (rc_job_snapshot r))).

Definition repair_deduplicated_checkpoint (j : IngestionJob) : M St k_error bool :=
  current ← get_ingestion_checkpoint (job_key j);
  receipt ← get_publication (job_key j);
  match current, receipt with
  | Some c, Some r =>
      if repairable c r then
        write_checkpoint (checkpoint_with (Some (rc_document_id r)) (ck_fingerprint c) (ck_state c) (ck_cancel_requested c)
                            (ck_job_snapshot c) (ck_artifacts c) c);;
        mret true
      else mret false
  | _, _ => mret false
  end.

Definition request_ingestion_cancel (j : IngestionJob) : M St k_error unit :=
  attempt ← lift (job_attempt j);
  lift (require_publication_identities (key_values (job_key j) ++ [attempt]));;
  receipt ← get_publication (job_key j);
  if match receipt with Some r => bool_decide (rc_outcome r = committed) | None => false end then mret tt
  else
    current ← begin_ingestion_checkpoint j;
    if bool_decide (ck_state current = c_committed) then mret tt
    else
      write_checkpoint (checkpoint_with (ck_document_id current) (ck_fingerprint current) (ck_state current) true
                          (ck_job_snapshot current) (ck_artifacts current) current);;
      match receipt with
      | Some r =>
          if bool_decide (rc_outcome r = pending) && str_eqb (rc_attempt_id r) (ck_attempt_id current)
             && (sn_attempt (rc_job_snapshot r) =? ij_attempt j)
          then modify (mark_publication_cancel (job_key j) attempt)
          else mret tt
      | None => mret tt
      end.

(** A receipt of the same attempt must be the same publication; another
    attempt follows a failed one, exactly one further. *)
Definition check_previous (j : IngestionJob) (attempt_id document_id document_attempt : string) (previous : Receipt)
    : res k_error unit :=
  if str_eqb (rc_attempt_id previous) attempt_id then
    raise_if (negb (str_eqb (rc_document_id previous) document_id)
              || negb (str_eqb (rc_document_attempt previous) document_attempt)) OwnershipLostError;;
    raise_if (negb (sn_attempt (rc_job_snapshot previous) =? ij_attempt j)) OwnershipLostError
  else
    raise_if (negb (bool_decide (rc_outcome previous = failed))) OwnershipLostError;;
    raise_if (negb (ij_attempt j =? sn_attempt (rc_job_snapshot previous) + 1)) OwnershipLostError.

Definition begin_publication (j : IngestionJob) (document_attempt : option string) (ready_count : Z) : M St k_error unit :=
  attempt ← lift (job_attempt j);
  lift (require_publication_identities (key_values (job_key j) ++
          [opt_str (ij_document_id j); attempt; from_option VStr attempt document_attempt]));;
  attempt_id ← lift (attempt_text attempt);
  document_id ← lift (attempt_text (opt_str (ij_document_id j)));
  let owner := from_option id attempt_id document_attempt in
  guard_not (negb ((0 <=? ready_count) && (ready_count <=? 100000))) ValueError;;
  guard_not (ij_attempt j <? 1) ValueError;;
  snapshot ← lift (publication_snapshot j (Some owner));
  checkpoint ← get_ingestion_checkpoint (job_key j);
  guard_not match checkpoint with
            | Some c => negb (str_eqb (ck_attempt_id c) attempt_id)
                        || negb (sn_attempt (ck_job_snapshot c) =? ij_attempt j)
            | None => false
            end OwnershipLostError;;
  let cancel := match checkpoint with Some c => ck_cancel_requested c | None => false end in
  let record := mk_receipt (ij_job_id j) (ij_tenant_id j) (ij_workspace_id j) (ij_collection_id j) document_id attempt_id owner
                  pending cancel ready_count snapshot in
  previous ← get_publication (job_key j);
  lift (match previous with Some p => check_previous j attempt_id document_id owner p | None => Ok tt end);;
  if match previous with Some p => str_eqb (rc_attempt_id p) attempt_id | None => false end then mret tt
  else
    guard_not (negb (is_none (opt_float (ij_finished_at j)))) OwnershipLostError;;
    modify (write_publication record).

(** The facts of a receipt a caller may not change, the finish apart. *)
Definition snapshot_facts_changed (candidate saved : Snapshot) : bool :=
  negb (sn_attempt candidate =? sn_attempt saved) || negb (feq (sn_created_at candidate) (sn_created_at saved))
  || negb (opt_feq (sn_started_at candidate) (sn_started_at saved)).

Definition save_publication_snapshot (j : IngestionJob) : M St k_error unit :=
  current ← get_publication (job_key j);
  match current with
  | None => raise OwnershipLostError
  | Some r =>
      attempt ← lift (job_attempt j);
      guard_not (negb (is_str attempt (rc_attempt_id r))) OwnershipLostError;;
      guard_not (negb (opt_str_eqb (Some (rc_document_id r)) (ij_document_id j))) OwnershipLostError;;
      let saved := rc_job_snapshot r in
      lift (validate_publication_snapshot saved (VStr (rc_attempt_id r)) (VStr (rc_document_attempt r)));;
      candidate ← lift (publication_snapshot j (Some (rc_document_attempt r)));
      guard_not (snapshot_facts_changed candidate saved) OwnershipLostError;;
      supplied ← match sn_finished_at saved, sn_finished_at candidate with
                 | None, Some f =>
                     if bool_decide (rc_outcome r = pending) || negb (str_eqb (ij_status j) (status_of_outcome (rc_outcome r)))
                     then mret false else _checkpoint_supplies_finish r f
                 | _, _ => mret true
                 end;
      guard_not (negb supplied) OwnershipLostError;;
      guard_not (match sn_finished_at saved with
                 | Some _ => negb (opt_feq (sn_finished_at candidate) (sn_finished_at saved))
                 | None => false
                 end) OwnershipLostError;;
      modify (write_publication (with_snapshot
        (match sn_finished_at saved with None => with_finished None candidate | Some _ => candidate end) r))
  end.

(** [None] is an outcome name outside the three decisions. *)
Definition decision_of_name (name : string) : option outcome :=
  dict_get name [("committed", committed); ("failed", failed); ("cancelled", cancelled)].

Definition resolve_publication (now : pyfloat) (record : Receipt) (name : string) : M St k_error (option Receipt) :=
  match decision_of_name name with
  | None => raise ValueError
  | Some o =>
      current ← get_publication (receipt_key record);
      match current with
      | None => raise OwnershipLostError
      | Some r =>
          guard_not (negb (str_eqb (rc_attempt_id r) (rc_attempt_id record))) OwnershipLostError;;
          if negb (bool_decide (rc_outcome r = pending)) then
            guard_not (negb (bool_decide (rc_outcome r = o))) OwnershipLostError;;
            mret (Some r)
          else
            decided ← lift (_terminal_publication now r o);
            modify (write_publication decided);;
            get_publication (receipt_key record)
      end
  end.

Definition request_publication_cancel (j : IngestionJob) : M St k_error unit :=
  attempt ← lift (job_attempt j);
  lift (require_publication_identities (key_values (job_key j) ++ [attempt]));;
  modify (mark_publication_cancel (job_key j) attempt).

End store.
