(* ===== verification/PublicationLemmas.v ===== *)
(** * Lemmas on publications

    The receipt machine seen by any store that satisfies the adapter laws, and the refinement of
    the abstract publication by the operations of the code. *)

From Stdlib Require Import Ascii String.
From stdpp Require Import strings relations.
From S2P Require Import Prelude PyFloat PyStr PyVal Json CanonicalJson IngestionJobs StateError KnowledgeModels.
From S2P Require Import Publication.

Local Open Scope string_scope.
Local Open Scope Z_scope.
Local Open Scope list_scope.

(** ** The life of a receipt and of a checkpoint

    Abstract transition systems for one receipt and one checkpoint, and the
    refinement: every operation of [PublicationStore] moves the stored receipt
    and checkpoint of every key along them. *)

(** ** Receipts *)

(** The facts of an attempt that its snapshots keep. *)
Definition same_facts (a b : Snapshot) : Prop :=
  sn_attempt a = sn_attempt b /\ sn_created_at a = sn_created_at b /\ sn_started_at a = sn_started_at b.

Definition fresh_receipt (r : Receipt) : Prop := rc_outcome r = pending /\ sn_finished_at (rc_job_snapshot r) = None.

(** A failure that was asked to cancel is a cancellation. *)
Definition settled_outcome (o : outcome) (cancel : bool) : outcome := if cancel && bool_decide (o = failed) then cancelled else o.

(** The finish of a decision: unknown, or a time not before the attempt. *)
Definition decision_time (s : Snapshot) (f : option pyfloat) : Prop :=
  match f with None => True | Some t => fle (from_option id (sn_created_at s) (sn_started_at s)) t = true end.

Inductive receipt_step : option Receipt -> option Receipt -> Prop :=
| rs_begin r : fresh_receipt r -> receipt_step None (Some r)
| rs_retry r r' :
    rc_outcome r = failed -> fresh_receipt r' -> rc_attempt_id r' <> rc_attempt_id r ->
    sn_attempt (rc_job_snapshot r') = sn_attempt (rc_job_snapshot r) + 1 -> receipt_step (Some r) (Some r')
| rs_cancel r : rc_outcome r = pending -> receipt_step (Some r) (Some (with_cancel true r))
| rs_snapshot r s :
    same_facts s (rc_job_snapshot r) -> sn_finished_at s = sn_finished_at (rc_job_snapshot r) ->
    receipt_step (Some r) (Some (with_snapshot s r))
| rs_decide r o f :
    rc_outcome r = pending -> o <> pending -> decision_time (rc_job_snapshot r) f ->
    receipt_step (Some r)
      (Some (with_outcome (settled_outcome o (rc_cancel_requested r)) (with_snapshot (with_finished f (rc_job_snapshot r)) r))).

(** What every stored receipt satisfies: a pending one can be decided, and a
    failed one was not asked to cancel. *)
Record receipt_ok (k : pub_key) (r : Receipt) : Prop := {
  ro_key : receipt_key r = k;
  ro_pending : rc_outcome r = pending -> sn_finished_at (rc_job_snapshot r) = None
    /\ validate_publication_snapshot (rc_job_snapshot r) (VStr (rc_attempt_id r)) (VStr (rc_document_attempt r)) = Ok tt;
  ro_failed : rc_outcome r = failed -> rc_cancel_requested r = false }.

(** ** Checkpoints *)

(** A started time may be filled in once. *)
Definition kept_facts (a b : Snapshot) : Prop :=
  sn_attempt b = sn_attempt a /\ sn_created_at b = sn_created_at a
  /\ (sn_started_at a = None \/ sn_started_at b = sn_started_at a).

Definition fresh_checkpoint (c : Checkpoint) : Prop :=
  ck_state c = active /\ ck_cancel_requested c = false /\ ck_document_id c = None /\ ck_fingerprint c = VNone
  /\ ck_artifacts c = [].

(** The content a checkpoint is bound to, once it is. *)
Definition same_content (c : Checkpoint) (document_id : option string) (fingerprint : pyval) : Prop :=
  ck_fingerprint c = VNone \/ (py_eqb (ck_fingerprint c) fingerprint = true /\ document_id = ck_document_id c).

Inductive checkpoint_step : option Checkpoint -> option Checkpoint -> Prop :=
| cs_begin c : fresh_checkpoint c -> checkpoint_step None (Some c)
| cs_retry c c' :
    ck_state c = active \/ ck_state c = c_failed -> fresh_checkpoint c' -> ck_attempt_id c' <> ck_attempt_id c ->
    sn_attempt (ck_job_snapshot c') = sn_attempt (ck_job_snapshot c) + 1 -> checkpoint_step (Some c) (Some c')
| cs_save c document_id fingerprint s artifacts :
    ck_state c = active -> ck_cancel_requested c = false -> same_content c document_id fingerprint ->
    kept_facts (ck_job_snapshot c) s -> forallb (output_unchanged artifacts) (ck_artifacts c) = true ->
    checkpoint_step (Some c) (Some (checkpoint_with document_id fingerprint active false s artifacts c))
| cs_cancel c :
    ck_state c <> c_committed ->
    checkpoint_step (Some c) (Some (checkpoint_with (ck_document_id c) (ck_fingerprint c) (ck_state c) true
                                      (ck_job_snapshot c) (ck_artifacts c) c))
| cs_finish c state cancel s :
    (ck_state c = active \/ ck_state c = state) -> state <> active -> kept_facts (ck_job_snapshot c) s ->
    (sn_finished_at (ck_job_snapshot c) = None \/ sn_finished_at s = sn_finished_at (ck_job_snapshot c)) ->
    (ck_cancel_requested c = true -> cancel = true) ->
    checkpoint_step (Some c) (Some (checkpoint_with (ck_document_id c) (ck_fingerprint c) state cancel s [] c))
| cs_repair c d :
    ck_state c = c_committed -> ck_document_id c = None -> ck_fingerprint c = VNone ->
    checkpoint_step (Some c) (Some (checkpoint_with (Some d) (ck_fingerprint c) (ck_state c) (ck_cancel_requested c)
                                      (ck_job_snapshot c) (ck_artifacts c) c)).

(** ** Comparisons *)

Lemma feq_eq x y : feq x y = true -> x = y.
Proof.
  destruct x, y; cbn; try discriminate; intros H.
  - apply Z.eqb_eq in H. now subst.
  - apply eqb_prop in H. now subst.
Qed.

Lemma opt_feq_eq a b : opt_feq a b = true -> a = b.
Proof. destruct a, b; cbn; try discriminate; [|reflexivity]. intros H%feq_eq. now subst. Qed.

Lemma opt_str_eqb_eq a b : opt_str_eqb a b = true -> a = b.
Proof. destruct a, b; cbn; try discriminate; [|reflexivity]. intros H%str_eqb_eq. now subst. Qed.

Lemma opt_float_None t : is_none (opt_float t) = true -> t = None.
Proof. now destruct t. Qed.

Lemma opt_float_Some t : is_none (opt_float t) = false -> t <> None.
Proof. destruct t; cbn; congruence. Qed.

Lemma is_none_eq v : is_none v = true -> v = VNone.
Proof. now destruct v. Qed.

Lemma snapshot_facts_same a b : snapshot_facts_changed a b = false -> same_facts a b.
Proof.
  unfold snapshot_facts_changed. intros H. bool_to_prop.
  split; [assumption | split; [apply feq_eq; assumption | apply opt_feq_eq; assumption]].
Qed.

(** What a snapshot of a job holds. *)
Lemma publication_snapshot_fields j d s : publication_snapshot j d = Ok s ->
  sn_attempt s = ij_attempt j /\ sn_created_at s = ij_created_at j /\ sn_started_at s = ij_started_at j
  /\ sn_finished_at s = ij_finished_at j.
Proof.
  unfold publication_snapshot. intros H. apply bind_Ok in H as (a & _ & H). cbv zeta in H.
  apply bind_Ok in H as (u & _ & H). apply Ok_inj in H as ->. now cbn.
Qed.

Lemma publication_snapshot_valid j d s attempt : publication_snapshot j (Some d) = Ok s -> job_attempt j = Ok attempt ->
  validate_publication_snapshot s attempt (VStr d) = Ok tt.
Proof.
  unfold publication_snapshot. intros H Ha. rewrite Ha, bind_ret in H. cbv zeta in H.
  apply bind_Ok in H as (u & Hv & H). apply Ok_inj in H as ->. now destruct u.
Qed.

Lemma facts_unchanged c j s : facts_changed (ck_job_snapshot c) j = false ->
  sn_attempt s = ij_attempt j -> sn_created_at s = ij_created_at j -> sn_started_at s = ij_started_at j ->
  kept_facts (ck_job_snapshot c) s.
Proof.
  unfold facts_changed. intros H Ha Hc Hs. bool_to_prop.
  split; [congruence | split; [rewrite Hc; apply feq_eq; assumption |]].
  destruct (sn_started_at (ck_job_snapshot c)); [right | left; reflexivity].
  bool_to_prop. rewrite Hs. apply opt_feq_eq. assumption.
Qed.

(** ** Writes *)

Lemma merge_same_pending r r' : rc_attempt_id r' = rc_attempt_id r -> rc_outcome r = pending ->
  rc_cancel_requested r' = rc_cancel_requested r ->
  merge_receipt (Some r) r' = with_outcome (settled_outcome (rc_outcome r') (rc_cancel_requested r)) r'.
Proof.
  intros Ha Ho Hc. unfold merge_receipt, settled_outcome.
  replace (str_eqb (rc_attempt_id r) (rc_attempt_id r')) with true by (symmetry; apply str_eqb_eq; congruence).
  rewrite (bool_decide_eq_true_2 _ Ho), Hc, orb_diag. cbv zeta. unfold with_outcome, with_cancel; destruct r'; cbn in *. congruence.
Qed.

Lemma merge_same_settled r s : rc_outcome r <> pending -> (rc_outcome r = failed -> rc_cancel_requested r = false) ->
  merge_receipt (Some r) (with_snapshot s r) = with_snapshot s r.
Proof.
  intros Ho Hf. unfold merge_receipt. cbn [rc_attempt_id with_snapshot].
  replace (str_eqb (rc_attempt_id r) (rc_attempt_id r)) with true by (symmetry; apply str_eqb_eq; reflexivity).
  rewrite (bool_decide_eq_false_2 _ Ho). cbv zeta. cbn [rc_cancel_requested with_snapshot]. rewrite orb_diag.
  case_bool_decide as E.
  - specialize (Hf E). destruct r; cbn in *; subst; reflexivity.
  - rewrite andb_false_r. reflexivity.
Qed.

Lemma terminal_publication_spec now r o r' : _terminal_publication now r o = Ok r' ->
  rc_outcome r = pending /\ exists f, r' = with_outcome o (with_snapshot (with_finished f (rc_job_snapshot r)) r)
  /\ (sn_finished_at (rc_job_snapshot r) = None -> decision_time (rc_job_snapshot r) f).
Proof.
  unfold _terminal_publication. intros H. apply bind_Ok in H as (u & _ & H). apply bind_Ok in H as (u' & Hp & H).
  apply raise_if_Ok in Hp. bool_to_prop. cbv zeta in H. apply Ok_inj in H as ->. split; [assumption|].
  destruct (sn_finished_at (rc_job_snapshot r)) as [t|] eqn:Ef.
  - exists (Some t). split; [|discriminate]. unfold with_finished. rewrite <- Ef. now destruct (rc_job_snapshot r).
  - destruct (fisfinite now && _) eqn:En.
    + exists (Some now). split; [reflexivity|]. intros _. bool_to_prop. assumption.
    + exists None. split; [|easy]. unfold with_finished. rewrite <- Ef. now destruct (rc_job_snapshot r).
Qed.

(** ** Refinement *)

Section refinement.
Context {St : Type} `{L : AdapterLaws St}.

Definition receipts_ok (s : St) : Prop := forall k r, read_publication k s = Some r -> receipt_ok k r.

(** One or more moves of the stored receipt and checkpoint of every key. *)
Definition evolves (s s' : St) : Prop :=
  receipts_ok s -> receipts_ok s' /\ forall k,
    rtc receipt_step (read_publication k s) (read_publication k s')
    /\ rtc checkpoint_step (read_checkpoint k s) (read_checkpoint k s').

Lemma evolves_refl s : evolves s s.
Proof. intros H. split; [exact H|]. intros k. split; reflexivity. Qed.

Lemma evolves_trans s1 s2 s3 : evolves s1 s2 -> evolves s2 s3 -> evolves s1 s3.
Proof.
  intros H1 H2 H. destruct (H1 H) as [H' E1]. destruct (H2 H') as [H'' E2]. split; [exact H''|].
  intros k. destruct (E1 k), (E2 k). split; etrans; eassumption.
Qed.

(** A write of one receipt along one step. *)
Lemma evolves_write r s :
  (receipts_ok s -> receipt_step (read_publication (receipt_key r) s) (Some (merge_receipt (read_publication (receipt_key r) s) r))
     /\ receipt_ok (receipt_key r) (merge_receipt (read_publication (receipt_key r) s) r)) ->
  evolves s (write_publication r s).
Proof.
  intros Hw Hok. destruct (Hw Hok) as [Hs Hr]. split.
  - intros k r'. rewrite read_write_publication. destruct (decide _) as [->|]; [|apply Hok]. intros [= <-]. exact Hr.
  - intros k. rewrite read_write_publication, checkpoint_write_publication. split; [|reflexivity].
    destruct (decide _) as [->|]; [apply rtc_once, Hs | reflexivity].
Qed.

Lemma evolves_mark k a s : evolves s (mark_publication_cancel k a s).
Proof.
  assert (Hm : forall r, mark_receipt a r = r \/ (rc_outcome r = pending /\ mark_receipt a r = with_cancel true r)).
  { intros r. unfold mark_receipt. destruct (_ && _) eqn:E; [right | left; reflexivity]. bool_to_prop. auto. }
  intros Hok. split.
  - intros k' r'. rewrite read_mark. destruct (decide _) as [->|]; [|apply Hok].
    destruct (read_publication k s) as [r|] eqn:Er; cbn; [|discriminate]. intros [= <-].
    destruct (Hok _ _ Er) as [Hk Hp Hf]. destruct (Hm r) as [-> | [Ho ->]]; constructor; cbn; auto. congruence.
  - intros k'. rewrite read_mark, checkpoint_mark. split; [|reflexivity].
    destruct (decide _) as [->|]; [|reflexivity]. destruct (read_publication k s) as [r|]; cbn; [|reflexivity].
    destruct (Hm r) as [-> | [Ho ->]]; [reflexivity | apply rtc_once, rs_cancel, Ho].
Qed.

Lemma evolves_write_checkpoint c s :
  checkpoint_step (read_checkpoint (checkpoint_key c) s) (Some c) -> evolves s (exec (write_checkpoint c) s).
Proof.
  intros Hc Hok. split.
  - intros k r. rewrite publication_write_checkpoint. apply Hok.
  - intros k. rewrite publication_write_checkpoint, read_write_checkpoint. split; [reflexivity|].
    destruct (eval _ s); [|reflexivity]. destruct (decide _) as [->|]; [apply rtc_once, Hc | reflexivity].
Qed.

Lemma reads_get_checkpoint k : reads (get_ingestion_checkpoint k).
Proof.
  unfold get_ingestion_checkpoint. apply reads_bind; [apply reads_lift|]. intros _. apply reads_bind; [apply reads_gets|].
  intros [c|]; [|apply reads_lift]. repeat (apply reads_bind; [apply reads_lift | intros ?]). apply reads_lift.
Qed.

Lemma reads_get_publication k : reads (get_publication k).
Proof. unfold get_publication. apply reads_bind; [apply reads_lift|]. intros _. apply reads_gets. Qed.

(** A checkpoint that is read is the stored one, under its own key. *)
Lemma get_checkpoint_spec k s o : eval (get_ingestion_checkpoint k) s = Ok o ->
  read_checkpoint k s = o /\ (forall c, o = Some c -> checkpoint_key c = k).
Proof.
  unfold get_ingestion_checkpoint, eval. mstep. destruct (require_publication_identities _); [|discriminate].
  mstep. destruct (read_checkpoint k s) as [c|]; [|intros [= <-]; split; [reflexivity | discriminate]].
  mstep. destruct (negb _) eqn:E; [discriminate|].
  mstep. destruct (validate_publication_snapshot _ _ _); [|discriminate].
  mstep. destruct (encode_checkpoint _); [|discriminate].
  intros [= <-]. split; [reflexivity|]. intros c' [= <-]. bool_to_prop. assumption.
Qed.

Lemma get_publication_spec k s o : eval (get_publication k) s = Ok o -> read_publication k s = o.
Proof.
  unfold get_publication, eval. rewrite bind_lift. destruct (require_publication_identities _); [|discriminate].
  now intros [= <-].
Qed.
End refinement.

#[export] Hint Resolve reads_get_checkpoint reads_get_publication : reads.

(** ** Every operation follows the life of receipts and checkpoints

    The refinement of the transition systems of PublicationLemmas, operation
    by operation, for any adapter that satisfies its laws. *)

(** A guard, a pure check, or a read: an error leaves the state alone. *)
Ltac pstep :=
  cbv beta zeta;
  first
  [ rewrite bind_lift; match goal with |- context [match ?r with Ok _ => _ | Err _ => _ end] => destruct r eqn:?; [|apply evolves_refl] end
  | rewrite bind_guard; match goal with |- context [fst (if ?b then _ else _)] => destruct b eqn:?; [apply evolves_refl|] end
  | rewrite bind_reads by apply reads_get_checkpoint;
    match goal with |- context [match ?r with Ok _ => _ | Err _ => _ end] =>
      let E := fresh "E" in destruct r as [?|?] eqn:E; [apply get_checkpoint_spec in E as [? ?] | apply evolves_refl] end
  | rewrite bind_reads by apply reads_get_publication;
    match goal with |- context [match ?r with Ok _ => _ | Err _ => _ end] =>
      let E := fresh "E" in destruct r as [?|?] eqn:E; [apply get_publication_spec in E | apply evolves_refl] end ].

(** The checkpoint that was read is the stored one. *)
Ltac use_stored c :=
  match goal with H : read_checkpoint _ _ = _, K : forall c, _ -> _ |- _ => rewrite (K c eq_refl), H end.

Section operations.
Context {St : Type} `{L : AdapterLaws St}.
Implicit Types (s : St) (j : IngestionJob).

Lemma str_eqb_neq a b : str_eqb a b = false -> a <> b.
Proof. intros H ->. rewrite (proj2 (str_eqb_eq b b) eq_refl) in H. discriminate. Qed.

Lemma evolves_checkpoint {B} c (x : B) s :
  checkpoint_step (read_checkpoint (checkpoint_key c) s) (Some c) ->
  evolves s (fst ((write_checkpoint c ≫= fun _ => mret x) s)).
Proof.
  intros H. change (evolves s (exec (write_checkpoint c ≫= fun _ => mret x) s)).
  rewrite (exec_bind_ret (write_checkpoint c) (fun _ => x)). apply evolves_write_checkpoint, H.
Qed.

Lemma begin_checkpoint_evolves j s : evolves s (exec (begin_ingestion_checkpoint j) s).
Proof.
  unfold begin_ingestion_checkpoint, exec. do 5 pstep.
  match goal with H : read_checkpoint _ _ = ?o |- _ => destruct o as [c|] end.
  - destruct (str_eqb (ck_attempt_id c) _) eqn:Ea; [pstep; apply evolves_refl|]. pstep.
    apply evolves_checkpoint. change (checkpoint_key _) with (job_key j).
    match goal with H : read_checkpoint _ _ = _ |- _ => rewrite H end. bool_to_prop.
    apply publication_snapshot_fields in Heqr2 as (Hn & _). apply cs_retry.
    + destruct (ck_state c); auto; discriminate.
    + now split.
    + cbn. apply not_eq_sym, str_eqb_neq, Ea.
    + cbn. congruence.
  - apply evolves_checkpoint. change (checkpoint_key _) with (job_key j).
    match goal with H : read_checkpoint _ _ = _ |- _ => rewrite H end. apply cs_begin. now split.
Qed.

Lemma save_checkpoint_evolves j fingerprint artifacts s : evolves s (exec (save_ingestion_checkpoint j fingerprint artifacts) s).
Proof.
  unfold save_ingestion_checkpoint, exec. do 2 pstep.
  match goal with H : read_checkpoint _ _ = ?o |- _ => destruct o as [c|] end; [|apply evolves_refl].
  do 5 pstep. destruct (ck_cancel_requested c) eqn:Ec; [apply evolves_refl|]. do 2 pstep.
  apply evolves_checkpoint. change (checkpoint_key _) with (checkpoint_key c). bool_to_prop.
  use_stored c.
  match goal with H : publication_snapshot _ _ = _ |- _ => apply publication_snapshot_fields in H as (Ha & Hc & Hs & _) end.
  match goal with H : ck_state c = active |- _ => rewrite H end. apply cs_save; try assumption.
  - match goal with H : negb (is_none _) && _ = false |- _ => apply andb_false_iff in H as [H | H] end; bool_to_prop.
    + left. apply is_none_eq. assumption.
    + right. split; [assumption|]. symmetry. apply opt_str_eqb_eq. assumption.
  - unfold _check_checkpoint_facts in *. match goal with H : raise_if (facts_changed _ _) _ = _ |- _ => apply raise_if_Ok in H; eapply facts_unchanged; eassumption end.
Qed.

Lemma finish_checkpoint_evolves j s : evolves s (exec (finish_ingestion_checkpoint j) s).
Proof.
  unfold finish_ingestion_checkpoint, exec. pstep.
  match goal with H : read_checkpoint _ _ = ?o |- _ => destruct o as [c|] end; [|apply evolves_refl].
  do 9 pstep.
  apply evolves_write_checkpoint. change (checkpoint_key _) with (checkpoint_key c).
  use_stored c.
  match goal with H : publication_snapshot _ _ = _ |- _ => apply publication_snapshot_fields in H as (Ha & Hc & Hs & Hf) end.
  apply cs_finish.
  - match goal with H : negb (bool_decide _) && negb (bool_decide _) = false |- _ => apply andb_false_iff in H as [H | H] end;
      bool_to_prop; auto.
  - unfold outcome_of_status in *. destruct a1; try discriminate. exfalso.
    match goal with H : match dict_get ?s ?l with Some _ => _ | None => _ end = _ |- _ =>
      destruct (dict_get s l) eqn:Ed; [|discriminate]; apply dict_get_In in Ed; injection H as ->; cbn in Ed; intuition discriminate end.
  - match goal with H : _check_checkpoint_facts _ _ = _ |- _ => apply raise_if_Ok in H; eapply facts_unchanged; eassumption end.
  - match goal with H : negb (is_none _) && _ = false |- _ => apply andb_false_iff in H as [H | H] end; bool_to_prop.
    + left. apply opt_float_None. assumption.
    + right. rewrite Hf. apply opt_feq_eq. assumption.
  - intros ->. reflexivity.
Qed.

Lemma repair_evolves j s : evolves s (exec (repair_deduplicated_checkpoint j) s).
Proof.
  unfold repair_deduplicated_checkpoint, exec. do 2 pstep.
  match goal with H : read_checkpoint _ _ = ?o |- _ => destruct o as [c|] end; [|apply evolves_refl].
  match goal with H : read_publication _ _ = ?o |- _ => destruct o as [r|] end; [|apply evolves_refl].
  destruct (repairable c r) eqn:Er; [|apply evolves_refl]. unfold repairable in Er. bool_to_prop.
  apply evolves_checkpoint. change (checkpoint_key _) with (checkpoint_key c).
  use_stored c.
  apply cs_repair; [assumption | now destruct (ck_document_id c) | apply is_none_eq; assumption].
Qed.

Lemma write_checkpoint_stores c s s' u : write_checkpoint c s = (s', Ok u) -> read_checkpoint (checkpoint_key c) s' = Some c.
Proof.
  intros H. pose proof (read_write_checkpoint c s (checkpoint_key c)) as Hr. unfold exec, eval in Hr. rewrite H in Hr.
  cbn in Hr. rewrite decide_True in Hr by reflexivity. exact Hr.
Qed.

(** The checkpoint that was begun, or was there, is the stored one. *)
Lemma begin_checkpoint_stored j s s' c : begin_ingestion_checkpoint j s = (s', Ok c) ->
  read_checkpoint (job_key j) s' = Some c /\ checkpoint_key c = job_key j.
Proof.
  assert (Hw : forall r, checkpoint_key r = job_key j -> (write_checkpoint r ≫= fun _ => mret r) s = (s', Ok c) ->
    read_checkpoint (job_key j) s' = Some c /\ checkpoint_key c = job_key j).
  { intros r Hk H. unfold mbind, M_bind in H. destruct (write_checkpoint r s) as [s2 [u|e]] eqn:Ew; [|discriminate].
    injection H as <- <-. split; [|exact Hk]. rewrite <- Hk. eapply write_checkpoint_stores. exact Ew. }
  unfold begin_ingestion_checkpoint. do 4 (mstep; match goal with |- context [match ?r with Ok _ => _ | Err _ => _ end] =>
    destruct r eqn:?; [|discriminate] end). cbv beta.
  rewrite bind_reads by apply reads_get_checkpoint.
  match goal with |- context [eval ?m s] => destruct (eval m s) as [o|] eqn:E; [apply get_checkpoint_spec in E as [Hr Hk] | discriminate] end.
  cbv zeta. destruct o as [c0|].
  - destruct (str_eqb _ _).
    + mstep. destruct (_check_checkpoint_facts _ _); [|discriminate]. intros [= <- <-]. auto.
    + mstep. destruct (_ || _); [discriminate|]. apply Hw. reflexivity.
  - apply Hw. reflexivity.
Qed.

Lemma evolves_bind {B C} (m : M St k_error B) (f : B -> M St k_error C) s :
  evolves s (exec m s) -> (forall b, m s = (exec m s, Ok b) -> evolves (exec m s) (exec (f b) (exec m s))) ->
  evolves s (exec (m ≫= f) s).
Proof.
  intros Hm Hf. rewrite exec_bind. destruct (eval m s) as [b|] eqn:E; [|exact Hm]. eapply evolves_trans; [exact Hm|].
  apply Hf. unfold exec, eval in *. destruct (m s). cbn in *. congruence.
Qed.

Lemma ingestion_cancel_evolves j s : evolves s (exec (request_ingestion_cancel j) s).
Proof.
  unfold request_ingestion_cancel, exec. do 3 pstep.
  destruct (match _ with Some r => _ | None => false end); [apply evolves_refl|].
  match goal with |- evolves _ (fst (?m s)) => change (fst (m s)) with (exec m s) end.
  apply evolves_bind; [apply begin_checkpoint_evolves|]. intros c Hc. apply begin_checkpoint_stored in Hc as [Hr Hk].
  destruct (bool_decide (ck_state c = c_committed)) eqn:Est; [apply evolves_refl|]. bool_to_prop.
  apply evolves_bind.
  - apply evolves_write_checkpoint. change (checkpoint_key _) with (checkpoint_key c). rewrite Hk, Hr. apply cs_cancel. assumption.
  - intros _ _. destruct a1 as [r|]; [|apply evolves_refl]. destruct (_ && _); [apply evolves_mark | apply evolves_refl].
Qed.

Lemma publication_cancel_evolves j s : evolves s (exec (request_publication_cancel j) s).
Proof. unfold request_publication_cancel, exec. do 2 pstep. apply evolves_mark. Qed.

Lemma attempt_text_Ok v t : attempt_text v = Ok t -> v = VStr t.
Proof. destruct v; cbn; try discriminate. congruence. Qed.

(** Writing the receipt of a new attempt. *)
Lemma evolves_new_receipt r s :
  fresh_receipt r ->
  validate_publication_snapshot (rc_job_snapshot r) (VStr (rc_attempt_id r)) (VStr (rc_document_attempt r)) = Ok tt ->
  match read_publication (receipt_key r) s with
  | None => True
  | Some p => rc_attempt_id p <> rc_attempt_id r /\ rc_outcome p = failed
              /\ sn_attempt (rc_job_snapshot r) = sn_attempt (rc_job_snapshot p) + 1
  end -> evolves s (write_publication r s).
Proof.
  intros Hf Hv Hp. apply evolves_write. intros _.
  assert (receipt_ok (receipt_key r) r) as Hok.
  { destruct Hf. constructor; auto. congruence. }
  destruct (read_publication (receipt_key r) s) as [p|]; [|split; [apply rs_begin, Hf | exact Hok]].
  destruct Hp as (Ha & Ho & Hn). unfold merge_receipt.
  destruct (str_eqb (rc_attempt_id p) (rc_attempt_id r)) eqn:E; [apply str_eqb_eq in E; contradiction|].
  split; [apply rs_retry; auto | exact Hok].
Qed.

Lemma begin_publication_evolves j document_attempt ready_count s :
  evolves s (exec (begin_publication j document_attempt ready_count) s).
Proof.
  unfold begin_publication, exec. do 11 pstep.
  match goal with |- context [if ?b then mret _ else _] => destruct b eqn:Eb; [apply evolves_refl|] end.
  pstep. bool_to_prop.
  match goal with H : publication_snapshot _ _ = Ok _, K : job_attempt _ = _ |- _ =>
    assert (Hvalid := publication_snapshot_valid _ _ _ _ H K); apply publication_snapshot_fields in H as (Ha & _ & _ & Hf) end.
  match goal with H : is_none _ = true |- _ => apply opt_float_None in H as Hfin end.
  match goal with H : attempt_text a = Ok _ |- _ => apply attempt_text_Ok in H as -> end.
  apply evolves_new_receipt; [split; [reflexivity | cbn; congruence] | exact Hvalid |].
  change (receipt_key _) with (job_key j).
  match goal with H : read_publication _ _ = ?o |- _ => rewrite H; destruct o as [p|] end; [|exact I].
  match goal with H : check_previous _ _ _ _ _ = _ |- _ => unfold check_previous in H; rewrite Eb in H;
    apply bind_Ok in H as (u & Hp1 & Hp2); apply raise_if_Ok in Hp1, Hp2 end.
  bool_to_prop. split; [apply str_eqb_neq, Eb | split; [assumption | cbn; congruence]].
Qed.

(** Writing another snapshot of the stored receipt. *)
Lemma evolves_snapshot r sn k s : read_publication k s = Some r ->
  same_facts sn (rc_job_snapshot r) -> sn_finished_at sn = sn_finished_at (rc_job_snapshot r) ->
  (rc_outcome r = pending -> validate_publication_snapshot sn (VStr (rc_attempt_id r)) (VStr (rc_document_attempt r)) = Ok tt) ->
  evolves s (write_publication (with_snapshot sn r) s).
Proof.
  intros Hr Hs Hf Hv. apply evolves_write. intros Hok. destruct (Hok _ _ Hr) as [Hk Hp Hc].
  change (receipt_key (with_snapshot sn r)) with (receipt_key r). rewrite Hk, Hr.
  assert (merge_receipt (Some r) (with_snapshot sn r) = with_snapshot sn r) as ->.
  { destruct (decide (rc_outcome r = pending)) as [Ho|Ho]; [|apply merge_same_settled; assumption].
    rewrite merge_same_pending by (assumption || reflexivity). cbn [rc_outcome with_snapshot]. rewrite Ho.
    unfold settled_outcome. rewrite andb_false_r. unfold with_outcome, with_snapshot. cbn. now rewrite Ho. }
  split; [apply rs_snapshot; assumption|]. constructor; [exact Hk | | exact Hc].
  intros Ho. split; [cbn; rewrite Hf; now apply Hp | apply Hv, Ho].
Qed.

Lemma reads_supplies r f : reads (_checkpoint_supplies_finish r f).
Proof. unfold _checkpoint_supplies_finish. apply reads_bind; [apply reads_get_checkpoint|]. intros o. apply reads_lift. Qed.

Lemma save_snapshot_evolves j s : evolves s (exec (save_publication_snapshot j) s).
Proof.
  unfold save_publication_snapshot, exec. pstep.
  match goal with H : read_publication _ _ = ?o |- _ => destruct o as [r|] end; [|apply evolves_refl].
  do 6 pstep.
  match goal with H : is_str _ _ = true |- _ => idtac | H : negb (is_str _ _) = false |- _ => apply negb_false_iff, is_str_eq in H as -> end.
  match goal with H : publication_snapshot _ _ = Ok ?x, K : job_attempt _ = _ |- _ =>
    assert (Hvalid := publication_snapshot_valid _ _ _ _ H K); rename x into sn end.
  match goal with H : snapshot_facts_changed _ _ = false |- _ => apply snapshot_facts_same in H as Hfacts end.
  destruct (sn_finished_at (rc_job_snapshot r)) as [t|] eqn:Et.
  - rewrite bind_mret. do 2 pstep. bool_to_prop.
    match goal with H : opt_feq _ _ = true |- _ => apply opt_feq_eq in H end.
    eapply evolves_snapshot; [eassumption | assumption | congruence | intros _; assumption].
  - destruct (sn_finished_at sn) as [f|] eqn:Ef.
    + destruct (bool_decide _ || _) eqn:Ep; [apply evolves_refl|]. bool_to_prop.
      rewrite bind_reads by apply reads_supplies.
      match goal with |- context [match ?x with Ok _ => _ | Err _ => _ end] => destruct x; [|apply evolves_refl] end.
      pstep. rewrite bind_guard. eapply evolves_snapshot; [eassumption | exact Hfacts | cbn; congruence | contradiction].
    + rewrite bind_mret, !bind_guard.
      assert (with_finished None sn = sn) as -> by (unfold with_finished; rewrite <- Ef; now destruct sn).
      eapply evolves_snapshot; [eassumption | exact Hfacts | congruence | intros _; assumption].
Qed.

Lemma terminal_write_evolves now r o r' k s : read_publication k s = Some r -> o <> pending ->
  _terminal_publication now r o = Ok r' -> evolves s (write_publication r' s).
Proof.
  intros Hr Ho Ht. apply terminal_publication_spec in Ht as (Hp & f & -> & Hf). apply evolves_write. intros Hok.
  destruct (Hok _ _ Hr) as [Hk Hpend Hc]. change (receipt_key (with_outcome _ _)) with (receipt_key r). rewrite Hk, Hr.
  rewrite merge_same_pending by (assumption || reflexivity).
  change (with_outcome (settled_outcome (rc_outcome (with_outcome o (with_snapshot (with_finished f (rc_job_snapshot r)) r)))
            (rc_cancel_requested r)) (with_outcome o (with_snapshot (with_finished f (rc_job_snapshot r)) r)))
    with (with_outcome (settled_outcome o (rc_cancel_requested r)) (with_snapshot (with_finished f (rc_job_snapshot r)) r)).
  split; [apply rs_decide; [assumption | assumption | apply Hf, Hpend, Hp]|].
  constructor; [exact Hk | |]; cbn [rc_outcome with_outcome rc_cancel_requested with_snapshot]; unfold settled_outcome;
    destruct (rc_cancel_requested r) eqn:Ec; cbn [andb]; try case_bool_decide; intros; try congruence; try reflexivity.
Qed.

Lemma decision_of_name_not_pending name o : decision_of_name name = Some o -> o <> pending.
Proof. unfold decision_of_name. intros H%dict_get_In ->. cbn in H. intuition discriminate. Qed.

Lemma resolve_evolves now record name s : evolves s (exec (resolve_publication now record name) s).
Proof.
  unfold resolve_publication, exec. destruct (decision_of_name name) as [o|] eqn:En; [|apply evolves_refl].
  apply decision_of_name_not_pending in En. pstep.
  match goal with H : read_publication _ _ = ?o |- _ => destruct o as [r|] end; [|apply evolves_refl]. pstep.
  destruct (negb (bool_decide (rc_outcome r = pending))) eqn:Ep; [pstep; apply evolves_refl|]. pstep.
  match goal with |- evolves _ (fst (?m s)) => change (fst (m s)) with (exec m s) end.
  apply evolves_bind; [eapply terminal_write_evolves; eassumption|]. intros _ _.
  rewrite reads_get_publication. apply evolves_refl.
Qed.
End operations.

#[export] Hint Extern 1 (reads (get_ingestion_checkpoint _)) => (apply reads_get_checkpoint) : respects.
#[export] Hint Extern 1 (reads (get_publication _)) => (apply reads_get_publication) : respects.
#[export] Hint Extern 1 (reads (_checkpoint_supplies_finish _ _)) => (apply reads_supplies) : respects.
