(* ===== verification/KnowledgeStore.v ===== *)
(** * The in-memory knowledge store (packages/knowledge, store.py)

    Documents are shared objects: the store keeps the very object a caller
    passed to [upsert_document], [get_document] and [list_documents] hand it
    out again, and a deleted document is detached by a copy.  The model has a
    heap of document objects and the store holds addresses.  Collections,
    chunks, receipts and checkpoints are copied at the boundary and are
    values.  The locks serialise the calls; the clocks are arguments. *)

From Stdlib Require Import Ascii String.
From stdpp Require Import strings gmap.
From S2P Require Import Prelude PyFloat PyStr PyVal Json CanonicalJson StateError IngestionJobs KnowledgeModels Publication.

Local Open Scope string_scope.
Local Open Scope Z_scope.
Local Open Scope list_scope.

Definition addr : Type := nat.
Definition catalog_key : Type := string * string * string.

Record Store : Type := mk_store {
  st_heap : list Document;
  st_collections : gmap catalog_key Collection;
  st_documents : gmap string addr;
  st_chunks : gmap string (list Chunk);
  st_tombstones : gset string;
  st_publications : gmap pub_key Receipt;
  st_checkpoints : gmap pub_key Checkpoint }.

Definition empty_store : Store := mk_store [] ∅ ∅ ∅ ∅ ∅ ∅.

Definition set_heap (h : list Document) (s : Store) : Store :=
  mk_store h (st_collections s) (st_documents s) (st_chunks s) (st_tombstones s) (st_publications s) (st_checkpoints s).
Definition set_collections (c : gmap catalog_key Collection) (s : Store) : Store :=
  mk_store (st_heap s) c (st_documents s) (st_chunks s) (st_tombstones s) (st_publications s) (st_checkpoints s).
Definition set_documents (d : gmap string addr) (s : Store) : Store :=
  mk_store (st_heap s) (st_collections s) d (st_chunks s) (st_tombstones s) (st_publications s) (st_checkpoints s).
Definition set_chunks (c : gmap string (list Chunk)) (s : Store) : Store :=
  mk_store (st_heap s) (st_collections s) (st_documents s) c (st_tombstones s) (st_publications s) (st_checkpoints s).
Definition set_tombstones (t : gset string) (s : Store) : Store :=
  mk_store (st_heap s) (st_collections s) (st_documents s) (st_chunks s) t (st_publications s) (st_checkpoints s).
Definition set_publications (p : gmap pub_key Receipt) (s : Store) : Store :=
  mk_store (st_heap s) (st_collections s) (st_documents s) (st_chunks s) (st_tombstones s) p (st_checkpoints s).
Definition set_checkpoints (c : gmap pub_key Checkpoint) (s : Store) : Store :=
  mk_store (st_heap s) (st_collections s) (st_documents s) (st_chunks s) (st_tombstones s) (st_publications s) c.

(** ** The publication adapter *)

Definition _write_publication (r : Receipt) (s : Store) : Store :=
  set_publications (<[receipt_key r := merge_receipt (st_publications s !! receipt_key r) r]> (st_publications s)) s.

Definition _mark_publication_cancel (k : pub_key) (attempt : pyval) (s : Store) : Store :=
  set_publications (alter (mark_receipt attempt) k (st_publications s)) s.

Definition _write_ingestion_checkpoint (c : Checkpoint) : M Store k_error unit :=
  lift (encode_checkpoint (checkpoint_value c));;
  modify (fun s => set_checkpoints (<[checkpoint_key c := c]> (st_checkpoints s)) s).

#[export] Instance in_memory_adapter : PublicationAdapter Store := {
  read_publication k s := st_publications s !! k;
  write_publication := _write_publication;
  mark_publication_cancel := _mark_publication_cancel;
  read_checkpoint k s := st_checkpoints s !! k;
  write_checkpoint := _write_ingestion_checkpoint }.

#[export] Instance in_memory_laws : AdapterLaws Store.
Proof.
  constructor.
  - intros r s k. cbn. destruct (decide (k = receipt_key r)) as [->|Hn].
    + apply lookup_insert_eq.
    + apply lookup_insert_ne. congruence.
  - reflexivity.
  - intros a s k k'. cbn. destruct (decide (k' = k)) as [->|Hn].
    + apply lookup_alter_eq.
    + apply lookup_alter_ne. congruence.
  - reflexivity.
  - intros c s k. cbn. unfold _write_ingestion_checkpoint, exec, eval. mstep.
    destruct (encode_checkpoint _); [|reflexivity]. cbn. destruct (decide (k = checkpoint_key c)) as [->|Hn].
    + apply lookup_insert_eq.
    + apply lookup_insert_ne. congruence.
  - intros c s k. cbn. unfold _write_ingestion_checkpoint, exec. mstep. now destruct (encode_checkpoint _).
Qed.

(** ** Document objects *)

(** An address the store or a caller holds always is one of the heap. *)
Definition no_document : Document :=
  mk_document EmptyString EmptyString EmptyString EmptyString EmptyString EmptyString EmptyString EmptyString EmptyString
    EmptyString EmptyString None "draft" EmptyString EmptyString EmptyString EmptyString [] EmptyString EmptyString None None.

Definition object (a : addr) (s : Store) : Document := nth a (st_heap s) no_document.
Definition set_object (a : addr) (d : Document) (s : Store) : Store := set_heap (<[a := d]> (st_heap s)) s.

(** [deepcopy(document)]: a new object. *)
Definition new_object (d : Document) : M Store k_error addr :=
  fun s => (set_heap (st_heap s ++ [d]) s, Ok (length (st_heap s))).

(** A mutating call on the object at [a]. *)
Definition on_object {A} (a : addr) (m : M Document k_error A) : M Store k_error A :=
  fun s => let '(d, r) := m (object a s) in (set_object a d s, r).

Definition stored (document_id : string) (s : Store) : option addr := st_documents s !! document_id.
Definition is_tombstone (document_id : string) (s : Store) : bool := bool_decide (document_id ∈ st_tombstones s).
Definition is_deleted (d : Document) : bool := str_eqb (d_status d) "deleted".

Definition put_document (document_id : string) (a : addr) : M Store k_error unit :=
  modify (fun s => set_documents (<[document_id := a]> (st_documents s)) s).
Definition add_tombstone (document_id : string) : M Store k_error unit :=
  modify (fun s => set_tombstones ({[document_id]} ∪ st_tombstones s) s).

Definition scope_changed (a b : Document) : bool :=
  negb (str_eqb (d_tenant_id a) (d_tenant_id b)) || negb (str_eqb (d_workspace_id a) (d_workspace_id b))
  || negb (str_eqb (d_collection_id a) (d_collection_id b)).

Definition upsert_document (now : stamps) (a : addr) : M Store k_error unit :=
  document ← gets (object a);
  let document_id := d_document_id document in
  guard_not (negb (str_in (d_status document) DOCUMENT_STATUSES)) ValueError;;
  existing ← gets (stored document_id);
  before ← gets (fun s => option_map (fun e => object e s) existing);
  tombstone ← gets (is_tombstone document_id);
  guard_not ((tombstone || match before with Some d => is_deleted d | None => false end) && negb (is_deleted document)) ValueError;;
  guard_not (match before with Some d => scope_changed d document | None => false end) ValueError;;
  on_object a (materialize_lineage now (str_eqb (d_status document) "published"));;
  s ← gets id;
  document ← lift (match option_map (fun e => object e s) existing with
                   | Some d => if is_deleted d then require_unchanged_tombstone now (Some d) (object a s) else Ok (object a s)
                   | None => Ok (object a s)
                   end);
  if is_deleted document then
    copy ← new_object document;
    put_document document_id copy;;
    add_tombstone document_id
  else put_document document_id a.

Definition scope_mismatch (wanted : option string) (actual : string) : bool :=
  match wanted with Some w => negb (str_eqb actual w) | None => false end.

(** The live object, or a copy of a deleted document. *)
Definition get_document (document_id : string) (tenant workspace : option string) : M Store k_error (option addr) :=
  found ← gets (stored document_id);
  match found with
  | None => mret None
  | Some a =>
      tombstone ← gets (is_tombstone document_id);
      (if tombstone : bool then modify (fun s => set_object a (with_status "deleted" (object a s)) s) else mret tt);;
      d ← gets (object a);
      if scope_mismatch tenant (d_tenant_id d) || scope_mismatch workspace (d_workspace_id d) then mret None
      else if is_deleted d then copy ← new_object d; mret (Some copy)
      else mret (Some a)
  end.

Definition listed (workspace tenant : string) (collection : option string) (allowed statuses : option (list string))
    (s : Store) (a : addr) : bool :=
  let d := object a s in
  str_eqb (d_workspace_id d) workspace && str_eqb (d_tenant_id d) tenant
  && match collection with Some c => str_eqb (d_collection_id d) c | None => true end
  && match allowed with Some l => str_in "*" l || str_in (d_collection_id d) l | None => true end
  && negb (is_deleted d) && negb (is_tombstone (d_document_id d) s)
  && match statuses with Some l => str_in (d_status d) l | None => true end.

(** The objects listed, in the order of their identifiers. *)
Definition list_documents (workspace : string) (collection : option string) (tenant : string) (after : option string)
    (limit : option Z) (statuses allowed : option (list string)) : M Store k_error (list addr) :=
  guard_not (negb (nonblank tenant)) ValueError;;
  s ← gets id;
  let all := map snd (map_to_list (st_documents s)) in
  let documents := sort_by (fun a b => str_leb (d_document_id (object a s)) (d_document_id (object b s)))
                     (List.filter (listed workspace (strip tenant) collection allowed statuses s) all) in
  let documents := match after with
                   | Some x => List.filter (fun a => negb (str_leb (d_document_id (object a s)) x)) documents
                   | None => documents
                   end in
  match limit with
  | None => mret documents
  | Some n => guard_not (n <? 0) ValueError;; mret (take (Z.to_nat n) documents)
  end.

(** The receipts a publication of the document decides. *)
Definition decides (d : Document) (r : Receipt) : bool := bool_decide (rc_outcome r = pending) && _publication_matches r d.

(** Every pending receipt of the document as decided.  The order of the
    receipts only matters for which error is raised. *)
Definition decisions (times : pub_key -> pyfloat) (d : Document) (receipts : gmap pub_key Receipt)
    : res k_error (list (pub_key * Receipt)) :=
  res_mapM (fun kr => decided ← _terminal_publication (times (fst kr)) (snd kr) committed; Ok (fst kr, decided))
    (List.filter (fun kr => decides d (snd kr)) (map_to_list receipts)).

Definition commit_all (l : list (pub_key * Receipt)) (receipts : gmap pub_key Receipt) : gmap pub_key Receipt :=
  list_to_map l ∪ receipts.

(** Some pending receipt of the document was asked to cancel. *)
Definition cancel_pending (d : Document) (receipts : gmap pub_key Receipt) : bool :=
  existsb (fun kr => decides d (snd kr) && rc_cancel_requested (snd kr)) (map_to_list receipts).

Definition set_document_status (now : stamps) (times : pub_key -> pyfloat) (document_id status : string) : M Store k_error unit :=
  guard_not (negb (str_in status DOCUMENT_STATUSES)) ValueError;;
  found ← gets (stored document_id);
  match found with
  | None => raise KeyError
  | Some a =>
      document ← gets (object a);
      receipts ← gets st_publications;
      let publish := str_eqb status "published" in
      guard_not (publish && cancel_pending document receipts) OwnershipLostError;;
      tombstone ← gets (is_tombstone document_id);
      guard_not ((tombstone || is_deleted document) && negb (str_eqb status "deleted")) ValueError;;
      a ← (if str_eqb status "deleted" then copy ← new_object document; put_document document_id copy;; mret copy else mret a);
      decided ← lift (if publish then decisions times document receipts else Ok []);
      modify (fun s => set_object a (with_status status (object a s)) s);;
      (if str_eqb status "deleted" then add_tombstone document_id else mret tt);;
      on_object a (materialize_lineage now publish);;
      modify (fun s => set_publications (commit_all decided (st_publications s)) s)
  end.

Definition get_chunks (document_id : string) (s : Store) : list Chunk := from_option id [] (st_chunks s !! document_id).

(** The number of chunks deleted. *)
Definition delete_document (document_id : string) : M Store k_error Z :=
  chunks ← gets (get_chunks document_id);
  modify (fun s => set_chunks (delete document_id (st_chunks s)) s);;
  found ← gets (stored document_id);
  match found with
  | None => mret (Z.of_nat (length chunks))
  | Some a =>
      document ← gets (object a);
      copy ← new_object (with_status "deleted" document);
      put_document document_id copy;;
      add_tombstone document_id;;
      mret (Z.of_nat (length chunks))
  end.

Definition foreign_chunk (document_id : string) (d : Document) (c : Chunk) : bool :=
  negb (str_eqb (ch_document_id c) document_id) || negb (str_eqb (ch_tenant_id c) (d_tenant_id d)).

Definition replace_document_chunks (document_id : string) (chunks : list Chunk) : M Store k_error unit :=
  found ← gets (stored document_id);
  match found with
  | None => raise KeyError
  | Some a =>
      d ← gets (object a);
      tombstone ← gets (is_tombstone document_id);
      guard_not ((tombstone || is_deleted d) && negb (bool_decide (length chunks = 0%nat))) ValueError;;
      guard_not (existsb (foreign_chunk document_id d) chunks) ValueError;;
      modify (fun s => set_chunks (<[document_id := chunks]> (st_chunks s)) s)
  end.

Definition restore_deleted_document (now : stamps) (a : addr) (chunks : list Chunk) : M Store k_error unit :=
  snapshot ← gets (object a);
  let document_id := d_document_id snapshot in
  current ← get_document document_id None None;
  s ← gets id;
  let before := option_map (fun c => object c s) current in
  restored ← lift (require_deleted_snapshot now before snapshot);
  let before_chunks := get_chunks document_id s in
  modify (fun s => set_tombstones (st_tombstones s ∖ {[document_id]}) s);;
  copy ← new_object restored;
  put_document document_id copy;;
  try_except (replace_document_chunks document_id chunks) (fun e =>
    old ← new_object (from_option id no_document before);
    put_document document_id old;;
    modify (fun s => set_chunks (<[document_id := before_chunks]> (st_chunks s)) s);;
    add_tombstone document_id;;
    raise e).

(** ** Collections *)

Definition get_collection (workspace collection tenant : string) : M Store k_error (option Collection) :=
  guard_not (negb (nonblank tenant)) ValueError;;
  gets (fun s => select_catalog_collection
    (map (fun key => st_collections s !! (strip tenant, workspace, key)) (catalog_collection_ids collection)) collection).

(** The fields of the collection a write of the alias family is made with. *)
Definition collection_mutation {R} (ensure : bool) (existing_result : Collection -> R) (method : Collection -> M Store k_error R)
    (c : Collection) : M Store k_error R :=
  lift (collection_guard_scope (co_tenant_id c) (co_workspace_id c) (co_collection_id c));;
  let canonical := canonical_catalog_id (co_collection_id c) in
  if (1 <? length (catalog_collection_ids canonical))%nat then
    existing ← get_collection (co_workspace_id c) canonical (co_tenant_id c);
    match existing, ensure with
    | Some e, true =>
        if is_archived e || str_eqb (co_collection_id e) canonical then mret (existing_result e)
        else method (with_collection_id canonical e)
    | _, _ =>
        guard_not (match existing with Some e => is_archived e && str_eqb (co_status c) "active" | None => false end) ValueError;;
        method (with_collection_id (match existing with Some e => co_collection_id e | None => canonical end) c)
    end
  else method c.

Definition collection_key (c : Collection) : catalog_key := (co_tenant_id c, co_workspace_id c, co_collection_id c).
Definition known_status (c : Collection) : bool := str_in (co_status c) ["active"; "archived"].

Definition ensure_method (c : Collection) : M Store k_error Collection :=
  found ← gets (fun s => st_collections s !! collection_key c);
  match found with
  | Some e => mret e
  | None =>
      guard_not (negb (known_status c)) ValueError;;
      modify (fun s => set_collections (<[collection_key c := c]> (st_collections s)) s);;
      mret c
  end.

Definition upsert_method (c : Collection) : M Store k_error unit :=
  guard_not (negb (known_status c)) ValueError;;
  modify (fun s => set_collections (<[collection_key c := c]> (st_collections s)) s).

Definition ensure_collection : Collection -> M Store k_error Collection := collection_mutation true id ensure_method.
Definition upsert_collection : Collection -> M Store k_error unit := collection_mutation false (fun _ => tt) upsert_method.

Definition list_collections (workspace tenant : string) : M Store k_error (list Collection) :=
  guard_not (negb (nonblank tenant)) ValueError;;
  gets (fun s => sort_by (fun a b => str_leb (co_collection_id a) (co_collection_id b))
    (List.filter (fun c => str_eqb (co_workspace_id c) workspace && str_eqb (co_tenant_id c) (strip tenant))
       (map snd (map_to_list (st_collections s))))).

(** ** Runs

    A caller creates documents, changes the objects it holds in any way, and
    calls the store. *)

Inductive k_call : Type :=
| C_new (d : Document)
| C_mutate (a : addr) (f : Document -> Document)
| C_upsert_document (now : stamps) (a : addr)
| C_get_document (document_id : string) (tenant workspace : option string)
| C_list_documents (workspace : string) (collection : option string) (tenant : string) (after : option string)
    (limit : option Z) (statuses allowed : option (list string))
| C_set_document_status (now : stamps) (times : pub_key -> pyfloat) (document_id status : string)
| C_delete_document (document_id : string)
| C_replace_document_chunks (document_id : string) (chunks : list Chunk)
| C_restore_deleted_document (now : stamps) (a : addr) (chunks : list Chunk)
| C_upsert_collection (c : Collection)
| C_ensure_collection (c : Collection)
| C_begin_ingestion_checkpoint (j : IngestionJob)
| C_save_ingestion_checkpoint (j : IngestionJob) (fingerprint : pyval) (artifacts : list (string * pyval))
| C_finish_ingestion_checkpoint (j : IngestionJob)
| C_repair_deduplicated_checkpoint (j : IngestionJob)
| C_request_ingestion_cancel (j : IngestionJob)
| C_begin_publication (j : IngestionJob) (document_attempt : option string) (ready_count : Z)
| C_save_publication_snapshot (j : IngestionJob)
| C_resolve_publication (now : pyfloat) (record : Receipt) (name : string)
| C_request_publication_cancel (j : IngestionJob).

(** The state a call leaves, raising or not. *)
Definition k_do (s : Store) (c : k_call) : Store :=
  match c with
  | C_new d => exec (new_object d) s
  | C_mutate a f => set_object a (f (object a s)) s
  | C_upsert_document now a => exec (upsert_document now a) s
  | C_get_document i t w => exec (get_document i t w) s
  | C_list_documents w c t a l st al => exec (list_documents w c t a l st al) s
  | C_set_document_status now times i st => exec (set_document_status now times i st) s
  | C_delete_document i => exec (delete_document i) s
  | C_replace_document_chunks i l => exec (replace_document_chunks i l) s
  | C_restore_deleted_document now a l => exec (restore_deleted_document now a l) s
  | C_upsert_collection c => exec (upsert_collection c) s
  | C_ensure_collection c => exec (ensure_collection c) s
  | C_begin_ingestion_checkpoint j => exec (begin_ingestion_checkpoint j) s
  | C_save_ingestion_checkpoint j f a => exec (save_ingestion_checkpoint j f a) s
  | C_finish_ingestion_checkpoint j => exec (finish_ingestion_checkpoint j) s
  | C_repair_deduplicated_checkpoint j => exec (repair_deduplicated_checkpoint j) s
  | C_request_ingestion_cancel j => exec (request_ingestion_cancel j) s
  | C_begin_publication j d n => exec (begin_publication j d n) s
  | C_save_publication_snapshot j => exec (save_publication_snapshot j) s
  | C_resolve_publication now r n => exec (resolve_publication now r n) s
  | C_request_publication_cancel j => exec (request_publication_cancel j) s
  end.

Definition k_run (calls : list k_call) (s : Store) : Store := fold_left k_do calls s.
