(* ===== verification/PublicationProperties.v ===== *)
(** * Properties of publication receipts and checkpoints

    Over every run of the in-memory store: each receipt and each checkpoint
    follows its transition system, and what that makes final. *)

From Stdlib Require Import Ascii String.
From stdpp Require Import strings relations gmap.
From S2P Require Import Prelude PyFloat PyStr PyVal Json CanonicalJson StateError IngestionJobs KnowledgeModels Publication.
From S2P Require Import PublicationLemmas KnowledgeStore.

Local Open Scope string_scope.
Local Open Scope Z_scope.
Local Open Scope list_scope.

(** ** Calls that leave receipts and checkpoints alone *)

Definition same_publications (s s' : Store) : Prop :=
  st_publications s' = st_publications s /\ st_checkpoints s' = st_checkpoints s.

#[export] Instance same_publications_preorder : PreOrder same_publications.
Proof. split; [split; reflexivity | unfold same_publications; intros s1 s2 s3; intuition congruence]. Qed.

Lemma same_publications_evolves s s' : same_publications s s' -> evolves s s'.
Proof.
  intros [Hp Hc] Hok. unfold receipts_ok in *. cbn in *. rewrite Hp. split; [exact Hok|]. intros k. rewrite Hc. split; reflexivity.
Qed.

(** Neither receipts nor checkpoints are touched by [m]. *)
Notation leaves_publications := (respects same_publications).

Lemma leaves_modify f : (forall s, same_publications s (f s)) -> leaves_publications (modify (E := k_error) f).
Proof. intros H s. apply H. Qed.

Lemma leaves_new_object d : leaves_publications (new_object d).
Proof. intros s. split; reflexivity. Qed.

Lemma leaves_on_object {A} a (m : M Document k_error A) : leaves_publications (on_object a m).
Proof. intros s. unfold on_object, exec. destruct (m (object a s)). split; reflexivity. Qed.

Lemma leaves_put i a : leaves_publications (put_document i a).
Proof. intros s. split; reflexivity. Qed.

Lemma leaves_tombstone i : leaves_publications (add_tombstone i).
Proof. intros s. split; reflexivity. Qed.

#[export] Hint Resolve leaves_new_object leaves_on_object leaves_put leaves_tombstone : respects.
#[export] Hint Extern 1 (respects same_publications (modify _)) => (apply leaves_modify; intros ?; split; reflexivity) : respects.

Lemma leaves_upsert_document now a : leaves_publications (upsert_document now a).
Proof. unfold upsert_document. respect. Qed.

Lemma leaves_get_document i t w : leaves_publications (get_document i t w).
Proof. unfold get_document. respect. Qed.

Lemma leaves_list_documents w c t a l st al : leaves_publications (list_documents w c t a l st al).
Proof. unfold list_documents. respect. Qed.

Lemma leaves_delete_document i : leaves_publications (delete_document i).
Proof. unfold delete_document. respect. Qed.

Lemma leaves_replace i l : leaves_publications (replace_document_chunks i l).
Proof. unfold replace_document_chunks. respect. Qed.

Lemma leaves_try {A} (m : M Store k_error A) h :
  leaves_publications m -> (forall e, leaves_publications (h e)) -> leaves_publications (try_except m h).
Proof.
  intros Hm Hh s. specialize (Hm s). unfold exec, try_except in *. destruct (m s) as [s' [a|e]]; [exact Hm|].
  etrans; [exact Hm | apply Hh].
Qed.

#[export] Hint Resolve leaves_get_document leaves_replace leaves_try : respects.

Lemma leaves_restore now a l : leaves_publications (restore_deleted_document now a l).
Proof.
  unfold restore_deleted_document. respect. apply leaves_try; [apply leaves_replace|]. intros e. respect.
Qed.

Lemma leaves_ensure c : leaves_publications (ensure_collection c).
Proof. unfold ensure_collection, collection_mutation, get_collection, ensure_method. respect. Qed.

Lemma leaves_upsert_collection c : leaves_publications (upsert_collection c).
Proof. unfold upsert_collection, collection_mutation, get_collection, upsert_method. respect. Qed.

(** ** Publishing a document *)

(** What a publication does to the receipt of a key. *)
Definition committed_as (times : pub_key -> pyfloat) (d : Document) (k : pub_key) (before after : option Receipt) : Prop :=
  match before with
  | Some r => if decides d r then exists r', _terminal_publication (times k) r committed = Ok r' /\ after = Some r'
              else after = Some r
  | None => after = None
  end.

Lemma decisions_keys times d receipts l : decisions times d receipts = Ok l ->
  forall k r', In (k, r') l -> exists r, receipts !! k = Some r /\ decides d r = true /\ _terminal_publication (times k) r committed = Ok r'.
Proof.
  intros H k r' Hin. destruct (res_mapM_In _ _ _ _ H Hin) as ([k0 r] & Hf & He). apply filter_In in Hf as [Hm Hd].
  apply list_elem_of_In, elem_of_map_to_list in Hm. apply bind_Ok in He as (x & Hx & He).
  injection He; intros; subst; eauto.
Qed.

Lemma commit_all_spec times d receipts l : decisions times d receipts = Ok l ->
  forall k, committed_as times d k (receipts !! k) (commit_all l receipts !! k).
Proof.
  intros H k. unfold commit_all, committed_as. rewrite lookup_union.
  destruct (list_to_map l !! k) as [r'|] eqn:El.
  - apply elem_of_list_to_map_2, list_elem_of_In in El. destruct (decisions_keys _ _ _ _ H _ _ El) as (r & -> & -> & Ht).
    exists r'. split; [exact Ht|]. now rewrite union_Some_l.
  - rewrite option_union_left_id. destruct (receipts !! k) as [r|] eqn:Er; [|reflexivity].
    destruct (decides d r) eqn:Ed; [|reflexivity]. exfalso.
    assert (In (k, r) (List.filter (fun kr => decides d (snd kr)) (map_to_list receipts))) as Hin.
    { apply filter_In. split; [apply list_elem_of_In, elem_of_map_to_list, Er | exact Ed]. }
    destruct (res_mapM_In_r _ _ _ _ H Hin) as ([k' r'] & Hy & He). apply bind_Ok in He as (x & Hx & He).
    apply Ok_inj in He. cbn in He. injection He as Hk Hr. rewrite Hk in Hy. apply not_elem_of_list_to_map in El. apply El.
    apply list_elem_of_In, in_map_iff. exists (k, r'). auto.
Qed.

(** The outcome of [set_document_status] for the receipts. *)
Definition status_outcome (times : pub_key -> pyfloat) (s s' : Store) : Prop :=
  same_publications s s'
  \/ exists d l, decisions times d (st_publications s) = Ok l /\ st_publications s' = commit_all l (st_publications s)
     /\ st_checkpoints s' = st_checkpoints s.

Lemma set_status_outcome now times i status s : status_outcome times s (exec (set_document_status now times i status) s).
Proof.
  assert (Hsame : forall s', same_publications s s' -> status_outcome times s s') by (intros; left; assumption).
  unfold set_document_status, exec. mstep. destruct (negb _); [apply Hsame; cbn; reflexivity|].
  mstep. destruct (stored i s) as [a|]; [|apply Hsame; cbn; reflexivity].
  do 3 mstep. destruct (str_eqb status "published" && _); [apply Hsame; cbn; reflexivity|].
  do 2 mstep. destruct (_ && negb _); [apply Hsame; cbn; reflexivity|].
  match goal with |- context [?m ≫= ?f] => change (fst ((m ≫= f) s)) with (exec (m ≫= f) s); set (first := m); set (rest := f) end.
  rewrite exec_bind. assert (leaves_publications first) as Hfirst by (unfold first; respect).
  specialize (Hfirst s). destruct (eval first s) as [a'|]; [|apply Hsame, Hfirst].
  set (s1 := exec first s) in *. unfold rest, exec. mstep. destruct (str_eqb status "published") eqn:Ep.
  - destruct (decisions _ _ _) as [l|] eqn:El; [|apply Hsame, Hfirst].
    match goal with |- context [fst (?m s1)] => change (fst (m s1)) with (exec m s1) end.
    rewrite exec_bind. cbn [eval exec modify fst snd]. set (s2 := set_object _ _ s1).
    assert (same_publications s s2) as H2 by exact Hfirst. clearbody s2.
    rewrite exec_bind. set (mark := if str_eqb status "deleted" then _ else _).
    assert (leaves_publications mark) as Hmark by (unfold mark; respect). specialize (Hmark s2).
    destruct (eval mark s2); [|apply Hsame; etrans; eassumption].
    rewrite exec_bind. pose proof (leaves_on_object a' (materialize_lineage now true) (exec mark s2)) as Hobj.
    destruct (eval (on_object _ _) _).
    + right. exists (object a s), l. split; [exact El|]. cbn [exec modify fst set_publications st_publications st_checkpoints].
      destruct Hobj as [Hp Hc], Hmark as [Hp' Hc'], H2 as [Hp2 Hc2]. split; [rewrite Hp, Hp', Hp2 | rewrite Hc, Hc', Hc2]; reflexivity.
    + apply Hsame. etrans; [|exact Hobj]. etrans; eassumption.
  - apply Hsame. etrans; [exact Hfirst|].
    match goal with |- context [fst (?m s1)] => change (fst (m s1)) with (exec m s1) end. revert s1 Hfirst. intros s1 _.
    match goal with |- same_publications _ (exec ?m _) => assert (leaves_publications m) as Hm; [|apply Hm] end.
    apply respects_bind; [exact _ | apply leaves_modify; split; reflexivity|]. intros _.
    apply respects_bind; [exact _ | respect|]. intros _. apply respects_bind; [exact _ | apply leaves_on_object|]. intros _. apply leaves_modify. intros s'. split; [|reflexivity].
    cbn. unfold commit_all. cbn. apply (left_id_L ∅ (∪)).
Qed.

Lemma set_status_evolves now times i status s : evolves s (exec (set_document_status now times i status) s).
Proof.
  destruct (set_status_outcome now times i status s) as [H | (d & l & Hl & Hp & Hc)]; [apply same_publications_evolves, H|].
  set (s' := exec _ s) in *. clearbody s'. intros Hok.
  assert (Hcase : forall k, committed_as times d k (st_publications s !! k) (st_publications s' !! k))
    by (intros k; rewrite Hp; apply commit_all_spec, Hl).
  assert (Hone : forall k r, receipt_ok k r -> decides d r = true -> forall r', _terminal_publication (times k) r committed = Ok r' ->
    receipt_step (Some r) (Some r') /\ receipt_ok k r').
  { intros k r [Hk Hpend Hf] Hd r' Ht. apply terminal_publication_spec in Ht as (Ho & f & -> & Hft). split.
    - pose proof (rs_decide r committed f Ho ltac:(discriminate) (Hft (proj1 (Hpend Ho)))) as Hs.
      unfold settled_outcome in Hs. rewrite bool_decide_eq_false_2, andb_false_r in Hs by discriminate. exact Hs.
    - constructor; [exact Hk | discriminate | discriminate]. }
  split.
  - intros k r Hr. cbn in Hr. specialize (Hcase k). unfold committed_as in Hcase. rewrite Hr in Hcase.
    destruct (st_publications s !! k) as [r0|] eqn:E0; [|discriminate]. specialize (Hok k r0 E0).
    destruct (decides d r0) eqn:Ed; [|congruence]. destruct Hcase as (r' & Ht & [= ->]). eapply Hone; eassumption.
  - intros k. cbn. rewrite Hc. split; [|reflexivity]. specialize (Hcase k). unfold committed_as in Hcase.
    destruct (st_publications s !! k) as [r0|] eqn:E0; [|rewrite Hcase; reflexivity]. specialize (Hok k r0 E0).
    destruct (decides d r0) eqn:Ed; [|rewrite Hcase; reflexivity]. destruct Hcase as (r' & Ht & ->).
    apply rtc_once. eapply Hone; eassumption.
Qed.

Lemma leaves_evolves {A} (m : M Store k_error A) s : leaves_publications m -> evolves s (exec m s).
Proof. intros H. apply same_publications_evolves, H. Qed.

Lemma k_do_evolves s c : evolves s (k_do s c).
Proof.
  destruct c; cbn [k_do].
  - apply leaves_evolves, leaves_new_object.
  - apply same_publications_evolves. split; reflexivity.
  - apply leaves_evolves, leaves_upsert_document.
  - apply leaves_evolves, leaves_get_document.
  - apply leaves_evolves, leaves_list_documents.
  - apply set_status_evolves.
  - apply leaves_evolves, leaves_delete_document.
  - apply leaves_evolves, leaves_replace.
  - apply leaves_evolves, leaves_restore.
  - apply leaves_evolves, leaves_upsert_collection.
  - apply leaves_evolves, leaves_ensure.
  - apply begin_checkpoint_evolves.
  - apply save_checkpoint_evolves.
  - apply finish_checkpoint_evolves.
  - apply repair_evolves.
  - apply ingestion_cancel_evolves.
  - apply begin_publication_evolves.
  - apply save_snapshot_evolves.
  - apply resolve_evolves.
  - apply publication_cancel_evolves.
Qed.

Lemma k_run_evolves calls s : evolves s (k_run calls s).
Proof.
  revert s. induction calls as [|c calls IH]; intros s; [apply evolves_refl|].
  eapply evolves_trans; [apply k_do_evolves | apply IH].
Qed.

Lemma empty_receipts_ok : receipts_ok empty_store.
Proof. intros k r H. discriminate H. Qed.

Lemma run_receipts_ok calls : receipts_ok (k_run calls empty_store).
Proof. apply (k_run_evolves calls empty_store), empty_receipts_ok. Qed.

(** ** What the transition systems make final *)

Definition same_attempt (r r' : Receipt) : Prop :=
  rc_attempt_id r' = rc_attempt_id r /\ rc_document_id r' = rc_document_id r /\ rc_document_attempt r' = rc_document_attempt r
  /\ rc_ready_count r' = rc_ready_count r /\ same_facts (rc_job_snapshot r') (rc_job_snapshot r)
  /\ (rc_cancel_requested r = true -> rc_cancel_requested r' = true)
  /\ (rc_outcome r <> pending -> rc_outcome r' = rc_outcome r /\ rc_cancel_requested r' = rc_cancel_requested r
      /\ sn_finished_at (rc_job_snapshot r') = sn_finished_at (rc_job_snapshot r)).

(** What may follow a receipt: the same attempt, or a later one of a job that
    had failed or was pending. *)
Definition follows (r r' : Receipt) : Prop :=
  same_attempt r r'
  \/ ((rc_outcome r = pending \/ rc_outcome r = failed) /\ sn_attempt (rc_job_snapshot r) < sn_attempt (rc_job_snapshot r')).

Lemma same_attempt_refl r : same_attempt r r.
Proof. unfold same_attempt, same_facts. tauto. Qed.

Lemma follows_trans r1 r2 r3 : follows r1 r2 -> follows r2 r3 -> follows r1 r3.
Proof.
  unfold follows, same_attempt, same_facts.
  intros [(A1 & A2 & A3 & A4 & (A5 & A6 & A7) & A8 & A9) | (B1 & B2)] [(C1 & C2 & C3 & C4 & (C5 & C6 & C7) & C8 & C9) | (D1 & D2)].
  - left. split_and!; try congruence; [tauto|]. intros H. destruct (A9 H) as (E1 & E2 & E3).
    destruct (C9 ltac:(congruence)) as (F1 & F2 & F3). split_and!; congruence.
  - right. split; [|lia]. destruct (decide (rc_outcome r1 = pending)) as [|Hn]; [tauto|]. destruct (A9 Hn) as (E & _).
    rewrite <- E. exact D1.
  - right. split; [exact B1 | lia].
  - right. split; [exact B1 | lia].
Qed.

Lemma receipt_step_follows r o : receipt_step (Some r) o -> exists r', o = Some r' /\ follows r r'.
Proof.
  intros H. remember (Some r) as before eqn:Eb.
  destruct H as [r0 Hf | r0 r' Ho Hf Ha Hn | r0 Ho | r0 s Hs Hfin | r0 o' f Ho Hp Ht]; try discriminate Eb;
    apply (inj Some) in Eb; subst; eexists; (split; [reflexivity|]).
  - right. split; [auto | lia].
  - left. unfold same_attempt, same_facts; cbn. tauto.
  - left. unfold same_attempt; cbn. tauto.
  - left. unfold same_attempt, same_facts; cbn. tauto.
Qed.

Lemma receipt_steps_follow r o : rtc receipt_step (Some r) o -> exists r', o = Some r' /\ follows r r'.
Proof.
  intros H. remember (Some r) as before eqn:Eb. revert r Eb.
  induction H as [|o1 o2 o3 Hs Hr IH]; intros r ->; [exists r; split; [reflexivity | left; apply same_attempt_refl]|].
  apply receipt_step_follows in Hs as (r2 & -> & H2). destruct (IH r2 eq_refl) as (r3 & -> & H3).
  exists r3. split; [reflexivity | eapply follows_trans; eassumption].
Qed.

(** ** Durable outputs *)

Definition same_value (x y : pyval) : Prop := x = y \/ py_eqb x y = true.

Lemma same_value_trans x y z : same_value x y -> same_value y z -> same_value x z.
Proof. intros [-> | H1] [-> | H2]; unfold same_value; eauto using py_eqb_trans. Qed.

Lemma same_values_trans l1 l2 l3 : Forall2 same_value l1 l2 -> Forall2 same_value l2 l3 -> Forall2 same_value l1 l3.
Proof.
  intros H. revert l3. induction H; intros l3 H'; inversion H'; subst; constructor; eauto using same_value_trans.
Qed.

Lemma same_values_refl l : Forall2 same_value l l.
Proof. induction l; constructor; [left; reflexivity | assumption]. Qed.

Lemma eqb_same_values l r : Forall2 (fun a b => py_eqb a b = true) l r -> Forall2 same_value l r.
Proof. induction 1; constructor; [right; assumption | assumption]. Qed.

Lemma same_value_list x y : same_value x y ->
  (forall l, x = VList l -> exists r, y = VList r /\ Forall2 same_value l r)
  /\ (forall r, y = VList r -> exists l, x = VList l /\ Forall2 same_value l r).
Proof.
  intros [-> | H].
  - split; intros l ->; exists l; split; auto using same_values_refl.
  - split; intros l ->; [destruct y | destruct x]; cbn in H; try discriminate;
      (eexists; split; [reflexivity | apply eqb_same_values, py_eqb_list, H]).
Qed.

(** [p] repeats the saved output [v], or extends a saved vector list. *)
Definition extends_output (key : string) (v p : pyval) : Prop :=
  same_value p v
  \/ (key = "vectors" /\ exists s q, v = VList s /\ p = VList q /\ (length s <= length q)%nat
      /\ Forall2 same_value (take (length s) q) s).

Lemma extends_trans key v1 v2 v3 : extends_output key v1 v2 -> extends_output key v2 v3 -> extends_output key v1 v3.
Proof.
  intros [H1 | (Hk & s1 & s2 & -> & -> & L1 & F1)] [H2 | (Hk' & s2' & s3 & E2 & -> & L2 & F2)].
  - left. eapply same_value_trans; eassumption.
  - right. split; [exact Hk'|]. subst. destruct (same_value_list _ _ H1) as [Hl _].
    destruct (Hl _ eq_refl) as (s1 & -> & F1). exists s1, s3. rewrite <- (Forall2_length _ _ _ F1).
    split_and!; auto. eapply same_values_trans; eassumption.
  - right. split; [exact Hk|]. destruct (same_value_list _ _ H2) as [_ Hr].
    destruct (Hr _ eq_refl) as (s3 & -> & F2). exists s1, s3. pose proof (Forall2_length _ _ _ F2).
    split_and!; auto; [lia|]. eapply same_values_trans; [apply Forall2_take, F2 | exact F1].
  - right. split; [exact Hk|]. injection E2 as <-. exists s1, s3. split_and!; auto; [lia|].
    eapply same_values_trans; [|exact F1]. apply (Forall2_take same_value _ _ (length s1)) in F2.
    rewrite take_take, Nat.min_l in F2 by lia. exact F2.
Qed.

(** Every saved output is still there. *)
Definition durable (a a' : list (string * pyval)) : Prop :=
  forall key v, dict_get key a = Some v -> exists p, dict_get key a' = Some p /\ extends_output key v p.

Lemma durable_refl a : durable a a.
Proof. intros key v H. exists v. split; [exact H | left; left; reflexivity]. Qed.

Lemma durable_trans a1 a2 a3 : durable a1 a2 -> durable a2 a3 -> durable a1 a3.
Proof.
  intros H1 H2 key v H. destruct (H1 key v H) as (p & Hp & E1). destruct (H2 key p Hp) as (q & Hq & E2).
  exists q. split; [exact Hq | eapply extends_trans; eassumption].
Qed.

Lemma outputs_unchanged_durable a a' : forallb (output_unchanged a') a = true -> durable a a'.
Proof.
  intros H key v Hv%dict_get_In. eapply forallb_forall in H; [|exact Hv]. unfold output_unchanged in H.
  destruct (dict_get key a') as [p|]; [|discriminate]. exists p. split; [reflexivity|].
  assert (py_eqb p v = true -> extends_output key v p) as Heq by (intros E; left; right; exact E).
  destruct (str_eqb key "vectors") eqn:Ek; [|apply Heq, H].
  destruct v as [ | | | | | s | ]; try (apply Heq, H). destruct p as [ | | | | | q | ]; try (apply Heq, H).
  apply andb_prop in H as [Hl H]. apply str_eqb_eq in Ek. apply Nat.leb_le in Hl. right. split; [exact Ek|].
  exists s, q. split_and!; auto. apply eqb_same_values, py_eqb_list, H.
Qed.

(** ** What may follow a checkpoint *)

Definition same_checkpoint (c c' : Checkpoint) : Prop :=
  ck_attempt_id c' = ck_attempt_id c /\ kept_facts (ck_job_snapshot c) (ck_job_snapshot c')
  /\ (ck_cancel_requested c = true -> ck_cancel_requested c' = true)
  /\ (ck_fingerprint c <> VNone -> same_value (ck_fingerprint c) (ck_fingerprint c') /\ ck_document_id c' = ck_document_id c)
  /\ (ck_state c <> active -> ck_state c' = ck_state c
      /\ (sn_finished_at (ck_job_snapshot c) <> None ->
          sn_finished_at (ck_job_snapshot c') = sn_finished_at (ck_job_snapshot c)))
  /\ (ck_state c' = active -> durable (ck_artifacts c) (ck_artifacts c')).

Definition checkpoint_follows (c c' : Checkpoint) : Prop :=
  same_checkpoint c c'
  \/ ((ck_state c = active \/ ck_state c = c_failed) /\ sn_attempt (ck_job_snapshot c) < sn_attempt (ck_job_snapshot c')).

Lemma kept_facts_refl s : kept_facts s s.
Proof. unfold kept_facts. tauto. Qed.

Lemma kept_facts_trans s1 s2 s3 : kept_facts s1 s2 -> kept_facts s2 s3 -> kept_facts s1 s3.
Proof.
  unfold kept_facts. intros (A1 & A2 & A3) (B1 & B2 & B3). split_and!; try congruence.
  destruct A3 as [A3 | A3]; [auto|]. destruct B3 as [B3 | B3]; [left; congruence | right; congruence].
Qed.

Lemma same_checkpoint_refl c : same_checkpoint c c.
Proof. unfold same_checkpoint, same_value. split_and!; auto using kept_facts_refl, durable_refl. Qed.

Lemma same_value_none x y : same_value x y -> x <> VNone -> y <> VNone.
Proof. intros [-> | H] Hn Hy; [auto|]. subst. destruct x; cbn in H; congruence. Qed.

Lemma same_checkpoint_trans c1 c2 c3 : same_checkpoint c1 c2 -> same_checkpoint c2 c3 -> same_checkpoint c1 c3.
Proof.
  intros (A1 & A2 & A3 & A4 & A5 & A6) (B1 & B2 & B3 & B4 & B5 & B6). unfold same_checkpoint. split_and!.
  - congruence.
  - eapply kept_facts_trans; eassumption.
  - auto.
  - intros Hf. destruct (A4 Hf) as [V1 D1]. destruct (B4 (same_value_none _ _ V1 Hf)) as [V2 D2].
    split; [eapply same_value_trans; eassumption | congruence].
  - intros Hs. destruct (A5 Hs) as [E1 F1]. destruct (B5 ltac:(congruence)) as [E2 F2]. split; [congruence|].
    intros Hf. specialize (F1 Hf). rewrite <- F1. apply F2. congruence.
  - intros Hs. assert (ck_state c2 = active) as H2.
    { destruct (decide (ck_state c2 = active)) as [|Hn]; [assumption|]. destruct (B5 Hn). congruence. }
    eapply durable_trans; [apply A6, H2 | apply B6, Hs].
Qed.

Lemma checkpoint_follows_trans c1 c2 c3 : checkpoint_follows c1 c2 -> checkpoint_follows c2 c3 -> checkpoint_follows c1 c3.
Proof.
  intros [H1 | [S1 N1]] [H2 | [S2 N2]].
  - left. eapply same_checkpoint_trans; eassumption.
  - right. destruct H1 as (_ & (A & _) & _ & _ & F & _). split; [|lia].
    destruct (decide (ck_state c1 = active)) as [|Hn]; [auto|]. destruct (F Hn) as [E _]. rewrite <- E. exact S2.
  - right. split; [exact S1|]. destruct H2 as (_ & (A & _) & _). lia.
  - right. split; [exact S1 | lia].
Qed.

Lemma checkpoint_step_follows c o : checkpoint_step (Some c) o -> exists c', o = Some c' /\ checkpoint_follows c c'.
Proof.
  intros H. remember (Some c) as before eqn:Eb.
  destruct H; try discriminate Eb; apply (inj Some) in Eb; subst; eexists; (split; [reflexivity|]).
  - right. split; [assumption | lia].
  - left. unfold same_checkpoint; cbn. split_and!; try congruence; auto using outputs_unchanged_durable.
    intros Hn. match goal with H : same_content _ _ _ |- _ => destruct H as [Hc | [Hc Hc']] end; [contradiction|].
    split; [right; exact Hc | congruence].
  - left. unfold same_checkpoint; cbn. split_and!; auto using kept_facts_refl, durable_refl. intros _. split; [left|]; reflexivity.
  - left. unfold same_checkpoint; cbn. split_and!; auto; try congruence.
    + intros _. split; [left|]; reflexivity.
    + intros Hn. split; [intuition congruence|]. intros Hf. intuition congruence.
  - left. unfold same_checkpoint; cbn. split_and!; auto using kept_facts_refl, durable_refl. congruence.
Qed.

Lemma checkpoint_steps_follow c o : rtc checkpoint_step (Some c) o -> exists c', o = Some c' /\ checkpoint_follows c c'.
Proof.
  intros H. remember (Some c) as before eqn:Eb. revert c Eb.
  induction H as [|o1 o2 o3 Hs Hr IH]; intros c ->; [exists c; split; [reflexivity | left; apply same_checkpoint_refl]|].
  apply checkpoint_step_follows in Hs as (c2 & -> & H2). destruct (IH c2 eq_refl) as (c3 & -> & H3).
  exists c3. split; [reflexivity | eapply checkpoint_follows_trans; eassumption].
Qed.

(** ** Deciding on a publication *)

Definition lineage_ok (d : Document) : bool :=
  from_option nonblank true (d_created_at d) && from_option nonblank true (d_published_at d).

Lemma materialize_outcome now p d : snd (materialize_lineage now p d) = if lineage_ok d then Ok tt else Err ValueError.
Proof.
  unfold materialize_lineage, lineage_ok. mstep. mstep. unfold _timestamp_text, id.
  destruct (d_created_at d) as [c|]; cbn [from_option].
  - destruct (nonblank c); [|reflexivity]. mstep. mstep. destruct (d_published_at d) as [q|]; cbn [from_option andb]; [|reflexivity].
    destruct (nonblank q); reflexivity.
  - mstep. mstep. destruct (d_published_at d) as [q|]; cbn [from_option andb]; [|reflexivity]. destruct (nonblank q); reflexivity.
Qed.

Lemma materialize_status now p d : d_status (fst (materialize_lineage now p d)) = d_status d.
Proof.
  unfold materialize_lineage. mstep. mstep. destruct (_timestamp_text _); [|reflexivity]. mstep. mstep.
  destruct (_timestamp_text _); reflexivity.
Qed.

(** Pending receipts of a run can be decided. *)
Lemma decisions_ok times d s : receipts_ok s -> exists l, decisions times d (st_publications s) = Ok l.
Proof.
  intros Hok. unfold decisions.
  assert (forall kr, In kr (List.filter (fun kr => decides d (snd kr)) (map_to_list (st_publications s))) ->
    exists r', _terminal_publication (times (fst kr)) (snd kr) committed = Ok r') as Hall.
  { intros [k r] [Hin Hd]%filter_In. apply list_elem_of_In, elem_of_map_to_list in Hin. cbn in Hd |- *.
    destruct (Hok k r Hin) as [_ Hp _]. unfold decides in Hd. apply andb_prop in Hd as [Ho _]. bool_to_prop.
    destruct (Hp Ho) as [_ Hv]. unfold _terminal_publication. rewrite Hv, bind_ret, bool_decide_eq_true_2 by exact Ho.
    cbn [negb raise_if]. rewrite bind_ret. eauto. }
  induction (List.filter _ _) as [|kr l IH]; cbn [res_mapM]; [eauto|].
  destruct (Hall kr (or_introl eq_refl)) as [r' ->]. rewrite bind_ret, bind_ret.
  destruct IH as [l' ->]; [intros x Hx; apply Hall; now right|]. rewrite bind_ret. eauto.
Qed.

Lemma object_set a d s : (a < length (st_heap s))%nat -> object a (set_object a d s) = d.
Proof.
  intros H. unfold object, set_object, set_heap. cbn. rewrite (nth_lookup _ a), list_lookup_insert_eq by exact H. reflexivity.
Qed.

Lemma on_object_run {A} a (m : M Document k_error A) s :
  on_object a m s = (set_object a (fst (m (object a s))) s, snd (m (object a s))).
Proof. unfold on_object. now destruct (m (object a s)). Qed.

Lemma set_object_length a d s : length (st_heap (set_object a d s)) = length (st_heap s).
Proof. cbn. apply length_insert. Qed.

(** ** Properties *)

(** C5: on every run of the in-memory store - documents, receipts and
    checkpoints, with any calls in any order, those that raise included, and
    callers that change the documents they hold in any way - the receipt and
    the checkpoint of every key only move along the abstract transition
    systems [receipt_step] and [checkpoint_step]: an attempt is begun pending
    and decided once; it may be asked to cancel while pending; a new attempt
    follows a failed one and is exactly one further; the saved outputs of a
    checkpoint are only repeated or extended while it is active, and its
    outcome is immutable. *)
Theorem publication_refines_life calls calls' k :
  let s := k_run calls empty_store in
  let s' := k_run calls' s in
  rtc receipt_step (st_publications s !! k) (st_publications s' !! k)
  /\ rtc checkpoint_step (st_checkpoints s !! k) (st_checkpoints s' !! k).
Proof. intros s s'. apply (k_run_evolves calls' s), run_receipts_ok. Qed.

(** C37: a receipt is never lost, and its decision is final.  Whatever is
    called later, the key still has a receipt; while it is the same attempt,
    its document, its owner, the count and the times of the attempt are the
    same, a requested cancellation stays requested, and a decided outcome, its
    finish time included, is unchanged.  Only a pending or failed receipt can
    give way to another attempt, with a greater count: a committed or
    cancelled publication stays so for good. *)
Theorem publication_decision_final calls calls' k r :
  st_publications (k_run calls empty_store) !! k = Some r ->
  exists r', st_publications (k_run calls' (k_run calls empty_store)) !! k = Some r'
  /\ (same_attempt r r'
      \/ ((rc_outcome r = pending \/ rc_outcome r = failed)
          /\ sn_attempt (rc_job_snapshot r) < sn_attempt (rc_job_snapshot r')))
  /\ (rc_outcome r = committed \/ rc_outcome r = cancelled -> rc_outcome r' = rc_outcome r /\ rc_attempt_id r' = rc_attempt_id r).
Proof.
  intros Hr. destruct (k_run_evolves calls' _ (run_receipts_ok calls)) as [_ He]. destruct (He k) as [Hs _]. cbn in Hs.
  rewrite Hr in Hs. apply receipt_steps_follow in Hs as (r' & Hr' & Hf). exists r'. split_and!; [exact Hr' | exact Hf|].
  intros Ho. destruct Hf as [(A1 & _ & _ & _ & _ & _ & A7) | [B _]]; [|intuition congruence].
  split; [apply A7; intuition congruence | exact A1].
Qed.

(** C38: a checkpoint is never lost.  While it is the same attempt, its count
    and times are kept, a requested cancellation stays requested, the content
    it is bound to (the fingerprint, up to Python's equality, and the
    document) stays the same, a settled state and its finish time are final,
    and as long as it is active every saved output is still there: repeated,
    or, for the vectors, with the saved ones as a prefix.  Only an active or
    failed checkpoint gives way to another attempt, with a greater count. *)
Theorem checkpoint_durable calls calls' k c :
  st_checkpoints (k_run calls empty_store) !! k = Some c ->
  exists c', st_checkpoints (k_run calls' (k_run calls empty_store)) !! k = Some c'
  /\ (same_checkpoint c c'
      \/ ((ck_state c = active \/ ck_state c = c_failed)
          /\ sn_attempt (ck_job_snapshot c) < sn_attempt (ck_job_snapshot c'))).
Proof.
  intros Hc. destruct (k_run_evolves calls' _ (run_receipts_ok calls)) as [_ He]. destruct (He k) as [_ Hs]. cbn in Hs.
  rewrite Hc in Hs. apply checkpoint_steps_follow in Hs as (c' & Hc' & Hf). exists c'. split; assumption.
Qed.

(** Publishing a document decides its pending receipts together.  For a
    document that is stored and not deleted, the call is refused and changes
    nothing when one of them was asked to cancel.  Otherwise the document is
    published and, with its lineage timestamps usable, exactly its pending
    receipts become committed, each stamped with the commit clock (left
    without a finish by a clock that went back), no other receipt and no
    checkpoint changes, and the decisions never raise.  A blank timestamp is
    the exception: the call raises after the document was marked published,
    and its receipts stay pending. *)
Theorem publish_decides_receipts calls now times i a :
  let s := k_run calls empty_store in
  let d := object a s in
  stored i s = Some a -> (a < length (st_heap s))%nat -> is_tombstone i s = false -> is_deleted d = false ->
  let '(s', r) := set_document_status now times i "published" s in
  if cancel_pending d (st_publications s) then s' = s /\ r = Err OwnershipLostError
  else
    d_status (object a s') = "published" /\ st_checkpoints s' = st_checkpoints s
    /\ if lineage_ok d
       then r = Ok tt /\ forall k, committed_as times d k (st_publications s !! k) (st_publications s' !! k)
       else r = Err ValueError /\ st_publications s' = st_publications s.
Proof.
  intros s d Hi Ha Ht Hd. unfold set_document_status. mstep. cbn [negb].
  change (negb (str_in "published" DOCUMENT_STATUSES)) with false. cbv iota.
  mstep. rewrite Hi. do 3 mstep. fold d. change (str_eqb "published" "published") with true. cbn [andb].
  destruct (cancel_pending d (st_publications s)); [split; reflexivity|].
  do 2 mstep. rewrite Ht, Hd. cbn [orb andb]. change (str_eqb "published" "deleted") with false. cbv iota.
  rewrite bind_mret. mstep. destruct (decisions_ok times d s (run_receipts_ok calls)) as [l El]. rewrite El.
  mstep. rewrite bind_mret. unfold mbind at 1, M_bind at 1. rewrite on_object_run, object_set by exact Ha. fold d.
  rewrite materialize_outcome. change (lineage_ok (with_status "published" d)) with (lineage_ok d).
  set (s2 := set_object a _ (set_object a _ s)).
  assert (d_status (object a s2) = "published") as Hst.
  { unfold s2. rewrite object_set by (rewrite set_object_length; exact Ha). rewrite materialize_status. reflexivity. }
  destruct (lineage_ok d); cbn [modify fst snd].
  - split; [exact Hst | split; [reflexivity | split; [reflexivity|]]]. intros k. cbn. apply commit_all_spec, El.
  - split; [exact Hst | split; [reflexivity | split; reflexivity]].
Qed.

(** ** A run *)

Definition sample_document : Document :=
  mk_document "doc-1" "ws" "col" "tenant" "v1" "sum" "a.pdf" "A" "A" "pdf" "application/pdf" None "processing"
    "p1" "c1" "m1" "e1" [(ATTEMPT_METADATA_KEY, VStr "att-1")] "v1" "obj" (Some "2025") None.

Definition sample_job (attempt : Z) (token : string) : IngestionJob :=
  mk_ijob "tenant" "ws" "col" "job-1" (Some "doc-1") "indexing" "indexing" (Fin 0) attempt None None (Fin 0) (Some (Fin 0)) None
    false [] [("publication_attempt", VStr token)].

Definition sample_key : pub_key := ("tenant", "ws", "col", "job-1").

Definition sample_calls : list k_call :=
  [C_new sample_document; C_upsert_document ("2026", "2026") 0%nat; C_begin_ingestion_checkpoint (sample_job 1 "att-1");
   C_save_ingestion_checkpoint (sample_job 1 "att-1") (VStr "fp") [("vectors", VList [VList [VInt 1]])];
   C_begin_publication (sample_job 1 "att-1") None 3].

Definition sample_publish : list k_call :=
  [C_set_document_status ("2026", "2026") (fun _ => lit 3 1) "doc-1" "published"].

Definition sample_later : list k_call :=
  [C_resolve_publication (lit 9 1) (mk_receipt "job-1" "tenant" "ws" "col" "doc-1" "att-1" "att-1" pending false 3
     (mk_snapshot 1 (Fin 0) None None [] [])) "failed";
   C_save_ingestion_checkpoint (sample_job 1 "att-1") (VStr "fp") [("vectors", VList [VList [VInt 1]; VList [VInt 2]])];
   C_begin_publication (sample_job 2 "att-2") None 3].

(** A lookup that a boolean check has computed. *)
Definition looked_up {A} (check : A -> bool) (o : option A) : bool := match o with Some x => check x | None => false end.

Lemma looked_up_Some {A} (check : A -> bool) o : looked_up check o = true -> exists x, o = Some x /\ check x = true.
Proof. destruct o; [eauto | discriminate]. Qed.

Lemma publication_decision_final_witness :
  exists r, st_publications (k_run (sample_calls ++ sample_publish) empty_store) !! sample_key = Some r
  /\ rc_outcome r = committed
  /\ exists r', st_publications (k_run sample_later (k_run (sample_calls ++ sample_publish) empty_store)) !! sample_key = Some r'
     /\ rc_outcome r' = committed.
Proof.
  destruct (looked_up_Some (fun x => bool_decide (rc_outcome x = committed))
    (st_publications (k_run (sample_calls ++ sample_publish) empty_store) !! sample_key)) as (r & E & Ho); [vm_compute; reflexivity|].
  apply bool_decide_eq_true_1 in Ho. exists r. split; [exact E | split; [exact Ho|]].
  destruct (publication_decision_final (sample_calls ++ sample_publish) sample_later sample_key r E) as (r' & Hr & _ & Hf).
  exists r'. split; [exact Hr|]. rewrite <- Ho. apply Hf. now left.
Defined.

Lemma checkpoint_durable_witness :
  exists c, st_checkpoints (k_run sample_calls empty_store) !! sample_key = Some c
  /\ length (ck_artifacts c) = 1%nat
  /\ exists c', st_checkpoints (k_run sample_later (k_run sample_calls empty_store)) !! sample_key = Some c'.
Proof.
  destruct (looked_up_Some (fun c => bool_decide (length (ck_artifacts c) = 1%nat))
    (st_checkpoints (k_run sample_calls empty_store) !! sample_key)) as (c & E & Hn); [vm_compute; reflexivity|].
  apply bool_decide_eq_true_1 in Hn. exists c. split; [exact E | split; [exact Hn|]].
  destruct (checkpoint_durable sample_calls sample_later sample_key c E) as (c' & Hc & _). exists c'. exact Hc.
Defined.

(** The later save extended the vectors. *)
Example sample_vectors_extended :
  option_map ck_artifacts (st_checkpoints (k_run sample_later (k_run sample_calls empty_store)) !! sample_key)
  = Some [("vectors", VList [VList [VInt 1]; VList [VInt 2]])].
Proof. vm_compute. reflexivity. Qed.

Lemma publish_decides_receipts_witness :
  exists s' r r', set_document_status ("2026", "2026") (fun _ => lit 3 1) "doc-1" "published" (k_run sample_calls empty_store) = (s', Ok tt)
  /\ st_publications (k_run sample_calls empty_store) !! sample_key = Some r /\ rc_outcome r = pending
  /\ st_publications s' !! sample_key = Some r' /\ d_status (object 0%nat s') = "published".
Proof.
  pose proof (publish_decides_receipts sample_calls ("2026", "2026") (fun _ => lit 3 1) "doc-1" 0%nat) as H. cbv zeta in H.
  specialize (H ltac:(vm_compute; reflexivity) ltac:(apply Nat.ltb_lt; vm_compute; reflexivity)
                ltac:(vm_compute; reflexivity) ltac:(vm_compute; reflexivity)).
  assert (cancel_pending (object 0%nat (k_run sample_calls empty_store)) (st_publications (k_run sample_calls empty_store)) = false) as Hc
    by (vm_compute; reflexivity).
  assert (lineage_ok (object 0%nat (k_run sample_calls empty_store)) = true) as Hl by (vm_compute; reflexivity).
  destruct (set_document_status _ _ _ _ _) as [s' res] eqn:Es. rewrite Hc, Hl in H.
  destruct H as (Hst & _ & -> & Hk). specialize (Hk sample_key).
  destruct (looked_up_Some (fun x => bool_decide (rc_outcome x = pending) && decides (object 0%nat (k_run sample_calls empty_store)) x)
    (st_publications (k_run sample_calls empty_store) !! sample_key)) as (r & Er & Ho); [vm_compute; reflexivity|].
  apply andb_prop in Ho as [Ho Hd]. unfold committed_as in Hk. rewrite Er, Hd in Hk. destruct Hk as (r' & _ & Hr').
  exists s', r, r'. split_and!; try reflexivity; try assumption. apply (bool_decide_eq_true_1 _ Ho).
Defined.
