(* ===== verification/TombstoneProperties.v ===== *)
(** * Tombstones of the in-memory knowledge store

    The invariant of the tombstones, that every operation of the store preserves it, and what
    follows for a tombstoned document. *)

From Stdlib Require Import Ascii String.
From stdpp Require Import strings relations gmap.
From S2P Require Import Prelude PyFloat PyStr PyVal IngestionJobs StateError KnowledgeModels Publication.
From S2P Require Import PublicationLemmas KnowledgeStore PublicationProperties.

Local Open Scope string_scope.
Local Open Scope Z_scope.
Local Open Scope list_scope.

(** ** Deleted documents and the objects callers hold

    A caller knows the addresses of the objects it created or was handed.  The
    store keeps the object of a deleted document out of every caller's reach;
    the steps below are what its operations do to the heap, the document table
    and the tombstones. *)

(** The part of a document that deletion retains: all but status and lineage. *)
Definition content (d : Document) : Document := with_status EmptyString (with_lineage EmptyString EmptyString None None d).

Definition same_tables (s s' : Store) : Prop :=
  st_documents s' = st_documents s /\ st_tombstones s' = st_tombstones s.

Section steps.
Context (known : list addr).

Inductive dstep (s s' : Store) : Prop :=
| ds_same : st_heap s' = st_heap s -> same_tables s s' -> dstep s s'
| ds_alloc d : st_heap s' = st_heap s ++ [d] -> same_tables s s' -> dstep s s'
| ds_object a d :
    a ∈ known \/ (exists i, stored i s = Some a /\ i ∉ st_tombstones s) ->
    st_heap s' = <[a := d]> (st_heap s) -> same_tables s s' -> dstep s s'
| ds_mark i a :
    stored i s = Some a -> i ∈ st_tombstones s ->
    st_heap s' = <[a := with_status "deleted" (object a s)]> (st_heap s) -> same_tables s s' -> dstep s s'
| ds_put i a :
    a ∈ known -> i ∉ st_tombstones s -> st_heap s' = st_heap s ->
    st_documents s' = <[i := a]> (st_documents s) -> st_tombstones s' = st_tombstones s -> dstep s s'
| ds_bury i d :
    is_deleted d = true ->
    (forall a, i ∈ st_tombstones s -> stored i s = Some a -> content d = content (object a s)) ->
    st_heap s' = st_heap s ++ [d] -> st_documents s' = <[i := length (st_heap s)]> (st_documents s) ->
    st_tombstones s' = {[i]} ∪ st_tombstones s -> dstep s s'.

(** The store's own object of a deleted document. *)
Definition private (s : Store) (i : string) (a : addr) : Prop :=
  stored i s = Some a /\ a ∉ known /\ is_deleted (object a s) = true /\ (forall i', stored i' s = Some a -> i' = i).

Record tomb_inv (s : Store) : Prop := {
  ti_known : forall a, a ∈ known -> (a < length (st_heap s))%nat;
  ti_stored : forall i a, stored i s = Some a -> (a < length (st_heap s))%nat;
  ti_private : forall i, i ∈ st_tombstones s -> exists a, private s i a }.

(** A deleted document is still deleted, with the same content. *)
Definition frozen (i : string) (s s' : Store) : Prop :=
  i ∈ st_tombstones s -> i ∈ st_tombstones s' /\ forall a, stored i s = Some a ->
    exists a', stored i s' = Some a' /\ content (object a' s') = content (object a s).

Lemma object_same_heap a s s' : st_heap s' = st_heap s -> object a s' = object a s.
Proof. intros H. unfold object. now rewrite H. Qed.

Lemma object_app a d s s' : st_heap s' = st_heap s ++ [d] -> (a < length (st_heap s))%nat -> object a s' = object a s.
Proof. intros H Ha. unfold object. rewrite H, app_nth1 by exact Ha. reflexivity. Qed.

Lemma object_new d s s' : st_heap s' = st_heap s ++ [d] -> object (length (st_heap s)) s' = d.
Proof. intros H. unfold object. rewrite H, app_nth2, Nat.sub_diag by lia. reflexivity. Qed.

Lemma object_insert_ne a b d s s' : st_heap s' = <[b := d]> (st_heap s) -> a <> b -> object a s' = object a s.
Proof. intros H Hne. unfold object. rewrite H, !nth_lookup, list_lookup_insert_ne by congruence. reflexivity. Qed.

Lemma object_insert_eq a d s s' : st_heap s' = <[a := d]> (st_heap s) -> (a < length (st_heap s))%nat -> object a s' = d.
Proof. intros H Ha. unfold object. rewrite H, nth_lookup, list_lookup_insert_eq by exact Ha. reflexivity. Qed.

Lemma stored_same i s s' : same_tables s s' -> stored i s' = stored i s.
Proof. intros [H _]. unfold stored. now rewrite H. Qed.

(** A change of the heap that leaves the tables alone. *)
Lemma heap_step_inv s s' : same_tables s s' -> (length (st_heap s) <= length (st_heap s'))%nat ->
  (forall i a, i ∈ st_tombstones s -> private s i a -> is_deleted (object a s') = true /\ content (object a s') = content (object a s)) ->
  tomb_inv s -> tomb_inv s' /\ forall i, frozen i s s'.
Proof.
  intros Ht Hl Ho [Hk Hs Hp]. pose proof (proj2 Ht) as Htomb. split.
  - constructor.
    + intros a Ha. specialize (Hk a Ha). lia.
    + intros i a. rewrite (stored_same _ _ _ Ht). intros H. specialize (Hs i a H). lia.
    + intros i. rewrite Htomb. intros Hi. destruct (Hp i Hi) as (a & Hpa). exists a. destruct (Ho i a Hi Hpa) as [Hd _].
      destruct Hpa as (H1 & H2 & _ & H4). unfold private. rewrite (stored_same _ _ _ Ht).
      split_and!; auto. intros i'. rewrite (stored_same _ _ _ Ht). auto.
  - intros i Hi. rewrite Htomb. split; [exact Hi|]. intros a Ha. exists a. rewrite (stored_same _ _ _ Ht). split; [exact Ha|].
    destruct (Hp i Hi) as (a' & Hpa). assert (a' = a) as -> by (destruct Hpa as (H1 & _); congruence).
    apply (Ho i a Hi Hpa).
Qed.

(** A document is buried in a fresh object. *)
Lemma bury_inv i d s s' : is_deleted d = true -> st_heap s' = st_heap s ++ [d] ->
  st_documents s' = <[i := length (st_heap s)]> (st_documents s) -> st_tombstones s' = {[i]} ∪ st_tombstones s ->
  tomb_inv s -> tomb_inv s'.
Proof.
  intros Hd Hh Hdoc Ht [Hk Hs Hp].
  assert (Hlen : length (st_heap s') = S (length (st_heap s))) by (rewrite Hh, length_app; cbn; lia).
  constructor.
  - intros a Ha. specialize (Hk a Ha). lia.
  - intros j a. unfold stored. rewrite Hdoc. destruct (decide (i = j)) as [->|Hn].
    + rewrite lookup_insert_eq. intros [= <-]. lia.
    + rewrite lookup_insert_ne by exact Hn. intros H. specialize (Hs j a H). lia.
  - intros j. rewrite Ht, elem_of_union, elem_of_singleton. intros Hj. destruct (decide (j = i)) as [->|Hn].
    + exists (length (st_heap s)). unfold private, stored. rewrite Hdoc, lookup_insert_eq. split_and!; [reflexivity | | | ].
      * intros Hin. specialize (Hk _ Hin). lia.
      * rewrite (object_new d s s' Hh). exact Hd.
      * intros i' H'. destruct (decide (i = i')) as [|Hn]; [congruence|]. rewrite lookup_insert_ne in H' by exact Hn.
        specialize (Hs i' _ H'). lia.
    + destruct Hj as [|Hj]; [contradiction|]. destruct (Hp j Hj) as (a & H1 & H2 & H3 & H4). exists a.
      assert (a < length (st_heap s))%nat as Ha by (eapply Hs, H1).
      unfold private, stored in *. rewrite Hdoc, lookup_insert_ne by congruence. split_and!; auto.
      * rewrite (object_app a d s s' Hh Ha). exact H3.
      * intros i'. destruct (decide (i = i')) as [->|Hn']; [rewrite lookup_insert_eq; intros [= <-]; lia|].
        rewrite lookup_insert_ne by exact Hn'. apply H4.
Qed.

(** A tombstone is taken away and the document restored in a fresh object. *)
Lemma unbury_inv i d s s' : st_heap s' = st_heap s ++ [d] ->
  st_documents s' = <[i := length (st_heap s)]> (st_documents s) -> st_tombstones s' = st_tombstones s ∖ {[i]} ->
  tomb_inv s -> tomb_inv s'.
Proof.
  intros Hh Hdoc Ht [Hk Hs Hp].
  assert (Hlen : length (st_heap s') = S (length (st_heap s))) by (rewrite Hh, length_app; cbn; lia).
  constructor.
  - intros a Ha. specialize (Hk a Ha). lia.
  - intros j a. unfold stored. rewrite Hdoc. destruct (decide (i = j)) as [->|Hn].
    + rewrite lookup_insert_eq. intros [= <-]. lia.
    + rewrite lookup_insert_ne by exact Hn. intros H. specialize (Hs j a H). lia.
  - intros j. rewrite Ht, elem_of_difference, elem_of_singleton. intros [Hj Hn].
    destruct (Hp j Hj) as (a & H1 & H2 & H3 & H4). exists a. assert (a < length (st_heap s))%nat as Ha by (eapply Hs, H1).
    unfold private, stored in *. rewrite Hdoc, lookup_insert_ne by congruence. split_and!; auto.
    + rewrite (object_app a d s s' Hh Ha). exact H3.
    + intros i'. destruct (decide (i = i')) as [->|Hn']; [rewrite lookup_insert_eq; intros [= <-]; lia|].
      rewrite lookup_insert_ne by exact Hn'. apply H4.
Qed.

Lemma dstep_inv s s' : dstep s s' -> tomb_inv s -> tomb_inv s' /\ forall i, frozen i s s'.
Proof.
  intros Hd Hi. destruct Hd as [Hh Ht | d Hh Ht | a d Ha Hh Ht | i a Hia Hti Hh Ht | i a Ha Hni Hh Hdoc Ht | i d Hdel Hc Hh Hdoc Ht].
  - apply heap_step_inv; auto; [rewrite Hh; lia|]. intros i a _ (_ & _ & H & _). rewrite (object_same_heap a s s' Hh). auto.
  - apply heap_step_inv; auto; [rewrite Hh, length_app; lia|]. intros i a _ (H1 & _ & H & _).
    rewrite (object_app a d s s' Hh) by (eapply ti_stored; eassumption). auto.
  - apply heap_step_inv; auto; [rewrite Hh, length_insert; lia|]. intros i b Hti (H1 & H2 & H3 & H4).
    assert (b <> a) as Hne.
    { intros ->. destruct Ha as [Ha | (j & Hj & Hnj)]; [contradiction|]. apply H4 in Hj. congruence. }
    rewrite (object_insert_ne b a d s s' Hh Hne). auto.
  - apply heap_step_inv; auto; [rewrite Hh, length_insert; lia|]. intros j b Hj (H1 & H2 & H3 & H4).
    destruct (decide (b = a)) as [->|Hne]; [|rewrite (object_insert_ne b a _ s s' Hh Hne); auto].
    rewrite (object_insert_eq a _ s s' Hh) by (eapply ti_stored; eassumption). split; reflexivity.
  - destruct Hi as [Hk Hs Hp]. split; [constructor|].
    + intros b Hb. rewrite Hh. auto.
    + intros j b. unfold stored. rewrite Hdoc, Hh. destruct (decide (i = j)) as [->|Hn].
      * rewrite lookup_insert_eq. intros [= <-]. auto.
      * rewrite lookup_insert_ne by exact Hn. apply Hs.
    + intros j. rewrite Ht. intros Hj. destruct (Hp j Hj) as (b & H1 & H2 & H3 & H4). exists b.
      unfold private, stored in *. rewrite Hdoc, lookup_insert_ne by congruence. split_and!; auto.
      * rewrite (object_same_heap b s s' Hh). exact H3.
      * intros i'. destruct (decide (i = i')) as [->|Hn']; [rewrite lookup_insert_eq; intros [= <-]; contradiction|].
        rewrite lookup_insert_ne by exact Hn'. apply H4.
    + intros j Hj. rewrite Ht. split; [exact Hj|]. intros b Hb. exists b. unfold stored in *.
      rewrite Hdoc, lookup_insert_ne by congruence. rewrite (object_same_heap b s s' Hh). auto.
  - split; [eapply bury_inv; eassumption|]. intros j Hj. rewrite Ht. split; [set_solver|]. intros b Hb. unfold stored in *. rewrite Hdoc.
    destruct (decide (i = j)) as [->|Hn].
    + rewrite lookup_insert_eq. eexists; split; [reflexivity|]. rewrite (object_new d s s' Hh). apply Hc; auto.
    + rewrite lookup_insert_ne by exact Hn. exists b. split; [exact Hb|].
      rewrite (object_app b d s s' Hh) by (eapply ti_stored; eassumption). reflexivity.
Qed.

Lemma frozen_trans i s1 s2 s3 : tomb_inv s1 -> frozen i s1 s2 -> frozen i s2 s3 -> frozen i s1 s3.
Proof.
  intros _ H1 H2 Hi. destruct (H1 Hi) as [Hi2 F1]. destruct (H2 Hi2) as [Hi3 F2]. split; [exact Hi3|].
  intros a Ha. destruct (F1 a Ha) as (b & Hb & Eb). destruct (F2 b Hb) as (c & Hc & Ec). exists c. split; congruence.
Qed.

Lemma dsteps_inv s s' : rtc dstep s s' -> tomb_inv s -> tomb_inv s' /\ forall i, frozen i s s'.
Proof.
  intros H. induction H as [s | s1 s2 s3 H12 H23 IH]; intros Hi.
  - split; [exact Hi|]. intros i Ht. split; [exact Ht|]. eauto.
  - destruct (dstep_inv _ _ H12 Hi) as [Hi2 F1]. destruct (IH Hi2) as [Hi3 F2]. split; [exact Hi3|].
    intros i. eapply frozen_trans; eauto.
Qed.
End steps.

(** ** Deletion is final

    Every operation of the store makes the document steps above;
    [restore_deleted_document] alone takes a tombstone away. *)

(** ** Calls that leave the documents alone *)

Definition same_documents (s s' : Store) : Prop := st_heap s' = st_heap s /\ same_tables s s'.

#[export] Instance same_documents_preorder : PreOrder same_documents.
Proof. split; [repeat split | unfold same_documents, same_tables; intros s1 s2 s3; intuition congruence]. Qed.

Lemma spares_modify f : (forall s, same_documents s (f s)) -> respects same_documents (modify (E := k_error) f).
Proof. intros H s. apply H. Qed.

Lemma spares_write_checkpoint c : respects same_documents (_write_ingestion_checkpoint c).
Proof.
  unfold _write_ingestion_checkpoint. apply respects_bind; [exact _ | eauto with respects typeclass_instances|].
  intros _. apply spares_modify. repeat split.
Qed.

#[export] Hint Extern 1 (respects same_documents (modify _)) => (apply spares_modify; intros ?; repeat split) : respects.
#[export] Hint Extern 1 (respects same_documents (write_checkpoint _)) => (apply spares_write_checkpoint) : respects.

Lemma spares_begin_checkpoint j : respects same_documents (begin_ingestion_checkpoint j).
Proof. unfold begin_ingestion_checkpoint. respect. Qed.

#[export] Hint Resolve spares_begin_checkpoint : respects.

Lemma spares_save_checkpoint j f a : respects same_documents (save_ingestion_checkpoint j f a).
Proof. unfold save_ingestion_checkpoint. respect. Qed.

Lemma spares_finish j : respects same_documents (finish_ingestion_checkpoint j).
Proof. unfold finish_ingestion_checkpoint. respect. Qed.

Lemma spares_repair j : respects same_documents (repair_deduplicated_checkpoint j).
Proof. unfold repair_deduplicated_checkpoint. respect. Qed.

Lemma spares_ingestion_cancel j : respects same_documents (request_ingestion_cancel j).
Proof. unfold request_ingestion_cancel. respect. Qed.

Lemma spares_begin_publication j d n : respects same_documents (begin_publication j d n).
Proof. unfold begin_publication. respect. Qed.

Lemma spares_save_snapshot j : respects same_documents (save_publication_snapshot j).
Proof. unfold save_publication_snapshot. respect. Qed.

Lemma spares_resolve now r n : respects same_documents (resolve_publication now r n).
Proof. unfold resolve_publication. respect. Qed.

Lemma spares_cancel j : respects same_documents (request_publication_cancel j).
Proof. unfold request_publication_cancel. respect. Qed.

Lemma spares_replace i l : respects same_documents (replace_document_chunks i l).
Proof. unfold replace_document_chunks. respect. Qed.

Lemma spares_list w c t a l st al : respects same_documents (list_documents w c t a l st al).
Proof. unfold list_documents. respect. Qed.

Lemma spares_upsert_collection c : respects same_documents (upsert_collection c).
Proof. unfold upsert_collection, collection_mutation, get_collection, upsert_method. respect. Qed.

Lemma spares_ensure c : respects same_documents (ensure_collection c).
Proof. unfold ensure_collection, collection_mutation, get_collection, ensure_method. respect. Qed.

(** ** Document operations as steps *)

Lemma materialize_content now p d : content (fst (materialize_lineage now p d)) = content d.
Proof.
  unfold materialize_lineage. mstep. mstep. destruct (_timestamp_text _); [|reflexivity]. mstep. mstep.
  destruct (_timestamp_text _); reflexivity.
Qed.

Lemma unchanged_tombstone_spec now cur snapshot d : require_unchanged_tombstone now (Some cur) snapshot = Ok d ->
  d = with_status (d_status snapshot) cur.
Proof.
  unfold require_unchanged_tombstone. intros H. apply bind_Ok in H as (u & _ & H).
  pose proof (materialize_status now false snapshot) as Hst. destruct (materialize_lineage now false snapshot) as [c r]. cbn in Hst.
  apply bind_Ok in H as (u' & _ & H). cbv zeta in H. apply bind_Ok in H as (u2 & _ & H). apply Ok_inj in H as ->. f_equal.
  rewrite <- Hst. destruct (d_published_at snapshot), (is_empty _ && _); reflexivity.
Qed.

Section operations.
Context (known : list addr).
Implicit Types (s : Store).
Local Notation steps := (rtc (dstep known)).

Lemma same_documents_steps s s' : same_documents s s' -> steps s s'.
Proof. intros [Hh Ht]. apply rtc_once, ds_same; assumption. Qed.

(** Puts away a fresh object [d] as the deleted document [i]. *)
Lemma bury_steps i d s : is_deleted d = true ->
  (forall a, i ∈ st_tombstones s -> stored i s = Some a -> content d = content (object a s)) ->
  forall s', st_heap s' = st_heap s ++ [d] -> st_documents s' = <[i := length (st_heap s)]> (st_documents s) ->
  st_tombstones s' = {[i]} ∪ st_tombstones s -> steps s s'.
Proof. intros Hd Hc s' H1 H2 H3. apply rtc_once. eapply ds_bury; eassumption. Qed.

Lemma set_object_step a d s :
  a ∈ known \/ (exists i, stored i s = Some a /\ i ∉ st_tombstones s) -> dstep known s (set_object a d s).
Proof. intros H. eapply ds_object; [exact H | reflexivity | split; reflexivity]. Qed.

Lemma upsert_steps now a s : tomb_inv known s -> a ∈ known -> steps s (exec (upsert_document now a) s).
Proof.
  intros Hi Ha. pose proof (ti_known _ _ Hi a Ha) as Hlen. unfold upsert_document, exec. mstep. mstep.
  destruct (negb _); [reflexivity|]. do 4 mstep.
  destruct ((_ || _) && _) eqn:Hguard; [reflexivity|]. mstep. match goal with |- context [fst (if ?b then _ else _)] => destruct b; [reflexivity|] end.
  unfold mbind at 1, M_bind at 1. rewrite on_object_run. cbv beta.
  set (p := str_eqb _ "published"). set (d1 := fst (materialize_lineage now p (object a s))).
  assert (dstep known s (set_object a d1 s)) as Hs1 by (apply set_object_step; left; exact Ha).
  destruct (snd (materialize_lineage now p (object a s))); [|apply rtc_once, Hs1]. eapply rtc_l; [exact Hs1|].
  destruct (dstep_inv _ _ _ Hs1 Hi) as [Hi1 _].
  set (i := d_document_id (object a s)) in *. set (s1 := set_object a d1 s) in *.
  assert (object a s1 = d1) as Hobj by (apply object_set, Hlen).
  assert (d_status d1 = d_status (object a s)) as Hst by apply materialize_status.
  assert (stored i s1 = stored i s) as Hsame by reflexivity. change (is_tombstone i s) with (is_tombstone i s1) in Hguard.
  rewrite <- Hsame in *. clearbody s1. mstep. mstep. unfold id at 1.
  match goal with |- context [match ?r with Ok _ => _ | Err _ => _ end] => destruct r as [d|] eqn:Hd; [|reflexivity] end.
  assert (is_deleted d = is_deleted (object a s) /\
    (forall e, stored i s1 = Some e -> is_deleted (object e s1) = true -> content d = content (object e s1))) as [Hdel Hcon].
  { clear Hguard. unfold is_deleted, id, option_map in *. rewrite <- Hst. destruct (stored i s1) as [e|].
    - destruct (str_eqb (d_status (object e s1)) "deleted") eqn:Ee.
      + apply unchanged_tombstone_spec in Hd as ->. rewrite Hobj. split; [reflexivity|]. intros e' [= <-] _. reflexivity.
      + apply Ok_inj in Hd as ->. rewrite Hobj. split; [reflexivity | congruence].
    - apply Ok_inj in Hd as ->. rewrite Hobj. split; [reflexivity | discriminate]. }
  destruct (is_deleted d) eqn:Ed.
  - eapply bury_steps; [exact Ed | | reflexivity | reflexivity | reflexivity].
    intros e Hin He. apply (Hcon e He). destruct (ti_private _ _ Hi1 i Hin) as (e' & Hp1 & _ & Hp3 & _). congruence.
  - apply rtc_once. eapply ds_put; [exact Ha | | reflexivity | reflexivity | reflexivity].
    rewrite <- Hdel, andb_true_r in Hguard. apply orb_false_iff in Hguard as [Ht _]. unfold is_tombstone in Ht. bool_to_prop. exact Ht.
Qed.

Lemma get_document_steps i t w s : steps s (exec (get_document i t w) s).
Proof.
  unfold get_document, exec. mstep. destruct (stored i s) as [a|] eqn:Ea; [|reflexivity]. mstep.
  assert (Hrest : forall s1, steps s1 (exec (gets (E := k_error) (object a) ≫= fun d =>
     if scope_mismatch t (d_tenant_id d) || scope_mismatch w (d_workspace_id d) then mret None
     else if is_deleted d then new_object d ≫= fun copy => mret (Some copy) else mret (Some a)) s1)).
  { intros s1. unfold exec. mstep. destruct (_ || _); [reflexivity|]. destruct (is_deleted _); [|reflexivity].
    apply rtc_once. eapply ds_alloc; [reflexivity | split; reflexivity]. }
  destruct (is_tombstone i s) eqn:Et.
  - mstep. eapply rtc_l; [|apply Hrest]. unfold is_tombstone in Et. bool_to_prop.
    eapply ds_mark; [exact Ea | exact Et | reflexivity | split; reflexivity].
  - apply Hrest.
Qed.

Lemma delete_steps i s : steps s (exec (delete_document i) s).
Proof.
  unfold delete_document, exec. mstep. mstep. set (s1 := set_chunks _ s).
  transitivity s1; [apply same_documents_steps; repeat split|]. mstep.
  change (stored i s1) with (stored i s). destruct (stored i s) as [a|] eqn:Ea; [|reflexivity]. mstep.
  apply (bury_steps i (with_status "deleted" (object a s1))); try reflexivity. intros b _ Hb.
  change (stored i s1) with (stored i s) in Hb. assert (b = a) as -> by congruence. reflexivity.
Qed.

(** A status other than deleted is written to the live object. *)
Lemma set_status_steps now times i status s : steps s (exec (set_document_status now times i status) s).
Proof.
  unfold set_document_status, exec. mstep. destruct (negb _); [reflexivity|].
  mstep. destruct (stored i s) as [a|] eqn:Ea; [|reflexivity]. do 3 mstep.
  destruct (str_eqb status "published" && _); [reflexivity|]. do 2 mstep.
  destruct ((_ || _) && _) eqn:Hguard; [reflexivity|]. destruct (str_eqb status "deleted") eqn:Ed.
  - apply str_eqb_eq in Ed as ->. change (str_eqb "deleted" "published") with false. cbv iota beta zeta.
    unfold mbind, M_bind. cbn [new_object put_document add_tombstone modify mret M_ret lift].
    match goal with |- context [on_object ?c ?m ?s1] => set (s2 := s1) end. rewrite on_object_run.
    set (d2 := fst (materialize_lineage now false (object (length (st_heap s)) s2))).
    assert (object (length (st_heap s)) s2 = with_status "deleted" (object a s)) as Hobj.
    { set (s0 := set_documents (<[i := length (st_heap s)]> (st_documents s)) (set_heap (st_heap s ++ [object a s]) s)) in *.
      change (object (length (st_heap s)) s2) with
        (object (length (st_heap s)) (set_object (length (st_heap s)) (with_status "deleted" (object (length (st_heap s)) s0)) s0)).
      rewrite object_set by (cbn; rewrite length_app; cbn; lia). f_equal. apply (object_new (object a s) s). reflexivity. }
    eapply (bury_steps i d2).
    + unfold d2, is_deleted. rewrite materialize_status, Hobj. reflexivity.
    + intros b _ Hb. assert (b = a) as -> by congruence. unfold d2. rewrite materialize_content, Hobj. reflexivity.
    + destruct (snd _); cbn; rewrite list_insert_insert_eq, insert_app_r_alt, Nat.sub_diag by lia; reflexivity.
    + destruct (snd _); reflexivity.
    + destruct (snd _); reflexivity.
  - rewrite bind_mret. mstep. match goal with |- context [match ?r with Ok _ => _ | Err _ => _ end] => destruct r as [l|]; [|reflexivity] end.
    rewrite andb_true_r in Hguard. apply orb_false_iff in Hguard as [Ht _]. unfold is_tombstone in Ht. bool_to_prop.
    mstep. rewrite bind_mret. set (s1 := set_object a (with_status status (object a s)) s).
    assert (Hlive : exists i, stored i s = Some a /\ i ∉ st_tombstones s) by eauto.
    apply (rtc_l _ _ s1); [apply set_object_step; right; exact Hlive|].
    unfold mbind at 1, M_bind at 1. rewrite on_object_run. set (d2 := fst (materialize_lineage _ _ _)).
    apply (rtc_l _ _ (set_object a d2 s1)); [apply set_object_step; right; exact Hlive|].
    destruct (snd _); [|reflexivity]. apply same_documents_steps. repeat split.
Qed.

Lemma steps_inv s s' : tomb_inv known s -> steps s s' -> tomb_inv known s'.
Proof. intros Hi H. apply (dsteps_inv known s s' H Hi). Qed.

Lemma unchanged_tombstone_deleted now cur snapshot d : require_unchanged_tombstone now (Some cur) snapshot = Ok d -> is_deleted cur = true.
Proof.
  unfold require_unchanged_tombstone. intros H. apply bind_Ok in H as (u & Hg & _). apply raise_if_Ok in Hg. bool_to_prop. assumption.
Qed.

Lemma restore_inv now a chunks s : tomb_inv known s -> tomb_inv known (exec (restore_deleted_document now a chunks) s).
Proof.
  intros Hi. unfold restore_deleted_document. unfold exec. mstep. set (i := d_document_id _).
  match goal with |- tomb_inv _ (fst (?m s)) => change (fst (m s)) with (exec m s) end. rewrite exec_bind.
  pose proof (steps_inv _ _ Hi (get_document_steps i None None s)) as Hi1.
  destruct (eval (get_document i None None) s) as [current|]; [|exact Hi1]. set (s1 := exec _ s) in *. clearbody s1.
  unfold exec. mstep. mstep. unfold id at 1 2 3.
  match goal with |- context [match ?r with Ok _ => _ | Err _ => _ end] => destruct r as [restored|] eqn:Hr; [|exact Hi1] end.
  unfold require_deleted_snapshot in Hr. apply bind_Ok in Hr as (u & _ & Hr).
  destruct current as [c|]; [|discriminate Hr]. apply unchanged_tombstone_deleted in Hr as Hdel.
  mstep. unfold mbind at 1, M_bind at 1. cbn [new_object]. unfold mbind at 1, M_bind at 1. cbn [put_document modify].
  match goal with |- context [try_except _ _ ?x] => set (s2 := x) end.
  assert (tomb_inv known s2) as Hi2 by (apply (unbury_inv known i restored s1 s2); auto; reflexivity).
  clearbody s2. unfold try_except. pose proof (spares_replace i chunks s2) as Hsp. unfold exec in Hsp.
  destruct (replace_document_chunks i chunks s2) as [s3 [r|e]]; cbn in Hsp.
  - apply (steps_inv _ _ Hi2), same_documents_steps, Hsp.
  - assert (tomb_inv known s3) as Hi3 by (apply (steps_inv _ _ Hi2), same_documents_steps, Hsp).
    eapply (bury_inv known i (object c s1) s3); [exact Hdel | reflexivity | reflexivity | reflexivity | exact Hi3].
Qed.
End operations.

(** ** Callers *)

(** A caller names only objects it has. *)
Definition may_call (known : list addr) (c : k_call) : Prop :=
  match c with
  | C_mutate a _ | C_upsert_document _ a | C_restore_deleted_document _ a _ => a ∈ known
  | _ => True
  end.

(** The objects a call hands to the caller. *)
Definition handed_out (s : Store) (c : k_call) : list addr :=
  match c with
  | C_new _ => [length (st_heap s)]
  | C_get_document i t w => match eval (get_document i t w) s with Ok (Some a) => [a] | _ => [] end
  | C_list_documents w c t a l st al => match eval (list_documents w c t a l st al) s with Ok l => l | _ => [] end
  | _ => []
  end.

Definition is_restore (c : k_call) : bool := match c with C_restore_deleted_document _ _ _ => true | _ => false end.

(** A run of callers that know [known] in [s]. *)
Inductive caller_run : list addr -> Store -> list k_call -> list addr -> Store -> Prop :=
| run_nil known s : caller_run known s [] known s
| run_cons known s c calls known' s' :
    may_call known c -> caller_run (handed_out s c ++ known) (k_do s c) calls known' s' ->
    caller_run known s (c :: calls) known' s'.

Lemma k_do_steps known s c : tomb_inv known s -> may_call known c -> is_restore c = false -> rtc (dstep known) s (k_do s c).
Proof.
  intros Hi Ha Hr. destruct c; cbn [k_do]; try discriminate Hr.
  - apply rtc_once. eapply ds_alloc; [reflexivity | split; reflexivity].
  - apply rtc_once, set_object_step. left. exact Ha.
  - apply upsert_steps; assumption.
  - apply get_document_steps.
  - apply same_documents_steps, spares_list.
  - apply set_status_steps.
  - apply delete_steps.
  - apply same_documents_steps, spares_replace.
  - apply same_documents_steps, spares_upsert_collection.
  - apply same_documents_steps, spares_ensure.
  - apply same_documents_steps, spares_begin_checkpoint.
  - apply same_documents_steps, spares_save_checkpoint.
  - apply same_documents_steps, spares_finish.
  - apply same_documents_steps, spares_repair.
  - apply same_documents_steps, spares_ingestion_cancel.
  - apply same_documents_steps, spares_begin_publication.
  - apply same_documents_steps, spares_save_snapshot.
  - apply same_documents_steps, spares_resolve.
  - apply same_documents_steps, spares_cancel.
Qed.

Lemma k_do_inv known s c : tomb_inv known s -> may_call known c -> tomb_inv known (k_do s c).
Proof.
  intros Hi Ha. destruct (is_restore c) eqn:Hr; [|eapply steps_inv; [exact Hi | apply k_do_steps; assumption]].
  destruct c; try discriminate Hr. apply restore_inv, Hi.
Qed.

(** Objects that are no deleted document's may be handed out. *)
Lemma extend_known known l s : tomb_inv known s ->
  (forall a, a ∈ l -> (a < length (st_heap s))%nat /\ forall i, i ∈ st_tombstones s -> stored i s <> Some a) ->
  tomb_inv (l ++ known) s.
Proof.
  intros [Hk Hs Hp] Hl. constructor.
  - intros a [Ha | Ha]%elem_of_app; [apply Hl, Ha | apply Hk, Ha].
  - exact Hs.
  - intros i Hi. destruct (Hp i Hi) as (a & H1 & H2 & H3 & H4). exists a. split_and!; auto.
    rewrite elem_of_app. intros [Ha | Ha]; [|contradiction]. destruct (Hl a Ha) as [_ H]. apply (H i Hi H1).
Qed.

(** A live object is no deleted document's. *)
Lemma live_not_private known s a : tomb_inv known s -> is_deleted (object a s) = false ->
  forall i, i ∈ st_tombstones s -> stored i s <> Some a.
Proof. intros Hi Hd i Ht Ha. destruct (ti_private _ _ Hi i Ht) as (b & H1 & _ & H3 & _). congruence. Qed.

Lemma get_document_result i t w s s' a : get_document i t w s = (s', Ok (Some a)) ->
  (exists s1, s' = set_heap (st_heap s1 ++ [object a s']) s1 /\ a = length (st_heap s1) /\ same_tables s s1
     /\ (forall j b, stored j s = Some b -> (b < length (st_heap s1))%nat \/ (length (st_heap s) <= b)%nat))
  \/ (stored i s' = Some a /\ is_deleted (object a s') = false).
Proof.
  unfold get_document. mstep. destruct (stored i s) as [b|] eqn:Eb; [|discriminate]. mstep.
  set (s1 := if is_tombstone i s then set_object b (with_status "deleted" (object b s)) s else s).
  assert (same_tables s s1 /\ length (st_heap s1) = length (st_heap s)) as [Ht Hlen].
  { unfold s1. destruct (is_tombstone i s); split; try (split; reflexivity); try reflexivity. apply set_object_length. }
  assert (Hrun : ((if is_tombstone i s then modify (fun s => set_object b (with_status "deleted" (object b s)) s) else mret tt) : M Store k_error unit) s
    = (s1, Ok tt)) by (unfold s1; destruct (is_tombstone i s); reflexivity).
  unfold mbind at 1, M_bind at 1. rewrite Hrun. clear Hrun. clearbody s1. mstep.
  destruct (_ || _); [discriminate|]. destruct (is_deleted (object b s1)) eqn:Ed.
  - intros [= <- <-]. left. exists s1. split; [|split; [reflexivity | split; [exact Ht|]]].
    + rewrite (object_new (object b s1) s1) by reflexivity. reflexivity.
    + intros j c _. rewrite Hlen. lia.
  - intros [= <- <-]. right. rewrite (stored_same _ _ _ Ht). auto.
Qed.

Lemma list_documents_result w c t a l st al s s' r : list_documents w c t a l st al s = (s', Ok r) ->
  s' = s /\ forall b, b ∈ r -> exists i, stored i s = Some b /\ is_deleted (object b s) = false.
Proof.
  unfold list_documents. mstep. destruct (negb _); [discriminate|]. mstep. cbv zeta. unfold id at 1.
  set (sorted := sort_by _ _).
  assert (Hs : forall b, In b sorted -> exists i, stored i s = Some b /\ is_deleted (object b s) = false).
  { intros b Hb. apply sort_by_In, filter_In in Hb as [Hb Hl]. apply in_map_iff in Hb as ([i b'] & Eb & Hin). cbn in Eb. subst b'.
    apply list_elem_of_In, elem_of_map_to_list in Hin. exists i. split; [exact Hin|].
    unfold listed in Hl. cbv zeta in Hl. bool_to_prop. assumption. }
  clearbody sorted. set (after := match a with Some x => _ | None => _ end).
  assert (Ha : forall b, In b after -> In b sorted).
  { intros b. unfold after. destruct a as [x|]; [intros [Hb _]%filter_In; exact Hb | auto]. }
  clearbody after. destruct l as [n|].
  - mstep. destruct (n <? 0); [discriminate|]. intros [= <- <-]. split; [reflexivity|]. intros b Hb%list_elem_of_In.
    apply Hs, Ha. rewrite <- (take_drop (Z.to_nat n) after). apply in_or_app. now left.
  - intros [= <- <-]. split; [reflexivity|]. intros b Hb%list_elem_of_In. apply Hs, Ha, Hb.
Qed.

Lemma handed_out_inv known s c : tomb_inv known s -> may_call known c -> tomb_inv (handed_out s c ++ known) (k_do s c).
Proof.
  intros Hi Ha. pose proof (k_do_inv known s c Hi Ha) as Hi'. destruct c; cbn [handed_out]; try exact Hi'.
  - apply extend_known; [exact Hi'|]. intros a Hin. apply list_elem_of_singleton in Hin as ->. cbn. rewrite length_app. split; [cbn; lia|].
    intros i _ Hs. change (stored i s = Some (length (st_heap s))) in Hs. apply (ti_stored _ _ Hi) in Hs. lia.
  - destruct (eval (get_document document_id tenant workspace) s) as [[a|]|] eqn:E; try exact Hi'. cbn [k_do] in *.
    assert (get_document document_id tenant workspace s = (exec (get_document document_id tenant workspace) s, Ok (Some a))) as Er
      by (unfold exec, eval in *; destruct (get_document _ _ _ s); cbn in *; congruence).
    apply extend_known; [exact Hi'|]. intros b Hin. apply list_elem_of_singleton in Hin as ->.
    apply get_document_result in Er as [(s1 & Hs' & -> & Ht & Hold) | [Hst Hd]].
    + rewrite Hs'. split; [cbn; rewrite length_app; cbn; lia|]. intros i _ Hst.
      change (stored i s1 = Some (length (st_heap s1))) in Hst. rewrite (stored_same _ _ _ Ht) in Hst.
      pose proof (ti_stored _ _ Hi _ _ Hst). destruct (Hold _ _ Hst); lia.
    + split; [eapply ti_stored; eassumption | eapply live_not_private; eassumption].
  - destruct (eval (list_documents workspace collection tenant after limit statuses allowed) s) as [l|] eqn:E; [|exact Hi']. cbn [k_do] in *.
    assert (list_documents workspace collection tenant after limit statuses allowed s
      = (exec (list_documents workspace collection tenant after limit statuses allowed) s, Ok l)) as Er
      by (unfold exec, eval in *; destruct (list_documents _ _ _ _ _ _ _ s); cbn in *; congruence).
    apply list_documents_result in Er as [Hs Hl]. rewrite Hs in *. apply extend_known; [exact Hi'|]. intros b Hb.
    destruct (Hl b Hb) as (i & Hst & Hd). split; [eapply ti_stored; eassumption | eapply live_not_private; eassumption].
Qed.

Lemma caller_run_inv known s calls known' s' : caller_run known s calls known' s' -> tomb_inv known s ->
  tomb_inv known' s' /\ (existsb is_restore calls = false -> forall i, frozen i s s').
Proof.
  induction 1 as [known s | known s c calls known' s' Ha Hrun IH]; intros Hi.
  - split; [exact Hi|]. intros _ i Ht. split; [exact Ht | eauto].
  - destruct (IH (handed_out_inv known s c Hi Ha)) as [Hi' Hf]. split; [exact Hi'|].
    cbn [existsb]. intros [Hc Hcs]%orb_false_iff i. eapply frozen_trans; [exact Hi | | apply Hf, Hcs].
    apply (dsteps_inv known s _ (k_do_steps known s c Hi Ha Hc) Hi).
Qed.

Lemma empty_inv : tomb_inv [] empty_store.
Proof. constructor; [intros a Ha; inversion Ha | intros i a H; discriminate H | intros i H; set_solver]. Qed.

(** ** What a tombstone refuses *)

Section tombstone.
Context (known : list addr) (s : Store) (i : string) (a : addr).
Context (Hinv : tomb_inv known s) (Htomb : i ∈ st_tombstones s) (Hstored : stored i s = Some a).

Lemma tombstone_true : is_tombstone i s = true.
Proof. apply bool_decide_eq_true_2, Htomb. Qed.

Lemma tombstone_deleted : is_deleted (object a s) = true /\ a ∉ known.
Proof. destruct (ti_private _ _ Hinv i Htomb) as (b & H1 & H2 & H3 & _). assert (b = a) as -> by congruence. auto. Qed.

Lemma tombstone_read t w s2 r : get_document i t w s = (s2, Ok (Some r)) ->
  is_deleted (object r s2) = true /\ content (object r s2) = content (object a s).
Proof.
  unfold get_document. mstep. rewrite Hstored. mstep. rewrite tombstone_true. mstep. mstep.
  assert (object a (set_object a (with_status "deleted" (object a s)) s) = with_status "deleted" (object a s)) as Hobj
    by (apply object_set; eapply ti_stored; eassumption).
  rewrite Hobj. destruct (_ || _); [discriminate|]. change (is_deleted (with_status "deleted" (object a s))) with true. cbv iota.
  set (s1 := set_object a _ s). clearbody s1. intros [= <- <-]. rewrite (object_new (with_status "deleted" (object a s)) s1) by reflexivity.
  split; reflexivity.
Qed.

Lemma tombstone_not_listed w c t after l st al s2 r : list_documents w c t after l st al s = (s2, Ok r) -> a ∉ r.
Proof.
  intros H Hin. apply list_documents_result in H as [_ Hl]. destruct (Hl a Hin) as (j & _ & Hd).
  destruct tombstone_deleted as [Hdel _]. congruence.
Qed.

Lemma tombstone_status now times status : status <> "deleted" -> exists e, set_document_status now times i status s = (s, Err e).
Proof.
  intros Hne. unfold set_document_status. mstep. destruct (negb _); [eauto|]. mstep. rewrite Hstored. do 3 mstep.
  destruct (_ && _); [eauto|]. do 2 mstep. rewrite tombstone_true.
  destruct (str_eqb status "deleted") eqn:E; [apply str_eqb_eq in E; contradiction | cbn; eauto].
Qed.

Lemma tombstone_upsert now b : d_document_id (object b s) = i -> is_deleted (object b s) = false ->
  exists e, upsert_document now b s = (s, Err e).
Proof.
  intros Hb Hd. unfold upsert_document. mstep. mstep. destruct (negb _); [eauto|]. do 4 mstep. rewrite Hb, tombstone_true, Hd.
  cbn. eauto.
Qed.

Lemma tombstone_chunks chunks : chunks <> [] -> replace_document_chunks i chunks s = (s, Err ValueError).
Proof.
  intros Hne. unfold replace_document_chunks. mstep. rewrite Hstored. do 3 mstep. rewrite tombstone_true.
  rewrite bool_decide_eq_false_2 by (destruct chunks; cbn; congruence). reflexivity.
Qed.
End tombstone.

(** ** Properties *)

(** C16: deletion is final, whatever callers do with the documents they hold.
    Callers start with nothing, change the objects they created or were
    handed in any way, and make any calls.  Once a document has a tombstone,
    and until [restore_deleted_document] is called, its tombstone stays; the
    object the store keeps is out of every caller's reach and its content is
    the one at the deletion; reading it gives a deleted copy of that content
    and no list shows it; and giving it another status, upserting a live
    document under its identifier or giving it chunks is refused without any
    effect. *)
Theorem deletion_is_final calls known s i calls' known' s' :
  caller_run [] empty_store calls known s -> i ∈ st_tombstones s ->
  caller_run known s calls' known' s' -> existsb is_restore calls' = false ->
  i ∈ st_tombstones s' /\ exists a a', stored i s = Some a /\ stored i s' = Some a' /\ a' ∉ known'
  /\ content (object a' s') = content (object a s)
  /\ (forall t w s2 r, get_document i t w s' = (s2, Ok (Some r)) ->
        is_deleted (object r s2) = true /\ content (object r s2) = content (object a s))
  /\ (forall w c t after l st al s2 r, list_documents w c t after l st al s' = (s2, Ok r) -> a' ∉ r)
  /\ (forall now times status, status <> "deleted" -> exists e, set_document_status now times i status s' = (s', Err e))
  /\ (forall now b, d_document_id (object b s') = i -> is_deleted (object b s') = false ->
        exists e, upsert_document now b s' = (s', Err e))
  /\ (forall chunks, chunks <> [] -> replace_document_chunks i chunks s' = (s', Err ValueError)).
Proof.
  intros Hrun Ht Hrun' Hr. destruct (caller_run_inv _ _ _ _ _ Hrun empty_inv) as [Hi _].
  destruct (caller_run_inv _ _ _ _ _ Hrun' Hi) as [Hi' Hf]. destruct (Hf Hr i Ht) as [Ht' Hc]. split; [exact Ht'|].
  destruct (ti_private _ _ Hi i Ht) as (a & Ha & _). destruct (Hc a Ha) as (a' & Ha' & Hcon).
  exists a, a'. destruct (tombstone_deleted _ _ _ _ Hi' Ht' Ha') as [_ Hk].
  split_and!; try assumption; rewrite <- ?Hcon.
  - intros t w s2 r. apply (tombstone_read known'); assumption.
  - intros w c t after l st al s2 r. apply (tombstone_not_listed known' s' i); assumption.
  - intros now times status. apply tombstone_status with (a := a'); assumption.
  - intros now b. apply tombstone_upsert; assumption.
  - intros chunks. apply tombstone_chunks with (a := a'); assumption.
Qed.

(** A caller keeps the object it uploaded, deletes the document and writes to
    the object it still holds. *)
Definition deletion_calls : list k_call :=
  [C_new sample_document; C_upsert_document ("2026", "2026") 0%nat; C_delete_document "doc-1"].

Definition after_deletion : list k_call :=
  [C_mutate 0%nat (with_status "published"); C_upsert_document ("2026", "2026") 0%nat; C_get_document "doc-1" None None].

Lemma deletion_is_final_witness :
  "doc-1" ∈ st_tombstones (k_run after_deletion (k_run deletion_calls empty_store))
  /\ exists e, set_document_status ("2026", "2026") (fun _ => Fin 0) "doc-1" "published"
       (k_run after_deletion (k_run deletion_calls empty_store)) = (k_run after_deletion (k_run deletion_calls empty_store), Err e).
Proof.
  assert (caller_run [] empty_store deletion_calls [0%nat] (k_run deletion_calls empty_store)) as H1.
  { apply run_cons; [exact I|]. apply run_cons; [apply list_elem_of_In; now left|]. apply run_cons; [exact I|]. apply run_nil. }
  assert (exists known', caller_run [0%nat] (k_run deletion_calls empty_store) after_deletion known'
            (k_run after_deletion (k_run deletion_calls empty_store))) as [known' H2].
  { eexists. apply run_cons; [apply list_elem_of_In; now left|]. apply run_cons; [apply list_elem_of_In; now left|].
    apply run_cons; [exact I|]. apply run_nil. }
  assert (is_tombstone "doc-1" (k_run deletion_calls empty_store) = true) as Ht by (vm_compute; reflexivity).
  unfold is_tombstone in Ht. apply bool_decide_eq_true_1 in Ht.
  destruct (deletion_is_final _ _ _ "doc-1" _ _ _ H1 Ht H2 eq_refl) as (Ht' & a & a' & _ & _ & _ & _ & _ & _ & Hst & _).
  split; [exact Ht'|]. apply Hst. discriminate.
Defined.
