(* ===== verification/CatalogProperties.v ===== *)
(** * Archived collections

    The aliases of one logical collection share their archival: writes to any
    member go to the archived one and cannot activate it. *)

From Stdlib Require Import Ascii String.
From stdpp Require Import strings gmap.
From S2P Require Import Prelude PyFloat PyStr PyVal StateError IngestionJobs KnowledgeModels Publication PublicationLemmas KnowledgeStore.
From S2P Require Import TombstoneProperties.

Local Open Scope string_scope.
Local Open Scope Z_scope.
Local Open Scope list_scope.

(** [collection] names the collection that has aliases. *)
Definition in_family (collection : string) : Prop := canonical_catalog_id collection = CANONICAL_COLLECTION_ID.
Definition family : list string := catalog_collection_ids CANONICAL_COLLECTION_ID.

Lemma family_ids collection : in_family collection -> catalog_collection_ids collection = family.
Proof. unfold in_family, catalog_collection_ids. intros ->. vm_compute. reflexivity. Qed.

Lemma family_canonical collection : in_family collection -> catalog_collection_ids (canonical_catalog_id collection) = family.
Proof. intros H. rewrite H. reflexivity. Qed.

Lemma family_member key : In key family -> in_family key.
Proof. vm_compute. intros [<- | [<- | [<- | []]]]; reflexivity. Qed.

Lemma canonical_cases collection : in_family collection \/ (canonical_catalog_id collection = collection /\ ~ In collection family).
Proof.
  unfold in_family, canonical_catalog_id. destruct (dict_get (strip collection) COLLECTION_ALIASES) as [v|] eqn:E; cbn [from_option].
  - left. apply dict_get_In in E. cbn in E. destruct E as [[= _ <-] | [[= _ <-] | [[= _ <-] | []]]]; reflexivity.
  - right. split; [reflexivity|]. intros Hin. apply dict_get_None in E. apply E.
    vm_compute in Hin. destruct Hin as [<- | [<- | [<- | []]]]; vm_compute; repeat constructor.
Qed.

(** Outside the family a collection is its only name. *)
Lemma single_name collection : ~ In collection family -> canonical_catalog_id collection = collection ->
  (1 <? length (catalog_collection_ids (canonical_catalog_id collection)))%nat = false.
Proof.
  intros Hn Hc. unfold catalog_collection_ids. rewrite !Hc.
  assert (str_eqb CANONICAL_COLLECTION_ID collection = false) as E.
  { destruct (str_eqb CANONICAL_COLLECTION_ID collection) eqn:E; [|reflexivity]. apply str_eqb_eq in E. subst. exfalso. apply Hn. now left. }
  cbn [COLLECTION_ALIASES List.filter fst snd]. rewrite !E. reflexivity.
Qed.

(** ** Selection *)

Lemma min_first_archived keys best l :
  is_archived (min_first (catalog_before keys) best l) = is_archived best || existsb is_archived l.
Proof.
  revert best. induction l as [|x l IH]; intros best; cbn [min_first existsb]; [symmetry; apply orb_false_r|].
  rewrite IH. unfold catalog_before. destruct (is_archived x) eqn:Ex, (is_archived best) eqn:Eb; cbn [Bool.eqb];
    repeat split_if; rewrite ?Ex, ?Eb; try reflexivity.
Qed.

Section catalog.
Implicit Types (s : Store).

Definition keyed s : Prop := forall k c, st_collections s !! k = Some c -> collection_key c = k.

Definition members (tenant workspace : string) s : list (option Collection) :=
  map (fun key => st_collections s !! (tenant, workspace, key)) family.

(** Some member of the family is archived. *)
Definition archived (tenant workspace : string) s : Prop :=
  exists key c, In key family /\ st_collections s !! (tenant, workspace, key) = Some c /\ is_archived c = true.

Definition selected (tenant workspace : string) s : option Collection := select_catalog_collection (members tenant workspace s) CANONICAL_COLLECTION_ID.

Lemma members_In tenant workspace s c : keyed s ->
  In c (List.filter (fun c => str_in (co_collection_id c) family) (omap id (members tenant workspace s))) <->
  In (co_collection_id c) family /\ st_collections s !! (tenant, workspace, co_collection_id c) = Some c.
Proof.
  intros Hk. rewrite filter_In, <- list_elem_of_In, list_elem_of_omap, str_in_spec, list_elem_of_In. unfold members, id. split.
  - intros [(o & Ho & ->) Hin]. split; [exact Hin|]. apply list_elem_of_In, in_map_iff in Ho as (key & Hc & Hkey).
    pose proof (Hk _ _ Hc) as E. unfold collection_key in E. injection E as _ _ <-. exact Hc.
  - intros [Hin Hc]. split; [|exact Hin]. exists (Some c). split; [|reflexivity]. apply list_elem_of_In, in_map_iff. eauto.
Qed.

Lemma selected_archived tenant workspace s : keyed s ->
  archived tenant workspace s <-> exists c, selected tenant workspace s = Some c /\ is_archived c = true.
Proof.
  intros Hk. unfold selected, select_catalog_collection. fold family.
  assert (Hex : archived tenant workspace s <->
    existsb is_archived (List.filter (fun c => str_in (co_collection_id c) family) (omap id (members tenant workspace s))) = true).
  { rewrite existsb_exists. split.
    - intros (key & c & Hkey & Hc & Ha). exists c. split; [|exact Ha]. apply members_In; [exact Hk|].
      pose proof (Hk _ _ Hc) as E. unfold collection_key in E. injection E as _ _ E. subst key. auto.
    - intros (c & Hc & Ha). apply members_In in Hc as [Hin Hc]; [|exact Hk]. exists (co_collection_id c), c. auto. }
  rewrite Hex. destruct (List.filter _ _) as [|c cs]; cbn [existsb].
  - split; [discriminate | intros (c & [= ] & _)].
  - rewrite <- (min_first_archived family). split; [eauto | intros (c' & [= <-] & H); exact H].
Qed.

(** A selected member is one of the rows of the family. *)
Lemma selected_In tenant workspace s c : keyed s -> selected tenant workspace s = Some c ->
  In (co_collection_id c) family /\ st_collections s !! (tenant, workspace, co_collection_id c) = Some c.
Proof.
  intros Hk. unfold selected, select_catalog_collection. fold family. intros H. apply members_In; [exact Hk|].
  destruct (List.filter _ _) as [|x l]; [discriminate|]. apply (inj Some) in H. subst c.
  revert x. induction l as [|y l IH]; intros x; cbn [min_first]; [now left|].
  destruct (catalog_before family y x); [right; apply IH|]. destruct (IH x) as [H | H]; [left; exact H | right; right; exact H].
Qed.

Lemma get_collection_family workspace collection tenant s : in_family collection ->
  get_collection workspace collection tenant s =
  (s, if nonblank tenant then Ok (selected (strip tenant) workspace s) else Err ValueError).
Proof.
  intros Hf. unfold get_collection. mstep. destruct (nonblank tenant); [|reflexivity]. cbn [negb gets].
  unfold selected, select_catalog_collection, members. rewrite (family_ids _ Hf). reflexivity.
Qed.

(** What a call may do to the catalog. *)
Definition catalog_step s s' : Prop :=
  keyed s -> keyed s' /\ forall tenant workspace, archived (strip tenant) workspace s -> archived (strip tenant) workspace s'.

#[export] Instance catalog_step_preorder : PreOrder catalog_step.
Proof.
  split; [intros s Hk; auto|]. intros s1 s2 s3 H1 H2 Hk. destruct (H1 Hk) as [Hk2 A1]. destruct (H2 Hk2) as [Hk3 A2]. auto.
Qed.

Lemma catalog_same s s' : st_collections s' = st_collections s -> catalog_step s s'.
Proof. intros H Hk. unfold keyed, archived. rewrite H. auto. Qed.

(** One row is written. *)
Lemma catalog_write c s :
  (forall tenant workspace c0, keyed s -> collection_key c = (strip tenant, workspace, co_collection_id c0) ->
     In (co_collection_id c0) family -> st_collections s !! collection_key c = Some c0 -> is_archived c0 = true -> is_archived c = true) ->
  catalog_step s (set_collections (<[collection_key c := c]> (st_collections s)) s).
Proof.
  intros Hc Hk. split.
  - intros k c'. cbn. destruct (decide (collection_key c = k)) as [<- | Hn].
    + rewrite lookup_insert_eq. congruence.
    + rewrite lookup_insert_ne by exact Hn. apply Hk.
  - intros tenant workspace (key & c0 & Hkey & H0 & Ha). exists key. cbn.
    destruct (decide (collection_key c = (strip tenant, workspace, key))) as [E|Hn].
    + exists c. rewrite E, lookup_insert_eq. split_and!; auto. pose proof (Hk _ _ H0) as Ek. unfold collection_key in Ek.
      injection Ek as _ _ Ek. subst key. eapply Hc; eauto. rewrite E. exact H0.
    + exists c0. rewrite lookup_insert_ne by exact Hn. auto.
Qed.

Lemma known_not_active c : known_status c = true -> str_eqb (co_status c) "active" = false -> is_archived c = true.
Proof.
  unfold known_status, is_archived. intros H Ha. apply str_in_spec in H. elem_cases H; rewrite H in *; [discriminate | reflexivity].
Qed.

Lemma ensure_method_step c s : catalog_step s (exec (ensure_method c) s).
Proof.
  unfold ensure_method, exec. mstep. destruct (st_collections s !! collection_key c) as [e|] eqn:E; [cbn; reflexivity|].
  mstep. destruct (negb _); [cbn; reflexivity|]. apply catalog_write. intros tenant workspace c0 _ _ _ H0. congruence.
Qed.

Lemma upsert_collection_step c s : catalog_step s (exec (upsert_collection c) s).
Proof.
  unfold upsert_collection, collection_mutation, exec. mstep. destruct (collection_guard_scope _ _ _) as [x|] eqn:Eg; [|cbn; reflexivity].
  cbv beta zeta. destruct (canonical_cases (co_collection_id c)) as [Hf | [Hc Hnf]].
  - rewrite family_canonical by exact Hf. change (1 <? length family)%nat with true. cbv iota.
    assert (in_family (canonical_catalog_id (co_collection_id c))) as Hcf by (unfold in_family in *; rewrite Hf; reflexivity).
    unfold mbind at 1, M_bind at 1. rewrite get_collection_family by exact Hcf. destruct (nonblank (co_tenant_id c)); [|cbn; reflexivity].
    set (sel := selected (strip (co_tenant_id c)) (co_workspace_id c) s).
    match goal with |- catalog_step s (fst (?m s)) => change (fst (m s)) with (exec m s);
      set (prog := m) end.
    assert (prog = (guard_not (match sel with Some e => is_archived e && str_eqb (co_status c) "active" | None => false end) ValueError;;
      upsert_method (with_collection_id (match sel with Some e => co_collection_id e | None => canonical_catalog_id (co_collection_id c) end) c))) as ->
      by (unfold prog; destruct sel; reflexivity).
    unfold exec. mstep. destruct (match sel with Some e => _ | None => false end) eqn:Es; [cbn; reflexivity|].
    unfold upsert_method. mstep. destruct (known_status _) eqn:Eks; [|cbn; reflexivity]. cbn [negb]. cbn [modify fst].
    apply catalog_write. intros tenant workspace c0 Hk Ekey Hin H0 Ha.
    change (is_archived c = true). change (known_status c = true) in Eks. rewrite Ekey in H0. cbn in Ekey. injection Ekey as Et Ew Ei.
    assert (archived (strip (co_tenant_id c)) (co_workspace_id c) s) as Harch.
    { exists (co_collection_id c0), c0. split_and!; auto. rewrite Et, strip_idem, Ew. exact H0. }
    apply selected_archived in Harch as (e & He & Hea); [|exact Hk]. unfold sel in Es. rewrite He in Es.
    rewrite Hea in Es. cbn [andb] in Es. apply known_not_active; assumption.
  - rewrite single_name by assumption. unfold upsert_method. mstep. destruct (negb _); [cbn; reflexivity|]. apply catalog_write.
    intros tenant workspace c0 _ Ekey Hin _ _. exfalso. apply Hnf. cbn in Ekey. injection Ekey as _ _ ->. exact Hin.
Qed.

Lemma ensure_collection_step c s : catalog_step s (exec (ensure_collection c) s).
Proof.
  unfold ensure_collection, collection_mutation, exec. mstep. destruct (collection_guard_scope _ _ _); [|cbn; reflexivity].
  cbv beta zeta. destruct (1 <? _)%nat; [|apply ensure_method_step].
  unfold mbind at 1, M_bind at 1. unfold get_collection at 1. mstep. destruct (negb _); [cbn; reflexivity|]. cbn [gets].
  destruct (select_catalog_collection _ _) as [e|].
  - destruct (_ || _); [cbn; reflexivity | apply ensure_method_step].
  - mstep. apply ensure_method_step.
Qed.
End catalog.

(** ** Calls that leave the catalog alone *)

Definition same_catalog (s s' : Store) : Prop := st_collections s' = st_collections s.

#[export] Instance same_catalog_preorder : PreOrder same_catalog.
Proof. split; [now intros s | unfold same_catalog; intros s1 s2 s3; congruence]. Qed.

Lemma keeps_modify f : (forall s, same_catalog s (f s)) -> respects same_catalog (modify (E := k_error) f).
Proof. intros H s. apply H. Qed.

Lemma keeps_new_object d : respects same_catalog (new_object d).
Proof. now intros s. Qed.

Lemma keeps_on_object {A} a (m : M Document k_error A) : respects same_catalog (on_object a m).
Proof. intros s. unfold on_object, exec. now destruct (m (object a s)). Qed.

Lemma keeps_put i a : respects same_catalog (put_document i a).
Proof. now intros s. Qed.

Lemma keeps_tombstone i : respects same_catalog (add_tombstone i).
Proof. now intros s. Qed.

Lemma keeps_try {A} (m : M Store k_error A) h :
  respects same_catalog m -> (forall e, respects same_catalog (h e)) -> respects same_catalog (try_except m h).
Proof.
  intros Hm Hh s. specialize (Hm s). unfold exec, try_except in *. destruct (m s) as [s' [a|e]]; [exact Hm|].
  etrans; [exact Hm | apply Hh].
Qed.

Lemma keeps_write_checkpoint c : respects same_catalog (_write_ingestion_checkpoint c).
Proof.
  unfold _write_ingestion_checkpoint. apply respects_bind; [exact _ | eauto with respects typeclass_instances|].
  intros _. apply keeps_modify. now intros s.
Qed.

#[export] Hint Resolve keeps_new_object keeps_on_object keeps_put keeps_tombstone : respects.
#[export] Hint Extern 1 (respects same_catalog (modify _)) => (apply keeps_modify; intros ?; reflexivity) : respects.
#[export] Hint Extern 1 (respects same_catalog (write_checkpoint _)) => (apply keeps_write_checkpoint) : respects.

Tactic Notation "keeps" reference(f) := unfold f; respect.

Lemma k_do_catalog s c : catalog_step s (k_do s c).
Proof.
  assert (Hk : forall A (m : M Store k_error A), respects same_catalog m -> catalog_step s (exec m s))
    by (intros A m Hm; apply catalog_same, Hm).
  assert (Hget : forall i t w, respects same_catalog (get_document i t w)) by (intros; keeps get_document).
  assert (Hbegin : forall j, respects same_catalog (begin_ingestion_checkpoint j)) by (intros; keeps begin_ingestion_checkpoint).
  assert (Hreplace : forall i l, respects same_catalog (replace_document_chunks i l)) by (intros; keeps replace_document_chunks).
  destruct c; cbn [k_do]; try (apply upsert_collection_step || apply ensure_collection_step); try apply Hk.
  - apply keeps_new_object.
  - apply catalog_same. reflexivity.
  - keeps upsert_document.
  - apply Hget.
  - keeps list_documents.
  - keeps set_document_status.
  - keeps delete_document.
  - apply Hreplace.
  - unfold restore_deleted_document. respect. apply keeps_try; [apply Hreplace|]. intros e. respect.
  - apply Hbegin.
  - keeps save_ingestion_checkpoint.
  - keeps finish_ingestion_checkpoint.
  - keeps repair_deduplicated_checkpoint.
  - keeps request_ingestion_cancel.
  - keeps begin_publication.
  - keeps save_publication_snapshot.
  - keeps resolve_publication.
  - keeps request_publication_cancel.
Qed.

Lemma k_run_catalog calls s : catalog_step s (k_run calls s).
Proof.
  revert s. induction calls as [|c calls IH]; intros s; [cbn; reflexivity|]. etrans; [apply k_do_catalog | apply IH].
Qed.

Lemma empty_keyed : keyed empty_store.
Proof. intros k c H. discriminate H. Qed.

(** ** Properties *)

(** C39: an archived collection stays archived under all its names.  On any
    run of the store, once [get_collection] answers an archived collection for
    one name of the aliased collection of a tenant and workspace, every later
    [get_collection] under any of its names answers an archived collection:
    no upsert activates it, neither directly nor through another alias, and
    [ensure_collection] hands back the archived one. *)
Theorem archived_collection_final calls calls' workspace tenant collection collection' c :
  in_family collection -> in_family collection' ->
  eval (get_collection workspace collection tenant) (k_run calls empty_store) = Ok (Some c) -> is_archived c = true ->
  exists c', eval (get_collection workspace collection' tenant) (k_run calls' (k_run calls empty_store)) = Ok (Some c')
  /\ is_archived c' = true.
Proof.
  intros Hf Hf' Hg Ha. unfold eval in *. rewrite get_collection_family in * by assumption. cbn [snd] in *.
  destruct (nonblank tenant); [|discriminate]. injection Hg as Hg.
  destruct (k_run_catalog calls _ empty_keyed) as [Hk _]. destruct (k_run_catalog calls' _ Hk) as [Hk' Hs].
  assert (archived (strip tenant) workspace (k_run calls empty_store)) as H by (apply selected_archived; eauto).
  apply (Hs tenant workspace), selected_archived in H as (c' & Hc' & Ha'); [|exact Hk']. exists c'. rewrite Hc'. auto.
Qed.

Definition sample_collection (name status : string) : Collection := mk_collection "ws" name "tenant" "T" "D" status 1 [].

Lemma archived_collection_final_witness :
  exists c, eval (get_collection "ws" "rag_phase0" "tenant")
    (k_run [C_upsert_collection (sample_collection "rag_phase0" "active"); C_ensure_collection (sample_collection "cvg_master_rag" "active")]
       (k_run [C_upsert_collection (sample_collection "cvg_master_rag" "archived")] empty_store)) = Ok (Some c) /\ is_archived c = true.
Proof.
  apply (archived_collection_final [C_upsert_collection (sample_collection "cvg_master_rag" "archived")] _ "ws" "tenant" "cvg_master_rag"
    "rag_phase0" (sample_collection "rag_phase0" "archived")); vm_compute; reflexivity.
Defined.
