(* ===== verification/Authorization.v ===== *)
(** * Authorization policy (packages/authorization, policy.py)

    Roles, permissions, collection and workspace scope.  Python sets are lists
    compared by membership; [sorted] of a set is [sorted_set].  An iterable
    argument of any type is a [pyval]; tuples and sets are lists. *)

From Stdlib Require Import Ascii String.
From stdpp Require Import strings list.
From S2P Require Import Prelude PyFloat PyStr PyVal.

Local Open Scope Z_scope.

Definition CANONICAL_COLLECTION_ID : string := "rag_phase0".

Definition LEGACY_ROLE_ALIASES : list (string * string) :=
  [("platform_admin", "PLATFORM_ADMIN"); ("super_admin", "PLATFORM_ADMIN"); ("admin", "PLATFORM_ADMIN");
   ("knowledge_manager", "KNOWLEDGE_MANAGER"); ("admin_rag", "KNOWLEDGE_MANAGER");
   ("operator", "KNOWLEDGE_MANAGER"); ("veterinarian", "VETERINARIAN"); ("viewer", "VETERINARIAN");
   ("auditor", "VETERINARIAN")].

Definition CANONICAL_PERMISSION_IDS : list string :=
  ["audit.read"; "cases.feedback"; "cases.manage"; "cases.read"; "cases.review"; "chat.query";
   "collections.manage"; "collections.read"; "corpus.audit"; "corpus.repair"; "documents.manage";
   "documents.read"; "documents.upload"; "history.read"; "ingestion.run"; "library.browse";
   "observability.read"; "reindex.run"; "runtime.manage"; "sessions.revoke"; "sources.read";
   "tenants.read"; "tenants.manage"; "users.manage"].

Definition ROLE_PERMISSIONS : list (string * list string) :=
  [("PLATFORM_ADMIN", ["*"]);
   ("KNOWLEDGE_MANAGER",
    ["cases.feedback"; "cases.manage"; "cases.read"; "cases.review"; "chat.query"; "history.read";
     "library.browse"; "documents.read"; "documents.upload"; "documents.manage"; "sources.read";
     "collections.read"; "collections.manage"; "ingestion.run"; "reindex.run"; "observability.read";
     "audit.read"; "corpus.audit"; "corpus.repair"]);
   ("VETERINARIAN",
    ["cases.feedback"; "cases.manage"; "cases.read"; "chat.query"; "history.read"; "sources.read";
     "collections.read"])].

Definition LEGACY_PERMISSION_ALIASES : list (string * string) :=
  [("search.execute", "chat.query"); ("query.execute", "chat.query"); ("documents.search", "chat.query");
   ("documents.query", "chat.query"); ("chat.history.read", "history.read");
   ("queries.history.read", "history.read"); ("library.read", "library.browse")].

(** ** Roles *)

(** [str(role or "viewer").strip().lower()], looked up.  The text of a value
    that is not a string is never an alias, so such a role gets the default. *)
Definition canonical_role (role : pyval) : string :=
  match role with
  | VStr s =>
      let candidate := lower (strip (if is_empty s then "viewer" else s)) in
      from_option id "VETERINARIAN" (dict_get candidate LEGACY_ROLE_ALIASES)
  | _ => "VETERINARIAN"
  end.

Definition legacy_role_label (role : pyval) : string :=
  from_option id EmptyString
    (dict_get (canonical_role role)
       [("PLATFORM_ADMIN", "super_admin"); ("KNOWLEDGE_MANAGER", "admin_rag"); ("VETERINARIAN", "viewer")]).

(** ** Permissions *)

Definition permission_alias (permission : string) : string :=
  let candidate := lower (strip permission) in
  from_option id candidate (dict_get candidate LEGACY_PERMISSION_ALIASES).

(** The strings among the values of an iterable. *)
Definition str_values (l : list pyval) : list string :=
  flat_map (fun v => match v with VStr s => [s] | _ => [] end) l.

Definition normalize_strings (l : list string) : list string :=
  sorted_set (List.filter (fun s => negb (is_empty s)) (map permission_alias l)).

(** [None], one string, or an iterable (a mapping iterates over its keys). *)
Definition normalize_permissions (permissions : pyval) : list string :=
  match permissions with
  | VStr s => normalize_strings [s]
  | VList l => normalize_strings (str_values l)
  | VDict d => normalize_strings (dict_keys d)
  | _ => []
  end.

(** The helper [values] of [normalize_permission_overrides]. *)
Definition override_values (payload : list (string * pyval)) (key : string) : list string :=
  match dict_get key payload with
  | Some (VStr s) => normalize_strings [s]
  | Some (VList l) => normalize_strings (str_values l)
  | _ => []
  end.

(** Additions and removals; a mapping, or an object whose [model_dump] is the
    mapping. *)
Definition normalize_permission_overrides (overrides : pyval) : list string * list string :=
  let payload := match overrides with VDict d => d | _ => [] end in
  let removals := override_values payload "remove" in
  let additions := List.filter (fun p => negb (str_in p removals)) (override_values payload "add") in
  (sorted_set additions, sorted_set removals).

(** [a - b], and [a | b] by concatenation. *)
Definition set_minus (a b : list string) : list string := List.filter (fun p => negb (str_in p b)) a.

Definition role_defaults (role : pyval) : list string :=
  normalize_strings (from_option id [] (dict_get (canonical_role role) ROLE_PERMISSIONS)).

Definition permissions_for_role (role overrides : pyval) : list string :=
  let base := role_defaults role in
  let '(additions, removals) := normalize_permission_overrides overrides in
  if str_in "*" removals then
    sorted_set (set_minus (set_minus (base ++ additions) ["*"]) (set_minus removals ["*"]))
  else if str_in "*" base || str_in "*" additions then
    let explicit_removals := set_minus removals ["*"] in
    match explicit_removals with
    | [] => ["*"]
    | _ => sorted_set (set_minus (CANONICAL_PERMISSION_IDS ++ set_minus additions ["*"]) explicit_removals)
    end
  else sorted_set (set_minus (set_minus base ["*"] ++ set_minus additions ["*"]) removals).

Definition permission_granted (role : pyval) (permissions : pyval) (required : string)
    (authoritative : bool) : bool :=
  let required_canonical := permission_alias required in
  let resolved := normalize_permissions permissions in
  if str_in "*" resolved then true
  else if str_in required_canonical resolved then true
  else if authoritative then false
  else match role, resolved with
       | VNone, _ => false
       | _, [] =>
           let fallback := permissions_for_role role VNone in
           str_in "*" fallback || str_in required_canonical fallback
       | _, _ => false
       end.

(** ** Collections *)

(** [None] is [ValueError("empty collection id")]. *)
Definition _normalize_collection_id (value : string) : option string :=
  let candidate := strip value in
  if is_empty candidate then None
  else if str_in (lower candidate) ["cvg_master_rag"; "rickvet_documents"; "rag_phase0"]
  then Some CANONICAL_COLLECTION_ID
  else Some candidate.

(** The grant one element of the stored list gives. *)
Definition collection_grant (item : pyval) : list string :=
  match item with
  | VStr s =>
      if is_empty (strip s) then []
      else if str_eqb (strip s) "*" then ["*"]
      else match _normalize_collection_id s with Some c => [c] | None => [] end
  | _ => []
  end.

Definition state_is_modern (state : option pyval) : bool :=
  match state with
  | None | Some VNone => false
  | Some (VStr s) => negb (str_eqb s "LEGACY_UNMIGRATED")
  | Some _ => true
  end.

(** [user] is the record's fields. *)
Definition allowed_collection_ids_for_user (user : list (string * pyval)) : list string :=
  let role := from_option id VNone (dict_get "role" user) in
  match dict_get "authorized_collection_ids" user with
  | None =>
      if state_is_modern (dict_get "authorization_state" user) then []
      else if str_in (canonical_role role) ["PLATFORM_ADMIN"; "KNOWLEDGE_MANAGER"] then ["*"]
      else [CANONICAL_COLLECTION_ID]
  | Some (VList raw) => flat_map collection_grant raw
  | Some _ => []
  end.

Definition authorization_grants_for_user (user : list (string * pyval)) : list string * list string :=
  let role := from_option id VNone (dict_get "role" user) in
  let overrides := from_option id VNone (dict_get "permission_overrides" user) in
  (permissions_for_role role (match overrides with VDict d => VDict d | _ => VNone end),
   allowed_collection_ids_for_user user).

Definition intersect_grants (previous current : list string) : list string :=
  if str_in "*" previous then sorted_set current
  else if str_in "*" current then sorted_set previous
  else sorted_set (List.filter (fun g => str_in g current) previous).

Definition can_access_collection (allowed : list string) (collection_id : option string) : bool :=
  match _normalize_collection_id (from_option id EmptyString collection_id) with
  | None => false
  | Some resolved => str_in "*" allowed || str_in resolved allowed
  end.

Definition can_access_workspace (session_workspace requested_workspace role : pyval) : bool :=
  match session_workspace, requested_workspace with
  | VStr s, VStr r =>
      if is_empty (strip s) then false
      else if is_empty (strip r) then false
      else if str_eqb r s then true
      else str_eqb (canonical_role role) "PLATFORM_ADMIN"
  | _, _ => false
  end.

(** ** Retrieval context *)

Record RetrievalContext : Type := {
  rc_user_id : pyval; rc_tenant_id : string; rc_workspace_id : pyval;
  rc_allowed_collection_ids : list string; rc_permissions : list string }.

Inductive auth_error : Type := AuthorizationError (code : string).

Definition build_retrieval_context (user_id session_workspace requested_workspace : pyval)
    (allowed_collection_ids permissions : list string) (role : pyval)
    (requested_collection_id : option string) (tenant_id : pyval) : res auth_error RetrievalContext :=
  let forbidden := AuthorizationError "forbidden" in
  raise_if (negb (can_access_workspace session_workspace requested_workspace role)) forbidden;;
  match tenant_id with
  | VStr tenant =>
      raise_if (is_empty (strip tenant) || (128 <? slen (strip tenant))) forbidden;;
      allowed ← match requested_collection_id with
                | Some requested =>
                    if is_empty requested then Ok allowed_collection_ids
                    else match _normalize_collection_id requested with
                         | None => Err forbidden
                         | Some narrowed =>
                             raise_if (negb (str_in "*" allowed_collection_ids)
                                       && negb (str_in narrowed allowed_collection_ids)) forbidden;;
                             Ok [narrowed]
                         end
                | None => Ok allowed_collection_ids
                end;
      Ok {| rc_user_id := user_id; rc_tenant_id := strip tenant; rc_workspace_id := requested_workspace;
            rc_allowed_collection_ids := allowed; rc_permissions := permissions |}
  | _ => Err forbidden
  end.

(** [filter_collection_items]; an item is its fields.  [None] is the
    [TypeError] of testing an unhashable id for membership. *)
Definition item_collection (item : list (string * pyval)) : pyval :=
  let get k := from_option id VNone (dict_get k item) in
  if py_truthy (get "collection_id") then get "collection_id" else get "qdrant_collection".

Definition item_in (granted : list string) (v : pyval) : option bool :=
  match v with
  | VStr s => Some (str_in s granted)
  | VList _ | VDict _ => None
  | _ => Some false
  end.

Fixpoint filter_items (granted : list string) (items : list (list (string * pyval)))
    : option (list (list (string * pyval))) :=
  match items with
  | [] => Some []
  | i :: items' =>
      keep ← item_in granted (item_collection i);
      rest ← filter_items granted items';
      Some (if (keep : bool) then i :: rest else rest)
  end.

Definition filter_collection_items (items : list (list (string * pyval))) (allowed : list string)
    : option (list (list (string * pyval))) :=
  if str_in "*" allowed then Some items else filter_items allowed items.
