(* ===== verification/AuthorizationProperties.v ===== *)
(** * What the authorization policy guarantees *)

From Stdlib Require Import Ascii String.
From stdpp Require Import strings list.
From S2P Require Import Prelude PyFloat PyStr PyVal Authorization.

Local Open Scope Z_scope.

(** ** Membership *)

Lemma set_minus_In x a b : In x (set_minus a b) <-> In x a /\ ~ In x b.
Proof. unfold set_minus. now rewrite filter_In, negb_true_iff, str_in_false. Qed.

(** A normal permission identifier: canonical spelling, no legacy alias. *)
Definition normal (p : string) : Prop := permission_alias p = p /\ is_empty p = false.

Lemma alias_targets_fixed :
  forallb (fun kv => str_eqb (permission_alias (snd kv)) (snd kv)) LEGACY_PERMISSION_ALIASES = true.
Proof. vm_compute. reflexivity. Qed.

Lemma permission_alias_idem s : permission_alias (permission_alias s) = permission_alias s.
Proof.
  unfold permission_alias at 2 3. set (c := lower (strip s)).
  destruct (dict_get c LEGACY_PERMISSION_ALIASES) as [t|] eqn:E; cbn [from_option id].
  - apply dict_get_In in E. pose proof alias_targets_fixed as H. rewrite forallb_forall in H.
    specialize (H _ E). now apply str_eqb_eq in H.
  - unfold permission_alias. assert (lower (strip c) = c) as ->.
    { unfold c. now rewrite <- lower_strip, strip_idem, lower_idem. }
    now rewrite E.
Qed.

Lemma normalize_strings_In x l : In x (normalize_strings l) <->
  is_empty x = false /\ exists y, In y l /\ permission_alias y = x.
Proof.
  unfold normalize_strings. rewrite sorted_set_In, filter_In, in_map_iff, negb_true_iff.
  split; [intros [(y & H1 & H2) H]; eauto | intros [H (y & H1 & H2)]; eauto].
Qed.

Lemma normalize_strings_normal x l : In x (normalize_strings l) -> normal x.
Proof.
  intros (Hne & y & _ & <-)%normalize_strings_In. split; [apply permission_alias_idem | exact Hne].
Qed.

Lemma normalize_strings_fixed x l : (forall y, In y l -> normal y) ->
  (In x (normalize_strings l) <-> In x l).
Proof.
  intros Hl. rewrite normalize_strings_In. split.
  - intros (_ & y & Hy & <-). destruct (Hl y Hy) as [-> _]. exact Hy.
  - intros Hx. destruct (Hl x Hx) as [E Hne]. eauto.
Qed.

Lemma str_values_map l : str_values (map VStr l) = l.
Proof. unfold str_values. induction l as [|x l IH]; cbn; [reflexivity | now rewrite IH]. Qed.

Lemma canonical_normal p : In p CANONICAL_PERMISSION_IDS -> normal p /\ p <> "*".
Proof.
  assert (forallb (fun p => str_eqb (permission_alias p) p && negb (is_empty p) && negb (str_eqb p "*"))
            CANONICAL_PERMISSION_IDS = true) as H by (vm_compute; reflexivity).
  rewrite forallb_forall in H. intros Hp. specialize (H p Hp). bool_to_prop.
  apply str_eqb_eq in H. repeat split; auto. intros ->. discriminate.
Qed.

Lemma star_normal : normal "*".
Proof. split; reflexivity. Qed.

(** ** Effective permissions *)

Definition override_payload (overrides : pyval) : list (string * pyval) :=
  match overrides with VDict d => d | _ => [] end.

Lemma override_values_normal d k x : In x (override_values d k) -> normal x.
Proof.
  unfold override_values. destruct (dict_get k d) as [[]|]; try (intros []);
    apply normalize_strings_normal.
Qed.

Lemma role_defaults_normal role x : In x (role_defaults role) -> normal x.
Proof. apply normalize_strings_normal. Qed.

(** Membership in the effective permissions, for each of the three cases. *)
Lemma permissions_for_role_In role ov p :
  let add := override_values (override_payload ov) "add" in
  let remove := override_values (override_payload ov) "remove" in
  let base := role_defaults role in
  In p (permissions_for_role role ov) <->
  if str_in "*" remove then (In p base \/ In p add) /\ p <> "*" /\ ~ In p remove
  else if str_in "*" base || str_in "*" add then
    if decide (set_minus remove ["*"] = []) then p = "*"
    else (In p CANONICAL_PERMISSION_IDS \/ (In p add /\ p <> "*")) /\ ~ In p remove
  else (In p base \/ In p add) /\ ~ In p remove.
Proof.
  intros add remove base. unfold permissions_for_role, normalize_permission_overrides.
  fold (override_payload ov). fold add remove base.
  set (add' := sorted_set (List.filter (fun p => negb (str_in p remove)) add)).
  assert (forall x, In x add' <-> In x add /\ ~ In x remove) as Hadd.
  { intros x. unfold add'. now rewrite sorted_set_In, filter_In, negb_true_iff, str_in_false. }
  assert (forall x, In x (sorted_set remove) <-> In x remove) as Hrem by (intros x; apply sorted_set_In).
  assert (forall x, In x ["*"] <-> x = "*") as Hone by (intros x; cbn; split; [now intros [<-|[]] | auto]).
  assert (str_in "*" (sorted_set remove) = str_in "*" remove) as ->
    by (apply eq_true_iff_eq; now rewrite !str_in_In).
  destruct (str_in "*" remove) eqn:Hs.
  { rewrite sorted_set_In, !set_minus_In, in_app_iff, Hadd, Hrem, Hone. tauto. }
  apply str_in_false in Hs.
  assert (str_in "*" add' = str_in "*" add) as ->
    by (apply eq_true_iff_eq; rewrite !str_in_In, Hadd; tauto).
  destruct (str_in "*" base || str_in "*" add) eqn:Hw.
  - assert (forall x, In x (set_minus (sorted_set remove) ["*"]) <-> In x remove) as Hex.
    { intros x. rewrite set_minus_In, Hrem, Hone. split; [tauto|]. intros Hx. split; [exact Hx | congruence]. }
    assert (forall x, In x (set_minus remove ["*"]) <-> In x remove) as Hex'.
    { intros x. rewrite set_minus_In, Hone. split; [tauto|]. intros Hx. split; [exact Hx | congruence]. }
    destruct (set_minus (sorted_set remove) ["*"]) as [|e l] eqn:E;
      destruct (decide (set_minus remove ["*"] = [])) as [Hn|Hn].
    + rewrite Hone. reflexivity.
    + exfalso. apply Hn. destruct (set_minus remove ["*"]) as [|y l']; [reflexivity|exfalso].
      apply (Hex y), Hex'. now left.
    + exfalso. rewrite Hn in Hex'. apply (Hex' e), Hex. now left.
    + rewrite <- E in *. rewrite sorted_set_In, set_minus_In, in_app_iff, set_minus_In, Hadd, Hex, Hone. tauto.
  - apply orb_false_iff in Hw as [Hb Ha]. apply str_in_false in Hb, Ha.
    rewrite sorted_set_In, !set_minus_In, in_app_iff, !set_minus_In, Hadd, Hrem, !Hone.
    assert (In p base -> p <> "*") by (intros ? ->; tauto).
    assert (In p add -> p <> "*") by (intros ? ->; tauto). tauto.
Qed.

Lemma permissions_for_role_normal role ov x : In x (permissions_for_role role ov) -> normal x.
Proof.
  intros H. apply permissions_for_role_In in H.
  pose proof (role_defaults_normal role x). pose proof (override_values_normal (override_payload ov) "add" x).
  pose proof (canonical_normal x). pose proof star_normal.
  destruct (str_in "*" _); [intuition|]. destruct (_ || _); [|intuition].
  case_decide; [now subst x | intuition].
Qed.

Lemma granted_authoritative role l required :
  (forall y, In y l -> normal y) ->
  permission_granted role (VList (map VStr l)) required true = true <->
  In "*" l \/ In (permission_alias required) l.
Proof.
  intros Hl. unfold permission_granted. cbn [normalize_permissions]. rewrite str_values_map.
  pose proof (fun x => normalize_strings_fixed x l Hl) as Hf.
  destruct (str_in "*" (normalize_strings l)) eqn:E1.
  { apply str_in_In, Hf in E1. tauto. }
  destruct (str_in (permission_alias required) (normalize_strings l)) eqn:E2.
  { apply str_in_In, Hf in E2. tauto. }
  apply str_in_false in E1, E2. rewrite Hf in E1, E2. split; [discriminate | tauto].
Qed.

(** ** Properties *)

(** The effective permissions are the role's defaults plus the additions
    minus the removals, and a removal always wins: a session that carries them
    is granted a canonical permission exactly when it is not removed and comes
    from the role, from an addition, or from a wildcard that is not itself
    removed. *)
Theorem permission_effective role role' ov p :
  In p CANONICAL_PERMISSION_IDS ->
  let add := override_values (override_payload ov) "add" in
  let remove := override_values (override_payload ov) "remove" in
  let base := role_defaults role in
  permission_granted role' (VList (map VStr (permissions_for_role role ov))) p true = true <->
  ~ In p remove /\ (In p base \/ In p add \/ (~ In "*" remove /\ (In "*" base \/ In "*" add))).
Proof.
  intros Hp add remove base. destruct (canonical_normal p Hp) as [[Ha _] Hstar].
  rewrite granted_authoritative, Ha by (intros y; apply permissions_for_role_normal).
  rewrite !permissions_for_role_In. fold add remove base.
  assert (~ In "*" CANONICAL_PERMISSION_IDS) by (intros H; apply canonical_normal in H as [_ H]; congruence).
  destruct (str_in "*" remove) eqn:Hs; [apply str_in_In in Hs; tauto | apply str_in_false in Hs].
  destruct (str_in "*" base || str_in "*" add) eqn:Hw.
  - assert (In "*" base \/ In "*" add) by (apply orb_true_iff in Hw; now rewrite !str_in_In in Hw).
    case_decide as Hn; [|tauto].
    assert (~ In p remove).
    { intros Hr. assert (In p (set_minus remove ["*"])) as Hm; [|now rewrite Hn in Hm].
      apply set_minus_In. split; [exact Hr|]. intros [E|[]]. congruence. }
    tauto.
  - apply orb_false_iff in Hw as [Hb Hadd]. apply str_in_false in Hb, Hadd. tauto.
Qed.

Lemma permission_effective_witness :
  permission_granted VNone (VList (map VStr (permissions_for_role (VStr "admin")
    (VDict [("remove", VList [VStr "Users.Manage"])])))) "users.manage" true = true <->
  False.
Proof.
  split; [|intros []]. intros H.
  apply (permission_effective (VStr "admin") VNone (VDict [("remove", VList [VStr "Users.Manage"])])
           "users.manage") in H; [|cbn; tauto].
  destruct H as [H _]. apply H. vm_compute. auto.
Defined.

(** An authoritative snapshot is final: it grants a permission exactly when
    it lists it (under its canonical name) or the wildcard. Role defaults are
    consulted only for a non-authoritative check with a role and no snapshot,
    so an authoritative empty list denies everything. *)
Theorem permission_granted_spec role perms required authoritative :
  permission_granted role perms required authoritative = true <->
  In "*" (normalize_permissions perms) \/ In (permission_alias required) (normalize_permissions perms)
  \/ (authoritative = false /\ role <> VNone /\ normalize_permissions perms = []
      /\ (In "*" (permissions_for_role role VNone)
          \/ In (permission_alias required) (permissions_for_role role VNone))).
Proof.
  unfold permission_granted. set (l := normalize_permissions perms).
  destruct (str_in "*" l) eqn:E1; [apply str_in_In in E1; tauto|].
  destruct (str_in (permission_alias required) l) eqn:E2; [apply str_in_In in E2; tauto|].
  apply str_in_false in E1, E2. destruct authoritative; [split; [discriminate | intuition discriminate]|].
  rewrite <- !(str_in_In _ (permissions_for_role role VNone)), <- orb_true_iff.
  generalize (str_in "*" (permissions_for_role role VNone)
              || str_in (permission_alias required) (permissions_for_role role VNone)).
  intros fallback. split.
  - intros H. right; right. destruct role, l; try discriminate; auto.
  - intros [H|[H|(_ & Hr & -> & H)]]; [tauto | tauto |]. now destruct role.
Qed.

(** What a list of collection grants allows. *)
Definition grants (l : list string) (c : string) : Prop := In "*" l \/ In c l.

(** Intersecting two grant ceilings allows exactly what both allow, so
    neither side can widen the other; an empty side denies everything. *)
Theorem intersect_grants_spec previous current c :
  grants (intersect_grants previous current) c <-> grants previous c /\ grants current c.
Proof.
  unfold intersect_grants, grants.
  destruct (str_in "*" previous) eqn:E1.
  { apply str_in_In in E1. rewrite !sorted_set_In. tauto. }
  destruct (str_in "*" current) eqn:E2.
  { apply str_in_In in E2. rewrite !sorted_set_In. tauto. }
  apply str_in_false in E1, E2. rewrite !sorted_set_In, !filter_In, !str_in_In. tauto.
Qed.

(** C40: a retrieval context only narrows: whatever collection or workspace the
    request names, the context lets through only collections the session's
    grants let through, keeps its permissions, names a tenant, and stays in
    the session's workspace unless the role is PLATFORM_ADMIN. *)
Theorem retrieval_context_narrows user sw rw allowed perms role requested tenant ctx :
  build_retrieval_context user sw rw allowed perms role requested tenant = Ok ctx ->
  (forall c, can_access_collection (rc_allowed_collection_ids ctx) c = true ->
             can_access_collection allowed c = true)
  /\ rc_permissions ctx = perms /\ rc_workspace_id ctx = rw
  /\ (rw = sw \/ canonical_role role = "PLATFORM_ADMIN")
  /\ (exists t, tenant = VStr t /\ rc_tenant_id ctx = strip t /\ 0 < slen (strip t) <= 128)
  /\ (forall r c, requested = Some r -> is_empty r = false -> _normalize_collection_id r = Some c ->
        rc_allowed_collection_ids ctx = [c]).
Proof.
  unfold build_retrieval_context. intros H.
  apply bind_Ok in H as (u & Hw & H). apply raise_if_Ok, negb_false_iff in Hw.
  destruct tenant as [| | | |t| |]; try discriminate.
  apply bind_Ok in H as (u2 & Ht & H). apply bind_Ok in H as (al & Hal & [= <-]).
  apply raise_if_Ok in Ht. bool_to_prop. cbn [rc_allowed_collection_ids rc_permissions rc_workspace_id rc_tenant_id].
  split; [|split; [reflexivity|split; [reflexivity|split; [|split]]]].
  - destruct requested as [r|]; [|now injection Hal as <-].
    destruct (is_empty r); [now injection Hal as <-|].
    destruct (_normalize_collection_id r) as [n|]; [|discriminate].
    apply bind_Ok in Hal as (u3 & Hn & [= <-]). apply raise_if_Ok, andb_false_iff in Hn.
    intros c. unfold can_access_collection. destruct (_normalize_collection_id _) as [x|]; [|discriminate].
    rewrite !orb_true_iff, !str_in_In. cbn [In].
    assert (In "*" allowed \/ In n allowed) as Ho
      by (destruct Hn as [Hn|Hn]; apply negb_false_iff, str_in_In in Hn; auto).
    intros [[->|[]]|[->|[]]]; tauto.
  - unfold can_access_workspace in Hw. destruct sw as [| | | |s| |]; try discriminate.
    destruct rw as [| | | |r| |]; try discriminate.
    destruct (is_empty (strip s)); [discriminate|]. destruct (is_empty (strip r)); [discriminate|].
    destruct (str_eqb r s) eqn:E; [apply str_eqb_eq in E as ->; now left|].
    right. now apply str_eqb_eq.
  - exists t. split; [reflexivity|]. split; [reflexivity|]. split; [|assumption].
    destruct (strip t) as [|c0 s0]; [discriminate | rewrite slen_cons; pose proof (slen_nonneg s0); lia].
  - intros r c -> Hr Hc. rewrite Hr, Hc in Hal.
    apply bind_Ok in Hal as (u3 & _ & [= <-]). reflexivity.
Qed.

Lemma retrieval_context_narrows_witness :
  exists ctx, build_retrieval_context VNone (VStr "ws") (VStr "ws") ["rag_phase0"; "other"] ["chat.query"]
      (VStr "viewer") (Some " CVG_master_rag ") (VStr "tenant-a") = Ok ctx
    /\ rc_allowed_collection_ids ctx = ["rag_phase0"]
    /\ (forall c, can_access_collection (rc_allowed_collection_ids ctx) c = true ->
          can_access_collection ["rag_phase0"; "other"] c = true).
Proof.
  eexists. split; [vm_compute; reflexivity|]. split; [reflexivity|].
  eapply (retrieval_context_narrows VNone (VStr "ws") (VStr "ws") ["rag_phase0"; "other"] ["chat.query"]
      (VStr "viewer") (Some " CVG_master_rag ") (VStr "tenant-a")).
  vm_compute. reflexivity.
Defined.
