(* ===== verification/Leases.v ===== *)
(** * Leases (packages/locking: validation.py, errors.py, protocols.py, memory.py)

    Validation and errors of the lease boundary, the backend protocol as a
    class with the laws its clients rely on, and the in-memory store.  A store
    is a finite map; every method runs under the store's lock, so it is one
    step.  The clock reading and the random correlation id are arguments. *)

From Stdlib Require Import Ascii String.
From stdpp Require Import strings gmap.
From S2P Require Import Prelude PyFloat PyStr PyVal.

Local Open Scope Z_scope.

Definition MAX_KEY_LENGTH : Z := 512.
Definition MAX_OWNER_LENGTH : Z := 256.
Definition MAX_TTL_MS : Z := 3600000.
Definition MAX_CORRELATION_ID_LENGTH : Z := 128.
Definition MAX_TIMEOUT_SECONDS : pyfloat := lit 30 1.

(** ** Errors *)

Inductive LeaseOperation : Type := op_acquire | op_renew | op_release.

Inductive LeaseErrorCode : Type :=
| UNAVAILABLE | TIMEOUT | NOT_OWNER | INVALID_REQUEST | CANCELLED | INTERNAL_ERROR.

#[export] Instance LeaseErrorCode_eq_dec : EqDecision LeaseErrorCode.
Proof. solve_decision. Defined.

Definition retryable (c : LeaseErrorCode) : bool :=
  match c with UNAVAILABLE | TIMEOUT => true | _ => false end.

Definition corr_char (c : ascii) : bool := isalnum c || one_of "._:-" c.

Definition valid_correlation (s : string) : bool :=
  (1 <=? slen s) && (slen s <=? MAX_CORRELATION_ID_LENGTH) && sall corr_char s.

Definition _safe_correlation_id (s : string) : string :=
  if valid_correlation s then s else "invalid-correlation".

Record LeaseError : Type := {
  le_code : LeaseErrorCode; le_operation : LeaseOperation; le_correlation_id : string }.

Definition LeaseError_new (code : LeaseErrorCode) (operation : LeaseOperation) (correlation_id : string) : LeaseError :=
  {| le_code := code; le_operation := operation; le_correlation_id := _safe_correlation_id correlation_id |}.

(** What a lease call can raise. *)
Inductive lease_failure : Type :=
| LeaseFailed (e : LeaseError)
| CancelledError
| AssertionError.

Notation lres := (res lease_failure).

Definition lease_error {A} (c : LeaseErrorCode) (op : LeaseOperation) (corr : string) : lres A :=
  Err (LeaseFailed (LeaseError_new c op corr)).

(** ** Validation *)

(** [generated] is the fresh id drawn by [new_correlation_id]. *)
Definition correlation_id_for (operation : LeaseOperation) (correlation_id : pyval) (generated : string)
    : lres string :=
  match correlation_id with
  | VNone => Ok generated
  | VStr s => if valid_correlation s then Ok s else lease_error INVALID_REQUEST operation generated
  | _ => lease_error INVALID_REQUEST operation generated
  end.

Definition _valid_scalar_text (value : pyval) (maximum : Z) : option string :=
  match value with
  | VStr s => if (1 <=? slen s) && (slen s <=? maximum)
                 && sall (fun c => (32 <=? code c) && negb (is_char 127 c)) s then Some s else None
  | _ => None
  end.

Definition validate_key (key : pyval) (operation : LeaseOperation) (corr : string) : lres string :=
  match _valid_scalar_text key MAX_KEY_LENGTH with
  | Some k => Ok k
  | None => lease_error INVALID_REQUEST operation corr
  end.

Definition validate_owner (owner : pyval) (operation : LeaseOperation) (corr : string) : lres string :=
  match _valid_scalar_text owner MAX_OWNER_LENGTH with
  | Some o => Ok o
  | None => lease_error INVALID_REQUEST operation corr
  end.

Definition validate_ttl (ttl_ms : pyval) (operation : LeaseOperation) (corr : string) : lres Z :=
  match ttl_ms with
  | VInt n => if (0 <? n) && (n <=? MAX_TTL_MS) then Ok n else lease_error INVALID_REQUEST operation corr
  | _ => lease_error INVALID_REQUEST operation corr
  end.

(** [None] is the rejection: [LeaseError] or [ValueError] of the caller. An
    [int] too large for a float is rejected here by an [OverflowError]. *)
Definition timeout_value (v : pyval) : option pyfloat :=
  let check f := if fisfinite f && flt (Fin 0) f && fle f MAX_TIMEOUT_SECONDS then Some f else None in
  match v with
  | VInt n => f ← float_of_int n; check f
  | VFloat f => check f
  | _ => None
  end.

Definition validate_timeout (timeout_seconds : pyval) (operation : LeaseOperation) (corr : string) : lres pyfloat :=
  match timeout_value timeout_seconds with
  | Some f => Ok f
  | None => lease_error INVALID_REQUEST operation corr
  end.

Definition validate_cleanup_timeout (timeout_seconds : pyval) : option pyfloat := timeout_value timeout_seconds.

Definition validate_response_limit (maximum_bytes : pyval) (operation : LeaseOperation) (corr : string) : lres Z :=
  match maximum_bytes with
  | VInt n => if (1 <=? n) && (n <=? 4 * 1024 * 1024) then Ok n else lease_error INVALID_REQUEST operation corr
  | _ => lease_error INVALID_REQUEST operation corr
  end.

(** ** The backend protocol *)

(** [ttl_ms / 1000.0]. *)
Definition ms_seconds (ms : Z) : pyfloat :=
  match float_of_int ms with
  | Some f => from_option id NaN (fdiv f (lit 1000 1))
  | None => NaN
  end.

(** A clock reading at which adding a millisecond is not lost to rounding:
    any monotonic clock below [2 ^ 43] seconds. *)
Definition clock_ok (now : pyfloat) : Prop :=
  exists a, now = Fin a /\ is_double a /\ 0 <= a < 2 ^ 1117.

(** The atomic operations on validated arguments, with the owner a key has at
    a time. *)
Class LeaseBackend (S : Type) : Type := {
  lb_acquire : pyfloat -> string -> string -> Z -> S -> bool * S;
  lb_renew : pyfloat -> string -> string -> Z -> S -> bool * S;
  lb_release : pyfloat -> string -> string -> S -> bool * S;
  lb_owner : S -> pyfloat -> string -> option string }.

(** What [protocols.py] asks of a backend: it answers [False] for contention,
    expiry or an owner mismatch, and changes nothing but the caller's lease. *)
Class LeaseLaws (S : Type) `{LeaseBackend S} : Prop := {
  owner_past s now now' k o : fle now now' = true -> lb_owner s now' k = Some o -> lb_owner s now k = Some o;
  acquire_free s now k o ttl : fst (lb_acquire now k o ttl s) = true <-> lb_owner s now k = None;
  acquire_granted s now k o ttl : clock_ok now -> 0 < ttl <= MAX_TTL_MS -> fst (lb_acquire now k o ttl s) = true ->
    lb_owner (snd (lb_acquire now k o ttl s)) now k = Some o;
  acquire_frame s now k o ttl k' now' : fle now now' = true ->
    k' <> k \/ fst (lb_acquire now k o ttl s) = false ->
    lb_owner (snd (lb_acquire now k o ttl s)) now' k' = lb_owner s now' k';
  renew_owned s now k o ttl : fst (lb_renew now k o ttl s) = true <-> lb_owner s now k = Some o;
  renew_granted s now k o ttl : clock_ok now -> 0 < ttl <= MAX_TTL_MS -> fst (lb_renew now k o ttl s) = true ->
    lb_owner (snd (lb_renew now k o ttl s)) now k = Some o;
  renew_frame s now k o ttl k' now' : fle now now' = true ->
    k' <> k \/ fst (lb_renew now k o ttl s) = false ->
    lb_owner (snd (lb_renew now k o ttl s)) now' k' = lb_owner s now' k';
  release_owned s now k o : fst (lb_release now k o s) = true <-> lb_owner s now k = Some o;
  release_freed s now k o now' : fst (lb_release now k o s) = true ->
    lb_owner (snd (lb_release now k o s)) now' k = None;
  release_frame s now k o k' now' : fle now now' = true ->
    k' <> k \/ fst (lb_release now k o s) = false ->
    lb_owner (snd (lb_release now k o s)) now' k' = lb_owner s now' k' }.

(** ** The in-memory store *)

Record _Entry : Type := { e_owner : string; e_expires_at : pyfloat }.

Notation store := (gmap string _Entry).

Definition _expired (entry : _Entry) (now : pyfloat) : bool := fle (e_expires_at entry) now.

(** The critical sections of [acquire], [renew] and [release]. *)
Definition store_acquire (now : pyfloat) (key owner : string) (ttl_ms : Z) (s : store) : bool * store :=
  let granted := (true, <[key := {| e_owner := owner; e_expires_at := fadd now (ms_seconds ttl_ms) |}]> s) in
  match s !! key with
  | Some current => if negb (_expired current now) then (false, s) else granted
  | None => granted
  end.

Definition store_renew (now : pyfloat) (key owner : string) (ttl_ms : Z) (s : store) : bool * store :=
  match s !! key with
  | None => (false, s)
  | Some current =>
      if _expired current now then (false, delete key s)
      else if negb (str_eqb (e_owner current) owner) then (false, s)
      else (true, <[key := {| e_owner := e_owner current; e_expires_at := fadd now (ms_seconds ttl_ms) |}]> s)
  end.

Definition store_release (now : pyfloat) (key owner : string) (s : store) : bool * store :=
  match s !! key with
  | None => (false, s)
  | Some current =>
      if _expired current now then (false, delete key s)
      else if negb (str_eqb (e_owner current) owner) then (false, s)
      else (true, delete key s)
  end.

Definition store_owner (s : store) (now : pyfloat) (key : string) : option string :=
  match s !! key with
  | Some e => if _expired e now then None else Some (e_owner e)
  | None => None
  end.

#[export] Instance InMemoryLeaseStore : LeaseBackend store := {
  lb_acquire := store_acquire; lb_renew := store_renew; lb_release := store_release;
  lb_owner := store_owner }.

(** [_now]: every failure of the clock is one error. *)
Definition _now (clock : float_call) (operation : LeaseOperation) (corr : string) : lres pyfloat :=
  match clock with
  | FloatOk f => if fisfinite f then Ok f else lease_error INTERNAL_ERROR operation corr
  | _ => lease_error INTERNAL_ERROR operation corr
  end.

Definition _validate (operation : LeaseOperation) (key owner ttl_ms correlation_id : pyval) (generated : string)
    : lres (string * string * option Z * string) :=
  corr ← correlation_id_for operation correlation_id generated;
  key' ← validate_key key operation corr;
  owner' ← validate_owner owner operation corr;
  ttl ← match ttl_ms with
        | VNone => Ok None
        | v => n ← validate_ttl v operation corr; Ok (Some n)
        end;
  Ok (key', owner', ttl, corr).

(** The public methods; an error leaves the store unchanged. *)
Definition acquire (key owner ttl_ms correlation_id : pyval) (generated : string) (clock : float_call) (s : store)
    : lres (bool * store) :=
  v ← _validate op_acquire key owner ttl_ms correlation_id generated;
  let '(key', owner', ttl, corr) := v in
  match ttl with
  | None => Err AssertionError
  | Some n => now ← _now clock op_acquire corr; Ok (store_acquire now key' owner' n s)
  end.

Definition renew (key owner ttl_ms correlation_id : pyval) (generated : string) (clock : float_call) (s : store)
    : lres (bool * store) :=
  v ← _validate op_renew key owner ttl_ms correlation_id generated;
  let '(key', owner', ttl, corr) := v in
  match ttl with
  | None => Err AssertionError
  | Some n => now ← _now clock op_renew corr; Ok (store_renew now key' owner' n s)
  end.

Definition release (key owner correlation_id : pyval) (generated : string) (clock : float_call) (s : store)
    : lres (bool * store) :=
  v ← _validate op_release key owner VNone correlation_id generated;
  let '(key', owner', _, corr) := v in
  now ← _now clock op_release corr; Ok (store_release now key' owner' s).

Definition is_active (key : pyval) (generated : string) (clock : float_call) (s : store) : lres (bool * store) :=
  corr ← correlation_id_for op_acquire VNone generated;
  key' ← validate_key key op_acquire corr;
  now ← _now clock op_acquire corr;
  match s !! key' with
  | None => Ok (false, s)
  | Some current => if _expired current now then Ok (false, delete key' s) else Ok (true, s)
  end.

(** [max(0, int((expires_at - now) * 1000))]; [None] where the code returns [None]. *)
Definition remaining_ms (expires_at now : pyfloat) : Z :=
  match fmul (fsub expires_at now) (lit 1000 1) with Fin m => Z.max 0 (int_of_units m) | _ => 0 end.

Definition remaining_ttl_ms (key : pyval) (generated : string) (clock : float_call) (s : store)
    : lres (option Z * store) :=
  corr ← correlation_id_for op_acquire VNone generated;
  key' ← validate_key key op_acquire corr;
  now ← _now clock op_acquire corr;
  match s !! key' with
  | None => Ok (None, s)
  | Some current =>
      if _expired current now then Ok (None, delete key' s)
      else Ok (Some (remaining_ms (e_expires_at current) now), s)
  end.

(** [__len__]: the expired entries are dropped first. *)
Definition store_len (generated : string) (clock : float_call) (s : store) : lres (nat * store) :=
  corr ← correlation_id_for op_acquire VNone generated;
  now ← _now clock op_acquire corr;
  let live := filter (fun kv => _expired (snd kv) now = false) s in
  Ok (size live, live).
