(* ===== verification/LeaseProperties.v ===== *)
(** * The in-memory lease store keeps the backend's laws *)

From Stdlib Require Import Ascii String.
From stdpp Require Import strings gmap.
From S2P Require Import Prelude PyFloat PyStr PyVal Leases.

Local Open Scope Z_scope.

(** ** Lease durations *)

Lemma float_of_int_exact n : 0 <= n < 2 ^ 53 -> float_of_int n = Some (Fin (n * scale)).
Proof.
  intros Hn. assert (is_double (n * scale)) as Hd.
  { unfold scale. apply representable_is_double; [|lia]. rewrite Z.abs_eq; lia. }
  unfold float_of_int, to_float. rewrite Hd.
  destruct (Z.leb_spec overflow_limit (Z.abs (n * scale))) as [H|]; [exfalso|reflexivity].
  rewrite Z.abs_eq in H by (apply Z.mul_nonneg_nonneg; [lia | apply Z.lt_le_incl, scale_pos]).
  assert (n * scale < 2 ^ 53 * scale) as H1 by (apply Z.mul_lt_mono_pos_r; [apply scale_pos | lia]).
  unfold scale, overflow_limit in *. rewrite <- Z.pow_add_r in H1 by lia.
  assert (2 ^ (53 + 1074) <= 2 ^ 2098) by (apply Z.pow_le_mono_r; lia). lia.
Qed.

Definition ms_units (ms : Z) : Z := round_double (ms * scale * scale) (1000 * scale).

Lemma thousand : lit 1000 1 = Fin (1000 * scale).
Proof. vm_compute. reflexivity. Qed.

Lemma ms_seconds_Fin ms : 0 < ms <= MAX_TTL_MS -> ms_seconds ms = Fin (ms_units ms) /\ 2 ^ 1064 <= ms_units ms.
Proof.
  unfold MAX_TTL_MS. intros Hms. pose proof scale_pos as Hs.
  assert (ms_units 1 <= ms_units ms <= ms_units 3600000) as [H1 H2].
  { split; apply round_double_mono; try lia; apply Z.mul_le_mono_nonneg_r; try lia;
      apply Z.mul_le_mono_nonneg_r; lia. }
  assert (2 ^ 1064 <= ms_units 1) as H3 by (vm_compute; discriminate).
  assert (ms_units 3600000 < overflow_limit) as H4 by (vm_compute; reflexivity).
  split; [|lia].
  unfold ms_seconds. rewrite float_of_int_exact by lia. rewrite thousand.
  unfold fdiv. destruct (1000 * scale) as [|p|p] eqn:E; [lia| |lia]. rewrite <- E.
  cbn [from_option id]. rewrite Z.sgn_pos, Z.abs_eq, Z.mul_1_l by lia.
  unfold to_float. fold (ms_units ms). destruct (Z.leb_spec overflow_limit (Z.abs (ms_units ms))); [lia | reflexivity].
Qed.

(** A lease taken now has not expired now. *)
Lemma lease_starts_live now ms : clock_ok now -> 0 < ms <= MAX_TTL_MS ->
  flt now (fadd now (ms_seconds ms)) = true.
Proof.
  intros (a & -> & Hd & Ha) Hms. destruct (ms_seconds_Fin ms Hms) as [-> Hu].
  apply (fadd_gt a (ms_units ms) 1064); auto; lia.
Qed.

(** ** The laws *)

Lemma expired_later e now now' : fle now now' = true -> _expired e now = true -> _expired e now' = true.
Proof. unfold _expired. intros H1 H2. eapply fle_trans; eassumption. Qed.

Lemma store_owner_Some s now k o : store_owner s now k = Some o <->
  exists e, s !! k = Some e /\ _expired e now = false /\ e_owner e = o.
Proof.
  unfold store_owner. destruct (s !! k) as [e|]; [|split; [discriminate | intros (e & [=] & _)]].
  destruct (_expired e now) eqn:E; split.
  - discriminate.
  - intros (e' & [= <-] & H & _). congruence.
  - intros [= <-]. eauto.
  - intros (e' & [= <-] & _ & <-). reflexivity.
Qed.

Lemma store_owner_None s now k : store_owner s now k = None <->
  forall e, s !! k = Some e -> _expired e now = true.
Proof.
  unfold store_owner. destruct (s !! k) as [e|]; [|split; [discriminate | reflexivity]].
  destruct (_expired e now) eqn:E; split.
  - intros _ e' [= <-]. exact E.
  - reflexivity.
  - discriminate.
  - intros H. now rewrite (H e eq_refl) in E.
Qed.

Lemma store_owner_insert s now k e : store_owner (<[k := e]> s) now k = if _expired e now then None else Some (e_owner e).
Proof. unfold store_owner. now rewrite lookup_insert_eq. Qed.

Lemma store_owner_insert_ne s now k k' e : k' <> k -> store_owner (<[k := e]> s) now k' = store_owner s now k'.
Proof. intros H. unfold store_owner. now rewrite lookup_insert_ne by auto. Qed.

Lemma store_owner_delete s now k : store_owner (delete k s) now k = None.
Proof. unfold store_owner. now rewrite lookup_delete_eq. Qed.

Lemma store_owner_delete_ne s now k k' : k' <> k -> store_owner (delete k s) now k' = store_owner s now k'.
Proof. intros H. unfold store_owner. now rewrite lookup_delete_ne by auto. Qed.

(** Dropping an expired entry changes nothing from now on. *)
Lemma store_owner_drop s now now' k k' e : fle now now' = true -> s !! k = Some e -> _expired e now = true ->
  store_owner (delete k s) now' k' = store_owner s now' k'.
Proof.
  intros Hle Hk He. destruct (decide (k' = k)) as [->|Hne]; [|now apply store_owner_delete_ne].
  rewrite store_owner_delete. symmetry. apply store_owner_None. intros e' [= <-]%(eq_trans (eq_sym Hk)).
  eauto using expired_later.
Qed.

Lemma fresh_entry_live now o ttl : clock_ok now -> 0 < ttl <= MAX_TTL_MS ->
  _expired {| e_owner := o; e_expires_at := fadd now (ms_seconds ttl) |} now = false.
Proof. intros Hc Ht. unfold _expired. cbn. apply flt_not_fle. now apply lease_starts_live. Qed.

(** The three critical sections by who owns the key. *)
Lemma store_acquire_spec now k o ttl s :
  store_acquire now k o ttl s =
  match store_owner s now k with
  | Some _ => (false, s)
  | None => (true, <[k := {| e_owner := o; e_expires_at := fadd now (ms_seconds ttl) |}]> s)
  end.
Proof.
  unfold store_acquire, store_owner. destruct (s !! k) as [e|]; [|reflexivity].
  now destruct (_expired e now).
Qed.

Lemma store_renew_owned now k o ttl s : store_owner s now k = Some o ->
  store_renew now k o ttl s = (true, <[k := {| e_owner := o; e_expires_at := fadd now (ms_seconds ttl) |}]> s).
Proof.
  intros (e & Hk & He & Ho)%store_owner_Some. unfold store_renew. rewrite Hk, He, Ho.
  unfold str_eqb. now rewrite bool_decide_eq_true_2.
Qed.

Lemma store_release_owned now k o s : store_owner s now k = Some o ->
  store_release now k o s = (true, delete k s).
Proof.
  intros (e & Hk & He & Ho)%store_owner_Some. unfold store_release. rewrite Hk, He, Ho.
  unfold str_eqb. now rewrite bool_decide_eq_true_2.
Qed.

Lemma store_refused now k o s : store_owner s now k <> Some o ->
  exists s', (forall ttl, store_renew now k o ttl s = (false, s')) /\ store_release now k o s = (false, s')
    /\ forall k' now', fle now now' = true -> store_owner s' now' k' = store_owner s now' k'.
Proof.
  intros H. unfold store_renew, store_release. unfold store_owner in H.
  destruct (s !! k) as [e|] eqn:Hk; [|eauto 10].
  destruct (_expired e now) eqn:He.
  - exists (delete k s). repeat split. intros k' now' Hle. eapply store_owner_drop; eassumption.
  - destruct (str_eqb (e_owner e) o) eqn:Ho; [apply str_eqb_eq in Ho; congruence|].
    cbn [negb]. eauto 10.
Qed.

#[export] Instance store_laws : LeaseLaws store.
Proof.
  split; cbn [lb_acquire lb_renew lb_release lb_owner InMemoryLeaseStore].
  - intros s now now' k o Hle (e & Hk & He & Ho)%store_owner_Some. apply store_owner_Some.
    exists e. repeat split; auto. destruct (_expired e now) eqn:E; [|reflexivity].
    now rewrite (expired_later e now now' Hle E) in He.
  - intros s now k o ttl. rewrite store_acquire_spec. destruct (store_owner s now k); split; cbn; congruence.
  - intros s now k o ttl Hc Ht. rewrite store_acquire_spec. destruct (store_owner s now k); [discriminate|].
    intros _. cbn. now rewrite store_owner_insert, fresh_entry_live.
  - intros s now k o ttl k' now' _ H. rewrite store_acquire_spec in *.
    destruct (store_owner s now k); [reflexivity|]. cbn in *.
    destruct H as [H|]; [now apply store_owner_insert_ne | discriminate].
  - intros s now k o ttl. destruct (decide (store_owner s now k = Some o)) as [E|E].
    + rewrite store_renew_owned by exact E. tauto.
    + destruct (store_refused now k o s E) as (s' & H & _). rewrite H. cbn. split; [discriminate | contradiction].
  - intros s now k o ttl Hc Ht. destruct (decide (store_owner s now k = Some o)) as [E|E].
    + rewrite store_renew_owned by exact E. intros _. cbn. now rewrite store_owner_insert, fresh_entry_live.
    + destruct (store_refused now k o s E) as (s' & H & _). rewrite H. discriminate.
  - intros s now k o ttl k' now' Hle. destruct (decide (store_owner s now k = Some o)) as [E|E].
    + rewrite store_renew_owned by exact E. intros [H|]; [now apply store_owner_insert_ne | discriminate].
    + destruct (store_refused now k o s E) as (s' & H & _ & Hf). rewrite H. cbn. auto.
  - intros s now k o. destruct (decide (store_owner s now k = Some o)) as [E|E].
    + rewrite store_release_owned by exact E. tauto.
    + destruct (store_refused now k o s E) as (s' & _ & H & _). rewrite H. cbn. split; [discriminate | contradiction].
  - intros s now k o now'. destruct (decide (store_owner s now k = Some o)) as [E|E].
    + rewrite store_release_owned by exact E. intros _. apply store_owner_delete.
    + destruct (store_refused now k o s E) as (s' & _ & H & _). rewrite H. discriminate.
  - intros s now k o k' now' Hle. destruct (decide (store_owner s now k = Some o)) as [E|E].
    + rewrite store_release_owned by exact E. intros [H|]; [now apply store_owner_delete_ne | discriminate].
    + destruct (store_refused now k o s E) as (s' & _ & H & Hf). rewrite H. cbn. auto.
Qed.

(** ** Mutual exclusion over any lawful backend *)

Inductive lease_op : Type :=
| Do_acquire (now : pyfloat) (k o : string) (ttl : Z)
| Do_renew (now : pyfloat) (k o : string) (ttl : Z)
| Do_release (now : pyfloat) (k o : string).

Section exclusion.
Context {S : Type} `{LeaseLaws S}.

Definition do_op (s : S) (op : lease_op) : S :=
  match op with
  | Do_acquire now k o ttl => snd (lb_acquire now k o ttl s)
  | Do_renew now k o ttl => snd (lb_renew now k o ttl s)
  | Do_release now k o => snd (lb_release now k o s)
  end.

Definition op_now (op : lease_op) : pyfloat :=
  match op with Do_acquire n _ _ _ | Do_renew n _ _ _ | Do_release n _ _ => n end.

(** The call renews or releases key [k] as owner [o]. *)
Definition op_by (op : lease_op) (k o : string) : Prop :=
  match op with Do_acquire _ _ _ _ => False | Do_renew _ k' o' _ | Do_release _ k' o' => k' = k /\ o' = o end.

Lemma do_op_frame s op k o now' :
  fle (op_now op) now' = true -> lb_owner s (op_now op) k = Some o -> ~ op_by op k o ->
  lb_owner (do_op s op) now' k = lb_owner s now' k.
Proof.
  intros Hle Ho Hby. destruct op as [now k' o' ttl|now k' o' ttl|now k' o']; cbn in *.
  - apply acquire_frame; [exact Hle|]. destruct (decide (k' = k)) as [->|]; [right | left; auto].
    apply not_true_is_false. intros E%acquire_free. congruence.
  - apply renew_frame; [exact Hle|]. destruct (decide (k' = k)) as [->|]; [right | left; auto].
    apply not_true_is_false. intros E%renew_owned. apply Hby. split; congruence.
  - apply release_frame; [exact Hle|]. destruct (decide (k' = k)) as [->|]; [right | left; auto].
    apply not_true_is_false. intros E%release_owned. apply Hby. split; congruence.
Qed.

Lemma run_frame k o until ops : forall s,
  lb_owner s until k = Some o ->
  (forall op, In op ops -> fle (op_now op) until = true /\ ~ op_by op k o) ->
  lb_owner (fold_left do_op ops s) until k = Some o.
Proof.
  induction ops as [|op ops IH]; intros s Hs Hops; [exact Hs|]. cbn.
  destruct (Hops op (or_introl eq_refl)) as [Hle Hby].
  apply IH; [|intros op' Hin; apply Hops; now right].
  rewrite (do_op_frame s op k o until Hle); [exact Hs | | exact Hby].
  eapply owner_past; eassumption.
Qed.
End exclusion.

(** C17: the in-memory store is mutually exclusive. Once an acquire of a key
    is granted and until its lease ends, no sequence of calls by anyone but
    the owner takes, extends or frees the key: at any time [until] before the
    end the owner still holds it and can release it, nobody can acquire it,
    and no other owner can renew or release it. *)
Theorem lease_mutual_exclusion (s : store) now k o ttl until ops o' ttl' :
  fst (store_acquire now k o ttl s) = true ->
  flt until (fadd now (ms_seconds ttl)) = true ->
  (forall op, In op ops -> fle (op_now op) until = true /\ ~ op_by op k o) ->
  let s' := fold_left do_op ops (snd (store_acquire now k o ttl s)) in
  store_owner s' until k = Some o
  /\ fst (store_release until k o s') = true
  /\ fst (store_acquire until k o' ttl' s') = false
  /\ (o' <> o -> fst (store_renew until k o' ttl' s') = false /\ fst (store_release until k o' s') = false).
Proof.
  intros Hg Hu Hops s'.
  assert (store_owner s' until k = Some o) as E.
  { refine (run_frame (S := store) k o until ops _ _ Hops). cbn [lb_owner InMemoryLeaseStore]. rewrite store_acquire_spec in *.
    destruct (store_owner s now k); [discriminate|]. cbn [snd].
    rewrite store_owner_insert. unfold _expired. cbn [e_expires_at e_owner].
    now rewrite flt_not_fle by exact Hu. }
  split; [exact E|]. split; [now rewrite store_release_owned|]. split; [now rewrite store_acquire_spec, E|].
  intros Hne. assert (store_owner s' until k <> Some o') as E' by (rewrite E; congruence).
  destruct (store_refused until k o' s' E') as (s2 & Hr & Hl & _). now rewrite Hr, Hl.
Qed.

Lemma lease_mutual_exclusion_witness :
  fst (store_acquire (lit 1 2) "k" "bob" 5
         (fold_left do_op [Do_acquire (lit 1 10) "k" "bob" 9; Do_release (lit 2 10) "k" "bob"]
            (snd (store_acquire (lit 0 1) "k" "alice" 1000 ∅)))) = false.
Proof.
  destruct (lease_mutual_exclusion ∅ (lit 0 1) "k" "alice" 1000 (lit 1 2)
           [Do_acquire (lit 1 10) "k" "bob" 9; Do_release (lit 2 10) "k" "bob"] "bob" 5) as (_ & _ & E & _).
  - vm_compute. reflexivity.
  - vm_compute. reflexivity.
  - intros op [<-|[<-|[]]]; (split; [vm_compute; reflexivity | cbn [op_by]]).
    + intros [].
    + intros [_ E]. discriminate E.
  - exact E.
Defined.
