(* ===== verification/LeaseClient.v ===== *)
(** * Lease handles and clients (packages/locking, client.py and heartbeat.py)

    A backend call is a step of the backend's state with a raw outcome: it may
    return any value or raise.  A handle is a value; its asyncio lock makes
    every method one step.  The owner token and the fresh correlation ids are
    arguments.  The cancellation-safe cleanup is a function of how its waits
    end. *)

From Stdlib Require Import Ascii String.
From stdpp Require Import strings gmap.
From S2P Require Import Prelude PyFloat PyStr PyVal Leases.

Local Open Scope Z_scope.

(** ** Raw backend calls *)

Inductive call_result : Type :=
| Returned (v : pyval)
| Raised_lease (e : LeaseError)
| Raised_cancelled
| Raised_other.

(** The three coroutines of a backend object. *)
Class RawBackend (B : Type) : Type := {
  raw_acquire : string -> string -> Z -> string -> B -> call_result * B;
  raw_renew : string -> string -> Z -> string -> B -> call_result * B;
  raw_release : string -> string -> string -> B -> call_result * B }.

(** [_call_backend] followed by the check [type(result) is bool]. *)
Definition _call_backend (operation : LeaseOperation) (corr : string) (r : call_result) : lres bool :=
  match r with
  | Returned (VBool b) => Ok b
  | Returned _ => lease_error INTERNAL_ERROR operation corr
  | Raised_lease e => lease_error (le_code e) operation corr
  | Raised_cancelled => Err CancelledError
  | Raised_other => lease_error INTERNAL_ERROR operation corr
  end.

Record LeaseHandle : Type := {
  h_client : nat; h_key : string; h_owner : string; h_ttl_ms : Z; h_correlation_id : string;
  h_released : bool; h_lost : bool }.

Definition handle_active (h : LeaseHandle) : bool := negb (h_released h) && negb (h_lost h).

Definition handle_set (h : LeaseHandle) (ttl : Z) (released lost : bool) : LeaseHandle :=
  {| h_client := h_client h; h_key := h_key h; h_owner := h_owner h; h_ttl_ms := ttl;
     h_correlation_id := h_correlation_id h; h_released := released; h_lost := lost |}.

Section client.
Context {B : Type} `{RawBackend B} (self : nat).

(** [LeaseClient.acquire]; [owner_factory] is the generated owner, [None] if
    the factory raised. *)
Definition client_acquire (key ttl_ms correlation_id : pyval) (generated : string)
    (owner_factory : option pyval) (b : B) : lres (option LeaseHandle) * B :=
  match (corr ← correlation_id_for op_acquire correlation_id generated;
         key' ← validate_key key op_acquire corr;
         ttl ← validate_ttl ttl_ms op_acquire corr;
         match owner_factory with
         | None => lease_error INTERNAL_ERROR op_acquire corr
         | Some o => owner ← validate_owner o op_acquire corr; Ok (key', owner, ttl, corr)
         end) with
  | Err e => (Err e, b)
  | Ok (key', owner, ttl, corr) =>
      let '(r, b') := raw_acquire key' owner ttl corr b in
      (granted ← _call_backend op_acquire corr r;
       Ok (if (granted : bool) then
             Some {| h_client := self; h_key := key'; h_owner := owner; h_ttl_ms := ttl;
                     h_correlation_id := corr; h_released := false; h_lost := false |}
           else None), b')
  end.

Definition _assert_owned_handle (h : LeaseHandle) (op : LeaseOperation) (corr : string) : lres unit :=
  if (h_client h =? self)%nat then Ok tt else lease_error INVALID_REQUEST op corr.

Definition _renew_handle (h : LeaseHandle) (ttl_ms correlation_id : pyval) (generated : string) (b : B)
    : lres bool * B :=
  match (corr ← correlation_id_for op_renew correlation_id generated;
         _assert_owned_handle h op_renew corr;;
         ttl ← validate_ttl ttl_ms op_renew corr; Ok (ttl, corr)) with
  | Err e => (Err e, b)
  | Ok (ttl, corr) =>
      let '(r, b') := raw_renew (h_key h) (h_owner h) ttl corr b in (_call_backend op_renew corr r, b')
  end.

Definition _release_handle (h : LeaseHandle) (correlation_id : pyval) (generated : string) (b : B)
    : lres bool * B :=
  match (corr ← correlation_id_for op_release correlation_id generated;
         _assert_owned_handle h op_release corr;; Ok corr) with
  | Err e => (Err e, b)
  | Ok corr =>
      let '(r, b') := raw_release (h_key h) (h_owner h) corr b in (_call_backend op_release corr r, b')
  end.

(** [LeaseHandle.renew]: the result, the handle and the backend afterwards. A
    successful renewal was validated, so its duration is an integer. *)
Definition handle_renew (h : LeaseHandle) (ttl_ms : option pyval) (correlation_id : pyval) (generated : string)
    (b : B) : lres bool * LeaseHandle * B :=
  if h_released h || h_lost h then (Ok false, h, b)
  else
    let effective := match ttl_ms with None => VInt (h_ttl_ms h) | Some v => v end in
    let '(r, b') := _renew_handle h effective correlation_id generated b in
    match r with
    | Ok true => (Ok true, handle_set h (match effective with VInt n => n | _ => h_ttl_ms h end)
                             (h_released h) (h_lost h), b')
    | Ok false => (Ok false, handle_set h (h_ttl_ms h) (h_released h) true, b')
    | Err e => (Err e, h, b')
    end.

(** [LeaseHandle.release]. *)
Definition handle_release (h : LeaseHandle) (correlation_id : pyval) (generated : string) (b : B)
    : lres bool * LeaseHandle * B :=
  if h_released h then (Ok false, h, b)
  else
    let '(r, b') := _release_handle h correlation_id generated b in
    match r with
    | Ok released => (Ok released, handle_set h (h_ttl_ms h) true (if (released : bool) then h_lost h else true), b')
    | Err e => (Err e, h, b')
    end.

(** [LeaseClient.renew] and [release] for a handle argument. *)
Definition client_renew (h : LeaseHandle) (ttl_ms : option pyval) (correlation_id : pyval)
    (generated : string) (b : B) : lres bool * LeaseHandle * B :=
  match (corr ← correlation_id_for op_renew correlation_id generated;
         _assert_owned_handle h op_renew corr;; Ok corr) with
  | Err e => (Err e, h, b)
  | Ok corr =>
      handle_renew h (Some (match ttl_ms with None => VInt (h_ttl_ms h) | Some v => v end)) (VStr corr) generated b
  end.

Definition client_release (h : LeaseHandle) (correlation_id : pyval) (generated : string) (b : B)
    : lres bool * LeaseHandle * B :=
  match (corr ← correlation_id_for op_release correlation_id generated;
         _assert_owned_handle h op_release corr;; Ok corr) with
  | Err e => (Err e, h, b)
  | Ok corr => handle_release h (VStr corr) generated b
  end.

(** The calls for adapters that already own a token. *)
Definition acquire_owned (key owner ttl_ms correlation_id : pyval) (generated : string) (b : B) : lres bool * B :=
  match (corr ← correlation_id_for op_acquire correlation_id generated;
         key' ← validate_key key op_acquire corr;
         owner' ← validate_owner owner op_acquire corr;
         ttl ← validate_ttl ttl_ms op_acquire corr; Ok (key', owner', ttl, corr)) with
  | Err e => (Err e, b)
  | Ok (key', owner', ttl, corr) =>
      let '(r, b') := raw_acquire key' owner' ttl corr b in (_call_backend op_acquire corr r, b')
  end.

Definition renew_owned_call (key owner ttl_ms correlation_id : pyval) (generated : string) (b : B) : lres bool * B :=
  match (corr ← correlation_id_for op_renew correlation_id generated;
         key' ← validate_key key op_renew corr;
         owner' ← validate_owner owner op_renew corr;
         ttl ← validate_ttl ttl_ms op_renew corr; Ok (key', owner', ttl, corr)) with
  | Err e => (Err e, b)
  | Ok (key', owner', ttl, corr) =>
      let '(r, b') := raw_renew key' owner' ttl corr b in (_call_backend op_renew corr r, b')
  end.

Definition release_owned_call (key owner correlation_id : pyval) (generated : string) (b : B) : lres bool * B :=
  match (corr ← correlation_id_for op_release correlation_id generated;
         key' ← validate_key key op_release corr;
         owner' ← validate_owner owner op_release corr; Ok (key', owner', corr)) with
  | Err e => (Err e, b)
  | Ok (key', owner', corr) =>
      let '(r, b') := raw_release key' owner' corr b in (_call_backend op_release corr r, b')
  end.
End client.

(** ** Cancellation-safe cleanup *)

(** How one bounded, shielded wait for the release task ends. *)
Inductive wait_outcome : Type :=
| Wait_done (released : bool)
| Wait_lease_error (e : LeaseError)
| Wait_timeout
| Wait_cancelled.

(** [_release_for_context]: whether the lease was released, the cleanup error,
    and whether a cancellation arrived during cleanup. The second wait happens
    only if the first one is cancelled. *)
Definition _release_for_context (corr : string) (first second : wait_outcome)
    : bool * option LeaseError * bool :=
  let timed_out := LeaseError_new TIMEOUT op_release corr in
  match first with
  | Wait_done r => (r, None, false)
  | Wait_lease_error e => (false, Some e, false)
  | Wait_timeout => (false, Some timed_out, false)
  | Wait_cancelled =>
      match second with
      | Wait_done r => (r, None, true)
      | Wait_lease_error e => (false, Some e, true)
      | Wait_timeout => (false, Some timed_out, true)
      | Wait_cancelled => (false, None, true)
      end
  end.

(** What leaves the [async with] block: the body's exception goes through
    unchanged ([return False]). *)
Inductive exit_outcome : Type := Exit_body_exception | Exit_raises (e : lease_failure) | Exit_normal.

Definition __aexit__ (body_raised : bool) (corr : string) (first second : wait_outcome) : exit_outcome :=
  let '(_, cleanup_error, cleanup_cancelled) := _release_for_context corr first second in
  if body_raised then Exit_body_exception
  else match cleanup_error with
       | Some e => Exit_raises (LeaseFailed e)
       | None => if cleanup_cancelled then Exit_raises CancelledError else Exit_normal
       end.

(** ** The heartbeat *)

(** [LeaseHeartbeat.__init__]'s interval; [None] is the [ValueError]. *)
Definition heartbeat_interval (h : LeaseHandle) (interval_ms : option pyval) : option Z :=
  match (match interval_ms with None => VInt (h_ttl_ms h / 3) | Some v => v end) with
  | VInt n => if (0 <? n) && (n <=? MAX_TTL_MS) then Some (Z.max 1 n) else None
  | _ => None
  end.

(** Why the renewal loop [_run] ended. *)
Inductive heartbeat_end : Type := Hb_stopped | Hb_not_owner (e : LeaseError) | Hb_error (e : LeaseError) | Hb_cancelled
| Hb_running.

Section heartbeat.
Context {B : Type} `{RawBackend B} (self : nat).

(** One turn after the sleep: [None] to continue. *)
Definition heartbeat_turn (stopped : bool) (generated : string) (h : LeaseHandle) (b : B)
    : option heartbeat_end * LeaseHandle * B :=
  if stopped || negb (handle_active h) then (Some Hb_stopped, h, b)
  else
    let '(r, h', b') := handle_renew self h None VNone generated b in
    match r with
    | Ok true => (None, h', b')
    | Ok false => (Some (Hb_not_owner (LeaseError_new NOT_OWNER op_renew (h_correlation_id h))), h', b')
    | Err (LeaseFailed e) => (Some (Hb_error e), h', b')
    | Err _ => (Some Hb_cancelled, h', b')
    end.

(** The loop over the turns whose sleep completes; each has its [stopped]
    flag and fresh id. *)
Fixpoint heartbeat_run (turns : list (bool * string)) (h : LeaseHandle) (b : B) : heartbeat_end * LeaseHandle * B :=
  if negb (handle_active h) then (Hb_stopped, h, b) else
  match turns with
  | [] => (Hb_running, h, b)
  | (stopped, generated) :: turns' =>
      match heartbeat_turn stopped generated h b with
      | (Some e, h', b') => (e, h', b')
      | (None, h', b') => heartbeat_run turns' h' b'
      end
  end.
End heartbeat.
