(* ===== verification/RateLimit.v ===== *)
(** * The in-memory rate limiter (packages/locking, rate_limit.py)

    A log of accepted times per key, with the least recently used key evicted
    at the bound.  The reading of the clock and the fresh correlation id are
    arguments; the lock makes one call one step.  The Redis limiter decides
    inside a server script and is not modelled. *)

From Stdlib Require Import Ascii String.
From stdpp Require Import strings.
From S2P Require Import Prelude PyFloat PyStr PyVal Leases.

Local Open Scope string_scope.
Local Open Scope Z_scope.
Local Open Scope list_scope.

Definition MAX_RATE_LIMIT : Z := 1000000.
Definition MAX_RATE_WINDOW_SECONDS : pyfloat := lit 86400 1.
Definition MAX_RATE_KEYS : Z := 100000.
Definition _LOCAL_ENVIRONMENTS : list string := ["test"; "testing"; "development"; "dev"; "local"].
Definition _DEPLOYED_ENVIRONMENTS : list string := ["production"; "prod"; "live"; "staging"].

(** [float()] of an int too large for a double. *)
Inductive rate_error : Type := OverflowError | ValueError.

(** [int(round(f * 1000.0))] of a finite float. *)
Definition milliseconds (f : pyfloat) : option Z :=
  match fmul f (lit 1000 1) with Fin m => Some (round_half_even m scale) | _ => None end.

Definition window_float (value : pyval) : res rate_error (option pyfloat) :=
  match value with
  | VInt n => match float_of_int n with Some f => Ok (Some f) | None => Err OverflowError end
  | VFloat f => Ok (Some f)
  | _ => Ok None
  end.

Definition _validated_window (value : pyval) : res rate_error (option Z) :=
  w ← window_float value;
  Ok match w with
     | None => None
     | Some f =>
         if fisfinite f && fle (lit 1 1000) f && fle f MAX_RATE_WINDOW_SECONDS then
           match milliseconds f with
           | Some ms => if 1 <=? ms then Some ms else None
           | None => None
           end
         else None
     end.

Record rate_limiter : Type := mk_limiter {
  rl_window_seconds : pyfloat; rl_max_keys : Z; rl_events : list (string * list pyfloat) }.

(** [env] is the value of RICK_ENV. *)
Definition rate_limiter_new (env mode : string) (window_seconds : pyval) (max_keys : pyval) : res rate_error rate_limiter :=
  raise_if (negb (str_in mode _LOCAL_ENVIRONMENTS) || str_in (lower (strip env)) _DEPLOYED_ENVIRONMENTS) ValueError;;
  w ← _validated_window window_seconds;
  raise_if (match w with None => true | Some _ => false end) ValueError;;
  f ← window_float window_seconds;
  match max_keys with
  | VInt n =>
      raise_if (negb ((1 <=? n) && (n <=? MAX_RATE_KEYS))) ValueError;;
      Ok (mk_limiter (from_option id NaN f) n [])
  | _ => Err ValueError
  end.

(** A call that passed every check: key, limit, window and time. *)
Record rate_request : Type := mk_request { rq_key : string; rq_limit : Z; rq_window : pyfloat; rq_now : pyfloat }.

(** The checks; [None] answers [False]. *)
Definition checked_request (l : rate_limiter) (key limit window correlation_id : pyval) (generated : string) (clock : float_call)
    : res rate_error (option rate_request) :=
  match (corr ← correlation_id_for op_acquire correlation_id generated; validate_key key op_acquire corr) with
  | Err _ => Ok None
  | Ok checked_key =>
      match limit with
      | VInt n =>
          if negb ((1 <=? n) && (n <=? MAX_RATE_LIMIT)) then Ok None
          else
            let effective := if is_none window then VFloat (rl_window_seconds l) else window in
            w ← _validated_window effective;
            match w with
            | None => Ok None
            | Some _ =>
                f ← window_float effective;
                match clock with
                | FloatOk now => Ok (if fisfinite now then Some (mk_request checked_key n (from_option id NaN f) now) else None)
                | _ => Ok None
                end
            end
      | _ => Ok None
      end
  end.

(** [while events and events[0] <= cutoff: events.popleft()]. *)
Fixpoint drop_expired (cutoff : pyfloat) (events : list pyfloat) : list pyfloat :=
  match events with
  | [] => []
  | e :: events' => if fle e cutoff then drop_expired cutoff events' else events
  end.

(** The events of the key, made room for if it is new. *)
Definition find_or_evict (max_keys : Z) (key : string) (d : list (string * list pyfloat))
    : list (string * list pyfloat) * list pyfloat :=
  match dict_get key d with
  | Some events => (d, events)
  | None =>
      let d := if max_keys <=? Z.of_nat (length d) then tl d else d in
      (dict_set key [] d, [])
  end.

Definition consume (l : rate_limiter) (r : rate_request) : rate_limiter * bool :=
  let '(d, events) := find_or_evict (rl_max_keys l) (rq_key r) (rl_events l) in
  let events := drop_expired (fsub (rq_now r) (rq_window r)) events in
  let others := dict_del (rq_key r) d in
  let allowed := negb (rq_limit r <=? Z.of_nat (length events)) in
  (mk_limiter (rl_window_seconds l) (rl_max_keys l)
     (others ++ [(rq_key r, if allowed then events ++ [rq_now r] else events)]), allowed).

(** [allow]; [request_id] is not used. *)
Definition allow (key limit window correlation_id : pyval) (generated : string) (clock : float_call) (l : rate_limiter)
    : rate_limiter * res rate_error bool :=
  match checked_request l key limit window correlation_id generated clock with
  | Err e => (l, Err e)
  | Ok None => (l, Ok false)
  | Ok (Some r) => let '(l', b) := consume l r in (l', Ok b)
  end.

Definition check (key limit_per_min correlation_id : pyval) (generated : string) (clock : float_call) (l : rate_limiter)
    : rate_limiter * res rate_error bool :=
  allow key limit_per_min (VFloat (rl_window_seconds l)) correlation_id generated clock l.

(** ** Runs and the reference *)

Record rate_call : Type := mk_call {
  rk_key : pyval; rk_limit : pyval; rk_window : pyval; rk_correlation_id : pyval; rk_generated : string; rk_clock : float_call }.

Definition do_call (l : rate_limiter) (c : rate_call) : rate_limiter * res rate_error bool :=
  allow (rk_key c) (rk_limit c) (rk_window c) (rk_correlation_id c) (rk_generated c) (rk_clock c) l.

Fixpoint answers (calls : list rate_call) (l : rate_limiter) : list (res rate_error bool) :=
  match calls with
  | [] => []
  | c :: calls' => let '(l', a) := do_call l c in a :: answers calls' l'
  end.

Definition request_of (l : rate_limiter) (c : rate_call) : res rate_error (option rate_request) :=
  checked_request l (rk_key c) (rk_limit c) (rk_window c) (rk_correlation_id c) (rk_generated c) (rk_clock c).

(** The reference: a sliding window over every request accepted so far.  A
    request is accepted when fewer than its limit were accepted for its key
    after [now - window]. *)
Definition in_window (r : rate_request) (past : string * pyfloat) : bool :=
  str_eqb (fst past) (rq_key r) && negb (fle (snd past) (fsub (rq_now r) (rq_window r))).

Definition window_accepts (accepted : list (string * pyfloat)) (r : rate_request) : bool :=
  Z.of_nat (length (List.filter (in_window r) accepted)) <? rq_limit r.

Fixpoint sliding_window (calls : list rate_call) (l : rate_limiter) (accepted : list (string * pyfloat)) : list (res rate_error bool) :=
  match calls with
  | [] => []
  | c :: calls' =>
      match request_of l c with
      | Err e => Err e :: sliding_window calls' l accepted
      | Ok None => Ok false :: sliding_window calls' l accepted
      | Ok (Some r) =>
          let b := window_accepts accepted r in
          Ok b :: sliding_window calls' l (if b then accepted ++ [(rq_key r, rq_now r)] else accepted)
      end
  end.

(** The requests of a run that reach the log. *)
Definition requests (calls : list rate_call) (l : rate_limiter) : list rate_request :=
  flat_map (fun c => match request_of l c with Ok (Some r) => [r] | _ => [] end) calls.
