(* ===== verification/RateLimitProperties.v ===== *)
(** * The rate limiter is a sliding window

    The pruned log per key answers as a window over all accepted requests. *)

From Stdlib Require Import Ascii String.
From stdpp Require Import strings.
From S2P Require Import Prelude PyFloat PyStr PyVal Leases RateLimit.

Local Open Scope string_scope.
Local Open Scope Z_scope.
Local Open Scope list_scope.

(** ** Dictionaries *)

Lemma dict_get_app {V} k (d1 d2 : list (string * V)) :
  dict_get k (d1 ++ d2) = match dict_get k d1 with Some v => Some v | None => dict_get k d2 end.
Proof. induction d1 as [|[k' v] d1 IH]; cbn; [reflexivity|]. destruct (str_eqb k k'); [reflexivity | exact IH]. Qed.

Lemma dict_keys_del {V} k (d : list (string * V)) k' : k' ∈ dict_keys (dict_del k d) -> k' ∈ dict_keys d.
Proof.
  induction d as [|[k2 v] d IH]; cbn; [auto|]. destruct (str_eqb k k2); cbn; rewrite !elem_of_cons; [auto|].
  intros [-> | H]; auto.
Qed.

Lemma NoDup_dict_del {V} k (d : list (string * V)) : NoDup (dict_keys d) -> NoDup (dict_keys (dict_del k d)) /\ k ∉ dict_keys (dict_del k d).
Proof.
  induction d as [|[k2 v] d IH]; cbn; intros H; [split; [constructor | apply not_elem_of_nil]|].
  apply NoDup_cons in H as [Hn Hd]. destruct (str_eqb k k2) eqn:E; cbn.
  - apply str_eqb_eq in E as ->. auto.
  - destruct (IH Hd) as [H1 H2]. split.
    + apply NoDup_cons. split; [|exact H1]. intros Hin. apply Hn. eapply dict_keys_del, Hin.
    + rewrite not_elem_of_cons. split; [|exact H2]. intros ->. rewrite (proj2 (str_eqb_eq k2 k2) eq_refl) in E. discriminate.
Qed.

Lemma dict_get_del_ne {V} k k' (d : list (string * V)) : k' <> k -> dict_get k' (dict_del k d) = dict_get k' d.
Proof.
  intros Hne. induction d as [|[k2 v] d IH]; cbn; [reflexivity|]. destruct (str_eqb k k2) eqn:E; cbn.
  - apply str_eqb_eq in E as <-. destruct (str_eqb k' k) eqn:E'; [apply str_eqb_eq in E'; contradiction | reflexivity].
  - rewrite IH. reflexivity.
Qed.

(** ** Sorted logs *)

Notation not_after := (fun e c => fle e c = true).

Lemma drop_expired_sorted c l : StronglySorted not_after l -> drop_expired c l = List.filter (fun e => negb (fle e c)) l.
Proof.
  induction 1 as [|e l Hl IH He]; cbn; [reflexivity|]. destruct (fle e c) eqn:E; cbn; [exact IH|].
  f_equal. symmetry. apply forallb_filter_id, forallb_forall. intros x Hx.
  rewrite List.Forall_forall in He. specialize (He x Hx). apply negb_true_iff.
  destruct (fle x c) eqn:Ex; [|reflexivity]. rewrite (fle_trans _ _ _ He Ex) in E. discriminate.
Qed.

Lemma filter_sorted P l : StronglySorted not_after l -> StronglySorted not_after (List.filter P l).
Proof.
  induction 1 as [|e l Hl IH He]; cbn; [constructor|]. destruct (P e); [|exact IH]. constructor; [exact IH|].
  rewrite List.Forall_forall in *. intros x [Hx _]%filter_In. auto.
Qed.

(** A later cutoff drops what an earlier one kept. *)
Lemma filter_later c c' l : fle c c' = true ->
  List.filter (fun e => negb (fle e c')) (List.filter (fun e => negb (fle e c)) l) = List.filter (fun e => negb (fle e c')) l.
Proof.
  intros Hc. induction l as [|e l IH]; cbn; [reflexivity|]. destruct (fle e c) eqn:E; cbn.
  - rewrite (fle_trans _ _ _ E Hc). cbn. exact IH.
  - destruct (fle e c'); cbn; [exact IH | f_equal; exact IH].
Qed.

Lemma sorted_snoc l x : StronglySorted not_after l -> (forall e, In e l -> fle e x = true) -> StronglySorted not_after (l ++ [x]).
Proof.
  induction 1 as [|e l Hl IH He]; cbn; intros Hx; [repeat constructor|]. constructor; [apply IH; auto|].
  apply List.Forall_app. split; [exact He | repeat constructor; apply Hx; now left].
Qed.

(** ** The invariant *)

Definition times_of (key : string) (accepted : list (string * pyfloat)) : list pyfloat :=
  map snd (List.filter (fun p => str_eqb (fst p) key) accepted).

Definition cutoff (r : rate_request) : pyfloat := fsub (rq_now r) (rq_window r).

(** The times that still count for a request. *)
Definition live (r : rate_request) (events : list pyfloat) : list pyfloat := List.filter (fun e => negb (fle e (cutoff r))) events.

Lemma window_count r accepted :
  length (List.filter (in_window r) accepted) = length (live r (times_of (rq_key r) accepted)).
Proof.
  unfold live, times_of, in_window. induction accepted as [|[k t] l IH]; cbn; [reflexivity|].
  destruct (str_eqb k (rq_key r)); cbn; [|exact IH]. change (fsub (rq_now r) (rq_window r)) with (cutoff r).
  destruct (fle t (cutoff r)); cbn; [exact IH | f_equal; exact IH].
Qed.

Section run.
Context (all : list string) (max_keys : Z).
Hypothesis Hmax : Z.of_nat (length (remove_dups all)) <= max_keys.

Record log_inv (d : list (string * list pyfloat)) (accepted : list (string * pyfloat)) (rest : list rate_request) : Prop := {
  li_nodup : NoDup (dict_keys d);
  li_keys : forall k, k ∈ dict_keys d -> k ∈ all;
  li_sorted : StronglySorted not_after (map snd accepted);
  li_past : forall r e, In r rest -> In e (map snd accepted) -> fle e (rq_now r) = true;
  li_some : forall k events, dict_get k d = Some events ->
    StronglySorted not_after events /\ (forall e, In e events -> In e (times_of k accepted))
    /\ forall r, In r rest -> rq_key r = k -> live r events = live r (times_of k accepted);
  li_none : forall k, dict_get k d = None -> times_of k accepted = [] }.

(** A new key never evicts another. *)
Lemma find_no_evict key d accepted rest : log_inv d accepted rest -> key ∈ all ->
  exists d', find_or_evict max_keys key d = (d', from_option id [] (dict_get key d))
  /\ dict_del key d' = dict_del key d.
Proof.
  intros Hi Hin. unfold find_or_evict. destruct (dict_get key d) as [events|] eqn:E; [eauto|].
  assert (Hk : key ∉ dict_keys d) by (apply dict_get_None, E).
  replace (max_keys <=? Z.of_nat (length d)) with false.
  - eexists. split; [reflexivity|]. rewrite dict_set_fresh by exact Hk. clear - Hk.
    induction d as [|[k v] d IH]; cbn; [rewrite (proj2 (str_eqb_eq key key) eq_refl); reflexivity|].
    cbn in Hk. rewrite not_elem_of_cons in Hk. destruct (str_eqb key k) eqn:E; [apply str_eqb_eq in E; tauto|].
    f_equal. apply IH. tauto.
  - symmetry. apply Z.leb_gt. enough (S (length d) <= length (remove_dups all))%nat by lia.
    assert (S (length d) = length (key :: dict_keys d)) as -> by (cbn; unfold dict_keys; now rewrite length_map).
    apply NoDup_incl_length; [apply NoDup_ListNoDup, NoDup_cons; split; [exact Hk | apply (li_nodup _ _ _ Hi)]|].
    intros x [<- | Hx]; apply list_elem_of_In, elem_of_remove_dups; [exact Hin | apply (li_keys _ _ _ Hi), list_elem_of_In, Hx].
Qed.

Lemma times_of_snoc key k t accepted :
  times_of key (accepted ++ [(k, t)]) = times_of key accepted ++ (if str_eqb k key then [t] else []).
Proof. unfold times_of. rewrite List.filter_app, map_app. cbn. destruct (str_eqb k key); reflexivity. Qed.

Lemma times_of_In key t accepted : In t (times_of key accepted) -> In t (map snd accepted).
Proof. unfold times_of. rewrite !in_map_iff. intros (p & <- & [Hp _]%filter_In). eauto. Qed.

Lemma times_sorted key accepted : StronglySorted not_after (map snd accepted) -> StronglySorted not_after (times_of key accepted).
Proof.
  unfold times_of. induction accepted as [|[k t] l IH]; cbn; intros H; [constructor|]. inversion H as [|? ? Hl He]; subst.
  destruct (str_eqb k key); cbn; [|auto]. constructor; [auto|]. rewrite List.Forall_forall in *. intros x Hx.
  apply He, (times_of_In key), Hx.
Qed.

Lemma events_of_request d accepted r rest : log_inv d accepted (r :: rest) ->
  drop_expired (cutoff r) (from_option id [] (dict_get (rq_key r) d)) = live r (times_of (rq_key r) accepted).
Proof.
  intros Hi. destruct (dict_get (rq_key r) d) as [events|] eqn:E; cbn [from_option].
  - destruct (li_some _ _ _ Hi _ _ E) as (Hs & _ & Hl). rewrite drop_expired_sorted by exact Hs. apply Hl; [now left | reflexivity].
  - rewrite (li_none _ _ _ Hi _ E). reflexivity.
Qed.

Lemma live_later r r' l : fle (cutoff r) (cutoff r') = true -> live r' (live r l) = live r' l.
Proof. apply filter_later. Qed.

Lemma live_app r l1 l2 : live r (l1 ++ l2) = live r l1 ++ live r l2.
Proof. apply List.filter_app. Qed.

(** The log after a request: its key's live times, with the new one if accepted. *)
Lemma log_inv_next d accepted r rest (b : bool) :
  log_inv d accepted (r :: rest) -> rq_key r ∈ all ->
  (forall r', In r' rest -> fle (rq_now r) (rq_now r') = true) ->
  (forall r', In r' rest -> rq_key r' = rq_key r -> fle (cutoff r) (cutoff r') = true) ->
  log_inv (dict_del (rq_key r) d ++
             [(rq_key r, if b then live r (times_of (rq_key r) accepted) ++ [rq_now r] else live r (times_of (rq_key r) accepted))])
    (if b then accepted ++ [(rq_key r, rq_now r)] else accepted) rest.
Proof.
  intros Hi Hall Hnow Hcut. set (k := rq_key r) in *. destruct (NoDup_dict_del k d (li_nodup _ _ _ Hi)) as [Hnd Hk].
  assert (Hself : str_eqb k k = true) by (apply str_eqb_eq; reflexivity).
  assert (Hnone : dict_get k (dict_del k d) = None) by (apply dict_get_None, Hk).
  assert (Hnew : forall x, str_eqb x k = false -> x <> k) by (intros x E ->; congruence).
  assert (Hother : forall x, times_of x (if b then accepted ++ [(k, rq_now r)] else accepted)
     = times_of x accepted ++ (if b && str_eqb k x then [rq_now r] else [])).
  { intros x. destruct b; [rewrite times_of_snoc; reflexivity | cbn; now rewrite app_nil_r]. }
  constructor.
  - unfold dict_keys in *. rewrite map_app. apply NoDup_app. split_and!; [exact Hnd | | cbn; apply NoDup_singleton].
    intros x Hx Hin. cbn in Hin. apply list_elem_of_singleton in Hin as ->. contradiction.
  - unfold dict_keys. intros x. rewrite map_app, elem_of_app. intros [Hx | Hx].
    + apply (li_keys _ _ _ Hi). eapply dict_keys_del, Hx.
    + cbn in Hx. apply list_elem_of_singleton in Hx as ->. exact Hall.
  - destruct b; [|apply (li_sorted _ _ _ Hi)]. rewrite map_app. apply sorted_snoc; [apply (li_sorted _ _ _ Hi)|].
    intros e He. apply (li_past _ _ _ Hi r e); [now left | exact He].
  - intros r' e Hr' He. assert (In e (map snd accepted) -> fle e (rq_now r') = true) as Hold
      by (intros H; apply (li_past _ _ _ Hi r' e); [now right | exact H]).
    destruct b; [|auto]. rewrite map_app in He. apply in_app_or in He as [He | [<- | []]]; auto.
  - intros x events. rewrite dict_get_app, Hother. destruct (str_eqb x k) eqn:Ex.
    + apply str_eqb_eq in Ex as ->. rewrite Hnone. cbn. rewrite Hself, andb_true_r. intros [= <-].
      assert (Hsl : StronglySorted not_after (live r (times_of k accepted)))
        by (apply filter_sorted, times_sorted, (li_sorted _ _ _ Hi)).
      assert (Hin : forall e, In e (live r (times_of k accepted)) -> In e (times_of k accepted)) by (intros e [H _]%filter_In; exact H).
      destruct b.
      * split_and!.
        -- apply sorted_snoc; [exact Hsl|]. intros e He. apply (li_past _ _ _ Hi r e); [now left | apply (times_of_In k), Hin, He].
        -- intros e. rewrite !in_app_iff. intros [H | H]; auto.
        -- intros r' Hr' Hkr. rewrite !live_app, live_later by auto. reflexivity.
      * rewrite app_nil_r. split_and!; [exact Hsl | exact Hin |]. intros r' Hr' Hkr. apply live_later; auto.
    + specialize (Hnew x Ex). rewrite dict_get_del_ne by exact Hnew.
      destruct (dict_get x d) as [ev|] eqn:Ed; cbn; [|rewrite Ex; discriminate]. intros [= <-].
      assert (str_eqb k x = false) as -> by (destruct (str_eqb k x) eqn:E; [apply str_eqb_eq in E; congruence | reflexivity]).
      rewrite andb_false_r, app_nil_r. destruct (li_some _ _ _ Hi _ _ Ed) as (H1 & H2 & H3). split_and!; auto.
      intros r' Hr'. apply H3. now right.
  - intros x. rewrite dict_get_app, Hother. destruct (str_eqb x k) eqn:Ex.
    + apply str_eqb_eq in Ex as ->. rewrite Hnone. cbn. rewrite Hself. discriminate.
    + specialize (Hnew x Ex). rewrite dict_get_del_ne by exact Hnew. destruct (dict_get x d) eqn:Ed; [discriminate|]. intros _.
      assert (str_eqb k x = false) as -> by (destruct (str_eqb k x) eqn:E; [apply str_eqb_eq in E; congruence | reflexivity]).
      rewrite andb_false_r, app_nil_r. apply (li_none _ _ _ Hi), Ed.
Qed.

Lemma consume_spec w d accepted r rest : log_inv d accepted (r :: rest) -> rq_key r ∈ all ->
  (forall r', In r' rest -> fle (rq_now r) (rq_now r') = true) ->
  (forall r', In r' rest -> rq_key r' = rq_key r -> fle (cutoff r) (cutoff r') = true) ->
  exists d', consume (mk_limiter w max_keys d) r = (mk_limiter w max_keys d', window_accepts accepted r)
  /\ log_inv d' (if window_accepts accepted r then accepted ++ [(rq_key r, rq_now r)] else accepted) rest.
Proof.
  intros Hi Hall Hnow Hcut. unfold consume. cbn [rl_max_keys rl_events rl_window_seconds].
  destruct (find_no_evict _ _ _ _ Hi Hall) as (d' & -> & Hdel). rewrite Hdel. clear d' Hdel.
  change (fsub (rq_now r) (rq_window r)) with (cutoff r). rewrite (events_of_request _ _ _ _ Hi).
  assert (negb (rq_limit r <=? Z.of_nat (length (live r (times_of (rq_key r) accepted)))) = window_accepts accepted r) as ->.
  { unfold window_accepts. rewrite window_count. rewrite Z.ltb_antisym. reflexivity. }
  eexists. split; [reflexivity|]. apply log_inv_next; assumption.
Qed.
End run.

Lemma request_finite l c r : request_of l c = Ok (Some r) -> exists a b, rq_now r = Fin a /\ rq_window r = Fin b.
Proof.
  unfold request_of, checked_request. destruct (correlation_id_for _ _ _ ≫= _); [|discriminate].
  destruct (rk_limit c); try discriminate. destruct (negb _); [discriminate|]. cbv zeta.
  set (eff := if is_none (rk_window c) then _ else _). unfold _validated_window.
  destruct (window_float eff) as [[f|]|]; cbn [mbind res_mbind]; try discriminate.
  destruct (fisfinite f) eqn:Ef; cbn [andb]; [|discriminate].
  match goal with |- context [match ?x with Some _ => _ | None => _ end = Ok (Some r)] => generalize x end.
  intros [ms|]; [|discriminate]. destruct f as [b| |]; try discriminate Ef.
  destruct (rk_clock c) as [now| |]; try discriminate. destruct (fisfinite now) eqn:En; [|discriminate].
  destruct now as [t| |]; try discriminate. intros [= <-]. cbn. eauto.
Qed.

Lemma cutoff_mono r r' : (exists a b, rq_now r = Fin a /\ rq_window r = Fin b) -> (exists a b, rq_now r' = Fin a /\ rq_window r' = Fin b) ->
  rq_window r = rq_window r' -> fle (rq_now r) (rq_now r') = true -> fle (cutoff r) (cutoff r') = true.
Proof.
  intros (a & b & Ha & Hb) (a' & b' & Ha' & Hb') Hw Hn. unfold cutoff, fsub. rewrite Ha, Ha', Hb, Hb' in *.
  injection Hw as <-. apply fadd_mono; [apply Z.leb_le, Hn | lia].
Qed.

Section equivalence.
Context (w : pyfloat) (max_keys : Z) (calls0 : list rate_call).
Local Notation limiter d := (mk_limiter w max_keys d).
Local Notation reqs calls := (requests calls (limiter [])).

Hypothesis Hmax : Z.of_nat (length (remove_dups (map rq_key (reqs calls0)))) <= max_keys.
Hypothesis Hwin : forall r1 r2, In r1 (reqs calls0) -> In r2 (reqs calls0) -> rq_key r1 = rq_key r2 -> rq_window r1 = rq_window r2.

Lemma requests_cons c calls : reqs (c :: calls) =
  match request_of (limiter []) c with Ok (Some r) => r :: reqs calls | _ => reqs calls end.
Proof. unfold requests. cbn. destruct (request_of _ c) as [[r|]|]; reflexivity. Qed.

Lemma requests_finite calls r : In r (reqs calls) -> exists a b, rq_now r = Fin a /\ rq_window r = Fin b.
Proof.
  unfold requests. intros (c & _ & H)%in_flat_map. destruct (request_of (limiter []) c) as [[r'|]|] eqn:E; try destruct H.
  - subst. eapply request_finite, E.
  - destruct H.
Qed.

Lemma answers_sliding calls d accepted : (forall r, In r (reqs calls) -> In r (reqs calls0)) ->
  StronglySorted (fun r1 r2 => fle (rq_now r1) (rq_now r2) = true) (reqs calls) ->
  log_inv (map rq_key (reqs calls0)) d accepted (reqs calls) ->
  answers calls (limiter d) = sliding_window calls (limiter []) accepted.
Proof.
  revert d accepted. induction calls as [|c calls IH]; intros d accepted Hsub Hsort Hi; [reflexivity|].
  cbn [answers sliding_window]. unfold do_call, allow.
  change (checked_request (limiter d) (rk_key c) (rk_limit c) (rk_window c) (rk_correlation_id c) (rk_generated c) (rk_clock c))
    with (request_of (limiter []) c).
  rewrite requests_cons in Hsub, Hsort, Hi. destruct (request_of (limiter []) c) as [[r|]|e] eqn:E; [|f_equal; apply IH; assumption..].
  inversion Hsort as [|? ? Hrest Hfirst]; subst. rewrite List.Forall_forall in Hfirst.
  destruct (consume_spec _ max_keys Hmax w d accepted r (reqs calls) Hi) as (d' & -> & Hi').
  - apply list_elem_of_In, in_map, Hsub. now left.
  - exact Hfirst.
  - intros r' Hr' Hk. apply cutoff_mono; [eapply request_finite, E | eapply requests_finite, Hr' | | apply Hfirst, Hr'].
    apply Hwin; [apply Hsub; now left | apply Hsub; now right | congruence].
  - cbv beta iota zeta. f_equal. apply IH; [intros r' Hr'; apply Hsub; now right | exact Hrest | exact Hi'].
Qed.
End equivalence.

(** ** Properties *)


Definition sample_call (key : string) (now : Z) : rate_call :=
  mk_call (VStr key) (VInt 2) VNone (VStr "corr") "gen" (FloatOk (lit now 1)).

(** Two a minute: the third call within the minute is refused, one a minute
    after the first is accepted again. *)
Definition sample_calls : list rate_call :=
  [sample_call "a" 0; sample_call "a" 10; sample_call "b" 20; sample_call "a" 30; sample_call "a" 60; sample_call "a" 65].

Definition sample_limiter : rate_limiter := mk_limiter (lit 60 1) 2 [].

