(* ===== verification/Resilience.v ===== *)
(** * Provider resilience (packages/providers, resilience.py)

    Input budgets and a circuit breaker around a provider.  The provider is an
    argument: the outcome of the call it is given.  A call is admitted, then
    finishes; other calls may start and finish between the two.  The clock
    readings and the fresh correlation id are arguments.  Streaming and the
    cleanup of [aclose] are not modelled. *)

From Stdlib Require Import Ascii String.
From stdpp Require Import strings.
From S2P Require Import Prelude PyFloat PyStr PyVal StateError.

Local Open Scope string_scope.
Local Open Scope Z_scope.
Local Open Scope list_scope.

(** errors.py *)
Definition RETRYABLE_ERROR_CODES : list string := ["timeout"; "unavailable"; "rate_limit"; "server_error"].
Definition retryable (code : string) : bool := str_in code RETRYABLE_ERROR_CODES.

(** [OtherException] is anything a provider raises that is no
    [ProviderError], a cancellation included. *)
Inductive rp_error : Type :=
| ProviderError (code : string) (correlation_id : string)
| ProviderBudgetError
| OtherException
| ValueError
| OverflowError.

Record ResilientProvider : Type := mk_provider {
  rp_failure_threshold : Z; rp_cooldown_seconds : pyfloat; rp_max_messages : Z; rp_max_prompt_chars : Z;
  rp_max_embedding_chars : Z; rp_max_tool_calls : Z;
  rp_consecutive_failures : Z; rp_open_until : pyfloat }.

Definition with_circuit (failures : Z) (open_until : pyfloat) (p : ResilientProvider) : ResilientProvider :=
  mk_provider (rp_failure_threshold p) (rp_cooldown_seconds p) (rp_max_messages p) (rp_max_prompt_chars p)
    (rp_max_embedding_chars p) (rp_max_tool_calls p) failures open_until.

(** [type(v) is int and lo <= v <= hi]. *)
Definition int_between (lo hi : Z) (v : pyval) : res rp_error Z :=
  match v with VInt n => if (lo <=? n) && (n <=? hi) then Ok n else Err ValueError | _ => Err ValueError end.

Definition cooldown_value (v : pyval) : res rp_error pyfloat :=
  f ← match v with
      | VInt n => match float_of_int n with Some f => Ok f | None => Err OverflowError end
      | VFloat f => Ok f
      | _ => Err ValueError
      end;
  if fle (lit 1 10) f && fle f (lit 86400 1) then Ok f else Err ValueError.

Definition ResilientProvider_new (failure_threshold cooldown_seconds max_messages max_prompt_chars max_embedding_chars
    max_tool_calls : pyval) : res rp_error ResilientProvider :=
  threshold ← int_between 1 32 failure_threshold;
  cooldown ← cooldown_value cooldown_seconds;
  messages ← int_between 1 1024 max_messages;
  prompt ← int_between 1 1000000 max_prompt_chars;
  embedding ← int_between 1 1000000 max_embedding_chars;
  tools ← int_between 0 32 max_tool_calls;
  Ok (mk_provider threshold cooldown messages prompt embedding tools 0 (Fin 0)).

(** ** The circuit *)

Definition _is_open_locked (now : pyfloat) : M ResilientProvider rp_error bool :=
  p ← gets id;
  if fle (rp_open_until p) (Fin 0) then mret false
  else if fle (rp_open_until p) now then
    modify (with_circuit 0 (Fin 0));;
    mret false
  else mret true.

Definition _correlation (requested : pyval) (generated : string) : string :=
  match requested with
  | VStr s => if negb (is_empty s) && (slen s <=? 128) && sall (fun c => (32 <=? code c) && negb (is_char 127 c)) s
              then s else generated
  | _ => generated
  end.

Definition _guard (requested : pyval) (generated : string) (now : pyfloat) : M ResilientProvider rp_error string :=
  let correlation := _correlation requested generated in
  open ← _is_open_locked now;
  guard_not open (ProviderError "unavailable" correlation);;
  mret correlation.

Definition _record_success : M ResilientProvider rp_error unit := modify (with_circuit 0 (Fin 0)).

Definition _record_failure (code : string) (now : pyfloat) : M ResilientProvider rp_error unit :=
  if negb (retryable code) then mret tt
  else modify (fun p =>
    let failures := rp_consecutive_failures p + 1 in
    with_circuit failures
      (if rp_failure_threshold p <=? failures then fadd now (rp_cooldown_seconds p) else rp_open_until p) p).

(** ** Budgets *)

(** The text a message counts for, if its content is text. *)
Definition content_length (item : pyval) : Z :=
  match item with
  | VDict d => match dict_read "content" d with VStr s => slen s | _ => 0 end
  | _ => 0
  end.

Fixpoint within_budget (maximum total : Z) (items : list pyval) : bool :=
  match items with
  | [] => true
  | i :: items' => let total := total + content_length i in if maximum <? total then false else within_budget maximum total items'
  end.

Definition _validate_prompt (p : ResilientProvider) (model_or_messages messages : pyval) : res rp_error unit :=
  let candidate := if is_none messages then match model_or_messages with VStr _ => messages | v => v end else messages in
  match candidate with
  | VList items =>
      raise_if (rp_max_messages p <? Z.of_nat (length items)) ProviderBudgetError;;
      raise_if (negb (within_budget (rp_max_prompt_chars p) 0 items)) ProviderBudgetError
  | _ => Err ProviderBudgetError
  end.

Definition _validate_tools (p : ResilientProvider) (tools : pyval) : res rp_error unit :=
  match tools with
  | VNone => Ok tt
  | VList l => raise_if (rp_max_tool_calls p <? Z.of_nat (length l)) ProviderBudgetError
  | _ => Err ProviderBudgetError
  end.

(** A chat result: its text and its tool calls. *)
Record chat_result : Type := mk_result { cr_content : string; cr_tool_calls : option (list pyval) }.

Definition _validate_result_tool_budget (p : ResilientProvider) (r : chat_result) : res rp_error chat_result :=
  match cr_tool_calls r with
  | Some calls => if rp_max_tool_calls p <? Z.of_nat (length calls) then Err ProviderBudgetError else Ok r
  | None => Ok r
  end.

(** ** Calls *)

(** How the awaited provider call ends. *)
Inductive provider_outcome (A : Type) : Type :=
| Returned (a : A)
| Failed (code : string)
| Raised.
Arguments Returned {A} a.
Arguments Failed {A} code.
Arguments Raised {A}.

Definition chat_start (model_or_messages messages tools requested : pyval) (generated : string) (now : pyfloat)
    : M ResilientProvider rp_error string :=
  p ← gets id;
  lift (_validate_prompt p model_or_messages messages);;
  lift (_validate_tools p tools);;
  _guard requested generated now.

(** The rest of a call that was admitted; [now] is read when a failure opens
    the circuit. *)
Definition finish_call {A} (correlation : string) (o : provider_outcome A) (now : pyfloat) : M ResilientProvider rp_error A :=
  match o with
  | Returned a => _record_success;; mret a
  | Failed code => _record_failure code now;; raise (ProviderError code correlation)
  | Raised => raise OtherException
  end.

Definition chat_finish (correlation : string) (o : provider_outcome chat_result) (now : pyfloat)
    : M ResilientProvider rp_error chat_result :=
  r ← finish_call correlation o now;
  p ← gets id;
  lift (_validate_result_tool_budget p r).

Definition chat_completion (model_or_messages messages tools requested : pyval) (generated : string)
    (provider : string -> provider_outcome chat_result) (started finished : pyfloat) : M ResilientProvider rp_error chat_result :=
  correlation ← chat_start model_or_messages messages tools requested generated started;
  chat_finish correlation (provider correlation) finished.

Definition embedding_start (text requested : pyval) (generated : string) (now : pyfloat) : M ResilientProvider rp_error string :=
  p ← gets id;
  lift (match text with
        | VStr s => raise_if (is_empty (strip s) || (rp_max_embedding_chars p <? slen s)) ProviderBudgetError
        | _ => Err ProviderBudgetError
        end);;
  _guard requested generated now.

Definition get_embedding {A} (text requested : pyval) (generated : string) (provider : string -> provider_outcome A)
    (started finished : pyfloat) : M ResilientProvider rp_error A :=
  correlation ← embedding_start text requested generated started;
  finish_call correlation (provider correlation) finished.

(** [probe] is the result of the provider's own [health_check]; [None] when it
    has none or it raises. *)
Definition health_check (now : pyfloat) (probe : option pyval) : M ResilientProvider rp_error bool :=
  open ← _is_open_locked now;
  mret (negb open && match probe with Some (VBool true) => true | _ => false end).

Definition readiness_check (now : pyfloat) : M ResilientProvider rp_error bool :=
  open ← _is_open_locked now;
  mret (negb open).

(** ** Overlapping calls *)

(** A call asks to start, or one that started ends. *)
Inductive r_event : Type :=
| E_chat (model_or_messages messages tools requested : pyval) (generated : string) (now : pyfloat)
| E_embedding (text requested : pyval) (generated : string) (now : pyfloat)
| E_success
| E_failure (code : string) (now : pyfloat)
| E_raised.

Definition run_event (p : ResilientProvider) (e : r_event) : ResilientProvider :=
  match e with
  | E_chat m ms t r g now => exec (chat_start m ms t r g now) p
  | E_embedding t r g now => exec (embedding_start t r g now) p
  | E_success => exec (finish_call EmptyString (Returned tt) (Fin 0)) p
  | E_failure code now => exec (finish_call (A := unit) EmptyString (Failed code) now) p
  | E_raised => exec (finish_call (A := unit) EmptyString Raised (Fin 0)) p
  end.

Definition run_events (events : list r_event) (p : ResilientProvider) : ResilientProvider := fold_left run_event events p.

(** A start that reached the circuit and was refused by it, and one that was
    admitted to the provider. *)
Definition starts (e : r_event) (p : ResilientProvider) : option (res rp_error string) :=
  match e with
  | E_chat m ms t r g now => Some (eval (chat_start m ms t r g now) p)
  | E_embedding t r g now => Some (eval (embedding_start t r g now) p)
  | _ => None
  end.

Definition refused (e : r_event) (p : ResilientProvider) : bool :=
  match starts e p with Some (Err (ProviderError _ _)) => true | _ => false end.
Definition admitted (e : r_event) (p : ResilientProvider) : bool :=
  match starts e p with Some (Ok _) => true | _ => false end.

(** The clock reading of an event, if it reads the clock. *)
Definition reading (e : r_event) : option pyfloat :=
  match e with E_chat _ _ _ _ _ now | E_embedding _ _ _ now | E_failure _ now => Some now | _ => None end.

Definition is_success (e : r_event) : bool := match e with E_success => true | _ => false end.
Definition is_retryable_failure (e : r_event) : bool := match e with E_failure code _ => retryable code | _ => false end.
Definition failures (events : list r_event) : Z := Z.of_nat (length (List.filter is_retryable_failure events)).
