(* ===== verification/ResilienceProperties.v ===== *)
(** * The circuit opens on a streak of failures, and only then *)

From Stdlib Require Import Ascii String.
From stdpp Require Import strings.
From S2P Require Import Prelude PyFloat PyStr PyVal StateError Resilience.

Local Open Scope string_scope.
Local Open Scope Z_scope.
Local Open Scope list_scope.

(** ** The circuit and the start of a call *)

Definition same_config (p q : ResilientProvider) : Prop :=
  rp_failure_threshold q = rp_failure_threshold p /\ rp_cooldown_seconds q = rp_cooldown_seconds p.

Lemma is_open_run now p : _is_open_locked now p =
  (if fle (rp_open_until p) (Fin 0) then (p, Ok false)
   else if fle (rp_open_until p) now then (with_circuit 0 (Fin 0) p, Ok false) else (p, Ok true)).
Proof. unfold _is_open_locked. mstep. unfold id. repeat split_if; reflexivity. Qed.

Lemma guard_run requested generated now p : _guard requested generated now p =
  (if fle (rp_open_until p) (Fin 0) then (p, Ok (_correlation requested generated))
   else if fle (rp_open_until p) now then (with_circuit 0 (Fin 0) p, Ok (_correlation requested generated))
   else (p, Err (ProviderError "unavailable" (_correlation requested generated)))).
Proof. unfold _guard. unfold mbind at 1, M_bind at 1. rewrite is_open_run. repeat split_if; reflexivity. Qed.

Lemma chat_start_run m ms t r g now p : chat_start m ms t r g now p =
  match _validate_prompt p m ms with
  | Ok _ => match _validate_tools p t with Ok _ => _guard r g now p | Err e => (p, Err e) end
  | Err e => (p, Err e)
  end.
Proof. unfold chat_start. mstep. unfold id. mstep. destruct (_validate_prompt _ _ _); [mstep; destruct (_validate_tools _ _)|]; reflexivity. Qed.

(** The input check of an embedding. *)
Definition embedding_check (p : ResilientProvider) (text : pyval) : res rp_error unit :=
  match text with
  | VStr s => raise_if (is_empty (strip s) || (rp_max_embedding_chars p <? slen s)) ProviderBudgetError
  | _ => Err ProviderBudgetError
  end.

Lemma embedding_start_run t r g now p : embedding_start t r g now p =
  match embedding_check p t with Ok _ => _guard r g now p | Err e => (p, Err e) end.
Proof. unfold embedding_start. mstep. mstep. unfold id, embedding_check. destruct (match t with VStr _ => _ | _ => _ end); reflexivity. Qed.

(** A start: refused by a budget, by the circuit, or admitted, with the reset
    of an expired circuit. *)
Lemma start_cases e p : starts e p <> None -> exists now, reading e = Some now /\ (
  (run_event p e = p /\ admitted e p = false /\ refused e p = false)
  \/ (fle (rp_open_until p) (Fin 0) = true /\ run_event p e = p /\ admitted e p = true /\ refused e p = false)
  \/ (fle (rp_open_until p) (Fin 0) = false /\ fle (rp_open_until p) now = true
      /\ run_event p e = with_circuit 0 (Fin 0) p /\ admitted e p = true /\ refused e p = false)
  \/ (fle (rp_open_until p) (Fin 0) = false /\ fle (rp_open_until p) now = false
      /\ run_event p e = p /\ admitted e p = false /\ refused e p = true)).
Proof.
  intros Hs. destruct e as [m ms t r g now | t r g now | | |]; try contradiction; exists now; (split; [reflexivity|]);
    unfold admitted, refused, starts, run_event, exec, eval.
  - rewrite chat_start_run. destruct (_validate_prompt p m ms) as [u|er] eqn:Ep.
    + destruct (_validate_tools p t) as [u'|er] eqn:Et.
      * rewrite guard_run. destruct (fle (rp_open_until p) (Fin 0)), (fle (rp_open_until p) now); cbn; auto 10.
      * left. assert (er = ProviderBudgetError) as -> by (unfold _validate_tools in Et; destruct t; try discriminate;
          try (injection Et as <-; reflexivity); apply raise_if_Err in Et as [_ <-]; reflexivity). cbn. auto.
    + left. assert (er = ProviderBudgetError) as ->; [|cbn; auto].
      unfold _validate_prompt in Ep. cbv zeta in Ep. destruct (if is_none ms then _ else ms); try (injection Ep as <-; reflexivity).
      apply bind_Err in Ep as [Ep | (u & _ & Ep)]; apply raise_if_Err in Ep as [_ <-]; reflexivity.
  - rewrite embedding_start_run. destruct (embedding_check p t) as [u|er] eqn:Et.
    + rewrite guard_run. destruct (fle (rp_open_until p) (Fin 0)), (fle (rp_open_until p) now); cbn; auto 10.
    + left. assert (er = ProviderBudgetError) as -> by (unfold embedding_check in Et; destruct t; try (injection Et as <-; reflexivity);
        apply raise_if_Err in Et as [_ <-]; reflexivity). cbn. auto.
Qed.

Lemma failure_run code now p : run_event p (E_failure code now) =
  if retryable code
  then with_circuit (rp_consecutive_failures p + 1)
         (if rp_failure_threshold p <=? rp_consecutive_failures p + 1 then fadd now (rp_cooldown_seconds p) else rp_open_until p) p
  else p.
Proof. unfold run_event, finish_call, _record_failure, exec. destruct (retryable code); reflexivity. Qed.

Lemma failures_app l1 l2 : failures (l1 ++ l2) = failures l1 + failures l2.
Proof. unfold failures. rewrite List.filter_app, length_app. lia. Qed.

Lemma failures_nonneg l : 0 <= failures l.
Proof. unfold failures. lia. Qed.

(** ** Every refusal has a streak behind it *)

Definition streak (p : ResilientProvider) (history : list r_event) : Prop :=
  exists before after, history = before ++ after /\ forallb (fun e => negb (is_success e)) after = true
  /\ rp_consecutive_failures p = failures after
  /\ (fle (rp_open_until p) (Fin 0) = true
      \/ (rp_failure_threshold p <= failures after
          /\ exists code t, In (E_failure code t) after /\ retryable code = true
             /\ rp_open_until p = fadd t (rp_cooldown_seconds p))).

Lemma streak_reset p history : streak (with_circuit 0 (Fin 0) p) history.
Proof. exists history, []. rewrite app_nil_r. split_and!; try reflexivity. left. reflexivity. Qed.

Lemma streak_same p history e : is_success e = false -> is_retryable_failure e = false -> streak p history -> streak p (history ++ [e]).
Proof.
  intros Hs Hf (before & after & -> & Hn & Hc & Ho). exists before, (after ++ [e]). rewrite app_assoc, forallb_app, Hn. cbn. rewrite Hs.
  assert (failures (after ++ [e]) = failures after) as Hfa by (rewrite failures_app; unfold failures at 2; cbn; rewrite Hf; cbn; lia).
  rewrite Hfa. split_and!; auto. destruct Ho as [|(Ht & code & t & Hin & Hr & Hu)]; [auto|]. right. split; [exact Ht|].
  exists code, t. split_and!; auto. apply in_or_app. auto.
Qed.

Lemma run_event_streak p history e : streak p history -> same_config p (run_event p e) /\ streak (run_event p e) (history ++ [e]).
Proof.
  intros Hst. destruct (starts e p) as [o|] eqn:Es.
  - assert (is_success e = false /\ is_retryable_failure e = false) as [H1 H2] by (destruct e; try discriminate Es; auto).
    destruct (start_cases e p) as (now & _ & H); [congruence|].
    destruct H as [(-> & _) | [(_ & -> & _) | [(_ & _ & -> & _) | (_ & _ & -> & _)]]];
      (split; [split; reflexivity|]); auto using streak_same, streak_reset.
  - destruct e as [ | | | code now | ]; try discriminate Es.
    + split; [split; reflexivity | apply streak_reset].
    + rewrite failure_run. destruct (retryable code) eqn:Er.
      * split; [split; reflexivity|]. destruct Hst as (before & after & -> & Hn & Hc & Ho).
        exists before, (after ++ [E_failure code now]). rewrite app_assoc, forallb_app, Hn. cbn [rp_consecutive_failures rp_open_until with_circuit].
        assert (failures (after ++ [E_failure code now]) = failures after + 1) as ->
          by (rewrite failures_app; unfold failures at 2; cbn; rewrite Er; reflexivity).
        split_and!; [reflexivity | reflexivity | lia |]. cbn [rp_failure_threshold rp_cooldown_seconds with_circuit].
        destruct (rp_failure_threshold p <=? rp_consecutive_failures p + 1) eqn:El; bool_to_prop.
        -- right. split; [lia|]. exists code, now. split_and!; auto. apply in_or_app. right. now left.
        -- destruct Ho as [|(Ht & code' & t & Hin & Hr & Hu)]; [auto|]. lia.
      * split; [split; reflexivity|]. apply streak_same; auto.
    + split; [split; reflexivity|]. apply streak_same; auto.
Qed.

Lemma run_events_streak events p history : streak p history ->
  same_config p (run_events events p) /\ streak (run_events events p) (history ++ events).
Proof.
  revert p history. induction events as [|e events IH]; intros p history Hst.
  - rewrite app_nil_r. split; [split; reflexivity | exact Hst].
  - destruct (run_event_streak p history e Hst) as [[H1 H2] Hst']. destruct (IH _ _ Hst') as [[H3 H4] H5].
    rewrite <- app_assoc in H5. split; [|exact H5]. split; unfold run_events in *; cbn [fold_left]; congruence.
Qed.

(** ** A streak opens the circuit for the whole cooldown *)

Section isolation.
Context (p0 : ResilientProvider) (a c : Z).
Hypothesis Hcool : rp_cooldown_seconds p0 = Fin c.
Local Notation deadline := (fadd (Fin a) (Fin c)).
Hypothesis Hpos : fle deadline (Fin 0) = false.

(** A clock reading within a cooldown of [a]. *)
Definition soon (e : r_event) : Prop :=
  match reading e with Some now => exists m, now = Fin m /\ a <= m /\ fle deadline (Fin m) = false | None => True end.

(** Since [p0], which was closed: the count is the failures so far, and once
    open the circuit stays open to the deadline. *)
Record isolating (p : ResilientProvider) (events : list r_event) : Prop := {
  is_config : same_config p0 p;
  is_count : rp_consecutive_failures p = rp_consecutive_failures p0 + failures events;
  is_until : fle (rp_open_until p) (Fin 0) = true \/ fle deadline (rp_open_until p) = true;
  is_tripped : rp_failure_threshold p0 <= rp_consecutive_failures p -> failures events <> 0 -> fle deadline (rp_open_until p) = true }.

Lemma until_later u m : fle deadline u = true -> fle deadline (Fin m) = false -> fle u (Fin m) = false.
Proof. intros H1 H2. destruct (fle u (Fin m)) eqn:E; [|reflexivity]. rewrite (fle_trans _ _ _ H1 E) in H2. discriminate. Qed.

Lemma until_positive u : fle deadline u = true -> fle u (Fin 0) = false.
Proof. intros H. destruct (fle u (Fin 0)) eqn:E; [|reflexivity]. rewrite (fle_trans _ _ _ H E) in Hpos. discriminate. Qed.

Lemma isolating_same p events e : is_retryable_failure e = false -> isolating p events -> isolating p (events ++ [e]).
Proof.
  intros Hf [H1 H2 H3 H4].
  assert (failures (events ++ [e]) = failures events) as Hfa by (rewrite failures_app; unfold failures at 2; cbn; rewrite Hf; cbn; lia).
  constructor; rewrite ?Hfa; assumption.
Qed.

Lemma run_event_isolating p events e : is_success e = false -> soon e -> isolating p events -> isolating (run_event p e) (events ++ [e]).
Proof.
  intros Hs Hsoon Hi. destruct (starts e p) as [o|] eqn:Es.
  - assert (is_retryable_failure e = false) as Hf by (destruct e; try discriminate Es; auto).
    destruct (start_cases e p) as (now & Hr & H); [congruence|]. unfold soon in Hsoon. rewrite Hr in Hsoon.
    destruct Hsoon as (m & -> & _ & Hm).
    destruct H as [(-> & _) | [(_ & -> & _) | [(Hu & Hn & _) | (_ & _ & -> & _)]]]; try (apply isolating_same; assumption).
    exfalso. destruct (is_until _ _ Hi) as [H|H]; [congruence|]. rewrite (until_later _ _ H Hm) in Hn. discriminate.
  - destruct e as [ | | | code now | ]; try discriminate.
    + rewrite failure_run. destruct (retryable code) eqn:Er; [|apply isolating_same; assumption].
      destruct Hsoon as (m & -> & Ha & _). destruct Hi as [[H1 H1'] H2 H3 H4].
      assert (failures (events ++ [E_failure code (Fin m)]) = failures events + 1) as Hfa
        by (rewrite failures_app; unfold failures at 2; cbn; rewrite Er; reflexivity).
      assert (fle deadline (fadd (Fin m) (rp_cooldown_seconds p)) = true) as Hd by (rewrite H1', Hcool; apply fadd_mono; lia).
      constructor; rewrite ?Hfa; cbn [rp_consecutive_failures rp_open_until with_circuit].
      * split; assumption.
      * lia.
      * split_if; auto.
      * intros Ht _. rewrite H1. rewrite (proj2 (Z.leb_le _ _) Ht). exact Hd.
    + apply isolating_same; auto.
Qed.

Lemma run_events_isolating more : forall p events, Forall (fun e => is_success e = false /\ soon e) more ->
  isolating p events -> isolating (run_events more p) (events ++ more).
Proof.
  induction more as [|e more IH]; intros p events Hm Hi; [rewrite app_nil_r; exact Hi|].
  inversion Hm as [|? ? [Hs Hsoon] Hrest]; subst. specialize (IH _ _ Hrest (run_event_isolating p events e Hs Hsoon Hi)).
  rewrite <- app_assoc in IH. exact IH.
Qed.
End isolation.

(** The cooldown after a time that is not negative ends after time zero. *)
Lemma deadline_positive a f : 0 <= a -> fle (lit 1 10) (Fin f) = true -> fle (fadd (Fin a) (Fin f)) (Fin 0) = false.
Proof.
  intros Ha Hf. destruct (fle (fadd (Fin a) (Fin f)) (Fin 0)) eqn:E; [|reflexivity]. exfalso.
  assert (exists t, lit 1 10 = Fin t) as [t Ht] by (eexists; vm_compute; reflexivity).
  assert (0 < t) as Hpos by (assert (flt (Fin 0) (lit 1 10) = true) as H by (vm_compute; reflexivity); rewrite Ht in H; apply Z.ltb_lt, H).
  assert (fadd (Fin 0) (Fin t) = Fin t) as Hid by (rewrite <- Ht; vm_compute; reflexivity).
  rewrite Ht in Hf. assert (fle (Fin t) (fadd (Fin a) (Fin f)) = true) as Hm.
  { rewrite <- Hid. apply fadd_mono; [exact Ha | apply Z.leb_le, Hf]. }
  pose proof (fle_trans _ _ _ Hm E) as H. apply Z.leb_le in H. lia.
Qed.

(** ** Properties *)

Definition closed (p : ResilientProvider) : Prop := fle (rp_open_until p) (Fin 0) = true.


Definition sample_provider : ResilientProvider := mk_provider 2 (lit 30 1) 64 100000 1000000 32 0 (Fin 0).
Definition sample_failures : list r_event := [E_failure "timeout" (lit 1 1); E_raised; E_failure "server_error" (lit 2 1)].
Definition sample_start : r_event := E_embedding (VStr "text") VNone "gen" (lit 20 1).

