(* ===== verification/LeaseClientProperties.v ===== *)
(** * What lease handles guarantee *)

From Stdlib Require Import Ascii String.
From stdpp Require Import strings gmap.
From S2P Require Import Prelude PyFloat PyStr PyVal Leases LeaseProperties LeaseClient.

Local Open Scope Z_scope.

(** ** The life of a handle *)

Inductive handle_op : Type :=
| H_renew (ttl_ms : option pyval) (correlation_id : pyval) (generated : string)
| H_release (correlation_id : pyval) (generated : string).

Section handle.
Context {B : Type} `{RawBackend B} (self : nat).

Definition handle_do (op : handle_op) (h : LeaseHandle) (b : B) : lres bool * LeaseHandle * B :=
  match op with
  | H_renew ttl corr g => handle_renew self h ttl corr g b
  | H_release corr g => handle_release self h corr g b
  end.

(** A sequence of method calls with their results. *)
Fixpoint handle_trace (ops : list handle_op) (h : LeaseHandle) (b : B)
    : list (handle_op * lres bool) * LeaseHandle * B :=
  match ops with
  | [] => ([], h, b)
  | op :: ops' =>
      let '(r, h1, b1) := handle_do op h b in
      let '(rs, h2, b2) := handle_trace ops' h1 b1 in
      ((op, r) :: rs, h2, b2)
  end.

Definition is_release_true (x : handle_op * lres bool) : bool :=
  match x with (H_release _ _, Ok true) => true | _ => false end.
Definition is_true_result (x : handle_op * lres bool) : bool :=
  match snd x with Ok true => true | _ => false end.

(** What one call does to the flags of a handle. *)
Lemma handle_do_flags op h b r h' b' : handle_do op h b = (r, h', b') ->
  h_key h' = h_key h /\ h_owner h' = h_owner h /\ h_client h' = h_client h
  /\ (h_released h = true -> h' = h /\ b' = b /\ r = Ok false)
  /\ (h_lost h = true -> h_lost h' = true)
  /\ (h_lost h = true -> match op with H_renew _ _ _ => h' = h /\ b' = b /\ r = Ok false | _ => True end)
  /\ (is_release_true (op, r) = true -> h_released h' = true).
Proof.
  destruct op as [ttl corr g|corr g]; cbn [handle_do].
  - unfold handle_renew. destruct (h_released h) eqn:Er; cbn [orb].
    { intros [= <- <- <-]. repeat split; auto; discriminate. }
    destruct (h_lost h) eqn:El.
    { intros [= <- <- <-]. repeat split; auto; discriminate. }
    destruct (_renew_handle _ _ _ _ _ _) as [[[]|e] b1]; intros [= <- <- <-]; cbn; rewrite ?Er, ?El;
      repeat split; intros; try discriminate.
  - unfold handle_release. destruct (h_released h) eqn:Er.
    { intros [= <- <- <-]. repeat split; auto. }
    destruct (_release_handle _ _ _ _ _) as [[[]|e] b1]; intros [= <- <- <-]; cbn; rewrite ?Er;
      repeat split; intros; try discriminate; auto.
Qed.

Lemma handle_trace_released ops : forall h b rs h' b',
  handle_trace ops h b = (rs, h', b') -> h_released h = true ->
  h' = h /\ b' = b /\ List.filter is_true_result rs = [].
Proof.
  induction ops as [|op ops IH]; intros h b rs h' b' E Hr; cbn in E; [injection E as <- <- <-; auto|].
  destruct (handle_do op h b) as [[r h1] b1] eqn:E1.
  destruct (handle_trace ops h1 b1) as [[rs' h2] b2] eqn:E2. injection E as <- <- <-.
  apply handle_do_flags in E1 as (_ & _ & _ & E1 & _). destruct (E1 Hr) as (-> & -> & ->).
  destruct (IH _ _ _ _ _ E2 Hr) as (-> & -> & Hf). auto.
Qed.

Lemma release_true_is_true x : is_release_true x = true -> is_true_result x = true.
Proof. destruct x as [[] [[]|]]; cbn; congruence. Qed.
End handle.

(** A handle only moves towards its end, whatever its backend answers or
    raises: over any sequence of calls it keeps its key and owner, never
    becomes active again, is released with success at most once, and once
    released its calls answer [False] without touching the backend. *)
Theorem lease_handle_one_way (B : Type) `{RawBackend B} self ops h b rs h' b' :
  handle_trace self ops h b = (rs, h', b') ->
  h_key h' = h_key h /\ h_owner h' = h_owner h
  /\ (handle_active h' = true -> handle_active h = true)
  /\ (length (List.filter is_release_true rs) <= 1)%nat
  /\ (h_released h = true -> h' = h /\ b' = b /\ forall x, In x rs -> is_true_result x = false).
Proof.
  revert h b rs. induction ops as [|op ops IH]; intros h b rs E; cbn in E.
  { injection E as <- <- <-. cbn. repeat split; auto. intros x []. }
  destruct (handle_do self op h b) as [[r h1] b1] eqn:E1.
  destruct (handle_trace self ops h1 b1) as [[rs' h2] b2] eqn:E2. injection E as <- <- <-.
  destruct (IH _ _ _ E2) as (Hk & Ho & Ha & Hc & Hr).
  pose proof (handle_do_flags self op h b r h1 b1 E1) as (Hk1 & Ho1 & _ & Hr1 & Hl1 & _ & Ht1).
  split; [congruence|]. split; [congruence|]. split; [|split].
  - intros Hact. specialize (Ha Hact). unfold handle_active in *.
    apply andb_true_iff in Ha as [Ha1 Ha2]. apply negb_true_iff in Ha1, Ha2.
    apply andb_true_iff; split; apply negb_true_iff; apply not_true_is_false; intros Hx.
    + destruct (Hr1 Hx) as (-> & _). congruence.
    + specialize (Hl1 Hx). congruence.
  - cbn [List.filter]. destruct (is_release_true (op, r)) eqn:Et; [|exact Hc].
    destruct (handle_trace_released self ops _ _ _ _ _ E2 (Ht1 eq_refl)) as (_ & _ & Hf).
    replace (List.filter is_release_true rs') with (@nil (handle_op * lres bool)); [cbn; lia|].
    symmetry.
    destruct (List.filter is_release_true rs') as [|x l] eqn:Ex; [reflexivity|exfalso].
    assert (In x (List.filter is_release_true rs')) as Hin by (rewrite Ex; now left).
    apply filter_In in Hin as [Hin Hx]. apply release_true_is_true in Hx.
    assert (In x (List.filter is_true_result rs')) as Hin' by (now apply filter_In).
    rewrite Hf in Hin'. destruct Hin'.
  - intros Hrel. destruct (Hr1 Hrel) as (-> & -> & ->). destruct (Hr Hrel) as (-> & -> & Hall).
    repeat split. intros x [<-|Hx]; [reflexivity | auto].
Qed.

(** ** Clients over a lawful backend *)

(** A lawful backend as the client sees it, with the clock in its state. *)
#[export] Instance clocked (S : Type) `{LeaseBackend S} : RawBackend (pyfloat * S) := {
  raw_acquire k o ttl _ ns := let '(b, s') := lb_acquire (fst ns) k o ttl (snd ns) in (Returned (VBool b), (fst ns, s'));
  raw_renew k o ttl _ ns := let '(b, s') := lb_renew (fst ns) k o ttl (snd ns) in (Returned (VBool b), (fst ns, s'));
  raw_release k o _ ns := let '(b, s') := lb_release (fst ns) k o (snd ns) in (Returned (VBool b), (fst ns, s')) }.

Section lawful.
Context {S : Type} `{LeaseLaws S} (self : nat).

Lemma validate_ttl_Ok v op corr n : validate_ttl v op corr = Ok n -> v = VInt n /\ 0 < n <= MAX_TTL_MS.
Proof.
  destruct v; cbn; try discriminate. destruct (_ && _) eqn:E; [|discriminate].
  intros [= <-]. bool_to_prop. auto.
Qed.

Lemma client_acquire_owner key ttl cid g f now (s : S) h now' s' :
  clock_ok now -> client_acquire self key ttl cid g f (now, s) = (Ok (Some h), (now', s')) ->
  now' = now /\ lb_owner s' now (h_key h) = Some (h_owner h) /\ lb_owner s now (h_key h) = None.
Proof.
  intros Hc. unfold client_acquire.
  match goal with |- context [match ?m with _ => _ end = _] => destruct m as [[[[k o] n] corr]|e] eqn:E end; [|discriminate].
  apply bind_Ok in E as (c & _ & E). apply bind_Ok in E as (k' & _ & E). apply bind_Ok in E as (n' & Hn & E).
  destruct f as [fo|]; [|discriminate]. apply bind_Ok in E as (o' & _ & [= <- <- <- <-]).
  apply validate_ttl_Ok in Hn as [_ Hn]. cbn [raw_acquire clocked fst snd].
  destruct (lb_acquire now k' o' n' s) as [[] s1] eqn:Ea; cbn; [|discriminate].
  intros [= <- <- <-]. cbn. split; [reflexivity|].
  pose proof (acquire_granted s now k' o' n' Hc Hn) as Hg. pose proof (acquire_free s now k' o' n') as Hfr.
  rewrite Ea in *. cbn in *. split; [now apply Hg | now apply Hfr].
Qed.

Lemma handle_renew_owner h ttl cid g now (s : S) h' now' s' :
  clock_ok now -> handle_renew self h ttl cid g (now, s) = (Ok true, h', (now', s')) ->
  now' = now /\ lb_owner s now (h_key h) = Some (h_owner h) /\ lb_owner s' now (h_key h) = Some (h_owner h).
Proof.
  intros Hc. unfold handle_renew. destruct (_ || _); [discriminate|]. unfold _renew_handle.
  match goal with |- context [match ?m with _ => _ end = _] => idtac end.
  destruct (corr ← _; _) as [[n corr]|e] eqn:E; [|discriminate].
  apply bind_Ok in E as (c & _ & E). apply bind_Ok in E as (u & _ & E). apply bind_Ok in E as (n' & Hn & [= <- <-]).
  apply validate_ttl_Ok in Hn as [_ Hn]. cbn [raw_renew clocked fst snd].
  destruct (lb_renew now (h_key h) (h_owner h) n' s) as [[] s1] eqn:Ea; cbn; [|discriminate].
  intros [= <- <- <-]. split; [reflexivity|].
  pose proof (renew_granted s now (h_key h) (h_owner h) n' Hc Hn) as Hg.
  pose proof (renew_owned s now (h_key h) (h_owner h) n') as Ho.
  rewrite Ea in *. cbn in *. split; [now apply Ho | now apply Hg].
Qed.

Lemma handle_release_owner h cid g now (s : S) h' now' s' :
  handle_release self h cid g (now, s) = (Ok true, h', (now', s')) ->
  lb_owner s now (h_key h) = Some (h_owner h).
Proof.
  unfold handle_release. destruct (h_released h); [discriminate|]. unfold _release_handle.
  destruct (corr ← _; _) as [corr|e] eqn:E; [|discriminate]. cbn [raw_release clocked fst snd].
  destruct (lb_release now (h_key h) (h_owner h) s) as [[] s1] eqn:Ea; cbn; [|discriminate].
  intros _. pose proof (release_owned s now (h_key h) (h_owner h)) as Ho. rewrite Ea in Ho. now apply Ho.
Qed.
End lawful.

Definition sample_acquire : lres (option LeaseHandle) * (pyfloat * store) :=
  client_acquire 0%nat (VStr "job:1") (VInt 1000) VNone "c0" (Some (VStr "owner-a")) (lit 5 1, ∅).

Definition sample_handle : LeaseHandle :=
  {| h_client := 0; h_key := "job:1"; h_owner := "owner-a"; h_ttl_ms := 1000; h_correlation_id := "c0";
     h_released := false; h_lost := false |}.

Lemma sample_acquired : fst sample_acquire = Ok (Some sample_handle).
Proof. vm_compute. reflexivity. Qed.

Lemma lease_handle_one_way_witness :
  exists rs h' b',
    handle_trace 0%nat [H_release VNone "c1"; H_renew None VNone "c2"; H_release VNone "c3"]
      sample_handle (snd sample_acquire) = (rs, h', b')
    /\ List.map snd rs = [Ok true; Ok false; Ok false]
    /\ (length (List.filter is_release_true rs) <= 1)%nat.
Proof.
  destruct (handle_trace 0%nat [H_release VNone "c1"; H_renew None VNone "c2"; H_release VNone "c3"]
      sample_handle (snd sample_acquire)) as [[rs h'] b'] eqn:E.
  exists rs, h', b'. split; [reflexivity|]. split.
  - apply (f_equal (fun x => List.map snd (fst (fst x)))) in E. cbn [fst] in E. rewrite <- E.
    vm_compute. reflexivity.
  - apply (lease_handle_one_way _ _ _ _ _ _ _ _ E).
Defined.


Lemma sample_clock : clock_ok (lit 5 1).
Proof.
  exists (5 * scale). split; [vm_compute; reflexivity|]. split.
  - apply (representable_is_double 5 1074); lia.
  - split; [vm_compute; discriminate | vm_compute; reflexivity].
Qed.

