(* ===== verification/PyNumber.v ===== *)
(** * Numbers from Python objects, and scanning of text

    [float(value)] on any object, the text it accepts included; and the
    left-to-right scans of [re.findall] and [re.sub] for a given matcher. *)

From Stdlib Require Import Ascii String.
From stdpp Require Import strings list.
From S2P Require Import Prelude PyFloat PyStr PyVal.

Local Open Scope string_scope.
Local Open Scope Z_scope.
Local Open Scope list_scope.

(** ** [float(value)] *)

(** A run of digits; an underscore may stand between two of them.  The value
    read on to [acc], the number of digits, and the rest. *)
Fixpoint digit_run (acc count : Z) (s : string) : Z * Z * string :=
  match s with
  | String c s' =>
      if is_digit c then digit_run (acc * 10 + (code c - 48)) (count + 1) s'
      else if is_char 95 c && (0 <? count) && match s' with String d _ => is_digit d | EmptyString => false end
      then digit_run acc count s'
      else (acc, count, s)
  | EmptyString => (acc, count, s)
  end.

Definition split_sign (s : string) : bool * string :=
  match s with
  | String c s' => if is_char 45 c then (true, s') else if is_char 43 c then (false, s') else (false, s)
  | EmptyString => (false, s)
  end.

(** [m * 10 ^ e]. *)
Definition decimal_float (m e : Z) : pyfloat :=
  if e <? 0 then to_float (m * scale) (10 ^ (- e)) else to_float (m * 10 ^ e * scale) 1.

(** The text after the mantissa: nothing, or an exponent to the end. *)
Definition exponent (s : string) : option Z :=
  match s with
  | EmptyString => Some 0
  | String c s' =>
      if is_char 101 c then
        let '(neg, r) := split_sign s' in
        let '(e, n, rest) := digit_run 0 0 r in
        if (0 <? n) && is_empty rest then Some (if neg then - e else e) else None
      else None
  end.

Definition float_of_str (text : string) : option pyfloat :=
  let '(neg, s) := split_sign (lower (strip text)) in
  let signed := fun x => if neg then fneg x else x in
  if str_in s ["inf"; "infinity"] then Some (signed (Inf false))
  else if str_eqb s "nan" then Some NaN
  else
    let '(i, ni, r) := digit_run 0 0 s in
    let '(m, nf, r) :=
      match r with
      | String c r' => if is_char 46 c then digit_run i 0 r' else (i, 0, r)
      | EmptyString => (i, 0, r)
      end in
    if ni + nf =? 0 then None
    else option_map (fun e => signed (decimal_float m (e - nf))) (exponent r).

(** [float(value)]. *)
Definition py_float (v : pyval) : float_call :=
  match v with
  | VBool b => FloatOk (Fin ((if b then 1 else 0) * scale))
  | VInt n => match float_of_int n with Some f => FloatOk f | None => FloatOverflow end
  | VFloat f => FloatOk f
  | VStr s => match float_of_str s with Some f => FloatOk f | None => FloatInvalid end
  | VNone | VList _ | VDict _ => FloatInvalid
  end.

Example float_of_str_ex1 : float_of_str " -1_0.5e1 " = Some (lit (-105) 1).
Proof. vm_compute. reflexivity. Qed.
Example float_of_str_ex2 : map float_of_str ["1_"; "._5"; "e5"; "."; "1e"; "Infinity"; ".5"] =
  [None; None; None; None; None; Some (Inf false); Some (lit 1 2)].
Proof. vm_compute. reflexivity. Qed.

(** ** Scans *)

(** The longest prefix of characters in [P], and the rest. *)
Fixpoint span (P : ascii -> bool) (s : string) : string * string :=
  match s with
  | EmptyString => (EmptyString, EmptyString)
  | String c s' => if P c then let '(a, b) := span P s' in (String c a, b) else (EmptyString, s)
  end.

(** The rest of [s] behind the literal [p]. *)
Fixpoint drop_prefix (p s : string) : option string :=
  match p, s with
  | EmptyString, _ => Some s
  | String c p', String d s' => if Ascii.eqb c d then drop_prefix p' s' else None
  | String _ _, EmptyString => None
  end.

Fixpoint sdrop (n : nat) (s : string) : string :=
  match n, s with S n', String _ s' => sdrop n' s' | _, _ => s end.

(** [sep.join(l)]. *)
Fixpoint join (sep : string) (l : list string) : string :=
  match l with
  | [] => EmptyString
  | [w] => w
  | w :: l' => w +:+ sep +:+ join sep l'
  end.

Section scan.
(** A match at the start of a text: the captured group and the text behind the
    match, which is not empty. *)
Context (match_at : string -> option (string * string)).

(** The characters still covered by the last match. *)
Definition covered (s' rest : string) : nat := String.length s' - String.length rest.

Fixpoint findall_from (skip : nat) (s : string) : list string :=
  match s with
  | EmptyString => []
  | String c s' =>
      match skip with
      | S k => findall_from k s'
      | O => match match_at s with
             | Some (g, rest) => g :: findall_from (covered s' rest) s'
             | None => findall_from O s'
             end
      end
  end.

Fixpoint sub_from (repl : string) (skip : nat) (s : string) : string :=
  match s with
  | EmptyString => EmptyString
  | String c s' =>
      match skip with
      | S k => sub_from repl k s'
      | O => match match_at s with
             | Some (_, rest) => repl +:+ sub_from repl (covered s' rest) s'
             | None => String c (sub_from repl O s')
             end
      end
  end.

(** [re.findall] and [re.sub]. *)
Definition findall (s : string) : list string := findall_from O s.
Definition re_sub (repl s : string) : string := sub_from repl O s.
End scan.
