(* ===== verification/Professor.v ===== *)
(** * Citations and responses of the Professor (packages/professor, orchestration.py)

    The citation markers of a completion, the gate on them, and the responses:
    refusals with fixed texts, and the approved answer. *)

From Stdlib Require Import Ascii String.
From stdpp Require Import strings list.
From S2P Require Import Prelude PyFloat PyStr PyVal PyNumber ProfessorModels.

Local Open Scope string_scope.
Local Open Scope Z_scope.
Local Open Scope list_scope.

(** ** Citation markers *)

Definition id_tail (c : ascii) : bool := is_alnum_az c || one_of "_.:-" c.

(** At the start of a text: [cite:], a letter or digit, at most 127 characters
    of an identifier, and the closing bracket. *)
Definition _CITATION_MARKER (s : string) : option (string * string) :=
  match drop_prefix "[cite:" s with
  | Some (String c r) =>
      if is_alnum_az c then
        let '(tail, rest) := span id_tail r in
        match rest with
        | String d rest' => if (slen tail <=? 127) && is_char 93 d then Some (String c tail, rest') else None
        | EmptyString => None
        end
      else None
  | _ => None
  end.

(** At the start of a text: the literal [p], anything but a closing bracket,
    and the closing bracket. *)
Definition bracketed (p s : string) : option (string * string) :=
  match drop_prefix p s with
  | Some r =>
      let '(inner, rest) := span (fun c => negb (is_char 93 c)) r in
      match rest with String _ rest' => Some (inner, rest') | EmptyString => None end
  | None => None
  end.

(** The same behind [cite:] or [citation:]. *)
Definition _ANY_CITATION_MARKER (s : string) : option (string * string) :=
  match bracketed "[cite:" s with Some m => Some m | None => bracketed "[citation:" s end.

(** Two or more blanks or tabs. *)
Definition blanks (s : string) : option (string * string) :=
  let '(b, rest) := span (fun c => is_char 32 c || is_char 9 c) s in
  if 2 <=? slen b then Some (b, rest) else None.

Definition _NO_EVIDENCE_ANSWER := "I do not have authorized source material to answer this request.".
Definition _WEAK_EVIDENCE_ANSWER := "I found only weak authorized evidence, so I cannot provide a grounded answer.".
Definition _INVALID_CITATION_ANSWER := "I could not verify the source references in the generated response.".
Definition _GENERATION_FAILED_ANSWER := "I could not generate a grounded response right now.".

(** The evidence an identifier names: the last one wins, as in a dict. *)
Definition by_id (evidence : list TrustedEvidence) (marker : string) : option TrustedEvidence :=
  List.find (fun e => str_eqb (te_evidence_id e) marker) (rev evidence).

(** The citations of the markers, each evidence once. *)
Fixpoint cited (evidence : list TrustedEvidence) (markers seen : list string) : list Citation :=
  match markers with
  | [] => []
  | marker :: markers' =>
      if str_in marker seen then cited evidence markers' seen
      else match by_id evidence marker with
           | Some e => citation e :: cited evidence markers' (marker :: seen)
           | None => cited evidence markers' (marker :: seen)
           end
  end.

(** The answer without its markers. *)
Definition strip_markers (raw_answer : string) : string :=
  let answer := re_sub _CITATION_MARKER EmptyString raw_answer in
  let answer := re_sub (bracketed "[citation:") EmptyString answer in
  strip (re_sub blanks " " answer).

Definition _citations (limits : ProfessorLimits) (content : string) (evidence : list TrustedEvidence)
    : string * list Citation * bool :=
  let raw_answer := strip content in
  let all_markers := findall _ANY_CITATION_MARKER raw_answer in
  let markers := findall _CITATION_MARKER raw_answer in
  if (length markers =? 0)%nat || negb (length all_markers =? length markers)%nat
     || existsb (fun m => match by_id evidence m with None => true | Some _ => false end) markers
  then (_INVALID_CITATION_ANSWER, [], true)
  else
    let answer := cut (max_answer_chars limits) (strip_markers raw_answer) in
    (if is_empty answer then "The available source material supports the cited information." else answer,
     cited evidence markers [], false).

(** ** Responses *)

Definition set_all (updates : list (string * pyval)) (m : Metadata) : Metadata :=
  fold_left (fun m kv => dict_set (fst kv) (snd kv) m) updates m.

Definition count_of {A} (l : list A) : pyval := VInt (Z.of_nat (length l)).

(** A decision to answer that did not lead to an answer. *)
Definition withdrawn (reason : string) (m : Metadata) : Metadata :=
  if is_str (dict_read "decision_action" m) "ANSWER"
  then set_all [("decision_action", VStr "ABSTAIN"); ("decision_reason", VStr reason)] m else m.

(** The fixed text of a refusal that has a decision behind it. *)
Definition decision_answer (m : Metadata) (answer : string) : string :=
  match dict_read "decision_action" m with
  | VStr action =>
      if str_eqb action "ASK_FOR_CLARIFICATION" then "Please clarify which document operation you need help with."
      else if str_eqb action "ESCALATE" then "This request requires additional review before an answer can be generated."
      else if str_eqb action "ABSTAIN" then "I cannot provide a grounded answer to this request under the current policy and available sources."
      else answer
  | _ => answer
  end.

Definition _static (limits : ProfessorLimits) (request : ProfessorRequest) (status : EvidenceStatus) (answer : string)
    (evidence : list TrustedEvidence) (metadata : Metadata) : res prof_error ProfessorResponse :=
  let answer := if decide (status = NO_EVIDENCE) then decision_answer metadata answer else answer in
  ProfessorResponse_new (pr_conversation_id request) (cut (max_answer_chars limits) answer) status []
    (map response_dict evidence) (set_all [("evidence_count", count_of evidence)] metadata).

Definition _failed (limits : ProfessorLimits) (request : ProfessorRequest) (stage : string)
    (evidence : list TrustedEvidence) (metadata : Metadata) : res prof_error ProfessorResponse :=
  ProfessorResponse_new (pr_conversation_id request) (cut (max_answer_chars limits) _GENERATION_FAILED_ANSWER)
    GENERATION_FAILED [] (map response_dict evidence)
    (set_all [("failure_stage", VStr stage); ("evidence_count", count_of evidence)]
       (withdrawn "generation_not_completed" metadata)).

(** The budget a failure names. *)
Definition budget_stage (e : prof_error) (otherwise : string) : string :=
  match e with BudgetExceeded name => name +:+ "_budget_exceeded" | _ => otherwise end.

Definition _completion_response (limits : ProfessorLimits) (request : ProfessorRequest)
    (completion : ChatCompletionResult) (messages : list ProviderMessage) (evidence : list TrustedEvidence)
    (metadata : Metadata) (pending_tool_calls : bool) : res prof_error ProfessorResponse :=
  let failed := fun stage => _failed limits request stage evidence metadata in
  if negb (bool_decide (cc_finish_reason completion = F_stop))
     || negb (length (cc_tool_calls completion) =? 0)%nat || pending_tool_calls then failed "completion_incomplete"
  else if negb (_completion_within_token_budget completion messages (max_tokens limits)) then failed "token_budget_exceeded"
  else if max_answer_chars limits <? slen (strip (re_sub _CITATION_MARKER EmptyString (cc_content completion)))
  then failed "answer_budget_exceeded"
  else
    let '(answer, citations, invalid) := _citations limits (cc_content completion) evidence in
    if invalid : bool then
      _static limits request CITATION_INVALID _INVALID_CITATION_ANSWER evidence (withdrawn "citation_invalid" metadata)
    else
      ProfessorResponse_new (pr_conversation_id request) answer APPROVED_EVIDENCE citations
        (map response_dict evidence)
        (set_all [("evidence_count", count_of evidence); ("provider_model", VStr (cut 128 (cc_model completion)));
                  ("finish_reason", VStr (finish_value (cc_finish_reason completion)))] metadata).
