(* ===== verification/Orchestrator.v ===== *)
(** * The Professor orchestrator (packages/professor, orchestration.py)

    One request: lease, retrieval, generation, the citation gate, release and
    the revalidation of the cited sources before delivery, as a JSON response
    ([run]) or as a stream of events ([stream]).  The retrieval function, the
    chat provider, the lease manager and pydantic's validation of a foreign
    object are arguments; a dependency call returns a value or raises.  The
    state is the budget of the request with a log of the calls made and of
    the events a consumer has received.

    Time enters as a [schedule]: the renewals of the lease that complete
    before the work does, and where a timeout interrupts the work, which has
    made some of its calls and emitted some of its events by then.  A consumer
    may close a stream; cancellation by the caller of [run] is not modelled. *)

From Stdlib Require Import Ascii String.
From stdpp Require Import strings list.
From S2P Require Import Prelude PyFloat PyStr PyVal PyNumber StateError ProfessorModels Professor.

Local Open Scope string_scope.
Local Open Scope Z_scope.
Local Open Scope list_scope.

(** ** Dependencies *)

Inductive outcome (A : Type) : Type := Returns (a : A) | Raises.
Arguments Returns {A} a.
Arguments Raises {A}.

Record lease_manager : Type := {
  lm_low_level : bool;      (* owner-aware, or a client that returns a handle *)
  lm_renews : bool;         (* has a callable [renew] *)
  lm_acquire : string -> string -> Z -> outcome pyval }.

(** An object of the contract class, or another one. *)
Definition foreign (A : Type) : Type := A + pyval.

(** [None] is a dependency without the callable. *)
Record dependencies : Type := {
  d_retrieve : option (string -> RetrievalContext -> list string -> outcome pyval);
  d_complete : option (list ProviderMessage -> string -> outcome (foreign ChatCompletionResult));
  (* the chunks, and whether the stream ends without raising *)
  d_stream : option (list ProviderMessage -> string -> outcome (list (foreign ChatCompletionChunk) * bool));
  d_validator : option (RetrievalContext -> list pyval -> list pyval -> outcome pyval);
  d_authorization_revalidator : bool;
  d_lease : option lease_manager;
  d_require_publication_revalidation : bool }.

(** ** The budget of a request *)

Inductive call : Type := C_acquire | C_retrieve | C_provider | C_validate | C_release.

#[export] Instance call_eq_dec : EqDecision call.
Proof. solve_decision. Defined.

Inductive event : Type := Delta (text : string) | Final (response : ProfessorResponse).

Record RequestBudget : Type := mk_budget {
  b_retrieval_rounds : Z; b_tool_calls : Z; b_provider_calls : Z; b_retrieval_snapshot : pyval;
  b_calls : list call; b_events : list event }.

Definition new_budget : RequestBudget := mk_budget 0 0 0 VNone [] [].

Definition with_counts (r t p : Z) (b : RequestBudget) : RequestBudget :=
  mk_budget r t p (b_retrieval_snapshot b) (b_calls b) (b_events b).
Definition with_snapshot (v : pyval) (b : RequestBudget) : RequestBudget :=
  mk_budget (b_retrieval_rounds b) (b_tool_calls b) (b_provider_calls b) v (b_calls b) (b_events b).
Definition with_log (calls : list call) (events : list event) (b : RequestBudget) : RequestBudget :=
  mk_budget (b_retrieval_rounds b) (b_tool_calls b) (b_provider_calls b) (b_retrieval_snapshot b) calls events.

Definition P : Type -> Type := M RequestBudget prof_error.

Definition log (c : call) : P unit := modify (fun b => with_log (b_calls b ++ [c]) (b_events b) b).
Definition emit (e : event) : P unit := modify (fun b => with_log (b_calls b) (b_events b ++ [e]) b).

(** A dependency call. *)
Definition calling {A} (c : call) (o : outcome A) : P A :=
  log c;; match o with Returns a => mret a | Raises => raise Dependency end.

(** ** Time *)

(** How much of a piece of work is done when it is interrupted. *)
Record progress : Type := { pg_calls : nat; pg_events : nat }.

Inductive interruption : Type :=
| During_acquire
| During_work (p : progress)
| During_validation
| Consumer_closes (p : progress).

Record schedule : Type := {
  sc_renewals : list (outcome pyval);       (* completed no later than the work *)
  sc_lost_at : progress;
  sc_reasoning : option progress;           (* [max_reasoning_seconds] runs out *)
  sc_total : option interruption }.         (* [max_total_request_seconds] runs out *)

(** [m], interrupted. *)
Definition truncated {A} (p : progress) (m : P A) : P unit := fun b =>
  let b' := exec m b in
  (with_log (firstn (length (b_calls b) + pg_calls p) (b_calls b'))
     (firstn (length (b_events b) + pg_events p) (b_events b')) b', Ok tt).

Section orchestrator.
Context (tanh : pyfloat -> pyfloat).
(** [ChatCompletionResult.model_validate] and [ChatCompletionChunk.model_validate]. *)
Context (validate_result : pyval -> option ChatCompletionResult) (validate_chunk : pyval -> option ChatCompletionChunk).
Context (limits : ProfessorLimits) (deps : dependencies) (lease_owner : string) (time : schedule).

Definition validated {A} (validate : pyval -> option A) (o : foreign A) : res prof_error A :=
  match o with
  | inl a => Ok a
  | inr v => match validate v with Some a => Ok a | None => Err ProfValidationError end
  end.

(** ** Budgets *)

Definition _consume_retrieval_round : P unit :=
  modify (fun b => with_counts (b_retrieval_rounds b + 1) (b_tool_calls b) (b_provider_calls b) b);;
  n ← gets b_retrieval_rounds;
  guard_not (max_retrieval_rounds limits <? n) (BudgetExceeded "retrieval_rounds").

Definition _consume_provider_call : P unit :=
  modify (fun b => with_counts (b_retrieval_rounds b) (b_tool_calls b) (b_provider_calls b + 1) b);;
  n ← gets b_provider_calls;
  guard_not (max_provider_calls limits <? n) (BudgetExceeded "provider_calls").

Definition _consume_tool_calls (count : nat) : P unit :=
  modify (fun b => with_counts (b_retrieval_rounds b) (b_tool_calls b + Z.of_nat count) (b_provider_calls b) b);;
  n ← gets b_tool_calls;
  guard_not (max_tool_calls limits <? n) (BudgetExceeded "tool_calls").

Definition _retrieve (request : ProfessorRequest) : P pyval :=
  _consume_retrieval_round;;
  match d_retrieve deps with
  | None => raise ProfTypeError
  | Some target =>
      result ← calling C_retrieve (target (pr_query request) (pr_retrieval_context request)
                                     (map pm_content (pr_history request)));
      modify (with_snapshot result);;
      mret result
  end.

Definition _validate_request (request : ProfessorRequest) : res prof_error unit :=
  raise_if (negb (str_eqb (pr_contract_version request) "professor-contract-v1")) ProfValueError;;
  raise_if (negb (str_eqb (cx_contract_version (pr_retrieval_context request)) "retrieval-context-v1")) ProfValueError.

(** ** Generation *)

(** [max(item.confidence for item in evidence)]. *)
Definition best_confidence (evidence : list TrustedEvidence) : pyfloat :=
  match evidence with
  | [] => Fin 0
  | e :: es => fold_left (fun x e => fmax x (te_confidence e)) es (te_confidence e)
  end.

Record prepared : Type := mk_prepared {
  pp_metadata : Metadata; pp_evidence : list TrustedEvidence; pp_messages : list ProviderMessage }.

(** The start of both generations: a refusal, or what the provider is asked. *)
Definition prepare (request : ProfessorRequest) : P (ProfessorResponse + prepared) :=
  retrieved ← attempt (_retrieve request);
  match retrieved with
  | Err e => r ← lift (_failed limits request (budget_stage e "retrieval_failed") [] []); mret (inl r)
  | Ok retrieval_result =>
      let metadata := _retrieval_decision_metadata retrieval_result in
      evidence ← lift (_trusted_evidence tanh (_retrieved_items retrieval_result) (pr_retrieval_context request) limits);
      match evidence with
      | [] => r ← lift (_static limits request NO_EVIDENCE _NO_EVIDENCE_ANSWER evidence metadata); mret (inl r)
      | _ =>
          if flt (best_confidence evidence) (approved_confidence limits) then
            r ← lift (_static limits request WEAK_EVIDENCE _WEAK_EVIDENCE_ANSWER evidence metadata); mret (inl r)
          else
            messages ← lift (_build_messages request evidence limits);
            mret (inr (mk_prepared metadata evidence messages))
      end
  end.

Definition complete (request : ProfessorRequest) (messages : list ProviderMessage) : P ChatCompletionResult :=
  _consume_provider_call;;
  match d_complete deps with
  | None => raise ProfTypeError
  | Some target =>
      raw ← calling C_provider (target messages (pr_conversation_id request));
      completion ← lift (validated validate_result raw);
      _consume_tool_calls (length (cc_tool_calls completion));;
      mret completion
  end.

Definition _run_generation (request : ProfessorRequest) : P ProfessorResponse :=
  p ← prepare request;
  match p with
  | inl r => mret r
  | inr (mk_prepared metadata evidence messages) =>
      outcome ← attempt (complete request messages);
      match outcome with
      | Err e => lift (_failed limits request (budget_stage e "provider_failed") evidence metadata)
      | Ok completion => lift (_completion_response limits request completion messages evidence metadata false)
      end
  end.

(** ** Publication *)

(** [item.get(a) in ids], which raises on what cannot be hashed. *)
Definition hashed_in (v : pyval) (ids : list string) : res prof_error bool :=
  match v with
  | VStr s => Ok (str_in s ids)
  | VList _ | VDict _ => Err ProfTypeError
  | _ => Ok false
  end.

(** The retrieved items whose identifier is one of [ids]. *)
Fixpoint snapshot_items (ids : list string) (items : list pyval) : res prof_error (list (list (string * pyval))) :=
  match items with
  | [] => Ok []
  | VDict item :: items' =>
      known ← hashed_in (dict_read "evidence_id" item) ids;
      rest ← snapshot_items ids items';
      Ok (if known : bool then item :: rest else rest)
  | _ :: items' => snapshot_items ids items'
  end.

Definition is_cited (citations : list Citation) (item : list (string * pyval)) : res prof_error bool :=
  let d := dict_read "document_id" item in
  let c := dict_read "chunk_id" item in
  raise_if (negb (py_hashable d && py_hashable c)) ProfTypeError;;
  Ok (existsb (fun x => is_str d (ci_document_id x) && is_str c (ci_chunk_id x)) citations).

Fixpoint cited_ids (citations : list Citation) (items : list (list (string * pyval))) : res prof_error (list pyval) :=
  match items with
  | [] => Ok []
  | item :: items' =>
      yes ← is_cited citations item;
      rest ← cited_ids citations items';
      Ok (if yes : bool then dict_read "evidence_id" item :: rest else rest)
  end.

Definition still_published (request : ProfessorRequest) (response : ProfessorResponse) : P bool :=
  let ids := remove_dups (map ed_evidence_id (rs_evidence response)) in
  retrieved ← gets b_retrieval_snapshot;
  snapshot ← lift (snapshot_items ids (_retrieved_items retrieved));
  ids_cited ← lift (cited_ids (rs_citations response) snapshot);
  match d_validator deps with
  | Some validator =>
      if (length snapshot =? length ids)%nat then
        v ← calling C_validate (validator (pr_retrieval_context request) (map VDict snapshot) ids_cited);
        mret (match v with VBool true => true | _ => false end)
      else mret false
  | None => mret false
  end.

Definition _validate_publication (request : ProfessorRequest) (response : ProfessorResponse) : P ProfessorResponse :=
  if negb (bool_decide (rs_evidence_status response = APPROVED_EVIDENCE)) then mret response
  else if negb (match d_validator deps with Some _ => true | None => false end)
          && negb (d_require_publication_revalidation deps) then mret response
  else
    valid ← attempt (still_published request response);
    match valid with
    | Ok true =>
        mret (mk_response (rs_conversation_id response) (rs_answer response) (rs_evidence_status response)
                (rs_citations response) (rs_evidence response)
                (set_all [("publication_validation", VStr "verified"); ("semantic_support_status", VStr "NOT_EVALUATED");
                          ("publication_authorization", VStr (if d_authorization_revalidator deps
                             then "live_grants_and_collection" else "request_scope_and_collection"))]
                   (rs_metadata response)))
    | _ =>
        lift (_static limits request CITATION_INVALID _INVALID_CITATION_ANSWER []
                (set_all [("decision_action", VStr "ABSTAIN"); ("decision_reason", VStr "publication_sources_changed");
                          ("publication_validation", VStr "failed")] (rs_metadata response)))
    end.

(** ** Lease and time *)

(** [_lease_bool(result, field)]; a plain object has no such attribute. *)
Definition _lease_bool (result : pyval) (field : string) : bool :=
  match result with
  | VBool b => b
  | VDict d => match dict_read field d with VBool true => true | _ => false end
  | _ => false
  end.

Definition _lease_key (request : ProfessorRequest) : string :=
  let context := pr_retrieval_context request in
  "professor:" +:+ cx_tenant_id context +:+ ":" +:+ cx_workspace_id context +:+ ":" +:+ pr_conversation_id request.

Definition lease_granted (lm : lease_manager) (request : ProfessorRequest) : bool :=
  match lm_acquire lm (_lease_key request) lease_owner (lease_ttl_ms limits) with
  | Returns acquired => if lm_low_level lm then _lease_bool acquired "acquired" else negb (is_none acquired)
  | Raises => false
  end.

(** A renewal that raised or did not answer [True] ends the heartbeat. *)
Definition renewed (o : outcome pyval) : bool :=
  match o with Returns v => _lease_bool v "renewed" | Raises => false end.

Definition _lease_heartbeat : bool := forallb renewed (sc_renewals time).

Section delivery.
(** How a result is delivered: returned, or yielded as an event. *)
Context {A : Type} (deliver : res prof_error ProfessorResponse -> P A).

Definition _run_with_lease_heartbeat (lm : lease_manager) (request : ProfessorRequest) (work : P A) : P A :=
  if negb (lm_renews lm) || _lease_heartbeat then work
  else truncated (sc_lost_at time) work;; deliver (_failed limits request "lease_lost" [] []).

Definition with_reasoning_budget (request : ProfessorRequest) (work : P A) : P A :=
  match sc_reasoning time with
  | Some p => truncated p work;; deliver (_failed limits request "reasoning_timeout" [] [])
  | None => work
  end.

(** Acquire, [around] the work, and release whatever happened. *)
Definition with_lease {B} (request : ProfessorRequest) (refused : P B) (around : P A -> P B) (work : P A) : P B :=
  match d_lease deps with
  | None => around (with_reasoning_budget request work)
  | Some lm =>
      log C_acquire;;
      if lease_granted lm request then
        r ← attempt (around (with_reasoning_budget request (_run_with_lease_heartbeat lm request work)));
        log C_release;;
        lift r
      else refused
  end.

Definition _run_request (request : ProfessorRequest) (work : P A) : P A :=
  with_lease request (deliver (_failed limits request "lease_unavailable" [] [])) id work.

(** The total timeout interrupts the acquisition, the work (the lease is
    still released), or the validation of the result. *)
Definition total_timeout (request : ProfessorRequest) (work : P A) (validate : A -> P unit) (i : interruption) : P A :=
  let timed_out := deliver (_failed limits request "total_request_timeout" [] []) in
  match i with
  | During_acquire => (match d_lease deps with Some _ => log C_acquire | None => mret tt end);; timed_out
  | During_work p => with_lease request (mret tt) (truncated p) work;; timed_out
  | During_validation => (r ← _run_request request work; validate r);; timed_out
  | Consumer_closes p => with_lease request (mret tt) (truncated p) work;; raise (Closing Dependency)
  end.
End delivery.

Definition run (request : ProfessorRequest) : P ProfessorResponse :=
  lift (_validate_request request);;
  match sc_total time with
  | None => r ← _run_request lift request (_run_generation request); _validate_publication request r
  | Some i => total_timeout lift request (_run_generation request)
                (fun r => attempt (_validate_publication request r);; mret tt) i
  end.

(** ** Streaming *)

(** [yield {"kind": "final", ...}] as the consumer of [stream] receives it:
    validated once more.  What the consumer raises closes the generators. *)
Definition yield_final (request : ProfessorRequest) (r : res prof_error ProfessorResponse) : P unit :=
  response ← lift r;
  valid ← attempt (_validate_publication request response);
  match valid with
  | Ok response' => emit (Final response')
  | Err e => raise (Closing e)
  end.

(** The generation for a provider that cannot stream. *)
Definition buffered_generation (request : ProfessorRequest) (p : prepared) : P unit :=
  let '(mk_prepared metadata evidence messages) := p in
  let failed := fun stage => yield_final request (_failed limits request stage evidence metadata) in
  try_except
    (completion ← complete request messages;
     if negb (_completion_within_token_budget completion messages (max_tokens limits)) then failed "token_budget_exceeded"
     else
       emit (Delta (cc_content completion));;
       yield_final request (_completion_response limits request completion messages evidence metadata false))
    (fun e => match e with
              | Closing _ => raise e
              | _ => failed (budget_stage e "provider_failed")
              end).

Record stream_state : Type := mk_stream_state {
  ss_parts : list string; ss_model : string; ss_finish : finish; ss_terminal : bool;
  ss_correlation : string; ss_usage : option ProviderUsage; ss_tools : list Z; ss_chars : Z }.

Definition start_stream (request : ProfessorRequest) : stream_state :=
  mk_stream_state [] EmptyString F_unknown false (cut 128 ("chat-" +:+ pr_conversation_id request)) None [] 0.

(** The text of a chunk, within the bounds of the stream. *)
Definition on_delta (prompt : Z) (st : stream_state) (delta : string) : P stream_state :=
  if is_empty delta then mret st
  else
    let chars := ss_chars st + slen delta in
    guard_not (max_answer_chars limits + 8 * 140 <? chars) (BudgetExceeded "answer");;
    guard_not (max_tokens limits <? prompt + (chars + 3) / 4) (BudgetExceeded "token");;
    emit (Delta delta);;
    mret (mk_stream_state (ss_parts st ++ [delta]) (ss_model st) (ss_finish st) (ss_terminal st)
            (ss_correlation st) (ss_usage st) (ss_tools st) chars).

Definition on_tools (st : stream_state) (deltas : list ProviderToolCallDelta) : P stream_state :=
  let fresh := remove_dups (List.filter (fun i => negb (bool_decide (i ∈ ss_tools st))) (map td_index deltas)) in
  match fresh with
  | [] => mret st
  | _ =>
      _consume_tool_calls (length fresh);;
      mret (mk_stream_state (ss_parts st) (ss_model st) (ss_finish st) (ss_terminal st)
              (ss_correlation st) (ss_usage st) (ss_tools st ++ fresh) (ss_chars st))
  end.

Definition is_some {B} (o : option B) : bool := match o with Some _ => true | None => false end.

Definition on_chunk (prompt : Z) (st : stream_state) (item : foreign ChatCompletionChunk) : P stream_state :=
  chunk ← lift (validated validate_chunk item);
  guard_not (ss_terminal st && (negb (is_empty (ck_delta chunk)) || negb (length (ck_tool_calls chunk) =? 0)%nat
                                || is_some (ck_finish_reason chunk))) ProfValueError;;
  guard_not (match ck_usage chunk with Some u => max_tokens limits <? us_total_tokens u | None => false end)
    (BudgetExceeded "token");;
  let st := mk_stream_state (ss_parts st) (ck_model chunk) (ss_finish st) (ss_terminal st) (ck_correlation_id chunk)
              (match ck_usage chunk with Some u => Some u | None => ss_usage st end) (ss_tools st) (ss_chars st) in
  st ← on_tools st (ck_tool_calls chunk);
  st ← on_delta prompt st (ck_delta chunk);
  mret (match ck_finish_reason chunk with
        | Some f => mk_stream_state (ss_parts st) (ss_model st) f true (ss_correlation st) (ss_usage st)
                      (ss_tools st) (ss_chars st)
        | None => st
        end).

Fixpoint on_chunks (prompt : Z) (st : stream_state) (items : list (foreign ChatCompletionChunk)) : P stream_state :=
  match items with
  | [] => mret st
  | item :: items' => st' ← on_chunk prompt st item; on_chunks prompt st' items'
  end.

(** The [async for] over the provider's stream. *)
Definition consume_stream (target : list ProviderMessage -> string -> outcome (list (foreign ChatCompletionChunk) * bool))
    (request : ProfessorRequest) (messages : list ProviderMessage) : P stream_state :=
  _consume_provider_call;;
  stream ← calling C_provider (target messages (pr_conversation_id request));
  st ← on_chunks (prompt_tokens messages) (start_stream request) (fst stream);
  guard_not (negb (snd stream)) Dependency;;
  mret st.

(** What follows a stream that ended. *)
Definition assembled (request : ProfessorRequest) (p : prepared) (st : stream_state) : P unit :=
  let '(mk_prepared metadata evidence messages) := p in
  let failed := fun stage => yield_final request (_failed limits request stage evidence metadata) in
  let content := strip (join EmptyString (ss_parts st)) in
  if is_empty content || is_empty (ss_model st) then failed "provider_failed"
  else
    match ChatCompletionResult_new (ss_model st) content [] (ss_finish st) (ss_correlation st) (ss_usage st) with
    | Err _ => failed "provider_failed"
    | Ok completion =>
        if negb (_completion_within_token_budget completion messages (max_tokens limits)) then failed "token_budget_exceeded"
        else yield_final request (_completion_response limits request completion messages evidence metadata
                                    (negb (length (ss_tools st) =? 0)%nat))
    end.

Definition _stream_generation (request : ProfessorRequest) : P unit :=
  p ← prepare request;
  match p with
  | inl r => yield_final request (Ok r)
  | inr p =>
      match d_stream deps with
      | None => buffered_generation request p
      | Some target =>
          outcome ← attempt (consume_stream target request (pp_messages p));
          match outcome with
          | Err e => yield_final request (_failed limits request (budget_stage e "provider_failed") (pp_evidence p) (pp_metadata p))
          | Ok st => assembled request p st
          end
      end
  end.

(** The events the consumer receives are in the log of the state. *)
Definition stream (request : ProfessorRequest) : P unit :=
  lift (_validate_request request);;
  match sc_total time with
  | None => _run_request (yield_final request) request (_stream_generation request)
  | Some i => total_timeout (yield_final request) request (_stream_generation request) (fun _ => mret tt) i
  end.
End orchestrator.
