(* ===== verification/OrchestratorLemmas.v ===== *)
(** * Lemmas on the professor orchestration

    The selection and the fallback answers, the invariants of the request budget through the
    delivery, and the traces of calls of the complete and of the streamed request. *)

From Stdlib Require Import Ascii String.
From stdpp Require Import strings list.
From S2P Require Import Prelude PyFloat PyStr PyVal StateError PyNumber ProfessorModels Professor Orchestrator.

Local Open Scope string_scope.
Local Open Scope Z_scope.
Local Open Scope list_scope.

(** ** Lemmas on trusted evidence and citation markers *)

(** ** Cuts and clamps *)

Lemma slen_nil : slen EmptyString = 0.
Proof. reflexivity. Qed.

Lemma slen_cut n s : 0 <= n -> slen (cut n s) <= n.
Proof.
  intros Hn. unfold cut. rewrite <- (Z2Nat.id n) at 2 by exact Hn. generalize (Z.to_nat n) as k. clear.
  intros k. revert s. induction k as [|k IH]; intros [|c s]; cbn [stake]; rewrite ?slen_cons, ?slen_nil; [lia.. | ].
  specialize (IH s). lia.
Qed.

Lemma fle_of_flt x y : flt x y = true -> fle x y = true.
Proof. destruct x as [a|[]|], y as [b|[]|]; cbn; try discriminate; try reflexivity. intros H. apply Z.ltb_lt in H. apply Z.leb_le. lia. Qed.

(** A confidence or score as a response shows it. *)
Definition unit_float (x : pyfloat) : Prop := fle (Fin 0) x = true /\ fle x (lit 1 1) = true.

Lemma unit_zero : unit_float (Fin 0).
Proof. split; vm_compute; reflexivity. Qed.

Lemma clamp_unit x : unit_float (clamp x).
Proof.
  assert (fle (Fin 0) (lit 1 1) = true /\ fle (lit 1 1) (lit 1 1) = true) as [H0 H1] by (split; vm_compute; reflexivity).
  unfold unit_float, clamp, fmin, fmax. revert H0 H1. generalize (lit 1 1) as one. intros one H0 H1.
  assert (forall y, fle y one = true -> fle (Fin 0) (if flt (Fin 0) y then y else Fin 0) = true
            /\ fle (if flt (Fin 0) y then y else Fin 0) one = true) as Hy.
  { intros y Hy. destruct (flt (Fin 0) y) eqn:E; split; auto using fle_of_flt. }
  destruct (flt x one) eqn:E; apply Hy; auto using fle_of_flt.
Qed.

Lemma unit_finite x : unit_float x -> fisfinite x = true.
Proof.
  intros [H0 H1]. assert (exists t, lit 1 1 = Fin t) as [t Ht] by (eexists; vm_compute; reflexivity).
  rewrite Ht in H1. destruct x as [m|[]|]; cbn in *; congruence.
Qed.

Lemma bounded_float_unit v o : _bounded_float v = Ok o -> unit_float (or_zero o).
Proof.
  unfold _bounded_float. destruct (py_float v) as [x| |]; [|intros H; apply Ok_inj in H as ->; apply unit_zero | discriminate].
  intros H. apply Ok_inj in H as ->. destruct (fisfinite x); [apply clamp_unit | apply unit_zero].
Qed.

Lemma bounded_float_Some v x : _bounded_float v = Ok (Some x) -> unit_float x.
Proof. exact (bounded_float_unit v (Some x)). Qed.

Lemma blended_unit tanh item x : blended tanh item = Ok x -> unit_float x.
Proof.
  unfold blended. intros H. repeat (apply bind_Ok in H as (? & _ & H)). apply Ok_inj in H as ->. apply clamp_unit.
Qed.

Lemma fallback_unit tanh item x : _fallback_confidence tanh item = Ok x -> unit_float x.
Proof.
  unfold _fallback_confidence. intros H. apply bind_Ok in H as ([y|] & Hy & H).
  - apply Ok_inj in H as ->. eapply bounded_float_Some; eassumption.
  - destruct (dict_get "dense_score" item), (dict_get "sparse_score" item); try (eapply blended_unit; eassumption).
    apply bind_Ok in H as ([z|] & Hz & H); [|eapply blended_unit; eassumption].
    apply Ok_inj in H as ->. eapply bounded_float_Some; eassumption.
Qed.

(** ** Trusted evidence *)

(** The bounds under which [ProfessorLimits] is constructed. *)
Definition limits_ok (limits : ProfessorLimits) : Prop :=
  1 <= max_evidence_items limits /\ 1 <= max_evidence_chars limits /\ 1 <= max_evidence_item_chars limits
  /\ 1 <= max_prompt_chars limits /\ 1 <= max_answer_chars limits /\ 0 <= max_tool_calls limits
  /\ 1 <= max_provider_calls limits /\ 1 <= max_retrieval_rounds limits /\ 1 <= max_tokens limits.

Lemma int_from_Ok lo v n : int_from lo v = Ok n -> lo <= n.
Proof.
  destruct v; try discriminate. cbn [int_from]. intros H. apply bind_Ok in H as (u & Hu & H). apply Ok_inj in H as ->.
  unfold invalid_unless in Hu. apply raise_if_Ok in Hu. bool_to_prop. lia.
Qed.

Lemma limits_new_ok a b c d e f g h i j k l m limits :
  ProfessorLimits_new a b c d e f g h i j k l m = Ok limits -> limits_ok limits.
Proof.
  unfold ProfessorLimits_new. intros H.
  repeat match type of H with (_ ≫= _) = _ => let n := fresh "n" in let Hn := fresh "Hn" in apply bind_Ok in H as (n & Hn & H) end.
  apply Ok_inj in H as ->.
  repeat match goal with H : int_from _ _ = Ok _ |- _ => apply int_from_Ok in H end.
  unfold limits_ok. cbn. lia.
Qed.

(** What every trusted item satisfies. *)
Record item_trusted (context : RetrievalContext) (limits : ProfessorLimits) (e : TrustedEvidence) : Prop := {
  it_ids : forallb _SAFE_ID [te_evidence_id e; te_document_id e; te_chunk_id e; te_tenant_id e;
                             te_workspace_id e; te_collection_id e] = true;
  it_tenant : te_tenant_id e = cx_tenant_id context;
  it_workspace : te_workspace_id e = cx_workspace_id context;
  it_collection : In "*" (cx_allowed_collection_ids context) \/ In (te_collection_id e) (cx_allowed_collection_ids context);
  it_text : 1 <= slen (te_text e) <= max_evidence_item_chars limits;
  it_scores : Forall unit_float [te_confidence e; te_score e; te_dense_score e; te_sparse_score e];
  it_rank : 0 <= te_rank e }.

(** The item [raw] names the document, chunk and scope of [e], and its text
    starts with that of [e]. *)
Definition comes_from (e : TrustedEvidence) (raw : pyval) : Prop :=
  exists item text, raw = VDict item /\ dict_read "text" item = VStr text
    /\ _safe_optional_string 128 (dict_read "document_id" item) = Some (te_document_id e)
    /\ _safe_optional_string 128 (dict_read "chunk_id" item) = Some (te_chunk_id e)
    /\ _safe_optional_string 128 (dict_read "tenant_id" item) = Some (te_tenant_id e)
    /\ _safe_optional_string 128 (dict_read "workspace_id" item) = Some (te_workspace_id e)
    /\ _safe_optional_string 128 (dict_read "collection_id" item) = Some (te_collection_id e)
    /\ te_evidence_id e = from_option id ("ev-" +:+ te_chunk_id e) (present (_safe_optional_string 128 (dict_read "evidence_id" item)))
    /\ exists rest, strip text = te_text e +:+ rest.

Lemma safe_string_Some n v s : _safe_optional_string n v = Some s -> exists t, v = VStr t /\ s = cut n (strip t).
Proof.
  unfold _safe_optional_string. destruct v; try discriminate. destruct (is_empty (strip s0)); [discriminate|].
  intros [= <-]. eauto.
Qed.

Lemma present_Some o s : present o = Some s -> o = Some s /\ is_empty s = false.
Proof. destruct o as [t|]; cbn; [|discriminate]. destruct (is_empty t) eqn:E; [discriminate|]. intros [= <-]. auto. Qed.

Lemma nonempty_slen s : is_empty s = false -> 1 <= slen s.
Proof. destruct s as [|c s]; [discriminate|]. intros _. rewrite slen_cons. pose proof (slen_nonneg s). lia. Qed.

Lemma cut_prefix n s : exists rest, s = cut n s +:+ rest.
Proof.
  unfold cut. generalize (Z.to_nat n) as k. intros k. revert s.
  induction k as [|k IH]; intros [|c s]; cbn [stake]; try (eexists; reflexivity).
  destruct (IH s) as [r Hr]. exists r. cbn. congruence.
Qed.

Lemma append_assoc (s t u : string) : (s +:+ t) +:+ u = s +:+ t +:+ u.
Proof. induction s as [|c s IH]; cbn; congruence. Qed.

Lemma rank_nonneg v : 0 <= from_option id 0 (_safe_page v).
Proof. destruct v; cbn; try lia. destruct (0 <=? z) eqn:E; cbn; bool_to_prop; lia. Qed.

Section selection.
Context (tanh : pyfloat -> pyfloat) (context : RetrievalContext) (limits : ProfessorLimits).
Context (Hlimits : limits_ok limits).

Lemma trusted_item_fields item ev doc ch ten ws col txt e :
  trusted_item tanh item ev doc ch ten ws col txt = Ok e ->
  te_evidence_id e = ev /\ te_document_id e = doc /\ te_chunk_id e = ch /\ te_tenant_id e = ten
  /\ te_workspace_id e = ws /\ te_collection_id e = col /\ te_text e = txt
  /\ Forall unit_float [te_confidence e; te_score e; te_dense_score e; te_sparse_score e] /\ 0 <= te_rank e.
Proof.
  unfold trusted_item. cbv zeta. intros H.
  apply bind_Ok in H as (c & Hc & H). apply bind_Ok in H as (s & Hs & H). apply bind_Ok in H as (d & Hd & H).
  apply bind_Ok in H as (p & Hp & H). apply Ok_inj in H as ->. cbn [te_evidence_id te_document_id te_chunk_id te_tenant_id
    te_workspace_id te_collection_id te_text te_confidence te_score te_dense_score te_sparse_score te_rank].
  split_and!; try reflexivity; [|apply rank_nonneg].
  repeat (apply Forall_cons; split; [solve [eauto using fallback_unit, bounded_float_unit] |]). constructor.
Qed.

(** What the loop takes. *)
Lemma examine_Take trusted used raw e :
  examine tanh context limits trusted used raw = Ok (Take e) ->
  item_trusted context limits e /\ comes_from e raw /\ ~ In (te_evidence_id e) (map te_evidence_id trusted)
  /\ used + slen (te_text e) <= max_evidence_chars limits.
Proof.
  intros H. unfold examine in H. destruct (_as_mapping raw) as [item|] eqn:Em; [|discriminate].
  destruct raw; cbn in Em; try discriminate. injection Em as ->. cbv zeta in H.
  repeat match type of H with
  | match present ?o with _ => _ end = _ => let E := fresh "F" in destruct (present o) eqn:E; [apply present_Some in E as [? ?] | discriminate]
  end.
  repeat match type of H with
  | (if ?b then Ok Skip else _) = _ => let G := fresh "G" in destruct b eqn:G; [discriminate | apply negb_false_iff in G || idtac]
  | (if ?b then Ok Stop else _) = _ => let G := fresh "G" in destruct b eqn:G; [discriminate|]
  end.
  apply bind_Ok in H as (e' & He & H). apply Ok_inj in H. injection H as ->.
  apply trusted_item_fields in He as (E1 & E2 & E3 & E4 & E5 & E6 & E7 & Hs & Hr). rewrite <- E1 in *. subst.
  pose proof (safe_string_Some _ _ _ H10) as (raw_text & Ht & ->). bool_to_prop.
  destruct Hlimits as (_ & _ & Hic & _).
  pose proof (slen_cut _ (strip raw_text) (Z.le_trans _ _ _ Z.le_0_1 Hic)) as Hlen.
  assert (0 <= max_evidence_chars limits - used) as Hroom by lia.
  pose proof (slen_cut _ (cut (max_evidence_item_chars limits) (strip raw_text)) Hroom) as Hlen2.
  pose proof (nonempty_slen _ G5) as Hne. rewrite <- E7 in *.
  destruct (cut_prefix (max_evidence_item_chars limits) (strip raw_text)) as [r1 Hr1].
  destruct (cut_prefix (max_evidence_chars limits - used) (cut (max_evidence_item_chars limits) (strip raw_text))) as [r2 Hr2].
  rewrite <- E7 in Hr2.
  assert (slen (te_text e') <= max_evidence_item_chars limits) as Hfit.
  { pose proof (f_equal slen Hr2) as Hl. rewrite slen_app in Hl. pose proof (slen_nonneg r2). lia. }
  split_and!; [constructor | | |]; try assumption; try (now apply str_eqb_eq); try lia.
  - change (_SAFE_ID (te_evidence_id e') && forallb _SAFE_ID [te_document_id e'; te_chunk_id e'; te_tenant_id e'; te_workspace_id e'; te_collection_id e'] = true). now rewrite G2, G.
  - apply andb_false_iff in G1 as [G1|G1]; apply negb_false_iff, str_in_In in G1; auto.
  - exists item, raw_text. split_and!; try assumption; try reflexivity.
    exists (r2 +:+ r1). now rewrite Hr1, Hr2, append_assoc.
  - now apply str_in_false.
Qed.

Definition evidence_chars (es : list TrustedEvidence) : Z := foldr (fun e n => slen (te_text e) + n) 0 es.

Lemma evidence_chars_app a b : evidence_chars (a ++ b) = evidence_chars a + evidence_chars b.
Proof. unfold evidence_chars. induction a as [|e a IH]; cbn; [reflexivity|]. fold evidence_chars in *. cbn in *. lia. Qed.

(** A selection within the limits, drawn from [items]. *)
Record selection (items : list pyval) (es : list TrustedEvidence) : Prop := {
  sl_items : Forall (item_trusted context limits) es;
  sl_source : Forall (fun e => Exists (comes_from e) items) es;
  sl_distinct : NoDup (map te_evidence_id es);
  sl_count : Z.of_nat (length es) <= max_evidence_items limits;
  sl_chars : evidence_chars es <= max_evidence_chars limits }.

Lemma selection_nil items : selection items [].
Proof. destruct Hlimits as (? & ? & _). constructor; cbn; try constructor; lia. Qed.

Lemma trust_loop_selection all items : forall trusted es, (exists before, all = before ++ items) ->
  selection all trusted -> Z.of_nat (length trusted) < max_evidence_items limits ->
  trust_loop tanh context limits items trusted (evidence_chars trusted) = Ok es -> selection all es.
Proof.
  induction items as [|raw items IH]; intros trusted es [before Hall] Hsel Hlen H.
  - apply Ok_inj in H as ->. exact Hsel.
  - assert (exists before, all = before ++ items) as Hrest by (exists (before ++ [raw]); now rewrite Hall, <- app_assoc).
    cbn [trust_loop] in H. apply bind_Ok in H as ([| |e] & Hv & H).
    + eapply IH; eassumption.
    + apply Ok_inj in H as ->. exact Hsel.
    + apply examine_Take in Hv as (He & Hfrom & Hnew & Hchars). destruct Hsel as [H1 H2 H3 H4 H5].
      assert (selection all (trusted ++ [e])) as Hsel'.
      { constructor.
        - apply Forall_app; auto.
        - apply Forall_app; split; [exact H2|]. constructor; [|constructor]. rewrite Hall, Exists_app. right. now constructor.
        - rewrite map_app. cbn. apply NoDup_app. split_and!; [exact H3 | | apply NoDup_singleton].
          intros x Hx Hy. apply list_elem_of_singleton in Hy as ->. apply Hnew. now apply list_elem_of_In.
        - rewrite length_app. cbn. lia.
        - rewrite evidence_chars_app. cbn. lia. }
      cbv zeta in H. destruct (_ <=? _) eqn:Efull in H.
      * apply Ok_inj in H as ->. exact Hsel'.
      * bool_to_prop. apply (IH (trusted ++ [e])); try assumption.
        rewrite evidence_chars_app. cbn [evidence_chars foldr]. now rewrite Z.add_0_r.
Qed.

Lemma trusted_evidence_selection items es :
  _trusted_evidence tanh items context limits = Ok es -> selection items es.
Proof.
  unfold _trusted_evidence. destruct (cx_allowed_collection_ids context) eqn:E.
  - intros H. apply Ok_inj in H as ->. apply selection_nil.
  - intros H.
    eapply (trust_loop_selection items items []); try eassumption; [now exists [] | apply selection_nil|].
    destruct Hlimits as (? & _). cbn. lia.
Qed.
End selection.

(** ** Citations *)

Lemma by_id_Some es m e : by_id es m = Some e -> In e es /\ te_evidence_id e = m.
Proof.
  unfold by_id. intros H. apply find_some in H as [Hin He]. split; [now apply in_rev | now apply str_eqb_eq].
Qed.

Lemma by_id_unique es e : NoDup (map te_evidence_id es) -> In e es -> by_id es (te_evidence_id e) = Some e.
Proof.
  intros Hnd Hin. destruct (by_id es (te_evidence_id e)) as [e'|] eqn:E.
  - apply by_id_Some in E as [Hin' Heq]. f_equal.
    clear -Hnd Hin Hin' Heq. induction es as [|x es IH]; [destruct Hin|].
    cbn in Hnd. apply NoDup_cons in Hnd as [Hx Hnd]. rewrite list_elem_of_In in Hx.
    destruct Hin as [->|Hin], Hin' as [->|Hin']; auto; exfalso; apply Hx.
    + rewrite <- Heq. now apply in_map.
    + rewrite Heq. now apply in_map.
  - unfold by_id in E. apply find_none with (x := e) in E; [|now apply -> in_rev].
    exfalso. assert (str_eqb (te_evidence_id e) (te_evidence_id e) = true) as H by now apply str_eqb_eq. congruence.
Qed.

Lemma cited_spec es : NoDup (map te_evidence_id es) -> forall markers seen,
  (forall m, In m markers -> by_id es m <> None) ->
  exists used, cited es markers seen = map citation used /\ NoDup (map te_evidence_id used)
    /\ forall e, In e used <-> In e es /\ In (te_evidence_id e) markers /\ ~ In (te_evidence_id e) seen.
Proof.
  intros Hnd. induction markers as [|m markers IH]; intros seen Hall.
  - exists []. split_and!; [reflexivity | constructor |]. intros e. split; [intros [] | intros (_ & [] & _)].
  - cbn [cited]. destruct (str_in m seen) eqn:Es.
    + apply str_in_In in Es. destruct (IH seen) as (used & Hc & Hn & Hu); [intros; apply Hall; now right|].
      exists used. split_and!; try assumption. intros e. rewrite Hu. cbn. split; [intros (H1 & H2 & H3); auto|].
      intros (H1 & [->|H2] & H3); [contradiction | auto].
    + apply str_in_false in Es. destruct (by_id es m) as [e0|] eqn:E0; [|exfalso; exact (Hall m (or_introl eq_refl) E0)].
      destruct (by_id_Some _ _ _ E0) as [Hin0 Hid0].
      destruct (IH (m :: seen)) as (used & Hc & Hn & Hu); [intros; apply Hall; now right|].
      exists (e0 :: used). rewrite Hc. split_and!; [reflexivity | |].
      * cbn. apply NoDup_cons. split; [|exact Hn]. rewrite list_elem_of_In, in_map_iff. intros (e & Heq & He).
        apply Hu in He as (_ & _ & H). apply H. left. congruence.
      * intros e. cbn. rewrite Hu. cbn. split.
        -- intros [->|(H1 & H2 & H3)]; [subst m; auto|]. split_and!; auto.
        -- intros (H1 & [Hm|H2] & H3).
           ++ left. assert (by_id es m = Some e) as H by (rewrite Hm; now apply by_id_unique). congruence.
           ++ destruct (decide (m = te_evidence_id e)) as [Hm|Hm].
              ** left. assert (by_id es m = Some e) as H by (rewrite Hm; now apply by_id_unique). congruence.
              ** right. split_and!; auto. intros [H|H]; auto.
Qed.

(** The evidence a completion cites: each cited item once, at least one, and
    every marker names an item. *)
Definition cites (content : string) (es used : list TrustedEvidence) : Prop :=
  let markers := findall _CITATION_MARKER (strip content) in
  used <> [] /\ NoDup (map te_evidence_id used)
  /\ (forall e, In e used <-> In e es /\ In (te_evidence_id e) markers)
  /\ Forall (fun m => In m (map te_evidence_id used)) markers.

Lemma citations_accepted limits content es answer cs : NoDup (map te_evidence_id es) ->
  _citations limits content es = (answer, cs, false) -> exists used, cs = map citation used /\ cites content es used.
Proof.
  intros Hnd. unfold _citations. cbv zeta. destruct (_ || _) eqn:E; [discriminate|]. intros [= _ <-].
  apply orb_false_iff in E as [E E3]. apply orb_false_iff in E as [E1 E2].
  set (markers := findall _CITATION_MARKER (strip content)) in *.
  assert (forall m, In m markers -> by_id es m <> None) as Hall.
  { intros m Hm Hnone. apply not_true_iff_false in E3. apply E3. apply existsb_exists. exists m. now rewrite Hnone. }
  destruct (cited_spec es Hnd markers [] Hall) as (used & Hc & Hn & Hu). exists used. split; [exact Hc|].
  assert (forall m, In m markers -> In m (map te_evidence_id used)) as Hm.
  { intros m Hm. destruct (by_id es m) as [e|] eqn:Ee; [|exfalso; exact (Hall m Hm Ee)].
    apply by_id_Some in Ee as [Hin Hid]. apply in_map_iff. exists e. split; [exact Hid|]. apply Hu. rewrite Hid. auto. }
  unfold cites. fold markers. split_and!.
  - intros ->. destruct markers as [|m l]; [discriminate E1|]. exact (Hm m (or_introl eq_refl)).
  - exact Hn.
  - intros e. rewrite Hu. cbn. tauto.
  - now apply List.Forall_forall.
Qed.

Lemma is_empty_cut n s : 1 <= n -> is_empty (cut n s) = is_empty s.
Proof. intros Hn. unfold cut. destruct (Z.to_nat n) eqn:E; [lia|]. now destruct s. Qed.

Lemma citations_strip limits content es : _citations limits (strip content) es = _citations limits content es.
Proof. unfold _citations. now rewrite strip_idem. Qed.

(** ** What the orchestrator delivers

    Every response is a refusal with one of the fixed texts, or an approved
    answer that is grounded in trusted evidence and whose sources are still
    published.  Shared by the properties of [run] and [stream]. *)

(** ** Refusals *)

Definition fixed_answers : list string :=
  [_NO_EVIDENCE_ANSWER; _WEAK_EVIDENCE_ANSWER; _INVALID_CITATION_ANSWER; _GENERATION_FAILED_ANSWER;
   "Please clarify which document operation you need help with.";
   "This request requires additional review before an answer can be generated.";
   "I cannot provide a grounded answer to this request under the current policy and available sources."].

(** No text of the provider, no citation, not approved. *)
Definition refusal (limits : ProfessorLimits) (r : ProfessorResponse) : Prop :=
  rs_evidence_status r <> APPROVED_EVIDENCE /\ rs_citations r = []
  /\ In (rs_answer r) (map (cut (max_answer_chars limits)) fixed_answers).

Lemma response_new_fields conv answer status cs es meta r :
  ProfessorResponse_new conv answer status cs es meta = Ok r ->
  rs_answer r = answer /\ rs_evidence_status r = status /\ rs_citations r = cs /\ rs_evidence r = es.
Proof. unfold ProfessorResponse_new. intros H. apply bind_Ok in H as (u & _ & H). apply Ok_inj in H as ->. auto. Qed.

Lemma failed_refusal limits request stage es meta r : _failed limits request stage es meta = Ok r -> refusal limits r.
Proof.
  intros H. apply response_new_fields in H as (H1 & H2 & H3 & _). unfold refusal. rewrite H1, H2, H3.
  split_and!; [discriminate | reflexivity | apply in_map; cbn; auto 8].
Qed.

Lemma static_refusal limits request status answer es meta r :
  _static limits request status answer es meta = Ok r -> status <> APPROVED_EVIDENCE -> In answer fixed_answers -> refusal limits r.
Proof.
  intros H Hs Ha. unfold _static in H. cbv zeta in H. apply response_new_fields in H as (H1 & H2 & H3 & _).
  unfold refusal. rewrite H1, H2, H3. split_and!; [exact Hs | reflexivity | apply in_map].
  destruct (decide _); [|exact Ha]. unfold decision_answer.
  destruct (dict_read "decision_action" meta); try exact Ha. repeat (destruct (str_eqb s _); [cbn; auto 9 |]). exact Ha.
Qed.

#[export] Hint Resolve failed_refusal : refusal.
#[export] Hint Extern 2 (In _ fixed_answers) => (cbn; auto 9) : refusal.
#[export] Hint Extern 2 (_ <> APPROVED_EVIDENCE) => discriminate : refusal.
#[export] Hint Extern 4 (refusal _ _) => (eapply static_refusal; [eassumption | discriminate | cbn; auto 9]) : refusal.

(** ** Approved answers *)

(** The answer of an approved response and its citations come from [text]. *)
Definition answers (limits : ProfessorLimits) (text : string) (es : list TrustedEvidence) (r : ProfessorResponse) : Prop :=
  rs_evidence_status r = APPROVED_EVIDENCE /\ rs_evidence r = map response_dict es
  /\ _citations limits text es = (rs_answer r, rs_citations r, false).

Lemma completion_response_spec limits request c messages es meta pending r :
  _completion_response limits request c messages es meta pending = Ok r ->
  refusal limits r \/
  (answers limits (cc_content c) es r /\ cc_finish_reason c = F_stop /\ cc_tool_calls c = [] /\ pending = false
   /\ _completion_within_token_budget c messages (max_tokens limits) = true).
Proof.
  unfold _completion_response. cbv zeta. destruct (_ || _) eqn:E1; [intros H; left; eauto with refusal|].
  destruct (negb (_completion_within_token_budget c messages (max_tokens limits))) eqn:E2; [intros H; left; eauto with refusal|].
  destruct (_ <? _) eqn:E3; [intros H; left; eauto with refusal|].
  destruct (_citations limits (cc_content c) es) as [[answer cs] invalid] eqn:E4. destruct invalid; [intros H; left; eauto with refusal|].
  intros H. right. apply response_new_fields in H as (H1 & H2 & H3 & H4).
  apply orb_false_iff in E1 as [E1 Ep]. apply orb_false_iff in E1 as [Ef Et]. bool_to_prop.
  unfold answers. rewrite H1, H2, H3, H4, E4. split_and!; try reflexivity; try assumption.
  destruct (cc_tool_calls c); [reflexivity | discriminate].
Qed.

Section delivery.
Context (tanh : pyfloat -> pyfloat).
Context (validate_result : pyval -> option ChatCompletionResult) (validate_chunk : pyval -> option ChatCompletionChunk).
Context (limits : ProfessorLimits) (deps : dependencies) (lease_owner : string) (time : schedule).
Context (request : ProfessorRequest).

(** The evidence the provider is asked about: trusted, not empty, confident
    enough, and selected from what the retrieval function returned. *)
Definition prepared_from (es : list TrustedEvidence) (messages : list ProviderMessage) : Prop :=
  exists target retrieved,
    d_retrieve deps = Some target
    /\ target (pr_query request) (pr_retrieval_context request) (map pm_content (pr_history request)) = Returns retrieved
    /\ _trusted_evidence tanh (_retrieved_items retrieved) (pr_retrieval_context request) limits = Ok es
    /\ es <> [] /\ flt (best_confidence es) (approved_confidence limits) = false
    /\ _build_messages request es limits = Ok messages.

(** The provider completed [messages] with [text] and said so. *)
Definition completed (messages : list ProviderMessage) (text : string) : Prop :=
  exists target raw c,
    d_complete deps = Some target /\ target messages (pr_conversation_id request) = Returns raw
    /\ validated validate_result raw = Ok c /\ cc_content c = text /\ cc_finish_reason c = F_stop /\ cc_tool_calls c = []
    /\ _completion_within_token_budget c messages (max_tokens limits) = true.

(** The provider streamed [text] to its end, without tools, and said so. *)
Definition streamed (messages : list ProviderMessage) (text : string) : Prop :=
  exists target items chunks,
    d_stream deps = Some target /\ target messages (pr_conversation_id request) = Returns (items, true)
    /\ res_mapM (validated validate_chunk) items = Ok chunks /\ text = join EmptyString (map ck_delta chunks)
    /\ Exists (fun c => ck_finish_reason c = Some F_stop) chunks /\ Forall (fun c => ck_tool_calls c = []) chunks.

(** The validator, if there is one, confirmed the items the answer rests on. *)
Definition published (r : ProfessorResponse) : Prop :=
  match d_validator deps with
  | None => d_require_publication_revalidation deps = false
  | Some validator =>
      exists snapshot ids, validator (pr_retrieval_context request) (map VDict snapshot) ids = Returns (VBool true)
        /\ length snapshot = length (remove_dups (map ed_evidence_id (rs_evidence r)))
        /\ Forall (fun item => exists s, dict_read "evidence_id" item = VStr s /\ In s (map ed_evidence_id (rs_evidence r))) snapshot
  end.

(** A response before the sources are validated again. *)
Definition produced (given : list ProviderMessage -> string -> Prop) (r : ProfessorResponse) : Prop :=
  refusal limits r \/
  exists es messages text, prepared_from es messages /\ given messages text /\ answers limits text es r.

(** A response as the caller receives it. *)
Definition delivered (given : list ProviderMessage -> string -> Prop) (r : ProfessorResponse) : Prop :=
  refusal limits r \/
  (published r /\ exists es messages text, prepared_from es messages /\ given messages text /\ answers limits text es r).

Lemma refused given r : refusal limits r -> delivered given r.
Proof. now left. Qed.

(** ** The parts of a generation *)

(** Nothing raised is claimed; events are only appended by [emit]. *)
Definition any_error (_ : prof_error) (_ : RequestBudget) : Prop := True.

Lemma calling_wp {A} c (o : outcome A) (Q : A -> RequestBudget -> Prop) R b :
  (forall a, o = Returns a -> Q a (with_log (b_calls b ++ [c]) (b_events b) b)) ->
  (o = Raises -> R Dependency (with_log (b_calls b ++ [c]) (b_events b) b)) ->
  wp (calling c o) Q R b.
Proof. intros HQ HR. unfold calling, log. wp_step. wp_step. destruct o; wp_step; auto. Qed.

Lemma retrieve_wp b :
  wp (_retrieve limits deps request)
    (fun v b' => b_events b' = b_events b /\ exists target, d_retrieve deps = Some target
      /\ target (pr_query request) (pr_retrieval_context request) (map pm_content (pr_history request)) = Returns v)
    (fun _ b' => b_events b' = b_events b) b.
Proof.
  unfold _retrieve, _consume_retrieval_round. repeat wp_step; [|reflexivity].
  destruct (d_retrieve deps) as [target|]; [|wp_step; reflexivity].
  wp_step. apply calling_wp; [|reflexivity]. intros v Hv. repeat wp_step. split; [reflexivity|]. eauto.
Qed.

Lemma prepare_wp b :
  wp (prepare tanh limits deps request)
    (fun p b' => b_events b' = b_events b /\
      match p with inl r => refusal limits r | inr p => prepared_from (pp_evidence p) (pp_messages p) end)
    (fun _ b' => b_events b' = b_events b) b.
Proof.
  unfold prepare. wp_step. wp_step. eapply wp_mono; [apply retrieve_wp | |].
  - intros v b' (He & target & Ht & Hv). cbv zeta. wp_step. wp_step; [|exact He].
    destruct a as [|e es]; [wp_step; wp_step; [wp_step; split; [exact He | eauto with refusal] | exact He]|].
    destruct (flt _ _) eqn:Ec; [wp_step; wp_step; [wp_step; split; [exact He | eauto with refusal] | exact He]|].
    wp_step. wp_step; [|exact He]. wp_step. split; [exact He|]. exists target, v. cbn [pp_evidence pp_messages].
    split_and!; try assumption. discriminate.
  - intros e b' He. cbv beta. wp_step. wp_step; [wp_step; split; [exact He | eauto with refusal] | exact He].
Qed.

Lemma complete_wp messages b :
  wp (complete validate_result limits deps request messages)
    (fun c b' => b_events b' = b_events b /\ exists target raw, d_complete deps = Some target
      /\ target messages (pr_conversation_id request) = Returns raw /\ validated validate_result raw = Ok c)
    (fun _ b' => b_events b' = b_events b) b.
Proof.
  unfold complete, _consume_provider_call, _consume_tool_calls. repeat wp_step; [|reflexivity].
  destruct (d_complete deps) as [target|]; [|wp_step; reflexivity].
  wp_step. apply calling_wp; [|reflexivity]. intros raw Hraw. repeat wp_step; try reflexivity. split; [reflexivity|]. eauto.
Qed.

Lemma run_generation_wp b :
  wp (_run_generation tanh validate_result limits deps request) (fun r _ => produced completed r) any_error b.
Proof.
  unfold _run_generation. wp_step. eapply wp_mono; [apply prepare_wp | | now intros].
  intros [r|[meta es messages]] b' [_ Hp]; cbn beta iota; [wp_step; now left|]. cbn [pp_evidence pp_messages] in Hp.
  wp_step. wp_step. eapply wp_mono; [apply complete_wp | |].
  - intros c b'' (_ & target & raw & Ht & Hraw & Hc). cbv beta iota. wp_step; [|exact I].
    match goal with H : _completion_response _ _ _ _ _ _ _ = _ |- _ => apply completion_response_spec in H as [H|(Ha & Hf & Htc & _ & Hb)] end; [now left|].
    right. exists es, messages, (cc_content c). split_and!; try assumption. exists target, raw, c. auto 10.
  - intros e b'' _. cbv beta iota. wp_step; [left; eauto with refusal | exact I].
Qed.

(** ** Publication *)

Lemma hashed_in_true v ids : hashed_in v ids = Ok true -> exists s, v = VStr s /\ In s ids.
Proof. destruct v; cbn; try discriminate. intros [= H]. apply str_in_In in H. eauto. Qed.

Lemma snapshot_items_spec ids items snapshot : snapshot_items ids items = Ok snapshot ->
  Forall (fun item => exists s, dict_read "evidence_id" item = VStr s /\ In s ids) snapshot.
Proof.
  revert snapshot. induction items as [|v items IH]; intros snapshot H; cbn [snapshot_items] in H.
  - apply Ok_inj in H as ->. constructor.
  - destruct v; try (apply IH, H). apply bind_Ok in H as (known & Hk & H). apply bind_Ok in H as (rest & Hr & H).
    apply Ok_inj in H as ->. destruct known; [constructor; [now apply hashed_in_true in Hk |]|]; now apply IH.
Qed.

Lemma still_published_wp r b :
  wp (still_published deps request r)
    (fun valid b' => b_events b' = b_events b /\ (valid = true -> published r)) (fun _ b' => b_events b' = b_events b) b.
Proof.
  unfold still_published, published. cbv zeta. repeat wp_step; try reflexivity.
  destruct (d_validator deps) as [validator|]; [|wp_step; split; [reflexivity | discriminate]].
  destruct (_ =? _)%nat eqn:El; [|wp_step; split; [reflexivity | discriminate]].
  wp_step. apply calling_wp; [|reflexivity]. intros v Hv. wp_step. split; [reflexivity|]. intros Hvalid.
  destruct v as [|[|]| | | | |]; try discriminate. apply Nat.eqb_eq in El.
  match goal with H : snapshot_items _ _ = Ok ?snap, H' : cited_ids _ _ = Ok ?ids |- _ =>
    exists snap, ids; apply snapshot_items_spec in H; split_and!; [exact Hv | exact El |] end.
  eapply List.Forall_impl; [|eassumption]. intros item (s & Hs & Hin). exists s. split; [exact Hs|].
  rewrite <- list_elem_of_In, elem_of_remove_dups, list_elem_of_In in Hin. exact Hin.
Qed.

Lemma validate_publication_wp given r b : produced given r ->
  wp (_validate_publication limits deps request r)
    (fun r' b' => b_events b' = b_events b /\ delivered given r') (fun _ b' => b_events b' = b_events b) b.
Proof.
  intros Hr. unfold _validate_publication.
  destruct (bool_decide _) eqn:Es; cbn [negb]; bool_to_prop.
  2: { wp_step. split; [reflexivity|]. left. destruct Hr as [H|(es & ms & text & _ & _ & Ha & _)]; [exact H | contradiction]. }
  destruct Hr as [(Hs & _)|Hr]; [contradiction|].
  destruct (negb _ && _) eqn:Ev.
  - wp_step. split; [reflexivity|]. right. bool_to_prop. split; [|exact Hr]. unfold published.
    destruct (d_validator deps); [discriminate | assumption].
  - wp_step. wp_step. eapply wp_mono; [apply still_published_wp | |].
    + intros valid b' [He Hv]. cbv beta iota. destruct valid.
      * wp_step. split; [exact He|]. right. split; [exact (Hv eq_refl) | exact Hr].
      * wp_step; [split; [exact He | left; eauto with refusal] | exact He].
    + intros e b' He. cbv beta iota. wp_step; [split; [exact He | left; eauto with refusal] | exact He].
Qed.

(** ** Lease and time *)

Section with_lease.
Context {A : Type} (deliver : res prof_error ProfessorResponse -> P A).
(** The results of the work and of a refusal; what holds of the log before the
    work, and at every point of it, however far it gets. *)
Context (Q Qrefused : A -> Prop) (I0 I : RequestBudget -> Prop).
Context (Hrefused : forall a, Qrefused a -> Q a) (HI0 : forall b, I0 b -> I b).
Context (Hlog0 : forall c b, I0 b -> I0 (with_log (b_calls b ++ [c]) (b_events b) b)).
Context (Hlog : forall c b, I b -> I (with_log (b_calls b ++ [c]) (b_events b) b)).
Context (Hprefix : forall n k b, I b -> I (with_log (firstn n (b_calls b)) (firstn k (b_events b)) b)).

Definition keeps {B} (J : RequestBudget -> Prop) (T : B -> Prop) (m : P B) : Prop :=
  forall b, J b -> wp m (fun a b' => T a /\ I b') (fun _ => I) b.

Context (Hdeliver : forall stage, keeps I Qrefused (deliver (_failed limits request stage [] []))).
Context (work : P A) (Hwork : keeps I0 Q work).

Lemma keeps_mono {B} J (T T' : B -> Prop) m : (forall a, T a -> T' a) -> keeps J T m -> keeps J T' m.
Proof. intros HT Hm b Hb. eapply wp_mono; [apply Hm, Hb | | auto]. intros a b' [? ?]. auto. Qed.

Lemma keeps_start {B} (T : B -> Prop) m : keeps I T m -> keeps I0 T m.
Proof. intros Hm b Hb. apply Hm, HI0, Hb. Qed.

Lemma keeps_bind {B C} J (T : B -> Prop) (U : C -> Prop) m f :
  keeps J T m -> (forall a, T a -> keeps I U (f a)) -> keeps J U (m ≫= f).
Proof. intros Hm Hf b Hb. wp_step. eapply wp_mono; [apply Hm, Hb | | auto]. intros a b' [Ha Hb']. now apply Hf. Qed.

Lemma keeps_truncated {B} J (T : B -> Prop) p (m : P B) : keeps J T m -> keeps J (fun _ => True) (truncated p m).
Proof.
  intros Hm b Hb. specialize (Hm b Hb). unfold wp, truncated, exec in *.
  destruct (m b) as [b' [a|e]]; cbn; split; auto; apply Hprefix; tauto.
Qed.

Lemma keeps_log c : keeps I (fun _ => True) (log c).
Proof. intros b Hb. unfold log. wp_step. auto. Qed.

Lemma keeps_ret {B} (T : B -> Prop) a : T a -> keeps I T (mret a).
Proof. intros Ha b Hb. wp_step. auto. Qed.

Lemma keeps_raise {B} (T : B -> Prop) e : keeps I T (raise e).
Proof. intros b Hb. wp_step. exact Hb. Qed.

Lemma keeps_lift {B} (T : B -> Prop) r : (forall a, r = Ok a -> T a) -> keeps I T (lift r).
Proof. intros Hr b Hb. wp_step; auto. Qed.

Lemma keeps_refused stage : keeps I Q (deliver (_failed limits request stage [] [])).
Proof. eapply keeps_mono; [exact Hrefused | apply Hdeliver]. Qed.

Lemma keeps_heartbeat lm : keeps I0 Q (_run_with_lease_heartbeat limits time deliver lm request work).
Proof.
  unfold _run_with_lease_heartbeat. destruct (_ || _); [exact Hwork|].
  eapply keeps_bind; [eapply keeps_truncated, Hwork | intros _ _; apply keeps_refused].
Qed.

Lemma keeps_reasoning m : keeps I0 Q m -> keeps I0 Q (with_reasoning_budget limits time deliver request m).
Proof.
  intros Hm. unfold with_reasoning_budget. destruct (sc_reasoning time); [|exact Hm].
  eapply keeps_bind; [eapply keeps_truncated, Hm | intros _ _; apply keeps_refused].
Qed.

Lemma keeps_lease {B} (T : B -> Prop) (refuse : P B) around :
  keeps I T refuse -> (forall m, keeps I0 Q m -> keeps I0 T (around m)) ->
  keeps I0 T (with_lease limits deps lease_owner time deliver request refuse around work).
Proof.
  intros Href Haround. unfold with_lease. destruct (d_lease deps) as [lm|]; [|apply Haround, keeps_reasoning, Hwork].
  intros b Hb. wp_step. unfold log at 1. wp_step. apply Hlog0 with (c := C_acquire) in Hb. revert Hb.
  generalize (with_log (b_calls b ++ [C_acquire]) (b_events b) b) as b1. intros b1 Hb.
  destruct (lease_granted _ _ _ _); [|now apply Href, HI0].
  wp_step. wp_step. eapply wp_mono; [apply Haround; [apply keeps_reasoning, keeps_heartbeat | exact Hb] | |].
  - intros a b2 [Ha Hb2]. apply (keeps_bind I (fun _ => True)); [apply keeps_log | intros _ _; apply keeps_lift; now intros ? [= <-] | exact Hb2].
  - intros e b2 Hb2. apply (keeps_bind I (fun _ => True)); [apply keeps_log | intros _ _; apply keeps_lift; discriminate | exact Hb2].
Qed.

Lemma keeps_run_request : keeps I0 Q (_run_request limits deps lease_owner time deliver request work).
Proof. apply keeps_lease; [apply keeps_refused | auto]. Qed.

Lemma keeps_total_timeout validate i : (forall a, keeps I (fun _ => True) (validate a)) ->
  keeps I0 Qrefused (total_timeout limits deps lease_owner time deliver request work validate i).
Proof.
  intros Hv. unfold total_timeout. cbv zeta. destruct i as [|p| |p].
  - apply keeps_start. eapply keeps_bind; [|intros _ _; apply Hdeliver]. destruct (d_lease deps); [apply keeps_log | now apply keeps_ret].
  - eapply keeps_bind; [apply (keeps_lease (fun _ => True)); [now apply keeps_ret | intros; eapply keeps_truncated; eassumption] | intros _ _; apply Hdeliver].
  - eapply keeps_bind; [eapply keeps_bind; [apply keeps_run_request | intros a _; apply Hv] | intros _ _; apply Hdeliver].
  - eapply keeps_bind; [apply (keeps_lease (fun _ => True)); [now apply keeps_ret | intros; eapply keeps_truncated; eassumption] | intros _ _; apply keeps_raise].
Qed.
End with_lease.

(** ** Every response of [run] *)

Lemma run_delivered b :
  wp (run tanh validate_result limits deps lease_owner time request) (fun r _ => delivered completed r) any_error b.
Proof.
  unfold run. wp_step. wp_step; [|exact Logic.I].
  assert (forall stage, keeps (fun _ => True) (fun _ => True) (refusal limits) (lift (_failed limits request stage [] []))) as Hd
    by (intros stage; apply keeps_lift; eauto with refusal).
  assert (keeps (fun _ => True) (fun _ => True) (produced completed) (_run_generation tanh validate_result limits deps request)) as Hw.
  { intros b' _. eapply wp_mono; [apply run_generation_wp | auto | auto]. }
  destruct (sc_total time) as [i|].
  - eapply wp_mono; [apply (keeps_total_timeout lift (produced completed) (refusal limits) (fun _ => True) (fun _ => True)); auto; [now left|] | | now intros].
    { intros r b' _. unfold wp. match goal with |- match ?x with _ => _ end => destruct x as [b'' [|]] end; auto. }
    intros r b' [Hr _]. now left.
  - wp_step. eapply wp_mono; [apply (keeps_run_request lift (produced completed) (refusal limits) (fun _ => True) (fun _ => True)); auto; now left | | now intros].
    intros r b' [Hr _]. eapply wp_mono; [apply validate_publication_wp, Hr | | now intros]. intros r' b'' [_ Hd']. exact Hd'.
Qed.
End delivery.

(** ** The calls and events of one request

    Which dependencies a request calls, in which order, and what it streams,
    wherever it is interrupted. *)

(** ** Calls *)

(** [m] makes some of the calls of [l], in their order, whether it returns or
    raises. *)
Definition logs {A} (l : list call) (m : P A) : Prop :=
  forall b, exists w, b_calls (exec m b) = b_calls b ++ w /\ w `sublist_of` l.

Lemma logs_sub {A} l l' (m : P A) : logs l m -> l `sublist_of` l' -> logs l' m.
Proof. intros H Hl b. destruct (H b) as (w & Hw & Hs). exists w. split; [exact Hw | now transitivity l]. Qed.

Lemma logs_none {A} (m : P A) : (forall b, b_calls (exec m b) = b_calls b) -> logs [] m.
Proof. intros H b. exists []. rewrite app_nil_r. auto. Qed.

Lemma logs_bind {A B} l1 l2 (m : P A) (f : A -> P B) : logs l1 m -> (forall a, logs l2 (f a)) -> logs (l1 ++ l2) (m ≫= f).
Proof.
  intros Hm Hf b. destruct (Hm b) as (w1 & H1 & S1). unfold exec, mbind, M_bind in *. destruct (m b) as [b' [a|e]]; cbn in *.
  - destruct (Hf a b') as (w2 & H2 & S2). exists (w1 ++ w2). unfold exec in H2.
    split; [now rewrite H2, H1, app_assoc | now apply sublist_app].
  - exists w1. split; [exact H1 | now apply sublist_inserts_r].
Qed.

Lemma logs_then {A B} l (m : P A) (f : A -> P B) : logs [] m -> (forall a, logs l (f a)) -> logs l (m ≫= f).
Proof. exact (logs_bind [] l m f). Qed.

Lemma logs_last {A B} l (m : P A) (f : A -> P B) : logs l m -> (forall a, logs [] (f a)) -> logs l (m ≫= f).
Proof. intros Hm Hf. rewrite <- (app_nil_r l). now apply logs_bind. Qed.

Lemma logs_attempt {A} l (m : P A) : logs l m -> logs l (attempt m).
Proof. intros H b. destruct (H b) as (w & Hw & Hs). exists w. unfold exec, attempt in *. now destruct (m b) as [b' r]. Qed.

Lemma logs_try {A} l (m : P A) h : logs l m -> (forall e, logs [] (h e)) -> logs l (try_except m h).
Proof.
  intros Hm Hh b. destruct (Hm b) as (w & Hw & Hs). unfold exec, try_except in *. destruct (m b) as [b' [a|e]]; cbn in *; [eauto|].
  destruct (Hh e b') as (w' & Hw' & Hs'). apply sublist_nil_r in Hs' as ->. rewrite app_nil_r in Hw'. exists w.
  unfold exec in Hw'. now rewrite Hw'.
Qed.

Lemma logs_lift {A} (r : res prof_error A) : logs [] (lift r : P A).
Proof. now apply logs_none. Qed.
Lemma logs_guard b (e : prof_error) : logs [] (guard_not b e : P unit).
Proof. now apply logs_none. Qed.
Lemma logs_gets {A} (f : RequestBudget -> A) : logs [] (gets f : P A).
Proof. now apply logs_none. Qed.
Lemma logs_ret {A} (a : A) : logs [] (mret a : P A).
Proof. now apply logs_none. Qed.
Lemma logs_raise {A} e : logs [] (raise e : P A).
Proof. now apply logs_none. Qed.
Lemma logs_emit e : logs [] (emit e).
Proof. now apply logs_none. Qed.
Lemma logs_modify f : (forall b, b_calls (f b) = b_calls b) -> logs [] (modify f : P unit).
Proof. intros H. now apply logs_none. Qed.

Lemma logs_calling {A} c (o : outcome A) : logs [c] (calling c o).
Proof.
  intros b. exists [c]. split; [|reflexivity]. unfold calling, log, exec, mbind, M_bind, modify. cbn. now destruct o.
Qed.

Lemma logs_truncated {A} l p (m : P A) : logs l m -> logs l (truncated p m).
Proof.
  intros H b. destruct (H b) as (w & Hw & Hs). exists (firstn (pg_calls p) w). unfold exec in *. cbn.
  unfold exec. rewrite Hw. rewrite take_app_add. split; [reflexivity|].
  transitivity w; [|exact Hs]. rewrite <- (take_drop (pg_calls p) w) at 2. apply sublist_inserts_r. reflexivity.
Qed.

Create HintDb logs.
#[export] Hint Resolve logs_lift logs_guard logs_gets logs_ret logs_raise logs_emit logs_calling logs_attempt : logs.
#[export] Hint Extern 3 (logs [] (modify _)) => (apply logs_modify; reflexivity) : logs.

(** Steps through a program whose calls are known. *)
Ltac logging :=
  repeat match goal with
  | |- logs [] (_ ≫= _) => apply logs_then; [|intros ?]
  | |- logs [] (match ?o with _ => _ end) => destruct o
  | |- logs [] (if ?b then _ else _) => destruct b
  | _ => progress cbv zeta
  | _ => solve [eauto with logs]
  end.

Section traces.
Context (tanh : pyfloat -> pyfloat).
Context (validate_result : pyval -> option ChatCompletionResult) (validate_chunk : pyval -> option ChatCompletionChunk).
Context (limits : ProfessorLimits) (deps : dependencies) (lease_owner : string) (time : schedule).
Context (request : ProfessorRequest).

Lemma prepare_logs : logs [C_retrieve] (prepare tanh limits deps request).
Proof.
  unfold prepare. apply logs_last; [apply logs_attempt | intros [v|e]; logging].
  unfold _retrieve. apply logs_then; [unfold _consume_retrieval_round; logging | intros _].
  destruct (d_retrieve deps); [|eapply logs_sub; [apply logs_raise | apply sublist_nil_l]].
  apply logs_last; [apply logs_calling | intros v; logging].
Qed.

Lemma consume_provider_logs : logs [] (_consume_provider_call limits).
Proof. unfold _consume_provider_call. logging. Qed.

Lemma consume_tool_logs n : logs [] (_consume_tool_calls limits n).
Proof. unfold _consume_tool_calls. logging. Qed.

Lemma complete_logs messages : logs [C_provider] (complete validate_result limits deps request messages).
Proof.
  unfold complete. apply logs_then; [apply consume_provider_logs | intros _].
  destruct (d_complete deps); [|eapply logs_sub; [apply logs_raise | apply sublist_nil_l]].
  apply logs_last; [apply logs_calling | intros raw]. apply logs_then; [eauto with logs | intros c].
  apply logs_then; [apply consume_tool_logs | intros _; apply logs_ret].
Qed.

Lemma run_generation_logs : logs [C_retrieve; C_provider] (_run_generation tanh validate_result limits deps request).
Proof.
  unfold _run_generation. apply (logs_bind [C_retrieve]); [apply prepare_logs | intros [r|[meta es ms]]].
  - eapply logs_sub; [apply logs_ret | apply sublist_nil_l].
  - apply logs_last; [apply logs_attempt, complete_logs | intros [c|e]; logging].
Qed.

Lemma validate_logs r : logs [C_validate] (_validate_publication limits deps request r).
Proof.
  unfold _validate_publication. assert (forall A (m : P A), logs [] m -> logs [C_validate] m) as Hnil
    by (intros A m Hm; eapply logs_sub; [exact Hm | apply sublist_nil_l]).
  destruct (negb _); [apply Hnil, logs_ret|]. destruct (_ && _); [apply Hnil, logs_ret|].
  apply logs_last; [apply logs_attempt | intros [[|]|e]; logging].
  unfold still_published. cbv zeta. repeat (apply logs_then; [eauto with logs | intros ?]).
  destruct (d_validator deps); [|apply Hnil, logs_ret]. destruct (_ =? _)%nat; [|apply Hnil, logs_ret].
  apply logs_last; [apply logs_calling | intros v; apply logs_ret].
Qed.

(** A response that is not approved is not validated again. *)
Lemma unapproved_logs r : rs_evidence_status r <> APPROVED_EVIDENCE -> logs [] (_validate_publication limits deps request r).
Proof. intros H. unfold _validate_publication. rewrite bool_decide_false by exact H. apply logs_ret. Qed.

Lemma logs_nothing {A} l (m : P A) : logs [] m -> logs l m.
Proof. intros Hm. eapply logs_sub; [exact Hm | apply sublist_nil_l]. Qed.

Lemma logs_lift_bind {A B} l (r : res prof_error A) (f : A -> P B) :
  (forall a, r = Ok a -> logs l (f a)) -> logs l (lift r ≫= f).
Proof.
  intros H. destruct r as [a|e]; intros b; [exact (H a eq_refl b)|].
  exists []. rewrite app_nil_r. split; [reflexivity | apply sublist_nil_l].
Qed.

Lemma yield_logs l r : (forall a, r = Ok a -> logs l (_validate_publication limits deps request a)) ->
  logs l (yield_final limits deps request r).
Proof.
  intros H. unfold yield_final. apply logs_lift_bind. intros a Ha.
  apply logs_last; [apply logs_attempt, H, Ha | intros [r'|e]; logging].
Qed.

Lemma yield_any r : logs [C_validate] (yield_final limits deps request r).
Proof. apply yield_logs. intros a _. apply validate_logs. Qed.

Lemma yield_refusal r : (forall a, r = Ok a -> refusal limits a) -> logs [] (yield_final limits deps request r).
Proof. intros H. apply yield_logs. intros a Ha. apply unapproved_logs, (H a Ha). Qed.

Lemma yield_failed stage es meta : logs [] (yield_final limits deps request (_failed limits request stage es meta)).
Proof. apply yield_refusal. eauto with refusal. Qed.

Hint Resolve yield_failed : logs.

Lemma buffered_logs p : logs [C_provider; C_validate] (buffered_generation validate_result limits deps request p).
Proof.
  destruct p as [meta es ms]. unfold buffered_generation. apply logs_try; [|intros []; logging].
  apply (logs_bind [C_provider]); [apply complete_logs | intros c].
  destruct (negb _); [apply logs_nothing, yield_failed|].
  apply logs_then; [apply logs_emit | intros _; apply yield_any].
Qed.

Lemma on_chunk_logs prompt st item : logs [] (on_chunk validate_chunk limits prompt st item).
Proof.
  unfold on_chunk, on_tools, on_delta. apply logs_lift_bind. intros c _. do 2 (apply logs_then; [apply logs_guard | intros _]).
  cbv zeta. apply logs_then.
  { destruct (remove_dups _); [apply logs_ret|]. apply logs_then; [apply consume_tool_logs | intros _; apply logs_ret]. }
  intros st1. apply logs_then; [|intros; apply logs_ret]. destruct (is_empty _); [apply logs_ret|].
  do 2 (apply logs_then; [apply logs_guard | intros _]). logging.
Qed.

Lemma on_chunks_logs prompt items : forall st, logs [] (on_chunks validate_chunk limits prompt st items).
Proof.
  induction items as [|item items IH]; intros st; cbn [on_chunks]; [apply logs_ret|].
  apply logs_then; [apply on_chunk_logs | auto].
Qed.

Lemma stream_generation_logs :
  logs [C_retrieve; C_provider; C_validate] (_stream_generation tanh validate_result validate_chunk limits deps request).
Proof.
  unfold _stream_generation. apply (logs_bind [C_retrieve]); [apply prepare_logs | intros [r|p]].
  - eapply logs_sub; [apply yield_any | apply sublist_cons; reflexivity].
  - destruct (d_stream deps) as [target|]; [|apply buffered_logs].
    apply (logs_bind [C_provider]).
    + apply logs_attempt. unfold consume_stream. apply logs_then; [apply consume_provider_logs | intros _].
      apply logs_last; [apply logs_calling | intros s]. apply logs_then; [apply on_chunks_logs | intros st; logging].
    + intros [st|e]; [|apply logs_nothing, yield_failed]. destruct p as [meta es ms]. unfold assembled. cbv zeta.
      destruct (_ || _); [apply logs_nothing, yield_failed|].
      destruct (ChatCompletionResult_new _ _ _ _ _ _); [|apply logs_nothing, yield_failed].
      destruct (negb _); [apply logs_nothing, yield_failed | apply yield_any].
Qed.

(** ** The lease around the work *)

(** The calls of one request: with a lease manager, nothing but the
    acquisition, or the acquisition, the work, and one release. *)
Inductive lease_trace (work after : list call) : list call -> Prop :=
| trace_without_lease w v : d_lease deps = None -> w `sublist_of` work -> v `sublist_of` after -> lease_trace work after (w ++ v)
| trace_refused lm : d_lease deps = Some lm -> lease_trace work after [C_acquire]
| trace_leased lm w v : d_lease deps = Some lm -> lease_granted limits lease_owner lm request = true ->
    w `sublist_of` work -> v `sublist_of` after -> lease_trace work after (C_acquire :: w ++ C_release :: v).

Section delivery.
Context {A : Type} (deliver : res prof_error ProfessorResponse -> P A) (work : P A) (l : list call).
Context (Hdeliver : forall stage, logs [] (deliver (_failed limits request stage [] []))) (Hwork : logs l work).

Lemma bounded_logs lm :
  logs l (with_reasoning_budget limits time deliver request (_run_with_lease_heartbeat limits time deliver lm request work)).
Proof.
  assert (logs l (_run_with_lease_heartbeat limits time deliver lm request work)) as Hh.
  { unfold _run_with_lease_heartbeat. destruct (_ || _); [exact Hwork|].
    apply logs_last; [apply logs_truncated, Hwork | intros _; apply Hdeliver]. }
  unfold with_reasoning_budget. destruct (sc_reasoning time); [|exact Hh].
  apply logs_last; [apply logs_truncated, Hh | intros _; apply Hdeliver].
Qed.

(** The calls of a leased computation and of what follows it. *)
Lemma lease_calls {B C} after (refuse : P B) around (f : B -> P C) b :
  logs [] (refuse ≫= f) -> (forall m, logs l m -> logs l (around m)) -> (forall a, logs after (f a)) -> b_calls b = [] ->
  lease_trace l after (b_calls (exec (with_lease limits deps lease_owner time deliver request refuse around work ≫= f) b)).
Proof.
  intros Href Haround Hf Hb. unfold with_lease. destruct (d_lease deps) as [lm|] eqn:El.
  - set (b1 := with_log (b_calls b ++ [C_acquire]) (b_events b) b).
    assert (b_calls b1 = [C_acquire]) as Hb1 by (cbn; now rewrite Hb).
    destruct (lease_granted limits lease_owner lm request) eqn:Eg.
    + set (m := around _). assert (logs l m) as Hm by (apply Haround, bounded_logs).
      destruct (Hm b1) as (w & Hw & Sw).
      change (lease_trace l after (b_calls (exec ((r ← attempt m; log C_release;; lift r) ≫= f) b1))).
      clearbody b1. assert (exists b2 r, m b1 = (b2, r)) as (b2 & r & E) by (destruct (m b1); eauto).
      unfold exec in Hw |- *. rewrite E in Hw. cbn in Hw. rewrite Hb1 in Hw.
      set (b3 := with_log (b_calls b2 ++ [C_release]) (b_events b2) b2).
      assert (b_calls b3 = C_acquire :: w ++ [C_release]) as Hb3 by (cbn; now rewrite Hw).
      replace (((r0 ← attempt m; log C_release;; lift r0) ≫= f) b1) with ((lift r ≫= f) b3)
        by (unfold attempt, log, mbind, M_bind, modify; now rewrite E).
      assert (logs after (lift r ≫= f)) as Hr by (apply logs_lift_bind; auto).
      destruct (Hr b3) as (v & Hv & Sv). unfold exec in Hv. rewrite Hv, Hb3, <- app_comm_cons, <- app_assoc.
      econstructor; eassumption.
    + change (lease_trace l after (b_calls (exec (refuse ≫= f) b1))).
      destruct (Href b1) as (w & Hw & Sw). apply sublist_nil_r in Sw as ->. rewrite Hw, Hb1. cbn. econstructor; eassumption.
  - assert (logs l (around (with_reasoning_budget limits time deliver request work))) as Hm.
    { apply Haround. unfold with_reasoning_budget. destruct (sc_reasoning time); [|exact Hwork].
      apply logs_last; [apply logs_truncated, Hwork | intros _; apply Hdeliver]. }
    destruct (logs_bind _ _ _ f Hm Hf b) as (w & Hw & Sw). rewrite Hw, Hb. cbn.
    apply sublist_app_r in Sw as (w1 & w2 & -> & S1 & S2). now constructor.
Qed.

Lemma exec_bind_assoc {B C D} (m : P B) (f : B -> P C) (g : C -> P D) b :
  exec ((m ≫= f) ≫= g) b = exec (m ≫= fun a => f a ≫= g) b.
Proof. unfold exec, mbind, M_bind. now destruct (m b) as [b' [a|e]]. Qed.

(** A request that is not interrupted from outside, and what follows it. *)
Lemma run_request_calls {B} after (f : A -> P B) b :
  (forall stage, logs [] (deliver (_failed limits request stage [] []) ≫= f)) -> (forall a, logs after (f a)) -> b_calls b = [] ->
  lease_trace l after (b_calls (exec (_run_request limits deps lease_owner time deliver request work ≫= f) b)).
Proof. intros Hr Hf Hb. unfold _run_request. apply lease_calls; auto. Qed.

Lemma total_timeout_calls after validate i b :
  (forall stage, logs [] (deliver (_failed limits request stage [] []) ≫= validate)) -> (forall a, logs after (validate a)) ->
  b_calls b = [] ->
  lease_trace l after (b_calls (exec (total_timeout limits deps lease_owner time deliver request work validate i) b)).
Proof.
  intros Hr Hv Hb. unfold total_timeout. cbv zeta.
  assert (forall {B} (m : P B), logs [] m -> logs after m) as Hnil by (intros; now apply logs_nothing).
  destruct i as [|p| |p].
  - destruct (d_lease deps) as [lm|] eqn:El.
    + set (b1 := with_log (b_calls b ++ [C_acquire]) (b_events b) b).
      destruct (Hdeliver "total_request_timeout" b1) as (w & Hw & Sw). apply sublist_nil_r in Sw as ->.
      match goal with |- lease_trace _ _ ?c => replace c with [C_acquire] end; [eapply trace_refused, El|].
      change ([C_acquire] = b_calls (exec (deliver (_failed limits request "total_request_timeout" [] [])) b1)).
      rewrite Hw. cbn. now rewrite Hb.
    + destruct (logs_then [] (mret tt) (fun _ => deliver (_failed limits request "total_request_timeout" [] [])) (logs_ret tt)
        (fun _ => Hdeliver _) b) as (w & Hw & Sw).
      apply sublist_nil_r in Sw as ->. rewrite Hw, Hb. apply (trace_without_lease _ _ [] []); [exact El | apply sublist_nil_l ..].
  - apply lease_calls; auto; [|intros m Hm; now apply logs_truncated]. apply logs_then; [apply logs_ret | intros _; apply Hdeliver].
  - rewrite exec_bind_assoc. apply run_request_calls; auto.
    + intros stage b'. destruct (logs_last [] (deliver (_failed limits request stage [] []) ≫= validate)
        (fun _ => deliver (_failed limits request "total_request_timeout" [] [])) (Hr stage) (fun _ => Hdeliver _) b') as (w & Hw & Sw).
      exists w. now rewrite exec_bind_assoc in Hw.
    + intros a. apply logs_last; [apply Hv | intros _; apply Hdeliver].
  - apply lease_calls; auto; [|intros m Hm; now apply logs_truncated| intros _; apply Hnil, logs_raise].
    apply logs_then; [apply logs_ret | intros _; apply logs_raise].
Qed.
End delivery.

(** ** The calls of [run] and [stream] *)

Definition started : bool := is_ok (_validate_request request).

Lemma start_calls {A} (m : P A) (T : list call -> Prop) b :
  b_calls b = [] -> (started = true -> T (b_calls (exec m b))) ->
  let calls := b_calls (exec (lift (_validate_request request);; m) b) in if started then T calls else calls = [].
Proof.
  intros Hb Hm. unfold started in *. cbv zeta. unfold exec, mbind, M_bind, lift in *.
  destruct (_validate_request request) as [u|e]; cbn [is_ok]; [now apply Hm | exact Hb].
Qed.

(** The trace of a request whose generation makes the calls [l]. *)
Lemma run_calls_in l : logs l (_run_generation tanh validate_result limits deps request) ->
  let calls := b_calls (exec (run tanh validate_result limits deps lease_owner time request) new_budget) in
  if started then lease_trace l [C_validate] calls else calls = [].
Proof.
  intros Hl. unfold run. apply start_calls; [reflexivity | intros _].
  assert (forall stage, logs [] (lift (_failed limits request stage [] []) : P ProfessorResponse)) as Hd by (intros; apply logs_lift).
  destruct (sc_total time) as [i|].
  - apply total_timeout_calls; try reflexivity; auto.
    + intros stage. apply logs_lift_bind. intros a Ha. apply logs_last; [|intros r; apply logs_ret].
      apply logs_attempt, unapproved_logs. now apply failed_refusal in Ha as [Ha _].
    + intros a. apply logs_last; [apply logs_attempt, validate_logs | intros r; apply logs_ret].
  - apply run_request_calls; try reflexivity; auto using validate_logs.
    intros stage. apply logs_lift_bind. intros a Ha. apply unapproved_logs. now apply failed_refusal in Ha as [Ha _].
Qed.

Lemma stream_calls_in l : logs l (_stream_generation tanh validate_result validate_chunk limits deps request) ->
  let calls := b_calls (exec (stream tanh validate_result validate_chunk limits deps lease_owner time request) new_budget) in
  if started then lease_trace l [] calls else calls = [].
Proof.
  intros Hl. unfold stream. apply start_calls; [reflexivity | intros _].
  destruct (sc_total time) as [i|].
  - apply total_timeout_calls; try reflexivity; auto using yield_failed, logs_ret.
    intros stage. apply logs_then; [apply yield_failed | intros; apply logs_ret].
  - rewrite <- (exec_bind_ret _ id). apply run_request_calls; try reflexivity; auto using yield_failed, logs_ret.
    intros stage. apply logs_then; [apply yield_failed | intros; apply logs_ret].
Qed.

Lemma run_calls :
  let calls := b_calls (exec (run tanh validate_result limits deps lease_owner time request) new_budget) in
  if started then lease_trace [C_retrieve; C_provider] [C_validate] calls else calls = [].
Proof. apply run_calls_in, run_generation_logs. Qed.

Lemma stream_calls :
  let calls := b_calls (exec (stream tanh validate_result validate_chunk limits deps lease_owner time request) new_budget) in
  if started then lease_trace [C_retrieve; C_provider; C_validate] [] calls else calls = [].
Proof. apply stream_calls_in, stream_generation_logs. Qed.

(** ** A request that is refused before generation *)

(** Whatever was called before, the preparation ends in a refusal. *)
Definition never_prepares : Prop := forall b p, eval (prepare tanh limits deps request) b <> Ok (inr p).

Lemma logs_bind_given {A B} l (T : A -> Prop) (m : P A) (f : A -> P B) :
  logs l m -> (forall b a, eval m b = Ok a -> T a) -> (forall a, T a -> logs [] (f a)) -> logs l (m ≫= f).
Proof.
  intros Hm HT Hf b. destruct (Hm b) as (w & Hw & Sw). specialize (HT b). unfold exec, eval, mbind, M_bind in *.
  destruct (m b) as [b' [a|e]]; cbn in *; [|eauto]. destruct (Hf a (HT a eq_refl) b') as (v & Hv & Sv).
  apply sublist_nil_r in Sv as ->. rewrite app_nil_r in Hv. exists w. unfold exec in Hv. split; [congruence | exact Sw].
Qed.

Lemma refused_calls : never_prepares ->
  C_provider ∉ b_calls (exec (run tanh validate_result limits deps lease_owner time request) new_budget)
  /\ C_provider ∉ b_calls (exec (stream tanh validate_result validate_chunk limits deps lease_owner time request) new_budget).
Proof.
  intros Hn.
  assert (logs [C_retrieve] (_run_generation tanh validate_result limits deps request)) as H1.
  { apply (logs_bind_given _ (fun r => exists a, r = inl a)); [apply prepare_logs | |].
    - intros b [a|p] H; [eauto | now apply Hn in H].
    - intros _ [a ->]. apply logs_ret. }
  assert (logs ([C_retrieve] ++ [C_validate]) (_stream_generation tanh validate_result validate_chunk limits deps request)) as H2.
  { intros b. destruct (prepare_logs b) as (w & Hw & Sw). specialize (Hn b). unfold _stream_generation, exec, eval, mbind, M_bind in *.
    destruct (prepare tanh limits deps request b) as [b' [[a|p]|e]]; cbn [fst snd] in *; [| now destruct (Hn p) |].
    - destruct (yield_any (Ok a) b') as (v & Hv & Sv). unfold exec in Hv.
      exists (w ++ v). split; [rewrite Hv, Hw; now rewrite app_assoc | now apply sublist_app].
    - exists w. split; [exact Hw|]. now apply sublist_inserts_r. }
  apply run_calls_in in H1. apply stream_calls_in in H2. cbv zeta in *.
  assert (forall work after calls, C_provider ∉ work ++ after -> lease_trace work after calls -> C_provider ∉ calls) as Htrace.
  { intros work after calls Hnot Ht Hin. apply Hnot, elem_of_app.
    assert (forall w l, w `sublist_of` l -> C_provider ∈ w -> C_provider ∈ l) as Hsub by (intros; eapply elem_of_sublist; eassumption).
    destruct Ht as [w v _ Sw Sv|lm _|lm w v _ _ Sw Sv].
    - apply elem_of_app in Hin as [Hin|Hin]; eauto.
    - apply list_elem_of_singleton in Hin. discriminate.
    - apply elem_of_cons in Hin as [[=]|Hin]. apply elem_of_app in Hin as [Hin|Hin]; [eauto|].
      apply elem_of_cons in Hin as [[=]|Hin]. eauto. }
  destruct started.
  - split; (eapply Htrace; [|eassumption]); set_solver.
  - rewrite H1, H2. set_solver.
Qed.
End traces.
