(* ===== verification/StreamEquivalence.v ===== *)
(** * The streamed professor

    The events that a stream delivers, and its equivalence with the complete request when the
    provider streams the answer it would have completed. *)

From Stdlib Require Import Ascii String.
From stdpp Require Import strings list.
From S2P Require Import Prelude PyFloat PyStr PyVal StateError PyNumber ProfessorModels Professor Orchestrator.
From S2P Require Import OrchestratorLemmas.

Local Open Scope string_scope.
Local Open Scope Z_scope.
Local Open Scope list_scope.

(** ** What a stream shows

    The text and the final responses a consumer of [stream] has received at
    any point: the invariant of the event log, and that a stream that ends
    ends with a final response. *)

(** ** Shown text *)

Definition delta_text (e : event) : string := match e with Delta t => t | Final _ => EmptyString end.

(** The provisional text of some events. *)
Definition shown (events : list event) : string := join EmptyString (map delta_text events).

Lemma append_nil (s : string) : s +:+ EmptyString = s.
Proof. induction s as [|c s IH]; cbn; congruence. Qed.

Lemma join_cons w l : join EmptyString (w :: l) = w +:+ join EmptyString l.
Proof. destruct l; cbn; [now rewrite append_nil | reflexivity]. Qed.

Lemma join_app l1 l2 : join EmptyString (l1 ++ l2) = join EmptyString l1 +:+ join EmptyString l2.
Proof. induction l1 as [|w l1 IH]; [reflexivity|]. cbn [app]. now rewrite !join_cons, IH, append_assoc. Qed.

Lemma shown_app a b : shown (a ++ b) = shown a +:+ shown b.
Proof. unfold shown. now rewrite map_app, join_app. Qed.

Lemma shown_deltas parts : shown (map Delta parts) = join EmptyString parts.
Proof. unfold shown. rewrite map_map. cbn. now rewrite map_id. Qed.

Lemma slen_shown_prefix k events : slen (shown (firstn k events)) <= slen (shown events).
Proof. rewrite <- (firstn_skipn k events) at 2. rewrite shown_app, slen_app. pose proof (slen_nonneg (shown (skipn k events))). lia. Qed.

Section stream.
Context (tanh : pyfloat -> pyfloat).
Context (validate_result : pyval -> option ChatCompletionResult) (validate_chunk : pyval -> option ChatCompletionChunk).
Context (limits : ProfessorLimits) (deps : dependencies) (lease_owner : string) (time : schedule).
Context (request : ProfessorRequest) (Hlimits : limits_ok limits).

(** How the provider gave [text] for a stream. *)
Definition stream_gave (messages : list ProviderMessage) (text : string) : Prop :=
  match d_stream deps with
  | Some _ => streamed validate_chunk deps request messages text
  | None => completed validate_result limits deps request messages text
  end.

(** The most provisional text a consumer is shown. *)
Definition shown_bound : Z :=
  match d_stream deps with Some _ => max_answer_chars limits + 8 * 140 | None => 4 * max_tokens limits end.

(** A final response behind the events [pre]: its answer is to the text shown. *)
Definition final_ok (pre : list event) (r : ProfessorResponse) : Prop :=
  delivered tanh limits deps request (fun ms text => stream_gave ms text /\ text = shown pre) r.

Record events_ok (b : RequestBudget) : Prop := {
  ev_finals : forall pre r post, b_events b = pre ++ Final r :: post -> final_ok pre r;
  ev_bound : slen (shown (b_events b)) <= shown_bound }.

Lemma bound_nonneg : 0 <= shown_bound.
Proof. unfold shown_bound. destruct Hlimits as (_ & _ & _ & _ & ? & _ & _ & _ & ?). destruct (d_stream deps); lia. Qed.

Lemma events_ok_nil b : b_events b = [] -> events_ok b.
Proof.
  intros H. constructor; rewrite H; [|cbn; apply bound_nonneg]. intros pre r post He.
  destruct pre; discriminate.
Qed.

Lemma events_ok_same b b' : b_events b' = b_events b -> events_ok b -> events_ok b'.
Proof. intros H [H1 H2]. constructor; rewrite H; auto. Qed.

Lemma events_ok_prefix n k b : events_ok b -> events_ok (with_log (firstn n (b_calls b)) (firstn k (b_events b)) b).
Proof.
  intros [H1 H2]. constructor; cbn [b_events with_log].
  - intros pre r post He. apply (H1 pre r (post ++ skipn k (b_events b))).
    rewrite <- (firstn_skipn k (b_events b)) at 1. now rewrite He, <- app_assoc.
  - cbn [b_events with_log]. etrans; [apply slen_shown_prefix | exact H2].
Qed.

Lemma events_ok_final b r : events_ok b -> final_ok (b_events b) r ->
  events_ok (with_log (b_calls b) (b_events b ++ [Final r]) b).
Proof.
  intros [H1 H2] Hr. constructor; cbn [b_events with_log].
  - intros pre r' post He. induction post as [|e post _] using rev_ind.
    + apply app_inj_tail in He as [<- [= <-]]. exact Hr.
    + rewrite app_comm_cons, app_assoc in He. apply app_inj_tail in He as [He _]. exact (H1 _ _ _ He).
  - cbn [b_events with_log]. rewrite shown_app. change (shown [Final r]) with EmptyString. now rewrite append_nil.
Qed.

Lemma events_ok_deltas b parts : b_events b = map Delta parts -> slen (join EmptyString parts) <= shown_bound -> events_ok b.
Proof.
  intros He Hb. constructor; rewrite He; [|now rewrite shown_deltas]. intros pre r post H. exfalso.
  assert (In (Final r) (map Delta parts)) as Hin by (rewrite H; apply in_elt).
  apply in_map_iff in Hin as (x & Hx & _). discriminate.
Qed.


(** ** Yielding *)

Definition raised_ok (_ : prof_error) (b : RequestBudget) : Prop := events_ok b.

Lemma yield_wp r b : events_ok b ->
  (forall a, r = Ok a -> produced tanh limits deps request (fun ms text => stream_gave ms text /\ text = shown (b_events b)) a) ->
  wp (yield_final limits deps request r) (fun _ => events_ok) raised_ok b.
Proof.
  intros Hb Hr. unfold yield_final. wp_step. wp_step; [|exact Hb]. wp_step. wp_step.
  eapply wp_mono; [eapply validate_publication_wp, Hr; eassumption | |]; cbn beta iota.
  - intros r' b' [He Hd]. unfold emit. wp_step. apply events_ok_final; [exact (events_ok_same _ _ He Hb)|].
    unfold final_ok. now rewrite He.
  - intros e b' He. wp_step. exact (events_ok_same _ _ He Hb).
Qed.

Lemma yield_refused_wp r b : events_ok b -> (forall a, r = Ok a -> refusal limits a) ->
  wp (yield_final limits deps request r) (fun _ => events_ok) raised_ok b.
Proof. intros Hb Hr. apply yield_wp; [exact Hb|]. intros a Ha. left. now apply Hr. Qed.

Lemma yield_failed_wp stage es meta b : events_ok b ->
  wp (yield_final limits deps request (_failed limits request stage es meta)) (fun _ => events_ok) raised_ok b.
Proof. intros Hb. apply yield_refused_wp; [exact Hb|]. eauto with refusal. Qed.

(** ** A provider that cannot stream *)

Lemma estimated_bound text n : _estimated_tokens text <= n -> slen text <= 4 * n.
Proof. unfold _estimated_tokens. intros H. pose proof (Z.div_lt_upper_bound (slen text + 3) 4 (n + 1)). 
  destruct (Z_le_gt_dec (slen text) (4 * n)) as [|Hg]; [assumption|].
  assert (n + 1 <= (slen text + 3) / 4) by (apply Z.div_le_lower_bound; lia). lia.
Qed.

Lemma prompt_tokens_nonneg messages : 0 <= prompt_tokens messages.
Proof. unfold prompt_tokens. induction messages as [|m ms IH]; cbn; [lia|]. unfold _estimated_tokens at 1. lia. Qed.

Lemma within_budget_bound c messages n :
  _completion_within_token_budget c messages n = true -> slen (cc_content c) <= 4 * n.
Proof.
  unfold _completion_within_token_budget. cbv zeta. intros H. bool_to_prop.
  pose proof (prompt_tokens_nonneg messages). apply estimated_bound. lia.
Qed.

Lemma buffered_wp p b : b_events b = [] -> d_stream deps = None ->
  prepared_from tanh limits deps request (pp_evidence p) (pp_messages p) ->
  wp (buffered_generation validate_result limits deps request p) (fun _ => events_ok) raised_ok b.
Proof.
  intros Hb Hs Hp. destruct p as [meta es ms]. unfold buffered_generation. cbn [pp_evidence pp_messages] in Hp.
  assert (forall e b', events_ok b' -> wp (match e with Closing _ => raise e | _ =>
      yield_final limits deps request (_failed limits request (budget_stage e "provider_failed") es meta) end)
      (fun _ => events_ok) raised_ok b') as Hhandler.
  { intros e b' Hb'. destruct e; try (apply yield_failed_wp, Hb'). wp_step. exact Hb'. }
  apply wp_try. wp_step. eapply wp_mono; [apply complete_wp | |].
  - intros c b' (He & target & raw & Ht & Hraw & Hc). rewrite Hb in He.
    destruct (negb _) eqn:Ew.
    + eapply wp_mono; [apply yield_failed_wp, events_ok_nil, He | auto | intros; apply Hhandler; assumption].
    + apply negb_false_iff in Ew. pose proof (within_budget_bound _ _ _ Ew) as Hlen.
      wp_step. unfold emit at 1. wp_step. set (b1 := with_log _ _ _).
      assert (b_events b1 = map Delta [cc_content c]) as He1 by (cbn; now rewrite He).
      assert (events_ok b1) as Hok.
      { eapply events_ok_deltas; [exact He1|]. cbn. unfold shown_bound. now rewrite Hs. }
      eapply wp_mono; [apply yield_wp; [exact Hok|] | auto | intros; apply Hhandler; assumption].
      intros r Hr. apply completion_response_spec in Hr as [Hr|(Ha & Hf & Htc & _ & _)]; [now left|]. right.
      exists es, ms, (cc_content c). split_and!; try assumption.
      * unfold stream_gave. rewrite Hs. exists target, raw, c. auto 10.
      * rewrite He1, shown_deltas. reflexivity.
  - intros e b' He. apply Hhandler, events_ok_nil. congruence.
Qed.

(** ** A provider that streams *)

(** Behind the chunks consumed so far. *)
Record consumed (chunks : list ChatCompletionChunk) (st : stream_state) (b : RequestBudget) : Prop := {
  cs_events : b_events b = map Delta (ss_parts st);
  cs_text : join EmptyString (ss_parts st) = join EmptyString (map ck_delta chunks);
  cs_chars : slen (join EmptyString (ss_parts st)) = ss_chars st;
  cs_bound : ss_chars st <= max_answer_chars limits + 8 * 140;
  cs_finish : ss_finish st = F_stop -> Exists (fun c => ck_finish_reason c = Some F_stop) chunks;
  cs_tools : ss_tools st = [] -> Forall (fun c => ck_tool_calls c = []) chunks }.

Context (target : list ProviderMessage -> string -> outcome (list (foreign ChatCompletionChunk) * bool)).
Context (Hstream : d_stream deps = Some target).

Lemma consumed_ok chunks st b : consumed chunks st b -> events_ok b.
Proof.
  intros [H1 _ H3 H4 _ _]. eapply events_ok_deltas; [exact H1|]. unfold shown_bound. rewrite Hstream. lia.
Qed.

(** The state with the tools of one chunk. *)
Lemma on_tools_wp st deltas b :
  wp (on_tools limits st deltas)
    (fun st' b' => b_events b' = b_events b /\ ss_parts st' = ss_parts st /\ ss_finish st' = ss_finish st
       /\ ss_chars st' = ss_chars st /\ (ss_tools st' = [] -> ss_tools st = [] /\ deltas = []))
    (fun _ b' => b_events b' = b_events b) b.
Proof.
  unfold on_tools. cbv zeta. destruct (remove_dups _) as [|i fresh] eqn:E.
  - wp_step. split_and!; try reflexivity. intros Ht. split; [exact Ht|]. rewrite Ht in E.
    destruct deltas as [|d deltas]; [reflexivity|]. exfalso.
    assert (td_index d ∈ remove_dups (List.filter (fun i => negb (bool_decide (i ∈ ([] : list Z)))) (map td_index (d :: deltas)))) as Hin.
    { apply elem_of_remove_dups, list_elem_of_In, filter_In. split; [now left|]. rewrite bool_decide_false; [reflexivity | apply not_elem_of_nil]. }
    rewrite E in Hin. now apply not_elem_of_nil in Hin.
  - unfold _consume_tool_calls. repeat wp_step; try reflexivity. cbn. split_and!; try reflexivity.
    intros Hnil. destruct (ss_tools st); discriminate.
Qed.

Lemma on_delta_wp prompt st delta b :
  slen (join EmptyString (ss_parts st)) = ss_chars st -> ss_chars st <= max_answer_chars limits + 8 * 140 ->
  b_events b = map Delta (ss_parts st) ->
  wp (on_delta limits prompt st delta)
    (fun st' b' => b_events b' = map Delta (ss_parts st')
       /\ join EmptyString (ss_parts st') = join EmptyString (ss_parts st) +:+ delta
       /\ slen (join EmptyString (ss_parts st')) = ss_chars st' /\ ss_chars st' <= max_answer_chars limits + 8 * 140
       /\ ss_finish st' = ss_finish st /\ ss_tools st' = ss_tools st)
    (fun _ b' => b_events b' = b_events b) b.
Proof.
  intros Hc Hbound He. unfold on_delta. destruct (is_empty delta) eqn:Ed.
  - apply is_empty_true in Ed as ->. wp_step. rewrite append_nil. auto 10.
  - cbv zeta. repeat wp_step; try reflexivity. unfold emit. repeat wp_step. cbn [b_events with_log ss_parts ss_chars ss_finish ss_tools].
    bool_to_prop. rewrite map_app, join_app, slen_app, He. cbn [map join]. split_and!; try reflexivity; lia.
Qed.

Lemma validated_map_snoc items chunks item c :
  res_mapM (validated validate_chunk) items = Ok chunks -> validated validate_chunk item = Ok c ->
  res_mapM (validated validate_chunk) (items ++ [item]) = Ok (chunks ++ [c]).
Proof.
  revert chunks. induction items as [|i items IH]; intros chunks H Hc; cbn in *.
  - apply Ok_inj in H as ->. now rewrite Hc.
  - apply bind_Ok in H as (c0 & H0 & H). apply bind_Ok in H as (cs & Hcs & H). apply Ok_inj in H as ->.
    rewrite H0. cbn. rewrite (IH cs Hcs Hc). reflexivity.
Qed.

Lemma on_chunk_wp prompt st item chunks b : consumed chunks st b ->
  wp (on_chunk validate_chunk limits prompt st item)
    (fun st' b' => exists c, validated validate_chunk item = Ok c /\ consumed (chunks ++ [c]) st' b')
    (fun _ b' => b_events b' = b_events b) b.
Proof.
  intros [H1 H2 H3 H4 H5 H6]. unfold on_chunk. wp_step. wp_step; [|reflexivity]. rename a into c.
  wp_step. wp_step; [|reflexivity]. wp_step. wp_step; [|reflexivity]. cbv zeta. wp_step.
  eapply wp_mono; [apply on_tools_wp | | auto]. cbn [ss_parts ss_finish ss_chars ss_tools].
  intros st1 b1 (He1 & Hp1 & Hf1 & Hc1 & Ht1). wp_step.
  eapply wp_mono; [apply on_delta_wp; rewrite ?Hp1, ?Hc1; congruence | | intros; congruence].
  intros st2 b2 (He2 & Hp2 & Hc2 & Hb2 & Hf2 & Ht2). wp_step. exists c. split; [assumption|].
  assert (join EmptyString (ss_parts st2) = join EmptyString (map ck_delta (chunks ++ [c]))) as Htext.
  { rewrite Hp2, Hp1, H2, map_app, join_app. reflexivity. }
  assert (ss_tools st2 = [] -> Forall (fun c => ck_tool_calls c = []) (chunks ++ [c])) as Htools.
  { intros Hnil. rewrite Ht2 in Hnil. destruct (Ht1 Hnil) as [Hs Hd]. apply Forall_app; auto. }
  destruct (ck_finish_reason c) as [f|] eqn:Ef; constructor; cbn [ss_parts ss_finish ss_chars ss_tools]; try assumption.
  - intros ->. apply Exists_app. right. now constructor.
  - intros Hs. apply Exists_app. left. apply H5. congruence.
Qed.

Lemma on_chunks_wp prompt items : forall st before chunks b,
  consumed chunks st b -> res_mapM (validated validate_chunk) before = Ok chunks ->
  wp (on_chunks validate_chunk limits prompt st items)
    (fun st' b' => exists all, res_mapM (validated validate_chunk) (before ++ items) = Ok all /\ consumed all st' b')
    raised_ok b.
Proof.
  induction items as [|item items IH]; intros st before chunks b Hc Hb; cbn [on_chunks].
  - wp_step. exists chunks. now rewrite app_nil_r.
  - wp_step. eapply wp_mono; [apply on_chunk_wp, Hc | |].
    + intros st' b' (c & Hv & Hc'). rewrite cons_middle, app_assoc. eapply IH; [exact Hc'|]. now apply validated_map_snoc.
    + intros e b' He. eapply events_ok_same; [exact He | eapply consumed_ok, Hc].
Qed.

Lemma stream_started b : b_events b = [] -> consumed [] (start_stream request) b.
Proof.
  intros Hb. destruct Hlimits as (_ & _ & _ & _ & ? & _).
  constructor; cbn; try assumption; try reflexivity; [lia | discriminate | intros; constructor].
Qed.

Lemma consume_wp messages b : b_events b = [] ->
  wp (consume_stream validate_chunk limits target request messages)
    (fun st b' => exists items chunks, target messages (pr_conversation_id request) = Returns (items, true)
       /\ res_mapM (validated validate_chunk) items = Ok chunks /\ consumed chunks st b')
    raised_ok b.
Proof.
  intros Hb. unfold consume_stream, _consume_provider_call. repeat wp_step; [|now apply events_ok_nil].
  apply calling_wp; [|intros _; now apply events_ok_nil]. intros [items ended] Htarget. cbn [fst snd]. wp_step.
  eapply wp_mono; [apply (on_chunks_wp _ items (start_stream request) [] []); [now apply stream_started | reflexivity] | | auto].
  intros st b' (chunks & Hm & Hc). wp_step. wp_step; [wp_step | eapply consumed_ok, Hc].
  bool_to_prop. destruct ended; [|discriminate]. exists items, chunks. auto.
Qed.

Lemma assembled_wp p st items chunks b :
  target (pp_messages p) (pr_conversation_id request) = Returns (items, true) ->
  res_mapM (validated validate_chunk) items = Ok chunks -> consumed chunks st b ->
  prepared_from tanh limits deps request (pp_evidence p) (pp_messages p) ->
  wp (assembled limits deps request p st) (fun _ => events_ok) raised_ok b.
Proof.
  intros Htarget Hm Hc Hp. pose proof (consumed_ok _ _ _ Hc) as Hok. destruct Hc as [H1 H2 _ _ H5 H6].
  destruct p as [meta es ms]. unfold assembled. cbv zeta. cbn [pp_evidence pp_messages] in *.
  destruct (_ || _); [apply yield_failed_wp, Hok|].
  destruct (ChatCompletionResult_new _ _ _ _ _ _) as [c|e] eqn:Ec; [|apply yield_failed_wp, Hok].
  destruct (negb _); [apply yield_failed_wp, Hok|].
  apply yield_wp; [exact Hok|]. intros r Hr.
  assert (cc_content c = strip (join EmptyString (ss_parts st)) /\ cc_finish_reason c = ss_finish st) as [Hcontent Hfinish].
  { unfold ChatCompletionResult_new in Ec. apply bind_Ok in Ec as (? & _ & Ec). apply bind_Ok in Ec as (? & _ & Ec).
    apply Ok_inj in Ec as ->. auto. }
  apply completion_response_spec in Hr as [Hr|(Ha & Hf & _ & Hpend & _)]; [now left|]. right.
  exists es, ms, (join EmptyString (ss_parts st)). split_and!.
  - exact Hp.
  - unfold stream_gave. rewrite Hstream. exists target, items, chunks. split_and!; try assumption.
    + apply H5. congruence.
    + apply H6. destruct (ss_tools st); [reflexivity | discriminate].
  - now rewrite H1, shown_deltas.
  - destruct Ha as (Ha1 & Ha2 & Ha3). unfold answers. rewrite Hcontent, citations_strip in Ha3. auto.
Qed.
End stream.

(** ** The whole stream *)

Section whole.
Context (tanh : pyfloat -> pyfloat).
Context (validate_result : pyval -> option ChatCompletionResult) (validate_chunk : pyval -> option ChatCompletionChunk).
Context (limits : ProfessorLimits) (deps : dependencies) (lease_owner : string) (time : schedule).
Context (request : ProfessorRequest) (Hlimits : limits_ok limits).

Notation ok := (events_ok tanh validate_result validate_chunk limits deps request).

Lemma stream_generation_wp b : b_events b = [] ->
  wp (_stream_generation tanh validate_result validate_chunk limits deps request) (fun _ => ok) (fun _ => ok) b.
Proof.
  intros Hb. unfold _stream_generation. wp_step. eapply wp_mono; [apply prepare_wp | |].
  - intros [r|p] b' [He Hp]; rewrite Hb in He.
    + apply yield_refused_wp; [now apply events_ok_nil | now intros a [= <-]].
    + destruct (d_stream deps) as [target|] eqn:Es; [|now apply buffered_wp].
      wp_step. wp_step. eapply wp_mono; [apply (consume_wp tanh validate_result validate_chunk limits deps request Hlimits target Es), He | |].
      * intros st b'' (items & chunks & Ht & Hm & Hc). eapply assembled_wp; eassumption.
      * intros e b'' Hok. now apply yield_failed_wp.
  - intros e b' He. apply events_ok_nil; [exact Hlimits | congruence].
Qed.

Lemma stream_wp :
  wp (stream tanh validate_result validate_chunk limits deps lease_owner time request) (fun _ => ok) (fun _ => ok) new_budget.
Proof.
  unfold stream. wp_step. wp_step; [|now apply events_ok_nil].
  set (I0 := fun b => b_events b = []).
  assert (forall b, I0 b -> ok b) as HI0 by (intros; now apply events_ok_nil).
  assert (forall stage, keeps ok ok (fun _ => True) (yield_final limits deps request (_failed limits request stage [] []))) as Hd.
  { intros stage b Hb. eapply wp_mono; [apply yield_failed_wp, Hb | auto | auto]. }
  assert (keeps ok I0 (fun _ => True) (_stream_generation tanh validate_result validate_chunk limits deps request)) as Hw.
  { intros b Hb. eapply wp_mono; [apply stream_generation_wp, Hb | auto | auto]. }
  assert (forall c b, ok b -> ok (with_log (b_calls b ++ [c]) (b_events b) b)) as Hlog by (intros c b; now apply events_ok_same).
  destruct (sc_total time) as [i|].
  - eapply wp_mono; [apply (keeps_total_timeout _ _ _ _ _ _ (fun _ => True) (fun _ => True) I0 ok); auto using events_ok_prefix | |]; try tauto.
    + intros ? b Hb. wp_step. auto.
    + reflexivity.
    + intros ? b [_ Hb]. exact Hb.
  - eapply wp_mono; [apply (keeps_run_request _ _ _ _ _ _ (fun _ => True) (fun _ => True) I0 ok); auto using events_ok_prefix | |]; try tauto.
    + reflexivity.
    + intros ? b [_ Hb]. exact Hb.
Qed.

(** ** A stream that ends, ends with a final response *)

Definition ends {A} (m : P A) : Prop :=
  forall b, match m b with (b', Ok _) => exists pre r, b_events b' = pre ++ [Final r] | _ => True end.

Lemma ends_bind {A B} (m : P A) (f : A -> P B) : (forall a, ends (f a)) -> ends (m ≫= f).
Proof. intros Hf b. unfold mbind, M_bind. destruct (m b) as [b' [a|e]]; [apply Hf | exact I]. Qed.

Lemma ends_try {A} (m : P A) h : ends m -> (forall e, ends (h e)) -> ends (try_except m h).
Proof.
  intros Hm Hh b. specialize (Hm b). unfold try_except. destruct (m b) as [b' [a|e]]; [exact Hm | apply Hh].
Qed.

Lemma ends_raise {A} e : ends (raise e : P A).
Proof. intros b. exact I. Qed.

Lemma ends_yield r : ends (yield_final limits deps request r).
Proof.
  unfold yield_final. do 2 (apply ends_bind; intros ?). destruct a0; [|apply ends_raise].
  intros b. cbn. eauto.
Qed.

Hint Resolve ends_raise ends_yield : core.

Lemma ends_generation : ends (_stream_generation tanh validate_result validate_chunk limits deps request).
Proof.
  unfold _stream_generation. apply ends_bind. intros [r|p]; [auto|]. destruct (d_stream deps).
  - apply ends_bind. intros [st|e]; [|auto]. destruct p as [meta es ms]. unfold assembled. cbv zeta.
    destruct (_ || _); [auto|]. destruct (ChatCompletionResult_new _ _ _ _ _ _); [|auto]. destruct (negb _); auto.
  - destruct p as [meta es ms]. unfold buffered_generation. apply ends_try; [|intros []; auto].
    apply ends_bind. intros c. destruct (negb _); [auto|]. apply ends_bind. auto.
Qed.

Lemma ends_lease {A} deliver refuse around (work : P A) :
  ends (refuse : P unit) ->
  (forall m, ends m -> ends (around m)) -> ends work -> (forall s, ends (deliver (_failed limits request s [] []))) ->
  ends (with_lease limits deps lease_owner time deliver request refuse around work).
Proof.
  intros Hr Ha Hw Hd.
  assert (forall m, ends m -> ends (with_reasoning_budget limits time deliver request m)) as Hb.
  { intros m Hm. unfold with_reasoning_budget. destruct (sc_reasoning time); [apply ends_bind; auto | exact Hm]. }
  unfold with_lease. destruct (d_lease deps) as [lm|]; [|auto].
  apply ends_bind. intros _. destruct (lease_granted _ _ _ _); [|exact Hr].
  assert (ends (around (with_reasoning_budget limits time deliver request (_run_with_lease_heartbeat limits time deliver lm request work)))) as He.
  { apply Ha, Hb. unfold _run_with_lease_heartbeat. destruct (_ || _); [exact Hw | apply ends_bind; auto]. }
  intros b. specialize (He b). unfold mbind, M_bind, attempt, log, modify, lift. now destruct (around _ b) as [b' [a|e]].
Qed.

Lemma ends_stream : ends (stream tanh validate_result validate_chunk limits deps lease_owner time request).
Proof.
  unfold stream. apply ends_bind. intros _. destruct (sc_total time) as [i|].
  - unfold total_timeout. cbv zeta. destruct i; apply ends_bind; auto.
  - unfold _run_request. apply ends_lease; auto using ends_generation.
Qed.
End whole.

(** ** A stream gives the response a JSON request gives

    For a provider that completes with [c], or streams a list of chunks that
    spell [c]: the steps of [stream] computed along those of [run]. *)

(** The chunks carry the text of [c], the last one its end and its usage. *)
Record spells (c : ChatCompletionResult) (body : list ChatCompletionChunk) (last : ChatCompletionChunk) : Prop := {
  sp_valid : ChatCompletionResult_new (cc_model c) (cc_content c) [] (cc_finish_reason c) (cc_correlation_id c) (cc_usage c) = Ok c;
  sp_strip : strip (cc_content c) = cc_content c;
  sp_text : join EmptyString (map ck_delta (body ++ [last])) = cc_content c;
  sp_body : Forall (fun k => ck_tool_calls k = [] /\ ck_finish_reason k = None /\ ck_usage k = None) body;
  sp_tools : ck_tool_calls last = [];
  sp_end : ck_finish_reason last = Some (cc_finish_reason c);
  sp_usage : ck_usage last = cc_usage c;
  sp_model : ck_model last = cc_model c;
  sp_correlation : ck_correlation_id last = cc_correlation_id c }.

(** The text of a chunk as an event carries it. *)
Definition delta_parts (text : string) : list string := if is_empty text then [] else [text].

(** The stream state behind a chunk without tools. *)
Definition after_chunk (st : stream_state) (k : ChatCompletionChunk) : stream_state :=
  mk_stream_state (ss_parts st ++ delta_parts (ck_delta k)) (ck_model k)
    (from_option id (ss_finish st) (ck_finish_reason k))
    (ss_terminal st || is_some (ck_finish_reason k)) (ck_correlation_id k)
    (match ck_usage k with Some u => Some u | None => ss_usage st end) (ss_tools st) (ss_chars st + slen (ck_delta k)).

Definition no_error (_ : prof_error) (_ : RequestBudget) : Prop := False.

(** Same retrieval snapshot, and these events more. *)
Definition emitted (parts : list string) (b b' : RequestBudget) : Prop :=
  b_events b' = b_events b ++ map Delta parts /\ b_retrieval_snapshot b' = b_retrieval_snapshot b.

Section equivalence.
Context (tanh : pyfloat -> pyfloat).
Context (validate_result : pyval -> option ChatCompletionResult) (validate_chunk : pyval -> option ChatCompletionChunk).
Context (limits : ProfessorLimits) (deps : dependencies) (lease_owner : string) (time : schedule).
Context (request : ProfessorRequest).

Lemma chunk_wp prompt st k b :
  ck_tool_calls k = [] -> ss_terminal st = false ->
  match ck_usage k with Some u => us_total_tokens u <= max_tokens limits | None => True end ->
  ss_chars st + slen (ck_delta k) <= max_answer_chars limits + 8 * 140 ->
  prompt + (ss_chars st + slen (ck_delta k) + 3) / 4 <= max_tokens limits ->
  wp (on_chunk validate_chunk limits prompt st (inl k))
    (fun st' b' => st' = after_chunk st k /\ emitted (delta_parts (ck_delta k)) b b') no_error b.
Proof.
  intros Ht Hterm Hu Hc Hp. unfold on_chunk. wp_step. wp_step; [|discriminate].
  match goal with H : validated _ _ = Ok _ |- _ => apply Ok_inj in H; subst a end.
  rewrite Hterm. wp_step. wp_step; [|discriminate]. wp_step. wp_step.
  2: { destruct (ck_usage k); [bool_to_prop; lia | discriminate]. }
  cbv zeta. rewrite Ht. unfold on_tools. cbn [map List.filter remove_dups]. wp_step. wp_step. wp_step.
  unfold on_delta. cbn [ss_chars ss_parts ss_model ss_finish ss_terminal ss_correlation ss_usage ss_tools].
  unfold after_chunk, delta_parts, emitted. destruct (is_empty (ck_delta k)) eqn:Ed.
  - apply is_empty_true in Ed. rewrite Ed, slen_nil, Z.add_0_r. wp_step. wp_step. rewrite Hterm.
    split; [rewrite app_nil_r | split; [cbn; now rewrite app_nil_r | reflexivity]]. destruct (ck_finish_reason k); reflexivity.
  - cbv zeta. wp_step. wp_step; [|bool_to_prop; lia]. wp_step. wp_step; [|bool_to_prop; lia].
    unfold emit. wp_step. wp_step. wp_step. wp_step. rewrite Hterm. cbn [map b_events b_retrieval_snapshot with_log].
    split; [destruct (ck_finish_reason k); reflexivity | auto].
Qed.

Lemma emitted_trans p1 p2 b1 b2 b3 : emitted p1 b1 b2 -> emitted p2 b2 b3 -> emitted (p1 ++ p2) b1 b3.
Proof. intros [H1 H2] [H3 H4]. split; [now rewrite H3, H1, map_app, app_assoc | congruence]. Qed.

Definition all_parts (chunks : list ChatCompletionChunk) : list string := flat_map (fun k => delta_parts (ck_delta k)) chunks.

Lemma join_parts chunks : join EmptyString (all_parts chunks) = join EmptyString (map ck_delta chunks).
Proof.
  induction chunks as [|k chunks IH]; [reflexivity|]. cbn [all_parts flat_map map]. rewrite join_app, join_cons.
  unfold all_parts in IH. rewrite IH. unfold delta_parts. destruct (is_empty (ck_delta k)) eqn:E; [|reflexivity].
  apply is_empty_true in E as ->. reflexivity.
Qed.

Lemma slen_join_cons k chunks :
  slen (join EmptyString (map ck_delta (k :: chunks))) = slen (ck_delta k) + slen (join EmptyString (map ck_delta chunks)).
Proof. cbn [map]. now rewrite join_cons, slen_app. Qed.

Lemma tokens_mono prompt n m t : n <= m -> prompt + (m + 3) / 4 <= t -> prompt + (n + 3) / 4 <= t.
Proof. intros H Hm. pose proof (Z.div_le_mono (n + 3) (m + 3) 4). lia. Qed.

(** The chunks before the last one. *)
Lemma body_wp prompt body rest : forall st b,
  Forall (fun k => ck_tool_calls k = [] /\ ck_finish_reason k = None /\ ck_usage k = None) body ->
  ss_terminal st = false ->
  let chars := ss_chars st + slen (join EmptyString (map ck_delta (body ++ rest))) in
  chars <= max_answer_chars limits + 8 * 140 -> prompt + (chars + 3) / 4 <= max_tokens limits ->
  wp (on_chunks validate_chunk limits prompt st (map inl body))
    (fun st' b' => st' = fold_left after_chunk body st /\ emitted (all_parts body) b b') no_error b.
Proof.
  induction body as [|k body IH]; intros st b Hbody Hterm chars Hc Hp; cbn [map on_chunks fold_left].
  - wp_step. split; [reflexivity|]. split; cbn; now rewrite ?app_nil_r.
  - inversion Hbody as [|? ? (Ht & Hf & Hu) Hbody']; subst. unfold chars in *. rewrite <- app_comm_cons, slen_join_cons in *.
    pose proof (slen_nonneg (join EmptyString (map ck_delta (body ++ rest)))) as Hrest.
    wp_step. eapply wp_mono; [apply chunk_wp; rewrite ?Hu; auto | | now intros].
    + lia.
    + eapply tokens_mono; [|exact Hp]. lia.
    + intros st' b' [-> He]. eapply wp_mono; [apply IH; auto | | now intros].
      * cbn. now rewrite Hterm, Hf.
      * cbn [ss_chars after_chunk]. lia.
      * cbn [ss_chars after_chunk]. eapply tokens_mono; [|exact Hp]. lia.
      * intros st'' b'' [-> He']. split; [reflexivity|]. cbn. now apply (emitted_trans _ _ _ b').
Qed.

Lemma fold_after body : forall st,
  Forall (fun k => ck_tool_calls k = [] /\ ck_finish_reason k = None /\ ck_usage k = None) body ->
  let st' := fold_left after_chunk body st in
  ss_parts st' = ss_parts st ++ all_parts body /\ ss_finish st' = ss_finish st /\ ss_terminal st' = ss_terminal st
  /\ ss_usage st' = ss_usage st /\ ss_tools st' = ss_tools st
  /\ ss_chars st' = ss_chars st + slen (join EmptyString (map ck_delta body)).
Proof.
  induction body as [|k body IH]; intros st Hbody; cbn [fold_left].
  - cbn [map join all_parts flat_map]. rewrite app_nil_r, slen_nil, Z.add_0_r. auto 10.
  - inversion Hbody as [|? ? (Ht & Hf & Hu) Hbody']; subst. destruct (IH (after_chunk st k) Hbody') as (H1 & H2 & H3 & H4 & H5 & H6).
    rewrite H1, H2, H3, H4, H5, H6. rewrite slen_join_cons.
    cbn [after_chunk ss_parts ss_finish ss_terminal ss_usage ss_tools ss_chars]. rewrite Hf, Hu, <- app_assoc. cbn [is_some from_option].
    rewrite orb_false_r. split_and!; try reflexivity. lia.
Qed.

Lemma on_chunks_app prompt l1 l2 : forall st b,
  on_chunks validate_chunk limits prompt st (l1 ++ l2) b =
  (on_chunks validate_chunk limits prompt st l1 ≫= fun st' => on_chunks validate_chunk limits prompt st' l2) b.
Proof.
  induction l1 as [|k l1 IH]; intros st b; [reflexivity|]. cbn [app on_chunks]. unfold mbind, M_bind in *.
  destruct (on_chunk validate_chunk limits prompt st k b) as [b' [st'|e]]; [apply IH | reflexivity].
Qed.

(** All chunks that spell [c]. *)
Lemma spelled_wp prompt c body last b : spells c body last ->
  slen (cc_content c) <= max_answer_chars limits + 8 * 140 ->
  prompt + (slen (cc_content c) + 3) / 4 <= max_tokens limits ->
  match cc_usage c with Some u => us_total_tokens u <= max_tokens limits | None => True end ->
  wp (on_chunks validate_chunk limits prompt (start_stream request) (map inl (body ++ [last])))
    (fun st b' => join EmptyString (ss_parts st) = cc_content c /\ ss_model st = cc_model c /\ ss_finish st = cc_finish_reason c
       /\ ss_correlation st = cc_correlation_id c /\ ss_usage st = cc_usage c /\ ss_tools st = []
       /\ emitted (all_parts (body ++ [last])) b b') no_error b.
Proof.
  intros [_ _ Htext Hbody Htools Hend Husage Hmodel Hcorr] Hlen Htok Hu. rewrite map_app. unfold wp. rewrite on_chunks_app.
  change (wp (on_chunks validate_chunk limits prompt (start_stream request) (map inl body) ≫= fun st' =>
    on_chunks validate_chunk limits prompt st' (map inl [last])) (fun st b' => join EmptyString (ss_parts st) = cc_content c
      /\ ss_model st = cc_model c /\ ss_finish st = cc_finish_reason c /\ ss_correlation st = cc_correlation_id c
      /\ ss_usage st = cc_usage c /\ ss_tools st = [] /\ emitted (all_parts (body ++ [last])) b b') no_error b).
  wp_step. eapply wp_mono; [apply (body_wp prompt body [last]); rewrite ?Htext; cbn [ss_chars start_stream]; auto | | now intros].
  intros st b' [-> He]. destruct (fold_after body (start_stream request) Hbody) as (H1 & H2 & H3 & H4 & H5 & H6).
  set (st := fold_left after_chunk body (start_stream request)) in *. cbn [map on_chunks]. wp_step.
  pose proof Htext as Hsum. apply (f_equal slen) in Hsum. rewrite map_app, join_app, slen_app in Hsum. cbn [map join] in Hsum.
  cbn [ss_chars start_stream] in H6.
  eapply wp_mono; [apply chunk_wp; rewrite ?Husage, ?H6, ?H3; auto; rewrite ?Z.add_0_l, ?Hsum; auto | | now intros].
  intros st' b'' [-> He']. wp_step. cbn [after_chunk ss_parts ss_model ss_finish ss_correlation ss_usage ss_tools].
  rewrite Hend, Husage, Hmodel, Hcorr, H4, H5, H1. cbn [from_option id start_stream ss_parts ss_usage ss_tools].
  split_and!; try reflexivity.
  - rewrite <- Htext, <- join_parts. unfold all_parts. rewrite flat_map_app. cbn. now rewrite app_nil_r.
  - destruct (cc_usage c); reflexivity.
  - unfold all_parts. rewrite flat_map_app. cbn [flat_map]. rewrite app_nil_r. now apply (emitted_trans _ _ _ b').
Qed.

(** ** Validation depends on the retrieval snapshot only *)

Lemma still_published_snapshot r b b' : b_retrieval_snapshot b = b_retrieval_snapshot b' ->
  eval (still_published deps request r) b = eval (still_published deps request r) b'.
Proof.
  intros Hs. unfold still_published, eval, mbind, M_bind, gets, lift, calling, log, modify, mret, M_ret, raise. cbv zeta. rewrite Hs.
  destruct (snapshot_items _ _) as [snap|]; [|reflexivity]. destruct (cited_ids _ snap) as [ids|]; [|reflexivity].
  destruct (d_validator deps) as [v|]; [|reflexivity]. destruct (_ =? _)%nat; [|reflexivity]. now destruct (v _ _ _).
Qed.

Lemma validate_snapshot r b b' : b_retrieval_snapshot b = b_retrieval_snapshot b' ->
  eval (_validate_publication limits deps request r) b = eval (_validate_publication limits deps request r) b'.
Proof.
  intros Hs. unfold _validate_publication. destruct (negb _); [reflexivity|]. destruct (_ && _); [reflexivity|].
  pose proof (still_published_snapshot r b b' Hs) as He. unfold eval, attempt, mbind, M_bind in *.
  destruct (still_published deps request r b) as [b1 r1], (still_published deps request r b') as [b2 r2]. cbn in He. subst r2.
  destruct r1 as [[|]|]; reflexivity.
Qed.

Lemma validate_events r b : b_events (exec (_validate_publication limits deps request r) b) = b_events b.
Proof.
  assert (wp (_validate_publication limits deps request r) (fun _ b' => b_events b' = b_events b) (fun _ b' => b_events b' = b_events b) b) as H.
  { unfold _validate_publication. destruct (negb _); [wp_step; reflexivity|]. destruct (_ && _); [wp_step; reflexivity|].
    wp_step. wp_step. eapply wp_mono; [apply still_published_wp | |].
    - intros valid b' [He _]. destruct valid; wp_step; exact He.
    - intros e b' He. wp_step; exact He. }
  unfold wp, exec in *. now destruct (_validate_publication limits deps request r b) as [b' [a|e]].
Qed.

(** A response yielded as a final event is the validated response. *)
Lemma yield_agrees r r' b b' : eval (_validate_publication limits deps request r) b' = Ok r' ->
  b_retrieval_snapshot b = b_retrieval_snapshot b' ->
  wp (yield_final limits deps request (Ok r)) (fun _ b'' => b_events b'' = b_events b ++ [Final r']) no_error b.
Proof.
  intros Hv Hs. rewrite <- (validate_snapshot r b b' Hs) in Hv. pose proof (validate_events r b) as He.
  unfold yield_final. wp_step. wp_step; [|discriminate].
  match goal with H : Ok r = Ok ?x |- _ => apply Ok_inj in H; subst x end. wp_step. wp_step. unfold wp, eval, exec in *.
  destruct (_validate_publication limits deps request r b) as [b1 r1]. cbn in *. subst. cbn. now rewrite He.
Qed.

Lemma validate_unapproved r r' b : rs_evidence_status r <> APPROVED_EVIDENCE ->
  eval (_validate_publication limits deps request r) b = Ok r' -> r' = r.
Proof.
  intros H. unfold _validate_publication. rewrite bool_decide_false by exact H. cbn. intros [= ->]. reflexivity.
Qed.

(** ** The generations agree *)

Lemma complete_facts messages c b b' : complete validate_result limits deps request messages b = (b', Ok c) ->
  (max_provider_calls limits <? b_provider_calls b + 1) = false /\ b_retrieval_snapshot b' = b_retrieval_snapshot b
  /\ exists target raw, d_complete deps = Some target /\ target messages (pr_conversation_id request) = Returns raw
  /\ validated validate_result raw = Ok c.
Proof.
  intros H. eapply (wp_run _ _ _ _ (fun c b' => (max_provider_calls limits <? b_provider_calls b + 1) = false
      /\ b_retrieval_snapshot b' = b_retrieval_snapshot b /\ exists target raw, d_complete deps = Some target
      /\ target messages (pr_conversation_id request) = Returns raw /\ validated validate_result raw = Ok c) any_error) in H; [exact H|].
  clear H. unfold complete, _consume_provider_call, _consume_tool_calls. repeat wp_step; try exact I.
  destruct (d_complete deps) as [target|]; [|wp_step; exact I]. wp_step. apply calling_wp; [|intros; exact I].
  intros raw Hraw. repeat wp_step; try exact I. cbn. split_and!; try reflexivity; [assumption|]. eauto.
Qed.

Lemma failed_status stage es meta r : _failed limits request stage es meta = Ok r -> rs_evidence_status r = GENERATION_FAILED.
Proof. intros H. apply response_new_fields in H as (_ & H & _). exact H. Qed.

(** A completed response that is not a failure passed the first gates. *)
Lemma completion_response_gates c messages es meta r :
  _completion_response limits request c messages es meta false = Ok r -> rs_evidence_status r <> GENERATION_FAILED ->
  _completion_within_token_budget c messages (max_tokens limits) = true.
Proof.
  unfold _completion_response. cbv zeta. destruct (_ || _); [intros H Hr; now apply failed_status in H|].
  destruct (_completion_within_token_budget c messages (max_tokens limits)); [reflexivity|]. cbn. intros H Hr. now apply failed_status in H.
Qed.

Context (target : list ProviderMessage -> string -> outcome (list (foreign ChatCompletionChunk) * bool)).
Context (c : ChatCompletionResult) (body : list ChatCompletionChunk) (last : ChatCompletionChunk).
Context (Hspells : spells c body last) (Hlen : slen (cc_content c) <= max_answer_chars limits + 8 * 140).
Context (Hstream : d_stream deps = Some target).
Context (Htarget : forall messages conversation, target messages conversation = Returns (map inl (body ++ [last]), true)).
Context (Hcomplete : forall f messages conversation, d_complete deps = Some f -> f messages conversation = Returns (inl c)).

Lemma consume_agrees messages b :
  (max_provider_calls limits <? b_provider_calls b + 1) = false ->
  _completion_within_token_budget c messages (max_tokens limits) = true ->
  wp (consume_stream validate_chunk limits target request messages)
    (fun st b' => join EmptyString (ss_parts st) = cc_content c /\ ss_model st = cc_model c /\ ss_finish st = cc_finish_reason c
       /\ ss_correlation st = cc_correlation_id c /\ ss_usage st = cc_usage c /\ ss_tools st = []
       /\ emitted (all_parts (body ++ [last])) b b') no_error b.
Proof.
  intros Hcalls Hbudget. unfold consume_stream, _consume_provider_call. repeat wp_step; [|unfold with_counts in *; cbn [b_provider_calls] in *; congruence].
  apply calling_wp; [|rewrite Htarget; discriminate]. intros s Hs. rewrite Htarget in Hs. injection Hs as <-. cbn [fst snd].
  unfold _completion_within_token_budget in Hbudget. cbv zeta in Hbudget. bool_to_prop.
  set (b1 := with_log _ _ _). wp_step.
  eapply wp_mono; [apply (spelled_wp (prompt_tokens messages) c body last b1 Hspells Hlen) | | now intros].
  - unfold _estimated_tokens in *. lia.
  - destruct (cc_usage c); [lia | exact I].
  - intros st b' (H1 & H2 & H3 & H4 & H5 & H6 & H7). wp_step. wp_step; [|discriminate]. wp_step. auto 10.
Qed.

Lemma generation_agrees b b1 bx r1 r : b_events b = [] ->
  _run_generation tanh validate_result limits deps request b = (b1, Ok r1) ->
  b_retrieval_snapshot bx = b_retrieval_snapshot b1 -> eval (_validate_publication limits deps request r1) bx = Ok r ->
  rs_evidence_status r1 <> GENERATION_FAILED ->
  wp (_stream_generation tanh validate_result validate_chunk limits deps request)
    (fun _ b' => exists parts, b_events b' = map Delta parts ++ [Final r]
       /\ (parts = [] \/ join EmptyString parts = cc_content c)) no_error b.
Proof.
  intros Hb Hrun Hsnap Hval Hst. unfold _run_generation in Hrun. unfold _stream_generation.
  pose proof (prepare_wp tanh limits deps request b) as Hprep. unfold mbind, M_bind in Hrun. wp_step.
  unfold wp at 1. unfold wp in Hprep. destruct (prepare tanh limits deps request b) as [bp [[r0|p]|e]]; [| |discriminate].
  - destruct Hprep as [He Href]. injection Hrun as <- <-.
    eapply wp_mono; [eapply yield_agrees; [exact Hval | congruence] | | now intros].
    intros ? b' He'. cbv beta in He'. exists []. cbn. split; [|auto]. rewrite He', He, Hb. reflexivity.
  - destruct Hprep as [He Hp]. destruct p as [meta es messages]. unfold attempt at 1 in Hrun. rewrite Hstream. cbn [pp_messages pp_evidence pp_metadata].
    destruct (complete validate_result limits deps request messages bp) as [bc [c'|e]] eqn:Ec.
    2: { exfalso. apply Hst. unfold lift in Hrun. injection Hrun as _ Hrun. now apply failed_status in Hrun. }
    destruct (complete_facts _ _ _ _ Ec) as (Hcalls & Hsnapc & f & raw & Hf & Hraw & Hcc).
    rewrite (Hcomplete f _ _ Hf) in Hraw. injection Hraw as <-. apply Ok_inj in Hcc as ->.
    unfold lift in Hrun. injection Hrun as <- Hr1.
    pose proof (completion_response_gates _ _ _ _ _ Hr1 Hst) as Hbudget.
    wp_step. wp_step. eapply wp_mono; [apply consume_agrees; assumption | | now intros].
    intros st b2 (H1 & H2 & H3 & H4 & H5 & H6 & H7). unfold assembled. cbv zeta.
    rewrite H1, (sp_strip _ _ _ Hspells), H2, H3, H4, H5, H6.
    pose proof (sp_valid _ _ _ Hspells) as Hvalid.
    assert (is_empty (cc_content c) = false /\ is_empty (cc_model c) = false) as [Hne1 Hne2].
    { unfold ChatCompletionResult_new in Hvalid. apply bind_Ok in Hvalid as (u1 & G1 & Hvalid). apply bind_Ok in Hvalid as (u2 & G2 & _).
      unfold invalid_unless in G1, G2. apply raise_if_Ok in G1, G2. rewrite (sp_strip _ _ _ Hspells) in G2. bool_to_prop.
      split; [destruct (is_empty (cc_content c)); [discriminate G2 | reflexivity]|].
      unfold length_in in *. bool_to_prop. destruct (cc_model c); [rewrite slen_nil in *; lia | reflexivity]. }
    rewrite Hne1, Hne2, Hvalid, Hbudget. cbn [orb negb length Nat.eqb]. rewrite Hr1. destruct H7 as [H7 H8].
    eapply wp_mono; [eapply yield_agrees; [exact Hval | congruence] | | now intros].
    intros ? b' He'. cbv beta in He'. exists (all_parts (body ++ [last])). rewrite He', H7, He, Hb, join_parts. split; [reflexivity|].
    right. apply (sp_text _ _ _ Hspells).
Qed.
End equivalence.
