(* ===== verification/ProfessorProperties.v ===== *)
(** * What the Professor guarantees

    Trusted evidence, grounded answers in both delivery modes, the discipline
    of the lease, and the agreement of the two modes. *)

From Stdlib Require Import Ascii String.
From stdpp Require Import strings list.
From S2P Require Import Prelude PyFloat PyStr PyVal PyNumber StateError ProfessorModels Professor Orchestrator OrchestratorLemmas.
From S2P Require Import StreamEquivalence.

Local Open Scope string_scope.
Local Open Scope Z_scope.
Local Open Scope list_scope.

(** Two forms of a grounded response: its citations are exactly the items of
    trusted evidence that its text marks. *)
Lemma answers_cite tanh limits context items text es r : limits_ok limits ->
  _trusted_evidence tanh items context limits = Ok es -> answers limits text es r ->
  exists used, rs_citations r = map citation used /\ cites text es used.
Proof.
  intros Hl Hes (_ & _ & Hc). apply citations_accepted in Hc; [exact Hc|].
  eapply sl_distinct, trusted_evidence_selection; eassumption.
Qed.

(** ** A sample request *)

Definition sample_context : RetrievalContext := mk_context "retrieval-context-v1" (Some "u1") "w1" "t1" ["c1"] [].
Definition sample_request : ProfessorRequest :=
  mk_request "professor-contract-v1" "How?" "conv-1" sample_context "grounded" [].
Definition sample_item : pyval :=
  VDict [("document_id", VStr "d1"); ("chunk_id", VStr "k1"); ("tenant_id", VStr "t1"); ("workspace_id", VStr "w1");
         ("collection_id", VStr "c1"); ("text", VStr " Press upload. "); ("evidence_id", VStr "e1"); ("confidence_score", VInt 1)].
Definition sample_foreign : pyval :=
  VDict [("document_id", VStr "d2"); ("chunk_id", VStr "k2"); ("tenant_id", VStr "t2"); ("workspace_id", VStr "w1");
         ("collection_id", VStr "c1"); ("text", VStr "Secret."); ("confidence_score", VInt 1)].
Definition sample_completion : ChatCompletionResult := mk_completion "m" "Press it [cite:e1]." [] F_stop "corr" None.
Definition sample_chunks : list ChatCompletionChunk :=
  [mk_chunk "m" "Press it [ci" [] None "corr" None; mk_chunk "m" EmptyString [] None "corr" None; mk_chunk "m" "te:e1]." [] (Some F_stop) "corr" None].
Definition sample_lease : lease_manager :=
  {| lm_low_level := true; lm_renews := true; lm_acquire := fun _ _ _ => Returns (VDict [("acquired", VBool true)]) |}.
Definition sample_deps (chunked : bool) : dependencies :=
  {| d_retrieve := Some (fun _ _ _ => Returns (VDict [("evidence", VList [sample_foreign; sample_item])]));
     d_complete := Some (fun _ _ => Returns (inl sample_completion));
     d_stream := if chunked then Some (fun _ _ => Returns (map inl sample_chunks, true)) else None;
     d_validator := Some (fun _ _ _ => Returns (VBool true)); d_authorization_revalidator := false;
     d_lease := Some sample_lease; d_require_publication_revalidation := true |}.
Definition quiet : schedule := {| sc_renewals := [Returns (VBool true)]; sc_lost_at := {| pg_calls := 0; pg_events := 0 |};
  sc_reasoning := None; sc_total := None |}.
Definition sample_tanh (x : pyfloat) : pyfloat := x.
Definition sample_limits : ProfessorLimits := mk_limits 8 12000 4000 20000 8000 (Fin 0) 120000 1 0 1 8192 (lit 30 1) (lit 60 1).

Definition sample_run : RequestBudget * res prof_error ProfessorResponse :=
  run sample_tanh (fun _ => None) sample_limits (sample_deps true) "owner" quiet sample_request new_budget.
Definition sample_stream (chunked : bool) : RequestBudget * res prof_error unit :=
  stream sample_tanh (fun _ => None) (fun _ => None) sample_limits (sample_deps chunked) "owner" quiet sample_request new_budget.

Definition all_limits (a : list pyval) : res prof_error ProfessorLimits :=
  match a with
  | [i; c; ic; p; an; f; l; r; t; n; k; s; q] => ProfessorLimits_new i c ic p an f l r t n k s q
  | _ => Err ProfTypeError
  end.

Lemma all_limits_ok a limits : all_limits a = Ok limits -> limits_ok limits.
Proof. unfold all_limits. do 13 (destruct a as [|? a]; [discriminate|]). destruct a; [apply limits_new_ok | discriminate]. Qed.

Definition sample_limit_values : list pyval :=
  [VInt 8; VInt 12000; VInt 4000; VInt 20000; VInt 8000; VInt 0; VInt 120000; VInt 1; VInt 0; VInt 1; VInt 8192; VInt 30; VInt 60].

Lemma sample_limits_built : all_limits sample_limit_values = Ok sample_limits.
Proof. vm_compute. reflexivity. Qed.

(** ** Evidence *)

(** C34: whatever a retrieval returns, the evidence the Professor trusts is in
    the tenant, workspace and collections of the request, has safe and
    distinct identifiers, scores between 0 and 1, and fits the limits; and
    each item is one the retrieval returned, its text cut at the end only. *)
Theorem trusted_evidence_scoped tanh values limits items context es :
  all_limits values = Ok limits ->
  _trusted_evidence tanh items context limits = Ok es ->
  selection context limits items es.
Proof.
  intros Hl He. apply (trusted_evidence_selection tanh); [exact (all_limits_ok _ _ Hl) | exact He].
Qed.

(** Of two items, one in another tenant, one is trusted. *)
Lemma trusted_evidence_scoped_witness : exists es,
  all_limits sample_limit_values = Ok sample_limits
  /\ _trusted_evidence sample_tanh [sample_foreign; sample_item] sample_context sample_limits = Ok es
  /\ map te_evidence_id es = ["e1"] /\ selection sample_context sample_limits [sample_foreign; sample_item] es.
Proof.
  destruct (_trusted_evidence sample_tanh [sample_foreign; sample_item] sample_context sample_limits) as [es|] eqn:E.
  - exists es. split; [exact sample_limits_built | split; [reflexivity | split]].
    + assert (res_fmap _ _ (map te_evidence_id) (_trusted_evidence sample_tanh [sample_foreign; sample_item] sample_context sample_limits) = Ok ["e1"]) as H
        by (vm_compute; reflexivity).
      rewrite E in H. cbn in H. injection H as ->. reflexivity.
    + exact (trusted_evidence_scoped sample_tanh _ _ _ _ es sample_limits_built E).
  - exfalso. revert E. vm_compute. discriminate.
Defined.


(** ** Grounded answers *)

(** C1: the JSON response is a refusal with one of the fixed texts, or it is
    approved; then the evidence is trusted and confident enough, the provider
    completed the prompt built from it within the budget and without tools,
    the answer and citations are those of its text, every marker in it names
    an item of the evidence, and the validator, if any, confirmed the items. *)
Theorem professor_answer_grounded tanh validate_result values limits deps owner time request b r :
  all_limits values = Ok limits ->
  run tanh validate_result limits deps owner time request new_budget = (b, Ok r) ->
  refusal limits r \/
  (published deps request r /\ exists es messages text used,
     prepared_from tanh limits deps request es messages
     /\ completed validate_result limits deps request messages text
     /\ answers limits text es r /\ rs_citations r = map citation used /\ cites text es used).
Proof.
  intros Hl Hrun. apply all_limits_ok in Hl.
  pose proof (wp_run _ _ _ _ _ _ (run_delivered tanh validate_result limits deps owner time request new_budget) Hrun) as [H|H]; [now left|].
  right. destruct H as (Hp & es & ms & text & Hes & Hc & Ha). split; [exact Hp|].
  destruct Hes as (t & v & Ht & Hv & Htrust & Hrest).
  destruct (answers_cite _ _ _ _ _ _ _ Hl Htrust Ha) as (used & Hu & Hcite). exists es, ms, text, used.
  split_and!; try assumption. exists t, v. auto.
Qed.

(** The sample request is answered, with one citation. *)
Lemma professor_answer_grounded_witness : exists b r, sample_run = (b, Ok r) /\ rs_answer r = "Press it ."
  /\ (refusal sample_limits r \/
     (published (sample_deps true) sample_request r /\ exists es messages text used,
       prepared_from sample_tanh sample_limits (sample_deps true) sample_request es messages
       /\ completed (fun _ => None) sample_limits (sample_deps true) sample_request messages text
       /\ answers sample_limits text es r /\ rs_citations r = map citation used /\ cites text es used)).
Proof.
  assert (match sample_run with (_, Ok r) => rs_answer r | _ => EmptyString end = "Press it .") as H by (vm_compute; reflexivity).
  destruct sample_run as [b [r|e]] eqn:E; [|discriminate H]. exists b, r. split; [reflexivity | split; [exact H|]].
  exact (professor_answer_grounded sample_tanh _ _ _ _ "owner" quiet _ b r sample_limits_built E).
Defined.


(** C32: at every point of a stream, wherever it is interrupted, the text
    shown is bounded; every final response is a refusal, or an approved answer
    to exactly the text shown before it, grounded as a JSON response is; and a
    stream that ends without an exception ends with a final response. *)
Theorem professor_stream_grounded tanh validate_result validate_chunk values limits deps owner time request :
  all_limits values = Ok limits ->
  let '(b, outcome) := stream tanh validate_result validate_chunk limits deps owner time request new_budget in
  slen (shown (b_events b)) <= shown_bound limits deps
  /\ (forall pre r post, b_events b = pre ++ Final r :: post ->
        refusal limits r \/
        (published deps request r /\ exists es messages used,
           prepared_from tanh limits deps request es messages
           /\ stream_gave validate_result validate_chunk limits deps request messages (shown pre)
           /\ answers limits (shown pre) es r /\ rs_citations r = map citation used /\ cites (shown pre) es used))
  /\ (outcome = Ok tt -> exists pre r, b_events b = pre ++ [Final r]).
Proof.
  intros Hl. apply all_limits_ok in Hl.
  pose proof (stream_wp tanh validate_result validate_chunk limits deps owner time request Hl) as Hwp.
  pose proof (ends_stream tanh validate_result validate_chunk limits deps owner time request new_budget) as Hend.
  unfold wp in Hwp. destruct (stream _ _ _ _ _ _ _ _ _) as [b outcome].
  assert (events_ok tanh validate_result validate_chunk limits deps request b) as [Hf Hb] by (destruct outcome; exact Hwp).
  split_and!; [exact Hb | | intros ->; exact Hend].
  intros pre r post He. destruct (Hf pre r post He) as [H|(Hp & es & ms & text & Hes & [Hg ->] & Ha)]; [now left|].
  right. split; [exact Hp|]. destruct Hes as (t & v & Ht & Hv & Htrust & Hrest).
  destruct (answers_cite _ _ _ _ _ _ _ Hl Htrust Ha) as (used & Hu & Hcite). exists es, ms, used.
  split_and!; try assumption. exists t, v. auto.
Qed.

(** The sample stream shows two pieces of text and the final answer. *)
Lemma professor_stream_grounded_witness :
  all_limits sample_limit_values = Ok sample_limits /\ length (b_events (fst (sample_stream true))) = 3%nat
  /\ slen (shown (b_events (fst (sample_stream true)))) <= shown_bound sample_limits (sample_deps true).
Proof.
  split; [exact sample_limits_built | split; [vm_compute; reflexivity|]].
  pose proof (professor_stream_grounded sample_tanh (fun _ => None) (fun _ => None) _ _ (sample_deps true) "owner" quiet sample_request sample_limits_built) as H.
  unfold sample_stream. destruct (stream _ _ _ _ _ _ _ _ _) as [b outcome]. exact (proj1 H).
Defined.


(** ** The lease *)

(** C33: with a lease manager, a request that starts calls nothing but the
    acquisition, or holds the granted lease around all its work and releases
    it exactly once, whatever is refused, raised, lost or interrupted; the
    retrieval, the provider and the validator are called at most once, in
    this order, in a stream inside the lease. *)
Theorem professor_lease_discipline tanh validate_result validate_chunk limits deps owner time request :
  let calls := b_calls (exec (run tanh validate_result limits deps owner time request) new_budget) in
  let stream_calls := b_calls (exec (stream tanh validate_result validate_chunk limits deps owner time request) new_budget) in
  if started request then
    lease_trace limits deps owner request [C_retrieve; C_provider] [C_validate] calls
    /\ lease_trace limits deps owner request [C_retrieve; C_provider; C_validate] [] stream_calls
  else calls = [] /\ stream_calls = [].
Proof.
  cbv zeta. pose proof (run_calls tanh validate_result limits deps owner time request) as H1.
  pose proof (stream_calls tanh validate_result validate_chunk limits deps owner time request) as H2.
  cbv zeta in *. destruct (started request); auto.
Qed.

(** ** The two modes agree *)

(** No timeout, and a lease that is kept. *)
Definition uninterrupted (time : schedule) : Prop :=
  sc_total time = None /\ sc_reasoning time = None /\ _lease_heartbeat time = true.

(** An uninterrupted request on a log, for a given way to deliver. *)
Lemma quiet_request {A} limits deps owner time (deliver : res prof_error ProfessorResponse -> P A) request work b :
  uninterrupted time ->
  _run_request limits deps owner time deliver request work b =
  match d_lease deps with
  | None => work b
  | Some lm =>
      let b1 := with_log (b_calls b ++ [C_acquire]) (b_events b) b in
      if lease_granted limits owner lm request then
        let '(b2, r) := work b1 in (with_log (b_calls b2 ++ [C_release]) (b_events b2) b2, r)
      else deliver (_failed limits request "lease_unavailable" [] []) b1
  end.
Proof.
  intros (_ & Hr & Hh). unfold _run_request, with_lease, with_reasoning_budget, _run_with_lease_heartbeat. rewrite Hr.
  destruct (d_lease deps) as [lm|]; [|reflexivity]. rewrite Hh, orb_true_r.
  unfold log, modify, mbind, M_bind, attempt, lift. cbv zeta. cbn [id]. destruct (lease_granted _ _ _ _); [|reflexivity].
  destruct (work _) as [b2 r]. reflexivity.
Qed.


Lemma sample_spells : spells sample_completion (removelast sample_chunks) (mk_chunk "m" "te:e1]." [] (Some F_stop) "corr" None).
Proof. constructor; try reflexivity. repeat constructor. Qed.



(** ** What the gate lets through *)

(** The markers are removed in one pass: an answer may still show a marker that
    names no evidence, put together from the text around a removed one. *)
Lemma marker_forged :
  let es := [mk_trusted "e1" "d1" "k1" "t1" "w1" "c1" "x" EmptyString EmptyString None None EmptyString None (Fin 0) (Fin 0) 0 (Fin 0) (Fin 0)] in
  exists cs, _citations sample_limits "Yes [cite:[cite:e1]forged]." es = ("Yes [cite:forged].", cs, false)
  /\ findall _CITATION_MARKER "Yes [cite:forged]." = ["forged"] /\ by_id es "forged" = None.
Proof. eexists. split; [vm_compute; reflexivity | split; vm_compute; reflexivity]. Qed.
