(* ===== verification/RequestPolicy.v ===== *)
(** * Request classification (packages/decision, request_policy.py)

    The server-owned allowlist: a request is normalised and compared, as a
    whole, with reviewed sentences; clinical and override vocabulary is
    searched in the request and in its history.  [*_new] are the dataclass
    constructors with their [__post_init__].

    Normalisation leaves Latin-1 in two places: the micro sign folds to a Greek
    letter, and the fractions decompose around the fraction slash.  No table or
    pattern of the policy mentions either, so the model keeps the micro sign,
    a letter as its folding is, and writes a division sign, a symbol as the
    fraction slash is. *)

From Stdlib Require Import Ascii String.
From stdpp Require Import strings list.
From S2P Require Import Prelude PyFloat PyStr PyVal Regex PyNumber Evidence Decision.

Local Open Scope string_scope.
Local Open Scope Z_scope.
Local Open Scope list_scope.

Definition REQUEST_POLICY_VERSION : string := "rick-nonclinical-request-v1".
Definition CLINICAL_REQUEST_POLICY_VERSION : string := "rick-clinical-domain-v1".
Definition _VERSION : string -> bool :=
  matches_head_tail is_lower_az (fun c => is_lower_az c || is_digit c || is_char 45 c) 63.
Definition _CODE : string -> bool := matches_head_tail is_lower_az code_char 63.

(** ** Classifications *)

Record RequestClassification : Type := mk_classification {
  rc_policy_version : string; rc_reason_code : string; rc_domain_risk : DomainRisk; rc_intent : UserIntent;
  rc_allows_answer : bool; rc_human_review_required : bool; rc_retry_query : option string }.

(** The default [UserIntent()]. *)
Definition unknown_intent : UserIntent := mk_intent "unknown" clarity_UNKNOWN.

Definition RequestClassification_new (version reason : string) (risk : DomainRisk) (intent : UserIntent)
    (allows_answer human_review_required : bool) (retry_query : option string) : eres RequestClassification :=
  invalid_if (negb (_VERSION version));;
  invalid_if (negb (_CODE reason));;
  invalid_if (allows_answer && (negb (bool_decide (risk = LOW)) || negb (bool_decide (clarity intent = CLEAR))));;
  invalid_if match retry_query with Some q => negb ((1 <=? slen q) && (slen q <=? 512)) | None => false end;;
  Ok (mk_classification version reason risk intent allows_answer human_review_required retry_query).

(** A classification that leaves every field at its default. *)
Definition unclassified (version reason : string) (risk : DomainRisk) : eres RequestClassification :=
  RequestClassification_new version reason risk unknown_intent false false None.

Definition risk_value (r : DomainRisk) : string :=
  match r with risk_UNKNOWN => "UNKNOWN" | LOW => "LOW" | MEDIUM => "MEDIUM" | HIGH => "HIGH" | CRITICAL => "CRITICAL" end.
Definition clarity_value (c : IntentClarity) : string :=
  match c with clarity_UNKNOWN => "UNKNOWN" | CLEAR => "CLEAR" | AMBIGUOUS => "AMBIGUOUS" | UNSUPPORTED => "UNSUPPORTED" end.

Definition metadata (c : RequestClassification) : list (string * pyval) :=
  [("request_policy_version", VStr (rc_policy_version c)); ("request_policy_reason", VStr (rc_reason_code c));
   ("request_domain_risk", VStr (risk_value (rc_domain_risk c))); ("request_intent", VStr (intent_code (rc_intent c)));
   ("request_intent_clarity", VStr (clarity_value (clarity (rc_intent c))));
   ("request_policy_allows_answer", VBool (rc_allows_answer c));
   ("request_policy_human_review_required", VBool (rc_human_review_required c));
   ("domain_acceptance", VStr (if rc_human_review_required c then "clinical_broad_intake_human_review"
                               else "nonclinical_technical_only"))].

(** ** The tables *)

Record InformationalRule : Type := mk_rule { rule_intent : string; rule_questions : list string; rule_retry_query : string }.

Definition _INFORMATIONAL_RULES : list InformationalRule :=
  [mk_rule "document_upload_help"
     ["how do i upload a document"; "how can i upload a document"; "how do i upload a document in rick";
      "how do i upload a pdf"; "como enviar um documento"; "como enviar um documento no rick";
      "como faco upload de um documento"; "como fazer upload de um documento"]
     "document upload enviar documento arquivo colecao rick";
   mk_rule "source_citation_help"
     ["how do i cite sources"; "how do citations work in rick"; "what are source citations"; "como citar fontes";
      "como funcionam as citacoes no rick"; "o que sao citacoes de fontes"]
     "source citations references fontes citacoes documentos rick";
   mk_rule "collection_help"
     ["what is a document collection"; "how do document collections work"; "what is a collection in rick";
      "o que e uma colecao de documentos"; "como funcionam as colecoes de documentos"; "o que e uma colecao no rick"]
     "document collections organize colecao documentos organizacao rick";
   mk_rule "document_retry_help"
     ["how do i retry a failed document upload"; "how do i check document ingestion status";
      "como repetir um upload de documento que falhou"; "como consultar o status de ingestao de um documento"]
     "document upload retry ingestion status repetir envio documento falhou rick"].

Definition _AMBIGUOUS : list string :=
  ["document"; "documento"; "upload"; "collection"; "colecao"; "help with documents"; "ajuda com documentos"].
Definition _UNSUPPORTED : list string := ["tell me a joke"; "conte uma piada"; "write a poem"; "escreva um poema"].

(** ** The vocabularies *)

(** A word character of a pattern on text. *)
Definition word (c : ascii) : bool := isalnum c || is_char 95 c.

Fixpoint literal (s : string) : re :=
  match s with EmptyString => Eps | String c s' => cat (Chr (Ascii.eqb c)) (literal s') end.
(** [w\w*]. *)
Definition stem (w : string) : re := Cat (literal w) (Star (Chr word)).
Definition spaces : re := Star (Chr isspace).
Definition spaces1 : re := re_plus (Chr isspace).

(** [re.search] for [\br\b], where every match of [r] begins and ends with a
    word character: what is around the match is not one. *)
Definition between_boundaries (r : re) : re := cats [Chr (fun c => negb (word c)); r; Chr (fun c => negb (word c))].
Definition search_words (r : re) (s : string) : bool := re_search (between_boundaries r) (" " +:+ s +:+ " ").

Definition clinical_words : re := alts
  ([literal "clinical"] ++ map stem ["clinico"; "clinica"; "patient"; "paciente"; "diagnos"; "dose"; "dosage"]
   ++ [literal "dosagem"]
   ++ map stem ["prescrib"; "prescrev"; "treat"; "tratamento"; "medicat"; "medicamento"; "anest"; "eutana"; "euthana"]
   ++ [literal "emergency"; stem "emergencia"; literal "bleeding"; literal "sangramento"; stem "intoxica"; stem "poison";
       stem "vomit"; literal "pain"]
   ++ map stem ["symptom"; "sintoma"; "vacin"; "vaccin"]
   ++ [literal "cao"; literal "caes"; stem "gato"; stem "dog"; literal "cat"; literal "cats"]).
Definition dose_unit : re := cats [literal "mg"; spaces; literal "/"; spaces; literal "kg"].

Definition _CLINICAL (s : string) : bool := search_words clinical_words s || search_words dose_unit s.

Definition override_words : re :=
  alts (map literal ["ignore"; "disregard"; "override"; "bypass"; "jailbreak"; "finja"; "desconsidere"]).
Definition override_phrases : re := alts
  [cats [literal "system"; spaces1; alts [literal "prompt"; literal "message"]];
   cats [alts [literal "prompt"; literal "mensagem"]; spaces1; alts [literal "de"; literal "do"]; spaces1; literal "sistema"];
   cats [alts [literal "risk"; literal "risco"]; spaces; Chr (one_of ":="); spaces; alts [literal "low"; literal "baixo"]];
   Cat (literal "<|") (alts [literal "system"; literal "assistant"]);
   literal "```"].

Definition _INJECTION (s : string) : bool := search_words override_words s || re_search override_phrases s.

(** ** Normalisation *)

(** A control or format character that is not ordinary whitespace. *)
Definition hidden (c : ascii) : bool :=
  (in_range 0 31 c || in_range 127 159 c || is_char 173 c) && negb (is_char 9 c || is_char 10 c || is_char 13 c).

Definition one (z : Z) : string := String (chr z) EmptyString.

(** A Latin-1 character after [casefold], NFKD and the loss of its combining
    marks. *)
Definition fold_char (c : ascii) : string :=
  let l := lower_char c in
  let at_ := fun z => is_char z l in
  if is_char 223 c then "ss"
  else if in_range 224 229 l || at_ 170 then "a"
  else if at_ 231 then "c"
  else if in_range 232 235 l then "e"
  else if in_range 236 239 l then "i"
  else if at_ 241 then "n"
  else if in_range 242 246 l || at_ 186 then "o"
  else if in_range 249 252 l then "u"
  else if at_ 253 || at_ 255 then "y"
  else if at_ 160 || at_ 168 || at_ 175 || at_ 180 || at_ 184 then " "
  else if at_ 185 then "1" else if at_ 178 then "2" else if at_ 179 then "3"
  else if at_ 188 then "1" +:+ one 247 +:+ "4"
  else if at_ 189 then "1" +:+ one 247 +:+ "2"
  else if at_ 190 then "3" +:+ one 247 +:+ "4"
  else String l EmptyString.

Fixpoint fold_text (s : string) : string :=
  match s with EmptyString => EmptyString | String c s' => fold_char c +:+ fold_text s' end.

(** [s.split()]: the maximal runs of other characters than whitespace. *)
Fixpoint split_words (current s : string) : list string :=
  match s with
  | EmptyString => if is_empty current then [] else [current]
  | String c s' =>
      if isspace c then (if is_empty current then [] else [current]) ++ split_words EmptyString s'
      else split_words (current +:+ String c EmptyString) s'
  end.

Fixpoint removesuffix (suffix s : string) : string :=
  if str_eqb s suffix then EmptyString
  else match s with EmptyString => EmptyString | String c s' => String c (removesuffix suffix s') end.

Definition _normalize (v : pyval) : option string :=
  match v with
  | VStr text =>
      if negb ((1 <=? slen text) && (slen text <=? 4000)) || sany hidden text then None
      else Some (strip (removesuffix "?" (join " " (split_words EmptyString (fold_text text)))))
  | _ => None
  end.

(** ** The policies *)

(** The first item of the request and its history that is not harmless. *)
Fixpoint screen (items : list string) : option (eres RequestClassification) :=
  match items with
  | [] => None
  | item :: items' =>
      if _INJECTION item then Some (unclassified REQUEST_POLICY_VERSION "instruction_override_attempt" HIGH)
      else if _CLINICAL item then Some (unclassified REQUEST_POLICY_VERSION "clinical_review_required" HIGH)
      else screen items'
  end.

(** The request alone, after the screening. *)
Definition classify_text (text : string) : eres RequestClassification :=
  if str_in text _AMBIGUOUS then
    RequestClassification_new REQUEST_POLICY_VERSION "nonclinical_intent_ambiguous" LOW
      (mk_intent "product_help" AMBIGUOUS) false false None
  else if str_in text _UNSUPPORTED then
    RequestClassification_new REQUEST_POLICY_VERSION "intent_outside_product_scope" LOW
      (mk_intent "unsupported" UNSUPPORTED) false false None
  else
    match List.find (fun rule => str_in text (rule_questions rule)) _INFORMATIONAL_RULES with
    | Some rule =>
        RequestClassification_new REQUEST_POLICY_VERSION "nonclinical_information_allowlisted" LOW
          (mk_intent (rule_intent rule) CLEAR) true false (Some (rule_retry_query rule))
    | None => unclassified REQUEST_POLICY_VERSION "request_unrecognized" risk_UNKNOWN
    end.

(** [NonClinicalRequestPolicy(version=...).classify]. *)
Definition classify (version : option string) (query history : pyval) : eres RequestClassification :=
  if negb (match version with Some v => str_eqb v REQUEST_POLICY_VERSION | None => false end)
  then unclassified "unavailable" "request_policy_unavailable" risk_UNKNOWN
  else match _normalize query with
  | None => unclassified REQUEST_POLICY_VERSION "request_outside_policy" risk_UNKNOWN
  | Some text =>
      match history with
      | VList items =>
          if 50 <? Z.of_nat (length items)
          then unclassified REQUEST_POLICY_VERSION "history_outside_policy" risk_UNKNOWN
          else match mapM _normalize items with
          | None => unclassified REQUEST_POLICY_VERSION "history_outside_policy" risk_UNKNOWN
          | Some prior =>
              match screen (text :: prior) with
              | Some c => c
              | None =>
                  match prior with
                  | [] => classify_text text
                  | _ => unclassified REQUEST_POLICY_VERSION "contextual_request_unreviewed" risk_UNKNOWN
                  end
              end
          end
      | _ => unclassified REQUEST_POLICY_VERSION "history_outside_policy" risk_UNKNOWN
      end
  end.

(** [ClinicalDomainPolicy().classify]. *)
Definition clinical_classify (query history : pyval) : eres RequestClassification :=
  result ← classify (Some REQUEST_POLICY_VERSION) query history;
  if str_eqb (rc_reason_code result) "clinical_review_required" then
    RequestClassification_new CLINICAL_REQUEST_POLICY_VERSION "clinical_domain_review_required" HIGH (rc_intent result)
      false true (rc_retry_query result)
  else
    RequestClassification_new CLINICAL_REQUEST_POLICY_VERSION (rc_reason_code result) (rc_domain_risk result)
      (rc_intent result) (rc_allows_answer result) (rc_human_review_required result) (rc_retry_query result).

(** [classify_request]: a classifier returns a classification, or something
    else ([Ok None]), or raises. *)
Definition classifier : Type := pyval -> pyval -> eres (option RequestClassification).

Definition clinical_policy : classifier := fun query history => c ← clinical_classify query history; Ok (Some c).

Definition classify_request (c : option classifier) (query history : pyval) : eres RequestClassification :=
  match c with
  | None => unclassified "unavailable" "request_policy_unavailable" risk_UNKNOWN
  | Some classify =>
      match classify query history with
      | Ok (Some result) => Ok result
      | _ => unclassified "unavailable" "request_classifier_failed" risk_UNKNOWN
      end
  end.
