(* ===== verification/Identity.v ===== *)
(** * Canonical identities (packages/knowledge, identity.py)

    The identifiers of documents, chunks and points: a name is built from the
    scope and the content, and hashed.  [None] is the [ValueError] of a
    malformed tenant, collection, workspace or checksum. *)

From Stdlib Require Import Ascii String.
From stdpp Require Import strings.
From S2P Require Import Prelude PyFloat PyStr PyVal Json CanonicalJson Sha256 KnowledgeModels.

Local Open Scope string_scope.
Local Open Scope Z_scope.
Local Open Scope list_scope.

(** [s.encode("utf-8")]. *)
Fixpoint utf8 (s : string) : string :=
  match s with
  | EmptyString => EmptyString
  | String c s' => if code c <? 128 then String c (utf8 s')
                   else String (chr (192 + code c / 64)) (String (chr (128 + code c mod 64)) (utf8 s'))
  end.

Definition content_checksum (content : string) : string := hexdigest (utf8 content).

Definition collection_char (c : ascii) : bool := is_alnum_az c || is_char 95 c || is_char 45 c.

(** [normalize_collection_id] of a string. *)
Definition normalize_collection_id (collection_id : string) : option string :=
  let candidate := strip (if is_empty collection_id then CANONICAL_COLLECTION_ID else collection_id) in
  if matches_head_tail collection_char collection_char 63 candidate
  then Some (from_option id candidate (dict_get candidate COLLECTION_ALIASES)) else None.

Definition normalize_tenant_id (tenant_id : string) : option string :=
  let candidate := strip tenant_id in
  if matches_head_tail collection_char collection_char 127 candidate then Some candidate else None.

Definition _IDENTITY_NAMESPACE : uuid := Eval vm_compute in
  uuid5 NAMESPACE_URL "https://rick-intelligence.local/rag-contract-v1".

(** The name of the first version: scopes and content joined by colons. *)
Definition legacy_name (tenant workspace_id resolved checksum : string) : string :=
  if str_eqb tenant "default" then "document:" +:+ workspace_id +:+ ":" +:+ resolved +:+ ":" +:+ checksum
  else "document:tenant:" +:+ tenant +:+ ":" +:+ workspace_id +:+ ":" +:+ resolved +:+ ":" +:+ checksum.

Definition legacy_document_id_for_content (workspace_id collection_id checksum tenant_id : string) : option string :=
  tenant ← normalize_tenant_id tenant_id;
  resolved ← normalize_collection_id collection_id;
  Some (uuid_text (uuid5 _IDENTITY_NAMESPACE (utf8 (legacy_name tenant workspace_id resolved checksum)))).

(** [json.dumps([...], ensure_ascii=True, separators=(",", ":"))] of strings. *)
Definition json_strings (l : list string) : string := "[" +:+ join_commas (map quote_ascii l) +:+ "]".

(** The name a new document identity is hashed from. *)
Definition document_name (workspace_id collection_id checksum tenant_id : string) : option string :=
  if is_empty (strip workspace_id) || is_empty checksum then None
  else
    tenant ← normalize_tenant_id tenant_id;
    resolved ← normalize_collection_id collection_id;
    Some (if str_eqb tenant "default" && sall (fun c => negb (is_char 58 c)) workspace_id
          then legacy_name tenant workspace_id resolved checksum
          else "document:v2:" +:+ json_strings [tenant; workspace_id; resolved; checksum]).

Definition document_id_for_content (workspace_id collection_id checksum tenant_id : string) : option string :=
  name ← document_name workspace_id collection_id checksum tenant_id;
  Some (uuid_text (uuid5 _IDENTITY_NAMESPACE (utf8 name))).

Definition point_id_for_chunk (chunk_id : string) : string :=
  uuid_text (uuid5 _IDENTITY_NAMESPACE (utf8 ("point:" +:+ chunk_id))).

Definition document_version (checksum : string) : string := "sha256:" +:+ stake 16 checksum.

(** [f"{n:04d}"] for [0 <= n]. *)
Definition padded4 (n : Z) : string :=
  let digits := decimal n in zeros (4 - Strings.String.length digits) +:+ digits.

Definition chunk_id_for_document (document_id : string) (chunk_index : Z) : string :=
  "chunk_" +:+ document_id +:+ "_" +:+ padded4 chunk_index.

(** The identity of the same content under another vector index. *)
Definition indexed_document_id (document_id contract : string) : string :=
  uuid_text (uuid5 NAMESPACE_URL (utf8 ("rick-index:" +:+ document_id +:+ ":" +:+ contract))).

(** ** Names are unambiguous *)

Lemma scan_escape_ascii_char c r : scan_string (escape_ascii_char c +:+ r) = push c (scan_string r).
Proof. destruct c as [[][][][][][][][]]; reflexivity. Qed.

Lemma scan_escape_ascii s r : scan_string (escape_ascii s +:+ String quote_char r) = Some (s, r).
Proof.
  induction s as [|c s IH]; [reflexivity|].
  cbn [escape_ascii]. now rewrite app_assoc_str, scan_escape_ascii_char, IH.
Qed.

(** A quoted string is read back, whatever follows it. *)
Lemma quote_ascii_inj s1 s2 r1 r2 : quote_ascii s1 +:+ r1 = quote_ascii s2 +:+ r2 -> s1 = s2 /\ r1 = r2.
Proof.
  unfold quote_ascii. cbn [Strings.String.append]. rewrite !app_assoc_str. cbn [Strings.String.append].
  intros [= H%(f_equal scan_string)]. rewrite !scan_escape_ascii in H. now injection H.
Qed.

Lemma app_inj_prefix p s t : p +:+ s = p +:+ t -> s = t.
Proof. induction p as [|c p IH]; cbn; [auto | intros [= H]; auto]. Qed.

Lemma app_empty s : s +:+ EmptyString = s.
Proof. induction s as [|c s IH]; cbn; congruence. Qed.

Lemma json_strings4_inj a b c d a' b' c' d' :
  json_strings [a; b; c; d] = json_strings [a'; b'; c'; d'] -> a = a' /\ b = b' /\ c = c' /\ d = d'.
Proof.
  unfold json_strings. cbn [map join_commas]. intros H%app_inj_prefix.
  do 3 (rewrite !app_assoc_str in H; apply quote_ascii_inj in H as [-> H]; cbn [Strings.String.append] in H;
        apply (f_equal (sdrop 1)) in H; cbn [sdrop] in H).
  apply quote_ascii_inj in H as [-> _]. auto.
Qed.

(** A field without a colon ends at the first colon. *)
Definition no_colon (s : string) : bool := sall (fun c => negb (is_char 58 c)) s.

Lemma colon_field_inj s1 s2 r1 r2 :
  no_colon s1 = true -> no_colon s2 = true -> s1 +:+ ":" +:+ r1 = s2 +:+ ":" +:+ r2 -> s1 = s2 /\ r1 = r2.
Proof.
  revert s2; induction s1 as [|c s1 IH]; intros [|c2 s2]; cbn.
  - intros _ _ [= ->]. auto.
  - intros _ H2 [= <- _]. discriminate.
  - intros H1 _ [= -> _]. discriminate.
  - unfold no_colon in *. cbn. intros [_ H1]%andb_prop [_ H2]%andb_prop [= -> H].
    destruct (IH _ H1 H2 H) as [-> ->]. auto.
Qed.

Lemma collection_char_no_colon s : sall collection_char s = true -> no_colon s = true.
Proof.
  apply sall_impl. intros c. unfold collection_char, is_alnum_az, is_upper_az, is_lower_az, is_digit, in_range, is_char. lia.
Qed.

(** A normalized collection has its form, and names no other one. *)
Lemma normalize_collection_form c r :
  normalize_collection_id c = Some r -> sall collection_char r = true /\ r <> EmptyString.
Proof.
  unfold normalize_collection_id. set (candidate := strip _). destruct (matches_head_tail _ _ _ _) eqn:E; [|discriminate].
  apply (matches_head_tail_sall _ _ _ _) in E as F. destruct (dict_get candidate COLLECTION_ALIASES) as [a|] eqn:G.
  - apply dict_get_In in G. cbn [from_option id]. intros [= <-].
    destruct G as [[= _ <-]|[[= _ <-]|[[= _ <-]|[]]]]; (split; [reflexivity|discriminate]).
  - cbn [from_option id]. intros [= <-]. split; [|intros H; rewrite H in E; discriminate E].
    revert F. apply sall_impl. intros d. now rewrite orb_diag.
Qed.
