(* ===== verification/IdentityProperties.v ===== *)
(** * Properties of the canonical identities *)

From Stdlib Require Import Ascii String.
From stdpp Require Import strings.
From S2P Require Import Prelude PyFloat PyStr PyVal Json CanonicalJson KnowledgeModels Identity.

Local Open Scope string_scope.
Local Open Scope Z_scope.
Local Open Scope list_scope.

(** The two encodings do not overlap: after [document:v2:] a tuple opens a
    bracket, which no collection does. *)
Lemma legacy_is_not_v2 w r k l :
  no_colon w = true -> sall collection_char r = true -> r <> EmptyString ->
  "document:" +:+ w +:+ ":" +:+ r +:+ ":" +:+ k = "document:v2:" +:+ json_strings l -> False.
Proof.
  intros Hw Hr Hne H. change ("document:v2:" +:+ json_strings l) with ("document:" +:+ "v2" +:+ ":" +:+ json_strings l) in H.
  apply app_inj_prefix, colon_field_inj in H as [_ H]; [|exact Hw|reflexivity].
  destruct r as [|c r]; [congruence|]. unfold json_strings in H. cbn in H, Hr. injection H as -> _. discriminate Hr.
Qed.

Lemma legacy_name_inj w1 r1 k1 w2 r2 k2 :
  no_colon w1 = true -> no_colon w2 = true -> sall collection_char r1 = true -> sall collection_char r2 = true ->
  legacy_name "default" w1 r1 k1 = legacy_name "default" w2 r2 k2 -> w1 = w2 /\ r1 = r2 /\ k1 = k2.
Proof.
  intros W1 W2 R1%collection_char_no_colon R2%collection_char_no_colon H.
  apply app_inj_prefix, colon_field_inj in H as [-> H]; [|assumption..].
  apply colon_field_inj in H as [-> ->]; [auto|assumption..].
Qed.

(** What a document name is made of. *)
Lemma document_name_Some w c k t n :
  document_name w c k t = Some n -> exists tenant resolved,
  normalize_tenant_id t = Some tenant /\ normalize_collection_id c = Some resolved
  /\ ((tenant = "default" /\ no_colon w = true /\ n = legacy_name "default" w resolved k)
      \/ n = "document:v2:" +:+ json_strings [tenant; w; resolved; k]).
Proof.
  unfold document_name. destruct (is_empty (strip w) || is_empty k); [discriminate|].
  destruct (normalize_tenant_id t) as [tenant|]; [|discriminate].
  destruct (normalize_collection_id c) as [resolved|]; [|discriminate]. cbn [mbind option_bind].
  intros [= <-]. exists tenant, resolved. split; [reflexivity|]. split; [reflexivity|].
  destruct (str_eqb tenant "default" && _) eqn:E; [left|right; reflexivity].
  apply andb_prop in E as [->%str_eqb_eq E]. auto.
Qed.

(** C19: Distinct contents, collections, workspaces and tenants never share the
    name a document identity is hashed from: the names of the first version,
    still written for a default tenant whose workspace has no colon, and the
    tuple encoding used otherwise are both unambiguous and do not overlap. *)
Theorem identity_names_unambiguous w c k t w' c' k' t' n :
  document_name w c k t = Some n -> document_name w' c' k' t' = Some n ->
  normalize_tenant_id t = normalize_tenant_id t' /\ w = w'
  /\ normalize_collection_id c = normalize_collection_id c' /\ k = k'.
Proof.
  intros (t1 & r1 & -> & C1 & H1)%document_name_Some (t2 & r2 & -> & C2 & H2)%document_name_Some.
  pose proof (normalize_collection_form _ _ C1) as [F1 N1]. pose proof (normalize_collection_form _ _ C2) as [F2 N2].
  rewrite C1, C2. destruct H1 as [(-> & W1 & ->)| ->], H2 as [(-> & W2 & E)|E].
  - apply legacy_name_inj in E as (-> & -> & ->); auto.
  - destruct (legacy_is_not_v2 _ _ _ _ W1 F1 N1 E).
  - destruct (legacy_is_not_v2 _ _ _ _ W2 F2 N2 (eq_sym E)).
  - apply app_inj_prefix, json_strings4_inj in E as (-> & -> & -> & ->). auto.
Qed.

(** Two colliding colon-joined scopes get different names. *)
Lemma identity_names_unambiguous_witness :
  legacy_name "default" "a:b" "c" "d" = legacy_name "default" "a" "b" "c:d"
  /\ document_name "a" "b" "c:d" "default" = Some "document:a:b:c:d"
  /\ (normalize_tenant_id " default" = normalize_tenant_id "default" /\ "a" = "a"
      /\ normalize_collection_id "b " = normalize_collection_id "b" /\ "c:d" = "c:d").
Proof.
  split; [reflexivity|]. split; [reflexivity|].
  apply (identity_names_unambiguous "a" "b " "c:d" " default" "a" "b" "c:d" "default" "document:a:b:c:d"); reflexivity.
Defined.
