(* ===== verification/DecisionGate.v ===== *)
(** * The evidence and decision gate (apps/api, services/professor_backend.py)

    [EvidenceDecisionGate] stands between retrieval and the Professor: it
    issues evidence for retrieval candidates from the canonical knowledge,
    asks the decision layer, retries a weak retrieval once, and revalidates the
    sources of an answer before delivery.  Retrieval, the knowledge store and
    the live authorization are arguments; a retrieved object with a
    [model_dump] is the mapping it dumps.  The reads of one attempt, and those
    of one revalidation, see one state of the knowledge. *)

From Stdlib Require Import Ascii String.
From stdpp Require Import strings list.
From S2P Require Import Prelude PyFloat PyStr PyVal PyNumber StateError Evidence EvidenceValidator Decision.
From S2P Require Import KnowledgeModels Authorization ProfessorModels Orchestrator RequestPolicy.

Local Open Scope string_scope.
Local Open Scope Z_scope.
Local Open Scope list_scope.

(** ** Dependencies *)

(** The knowledge store at one moment; any read may raise. *)
Record knowledge : Type := {
  kn_get_document : string -> string -> string -> outcome (option Document);        (* document, tenant, workspace *)
  kn_get_collection : string -> string -> string -> outcome (option Collection);    (* workspace, collection, tenant *)
  kn_scoped_chunks : bool;                                          (* [get_chunks] takes the tenant and workspace *)
  kn_get_chunks : string -> option (string * string) -> outcome (list Chunk) }.

Inductive moment : Type := Attempt (n : nat) | Publication.

Record gate : Type := {
  g_retrieve : option (nat -> string -> list (string * pyval) -> outcome pyval);
  g_knowledge : option (moment -> knowledge);
  g_classifier : option classifier;
  g_authorization_revalidator : option (list (string * pyval) -> outcome pyval) }.

Inductive gate_error : Type := GateEvidence (e : ev_error) | GateDependency | GateTypeError | GateOverflowError.

Definition from_evidence {A} (m : eres A) : res gate_error A := res_catch m (fun e => Err (GateEvidence e)).

(** ** The authority *)

Definition collection_open (s : EvidenceScope) (c : Collection) : bool :=
  str_eqb (co_tenant_id c) (s_tenant_id s) && str_eqb (co_workspace_id c) (s_workspace_id s)
  && str_eqb (co_collection_id c) (s_collection_id s) && str_eqb (co_status c) "active".

Definition document_in (s : EvidenceScope) (document_id : string) (d : Document) : bool :=
  str_eqb (d_document_id d) document_id && str_eqb (d_tenant_id d) (s_tenant_id s)
  && str_eqb (d_workspace_id d) (s_workspace_id s) && str_eqb (d_collection_id d) (s_collection_id s).

Definition chunk_is (s : EvidenceScope) (document_id chunk_id : string) (c : Chunk) : bool :=
  str_eqb (ch_chunk_id c) chunk_id && str_eqb (ch_document_id c) document_id && str_eqb (ch_tenant_id c) (s_tenant_id s).

(** The published document, in an open collection of the scope, and its chunk. *)
Definition canonical (kn : knowledge) (s : EvidenceScope) (document_id chunk_id : string) : option (Document * Chunk) :=
  match kn_get_document kn document_id (s_tenant_id s) (s_workspace_id s) with
  | Returns (Some d) =>
      if negb (document_in s document_id d) || negb (str_eqb (d_status d) "published") then None
      else match kn_get_collection kn (s_workspace_id s) (s_collection_id s) (s_tenant_id s) with
      | Returns (Some c) =>
          if negb (collection_open s c) then None
          else match kn_get_chunks kn document_id
                       (if kn_scoped_chunks kn then Some (s_tenant_id s, s_workspace_id s) else None) with
          | Returns chunks =>
              option_map (fun ch => (d, ch)) (List.find (chunk_is s document_id chunk_id) chunks)
          | Raises => None
          end
      | _ => None
      end
  | _ => None
  end.

(** [d.get(name, default)]. *)
Definition get_or (name : string) (default : pyval) (d : list (string * pyval)) : pyval :=
  from_option id default (dict_get name d).

Definition authoritative_record (d : Document) (ch : Chunk) (raw : list (string * pyval)) : list (string * pyval) :=
  [("tenant_id", VStr (d_tenant_id d)); ("workspace_id", VStr (d_workspace_id d));
   ("collection_id", VStr (d_collection_id d)); ("document_id", VStr (d_document_id d));
   ("document_version", VStr (d_document_version d)); ("document_checksum", VStr (d_content_checksum d));
   ("chunk_id", VStr (ch_chunk_id ch)); ("source", VStr (str_or (d_display_filename d) (d_filename d)));
   ("title", VStr (str_or (str_or (d_title d) (d_display_filename d)) (d_filename d)));
   ("checksum", VStr (str_or (ch_checksum ch) (d_content_checksum d))); ("text", VStr (ch_text ch));
   ("page_start", opt_int (ch_page_start ch)); ("page_end", opt_int (ch_page_end ch));
   ("section", opt_str (ch_section ch));
   ("retrieval_score", get_or "retrieval_score" (get_or "score" (VFloat (Fin 0)) raw) raw);
   ("reranking_score", get_or "reranking_score" (get_or "rerank_score" (VFloat (Fin 0)) raw) raw)].

(** [_KnowledgeAuthority.resolve]. *)
Definition resolve (kn : knowledge) (c : candidate) (s : EvidenceScope) : option (list (string * pyval)) :=
  let raw := match c with C_mapping d => d | C_object _ _ => [] end in
  match dict_read "document_id" raw, dict_read "chunk_id" raw with
  | VStr document_id, VStr chunk_id =>
      if is_empty (strip document_id) || is_empty (strip chunk_id) then None
      else option_map (fun dc => authoritative_record (fst dc) (snd dc) raw) (canonical kn s document_id chunk_id)
  | _, _ => None
  end.

Definition knowledge_authority (kn : knowledge) : authority :=
  Authority (fun c s => Resolved (match resolve kn c s with Some d => VDict d | None => VNone end)).

(** The validator [__init__] composes. *)
Definition gate_validator (kn : option knowledge) : EvidenceValidator :=
  mk_validator 8 _MAX_TEXT_CHARS (lit 80 100) (match kn with Some k => knowledge_authority k | None => No_authority end)
    (match kn with Some _ => true | None => false end).

(** ** Observed citation metrics *)

Definition _mapping (v : pyval) : list (string * pyval) := match v with VDict d => d | _ => [] end.

Definition metric_keys : list string :=
  ["citation_precision"; "citation_recall"; "citation_completeness"; "unsupported_claim_rate"; "faithfulness"].

(** The mapping that holds the observation ([inl]), or whether it is malformed. *)
Definition observed_metrics (metadata : list (string * pyval)) : list (string * pyval) + bool :=
  match dict_get "citation_support_metrics" metadata with
  | Some (VDict d) => inl d
  | Some _ => inr true
  | None =>
      match dict_get "citation_support" metadata with
      | Some (VDict d) => inl d
      | Some _ => inr true
      | None =>
          if existsb (fun k => str_in k (dict_keys metadata))
               (metric_keys ++ ["citation_support_status"; "citation_evaluated_claims"]) then inl metadata else inr false
      end
  end.

(** The first of the names that is present. *)
Fixpoint first_of (names : list string) (d : list (string * pyval)) : option pyval :=
  match names with
  | [] => None
  | name :: names' => match dict_get name d with Some v => Some v | None => first_of names' d end
  end.

Definition status_field (v : option pyval) : eres CitationSupportStatus :=
  match v with
  | None => Ok NOT_RUN
  | Some (VStr s) =>
      if str_eqb s "PASS" then Ok PASS else if str_eqb s "FAIL" then Ok FAIL
      else if str_eqb s "INCONCLUSIVE" then Ok INCONCLUSIVE else if str_eqb s "NOT_RUN" then Ok NOT_RUN else Err EvValueError
  | Some _ => Err EvValueError
  end.

(** [CitationSupportMetrics.model_validate] of the values the names give. *)
Definition metrics_of (raw : list (string * pyval)) : eres CitationSupportMetrics :=
  let metric := fun k => from_option id VNone (dict_get k raw) in
  status ← status_field (first_of ["status"; "citation_support_status"] raw);
  let claims := from_option id (VInt 0) (first_of ["evaluated_claims"; "citation_evaluated_claims"; "claim_count"] raw) in
  match first_of ["source"; "citation_support_source"] raw with
  | None => Err EvValueError
  | Some src =>
      CitationSupportMetrics_new status (metric "citation_precision") (metric "citation_recall")
        (metric "citation_completeness") (metric "unsupported_claim_rate") (metric "faithfulness") claims src
  end.

Definition _citation_support_metrics (payload : list (string * pyval)) : option CitationSupportMetrics * bool :=
  match dict_get "metadata" payload with
  | Some (VDict metadata) =>
      match observed_metrics metadata with
      | inr malformed => (None, malformed)
      | inl raw => (match metrics_of raw with Ok m => Some m | Err _ => None end, true)
      end
  | _ => (None, false)
  end.

Definition _structural_citation_support (v : EvidenceValidator) (bundle : option EvidenceBundle) : eres pyfloat :=
  match bundle with
  | None => Ok (Fin 0)
  | Some b => report ← validate_bundle v (V_bundle b) None;
              Ok (if er_valid report && (0 <? er_evidence_count report) then lit 1 1 else Fin 0)
  end.

(** ** Issuing evidence *)

(** [x in allowed or "*" in allowed]. *)
Definition grants (allowed : list pyval) (v : pyval) : bool :=
  existsb (fun a => is_str a "*") allowed || existsb (py_eqb v) allowed.

Definition or_title (authoritative : option (list (string * pyval))) (c : list (string * pyval)) : pyval :=
  match authoritative with Some a => get_or "title" (VStr EmptyString) a | None => get_or "title" (VStr EmptyString) c end.

Definition raw_quality (c : list (string * pyval)) : pyval :=
  get_or "retrieval_quality_score" (get_or "confidence_score" (VFloat (Fin 0)) c) c.

(** The projection of an issued evidence the Professor receives. *)
Definition normalized_item (e : Evidence) (authoritative : option (list (string * pyval))) (c : list (string * pyval))
    : list (string * pyval) :=
  [("evidence_id", VStr (evidence_id e)); ("tenant_id", VStr (tenant_id e)); ("workspace_id", VStr (workspace_id e));
   ("collection_id", VStr (collection_id e)); ("document_id", VStr (document_id e));
   ("document_version", VStr (document_version e));
   ("document_checksum", match authoritative with Some a => dict_read "document_checksum" a | None => VNone end);
   ("chunk_id", VStr (chunk_id e)); ("source", VStr (source e)); ("title", or_title authoritative c);
   ("checksum", VStr (checksum e)); ("text", VStr (text e)); ("page_start", opt_int (page_start e));
   ("page_end", opt_int (page_end e)); ("section", opt_str (section e));
   ("retrieval_quality_score", raw_quality c); ("confidence_score", raw_quality c);
   ("score", get_or "score" (VFloat (Fin 0)) c); ("rank", get_or "rank" (VInt 0) c);
   ("dense_score", get_or "dense_score" (VFloat (Fin 0)) c); ("sparse_score", get_or "sparse_score" (VFloat (Fin 0)) c);
   ("reranking_score", VFloat (reranking_score e)); ("retrieval_score", VFloat (retrieval_score e))].

Record issuing : Type := mk_issuing {
  is_selected : option string; is_issued : list Evidence; is_normalized : list (list (string * pyval));
  is_qualities : list pyfloat }.

Definition nothing_issued : issuing := mk_issuing None [] [] [].

(** [float(raw_quality)] in its [try], and the clamped value if finite. *)
Definition quality_values (v : pyval) : res gate_error (list pyfloat) :=
  match py_float v with
  | FloatOk f => Ok (if fisfinite f then [clamp f] else [])
  | FloatInvalid => Ok [clamp (Fin 0)]
  | FloatOverflow => Err GateOverflowError
  end.

(** The body of the loop over the candidates. *)
Definition issue_candidate (kn : option knowledge) (tenant workspace : string) (allowed : list pyval)
    (st : issuing) (raw : pyval) : res gate_error issuing :=
  let candidate := _mapping raw in
  match dict_read "collection_id" candidate with
  | VStr collection_id =>
      if is_empty collection_id || negb (grants allowed (VStr collection_id))
         || match is_selected st with Some c => negb (str_eqb collection_id c) | None => false end then Ok st
      else
        scope ← from_evidence (EvidenceScope_new (VStr tenant) (VStr workspace) (VStr collection_id));
        let authoritative := match kn with Some k => resolve k (C_mapping candidate) scope | None => None end in
        match kn, authoritative with
        | Some _, None => Ok st
        | _, _ =>
            match issue (gate_validator kn) (C_mapping candidate) (Scope_typed scope) VNone authoritative with
            | Err _ => Ok st
            | Ok e =>
                if str_in (evidence_id e) (map evidence_id (is_issued st)) then Ok st
                else
                  qualities ← quality_values (raw_quality candidate);
                  Ok (mk_issuing (Some collection_id) (is_issued st ++ [e])
                        (is_normalized st ++ [normalized_item e authoritative candidate]) (is_qualities st ++ qualities))
            end
        end
  | _ => Ok st
  end.

(** The loop, which stops at eight items. *)
Fixpoint issue_loop (kn : option knowledge) (tenant workspace : string) (allowed : list pyval) (st : issuing)
    (candidates : list pyval) : res gate_error issuing :=
  match candidates with
  | [] => Ok st
  | raw :: candidates' =>
      st' ← issue_candidate kn tenant workspace allowed st raw;
      if 8 <=? Z.of_nat (length (is_normalized st')) then Ok st'
      else issue_loop kn tenant workspace allowed st' candidates'
  end.

(** [max(values or [0.0])]. *)
Definition best_quality (values : list pyfloat) : pyfloat :=
  match values with [] => Fin 0 | q :: qs => fold_left fmax qs q end.

Definition _issue_candidates (kn : option knowledge) (a_query : string) (context : list (string * pyval))
    (candidates : list pyval) : res gate_error (list (list (string * pyval)) * option EvidenceBundle * pyfloat) :=
  match dict_read "tenant_id" context, dict_read "workspace_id" context, dict_read "allowed_collection_ids" context with
  | VStr tenant, VStr workspace, VList (a :: allowed) =>
      st ← issue_loop kn tenant workspace (a :: allowed) nothing_issued candidates;
      match is_selected st, is_issued st with
      | Some collection_id, _ :: _ =>
          scope ← from_evidence (EvidenceScope_new (VStr tenant) (VStr workspace) (VStr collection_id));
          bundle ← from_evidence (build_from_scope scope (VStr a_query) (map Item (is_issued st)));
          Ok (is_normalized st, Some bundle, best_quality (is_qualities st))
      | _, _ => Ok ([], None, Fin 0)
      end
  | _, _, _ => Ok ([], None, Fin 0)
  end.

(** ** The decision *)

Definition gate_policy : DecisionPolicy :=
  mk_policy 1 (lit 50 100) (lit 1 1) false (lit 80 100) (lit 80 100) (lit 80 100) (Fin 0) (lit 80 100) false None
    (Fin 0) 1 [LOW].

Definition _decision_input (kn : option knowledge) (context : list (string * pyval)) (bundle : option EvidenceBundle)
    (count : nat) (quality : pyfloat) (attempt : nat) (metrics : option CitationSupportMetrics) (metrics_present : bool)
    (classification : RequestClassification) (retry_available : bool) : res gate_error DecisionInput :=
  let of_bundle := fun v => match bundle with Some _ => v | None => VNone end in
  structural ← (if metrics_present && match metrics with None => true | Some _ => false end then Ok (Fin 0)
                else from_evidence (_structural_citation_support (gate_validator kn) bundle));
  from_evidence
    (DecisionInput_new bundle (of_bundle (dict_read "tenant_id" context)) (of_bundle (dict_read "workspace_id" context))
       (match bundle with Some b => VStr (b_collection_id b) | None => VNone end)
       (VFloat (clamp quality)) (VInt (Z.of_nat count)) (VFloat structural) metrics (VFloat (lit 1 1))
       (rc_domain_risk classification) (rc_intent classification) gate_policy (VInt (Z.of_nat attempt))
       (VBool retry_available) (VBool true)
       (VBool (rc_allows_answer classification && match kn with Some _ => true | None => false end))
       (VBool (rc_human_review_required classification)) VNone).

(** ** Retrieval *)

(** What one attempt gives: the payload, the issued items and the decision. *)
Record attempted : Type := mk_attempted {
  at_payload : list (string * pyval); at_normalized : list (list (string * pyval)); at_decision : Decision }.

(** The queries sent to the retrieval so far. *)
Definition G : Type -> Type := M (list string) gate_error.

Definition _call {A} (o : outcome A) : res gate_error A := match o with Returns a => Ok a | Raises => Err GateDependency end.

(** [list(context.get(name) or [])]. *)
Definition list_or_empty (name : string) (context : list (string * pyval)) : res gate_error pyval :=
  let v := dict_read name context in
  if py_truthy v then match py_iter v with Some l => Ok (VList l) | None => Err GateTypeError end else Ok (VList []).

Definition candidates_of (payload : list (string * pyval)) : list pyval :=
  match get_or "evidence" (VList []) payload with VList l => l | _ => [] end.

Definition attempt_retrieval (g : gate) (target : nat -> string -> list (string * pyval) -> outcome pyval)
    (a_query : string) (context : list (string * pyval)) (c : RequestClassification) (retry_available : bool)
    (attempt : nat) (asked : string) : G attempted :=
  allowed ← lift (list_or_empty "allowed_collection_ids" context);
  modify (fun asked_before => asked_before ++ [asked]);;
  raw_result ← lift (_call (target attempt asked (dict_set "allowed_collection_ids" allowed context)));
  let payload := _mapping raw_result in
  let kn := option_map (fun k => k (Attempt attempt)) (g_knowledge g) in
  issued ← lift (_issue_candidates kn a_query context (candidates_of payload));
  let '(normalized, bundle, quality) := issued in
  let '(metrics, present) := _citation_support_metrics payload in
  i ← lift (_decision_input kn context bundle (length normalized) quality attempt metrics present c retry_available);
  decision ← lift (from_evidence (decide (gate_validator kn) i));
  mret (mk_attempted payload normalized decision).

Definition action_value (a : DecisionAction) : string :=
  match a with
  | ANSWER => "ANSWER" | RETRIEVE_AGAIN => "RETRIEVE_AGAIN" | ASK_FOR_CLARIFICATION => "ASK_FOR_CLARIFICATION"
  | ABSTAIN => "ABSTAIN" | ESCALATE => "ESCALATE"
  end.

(** The payload handed to the Professor, after the last attempt. *)
Definition gated_payload (c : RequestClassification) (initial : DecisionAction) (a : attempted) : list (string * pyval) :=
  let decision := at_decision a in
  let raw_metadata := match dict_read "metadata" (at_payload a) with VDict m => m | _ => [] end in
  let metadata := dict_update (dict_update raw_metadata (metadata c))
    [("decision_initial_action", VStr (action_value initial));
     ("retrieval_strategy", VStr (if d_retrieval_attempt decision =? 0 then "original" else "policy_topic_terms_v1"));
     ("evidence_collection_mode", VStr "first_valid_single_collection");
     ("semantic_support_status", VStr "NOT_EVALUATED");
     ("decision_action", VStr (action_value (d_action decision))); ("decision_reason", VStr (d_reason_code decision));
     ("decision_attempt", VInt (d_retrieval_attempt decision));
     ("evidence_bundle_id", opt_str (d_evidence_bundle_id decision))] in
  let evidence := if is_action (d_action decision) ANSWER then at_normalized a else [] in
  dict_update (at_payload a)
    [("evidence", VList (map VDict evidence)); ("selected_count", VInt (Z.of_nat (length evidence)));
     ("metadata", VDict metadata)].

(** A retry with another query than the request's. *)
Definition can_retry (a_query : string) (c : RequestClassification) : bool :=
  match rc_retry_query c with Some r => negb (str_eqb (strip r) (strip a_query)) | None => false end.

(** The loop makes a second attempt only when the first decision asks for it. *)
Definition retrieve (g : gate) (a_query : string) (context : list (string * pyval)) (history : pyval)
    : G (list (string * pyval)) :=
  match g_retrieve g with
  | None => raise GateTypeError
  | Some target =>
      c ← lift (from_evidence (classify_request (g_classifier g) (VStr a_query) history));
      let retry_available := can_retry a_query c in
      first ← attempt_retrieval g target a_query context c retry_available 0 a_query;
      let initial := d_action (at_decision first) in
      if is_action initial RETRIEVE_AGAIN then
        second ← attempt_retrieval g target a_query context c retry_available 1
                   (from_option id EmptyString (rc_retry_query c));
        mret (gated_payload c initial second)
      else mret (gated_payload c initial first)
  end.

(** ** Delivery *)

Definition is_dict (v : pyval) : bool := match v with VDict _ => true | _ => false end.
Definition is_string (v : pyval) : bool := match v with VStr _ => true | _ => false end.
Definition opt_dict (o : option (list (string * pyval))) : pyval := match o with Some d => VDict d | None => VNone end.

(** [permission_granted(role=None, permissions=..., required="chat.query",
    authoritative=True)] on a value that must be a list. *)
Definition may_query (permissions : pyval) : bool :=
  match permissions with
  | VList _ => permission_granted VNone permissions "chat.query" true
  | _ => false
  end.

(** The live grants: the request's own context without a revalidator; [None]
    refuses the delivery. *)
Definition current_grants (g : gate) (original : list (string * pyval)) : res gate_error (option (list (string * pyval))) :=
  match g_authorization_revalidator g with
  | None => Ok (Some original)
  | Some revalidate =>
      match list_or_empty "allowed_collection_ids" original, list_or_empty "permissions" original with
      | Ok allowed, Ok permissions =>
          match revalidate (dict_set "permissions" permissions (dict_set "allowed_collection_ids" allowed original)) with
          | Returns (VDict current) =>
              if existsb (fun key => negb (py_eqb (dict_read key current) (dict_read key original)))
                   ["tenant_id"; "workspace_id"; "user_id"] || negb (may_query (dict_read "permissions" current))
              then Ok None else Ok (Some current)
          | _ => Ok None
          end
      | _, _ => Ok None
      end
  end.

(** One item of the snapshot still is what the prompt was built from. *)
Definition item_current (kn : knowledge) (original : list (string * pyval)) (allowed refreshed : list pyval)
    (item : list (string * pyval)) : res gate_error bool :=
  let collection_id := dict_read "collection_id" item in
  if negb (grants allowed collection_id) || negb (grants refreshed collection_id) then Ok false
  else
    scope ← from_evidence (EvidenceScope_new (dict_read "tenant_id" original) (dict_read "workspace_id" original) collection_id);
    match resolve kn (C_mapping item) scope with
    | None => Ok false
    | Some authoritative =>
        fresh ← from_evidence (issue (gate_validator (Some kn)) (C_mapping item) (Scope_typed scope) VNone (Some authoritative));
        Ok (is_str (dict_read "evidence_id" item) (evidence_id fresh)
            && py_truthy (dict_read "document_checksum" item)
            && py_eqb (dict_read "document_checksum" item) (dict_read "document_checksum" authoritative)
            && py_eqb (get_or "title" (VStr EmptyString) item) (get_or "title" (VStr EmptyString) authoritative))
    end.

Fixpoint all_current (kn : knowledge) (original : list (string * pyval)) (allowed refreshed : list pyval)
    (items : list (list (string * pyval))) : res gate_error bool :=
  match items with
  | [] => Ok true
  | item :: items' =>
      b ← item_current kn original allowed refreshed item;
      if b : bool then all_current kn original allowed refreshed items' else Ok false
  end.

Definition mappings_of (l : list pyval) : list (list (string * pyval)) :=
  flat_map (fun v => match v with VDict d => [d] | _ => [] end) l.

(** The identifiers are strings, distinct, and some of them are cited. *)
Definition citations_known (ids cited : list pyval) : bool :=
  forallb is_string (ids ++ cited) && (py_distinct ids =? length ids)%nat
  && negb (length cited =? 0)%nat && forallb (fun c => existsb (py_eqb c) ids) cited.

Definition validate_publication (g : gate) (original : list (string * pyval)) (evidence cited : list pyval)
    : res gate_error bool :=
  match g_knowledge g with
  | None => Ok false
  | Some kn =>
      if negb ((1 <=? length evidence)%nat && (length evidence <=? 8)%nat)
         || negb (may_query (dict_read "permissions" original)) then Ok false
      else
        live ← current_grants g original;
        match live with
        | None => Ok false
        | Some current =>
            match dict_read "allowed_collection_ids" original, dict_read "allowed_collection_ids" current with
            | VList allowed, VList refreshed =>
                let items := mappings_of evidence in
                let collections := map (dict_read "collection_id") items in
                if negb (forallb is_string (allowed ++ refreshed)) || negb (forallb is_dict evidence)
                   || negb (citations_known (map (dict_read "evidence_id") items) cited) then Ok false
                else
                  raise_if (negb (forallb py_hashable collections)) GateTypeError;;
                  if negb (py_distinct collections =? 1)%nat then Ok false
                  else res_catch (all_current (kn Publication) original allowed refreshed items) (fun _ => Ok false)
            | _, _ => Ok false
            end
        end
  end.

(** ** Cached answers *)

(** One citation of a cached answer, as an item of a snapshot; [None] refuses
    the answer. *)
Definition resolve_citation (kn : knowledge) (context : list (string * pyval)) (v : pyval)
    : res gate_error (option (list (string * pyval))) :=
  match v with
  | VDict citation =>
      match dict_read "collection_id" citation with
      | VStr collection_id =>
          if is_empty collection_id then Ok None
          else
            scope ← from_evidence (EvidenceScope_new (dict_read "tenant_id" context) (dict_read "workspace_id" context)
                                     (VStr collection_id));
            match resolve kn (C_mapping citation) scope with
            | None => Ok None
            | Some authoritative =>
                let differs := fun name => negb (is_none (dict_read name citation))
                                           && negb (py_eqb (dict_read name citation) (dict_read name authoritative)) in
                if differs "checksum" || differs "title" then Ok None
                else
                  issued ← from_evidence (issue (gate_validator (Some kn)) (C_mapping citation) (Scope_typed scope) VNone
                                            (Some authoritative));
                  Ok (Some [("evidence_id", VStr (evidence_id issued)); ("document_id", VStr (document_id issued));
                            ("chunk_id", VStr (chunk_id issued)); ("collection_id", VStr (Evidence.collection_id issued));
                            ("document_checksum", dict_read "document_checksum" authoritative);
                            ("title", get_or "title" (VStr EmptyString) authoritative)])
            end
      | _ => Ok None
      end
  | _ => Ok None
  end.

Fixpoint resolve_snapshot (kn : knowledge) (context : list (string * pyval)) (citations : list pyval)
    : res gate_error (option (list (list (string * pyval)))) :=
  match citations with
  | [] => Ok (Some [])
  | c :: citations' =>
      item ← resolve_citation kn context c;
      match item with
      | None => Ok None
      | Some item =>
          rest ← resolve_snapshot kn context citations';
          Ok (option_map (cons item) rest)
      end
  end.

Definition validate_cached_response (g : gate) (context response : list (string * pyval)) : res gate_error bool :=
  match dict_read "citations" response with
  | VList [] =>
      Ok (negb match dict_read "metadata" response with
               | VDict m => is_str (dict_read "evidence_status" m) "APPROVED_EVIDENCE"
               | _ => false
               end)
  | VList citations =>
      match g_knowledge g with
      | None => Ok false
      | Some kn =>
          if negb (length citations <=? 8)%nat then Ok false
          else match resolve_snapshot (kn Publication) context citations with
          | Ok (Some items) =>
              validate_publication g context (map VDict items) (map (dict_read "evidence_id") items)
          | _ => Ok false
          end
      end
  | _ => Ok false
  end.
