(* ===== verification/ChatBackend.v ===== *)
(** * The chat backend (apps/api, services/professor_backend.py)

    [ProfessorChatBackend] composes the gate, the provider adapter, the lease
    adapter and the Professor orchestrator, and translates the outcome for the
    chat service.  The provider client and the lease client are arguments;
    [str_of] is [str] on objects that are not strings. *)

From Stdlib Require Import Ascii String.
From stdpp Require Import strings list.
From S2P Require Import Prelude PyFloat PyStr PyVal PyNumber StateError Evidence.
From S2P Require Import ProfessorModels Professor Orchestrator RequestPolicy DecisionGate.

Local Open Scope string_scope.
Local Open Scope Z_scope.
Local Open Scope list_scope.

(** ** Failures *)

Definition _ALLOWED : list string :=
  ["lease_unavailable"; "lease_lost"; "retrieval_failed"; "provider_failed"; "citation_invalid"].

(** [ProfessorBackendError(stage)], or what the Professor or a constructor raised. *)
Inductive backend_error : Type := ProfessorBackendError (stage : string) | BackendRaised (e : prof_error).

Definition ProfessorBackendError_new (stage : string) : backend_error :=
  ProfessorBackendError (if str_in stage _ALLOWED then stage else "provider_failed").

Definition from_professor {A} (m : res prof_error A) : res backend_error A := res_catch m (fun e => Err (BackendRaised e)).

(** ** The provider adapter *)

Record provider : Type := {
  pv_chat_completion : option (list ProviderMessage -> string -> outcome (foreign ChatCompletionResult));
  pv_chat_completion_stream : option (list ProviderMessage -> string -> outcome (list (foreign ChatCompletionChunk) * bool)) }.

Definition correlation_of (conversation_id : string) : string := cut 128 ("chat-" +:+ conversation_id).

Definition complete_call (p : provider) (messages : list ProviderMessage) (conversation_id : string)
    : outcome (foreign ChatCompletionResult) :=
  match pv_chat_completion p with
  | Some chat_completion => chat_completion messages (correlation_of conversation_id)
  | None => Raises
  end.

Definition ChatCompletionChunk_new (model delta : string) (tool_calls : list ProviderToolCallDelta)
    (finish_reason : option finish) (correlation_id : string) (usage : option ProviderUsage)
    : res prof_error ChatCompletionChunk :=
  invalid_unless (length_in 1 256 model && (slen delta <=? 1000000)
                  && (Z.of_nat (length tool_calls) <=? 32) && length_in 1 128 correlation_id) ProfValidationError;;
  Ok (mk_chunk model delta tool_calls finish_reason correlation_id usage).

(** [ProviderToolCallDelta(index=index, ...)] for each call. *)
Definition tool_deltas (calls : list ProviderToolCall) : res prof_error (list ProviderToolCallDelta) :=
  res_mapM (fun i => invalid_unless (i <=? 31) ProfValidationError;; Ok (mk_tool_delta i))
    (map Z.of_nat (seq 0 (length calls))).

(** A whole completion as the single chunk of a stream. *)
Definition single_chunk (r : foreign ChatCompletionResult) : list (foreign ChatCompletionChunk) * bool :=
  match r with
  | inr _ => ([], false)      (* not an object with these attributes *)
  | inl c =>
      match (deltas ← tool_deltas (cc_tool_calls c);
             ChatCompletionChunk_new (cc_model c) (cc_content c) deltas (Some (cc_finish_reason c))
               (cc_correlation_id c) (cc_usage c)) with
      | Ok chunk => ([inl chunk], true)
      | Err _ => ([], false)
      end
  end.

Section backend.
Context (tanh : pyfloat -> pyfloat).
Context (validate_result : pyval -> option ChatCompletionResult) (validate_chunk : pyval -> option ChatCompletionChunk).
Context (str_of : pyval -> string).

(** The chunks of the provider, each validated; a chunk that is not one ends
    the stream with an exception. *)
Fixpoint typed_chunks (chunks : list (foreign ChatCompletionChunk)) (ends : bool)
    : list (foreign ChatCompletionChunk) * bool :=
  match chunks with
  | [] => ([], ends)
  | c :: chunks' =>
      match validated validate_chunk c with
      | Ok chunk => let '(l, e) := typed_chunks chunks' ends in (inl chunk :: l, e)
      | Err _ => ([], false)
      end
  end.

(** [ProviderChatAdapter.stream]: the iterator itself is always returned. *)
Definition stream_call (p : provider) (messages : list ProviderMessage) (conversation_id : string)
    : outcome (list (foreign ChatCompletionChunk) * bool) :=
  Returns
    match pv_chat_completion_stream p with
    | Some target =>
        match target messages (correlation_of conversation_id) with
        | Returns (chunks, ends) => typed_chunks chunks ends
        | Raises => ([], false)
        end
    | None =>
        match complete_call p messages conversation_id with
        | Returns r => single_chunk r
        | Raises => ([], false)
        end
    end.

(** ** The lease adapter *)

Record lease_client : Type := {
  lc_acquire_owned : string -> string -> Z -> outcome bool }.

(** [OwnedLeaseAdapter]: the owner-bound port, with a [renew]. *)
Definition owned_lease (client : lease_client) : lease_manager := {|
  lm_low_level := true; lm_renews := true;
  lm_acquire := fun key owner ttl_ms =>
    match lc_acquire_owned client key owner ttl_ms with
    | Returns acquired => Returns (VDict [("acquired", VBool acquired)])
    | Raises => Raises
    end |}.

(** ** Composition *)

Definition model_dump (cx : RetrievalContext) : list (string * pyval) :=
  [("contract_version", VStr (cx_contract_version cx)); ("user_id", opt_str (cx_user_id cx));
   ("workspace_id", VStr (cx_workspace_id cx)); ("tenant_id", VStr (cx_tenant_id cx));
   ("allowed_collection_ids", VList (map VStr (cx_allowed_collection_ids cx)));
   ("permissions", VList (map VStr (cx_permissions cx)))].

Record backend : Type := {
  bk_gate : gate; bk_provider : provider; bk_lease : option lease_client; bk_limits : ProfessorLimits }.

Definition outcome_of {E A B} (f : A -> B) (m : res E A) : outcome B :=
  match m with Ok a => Returns (f a) | Err _ => Raises end.

(** What [ProfessorOrchestrator] is composed with. *)
Definition professor_deps (bk : backend) : dependencies := {|
  d_retrieve := Some (fun a_query cx history =>
    outcome_of VDict (eval (retrieve (bk_gate bk) a_query (model_dump cx) (VList (map VStr history))) []));
  d_complete := Some (complete_call (bk_provider bk));
  d_stream := Some (stream_call (bk_provider bk));
  d_validator := Some (fun cx evidence cited =>
    outcome_of VBool (validate_publication (bk_gate bk) (model_dump cx) evidence cited));
  d_authorization_revalidator := match g_authorization_revalidator (bk_gate bk) with Some _ => true | None => false end;
  d_lease := option_map owned_lease (bk_lease bk);
  d_require_publication_revalidation := true |}.

Definition readiness_check (bk : backend) : bool :=
  match bk_lease bk, pv_chat_completion (bk_provider bk) with Some _, Some _ => true | _, _ => false end.

(** ** Requests *)

(** [list(l)[-50:]]. *)
Definition last_50 {A} (l : list A) : list A := skipn (length l - 50) l.

(** [str(item.get("content") or "")[:2_000]]. *)
Definition content_text (v : pyval) : string :=
  cut 2000 (match v with VStr s => s | _ => if py_truthy v then str_of v else EmptyString end).

(** One message of the history; [None] is skipped. *)
Definition prior_message (item : pyval) : res backend_error (option ProviderMessage) :=
  match item with
  | VDict d =>
      let role := dict_read "role" d in
      raise_if (negb (py_hashable role)) (BackendRaised ProfTypeError);;
      let made := fun r => match ProviderMessage_new r (content_text (dict_read "content" d)) with
                           | Ok m => Some m | Err _ => None end in
      Ok (if is_str role "user" then made User else if is_str role "assistant" then made Assistant else None)
  | _ => Ok None
  end.

Definition prior_messages (history : list pyval) : res backend_error (list ProviderMessage) :=
  ms ← res_mapM prior_message (last_50 history);
  Ok (flat_map (fun m => match m with Some m => [m] | None => [] end) ms).

(** A list of strings of a strict model. *)
Definition str_list (v : option pyval) : res prof_error (list string) :=
  match v with
  | None => Ok []
  | Some (VList l) => res_mapM (fun x => match x with VStr s => Ok s | _ => Err ProfValidationError end) l
  | Some _ => Err ProfValidationError
  end.

Definition str_field (v : option pyval) : res prof_error string :=
  match v with Some (VStr s) => Ok s | _ => Err ProfValidationError end.

(** [RetrievalContext.model_validate]. *)
Definition RetrievalContext_validate (d : list (string * pyval)) : res prof_error RetrievalContext :=
  invalid_unless (no_extra ["contract_version"; "user_id"; "workspace_id"; "tenant_id"; "allowed_collection_ids"; "permissions"] d)
    ProfValidationError;;
  version ← match dict_get "contract_version" d with None => Ok "retrieval-context-v1" | v => str_field v end;
  user ← match dict_get "user_id" d with
         | None | Some VNone => Ok None
         | v => s ← str_field v; Ok (Some s)
         end;
  workspace ← str_field (dict_get "workspace_id" d);
  tenant ← str_field (dict_get "tenant_id" d);
  allowed ← str_list (dict_get "allowed_collection_ids" d);
  permissions ← str_list (dict_get "permissions" d);
  Ok (mk_context version user workspace tenant allowed permissions).

Definition ProfessorRequest_new (a_query conversation_id : string) (cx : RetrievalContext)
    (history : list ProviderMessage) : res prof_error ProfessorRequest :=
  invalid_unless (length_in 1 20000 a_query && length_in 1 128 conversation_id
                  && (Z.of_nat (length history) <=? 100)) ProfValidationError;;
  Ok (mk_request "professor-contract-v1" a_query conversation_id cx "grounded" history).

Definition build_request (message : string) (context : list (string * pyval)) (conversation_id : string)
    (history : list pyval) : res backend_error ProfessorRequest :=
  prior ← prior_messages history;
  cx ← from_professor (RetrievalContext_validate context);
  from_professor (ProfessorRequest_new message conversation_id cx prior).

(** ** Results *)

Definition citation_dump (c : Citation) : pyval :=
  VDict [("document_id", VStr (ci_document_id c)); ("chunk_id", VStr (ci_chunk_id c)); ("title", opt_str (ci_title c));
         ("collection_id", VStr (ci_collection_id c)); ("page_start", opt_int (ci_page_start c));
         ("page_end", opt_int (ci_page_end c)); ("checksum", opt_str (ci_checksum c))].

Definition status_value (s : EvidenceStatus) : string :=
  match s with
  | NO_EVIDENCE => "NO_EVIDENCE" | WEAK_EVIDENCE => "WEAK_EVIDENCE" | APPROVED_EVIDENCE => "APPROVED_EVIDENCE"
  | CITATION_INVALID => "CITATION_INVALID" | GENERATION_FAILED => "GENERATION_FAILED"
  end.

Definition result_dict (r : ProfessorResponse) : list (string * pyval) :=
  [("answer", VStr (rs_answer r)); ("citations", VList (map citation_dump (rs_citations r)));
   ("metadata", VDict (dict_update [("backend", VStr "professor");
                                    ("evidence_status", VStr (status_value (rs_evidence_status r)))] (rs_metadata r)))].

(** The failure stage of a failed response. *)
Definition failure_stage (m : Metadata) : string :=
  match get_or "failure_stage" (VStr "provider_failed") m with VStr s => s | v => str_of v end.

(** A failure becomes an error, anything else the result. *)
Definition translate (r : ProfessorResponse) : res backend_error (list (string * pyval)) :=
  match rs_evidence_status r with
  | GENERATION_FAILED => Err (ProfessorBackendError_new (failure_stage (rs_metadata r)))
  | CITATION_INVALID => Err (ProfessorBackendError_new "citation_invalid")
  | _ => Ok (result_dict r)
  end.

Definition generate (bk : backend) (lease_owner : string) (time : schedule) (message : string)
    (context : list (string * pyval)) (conversation_id : string) (history : list pyval)
    : RequestBudget * res backend_error (list (string * pyval)) :=
  match build_request message context conversation_id history with
  | Err e => (new_budget, Err e)
  | Ok request =>
      let '(b, r) := run tanh validate_result (bk_limits bk) (professor_deps bk) lease_owner time request new_budget in
      (b, response ← from_professor r; translate response)
  end.

(** ** Streams *)

Inductive stream_event : Type := SE_delta (text : string) | SE_final (result : list (string * pyval)).

(** The events for the caller, and whether they end with an exception. *)
Fixpoint translate_events (events : list event) (ending : res backend_error unit)
    : list stream_event * res backend_error unit :=
  match events with
  | [] => ([], ending)
  | Delta text :: events' => let '(l, e) := translate_events events' ending in (SE_delta text :: l, e)
  | Final r :: events' =>
      match translate r with
      | Ok result => let '(l, e) := translate_events events' ending in (SE_final result :: l, e)
      | Err e => ([], Err e)
      end
  end.

Definition generate_stream (bk : backend) (lease_owner : string) (time : schedule) (message : string)
    (context : list (string * pyval)) (conversation_id : string) (history : list pyval)
    : RequestBudget * (list stream_event * res backend_error unit) :=
  match build_request message context conversation_id history with
  | Err e => (new_budget, ([], Err e))
  | Ok request =>
      let '(b, r) := stream tanh validate_result validate_chunk (bk_limits bk) (professor_deps bk) lease_owner time
                       request new_budget in
      (b, translate_events (b_events b) (from_professor r))
  end.

(** [validate_cached_response]. *)
Definition cached_response_valid (bk : backend) : list (string * pyval) -> list (string * pyval) -> res gate_error bool :=
  validate_cached_response (bk_gate bk).
End backend.
