(* ===== verification/GateLemmas.v ===== *)
(** * Lemmas on the request policy and on the evidence gate

    The classification of a request, the issuing of the evidence bundle and the retrieval of
    the gate. *)

From Stdlib Require Import Ascii String.
From stdpp Require Import strings list.
From S2P Require Import Prelude PyFloat PyStr Regex PyVal Evidence EvidenceValidator EvidenceLemmas Decision.
From S2P Require Import DecisionProperties StateError KnowledgeModels PyNumber ProfessorModels Orchestrator.
From S2P Require Import RequestPolicy DecisionGate.

Local Open Scope string_scope.
Local Open Scope Z_scope.
Local Open Scope list_scope.

(** ** Lemmas on the request policy

    The classification is total, answerable requests are those of the
    allowlist, and the allowlist is free of the screened vocabularies. *)

(** A sentence some rule of the policy reviews. *)
Definition allowlisted (text : string) : Prop := exists rule, In rule _INFORMATIONAL_RULES /\ In text (rule_questions rule).

Definition all_questions : list string := flat_map rule_questions _INFORMATIONAL_RULES.

Lemma allowlisted_In text : allowlisted text <-> In text all_questions.
Proof. unfold allowlisted, all_questions. rewrite in_flat_map. tauto. Qed.

(** What the reviewed sentences are not. *)
Lemma questions_clear text : allowlisted text ->
  _INJECTION text = false /\ _CLINICAL text = false /\ str_in text _AMBIGUOUS = false /\ str_in text _UNSUPPORTED = false.
Proof.
  rewrite allowlisted_In. revert text. apply List.Forall_forall. apply List.Forall_forall.
  assert (forallb (fun t => negb (_INJECTION t) && negb (_CLINICAL t) && negb (str_in t _AMBIGUOUS) && negb (str_in t _UNSUPPORTED))
    all_questions = true) as H by (vm_compute; reflexivity).
  rewrite forallb_forall in H. intros t Ht. specialize (H t Ht). rewrite !andb_true_iff, !negb_true_iff in H. tauto.
Qed.

(** What a constructor that succeeded holds. *)
Lemma classification_new_Ok version reason risk intent allows review retry c :
  RequestClassification_new version reason risk intent allows review retry = Ok c ->
  c = mk_classification version reason risk intent allows review retry
  /\ (allows = true -> risk = LOW /\ clarity intent = CLEAR).
Proof.
  unfold RequestClassification_new. intros H. apply bind_Ok in H as (u1 & _ & H). apply bind_Ok in H as (u2 & _ & H).
  apply bind_Ok in H as (u3 & Ha & H). apply bind_Ok in H as (u4 & _ & H). apply Ok_inj in H as ->. split; [reflexivity|].
  intros ->. apply invalid_if_Ok in Ha. cbn in Ha. apply orb_false_iff in Ha as [H1 H2].
  apply negb_false_iff, bool_decide_eq_true in H1, H2. auto.
Qed.

(** A constructor that succeeds. *)
Lemma classification_new_total version reason risk intent allows review retry :
  _VERSION version = true -> _CODE reason = true -> (allows = true -> risk = LOW /\ clarity intent = CLEAR) ->
  (forall q, retry = Some q -> 1 <= slen q <= 512) ->
  RequestClassification_new version reason risk intent allows review retry
  = Ok (mk_classification version reason risk intent allows review retry).
Proof.
  intros Hv Hr Ha Hq. unfold RequestClassification_new. rewrite Hv, Hr. cbn [negb].
  rewrite (invalid_if_false (allows && _)).
  2: { destruct allows; [|reflexivity]. destruct Ha as [-> ->]; reflexivity. }
  cbn [mbind res_mbind invalid_if raise_if]. rewrite invalid_if_false; [reflexivity|].
  destruct retry as [q|]; [|reflexivity]. specialize (Hq q eq_refl). lia.
Qed.

(** The decision on the text alone. *)
Lemma classify_text_Ok text : exists c, classify_text text = Ok c
  /\ rc_policy_version c = REQUEST_POLICY_VERSION /\ rc_human_review_required c = false
  /\ rc_reason_code c <> "clinical_review_required" /\ _CODE (rc_reason_code c) = true
  /\ (rc_allows_answer c = true <->
      str_in text _AMBIGUOUS = false /\ str_in text _UNSUPPORTED = false /\ allowlisted text)
  /\ (rc_allows_answer c = true -> rc_domain_risk c = LOW /\ clarity (rc_intent c) = CLEAR
      /\ exists q, rc_retry_query c = Some q /\ 1 <= slen q <= 512).
Proof.
  unfold classify_text.
  destruct (str_in text _AMBIGUOUS) eqn:E1;
    [eexists; split; [reflexivity|]; cbn; split_and!; try reflexivity; try discriminate; split; [discriminate | intuition discriminate]|].
  destruct (str_in text _UNSUPPORTED) eqn:E2;
    [eexists; split; [reflexivity|]; cbn; split_and!; try reflexivity; try discriminate; split; [discriminate | intuition discriminate]|].
  destruct (List.find _ _) as [rule|] eqn:E3.
  - apply find_some in E3 as [Hin Ht]. apply str_in_In in Ht.
    assert (allowlisted text) as Hal by (exists rule; auto).
    assert (In rule _INFORMATIONAL_RULES) as Hin' by exact Hin. unfold _INFORMATIONAL_RULES in Hin. clear Ht E1 E2.
    destruct Hin as [<-|[<-|[<-|[<-|[]]]]]; eexists; (split; [reflexivity|]); cbn [rc_policy_version rc_human_review_required rc_reason_code rc_allows_answer rc_domain_risk rc_intent rc_retry_query clarity];
      (split_and!; [reflexivity | reflexivity | discriminate | reflexivity | tauto |]);
      intros _; (split_and!; [reflexivity | reflexivity |]); eexists; (split; [reflexivity|]); vm_compute; split; discriminate.
  - eexists. split; [reflexivity|]. cbn. split_and!; try reflexivity; try discriminate. split; [discriminate|].
    intros (_ & _ & rule & Hin & Ht). pose proof (find_none _ _ E3 rule Hin) as Hn. cbn in Hn.
    apply str_in_false in Hn. contradiction.
Qed.

(** The screening stops at the first item that is not harmless. *)
Lemma screen_None items : screen items = None <-> Forall (fun i => _INJECTION i = false /\ _CLINICAL i = false) items.
Proof.
  induction items as [|i items IH]; cbn [screen]; [split; [constructor | reflexivity]|].
  rewrite Forall_cons. destruct (_INJECTION i); [split; [discriminate | intuition discriminate]|].
  destruct (_CLINICAL i); [split; [discriminate | intuition discriminate]|]. rewrite IH. tauto.
Qed.

Lemma screen_clinical before item after :
  Forall (fun i => _INJECTION i = false /\ _CLINICAL i = false) before -> _INJECTION item = false -> _CLINICAL item = true ->
  screen (before ++ item :: after) = Some (unclassified REQUEST_POLICY_VERSION "clinical_review_required" HIGH).
Proof.
  intros Hb Hi Hc. induction Hb as [|b before [H1 H2] _ IH]; cbn [screen app]; [now rewrite Hi, Hc|]. now rewrite H1, H2.
Qed.

Lemma screen_Some items r : screen items = Some r ->
  r = unclassified REQUEST_POLICY_VERSION "instruction_override_attempt" HIGH
  \/ r = unclassified REQUEST_POLICY_VERSION "clinical_review_required" HIGH.
Proof.
  induction items as [|i items IH]; cbn [screen]; [discriminate|].
  destruct (_INJECTION i); [intros [= <-]; auto|]. destruct (_CLINICAL i); [intros [= <-]; auto | exact IH].
Qed.

(** A classification of the clinical policy without permission to answer. *)
Definition denied (c : RequestClassification) : Prop := rc_allows_answer c = false.

(** The clinical policy always classifies, and permits exactly the allowlist
    without a history. *)
Lemma clinical_classify_spec query history : exists c, clinical_classify query history = Ok c
  /\ (rc_allows_answer c = true <-> history = VList [] /\ exists text, _normalize query = Some text /\ allowlisted text)
  /\ (rc_allows_answer c = true -> rc_domain_risk c = LOW /\ clarity (rc_intent c) = CLEAR /\ rc_human_review_required c = false).
Proof.
  assert (forall reason risk (P : Prop), _CODE reason = true -> ~ P -> exists c,
    (result ← unclassified REQUEST_POLICY_VERSION reason risk;
     if str_eqb (rc_reason_code result) "clinical_review_required" then
       RequestClassification_new CLINICAL_REQUEST_POLICY_VERSION "clinical_domain_review_required" HIGH (rc_intent result) false true (rc_retry_query result)
     else RequestClassification_new CLINICAL_REQUEST_POLICY_VERSION (rc_reason_code result) (rc_domain_risk result)
            (rc_intent result) (rc_allows_answer result) (rc_human_review_required result) (rc_retry_query result)) = Ok c
    /\ (rc_allows_answer c = true <-> P)
    /\ (rc_allows_answer c = true -> rc_domain_risk c = LOW /\ clarity (rc_intent c) = CLEAR /\ rc_human_review_required c = false)) as Hno.
  { intros reason risk P Hr Hn. unfold unclassified.
    rewrite classification_new_total by (reflexivity || discriminate || assumption). cbn [mbind res_mbind rc_reason_code rc_intent
      rc_retry_query rc_domain_risk rc_allows_answer rc_human_review_required].
    destruct (str_eqb reason _); rewrite classification_new_total by (reflexivity || discriminate || assumption);
      (eexists; split; [reflexivity|]); cbn; (split; [split; [discriminate | tauto] | discriminate]). }
  unfold clinical_classify, classify. cbn [str_eqb negb]. rewrite (proj2 (str_eqb_eq _ _) eq_refl). cbn [negb].
  destruct (_normalize query) as [text|]; [|apply Hno; [reflexivity | naive_solver]].
  destruct history as [| | | | |items|]; try (apply Hno; [reflexivity | naive_solver]).
  destruct (50 <? _) eqn:El; [apply Hno; [reflexivity|]; intros [[= ->] _]; discriminate|].
  destruct (mapM _normalize items) as [prior|] eqn:Em; [|apply Hno; [reflexivity|]; intros [[= ->] _]; discriminate].
  destruct (screen (text :: prior)) as [r|] eqn:Es.
  - assert (~ (VList items = VList [] /\ exists t, Some text = Some t /\ allowlisted t)) as Hn.
    { intros ([= ->] & t & [= <-] & Hal). injection Em as <-. apply questions_clear in Hal as (H1 & H2 & _).
      assert (screen [text] = None) as Hs by (apply screen_None; repeat constructor; auto). congruence. }
    apply screen_Some in Es as [->| ->]; apply Hno; auto.
  - destruct prior as [|p prior]; [|apply Hno; [reflexivity|]; intros [[= ->] _]; discriminate].
    destruct items as [|i items]; [|cbn in Em; apply bind_Some in Em as (? & _ & Em); apply bind_Some in Em as (? & _ & [=])].
    destruct (classify_text_Ok text) as (c & Hc & Hv & Hh & Hr & Hcode & Ha & Hl). rewrite Hc. cbn [mbind res_mbind].
    destruct (str_eqb _ _) eqn:E; [apply str_eqb_eq in E; contradiction|].
    assert (rc_allows_answer c = true <-> VList [] = VList [] /\ exists t, Some text = Some t /\ allowlisted t) as Ha'.
    { rewrite Ha. split; [intros (_ & _ & H); eauto|]. intros (_ & t & [= <-] & H).
      pose proof (questions_clear _ H) as (_ & _ & H1 & H2). auto. }
    destruct (rc_allows_answer c) eqn:Eal.
    + destruct (Hl eq_refl) as (H1 & H2 & q & Hq & Hql).
      rewrite classification_new_total; [|reflexivity | exact Hcode | auto | intros q' Hq'; rewrite Hq in Hq'; now injection Hq' as <-].
      eexists. split; [reflexivity|]. cbn. split; [exact Ha' | auto].
    + clear Hl. destruct (rc_retry_query c) as [q|] eqn:Hq.
      * revert Hq Hc. unfold classify_text. destruct (str_in text _AMBIGUOUS); [intros Hq [= <-]; discriminate|].
        destruct (str_in text _UNSUPPORTED); [intros Hq [= <-]; discriminate|].
        destruct (List.find _ _) as [rule|]; [|intros Hq [= <-]; discriminate].
        intros Hq Hc. apply classification_new_Ok in Hc as [-> _]. discriminate.
      * rewrite classification_new_total by (reflexivity || discriminate || assumption). eexists. split; [reflexivity|]. cbn.
        split; [exact Ha' | discriminate].
Qed.

Lemma classify_request_Ok c query history : exists r, classify_request c query history = Ok r.
Proof.
  unfold classify_request. destruct c as [f|]; [|eexists; reflexivity].
  destruct (f query history) as [[r|]|]; eexists; reflexivity.
Qed.

Lemma clinical_policy_spec query history : exists c, classify_request (Some clinical_policy) query history = Ok c
  /\ (rc_allows_answer c = true <-> history = VList [] /\ exists text, _normalize query = Some text /\ allowlisted text)
  /\ (rc_allows_answer c = true -> rc_domain_risk c = LOW /\ clarity (rc_intent c) = CLEAR /\ rc_human_review_required c = false).
Proof.
  destruct (clinical_classify_spec query history) as (c & Hc & H1 & H2). exists c.
  unfold classify_request, clinical_policy. rewrite Hc. auto.
Qed.

(** ** Sample requests *)

Definition summary (m : eres RequestClassification) : option (string * DomainRisk * bool * bool) :=
  match m with
  | Ok c => Some (rc_reason_code c, rc_domain_risk c, rc_allows_answer c, rc_human_review_required c)
  | Err _ => None
  end.

Example classify_ex1 :
  summary (clinical_classify (VStr ("  Como  fa" +:+ one 231 +:+ "o UPLOAD de um documento? ")) (VList []))
  = Some ("nonclinical_information_allowlisted", LOW, true, false).
Proof. vm_compute. reflexivity. Qed.
Example classify_ex2 :
  map (fun q => summary (clinical_classify (VStr q) (VList [])))
    ["how do i upload a document? what dose"; "dose"; "dosed"; "overdose"; "5 mg / kg"; "how do i upload a document??";
     "Risk : LOW"; "system  message"; "cats"; "catsup"]
  = [Some ("clinical_domain_review_required", HIGH, false, true); Some ("clinical_domain_review_required", HIGH, false, true);
     Some ("clinical_domain_review_required", HIGH, false, true); Some ("request_unrecognized", risk_UNKNOWN, false, false);
     Some ("clinical_domain_review_required", HIGH, false, true); Some ("request_unrecognized", risk_UNKNOWN, false, false);
     Some ("instruction_override_attempt", HIGH, false, false); Some ("instruction_override_attempt", HIGH, false, false);
     Some ("clinical_domain_review_required", HIGH, false, true); Some ("request_unrecognized", risk_UNKNOWN, false, false)].
Proof. vm_compute. reflexivity. Qed.

(** ** Lemmas on the evidence gate

    What an issued item says about the knowledge it was issued from, the
    invariant of the loop over the candidates, and the payload of a retrieval. *)

Lemma from_evidence_Ok {A} (m : eres A) a : from_evidence m = Ok a <-> m = Ok a.
Proof. unfold from_evidence. destruct m; cbn; split; congruence. Qed.

(** ** Sources *)

(** The knowledge holds [ch] for the published document [d], in an active
    collection of the scope [s]. *)
Record held (kn : knowledge) (s : EvidenceScope) (d : Document) (ch : Chunk) : Prop := {
  hd_document : kn_get_document kn (d_document_id d) (s_tenant_id s) (s_workspace_id s) = Returns (Some d);
  hd_published : d_status d = "published";
  hd_scope : d_tenant_id d = s_tenant_id s /\ d_workspace_id d = s_workspace_id s /\ d_collection_id d = s_collection_id s;
  hd_collection : exists c, kn_get_collection kn (s_workspace_id s) (s_collection_id s) (s_tenant_id s) = Returns (Some c)
    /\ co_status c = "active" /\ co_tenant_id c = s_tenant_id s /\ co_workspace_id c = s_workspace_id s
    /\ co_collection_id c = s_collection_id s;
  hd_chunk : exists chunks, kn_get_chunks kn (d_document_id d) (if kn_scoped_chunks kn then Some (s_tenant_id s, s_workspace_id s) else None)
    = Returns chunks /\ In ch chunks /\ ch_document_id ch = d_document_id d /\ ch_tenant_id ch = s_tenant_id s }.

(** The evidence is the text and provenance of a chunk the knowledge holds. *)
Record sourced (kn : knowledge) (s : EvidenceScope) (e : Evidence) (d : Document) (ch : Chunk) : Prop := {
  so_held : held kn s d ch;
  so_document : document_id e = strip (d_document_id d);
  so_version : document_version e = strip (d_document_version d);
  so_chunk : chunk_id e = strip (ch_chunk_id ch);
  so_checksum : checksum e = strip (str_or (ch_checksum ch) (d_content_checksum d));
  so_text : text e = strip (ch_text ch);
  so_scope : tenant_id e = s_tenant_id s /\ workspace_id e = s_workspace_id s /\ collection_id e = s_collection_id s;
  so_wf : evidence_wf e }.

Lemma document_in_eq s document d : document_in s document d = true ->
  d_document_id d = document /\ d_tenant_id d = s_tenant_id s /\ d_workspace_id d = s_workspace_id s
  /\ d_collection_id d = s_collection_id s.
Proof. unfold document_in. rewrite !andb_true_iff, !str_eqb_eq. tauto. Qed.

Lemma chunk_is_eq s document chunk ch : chunk_is s document chunk ch = true ->
  ch_chunk_id ch = chunk /\ ch_document_id ch = document /\ ch_tenant_id ch = s_tenant_id s.
Proof. unfold chunk_is. rewrite !andb_true_iff, !str_eqb_eq. tauto. Qed.

(** What [canonical] requires of a document and its chunk. *)
Lemma canonical_held kn s document chunk d ch : canonical kn s document chunk = Some (d, ch) ->
  held kn s d ch /\ d_document_id d = document /\ ch_chunk_id ch = chunk.
Proof.
  unfold canonical. destruct (kn_get_document _ _ _ _) as [[d'|]|] eqn:Ed; try discriminate.
  destruct (negb _ || negb _) eqn:E1; [discriminate|].
  destruct (kn_get_collection _ _ _ _) as [[c|]|] eqn:Ec; try discriminate.
  destruct (negb (collection_open s c)) eqn:E2; [discriminate|].
  destruct (kn_get_chunks _ _ _) as [chunks|] eqn:Ek; try discriminate.
  destruct (List.find _ _) as [ch'|] eqn:E3; [|discriminate]. intros [= -> ->].
  apply find_some in E3 as [Hin E3]. bool_to_prop. apply str_eqb_eq in H0.
  apply chunk_is_eq in E3 as (Hk & Hd & Ht). apply document_in_eq in H as (<- & Hs). unfold collection_open in E2.
  rewrite !andb_true_iff, !str_eqb_eq in E2. destruct E2 as (((T & W) & C) & A).
  split; [|auto]. constructor; eauto 10.
Qed.

(** A resolution is the record of a canonical chunk. *)
Lemma resolve_Some kn raw s rec : resolve kn (C_mapping raw) s = Some rec ->
  exists d ch, held kn s d ch /\ rec = authoritative_record d ch raw
  /\ dict_read "document_id" raw = VStr (d_document_id d) /\ dict_read "chunk_id" raw = VStr (ch_chunk_id ch).
Proof.
  unfold resolve. destruct (dict_read "document_id" raw) as [| | | |doc| |]; try discriminate.
  destruct (dict_read "chunk_id" raw) as [| | | |chu| |]; try discriminate.
  destruct (_ || _); [discriminate|]. destruct (canonical kn s doc chu) as [[d ch]|] eqn:E; [|discriminate].
  intros [= <-]. apply canonical_held in E as (Hh & <- & <-). exists d, ch. auto.
Qed.

Lemma record_reads d ch raw : let r := authoritative_record d ch raw in
  _candidate_value r ["document_id"] VNone = VStr (d_document_id d)
  /\ _candidate_value r ["document_version"; "version"] VNone = VStr (d_document_version d)
  /\ _candidate_value r ["chunk_id"] VNone = VStr (ch_chunk_id ch)
  /\ _candidate_value r ["checksum"; "content_checksum"] VNone = VStr (str_or (ch_checksum ch) (d_content_checksum d))
  /\ _candidate_value r ["text"; "excerpt"] VNone = VStr (ch_text ch).
Proof. cbv zeta. repeat split; reflexivity. Qed.

(** Issuing from a resolved record. *)
Lemma issue_sourced self kn raw s ver rec e : resolve kn (C_mapping raw) s = Some rec ->
  issue self (C_mapping raw) (Scope_typed s) VNone (Some rec) = Ok e -> scope_wf s -> ver = VNone ->
  exists d ch, sourced kn s e d ch /\ rec = authoritative_record d ch raw.
Proof.
  intros Hr Hi Hw ->. apply resolve_Some in Hr as (d & ch & Hc & -> & _). exists d, ch. split; [|reflexivity].
  pose proof (issue_wf _ _ _ _ _ _ _ Hi eq_refl Hw) as (Hwf & Hscope & _).
  apply issue_Ok in Hi as (s' & r & Hs & Hfrom & _ & Hi & _). injection Hs as <-. cbn [issued_from] in Hfrom. subst r.
  unfold issue_record, record_version in Hi. cbn [is_none] in Hi.
  destruct (record_reads d ch raw) as (R1 & R2 & R3 & R4 & R5). cbv zeta in *. rewrite R1, R2, R3, R4, R5 in Hi.
  apply Evidence_issue_Ok in Hi as (_ & (T1 & T2 & T3 & T4 & T5 & T6) & (T7 & T8 & T9 & _) & _).
  apply _token_Ok in T4 as ((x & [= <-] & D4) & _), T5 as ((y & [= <-] & D5) & _), T6 as ((z & [= <-] & D6) & _).
  apply _bounded_text_Ok in T8 as ((u & [= <-] & D8) & _), T9 as ((v & [= <-] & D9) & _).
  rewrite (scope_of_wf _ Hwf) in Hscope. apply Ok_inj in Hscope as Hs. subst s.
  constructor; auto.
Qed.

(** ** The loop over the candidates *)

(** The item names the evidence and its source, and holds its text. *)
Record carries (e : Evidence) (item : list (string * pyval)) : Prop := {
  ca_evidence : dict_read "evidence_id" item = VStr (evidence_id e);
  ca_document : dict_read "document_id" item = VStr (document_id e);
  ca_version : dict_read "document_version" item = VStr (document_version e);
  ca_chunk : dict_read "chunk_id" item = VStr (chunk_id e);
  ca_scope : dict_read "tenant_id" item = VStr (tenant_id e) /\ dict_read "workspace_id" item = VStr (workspace_id e)
    /\ dict_read "collection_id" item = VStr (collection_id e);
  ca_text : dict_read "text" item = VStr (text e);
  ca_checksum : dict_read "checksum" item = VStr (checksum e) }.

Lemma normalized_carries e rec c : carries e (normalized_item e rec c).
Proof. constructor; repeat split. Qed.

Section issuing.
Context (kn : knowledge) (tenant workspace : string) (allowed : list pyval).

(** The item handed to the Professor is the projection of a sourced evidence. *)
Definition projected (s : EvidenceScope) (e : Evidence) (item : list (string * pyval)) : Prop :=
  carries e item /\ exists d ch, sourced kn s e d ch /\ dict_read "document_checksum" item = VStr (d_content_checksum d)
    /\ dict_read "title" item = VStr (str_or (str_or (d_title d) (d_display_filename d)) (d_filename d)).

(** Nothing is issued, or distinct items of one granted collection. *)
Definition issuing_ok (st : issuing) : Prop :=
  (is_selected st = None /\ is_issued st = [] /\ is_normalized st = [])
  \/ exists c s, is_selected st = Some c /\ grants allowed (VStr c) = true
       /\ EvidenceScope_new (VStr tenant) (VStr workspace) (VStr c) = Ok s
       /\ List.Forall2 (projected s) (is_issued st) (is_normalized st)
       /\ NoDup (map evidence_id (is_issued st)) /\ (1 <= length (is_issued st) <= 8)%nat.

Lemma scope_new_wf t w c s : EvidenceScope_new t w c = Ok s -> scope_wf s.
Proof.
  intros H. apply EvidenceScope_new_Ok in H as (H1 & H2 & H3). unfold scope_wf.
  destruct s. apply scope_new_eq; eapply _token_again; eassumption.
Qed.

Lemma str_in_map_false x l : str_in x l = false -> x ∉ l.
Proof. rewrite str_in_false. rewrite list_elem_of_In. tauto. Qed.

Lemma issue_candidate_ok st raw st' : issuing_ok st -> (length (is_normalized st) < 8)%nat ->
  issue_candidate (Some kn) tenant workspace allowed st raw = Ok st' -> issuing_ok st'.
Proof.
  intros Hst Hlen. unfold issue_candidate. cbv zeta.
  destruct (dict_read "collection_id" (_mapping raw)) as [| | | |c| |]; try (now intros [= <-]).
  destruct (_ || _ || _) eqn:Eskip; [now intros [= <-]|]. intros H. apply bind_Ok in H as (s & Hs & H).
  apply from_evidence_Ok in Hs. destruct (resolve kn (C_mapping (_mapping raw)) s) as [rec|] eqn:Er; [|now injection H as <-].
  destruct (issue _ _ _ _ _) as [e|] eqn:Ei; [|now injection H as <-].
  destruct (str_in _ _) eqn:Edup; [now injection H as <-|]. apply bind_Ok in H as (qs & _ & H). apply Ok_inj in H as ->.
  apply str_in_map_false in Edup. apply orb_false_iff in Eskip as [Eskip Esel]. apply orb_false_iff in Eskip as [_ Eg].
  apply negb_false_iff in Eg. pose proof (scope_new_wf _ _ _ _ Hs) as Hw.
  destruct (issue_sourced _ _ _ _ _ _ _ Er Ei Hw eq_refl) as (d & ch & Hsrc & ->).
  assert (projected s e (normalized_item e (Some (authoritative_record d ch (_mapping raw))) (_mapping raw))) as Hp
    by (split; [apply normalized_carries | exists d, ch; split; [exact Hsrc | split; reflexivity]]).
  right. exists c, s. cbn [is_selected is_issued is_normalized]. split_and!; auto.
  - destruct Hst as [(_ & -> & ->)|(c' & s' & Hc & _ & Hs' & Hf & _)]; [constructor; [exact Hp | constructor]|].
    rewrite Hc in Esel. apply negb_false_iff, str_eqb_eq in Esel. subst c'.
    rewrite Hs' in Hs. apply Ok_inj in Hs as ->. now apply Forall2_app; [|constructor; [exact Hp | constructor]].
  - rewrite map_app. destruct Hst as [(_ & -> & _)|(c' & s' & _ & _ & _ & _ & Hn & _)]; [apply NoDup_singleton|].
    apply NoDup_app. cbn. split_and!; [exact Hn | | apply NoDup_singleton]. intros x Hx. rewrite list_elem_of_singleton. now intros ->.
  - destruct Hst as [(_ & -> & _)|(c' & s' & _ & _ & _ & Hf & _ & Hb)]; [cbn; lia|].
    rewrite length_app. apply Forall2_length in Hf. cbn. lia.
  - destruct Hst as [(_ & -> & _)|(c' & s' & _ & _ & _ & Hf & _ & Hb)]; [cbn; lia|].
    rewrite length_app. apply Forall2_length in Hf. cbn. lia.
Qed.

Lemma issue_loop_ok candidates : forall st st', issuing_ok st -> (length (is_normalized st) < 8)%nat ->
  issue_loop (Some kn) tenant workspace allowed st candidates = Ok st' -> issuing_ok st'.
Proof.
  induction candidates as [|raw cs IH]; intros st st' Hst Hl; cbn [issue_loop]; [now intros [= <-]|].
  intros H. apply bind_Ok in H as (st1 & H1 & H). apply issue_candidate_ok in H1 as Hst1; [|assumption..].
  destruct (8 <=? _) eqn:E; [now injection H as <-|]. bool_to_prop. eapply IH; [exact Hst1 | lia | exact H].
Qed.
End issuing.

(** The items of an attempt with the knowledge at hand. *)
Definition issued_in (kn : knowledge) (context : list (string * pyval)) (items : list (list (string * pyval))) : Prop :=
  items = [] \/ exists tenant workspace allowed c s es,
    dict_read "tenant_id" context = VStr tenant /\ dict_read "workspace_id" context = VStr workspace
    /\ dict_read "allowed_collection_ids" context = VList allowed /\ grants allowed (VStr c) = true
    /\ EvidenceScope_new (VStr tenant) (VStr workspace) (VStr c) = Ok s
    /\ List.Forall2 (projected kn s) es items /\ NoDup (map evidence_id es) /\ (length es <= 8)%nat.

Lemma issue_candidates_ok kn q context candidates items bundle quality :
  _issue_candidates (Some kn) q context candidates = Ok (items, bundle, quality) -> issued_in kn context items.
Proof.
  unfold _issue_candidates, issued_in.
  destruct (dict_read "tenant_id" context) as [| | | |t| |] eqn:Et; try (intros [= <- _ _]; now left).
  destruct (dict_read "workspace_id" context) as [| | | |w| |] eqn:Ew; try (intros [= <- _ _]; now left).
  destruct (dict_read "allowed_collection_ids" context) as [| | | | |[|a allowed]|] eqn:Ea; try (intros [= <- _ _]; now left).
  intros H. apply bind_Ok in H as (st & Hst & H).
  apply issue_loop_ok in Hst; [|left; auto | cbn; lia].
  destruct (is_selected st) as [c|] eqn:Ec; [|injection H as <- _ _; now left].
  destruct (is_issued st) as [|e es] eqn:Ee; [injection H as <- _ _; now left|].
  apply bind_Ok in H as (s & _ & H). apply bind_Ok in H as (b & _ & H). injection H as <- _ _. right.
  destruct Hst as [(? & _)|(c' & s' & Hc & Hg & Hs & Hf & Hn & Hl)]; [congruence|].
  rewrite Ec in Hc. injection Hc as <-. exists t, w, (a :: allowed), c, s', (e :: es). rewrite Ee in *. split_and!; auto; lia.
Qed.

(** ** Decisions *)

Lemma made_action i a reason bid d : _make i a reason bid = Ok d -> d_action d = a /\ d_retrieval_attempt d = retrieval_attempt i.
Proof. intros H. apply _make_Ok in H as [-> _]. split; reflexivity. Qed.

Lemma retry_attempt i r d : _retry_or_abstain i r = Ok d -> d_retrieval_attempt d = retrieval_attempt i.
Proof. unfold _retry_or_abstain. destruct (_ && _); intros H; apply made_action in H as [_ H]; exact H. Qed.

(** The layer answers, or asks for another retrieval, only an open request. *)
Lemma decide_open v i d : decide v i = Ok d ->
  d_retrieval_attempt d = retrieval_attempt i
  /\ (d_action d = ANSWER -> request_open i)
  /\ (d_action d = RETRIEVE_AGAIN -> request_open i /\ retrieval_available i = true
                                     /\ retrieval_attempt i < max_retrieval_attempts (policy i)).
Proof.
  assert (forall a r bid, a <> ANSWER -> a <> RETRIEVE_AGAIN -> _make i a r bid = Ok d ->
    d_retrieval_attempt d = retrieval_attempt i /\ (d_action d = ANSWER -> request_open i)
    /\ (d_action d = RETRIEVE_AGAIN -> request_open i /\ retrieval_available i = true
        /\ retrieval_attempt i < max_retrieval_attempts (policy i))) as Hstop.
  { intros a r bid H1 H2 H. apply made_action in H as [-> Ha]. tauto. }
  assert (request_open i -> forall r, _retry_or_abstain i r = Ok d ->
    d_retrieval_attempt d = retrieval_attempt i /\ (d_action d = ANSWER -> request_open i)
    /\ (d_action d = RETRIEVE_AGAIN -> request_open i /\ retrieval_available i = true
        /\ retrieval_attempt i < max_retrieval_attempts (policy i))) as Hretry.
  { intros Ho r H. pose proof (retry_attempt _ _ _ H) as Ha. apply retry_action in H. destruct H as [(Hd & H1 & H2)|Hd]; rewrite Hd; split_and!; auto; discriminate. }
  unfold decide. cbv zeta. destruct (negb (integrity_ok i)); [now apply Hstop|].
  assert (decide_on_request v i = Ok d -> d_retrieval_attempt d = retrieval_attempt i /\ (d_action d = ANSWER -> request_open i)
    /\ (d_action d = RETRIEVE_AGAIN -> request_open i /\ retrieval_available i = true
        /\ retrieval_attempt i < max_retrieval_attempts (policy i))) as Hreq.
  { unfold decide_on_request. cbv zeta. destruct (human_review_required i) eqn:E1; [now apply Hstop|].
    destruct (bool_decide _) eqn:E2; cbn [negb]; [|now apply Hstop]. apply bool_decide_eq_true in E2.
    destruct (clarity (user_intent i)) eqn:E3; try now apply Hstop.
    destruct (policy_allows_answer i) eqn:E4; cbn [negb]; [|now apply Hstop].
    assert (request_open i) as Ho by (unfold request_open; auto).
    destruct (evidence_bundle i) as [b|]; [|now apply Hretry]. unfold decide_on_evidence. cbv zeta.
    destruct (_ <? _); [now apply Hretry|]. destruct (flt _ _); [now apply Hretry|].
    intros H. apply bind_Ok in H as (ok & _ & H). destruct (negb ok); [revert H; now apply Hstop|].
    destruct (_citation_support_failure i); [revert H; now apply Hretry|].
    destruct (provider_confidence_signal i); [|revert H; now apply Hstop].
    destruct (flt _ _); [revert H; now apply Hstop|]. apply made_action in H as [Ha Hn]. rewrite Ha, Hn. split_and!; auto; discriminate. }
  destruct (evidence_bundle i) as [b|].
  - intros H. apply bind_Ok in H as (s & _ & H). apply bind_Ok in H as (r & _ & H).
    destruct (negb (er_valid r)); [revert H; now apply Hstop | now apply Hreq].
  - destruct (0 <? evidence_count i); [now apply Hstop | exact Hreq].
Qed.

Lemma bool_field_Ok v b : bool_field v = Ok b -> v = VBool b.
Proof. destruct v; try discriminate. intros H. apply Ok_inj in H as ->. reflexivity. Qed.

Lemma int_field_Ok lo hi v n : int_field lo hi v = Ok n -> v = VInt n.
Proof.
  destruct v; try discriminate. intros H. apply bind_Ok in H as (u & _ & H). apply Ok_inj in H as ->. reflexivity.
Qed.

(** The request-level signals of the input are those of the classification. *)
Lemma decision_input_signals kn context bundle count quality attempt metrics present c retry i :
  _decision_input kn context bundle count quality attempt metrics present c retry = Ok i ->
  retrieval_attempt i = Z.of_nat attempt /\ retrieval_available i = retry /\ policy i = gate_policy
  /\ (request_open i -> rc_allows_answer c = true /\ rc_human_review_required c = false /\ rc_domain_risk c = LOW
                        /\ clarity (rc_intent c) = CLEAR /\ kn <> None).
Proof.
  unfold _decision_input. cbv zeta. intros H. apply bind_Ok in H as (sup & _ & H). apply from_evidence_Ok in H.
  unfold DecisionInput_new in H.
  apply bind_Ok in H as (u & _ & H). apply bind_Ok in H as (t & _ & H). apply bind_Ok in H as (w & _ & H).
  apply bind_Ok in H as (co & _ & H). apply bind_Ok in H as (q & _ & H). apply bind_Ok in H as (n & _ & H).
  apply bind_Ok in H as (s & _ & H). apply bind_Ok in H as (p & _ & H). apply bind_Ok in H as (a & Ha & H).
  apply bind_Ok in H as (av & Hav & H). apply bind_Ok in H as (ok & _ & H). apply bind_Ok in H as (al & Hal & H).
  apply bind_Ok in H as (hr & Hhr & H). apply bind_Ok in H as (ids & _ & H).
  apply int_field_Ok in Ha. apply bool_field_Ok in Hav, Hal, Hhr. injection Ha as <-. injection Hav as <-.
  injection Hal as <-. injection Hhr as <-.
  assert (forall i0 i', validate_scope_and_bundle_count i0 = Ok i' -> i' = i0) as Hid.
  { clear. intros i0 i'. unfold validate_scope_and_bundle_count. cbv zeta. intros H. apply bind_Ok in H as (u & _ & H).
    destruct (evidence_bundle i0); [|now injection H]. apply bind_Ok in H as (u' & _ & H).
    destruct (opt_scope _ _ _) as [[[x y] z]|]; [|now injection H].
    apply bind_Ok in H as (e0 & _ & H). apply bind_Ok in H as (o & _ & H). apply bind_Ok in H as (u2 & _ & H). now injection H. }
  apply Hid in H as ->. cbn. unfold request_open. cbn. split_and!; try reflexivity.
  intros (H1 & H2 & H3 & H4). apply andb_true_iff in H4 as [H4 H5]. apply list_elem_of_singleton in H2.
  split_and!; auto. now destruct kn.
Qed.

(** ** Retrieval *)

Section retrieval.
Context (g : gate) (target : nat -> string -> list (string * pyval) -> outcome pyval).
Context (a_query : string) (context : list (string * pyval)) (c : RequestClassification) (retry : bool).

Definition knowledge_at (n : nat) : option knowledge := option_map (fun k => k (Attempt n)) (g_knowledge g).

(** What one attempt that succeeds gives. *)
Record attempt_ok (n : nat) (a : attempted) : Prop := {
  ao_issued : forall kn, knowledge_at n = Some kn -> issued_in kn context (at_normalized a);
  ao_attempt : d_retrieval_attempt (at_decision a) = Z.of_nat n;
  ao_open : d_action (at_decision a) = ANSWER \/ d_action (at_decision a) = RETRIEVE_AGAIN ->
    rc_allows_answer c = true /\ rc_human_review_required c = false /\ rc_domain_risk c = LOW
    /\ clarity (rc_intent c) = CLEAR /\ knowledge_at n <> None;
  ao_again : d_action (at_decision a) = RETRIEVE_AGAIN -> retry = true /\ n = 0%nat }.

Lemma attempt_wp n asked (asked_before : list string) :
  wp (attempt_retrieval g target a_query context c retry n asked)
    (fun a s => s = asked_before ++ [asked] /\ attempt_ok n a)
    (fun _ s => s = asked_before \/ s = asked_before ++ [asked]) asked_before.
Proof.
  unfold attempt_retrieval. cbv zeta. wp_step. wp_step; [|now left]. wp_step. wp_step. wp_step. wp_step; [|now right].
  wp_step. wp_step; [|now right]. match goal with H : _issue_candidates _ _ _ _ = Ok ?x |- _ => destruct x as [[items bundle] quality] end.
  destruct (_citation_support_metrics _) as [metrics present]. wp_step. wp_step; [|now right]. wp_step. wp_step; [|now right].
  wp_step. split; [reflexivity|].
  match goal with H : from_evidence _ = Ok _ |- _ => apply from_evidence_Ok in H; apply decide_open in H as (Hn & Ha & Hr) end.
  match goal with H : _decision_input _ _ _ _ _ _ _ _ _ _ = Ok _ |- _ => apply decision_input_signals in H as (S1 & S2 & S3 & S4) end.
  constructor; cbn [at_normalized at_decision].
  - intros kn Hkn. unfold knowledge_at in Hkn. rewrite Hkn in *. eapply issue_candidates_ok; eassumption.
  - congruence.
  - intros [Hd|Hd]; [apply S4, Ha, Hd | apply S4, Hr, Hd].
  - intros Hd. apply Hr in Hd as (_ & Hav & Hn'). rewrite S1, S3 in Hn'. cbn in Hn'. split; [congruence | lia].
Qed.
End retrieval.

(** ** The payload *)

Lemma payload_reads c initial a : let p := gated_payload c initial a in
  dict_read "evidence" p = VList (map VDict (if is_action (d_action (at_decision a)) ANSWER then at_normalized a else []))
  /\ exists m, dict_read "metadata" p = VDict m
     /\ dict_read "decision_action" m = VStr (action_value (d_action (at_decision a)))
     /\ dict_read "request_policy_reason" m = VStr (rc_reason_code c).
Proof.
  cbv zeta. unfold gated_payload. cbv zeta. unfold dict_update, dict_read. cbn [fold_left fst snd].
  generalize (match from_option id VNone (dict_get "metadata" (at_payload a)) with VDict m => m | _ => [] end) as raw. intros raw.
  split; [now rewrite !dict_get_set|]. eexists. split; [now rewrite !dict_get_set|].
  split; unfold metadata; cbn [fold_left fst snd]; now rewrite !dict_get_set.
Qed.

Lemma can_retry_Some a_query c : can_retry a_query c = true -> exists r, rc_retry_query c = Some r /\ strip r <> strip a_query.
Proof.
  unfold can_retry. destruct (rc_retry_query c) as [r|]; [|discriminate]. intros H. exists r. split; [reflexivity|].
  apply negb_true_iff in H. intros E. rewrite E in H. unfold str_eqb in H. now rewrite bool_decide_eq_true_2 in H.
Qed.

(** The whole retrieval: the queries sent, and the attempt the payload is from. *)
Lemma gate_retrieve_wp g a_query context history :
  wp (retrieve g a_query context history)
    (fun payload asked => exists c initial n a, classify_request (g_classifier g) (VStr a_query) history = Ok c
       /\ payload = gated_payload c initial a /\ d_action (at_decision a) <> RETRIEVE_AGAIN
       /\ attempt_ok g context c (can_retry a_query c) n a
       /\ (asked = [a_query] \/ exists r, rc_retry_query c = Some r /\ strip r <> strip a_query /\ asked = [a_query; r]))
    (fun _ asked => asked = [] \/ asked = [a_query] \/ exists r, strip r <> strip a_query /\ asked = [a_query; r]) [].
Proof.
  unfold retrieve. cbv zeta. destruct (g_retrieve g) as [target|]; [|wp_step; now left].
  wp_step. wp_step; [|now left].
  match goal with H : from_evidence _ = Ok ?x |- _ => rename x into c; apply from_evidence_Ok in H as Hc; clear H end.
  wp_step. eapply wp_mono; [apply (attempt_wp g target a_query context c (can_retry a_query c)) | |].
  2: { cbv beta. intros e s [->| ->]; auto. }
  cbv beta. intros first s [-> Hfirst]. cbn [app]. destruct (is_action (d_action (at_decision first)) RETRIEVE_AGAIN) eqn:Ea.
  - apply bool_decide_eq_true in Ea. destruct (ao_again _ _ _ _ _ _ Hfirst Ea) as [Hretry _].
    destruct (can_retry_Some _ _ Hretry) as (r & Er & Hne). rewrite Er. cbn [from_option].
    wp_step. eapply wp_mono; [apply (attempt_wp g target a_query context c _) | |].
    + cbv beta. intros second s [-> Hsecond]. wp_step. exists c, (d_action (at_decision first)), 1%nat, second.
      split_and!; [exact Hc | reflexivity | | exact Hsecond | right; exists r; auto].
      intros H. apply (ao_again _ _ _ _ _ _ Hsecond) in H as [_ H]. discriminate.
    + cbv beta. intros e s [->| ->]; [auto|]. right. right. exists r. auto.
  - wp_step. exists c, (d_action (at_decision first)), 0%nat, first. apply bool_decide_eq_false in Ea. split_and!; auto.
Qed.

(** ** Delivery *)

(** The item stands for an evidence the knowledge still sources, in the
    collection both grant lists allow. *)
Definition current (kn : knowledge) (original : list (string * pyval)) (allowed refreshed : list pyval)
    (item : list (string * pyval)) : Prop :=
  let collection_id := dict_read "collection_id" item in
  grants allowed collection_id = true /\ grants refreshed collection_id = true
  /\ exists s e d ch,
       EvidenceScope_new (dict_read "tenant_id" original) (dict_read "workspace_id" original) collection_id = Ok s
       /\ sourced kn s e d ch /\ dict_read "evidence_id" item = VStr (evidence_id e)
       /\ dict_read "document_checksum" item = VStr (d_content_checksum d)
       /\ dict_read "document_id" item = VStr (d_document_id d) /\ dict_read "chunk_id" item = VStr (ch_chunk_id ch).

Lemma py_eqb_VStr v s : py_eqb v (VStr s) = true -> v = VStr s.
Proof. destruct v; cbn; try discriminate. intros H. apply str_eqb_eq in H. now subst. Qed.

Lemma item_current_spec kn original allowed refreshed item :
  item_current kn original allowed refreshed item = Ok true -> current kn original allowed refreshed item.
Proof.
  unfold item_current, current. cbv zeta. destruct (negb _ || negb _) eqn:Eg; [discriminate|].
  apply orb_false_iff in Eg as [E1 E2]. apply negb_false_iff in E1, E2. intros H. apply bind_Ok in H as (s & Hs & H).
  apply from_evidence_Ok in Hs. destruct (resolve kn (C_mapping item) s) as [rec|] eqn:Er; [|discriminate].
  apply bind_Ok in H as (e & Hi & H). apply from_evidence_Ok in Hi. apply Ok_inj in H. symmetry in H.
  destruct (issue_sourced _ _ _ _ _ _ _ Er Hi (scope_new_wf _ _ _ _ Hs) eq_refl) as (d & ch & Hsrc & ->).
  rewrite !andb_true_iff in H. destruct H as (((H1 & _) & H2) & _). apply is_str_eq in H1. apply py_eqb_VStr in H2.
  apply resolve_Some in Er as (d' & ch' & Hc & Hrec & Hd & Hk).
  split; [exact E1 | split; [exact E2|]]. exists s, e, d, ch.
  assert (d_document_id d' = d_document_id d /\ ch_chunk_id ch' = ch_chunk_id ch) as [Ed Ek].
  { unfold authoritative_record in Hrec. injection Hrec. intros. subst. auto. }
  split_and!; auto; congruence.
Qed.

Lemma all_current_spec kn original allowed refreshed items :
  all_current kn original allowed refreshed items = Ok true -> List.Forall (current kn original allowed refreshed) items.
Proof.
  induction items as [|item items IH]; cbn [all_current]; [constructor|]. intros H. apply bind_Ok in H as (b & Hb & H).
  destruct b; [|discriminate]. constructor; [now apply item_current_spec | auto].
Qed.

Lemma mappings_map l : mappings_of (map VDict l) = l.
Proof. unfold mappings_of. induction l as [|d l IH]; cbn; [reflexivity | now rewrite IH]. Qed.

Lemma all_mappings l : forallb is_dict l = true -> l = map VDict (mappings_of l).
Proof.
  unfold mappings_of. induction l as [|v l IH]; cbn [forallb]; [reflexivity|]. intros H. apply andb_true_iff in H as [Hv H].
  destruct v; try discriminate. cbn. now rewrite <- (IH H).
Qed.

(** Distinct strings. *)
Lemma distinct_strings ids cited : citations_known ids cited = true ->
  exists l, ids = map VStr l /\ NoDup l /\ cited <> [] /\ forall v, In v cited -> exists s, v = VStr s /\ In s l.
Proof.
  unfold citations_known. rewrite !andb_true_iff. intros [[[Hs Hd] Hn] Hi]. apply Nat.eqb_eq in Hd.
  rewrite forallb_app in Hs. apply andb_true_iff in Hs as [Hs Hsc].
  assert (forall l, forallb is_string l = true -> exists l', l = map VStr l') as Hstr.
  { clear. induction l as [|v l IH]; cbn [forallb]; intros H; [now exists []|]. apply andb_true_iff in H as [Hv H].
    destruct v; try discriminate. destruct (IH H) as (l' & ->). now exists (s :: l'). }
  destruct (Hstr _ Hs) as (l & ->). exists l. split; [reflexivity|]. split; [|split].
  - apply py_distinct_NoDup in Hd; [|intros v Hv; apply in_map_iff in Hv as (s & <- & _); eauto].
    now apply NoDup_fmap_1 in Hd.
  - intros ->. discriminate.
  - intros v Hv. rewrite forallb_forall in Hi, Hsc. specialize (Hi v Hv). specialize (Hsc v Hv). destruct v; try discriminate.
    apply existsb_exists in Hi as (x & Hx & He). apply in_map_iff in Hx as (t & <- & Ht). rewrite py_eqb_str, is_str_eq in He.
    injection He as ->. eauto.
Qed.

(** What a confirmed delivery rests on: with the knowledge and the live grants
    of that moment, the caller may query, every item of the snapshot still
    stands for its source, the items are distinct and of one collection, and
    the cited identifiers are among them. *)
Definition confirmed (g : gate) (original : list (string * pyval)) (evidence cited : list pyval)
    (kn : knowledge) (allowed refreshed : list pyval) : Prop :=
  exists k live items ids,
    g_knowledge g = Some k /\ kn = k Publication /\ current_grants g original = Ok (Some live)
    /\ may_query (dict_read "permissions" original) = true
    /\ dict_read "allowed_collection_ids" original = VList allowed /\ dict_read "allowed_collection_ids" live = VList refreshed
    /\ evidence = map VDict items /\ (1 <= length items <= 8)%nat
    /\ map (dict_read "evidence_id") items = map VStr ids /\ NoDup ids
    /\ cited <> [] /\ (forall v, In v cited -> exists s, v = VStr s /\ In s ids)
    /\ py_distinct (map (dict_read "collection_id") items) = 1%nat
    /\ List.Forall (current kn original allowed refreshed) items.

Lemma validate_publication_confirmed g original evidence cited :
  validate_publication g original evidence cited = Ok true ->
  exists kn allowed refreshed, confirmed g original evidence cited kn allowed refreshed.
Proof.
  unfold validate_publication. destruct (g_knowledge g) as [kn|] eqn:Ek; [|discriminate].
  destruct (negb _ || negb _) eqn:E1; [discriminate|]. apply orb_false_iff in E1 as [El Eq]. apply negb_false_iff in El, Eq.
  apply andb_true_iff in El as [El1 El2]. apply Nat.leb_le in El1, El2.
  intros H. apply bind_Ok in H as (l & Hl & H). destruct l as [live|]; [|discriminate].
  destruct (dict_read "allowed_collection_ids" original) as [| | | | |allowed|] eqn:Ea; try discriminate.
  destruct (dict_read "allowed_collection_ids" live) as [| | | | |refreshed|] eqn:Er; try discriminate.
  cbv zeta in H. destruct (negb _ || negb _ || negb _) eqn:E2; [discriminate|].
  apply orb_false_iff in E2 as [E2 Ec]. apply orb_false_iff in E2 as [_ Ed]. apply negb_false_iff in Ec, Ed.
  apply bind_Ok in H as (u & _ & H). destruct (negb _) eqn:E3; [discriminate|]. apply negb_false_iff, Nat.eqb_eq in E3.
  destruct (all_current _ _ _ _ _) as [b|] eqn:Eb; cbn in H; [|discriminate]. injection H as ->.
  apply distinct_strings in Ec as (ids & Hids & Hnd & Hne & Hin).
  exists (kn Publication), allowed, refreshed, kn, live, (mappings_of evidence), ids. pose proof (all_mappings _ Ed) as Hm.
  rewrite Hm, length_map in El1, El2. apply all_current_spec in Eb. rewrite ?Ea. split_and!; auto.
Qed.
