(* ===== verification/GateProperties.v ===== *)
(** * What the evidence gate guarantees

    The allowlist of the request policy, the escalation of clinical requests,
    the sources of the evidence handed to the Professor, and the revalidation
    of the sources before delivery. *)

From Stdlib Require Import Ascii String.
From stdpp Require Import strings list.
From S2P Require Import Prelude PyFloat PyStr PyVal PyNumber StateError Evidence EvidenceValidator EvidenceLemmas Decision.
From S2P Require Import DecisionProperties KnowledgeModels Authorization ProfessorModels Orchestrator RequestPolicy GateLemmas.
From S2P Require Import DecisionGate.

Local Open Scope string_scope.
Local Open Scope Z_scope.
Local Open Scope list_scope.

(** ** A sample gate *)

Definition sample_document : Document :=
  mk_document "doc-1" "w1" "c1" "t1" "v1" "sum-doc" "manual.pdf" EmptyString "Manual" "pdf" "application/pdf" None "published"
    "p1" "k1" "m1" "e1" [] "v1" "obj" None None.
Definition sample_chunk (text : string) : Chunk :=
  KnowledgeModels.mk_chunk "doc-1-0" "doc-1" "t1" None 0 text (Some 1) (Some 1) None None 3 "sum-chunk" "p1" "k1" "e1" "i1" [].
Definition sample_collection : Collection := mk_collection "w1" "c1" "t1" "Manuals" EmptyString "active" 1 [].

Definition sample_knowledge (text : string) : knowledge := {|
  kn_get_document := fun d t w => Returns (if str_eqb d "doc-1" then Some sample_document else None);
  kn_get_collection := fun w c t => Returns (Some sample_collection);
  kn_scoped_chunks := false;
  kn_get_chunks := fun d _ => Returns [sample_chunk text] |}.

(** A retrieval projection that forges the text and names an unknown document. *)
Definition sample_retrieved : pyval :=
  VDict [("evidence", VList
    [VDict [("document_id", VStr "doc-9"); ("chunk_id", VStr "doc-9-0"); ("collection_id", VStr "c1"); ("text", VStr "Invented.")];
     VDict [("document_id", VStr "doc-1"); ("chunk_id", VStr "doc-1-0"); ("tenant_id", VStr "t1"); ("workspace_id", VStr "w1");
            ("collection_id", VStr "c1"); ("text", VStr "Forged."); ("confidence_score", VFloat (lit 9 10))]])].

Definition sample_gate (before after : string) : gate := {|
  g_retrieve := Some (fun _ _ _ => Returns sample_retrieved);
  g_knowledge := Some (fun m => sample_knowledge (match m with Attempt _ => before | Publication => after end));
  g_classifier := Some clinical_policy;
  g_authorization_revalidator := None |}.

Definition sample_dump : list (string * pyval) :=
  [("contract_version", VStr "retrieval-context-v1"); ("user_id", VStr "u1"); ("workspace_id", VStr "w1");
   ("tenant_id", VStr "t1"); ("allowed_collection_ids", VList [VStr "c1"]); ("permissions", VList [VStr "chat.query"])].

Definition evidence_of_payload (p : list (string * pyval)) : list (list (string * pyval)) :=
  match dict_read "evidence" p with VList l => mappings_of l | _ => [] end.

(** The texts of the items, as strings. *)
Definition texts_of (p : list (string * pyval)) : list string :=
  map (fun item => match dict_read "text" item with VStr s => s | _ => EmptyString end) (evidence_of_payload p).

Definition sample_items (before : string) : list (list (string * pyval)) :=
  match eval (retrieve (sample_gate before before) "How do I upload a document?" sample_dump (VList [])) [] with
  | Ok p => evidence_of_payload p
  | Err _ => []
  end.

(** ** Requests *)

(** C12: the clinical policy classifies every request; it permits an answer
    exactly when there is no history and the request, up to case, accents,
    whitespace and one closing question mark, is a reviewed sentence; and a
    request in which clinical words come first, in the question or in a turn
    of its history, is marked for human review. *)
Theorem request_policy_allowlist query history : exists c,
  classify_request (Some clinical_policy) query history = Ok c
  /\ (rc_allows_answer c = true <-> history = VList [] /\ exists text, _normalize query = Some text /\ allowlisted text)
  /\ (rc_allows_answer c = true -> rc_domain_risk c = LOW /\ rc_human_review_required c = false)
  /\ (forall text items prior before item after,
        _normalize query = Some text -> history = VList items -> (length items <= 50)%nat -> mapM _normalize items = Some prior ->
        text :: prior = before ++ item :: after ->
        Forall (fun i => _INJECTION i = false /\ _CLINICAL i = false) before -> _INJECTION item = false -> _CLINICAL item = true ->
        rc_human_review_required c = true /\ rc_domain_risk c = HIGH).
Proof.
  destruct (clinical_policy_spec query history) as (c & Hc & Ha & Hl). exists c. split_and!; try assumption.
  - intros H. destruct (Hl H) as (H1 & _ & H2). auto.
  - intros text items prior before item after Ht -> Hlen Hm Hsplit Hb Hi Hcl.
    unfold classify_request, clinical_policy, clinical_classify, classify in Hc. rewrite (proj2 (str_eqb_eq _ _) eq_refl) in Hc.
    cbn [negb] in Hc. rewrite Ht in Hc. replace (50 <? Z.of_nat (length items)) with false in Hc by lia. rewrite Hm in Hc.
    rewrite Hsplit, (screen_clinical _ _ _ Hb Hi Hcl) in Hc. vm_compute in Hc. injection Hc as <-. split; reflexivity.
Qed.

(** A reviewed sentence with accents and capitals; a clinical turn. *)
Lemma request_policy_allowlist_witness : exists c1 c2,
  classify_request (Some clinical_policy) (VStr "How do I cite  SOURCES?") (VList []) = Ok c1 /\ rc_allows_answer c1 = true
  /\ classify_request (Some clinical_policy) (VStr "And the dosage?") (VList []) = Ok c2 /\ rc_human_review_required c2 = true.
Proof.
  destruct (request_policy_allowlist (VStr "How do I cite  SOURCES?") (VList [])) as (c1 & H1 & A1 & _).
  destruct (request_policy_allowlist (VStr "And the dosage?") (VList [])) as (c2 & H2 & _ & _ & R2).
  exists c1, c2. split; [exact H1|]. split.
  { apply A1. split; [reflexivity|]. exists "how do i cite sources". split; [vm_compute; reflexivity|].
    apply allowlisted_In. cbn. auto 20. }
  split; [exact H2|].
  apply (R2 "and the dosage" [] [] [] "and the dosage" []);
    [vm_compute; reflexivity | reflexivity | cbn; lia | reflexivity | reflexivity | constructor | vm_compute; reflexivity | vm_compute; reflexivity].
Defined.

(** ** Retrieval *)

(** C11: a retrieval through the gate asks its retriever at most twice, the
    second time with the reviewed query of the policy; and every item it hands
    on is issued from the canonical knowledge: the text and provenance of a
    chunk of a published document, in one active and granted collection of
    the request's tenant and workspace, at most eight items, all different,
    and none unless the policy permits an answer. *)
Theorem gate_evidence_sourced g a_query context history asked payload :
  retrieve g a_query context history [] = (asked, Ok payload) ->
  (asked = [a_query] \/ exists r, strip r <> strip a_query /\ asked = [a_query; r])
  /\ exists c items, classify_request (g_classifier g) (VStr a_query) history = Ok c
     /\ dict_read "evidence" payload = VList (map VDict items)
     /\ (items = [] \/ (rc_allows_answer c = true /\ exists n kn, knowledge_at g n = Some kn /\ issued_in kn context items)).
Proof.
  intros H. pose proof (wp_run _ _ _ _ _ _ (gate_retrieve_wp g a_query context history) H) as Hw. cbv beta iota in Hw.
  destruct Hw as (c & initial & n & a & Hc & -> & Hne & Hok & Hasked). split.
  { destruct Hasked as [->|(r & _ & Hr & ->)]; eauto. }
  destruct (payload_reads c initial a) as [He _]. cbv zeta in He. rewrite He. exists c.
  destruct (is_action (d_action (at_decision a)) ANSWER) eqn:Ea; [|exists []; auto].
  apply bool_decide_eq_true in Ea. exists (at_normalized a). split; [exact Hc | split; [reflexivity|]]. right.
  destruct (ao_open _ _ _ _ _ _ Hok (or_introl Ea)) as (Hal & _ & _ & _ & Hk). split; [exact Hal|].
  destruct (knowledge_at g n) as [kn|] eqn:Hkn; [|contradiction]. exists n, kn. split; [exact Hkn | exact (ao_issued _ _ _ _ _ _ Hok kn Hkn)].
Qed.

(** The forged text is replaced by the canonical one. *)
Lemma gate_evidence_sourced_witness : exists asked payload c items,
  retrieve (sample_gate "Press upload." "Press upload.") "How do I upload a document?" sample_dump (VList []) [] = (asked, Ok payload)
  /\ classify_request (g_classifier (sample_gate "Press upload." "Press upload.")) (VStr "How do I upload a document?") (VList []) = Ok c
  /\ dict_read "evidence" payload = VList (map VDict items)
  /\ texts_of payload = ["Press upload."].
Proof.
  assert (match eval (retrieve (sample_gate "Press upload." "Press upload.") "How do I upload a document?" sample_dump (VList [])) [] with
          | Ok p => bool_decide (texts_of p = ["Press upload."]) | Err _ => false end = true) as Hx
    by (vm_compute; reflexivity).
  unfold eval in Hx. destruct (retrieve _ _ _ _ []) as [asked [p|]] eqn:E; [|discriminate]. cbn [snd] in Hx. apply bool_decide_eq_true in Hx.
  destruct (gate_evidence_sourced _ _ _ _ _ _ E) as (_ & c & items & Hc & He & _). exists asked, p, c, items.
  split_and!; [reflexivity | exact Hc | exact He | exact Hx].
Defined.


(** ** Delivery *)

(** The snapshot of the sample is confirmed while the chunk is unchanged, and
    refused once its text has changed. *)
Example changed_source_refused :
  let items := map VDict (sample_items "Press upload.") in
  let cited := map (dict_read "evidence_id") (sample_items "Press upload.") in
  validate_publication (sample_gate "Press upload." "Press upload.") sample_dump items cited = Ok true
  /\ validate_publication (sample_gate "Press upload." "Press the button.") sample_dump items cited = Ok false.
Proof. split; vm_compute; reflexivity. Qed.
