(* ===== verification/ChatBackendProperties.v ===== *)
(** * The chat backend

    The composition of the gate, of the professor and of the validator in one chat request,
    and its properties. *)

From Stdlib Require Import Ascii String.
From stdpp Require Import strings list.
From S2P Require Import Prelude PyFloat PyStr PyVal Evidence EvidenceValidator EvidenceLemmas EvidenceProperties.
From S2P Require Import Decision StateError KnowledgeModels PyNumber ProfessorModels Professor Orchestrator.
From S2P Require Import OrchestratorLemmas StreamEquivalence ProfessorProperties RequestPolicy Sha256 DecisionGate.
From S2P Require Import ChatBackend GateLemmas GateProperties.

Local Open Scope string_scope.
Local Open Scope Z_scope.
Local Open Scope list_scope.

(** ** Lemmas on the chat backend

    From a request of the chat service to the retrieval of the gate and back:
    what was classified, where the trusted evidence was issued, and what the
    validation before delivery says about each cited source. *)

(** ** Identifiers read back *)

Lemma cut_all n s : slen s <= n -> cut n s = s.
Proof.
  unfold cut. intros H. assert (Strings.String.length s <= Z.to_nat n)%nat as Hl by (unfold slen in H; lia). clear H. revert Hl.
  generalize (Z.to_nat n) as k. induction s as [|c s IH]; intros [|k] Hl; cbn in Hl |- *; try reflexivity; [lia|].
  rewrite IH by lia. reflexivity.
Qed.

Lemma safe_own n s : strip s = s -> 1 <= slen s <= n -> present (_safe_optional_string n (VStr s)) = Some s.
Proof.
  intros Hs Hl. cbn [_safe_optional_string]. rewrite Hs.
  assert (is_empty s = false) as He by (destruct s; [change (1 <= 0 <= n) in Hl; lia | reflexivity]).
  rewrite He, cut_all by lia. cbn [present]. now rewrite He.
Qed.

Lemma token_fixed s : _token (VStr s) = Ok s -> strip s = s /\ 1 <= slen s <= 128.
Proof. intros H. apply _token_Ok in H as ((t & [= <-] & Hs) & _ & Hl). auto. Qed.

Lemma text_fixed n r s : _bounded_text (VStr s) n r = Ok s -> strip s = s.
Proof. intros H. apply _bounded_text_Ok in H as ((t & [= <-] & Hs) & _). auto. Qed.

Lemma hex_not_space c : is_hex_char c = true -> isspace c = false.
Proof. destruct c as [[] [] [] [] [] [] [] []]; vm_compute; congruence. Qed.

Lemma pattern_fixed s : id_pattern "ev_" s = true -> strip s = s /\ 1 <= slen s <= 128.
Proof.
  unfold id_pattern. rewrite !andb_true_iff. intros [[Hl Hp] Hh]. bool_to_prop. split; [|lia].
  apply strip_nospace. destruct s as [|a [|b [|c s]]]; try discriminate.
  apply prefix_correct in Hp. cbn in Hp. injection Hp as -> -> -> _. cbn. eapply sall_impl; [|exact Hh].
  intros x Hx. now rewrite (hex_not_space x Hx).
Qed.

(** A trusted item taken from an item of the gate is the evidence the gate
    issued; its text may have been cut at the end. *)
Record names (t : TrustedEvidence) (e : Evidence) : Prop := {
  nm_evidence : te_evidence_id t = evidence_id e;
  nm_document : te_document_id t = document_id e;
  nm_chunk : te_chunk_id t = chunk_id e;
  nm_collection : te_collection_id t = Evidence.collection_id e;
  nm_text : exists rest, text e = te_text t +:+ rest }.

Lemma from_carried t e item : comes_from t (VDict item) -> carries e item -> evidence_wf e -> names t e.
Proof.
  intros (d & raw & [= <-] & Ht & Hd & Hk & _ & _ & Hc & He & rest & Hrest) Hca [Hn _ _ Hp].
  rewrite (ca_text _ _ Hca) in Ht. injection Ht as <-. rewrite (ca_document _ _ Hca) in Hd. rewrite (ca_chunk _ _ Hca) in Hk.
  rewrite (proj2 (proj2 (ca_scope _ _ Hca))) in Hc. rewrite (ca_evidence _ _ Hca) in He.
  pose proof (token_fixed _ (nf_document _ Hn)) as [D1 D2]. pose proof (token_fixed _ (nf_chunk _ Hn)) as [K1 K2].
  pose proof (token_fixed _ (nf_collection _ Hn)) as [C1 C2]. destruct (pattern_fixed _ Hp) as [P1 P2].
  pose proof (text_fixed _ _ _ (nf_text _ Hn)) as T. rewrite T in Hrest.
  rewrite (safe_own _ _ P1 P2) in He. cbn in He.
  assert (forall s x, strip s = s -> 1 <= slen s <= 128 -> _safe_optional_string 128 (VStr s) = Some x -> x = s) as Hread.
  { intros s x H1 H2 H. pose proof (safe_own 128 s H1 H2) as Hs. rewrite H in Hs. now apply present_Some in Hs as [[= ->] _]. }
  constructor; eauto.
Qed.

(** ** Requests *)

Section backend.
Context (tanh : pyfloat -> pyfloat).
Context (validate_result : pyval -> option ChatCompletionResult) (validate_chunk : pyval -> option ChatCompletionChunk).
Context (str_of : pyval -> string) (bk : backend).

Lemma from_professor_Ok {A} (m : res prof_error A) a : from_professor m = Ok a <-> m = Ok a.
Proof. unfold from_professor. destruct m; cbn; split; congruence. Qed.

Lemma build_request_Ok message context conversation_id history r :
  build_request str_of message context conversation_id history = Ok r ->
  exists prior cx, prior_messages str_of history = Ok prior /\ RetrievalContext_validate context = Ok cx
    /\ r = mk_request "professor-contract-v1" message conversation_id cx "grounded" prior.
Proof.
  unfold build_request. intros H. apply bind_Ok in H as (prior & Hp & H). apply bind_Ok in H as (cx & Hc & H).
  apply from_professor_Ok in Hc, H. unfold ProfessorRequest_new in H. apply bind_Ok in H as (u & _ & H).
  apply Ok_inj in H as ->. eauto.
Qed.

(** What a prepared prompt goes back to. *)
Record retrieved_from (request : ProfessorRequest) (es : list TrustedEvidence) (n : nat) (kn : knowledge)
    (c : RequestClassification) (items : list (list (string * pyval))) : Prop := {
  rf_classified : classify_request (g_classifier (bk_gate bk)) (VStr (pr_query request))
                    (VList (map VStr (map pm_content (pr_history request)))) = Ok c;
  rf_permitted : rc_allows_answer c = true;
  rf_knowledge : knowledge_at (bk_gate bk) n = Some kn;
  rf_issued : issued_in kn (model_dump (pr_retrieval_context request)) items;
  rf_trusted : _trusted_evidence tanh (map VDict items) (pr_retrieval_context request) (bk_limits bk) = Ok es }.

Lemma trusted_nil cx limits es : _trusted_evidence tanh [] cx limits = Ok es -> es = [].
Proof. unfold _trusted_evidence. destruct (cx_allowed_collection_ids cx); intros H; now apply Ok_inj in H as ->. Qed.

Lemma prepared_retrieved request es messages :
  prepared_from tanh (bk_limits bk) (professor_deps validate_chunk bk) request es messages ->
  exists n kn c items, retrieved_from request es n kn c items.
Proof.
  intros (target & retrieved & [= <-] & Hr & Ht & Hne & _). unfold outcome_of, eval in Hr.
  destruct (retrieve _ _ _ _ []) as [asked [payload|]] eqn:E; cbn [snd] in Hr; [|discriminate]. injection Hr as <-.
  pose proof (wp_run _ _ _ _ _ _ (gate_retrieve_wp (bk_gate bk) _ _ _) E) as (c & initial & n & a & Hc & -> & _ & Hok & _).
  destruct (payload_reads c initial a) as [He _]. cbv zeta in He.
  assert (forall l, dict_read "evidence" (gated_payload c initial a) = VList l ->
    _retrieved_items (VDict (gated_payload c initial a)) = l) as Hitems.
  { intros l. unfold dict_read, _retrieved_items, _as_mapping. destruct (dict_get "evidence" _); cbn; [now intros -> | discriminate]. }
  rewrite (Hitems _ He) in Ht. destruct (is_action (d_action (at_decision a)) ANSWER) eqn:Ea; [|now apply trusted_nil in Ht].
  apply bool_decide_eq_true in Ea. destruct (ao_open _ _ _ _ _ _ Hok (or_introl Ea)) as (Hal & _ & _ & _ & Hk).
  destruct (knowledge_at (bk_gate bk) n) as [kn|] eqn:Hkn; [|contradiction].
  exists n, kn, c, (at_normalized a). constructor; auto. exact (ao_issued _ _ _ _ _ _ Hok kn Hkn).
Qed.

Lemma prepared_Ok tanh' limits deps request b p : eval (prepare tanh' limits deps request) b = Ok (inr p) ->
  prepared_from tanh' limits deps request (pp_evidence p) (pp_messages p).
Proof.
  pose proof (prepare_wp tanh' limits deps request b) as Hw. unfold eval, wp in *.
  destruct (prepare _ _ _ _ b) as [b' r]. cbn. intros ->. apply Hw.
Qed.

(** ** The sources of an answer *)

(** The evidence each trusted item stands for. *)
Lemma trusted_names request es n kn c items : limits_ok (bk_limits bk) -> retrieved_from request es n kn c items ->
  forall t, In t es -> exists s e d ch, sourced kn s e d ch /\ names t e.
Proof.
  intros Hl [_ _ _ Hissued Ht] t Hin.
  pose proof (trusted_evidence_selection _ _ _ Hl _ _ Ht) as [_ Hsrc _ _ _].
  rewrite List.Forall_forall in Hsrc. specialize (Hsrc t Hin).
  apply List.Exists_exists in Hsrc as (raw & Hraw & Hfrom). apply in_map_iff in Hraw as (item & <- & Hitem).
  destruct Hissued as [->|(tn & w & al & col & s & issued & _ & _ & _ & _ & _ & Hf & _)]; [destruct Hitem|].
  apply list_elem_of_In, list_elem_of_lookup in Hitem as (i & Hi).
  destruct (Forall2_lookup_r _ _ _ _ _ Hf Hi) as (e & _ & Hca & d & ch & Hs & _).
  exists s, e, d, ch. split; [exact Hs|]. eapply from_carried; [exact Hfrom | exact Hca | exact (so_wf _ _ _ _ _ Hs)].
Qed.

(** At delivery, [t] is the text and provenance of a chunk of a published
    document, in an active collection that [allowed] and [refreshed] grant. *)
Definition backed (kn : knowledge) (allowed refreshed : list pyval) (t : TrustedEvidence) : Prop :=
  exists x s e d ch, grants allowed (VStr x) = true /\ grants refreshed (VStr x) = true
    /\ s_collection_id s = strip x /\ sourced kn s e d ch /\ names t e.

(** Two evidences whose identifiers collide. *)
Definition collision : Prop := exists e1 e2, collide "ev_" (evidence_payload e1) (evidence_payload e2).

Lemma covered {A} (l l' : list A) : NoDup l -> length l = length l' -> (forall x, In x l -> In x l') -> forall x, In x l' -> In x l.
Proof.
  intros Hn Hl Hi. apply NoDup_length_incl; [now apply NoDup_ListNoDup | lia | exact Hi].
Qed.

(** A confirmed snapshot has an item for every identifier of the response. *)
Lemma published_item request r : published (professor_deps validate_chunk bk) request r ->
  exists kn allowed refreshed, (exists k, g_knowledge (bk_gate bk) = Some k /\ kn = k Publication)
    /\ (exists live, current_grants (bk_gate bk) (model_dump (pr_retrieval_context request)) = Ok (Some live)
        /\ dict_read "allowed_collection_ids" live = VList refreshed)
    /\ allowed = map VStr (cx_allowed_collection_ids (pr_retrieval_context request))
    /\ (NoDup (map ed_evidence_id (rs_evidence r)) -> forall i, In i (map ed_evidence_id (rs_evidence r)) ->
         exists item, dict_read "evidence_id" item = VStr i
           /\ current kn (model_dump (pr_retrieval_context request)) allowed refreshed item).
Proof.
  unfold published. cbn [d_validator professor_deps]. intros (snapshot & ids & Hv & Hlen & Hids). unfold outcome_of in Hv.
  destruct (validate_publication _ _ _ _) as [[|]|] eqn:E; try discriminate. clear Hv.
  apply validate_publication_confirmed in E as (kn & allowed & refreshed & k & live & items & ids' & Hk & -> & Hg & _ & Ha & Hr & Hs & _ & Hi & Hn & _ & _ & _ & Hcur).
  assert (snapshot = items) as -> by (rewrite <- (mappings_map snapshot), Hs; apply mappings_map).
  injection Ha as <-. exists (k Publication), (map VStr (cx_allowed_collection_ids (pr_retrieval_context request))), refreshed.
  split_and!; [eauto | eauto | reflexivity|].
  intros Hnd i Hin. set (responded := map ed_evidence_id (rs_evidence r)) in *.
  assert (remove_dups responded = responded) as Hrd.
  { clear -Hnd. induction responded as [|x l IH]; [reflexivity|]. apply NoDup_cons in Hnd as [Hx Hnd]. cbn.
    case_decide; [contradiction | now rewrite IH]. }
  rewrite Hrd in Hlen. assert (length ids' = length items) as Hl by (rewrite <- (length_map VStr), <- Hi; apply length_map).
  assert (In i ids') as Hi'.
  { apply (covered ids' responded); [exact Hn | lia | | exact Hin]. intros x Hx.
    assert (In (VStr x) (map (dict_read "evidence_id") items)) as Hx' by (rewrite Hi; now apply in_map).
    apply in_map_iff in Hx' as (item & Hx' & Hitem). rewrite List.Forall_forall in Hids.
    destruct (Hids item Hitem) as (s & Hs' & Hin'). congruence. }
  assert (In (VStr i) (map (dict_read "evidence_id") items)) as Hx by (rewrite Hi; now apply in_map).
  apply in_map_iff in Hx as (item & Hx & Hitem). exists item. split; [exact Hx|]. rewrite List.Forall_forall in Hcur. auto.
Qed.

(** Every trusted item of a published answer is backed, or digests collide. *)
Lemma published_backed request r es messages text : limits_ok (bk_limits bk) ->
  published (professor_deps validate_chunk bk) request r -> prepared_from tanh (bk_limits bk) (professor_deps validate_chunk bk) request es messages ->
  answers (bk_limits bk) text es r ->
  exists kn refreshed, (exists k, g_knowledge (bk_gate bk) = Some k /\ kn = k Publication)
    /\ (exists live, current_grants (bk_gate bk) (model_dump (pr_retrieval_context request)) = Ok (Some live)
        /\ dict_read "allowed_collection_ids" live = VList refreshed)
    /\ Forall (fun t => backed kn (map VStr (cx_allowed_collection_ids (pr_retrieval_context request))) refreshed t \/ collision) es.
Proof.
  intros Hl Hp Hes (_ & Hev & _). apply prepared_retrieved in Hes as (n & kn0 & c & items & Hf).
  apply published_item in Hp as (kn & allowed & refreshed & Hk & Hg & -> & Hitem). exists kn, refreshed. split_and!; auto.
  apply Forall_forall. intros t Ht. apply list_elem_of_In in Ht.
  destruct (trusted_names _ _ _ _ _ _ Hl Hf t Ht) as (s0 & e0 & d0 & ch0 & Hs0 & Hnames).
  assert (map ed_evidence_id (rs_evidence r) = map te_evidence_id es) as Hids by (rewrite Hev, map_map; reflexivity).
  destruct (Hitem) with (i := te_evidence_id t) as (item & Hid & Ha & Hr & s & e & d & ch & Hscope & Hs & He & _).
  - rewrite Hids. exact (sl_distinct _ _ _ _ (trusted_evidence_selection _ _ _ Hl _ _ (rf_trusted _ _ _ _ _ _ Hf))).
  - rewrite Hids. now apply in_map.
  - rewrite He in Hid. injection Hid as Hid. rewrite (nm_evidence _ _ Hnames) in Hid.
    destruct (evidence_binding e e0 (wf_id _ (so_wf _ _ _ _ _ Hs)) (wf_id _ (so_wf _ _ _ _ _ Hs0)) Hid) as [->|Hc].
    + left. apply EvidenceScope_new_Ok in Hscope as (_ & _ & Hc). apply _token_Ok in Hc as ((x & Hx & Hcol) & _).
      rewrite Hx in Ha, Hr. exists x, s, e0, d, ch. split_and!; auto.
    + right. exists e, e0. exact Hc.
Qed.
End backend.

(** ** Cached answers *)

(** A field of a cached citation that is given is that of its source. *)
Definition agrees (citation : list (string * pyval)) (name value : string) : Prop :=
  dict_read name citation = VNone \/ dict_read name citation = VStr value.

(** The citation of a cached answer still names a chunk of a published
    document, in an active collection of the scope [s] of the caller. *)
Record cites_source (kn : knowledge) (context citation : list (string * pyval)) (s : EvidenceScope) (d : Document) (ch : Chunk) : Prop := {
  cs_scope : EvidenceScope_new (dict_read "tenant_id" context) (dict_read "workspace_id" context) (dict_read "collection_id" citation) = Ok s;
  cs_held : held kn s d ch;
  cs_document : dict_read "document_id" citation = VStr (d_document_id d);
  cs_chunk : dict_read "chunk_id" citation = VStr (ch_chunk_id ch);
  cs_checksum : agrees citation "checksum" (str_or (ch_checksum ch) (d_content_checksum d));
  cs_title : agrees citation "title" (str_or (str_or (d_title d) (d_display_filename d)) (d_filename d)) }.

Lemma agrees_with citation name v : negb (is_none (dict_read name citation)) && negb (py_eqb (dict_read name citation) (VStr v)) = false ->
  agrees citation name v.
Proof.
  unfold agrees. generalize (dict_read name citation) as w. intros w. destruct w; [now left|..];
    intros H; apply negb_false_iff, py_eqb_VStr in H; auto.
Qed.

(** What one citation resolves to. *)
Definition resolved (kn : knowledge) (context : list (string * pyval)) (v : pyval) (item : list (string * pyval)) : Prop :=
  exists citation s d ch, v = VDict citation /\ cites_source kn context citation s d ch
    /\ dict_read "collection_id" item = VStr (s_collection_id s).

Lemma resolve_citation_Ok kn context v item : resolve_citation kn context v = Ok (Some item) -> resolved kn context v item.
Proof.
  unfold resolve_citation. destruct v as [| | | | | |citation]; try discriminate.
  destruct (dict_read "collection_id" citation) as [| | | |c| |] eqn:Ec; try discriminate.
  destruct (is_empty c); [discriminate|]. intros H. apply bind_Ok in H as (s & Hs & H). apply from_evidence_Ok in Hs.
  destruct (resolve kn (C_mapping citation) s) as [rec|] eqn:Er; [|discriminate]. cbv zeta in H.
  destruct (_ || _) eqn:Ed in H; [discriminate|]. apply orb_false_iff in Ed as [Ed1 Ed2].
  apply bind_Ok in H as (e & He & H). apply from_evidence_Ok in He. apply Ok_inj in H. injection H as ->.
  pose proof (issue_sourced _ _ _ _ _ _ _ Er He (scope_new_wf _ _ _ _ Hs) eq_refl) as (d' & ch' & Hsrc & _).
  apply resolve_Some in Er as (d & ch & Hc & -> & Hd & Hk). exists citation, s, d, ch. split_and!; [reflexivity | |].
  - constructor; auto; [now rewrite Ec | now apply agrees_with in Ed1 | now apply agrees_with in Ed2].
  - destruct (so_scope _ _ _ _ _ Hsrc) as (_ & _ & <-). reflexivity.
Qed.

Lemma resolve_snapshot_Ok kn context citations : forall items, resolve_snapshot kn context citations = Ok (Some items) ->
  List.Forall2 (resolved kn context) citations items.
Proof.
  induction citations as [|c cs IH]; intros items; cbn [resolve_snapshot]; [intros [= <-]; constructor|].
  intros H. apply bind_Ok in H as ([item|] & Hi & H); [|discriminate]. apply bind_Ok in H as ([rest|] & Hr & H); [|discriminate].
  apply Ok_inj in H. injection H as ->. constructor; [now apply resolve_citation_Ok | now apply IH].
Qed.

Lemma resolved_citations kn context vs items : List.Forall2 (resolved kn context) vs items ->
  exists citations, vs = map VDict citations
    /\ List.Forall2 (fun c item => exists s d ch, cites_source kn context c s d ch
                       /\ dict_read "collection_id" item = VStr (s_collection_id s)) citations items.
Proof.
  induction 1 as [|v item vs items (c & s & d & ch & -> & Hs & Hc) _ (cs & -> & Hf)]; [exists []; split; [reflexivity | constructor]|].
  exists (c :: cs). split; [reflexivity|]. constructor; eauto 8.
Qed.

(** ** What the chat backend guarantees

    The provider is reached only for the reviewed requests, every source of an
    answer is still published when the answer is delivered, and so is every
    source of an answer that is served again. *)

(** ** A sample backend *)

(** The identifiers the gate issues for the sample document. *)
Definition sample_ids : list string :=
  map (fun item => match dict_read "evidence_id" item with VStr s => s | _ => EmptyString end) (sample_items "Press upload.").

Definition sample_answer : string := "Press upload [cite:" +:+ from_option id EmptyString (head sample_ids) +:+ "].".

Definition sample_provider : provider := {|
  pv_chat_completion := Some (fun _ _ => Returns (inl (mk_completion "m" sample_answer [] F_stop "corr" None)));
  pv_chat_completion_stream := None |}.

Definition sample_backend (before after : string) : backend := {|
  bk_gate := sample_gate before after; bk_provider := sample_provider; bk_lease := None; bk_limits := sample_limits |}.

Definition sample_generate (before after message : string) : RequestBudget * res backend_error (list (string * pyval)) :=
  generate sample_tanh (fun _ => None) (fun _ => None) (fun _ => EmptyString) (sample_backend before after) "owner" quiet
    message sample_dump "conv-1" [].

(** ** The provider *)

(** C3: with the clinical policy, a request reaches the provider, in one piece
    or as a stream, whatever the retrieval, the leases and the timeouts do,
    only if it has no history, reads as one of the reviewed sentences, and
    the canonical knowledge is at hand. *)
Theorem provider_only_for_allowlisted tanh validate_result validate_chunk str_of bk owner time message context conversation_id history :
  g_classifier (bk_gate bk) = Some clinical_policy ->
  C_provider ∈ b_calls (fst (generate tanh validate_result validate_chunk str_of bk owner time message context conversation_id history))
  \/ C_provider ∈ b_calls (fst (generate_stream tanh validate_result validate_chunk str_of bk owner time message context conversation_id history)) ->
  prior_messages str_of history = Ok []
  /\ (exists text, _normalize (VStr message) = Some text /\ allowlisted text) /\ g_knowledge (bk_gate bk) <> None.
Proof.
  intros Hpolicy. unfold generate, generate_stream.
  destruct (build_request _ _ _ _ _) as [request|e] eqn:Eb; [|cbn; rewrite elem_of_nil; tauto].
  apply build_request_Ok in Eb as (prior & cx & Hprior & _ & Hreq).
  destruct (clinical_policy_spec (VStr message) (VList (map VStr (map pm_content prior)))) as (c & Hc & Ha & _).
  intros Hcall. destruct (rc_allows_answer c) eqn:Eal, (g_knowledge (bk_gate bk)) as [k|] eqn:Ek.
  1: { destruct (proj1 Ha eq_refl) as [Hh Htext]. split_and!; [|exact Htext | discriminate].
       destruct prior; [exact Hprior | discriminate Hh]. }
  all: exfalso; destruct (refused_calls tanh validate_result validate_chunk (bk_limits bk) (professor_deps validate_chunk bk) owner time request) as [H1 H2].
  all: try (match type of Hcall with C_provider ∈ b_calls (fst ?x) \/ C_provider ∈ b_calls (fst ?y) =>
    assert (fst x = exec (run tanh validate_result (bk_limits bk) (professor_deps validate_chunk bk) owner time request) new_budget) as E1
      by (unfold exec; now destruct (run _ _ _ _ _ _ _ _));
    assert (fst y = exec (stream tanh validate_result validate_chunk (bk_limits bk) (professor_deps validate_chunk bk) owner time request) new_budget) as E2
      by (unfold exec; now destruct (stream _ _ _ _ _ _ _ _ _)); rewrite E1, E2 in Hcall end; tauto).
  all: intros b p Hprep; pose proof (prepared_Ok _ _ _ _ _ _ Hprep) as Hes.
  all: apply prepared_retrieved in Hes as (n & kn & c' & items & [Hc' Hal Hk _ _]).
  all: rewrite Hreq, Hpolicy in Hc'; cbn [pr_query pr_history] in Hc'; rewrite Hc in Hc'; injection Hc' as <-.
  all: unfold knowledge_at in Hk; rewrite Ek in Hk; cbn in Hk; congruence.
Qed.

(** A reviewed question reaches the provider; nothing else does. *)
Lemma provider_only_for_allowlisted_witness :
  bool_decide (C_provider ∈ b_calls (fst (sample_generate "Press upload." "Press upload." "How do I upload a document?"))) = true
  /\ bool_decide (C_provider ∈ b_calls (fst (sample_generate "Press upload." "Press upload." "How do I dose it?"))) = false
  /\ prior_messages (fun _ => EmptyString) [] = Ok []
  /\ exists text, _normalize (VStr "How do I upload a document?") = Some text /\ allowlisted text.
Proof.
  assert (bool_decide (C_provider ∈ b_calls (fst (sample_generate "Press upload." "Press upload." "How do I upload a document?"))) = true) as H
    by (vm_compute; reflexivity).
  split; [exact H | split; [vm_compute; reflexivity|]]. apply bool_decide_eq_true in H.
  destruct (provider_only_for_allowlisted sample_tanh (fun _ => None) (fun _ => None) (fun _ => EmptyString)
    (sample_backend "Press upload." "Press upload.") "owner" quiet "How do I upload a document?" sample_dump "conv-1" []
    eq_refl (or_introl H)) as (H1 & H2 & _). exact (conj H1 H2).
Defined.

(** ** The sources of a delivered answer *)

(** The translation of a refusal, or of an approved answer to [text] whose
    every cited source is published at delivery. *)
Definition sourced_result (bk : backend) (request : ProfessorRequest) (result : list (string * pyval)) : Prop :=
  exists r, result = result_dict r /\
    (refusal (bk_limits bk) r \/
     exists kn refreshed es used text,
       (exists k, g_knowledge (bk_gate bk) = Some k /\ kn = k Publication)
       /\ (exists live, current_grants (bk_gate bk) (model_dump (pr_retrieval_context request)) = Ok (Some live)
           /\ dict_read "allowed_collection_ids" live = VList refreshed)
       /\ answers (bk_limits bk) text es r /\ rs_citations r = map citation used /\ cites text es used
       /\ Forall (fun t => backed kn (map VStr (cx_allowed_collection_ids (pr_retrieval_context request))) refreshed t \/ collision) es).

Lemma translate_Ok str_of r result : translate str_of r = Ok result -> result = result_dict r.
Proof. unfold translate. destruct (rs_evidence_status r); intros H; try discriminate; now apply Ok_inj in H. Qed.

Lemma delivered_sourced tanh validate_chunk values bk request given r result str_of : all_limits values = Ok (bk_limits bk) ->
  delivered tanh (bk_limits bk) (professor_deps validate_chunk bk) request given r -> translate str_of r = Ok result ->
  sourced_result bk request result.
Proof.
  intros Hl Hd Ht. apply all_limits_ok in Hl. exists r. split; [now apply translate_Ok in Ht|].
  destruct Hd as [H|(Hp & es & ms & text & Hes & _ & Ha)]; [now left | right].
  destruct (published_backed _ _ _ _ _ _ _ _ Hl Hp Hes Ha) as (kn & refreshed & Hk & Hg & Hb).
  destruct Hes as (t & v & _ & _ & Htrust & _). destruct (answers_cite _ _ _ _ _ _ _ Hl Htrust Ha) as (used & Hu & Hc).
  exists kn, refreshed, es, used, text. auto 8.
Qed.

Lemma translated_final str_of events : forall ending result,
  In (SE_final result) (fst (translate_events str_of events ending)) ->
  exists pre r post, events = pre ++ Final r :: post /\ translate str_of r = Ok result.
Proof.
  induction events as [|[text|r] events IH]; intros ending result; cbn [translate_events]; [intros []| |].
  - destruct (translate_events str_of events ending) as [l e] eqn:E. specialize (IH ending result). rewrite E in IH. cbn.
    intros [[=]|H]. destruct (IH H) as (pre & r & post & -> & Hr). now exists (Delta text :: pre), r, post.
  - destruct (translate str_of r) as [res|] eqn:Er; [|intros []].
    destruct (translate_events str_of events ending) as [l e] eqn:E. specialize (IH ending result). rewrite E in IH. cbn.
    intros [[= ->]|H]; [now exists [], r, events|].
    destruct (IH H) as (pre & r' & post & -> & Hr). now exists (Final r :: pre), r', post.
Qed.



(** ** Answers served again *)

(** C21: a stored answer is served again only if it cites nothing and does not
    claim approved evidence, or if the caller may query now and each of its
    one to eight citations still names, under the checksum and title it
    gives, a chunk of a published document in an active collection of the
    caller's scope that the caller's and the live grants both allow. *)
Theorem cached_answer_current bk context response :
  cached_response_valid bk context response = Ok true ->
  (dict_read "citations" response = VList []
   /\ forall m, dict_read "metadata" response = VDict m -> dict_read "evidence_status" m <> VStr "APPROVED_EVIDENCE")
  \/ exists k live allowed refreshed citations,
       g_knowledge (bk_gate bk) = Some k /\ current_grants (bk_gate bk) context = Ok (Some live)
       /\ may_query (dict_read "permissions" context) = true
       /\ dict_read "allowed_collection_ids" context = VList allowed /\ dict_read "allowed_collection_ids" live = VList refreshed
       /\ dict_read "citations" response = VList (map VDict citations) /\ (1 <= length citations <= 8)%nat
       /\ Forall (fun citation => exists s d ch, cites_source (k Publication) context citation s d ch
                   /\ grants allowed (VStr (s_collection_id s)) = true /\ grants refreshed (VStr (s_collection_id s)) = true) citations.
Proof.
  unfold cached_response_valid, validate_cached_response.
  destruct (dict_read "citations" response) as [| | | | |l|] eqn:Ec; try discriminate. destruct l as [|v l].
  - intros H. apply Ok_inj in H. left. split; [reflexivity|]. intros m Hm He. rewrite Hm, He in H. discriminate.
  - right. destruct (g_knowledge (bk_gate bk)) as [k|] eqn:Ek; [|discriminate]. destruct (negb _) eqn:El; [discriminate|].
    apply negb_false_iff, Nat.leb_le in El. destruct (resolve_snapshot _ _ _) as [[items|]|] eqn:Es; try discriminate.
    apply resolve_snapshot_Ok in Es.
    apply validate_publication_confirmed in H as (kn & allowed & refreshed & k' & live & items' & ids & Hk & -> & Hg & Hq & Ha & Hr & Hi & _ & _ & _ & _ & _ & _ & Hcur).
    rewrite Ek in Hk. injection Hk as <-. assert (items' = items) as -> by (rewrite <- (mappings_map items'), <- Hi; apply mappings_map).
    destruct (resolved_citations _ _ _ _ Es) as (citations & Hv & Hf). exists k, live, allowed, refreshed, citations.
    rewrite <- Hv. split_and!; auto.
    + apply (f_equal length) in Hv. rewrite length_map in Hv. cbn in Hv. lia.
    + apply (f_equal length) in Hv. rewrite length_map in Hv. lia.
    + clear -Hf Hcur. induction Hf as [|c item cs items (s & d & ch & Hs & Hcol) Hf IH]; constructor.
      * inversion Hcur as [|? ? (G1 & G2 & _)]; subst. rewrite Hcol in G1, G2. eauto 8.
      * inversion Hcur; subst. auto.
Qed.

(** The sample answer may be served again; an answer citing an unknown
    document may not. *)
Lemma cached_answer_current_witness : exists k,
  g_knowledge (bk_gate (sample_backend "Press upload." "Press upload.")) = Some k
  /\ cached_response_valid (sample_backend "Press upload." "Press upload.") sample_dump
       [("citations", VList [VDict [("document_id", VStr "doc-1"); ("chunk_id", VStr "doc-1-0"); ("collection_id", VStr "c1")]])] = Ok true
  /\ cached_response_valid (sample_backend "Press upload." "Press upload.") sample_dump
       [("citations", VList [VDict [("document_id", VStr "doc-9"); ("chunk_id", VStr "doc-1-0"); ("collection_id", VStr "c1")]])] = Ok false.
Proof.
  assert (cached_response_valid (sample_backend "Press upload." "Press upload.") sample_dump
       [("citations", VList [VDict [("document_id", VStr "doc-1"); ("chunk_id", VStr "doc-1-0"); ("collection_id", VStr "c1")]])] = Ok true) as H
    by (vm_compute; reflexivity).
  destruct (cached_answer_current _ _ _ H) as [[H1 _]|(k & _ & _ & _ & _ & Hk & _)]; [discriminate H1|].
  exists k. split; [exact Hk | split; [exact H | vm_compute; reflexivity]].
Defined.
