(* ===== verification/RetrievalText.v ===== *)
(** * Tokens and lexical overlap (packages/retrieval, sparse.py)

    The tokens of a text, the content terms of a query, and the sparse vectors
    behind the lexical score.  [math.log], [math.sqrt] and the MD5 digest are
    arguments; [sum] is the compensated summation of CPython 3.12. *)

From Stdlib Require Import Ascii String.
From stdpp Require Import strings list.
From S2P Require Import Prelude PyFloat PyStr PyVal.

Local Open Scope string_scope.
Local Open Scope Z_scope.
Local Open Scope list_scope.

(** What the retrieval of a query can raise. *)
Inductive ret_error : Type :=
| RetValueError | RetKeyError | RetTypeError | RetAttributeError | RetOverflowError
| RetUnavailable                      (* [QdrantHybridUnavailableError] *)
| RetDependency                       (* whatever a backend or an embedding raised *)
| RetLifecycle                        (* [LifecycleAuthorityError] *)
| RetValidationError.

(** ** Sums *)

Definition fabs (f : pyfloat) : pyfloat := match f with Fin m => Fin (Z.abs m) | Inf _ => Inf false | NaN => NaN end.

(** Neumaier's loop: the running sum and its compensation. *)
Fixpoint neumaier (total comp : pyfloat) (l : list pyfloat) : pyfloat * pyfloat :=
  match l with
  | [] => (total, comp)
  | x :: l' =>
      let t := fadd total x in
      let c := if fle (fabs x) (fabs total) then fadd (fsub total t) x else fadd (fsub x t) total in
      neumaier t (fadd comp c) l'
  end.

(** [sum(l)] of floats; zero without items. *)
Definition py_sum (l : list pyfloat) : pyfloat :=
  match l with
  | [] => Fin 0
  | x :: l' =>
      let '(total, comp) := neumaier x (Fin 0) l' in
      if negb (feq comp (Fin 0)) && fisfinite comp then fadd total comp else total
  end.

(** A quotient whose divisor the code has tested. *)
Definition fquot (x y : pyfloat) : pyfloat := from_option id NaN (fdiv x y).

(** ** Tokens *)

Definition accented (before : string) (c : Z) (after : string) : string := before +:+ String (chr c) after.

Definition MEANINGLESS_QUERY_TOKENS : list string :=
  ["a"; "ao"; "aos"; "as"; "ate"; accented "at" 233 EmptyString; "com"; "como"; "da"; "das"; "de"; "do"; "dos";
   "e"; "em"; "essa"; "esse"; "esta"; "este"; "foi"; "na"; "nas"; "no"; "nos"; "o"; "os";
   "ou"; "para"; "por"; "qual"; "quais"; "quando"; "quanto"; "que"; "se"; "sem"; "ser";
   "sao"; accented "s" 227 "o"; "sua"; "suas"; "seu"; "seus"; "uma"; "um"; "usa"; "usada"; "usado";
   "utiliza"; "utilizado"].

Definition LOW_SIGNAL_DOMAIN_TOKENS : list string :=
  ["animal"; "animais"; "paciente"; "pacientes";
   "gato"; "gatos"; "felino"; "felinos"; "cat"; "cats"; "feline"; "felines";
   "cao"; "caes"; accented "c" 227 "o"; accented "c" 227 "es"; "cachorro"; "cachorros"; "cachorra"; "cachorras";
   "canino"; "caninos"; "dog"; "dogs"; "canine"; "canines";
   "sintoma"; "sintomas"; "sinal"; "sinais";
   "doenca"; accented "doen" 231 "as"; accented "doen" 231 "a"; "doencas";
   "protocolo"; "protocolos"; "protocol"; "protocols"; "approach"; "management"].

(** [\w] on one character. *)
Definition word_char (c : ascii) : bool := isalnum c || is_char 95 c.

(** [re.findall(r"\w{2,}", s)]: the maximal runs of two characters or more. *)
Fixpoint word_runs (current s : string) : list string :=
  let done := if 2 <=? slen current then [current] else [] in
  match s with
  | EmptyString => done
  | String c s' => if word_char c then word_runs (current +:+ String c EmptyString) s' else done ++ word_runs EmptyString s'
  end.

(** [(v or "").lower()], which only a string or an empty value has. *)
Definition text_lower (v : pyval) : res ret_error string :=
  match v with
  | VStr s => Ok (lower s)
  | _ => if py_truthy v then Err RetAttributeError else Ok EmptyString
  end.

Definition tokens_of (lowered : string) : list string :=
  List.filter (fun t => negb (str_in t MEANINGLESS_QUERY_TOKENS)) (word_runs EmptyString lowered).

Definition tokenize_terms (text : pyval) : res ret_error (list string) :=
  s ← text_lower text;
  Ok (tokens_of s).

(** [str.isdigit] on a nonempty string: digits and superscripts. *)
Definition digit_like (c : ascii) : bool := is_digit c || is_char 178 c || is_char 179 c || is_char 185 c.
Definition isdigit (s : string) : bool := negb (is_empty s) && sall digit_like s.

(** The set of the content terms, without repetitions. *)
Definition content_query_terms (query : string) : list string :=
  remove_dups (List.filter (fun t => negb (str_in t LOW_SIGNAL_DOMAIN_TOKENS) && negb (isdigit t)) (tokens_of (lower query))).

(** [content_query_terms(query) or set(tokenize_terms(query))]. *)
Definition query_vocabulary (query : string) : list string :=
  match content_query_terms query with
  | [] => remove_dups (tokens_of (lower query))
  | terms => terms
  end.

(** ** Sparse vectors *)

Section sparse.
Context (log sqrt : pyfloat -> pyfloat) (md5 : string -> Z).

Definition SPARSE_MODULUS : Z := 100000.

Definition sparse_hash (token : string) : Z := md5 token mod SPARSE_MODULUS.

(** The counts of the tokens, in order of their first occurrence. *)
Definition frequencies (tokens : list string) : list (string * Z) :=
  fold_left (fun freq t => dict_set t (from_option id 0 (dict_get t freq) + 1) freq) tokens [].

Fixpoint index_get (i : Z) (v : list (Z * pyfloat)) : pyfloat :=
  match v with
  | [] => Fin 0
  | (j, x) :: v' => if i =? j then x else index_get i v'
  end.

Fixpoint index_add (i : Z) (x : pyfloat) (v : list (Z * pyfloat)) : list (Z * pyfloat) :=
  match v with
  | [] => [(i, fadd (Fin 0) x)]
  | (j, y) :: v' => if i =? j then (j, fadd y x) :: v' else (j, y) :: index_add i x v'
  end.

Definition sparse_vector (text : pyval) : res ret_error (list (Z * pyfloat)) :=
  tokens ← tokenize_terms text;
  Ok (fold_left (fun v tc => index_add (sparse_hash (fst tc)) (log (lit (1 + snd tc) 1)) v) (frequencies tokens) []).

Definition norm (l : list pyfloat) : pyfloat := sqrt (py_sum (map (fun x => fmul x x) l)).

Definition sparse_overlap_score (query : string) (text : pyval) : res ret_error pyfloat :=
  qvec ← sparse_vector (VStr query);
  tvec ← sparse_vector text;
  match qvec, tvec with
  | [], _ | _, [] => Ok (Fin 0)
  | _, _ =>
      let dot := py_sum (map (fun iq => fmul (snd iq) (index_get (fst iq) tvec)) qvec) in
      let qnorm := norm (map snd qvec) in
      let tnorm := norm (map snd tvec) in
      if fle qnorm (Fin 0) || fle tnorm (Fin 0) then Ok (Fin 0) else Ok (fquot dot (fmul qnorm tnorm))
  end.

(** [_cosine]; [zip] stops with the shorter vector. *)
Definition _cosine (a b : list pyfloat) : pyfloat :=
  let dot := py_sum (zip_with fmul a b) in
  let na := norm a in
  let nb := norm b in
  if flt (Fin 0) na && flt (Fin 0) nb then fquot dot (fmul na nb) else Fin 0.
End sparse.

Example word_runs_ex : word_runs EmptyString "a bc-d_e 42" = ["bc"; "d_e"; "42"].
Proof. reflexivity. Qed.
Example content_terms_ex : content_query_terms "Qual a dose de 12 mg para gatos, dose?" = ["mg"; "dose"].
Proof. vm_compute. reflexivity. Qed.
Example py_sum_ex : py_sum (repeat (lit 1 10) 10) = lit 1 1.
Proof. vm_compute. reflexivity. Qed.
