(* ===== verification/Fusion.v ===== *)
(** * Reciprocal rank fusion (packages/retrieval, fusion.py)

    Dense and sparse rows of one chunk are merged into one candidate: its
    score is the sum of the reciprocal ranks, its provenance the first value
    either row gives. *)

From Stdlib Require Import Ascii String.
From stdpp Require Import strings list.
From S2P Require Import Prelude PyFloat PyStr PyVal PyNumber RetrievalText.

Local Open Scope string_scope.
Local Open Scope Z_scope.
Local Open Scope list_scope.

(** A candidate, as the code passes it around. *)
Definition row : Type := list (string * pyval).

Definition RRF_K : Z := 60.

Definition _SCORE_FIELDS : list string := ["score"; "dense_score"; "sparse_score"].

(** Null and empty values are absent; zeroes are not. *)
Definition _has_value (v : pyval) : bool :=
  match v with
  | VNone => false
  | VStr s => negb (is_empty s)
  | VDict d => match d with [] => false | _ => true end
  | VList l => match l with [] => false | _ => true end
  | _ => true
  end.

Definition py_or (a b : pyval) : pyval := if py_truthy a then a else b.

Definition _merge_provenance (target result : row) : row :=
  fold_left (fun t fv =>
    if str_in (fst fv) _SCORE_FIELDS then t
    else if negb (_has_value (dict_read (fst fv) t)) && _has_value (snd fv) then dict_set (fst fv) (snd fv) t
    else t) result target.

Definition _finalize_provenance (item : row) : row :=
  let value := dict_read "page_start" item in
  let '(value, item) := if _has_value value then (value, item)
                        else let v := dict_read "page_hint" item in (v, dict_set "page_start" v item) in
  let item := if _has_value (dict_read "page_end" item) then item else dict_set "page_end" value item in
  let value := dict_read "source" item in
  let '(value, item) :=
    if _has_value value then (value, item)
    else let v := py_or (py_or (dict_read "source_title" item) (dict_read "document_filename" item)) (VStr EmptyString) in
         (v, dict_set "source" v item) in
  let item := if _has_value (dict_read "document_filename" item) then item
              else dict_set "document_filename" (py_or value (VStr EmptyString)) item in
  if _has_value (dict_read "title" item) then item
  else dict_set "title" (py_or (py_or (dict_read "source_title" item) value) (VStr EmptyString)) item.

Definition setdefault (name : string) (v : pyval) (d : row) : row :=
  match dict_get name d with Some _ => d | None => dict_set name v d end.

Definition _blank (result : row) (chunk_id : pyval) : row :=
  let item := dict_set "chunk_id" chunk_id result in
  let item := setdefault "document_id" VNone item in
  let item := setdefault "workspace_id" VNone item in
  let item := setdefault "text" (VStr EmptyString) item in
  let item := setdefault "page_start" (dict_read "page_hint" item) item in
  let item := setdefault "page_end" VNone item in
  let item := setdefault "source" VNone item in
  let item := setdefault "title" VNone item in
  let item := setdefault "document_filename" VNone item in
  let item := setdefault "section" VNone item in
  let item := setdefault "checksum" VNone item in
  let item := if py_truthy (dict_read "collection_id" item) then item else dict_set "collection_id" (VStr "rag_phase0") item in
  let item := dict_set "score" (VFloat (Fin 0)) item in
  let item := dict_set "dense_score" (VFloat (Fin 0)) item in
  dict_set "sparse_score" (VFloat (Fin 0)) item.

(** ** The table of the candidates *)

(** A dict from chunk identifiers to candidates, in insertion order. *)
Definition table : Type := list (pyval * row).

Fixpoint table_get (k : pyval) (t : table) : option row :=
  match t with
  | [] => None
  | (k', d) :: t' => if py_eqb k k' then Some d else table_get k t'
  end.

Fixpoint table_set (k : pyval) (d : row) (t : table) : table :=
  match t with
  | [] => [(k, d)]
  | (k', d') :: t' => if py_eqb k k' then (k', d) :: t' else (k', d') :: table_set k d t'
  end.

(** A field that [_blank] has set to a float. *)
Definition float_field (name : string) (d : row) : pyfloat :=
  match dict_read name d with VFloat f => f | _ => Fin 0 end.

(** [float(v or 0.0)]. *)
Definition float_or_zero (v : pyval) : res ret_error pyfloat :=
  if py_truthy v then
    match py_float v with
    | FloatOk f => Ok f
    | FloatInvalid => Err (match v with VStr _ => RetValueError | _ => RetTypeError end)
    | FloatOverflow => Err RetOverflowError
    end
  else Ok (Fin 0).

(** [result["chunk_id"]], as a key. *)
Definition chunk_key (result : row) : res ret_error pyval :=
  match dict_get "chunk_id" result with
  | None => Err RetKeyError
  | Some v => raise_if (negb (py_hashable v)) RetTypeError;; Ok v
  end.

(** [1.0 / (k + rank + 1)]. *)
Definition reciprocal (rank : nat) : pyfloat := lit 1 (RRF_K + Z.of_nat rank + 1).

(** [item[name] = max(item[name], x)]. *)
Definition raise_score (name : string) (x : pyfloat) (item : row) : row :=
  dict_set name (VFloat (fmax (float_field name item) x)) item.

Definition add_score (x : pyfloat) (item : row) : row := dict_set "score" (VFloat (fadd (float_field "score" item) x)) item.

Fixpoint fuse_dense (rank : nat) (results : list row) (scores : table) : res ret_error table :=
  match results with
  | [] => Ok scores
  | result :: results' =>
      chunk_id ← chunk_key result;
      let item := match table_get chunk_id scores with
                  | None => _blank result chunk_id
                  | Some target => _merge_provenance target result
                  end in
      let item := add_score (reciprocal rank) item in
      x ← float_or_zero (from_option id (VFloat (Fin 0)) (dict_get "score" result));
      fuse_dense (S rank) results' (table_set chunk_id (raise_score "dense_score" x item) scores)
  end.

Fixpoint fuse_sparse (rank : nat) (results : list row) (scores : table) : res ret_error table :=
  match results with
  | [] => Ok scores
  | result :: results' =>
      chunk_id ← chunk_key result;
      let item := match table_get chunk_id scores with
                  | Some target => add_score (reciprocal rank) (_merge_provenance target result)
                  | None => dict_set "score" (VFloat (reciprocal rank)) (_blank result chunk_id)
                  end in
      x ← float_or_zero (from_option id (from_option id (VFloat (Fin 0)) (dict_get "score" result)) (dict_get "sparse_score" result));
      fuse_sparse (S rank) results' (table_set chunk_id (raise_score "sparse_score" x item) scores)
  end.

(** [sorted(l, key=..., reverse=True)]: stable, by descending key. *)
Definition score_leb (a b : row) : bool := negb (flt (float_field "score" a) (float_field "score" b)).

Definition rrf_fusion (dense_results sparse_results : list row) : res ret_error (list row) :=
  t ← fuse_dense O dense_results [];
  t ← fuse_sparse O sparse_results t;
  Ok (sort_by score_leb (map (fun kd => _finalize_provenance (snd kd)) t)).
