(* ===== verification/Retrieval.v ===== *)
(** * The retrieval engine (packages/retrieval, backends.py and pipeline.py)

    Normalise the query, search a backend, drop what is out of scope, fuse,
    deduplicate, rank, rerank, and select a context within a budget.  The
    backends and the reranker are arguments; [InMemoryBackend] and the ranking
    of [QdrantBackend] are defined.  [math.tanh], [math.sqrt], [math.log], the
    MD5 digest, the embedding and [str] of an object that is not a string are
    arguments. *)

From Stdlib Require Import Ascii String.
From stdpp Require Import strings list.
From S2P Require Import Prelude PyFloat PyStr PyVal PyNumber ProfessorModels RequestPolicy RetrievalText Fusion.

Local Open Scope string_scope.
Local Open Scope Z_scope.
Local Open Scope list_scope.

(** ** Scope *)

(** [_in_scope]; the grants are a set of hashable values. *)
Definition _in_scope (chunk : row) (workspace_id : pyval) (allowed : list pyval) (tenant_id : string) : bool :=
  is_str (dict_read "tenant_id" chunk) tenant_id
  && py_eqb (dict_read "workspace_id" chunk) workspace_id
  && match dict_read "collection_id" chunk with
     | VStr collection => negb (is_empty collection) && (existsb (fun v => is_str v "*") allowed || existsb (fun v => is_str v collection) allowed)
     | _ => false
     end.

(** ** Backends *)

(** A search of a backend: the two legs, and what it says of itself. *)
Record search_result : Type := mk_search {
  sr_dense : list row; sr_sparse : list row;
  sr_backend : option string; sr_fallback_used : bool; sr_metadata : list (string * pyval) }.

Record search_request : Type := mk_search_request {
  q_query : string; q_vector : list pyfloat; q_workspace : pyval; q_allowed : list pyval;
  q_chunks : list row; q_limit : Z; q_tenant : string }.

Record search_backend : Type := {
  be_name : string;
  be_search : search_request -> res ret_error search_result }.

Section memory.
Context (log sqrt : pyfloat -> pyfloat) (md5 : string -> Z).

(** The components of [c.get("vector") or []]; an int counts as the float it
    is equal to. *)
Definition component (v : pyval) : res ret_error pyfloat :=
  match v with
  | VFloat f => Ok f
  | VInt n => match float_of_int n with Some f => Ok f | None => Err RetOverflowError end
  | VBool b => Ok (Fin ((if b then 1 else 0) * scale))
  | _ => Err RetTypeError
  end.

Definition vector_of (v : pyval) : res ret_error (list pyfloat) :=
  if py_truthy v then match v with VList l => res_mapM component l | _ => Err RetTypeError end else Ok [].

Definition dense_row (query_vector : list pyfloat) (c : row) : res ret_error row :=
  v ← vector_of (dict_read "vector" c);
  Ok (dict_set "score" (VFloat (_cosine sqrt query_vector v)) c).

Definition sparse_row (query : string) (c : row) : res ret_error row :=
  s ← sparse_overlap_score log sqrt md5 query (from_option id (VStr EmptyString) (dict_get "text" c));
  Ok (dict_set "sparse_score" (VFloat s) (dict_set "score" (VFloat s) c)).

(** [InMemoryBackend.search]. *)
Definition memory_search (r : search_request) : res ret_error search_result :=
  raise_if (negb (forallb py_hashable (q_allowed r))) RetTypeError;;
  let keep := fun c => _in_scope c (q_workspace r) (q_allowed r) (q_tenant r) in
  let scoped := List.filter keep (q_chunks r) in
  dense ← res_mapM (dense_row (q_vector r)) scoped;
  sparse ← res_mapM (sparse_row (q_query r)) scoped;
  let first := fun l => firstn (Z.to_nat (q_limit r)) (sort_by score_leb l) in
  Ok (mk_search (List.filter keep (first dense)) (List.filter keep (first sparse)) None false []).

Definition InMemoryBackend : search_backend := {| be_name := "memory"; be_search := memory_search |}.

(** [DiskFallbackBackend]: the same search over the chunks of its caller. *)
Definition DiskFallbackBackend : search_backend := {| be_name := "disk-fallback"; be_search := memory_search |}.
End memory.

(** [QdrantBackend._rank]: the best row of each chunk, by descending score and
    then by identifier. *)
Fixpoint best_of (candidates : list row) (deduped : table) : table :=
  match candidates with
  | [] => deduped
  | item :: candidates' =>
      let key := dict_read "chunk_id" item in
      best_of candidates'
        match table_get key deduped with
        | Some previous => if flt (float_field "score" previous) (float_field "score" item) then table_set key item deduped else deduped
        | None => table_set key item deduped
        end
  end.

Definition rank_leb (a b : row) : bool :=
  let x := float_field "score" a in
  let y := float_field "score" b in
  flt y x || (negb (flt x y)
              && match dict_read "chunk_id" a, dict_read "chunk_id" b with VStr s, VStr t => str_leb s t | _, _ => true end).

Definition _rank (candidates : list row) (limit : Z) : list row :=
  firstn (Z.to_nat limit) (sort_by rank_leb (map snd (best_of candidates []))).

(** One hit of the HTTP adapter: its payload and its score. *)
Definition http_candidate (workspace_id : pyval) (allowed : list pyval) (tenant_id : string) (sparse : bool)
    (hit : pyval) : option row :=
  match hit with
  | VDict h =>
      match dict_read "payload" h with
      | VDict payload =>
          if negb (_in_scope payload workspace_id allowed tenant_id) then None
          else match dict_read "chunk_id" payload, dict_read "score" h with
          | _, VBool _ => None
          | VStr chunk_id, score =>
              if is_empty chunk_id then None
              else match py_float score with
              | FloatOk f =>
                  if negb (fisfinite f) || (sparse && fle f (Fin 0)) then None
                  else let item := dict_set "score" (VFloat f) payload in
                       Some (if sparse then dict_set "sparse_score" (VFloat f) item else item)
              | _ => None
              end
          | _, _ => None
          end
      | _ => None
      end
  | _ => None
  end.

Definition _http_candidates (hits : list pyval) (workspace_id : pyval) (allowed : list pyval) (tenant_id : string)
    (sparse : bool) : list row :=
  flat_map (fun hit => match http_candidate workspace_id allowed tenant_id sparse hit with Some r => [r] | None => [] end) hits.

(** What [search_hybrid] of the store returns. *)
Record hybrid_result : Type := mk_hybrid {
  hy_dense : list pyval; hy_sparse : list pyval; hy_mode : string; hy_degraded : bool; hy_metadata : list (string * pyval) }.

(** [QdrantBackend.search] on a store with [search_hybrid]. *)
Definition qdrant_search (max_query_results : Z) (search_hybrid : search_request -> res ret_error hybrid_result)
    (r : search_request) : res ret_error search_result :=
  raise_if (negb (forallb py_hashable (q_allowed r))) RetTypeError;;
  match q_allowed r with
  | [] => Ok (mk_search [] [] None false [])
  | allowed =>
      result ← search_hybrid (mk_search_request (q_query r) (q_vector r) (q_workspace r) allowed []
                                (Z.min (q_limit r) max_query_results) (q_tenant r));
      let leg := fun hits sparse => _rank (_http_candidates hits (q_workspace r) allowed (q_tenant r) sparse) (q_limit r) in
      Ok (mk_search (leg (hy_dense result) false) (leg (hy_sparse result) true)
            (Some ("qdrant-http-" +:+ hy_mode result)) (hy_degraded result) (hy_metadata result))
  end.

(** ** Queries *)

(** [re.sub(r"\s+", " ", s).strip()]. *)
Definition collapse (s : string) : string := join " " (split_words EmptyString s).

Definition normalize_query (query : string) : res ret_error string :=
  let cleaned := collapse query in
  raise_if (is_empty cleaned) RetValueError;;
  Ok (cut 2000 cleaned).

(** ** Quality *)

Section quality.
Context (tanh : pyfloat -> pyfloat).

(** [max(0.0, min(1.0, x))]. *)
Definition unit_clamp (x : pyfloat) : pyfloat := fmax (Fin 0) (fmin (lit 1 1) x).

Definition ratio (a b : nat) : pyfloat := lit (Z.of_nat a) (Z.of_nat b).

Definition _lexical_diversity_ratio (text : pyval) : res ret_error pyfloat :=
  tokens ← tokenize_terms text;
  Ok (if (length tokens <? 20)%nat then lit 1 1 else ratio (length (remove_dups tokens)) (length tokens)).

Definition common (a b : list string) : list string := List.filter (fun t => str_in t b) a.

Definition _has_minimal_support (query : string) (text : pyval) : res ret_error bool :=
  text_terms ← tokenize_terms text;
  Ok match content_query_terms query with
     | [] =>
         let non_numeric := List.filter (fun t => negb (isdigit t)) (remove_dups (tokens_of (lower query))) in
         match non_numeric with
         | [] => true
         | _ => negb (length (common non_numeric (List.filter (fun t => negb (isdigit t)) text_terms)) =? 0)%nat
         end
     | content_terms => negb (length (common content_terms text_terms) =? 0)%nat
     end.

Definition _query_term_coverage (query text : string) : pyfloat :=
  match query_vocabulary query with
  | [] => Fin 0
  | terms => ratio (length (common terms (tokens_of (lower text)))) (length terms)
  end.

(** The value of an item, given its signals. *)
Definition combined_quality (dense sparse rrf diversity : pyfloat) (support : bool) : pyfloat :=
  let pos := fun x => flt (Fin 0) x in
  let nonpos := fun x => fle x (Fin 0) in
  let weak := negb support && flt dense (lit 55 100) in
  if nonpos dense && nonpos sparse then unit_clamp rrf
  else if pos dense && pos sparse then
    let combined := fadd (fadd (fmax dense sparse) (fmul (fmin dense sparse) (lit 15 100))) (fmul rrf (lit 10 100)) in
    unit_clamp (if weak then fmin combined (lit 19 100) else combined)
  else
    let score := fmax dense sparse in
    unit_clamp
      (if pos dense && nonpos sparse && flt diversity (lit 2 10) then
         fadd (fmul score (fmax (lit 1 10) (fquot diversity (lit 2 10)))) (fmul rrf (lit 10 100))
       else if pos sparse && weak then fmin score (lit 19 100)
       else fadd score (fmul rrf (lit 10 100))).

Definition retrieval_quality_score (item : row) (query : string) : res ret_error pyfloat :=
  d ← float_or_zero (dict_read "dense_score" item);
  let dense := unit_clamp d in
  raw_sparse ← float_or_zero (dict_read "sparse_score" item);
  let sparse :=
    match dict_read "text" item with
    | VStr text => if flt (Fin 0) raw_sparse && negb (is_empty query) then _query_term_coverage query text
                   else unit_clamp (tanh (fquot raw_sparse (lit 4 1)))
    | _ => unit_clamp (tanh (fquot raw_sparse (lit 4 1)))
    end in
  s ← float_or_zero (dict_read "score" item);
  let rrf := unit_clamp (tanh (fmul s (lit 30 1))) in
  let text := from_option id (VStr EmptyString) (dict_get "text" item) in
  diversity ← _lexical_diversity_ratio text;
  support ← (if is_empty query then Ok true else _has_minimal_support query text);
  Ok (combined_quality dense sparse rrf diversity support).
End quality.

(** ** Duplicates *)

(** [(cand.get("document_id"), (cand.get("text", "") or "")[:120])], as the
    element of a set. *)
Definition fingerprint (cand : row) : res ret_error (pyval * string) :=
  let document_id := dict_read "document_id" cand in
  let text := py_or (from_option id (VStr EmptyString) (dict_get "text" cand)) (VStr EmptyString) in
  match text with
  | VStr s => raise_if (negb (py_hashable document_id)) RetTypeError;; Ok (document_id, cut 120 s)
  | _ => Err RetTypeError
  end.

Definition seen (f : pyval * string) (l : list (pyval * string)) : bool :=
  existsb (fun g => py_eqb (fst f) (fst g) && str_eqb (snd f) (snd g)) l.

Fixpoint dedupe_from (fingerprints : list (pyval * string)) (candidates : list row) : res ret_error (list row) :=
  match candidates with
  | [] => Ok []
  | cand :: candidates' =>
      f ← fingerprint cand;
      if seen f fingerprints then dedupe_from fingerprints candidates'
      else out ← dedupe_from (f :: fingerprints) candidates'; Ok (cand :: out)
  end.

Definition dedupe_candidates : list row -> res ret_error (list row) := dedupe_from [].

(** ** The engine *)

Record RetrievalOptions : Type := mk_options { o_top_k : Z; o_rerank : bool; o_max_context_chars : Z; o_candidate_multiplier : Z }.

Definition RetrievalOptions_new (top_k : Z) (rerank : bool) (max_context_chars candidate_multiplier : Z) : res ret_error RetrievalOptions :=
  raise_if (negb ((1 <=? top_k) && (top_k <=? 100))) RetValueError;;
  raise_if (negb ((1 <=? max_context_chars) && (max_context_chars <=? 1000000))) RetValueError;;
  raise_if (negb ((1 <=? candidate_multiplier) && (candidate_multiplier <=? 100))) RetValueError;;
  Ok (mk_options top_k rerank max_context_chars candidate_multiplier).

Record RetrievalResult : Type := mk_result {
  r_query : string; r_evidence : list row; r_candidate_count : Z; r_selected_count : Z;
  r_backend : string; r_fallback_used : bool; r_metadata : list (string * pyval) }.

Definition reranker : Type := string -> list row -> res ret_error (list row).

Definition DisabledReranker : reranker := fun _ candidates => Ok candidates.

Record engine : Type := {
  en_backend : search_backend; en_fallback : option search_backend; en_reranker : reranker;
  en_embed : option (string -> res ret_error (list pyfloat)); en_index : list row }.

Section engine.
Context (tanh : pyfloat -> pyfloat) (str_of : pyval -> string).

(** The quality, under both of its names. *)
Definition with_quality (query : string) (item : row) : res ret_error row :=
  quality ← retrieval_quality_score tanh item query;
  Ok (dict_set "confidence_score" (VFloat quality) (dict_set "retrieval_quality_score" (VFloat quality) item)).

(** The sort key: the score, then whether the sparse leg found it, then the
    quality. *)
Definition sort_key (item : row) : pyfloat * bool * pyfloat :=
  (float_field "score" item, flt (Fin 0) (float_field "sparse_score" item), float_field "retrieval_quality_score" item).

(** [<] on the keys, as tuples compare. *)
Definition key_ltb (a b : pyfloat * bool * pyfloat) : bool :=
  let '(x1, y1, z1) := a in
  let '(x2, y2, z2) := b in
  if negb (feq x1 x2) then flt x1 x2
  else if negb (Bool.eqb y1 y2) then negb y1
  else flt z1 z2.

Definition key_leb (a b : row) : bool := negb (key_ltb (sort_key a) (sort_key b)).

(** [f"ev-{chunk_id}"]. *)
Definition evidence_name (chunk_id : pyval) : string :=
  "ev-" +:+ match chunk_id with VStr s => s | v => str_of v end.

(** One item of the context, with the text it is given. *)
Definition evidence_row (rank : nat) (item : row) (text : string) : res ret_error row :=
  s ← float_or_zero (dict_read "score" item);
  d ← float_or_zero (dict_read "dense_score" item);
  p ← float_or_zero (dict_read "sparse_score" item);
  Ok [("evidence_id", VStr (evidence_name (dict_read "chunk_id" item)));
      ("document_id", dict_read "document_id" item); ("chunk_id", dict_read "chunk_id" item);
      ("workspace_id", dict_read "workspace_id" item); ("tenant_id", dict_read "tenant_id" item);
      ("collection_id", py_or (dict_read "collection_id" item) (VStr "rag_phase0")); ("text", VStr text);
      ("source", py_or (py_or (dict_read "document_filename" item) (dict_read "source" item)) (VStr EmptyString));
      ("title", py_or (dict_read "title" item) (VStr EmptyString)); ("page_start", dict_read "page_start" item);
      ("page_end", from_option id (dict_read "page_start" item) (dict_get "page_end" item));
      ("section", dict_read "section" item); ("checksum", py_or (dict_read "checksum" item) (VStr EmptyString));
      ("document_version", py_or (dict_read "document_version" item) VNone);
      ("score", VFloat s); ("rank", VInt (Z.of_nat rank)); ("dense_score", VFloat d); ("sparse_score", VFloat p)].

(** The loop over the ranked candidates, under the budget. *)
Fixpoint select_context (rank : nat) (items : list row) (budget : Z) : res ret_error (list row) :=
  match items with
  | [] => Ok []
  | item :: items' =>
      if budget <=? 0 then Ok []
      else match from_option id (VStr EmptyString) (dict_get "text" item) with
      | VStr text =>
          let text := cut budget text in
          if is_empty text then select_context (S rank) items' budget
          else
            e ← evidence_row rank item text;
            rest ← select_context (S rank) items' (budget - slen text);
            Ok (e :: rest)
      | _ => select_context (S rank) items' budget
      end
  end.

(** [list(v or [])]. *)
Definition list_of (v : pyval) : res ret_error (list pyval) :=
  if py_truthy v then match py_iter v with Some l => Ok l | None => Err RetTypeError end else Ok [].

(** The two legs, the name of the backend, whether it fell back, what it
    observed. *)
Definition legs : Type := list row * list row * string * bool * list (string * pyval).

(** The candidates of the primary backend, and of the fallback when there are
    none. *)
Definition search_all (en : engine) (r : search_request) : res ret_error legs :=
  let name := be_name (en_backend en) in
  let attempt : res ret_error (legs * bool) :=
    match be_search (en_backend en) r with
    | Ok found => Ok (sr_dense found, sr_sparse found, from_option id name (sr_backend found), sr_fallback_used found, sr_metadata found, false)
    | Err RetUnavailable =>
        match en_fallback en with
        | None => Err RetUnavailable
        | Some _ => Ok ([], [], name, false, [], true)
        end
    | Err e => Err e
    end in
  primary ← attempt;
  let '(dense, sparse, backend_name, fallback_used, meta, unavailable) := (primary : legs * bool) in
  match dense, sparse, en_fallback en with
  | [], [], Some fallback =>
      found ← be_search fallback r;
      Ok (sr_dense found, sr_sparse found, from_option id (be_name fallback) (sr_backend found), true,
          fold_left (fun (d : row) kv => dict_set (fst kv) (snd kv) d) (sr_metadata found)
            [("primary_backend", VStr backend_name); ("primary_observation", VDict meta);
             ("fallback_reason", VStr (if unavailable then "primary_unavailable" else "empty_primary"))])
  | _, _, _ => Ok (dense, sparse, backend_name, fallback_used, meta)
  end.

(** Fusion, revalidation, deduplication and ranking of the candidates. *)
Definition ranked (query : string) (workspace_id : pyval) (allowed : list pyval) (tenant_id : string)
    (dense sparse : list row) : res ret_error (list row) :=
  let keep := List.filter (fun c => _in_scope c workspace_id allowed tenant_id) in
  fused ← rrf_fusion (keep dense) (keep sparse);
  fused ← dedupe_candidates (keep fused);
  fused ← res_mapM (with_quality query) fused;
  Ok (sort_by key_leb fused).

Definition retrieve (en : engine) (a_query : string) (context : list (string * pyval)) (options : RetrievalOptions)
    : res ret_error RetrievalResult :=
  normalized ← normalize_query a_query;
  workspace_id ← match dict_get "workspace_id" context with Some w => Ok w | None => Err RetKeyError end;
  tenant ← match dict_read "tenant_id" context with
           | VStr t => raise_if (is_empty (strip t)) RetValueError;; Ok (strip t)
           | _ => Err RetValueError
           end;
  allowed ← list_of (dict_read "allowed_collection_ids" context);
  match allowed with
  | [] => Ok (mk_result normalized [] 0 0 (be_name (en_backend en)) false [("authorization", VStr "empty_scope")])
  | _ =>
      query_vector ← match en_embed en with None => Ok [] | Some embed => embed normalized end;
      let limit := Z.max (o_top_k options * o_candidate_multiplier options) 20 in
      found ← search_all en (mk_search_request normalized query_vector workspace_id allowed (en_index en) limit tenant);
      let '(dense, sparse, backend_name, fallback_used, meta) := (found : legs) in
      raise_if (negb (forallb py_hashable allowed)) RetTypeError;;
      fused ← ranked normalized workspace_id allowed tenant dense sparse;
      fused ← (if o_rerank options then
                 l ← en_reranker en normalized (fused : list row);
                 Ok (List.filter (fun c => _in_scope c workspace_id allowed tenant) l)
               else Ok fused);
      evidence ← select_context O (firstn (Z.to_nat (o_top_k options)) fused) (o_max_context_chars options);
      Ok (mk_result normalized evidence (Z.of_nat (length fused)) (Z.of_nat (length evidence)) backend_name fallback_used meta)
  end.
End engine.
