(* ===== verification/Rerank.v ===== *)
(** * Lexical reranking (packages/retrieval, rerank.py)

    [BM25FReranker] with its default parameters.  [math.log] and [x ** 0.5]
    are arguments; the cache of the document frequencies is not modelled, nor
    is a NaN among the scores, which fusion never produces. *)

From Stdlib Require Import Ascii String.
From stdpp Require Import strings list.
From S2P Require Import Prelude PyFloat PyStr PyVal PyNumber RequestPolicy RetrievalText Fusion Retrieval.

Local Open Scope string_scope.
Local Open Scope Z_scope.
Local Open Scope list_scope.

Section bm25f.
Context (log pow_half : pyfloat -> pyfloat).

(** A count as a float. *)
Definition count_float (n : nat) : pyfloat := lit (Z.of_nat n) 1.

(** [math.log((n - df + 0.5) / (df + 0.5) + 1.0)] over the tokens of the texts. *)
Definition idf (texts : list (list string)) (term : string) : pyfloat :=
  let n := length texts in
  let df := length (List.filter (fun tokens => str_in term tokens) texts) in
  log (fadd (fquot (fadd (count_float (n - df)) (lit 1 2)) (fadd (count_float df) (lit 1 2))) (lit 1 1)).

Definition occurrences (t : string) (l : list string) : nat := length (List.filter (str_eqb t) l).

(** [tf * (k1 + 1) / (tf + k1 * (1 - b + b * doc_len / avg_doc_len))]. *)
Definition tf_norm (tf doc_len : nat) : pyfloat :=
  fquot (fmul (count_float tf) (lit 5 2))
    (fadd (count_float tf)
       (fmul (lit 3 2) (fadd (lit 1 4) (fquot (fmul (lit 3 4) (count_float doc_len)) (lit 200 1))))).

Fixpoint field_loop (terms all : list string) (idf : string -> pyfloat) (doc_len : nat) (weight : pyfloat)
    (pos_decay : bool) (rank : nat) (score : pyfloat) (l : list string) : pyfloat :=
  match l with
  | [] => score
  | term :: l' =>
      let score :=
        if negb (str_in term terms) then score
        else let pos := if pos_decay then lit 1 (Z.of_nat rank + 1) else lit 1 1 in
             fadd score (fmul (fmul (fmul (idf term) (tf_norm (occurrences term all) doc_len)) pos) weight) in
      field_loop terms all idf doc_len weight pos_decay (S rank) score l'
  end.

Definition _field_score (terms : list string) (field_text : string) (idf : string -> pyfloat) (doc_len : nat)
    (weight : pyfloat) (pos_decay : bool) : pyfloat :=
  let field_terms := tokens_of (lower field_text) in
  field_loop terms field_terms idf doc_len weight pos_decay O (Fin 0) field_terms.

(** [" ".join(cand.get("tags", []) or [])]. *)
Definition tags_text (v : pyval) : res ret_error string :=
  l ← list_of v;
  ws ← res_mapM (fun t => match t with VStr s => Ok s | _ => Err RetTypeError end) l;
  Ok (join " " ws).

(** [cand.get("document_filename", "") or ""], which is split. *)
Definition filename_text (v : pyval) : res ret_error string :=
  match v with VStr s => Ok s | _ => if py_truthy v then Err RetAttributeError else Ok EmptyString end.

Definition words_in (s : string) : nat := length (split_words EmptyString s).

(** [v or 0.0], a number to compare and multiply. *)
Definition number_or_zero (v : pyval) : res ret_error pyfloat := if py_truthy v then component v else Ok (Fin 0).

(** The candidate with its new score. *)
Definition rescored (terms : list string) (idf : string -> pyfloat) (cand : row) (text : string) : res ret_error row :=
  filename ← filename_text (from_option id (VStr EmptyString) (dict_get "document_filename" cand));
  tags ← tags_text (from_option id (VList []) (dict_get "tags" cand));
  let body := _field_score terms text idf (words_in text) (lit 1 1) true in
  let fname := _field_score terms filename idf (Nat.max (words_in filename) 1) (lit 3 10) false in
  let tag_score := _field_score terms tags idf (Nat.max (words_in tags) 1) (lit 2 10) false in
  let bm25f := fadd (fadd body fname) tag_score in
  let original := from_option id (VFloat (Fin 0)) (dict_get "score" cand) in
  quality ← number_or_zero (from_option id (from_option id (VFloat (Fin 0)) (dict_get "confidence_score" cand))
                              (dict_get "retrieval_quality_score" cand));
  let score := if flt (Fin 0) quality && flt (Fin 0) bm25f then pow_half (fmul quality bm25f) else fmax quality bm25f in
  Ok (dict_set "score" (VFloat score) (dict_set "bm25f_score" (VFloat bm25f) (dict_set "original_score" original cand))).

(** The texts of the candidates, which are joined into the key of the cache. *)
Definition candidate_text (cand : row) : res ret_error string :=
  match from_option id (VStr EmptyString) (dict_get "text" cand) with VStr s => Ok s | _ => Err RetTypeError end.

Definition rescored_leb (a b : row) : bool :=
  let x1 := float_field "score" a in
  let x2 := float_field "score" b in
  if negb (feq x1 x2) then negb (flt x1 x2) else negb (flt (float_field "original_score" a) (float_field "original_score" b)).
End bm25f.

(** ** Ties of the fused score *)

Section ties.
Context {A : Type} (group : A -> pyfloat) (first : A -> bool).

Definition tied (c x : A) : bool := bool_decide (group x = group c).

(** The candidates tied with [c], those of the sparse leg first. *)
Definition regroup (c : A) (l : list A) : list A :=
  let t := List.filter (tied c) l in
  List.filter first t ++ List.filter (fun x => negb (first x)) t.

(** The slot of each candidate takes the next one of its regrouped ties. *)
Fixpoint retie_from (all before l : list A) : list A :=
  match l with
  | [] => []
  | c :: l' => nth (length (List.filter (tied c) before)) (regroup c all) c :: retie_from all (before ++ [c]) l'
  end.

Definition retie (l : list A) : list A := retie_from l [] l.
End ties.

Definition sparse_found (c : row) : bool := flt (Fin 0) (float_field "sparse_score" c).

Section reranker.
Context (log pow_half : pyfloat -> pyfloat).

(** Each candidate rescored with its text. *)
Fixpoint rescore_all (terms : list string) (idf : string -> pyfloat) (cands : list row) (texts : list string)
    : res ret_error (list row) :=
  match cands, texts with
  | cand :: cands', text :: texts' =>
      c ← rescored pow_half terms idf cand text;
      rest ← rescore_all terms idf cands' texts';
      Ok (c :: rest)
  | _, _ => Ok []
  end.

Definition BM25FReranker : reranker := fun query candidates =>
  match candidates, query_vocabulary query with
  | [], _ | _, [] => Ok candidates
  | _, vocabulary =>
      texts ← res_mapM candidate_text candidates;
      let terms := sort_by str_leb vocabulary in
      let tokens := map (fun t => tokens_of (lower t)) texts in
      scored ← rescore_all terms (idf log tokens) candidates texts;
      Ok (retie (float_field "original_score") sparse_found (sort_by rescored_leb scored))
  end.
End reranker.
