(* ===== verification/RetrievalService.v ===== *)
(** * The retrieval service (apps/api, services/retrieval_service.py)

    The index of a process, rehydrated from the vector store on first use, and
    the lifecycle of collections and documents checked before the query and
    again on every item of the answer.  The knowledge store and the vector
    reader are arguments; the service state is passed explicitly. *)

From Stdlib Require Import Ascii String.
From stdpp Require Import strings list.
From S2P Require Import Prelude PyFloat PyStr PyVal PyNumber KnowledgeModels ProfessorModels Orchestrator.
From S2P Require Import Identity DecisionGate RetrievalText Fusion Retrieval.

Local Open Scope string_scope.
Local Open Scope Z_scope.
Local Open Scope list_scope.

(** ** The lifecycle authority (services/knowledge_service.py) *)

Definition _same_collection (left right : string) : bool :=
  match normalize_collection_id left, normalize_collection_id right with
  | Some l, Some r => str_eqb l r
  | _, _ => str_eqb left right
  end.

Definition resolve_collection_state (kn : knowledge) (tenant_id workspace_id collection_id : string) : res ret_error string :=
  match kn_get_collection kn workspace_id collection_id tenant_id with
  | Raises => Err RetLifecycle
  | Returns None => Ok "inactive"
  | Returns (Some c) =>
      if negb (str_eqb (co_tenant_id c) tenant_id) || negb (str_eqb (co_workspace_id c) workspace_id)
         || negb (_same_collection (co_collection_id c) collection_id) then Ok "inactive"
      else Ok (if str_eqb (if is_empty (co_status c) then "active" else co_status c) "active" then "active" else "inactive")
  end.

Definition resolve_document_state (kn : knowledge) (tenant_id workspace_id document_id : string) : res ret_error string :=
  match kn_get_document kn document_id tenant_id workspace_id with
  | Raises => Err RetLifecycle
  | Returns None => Ok "inactive"
  | Returns (Some d) =>
      if negb (str_eqb (d_tenant_id d) tenant_id) || negb (str_eqb (d_workspace_id d) workspace_id)
         || negb (str_eqb (d_document_id d) document_id) then Ok "inactive"
      else Ok (if str_eqb (d_status d) "published" then "published" else "inactive")
  end.

(** ** The service *)

Definition MAX_REHYDRATED_POINTS : Z := 100000.

(** [all_points] of a vector store, or what it raises. *)
Inductive points_call : Type := Points (l : list pyval) | PointsTypeError | PointsError (e : ret_error).

(** The state of the service between requests. *)
Record service : Type := mk_service {
  sv_engine : engine; sv_knowledge : knowledge;
  sv_vectors : option (string -> string -> list pyval -> points_call);
  sv_indexed : bool; sv_points_attached : bool; sv_points : list pyval; sv_provenance : list (string * row) }.

Definition with_index (chunks : list row) (en : engine) : engine :=
  {| en_backend := en_backend en; en_fallback := en_fallback en; en_reranker := en_reranker en;
     en_embed := en_embed en; en_index := chunks |}.

Definition _bounded_points (reader : string -> string -> list pyval -> points_call) (tenant_id workspace_id : string)
    (allowed : list pyval) : res ret_error (list pyval) :=
  match reader tenant_id workspace_id allowed with
  | PointsTypeError => Err RetValueError
  | PointsError e => Err e
  | Points points => raise_if (MAX_REHYDRATED_POINTS <? Z.of_nat (length points)) RetValueError;; Ok points
  end.

Definition text_field (name : string) (payload : row) : option string :=
  match dict_read name payload with VStr s => if is_empty s then None else Some s | _ => None end.

Definition get_default (name : string) (default : pyval) (d : row) : pyval := from_option id default (dict_get name d).

(** The chunk of a point, unless its document is not published or not the
    point's; with it, its identifier and its payload. *)
Definition indexed_chunk (kn : knowledge) (point : pyval) : res ret_error (option (string * row * row)) :=
  match point with
  | VDict p =>
      match dict_read "payload" p with
      | VDict payload =>
          match text_field "document_id" payload, text_field "chunk_id" payload, text_field "tenant_id" payload,
                text_field "workspace_id" payload, text_field "collection_id" payload, text_field "text" payload,
                dict_read "vector" p with
          | Some document_id, Some chunk_id, Some tenant_id, Some workspace_id, Some collection_id, Some text, VList vector =>
              match kn_get_document kn document_id tenant_id workspace_id with
              | Raises => Err RetDependency
              | Returns None => Ok None
              | Returns (Some d) =>
                  if negb (str_eqb (d_status d) "published") || negb (str_eqb (d_workspace_id d) workspace_id)
                     || negb (str_eqb (d_collection_id d) collection_id) || negb (str_eqb (d_tenant_id d) tenant_id)
                  then Ok None
                  else Ok (Some (chunk_id, payload,
                    [("chunk_id", VStr chunk_id); ("document_id", VStr document_id); ("workspace_id", VStr workspace_id);
                     ("collection_id", VStr collection_id); ("tenant_id", VStr tenant_id); ("text", VStr text);
                     ("vector", VList vector);
                     ("source", get_default "source" (get_default "document_filename" (VStr EmptyString) payload) payload);
                     ("document_filename", get_default "document_filename" (get_default "source" (VStr EmptyString) payload) payload);
                     ("title", get_default "title" (VStr EmptyString) payload); ("page_start", dict_read "page_start" payload);
                     ("page_end", get_default "page_end" (dict_read "page_start" payload) payload);
                     ("section", dict_read "section" payload); ("checksum", get_default "checksum" (VStr EmptyString) payload);
                     ("document_version", get_default "document_version" (VStr EmptyString) payload)]))
              end
          | _, _, _, _, _, _, _ => Ok None
          end
      | _ => Ok None
      end
  | _ => Ok None
  end.

(** The points of the first use: attached, or read within the scope of the
    request at hand. *)
Definition points_for (sv : service) (context : row) : res ret_error (list pyval) :=
  match sv_vectors sv with
  | Some reader =>
      if sv_points_attached sv then Ok (sv_points sv)
      else match dict_read "tenant_id" context, dict_read "workspace_id" context, dict_read "allowed_collection_ids" context with
      | VStr tenant_id, VStr workspace_id, VList allowed =>
          raise_if (is_empty tenant_id || is_empty workspace_id) RetValueError;;
          _bounded_points reader tenant_id workspace_id allowed
      | _, _, _ => Err RetValueError
      end
  | None => Ok (sv_points sv)
  end.

(** The chunks of the points, in order; the provenance collected so far is
    kept when a lookup of the knowledge store fails. *)
Fixpoint index_points (kn : knowledge) (points : list pyval) (pv : list (string * row))
    : list (string * row) * res ret_error (list row) :=
  match points with
  | [] => (pv, Ok [])
  | point :: points' =>
      match indexed_chunk kn point with
      | Err e => (pv, Err e)
      | Ok None => index_points kn points' pv
      | Ok (Some (chunk_id, payload, chunk)) =>
          let '(pv, rest) := index_points kn points' (dict_set chunk_id payload pv) in
          (pv, chunks ← rest; Ok (chunk :: chunks))
      end
  end.

Definition _ensure_index (sv : service) (context : row) : service * res ret_error () :=
  if sv_indexed sv then (sv, Ok tt)
  else
    match points_for sv context with
    | Err e => (sv, Err e)
    | Ok points =>
        match index_points (sv_knowledge sv) points (sv_provenance sv) with
        | (pv, Ok chunks) =>
            (mk_service (with_index chunks (sv_engine sv)) (sv_knowledge sv) (sv_vectors sv) true (sv_points_attached sv) points pv, Ok tt)
        | (pv, Err e) =>
            (mk_service (sv_engine sv) (sv_knowledge sv) (sv_vectors sv) false (sv_points_attached sv) points pv, Err e)
        end
    end.

Definition attach_points (points : list pyval) (sv : service) : service :=
  mk_service (sv_engine sv) (sv_knowledge sv) (sv_vectors sv) false true points [].

(** The verdicts of one query. *)
Definition lifecycle : Type := list (string * string).

Definition _collection_state (kn : knowledge) (tenant_id workspace_id collection_id : string) (l : lifecycle)
    : res ret_error (string * lifecycle) :=
  match dict_get collection_id l with
  | Some cached => Ok (cached, l)
  | None =>
      s ← resolve_collection_state kn tenant_id workspace_id collection_id;
      Ok (s, dict_set collection_id s l)
  end.

(** The states of several collections, in order. *)
Fixpoint collection_states (kn : knowledge) (tenant_id workspace_id : string) (ids : list string) (l : lifecycle)
    : res ret_error (list string * lifecycle) :=
  match ids with
  | [] => Ok ([], l)
  | i :: ids' =>
      r ← _collection_state kn tenant_id workspace_id i l;
      rest ← collection_states kn tenant_id workspace_id ids' (snd (r : string * lifecycle));
      Ok (fst (r : string * lifecycle) :: fst (rest : list string * lifecycle), snd (rest : list string * lifecycle))
  end.

(** The collections a grant names. *)
Definition concrete (allowed : list pyval) : list string :=
  flat_map (fun v => match v with VStr s => if is_empty s || str_eqb s "*" then [] else [s] | _ => [] end) allowed.

Definition _admitted (kn : knowledge) (context : row) (l : lifecycle) : res ret_error (bool * lifecycle) :=
  match dict_read "tenant_id" context, dict_read "workspace_id" context with
  | VStr tenant_id, VStr workspace_id =>
      allowed ← list_of (dict_read "allowed_collection_ids" context);
      match concrete allowed with
      | [] => Ok (true, l)
      | ids =>
          r ← collection_states kn tenant_id workspace_id ids l;
          Ok (str_in "active" (fst (r : list string * lifecycle)), snd (r : list string * lifecycle))
      end
  | _, _ => Err RetLifecycle
  end.

Definition _projectable (kn : knowledge) (context item : row) (l : lifecycle) : res ret_error (bool * lifecycle) :=
  match text_field "tenant_id" context, text_field "workspace_id" context, text_field "collection_id" item,
        text_field "document_id" item with
  | Some tenant_id, Some workspace_id, Some collection_id, Some document_id =>
      r ← _collection_state kn tenant_id workspace_id collection_id l;
      let '(state, l) := (r : string * lifecycle) in
      if negb (str_eqb state "active") then Ok (false, l)
      else
        s ← resolve_document_state kn tenant_id workspace_id document_id;
        Ok (str_eqb s "published", l)
  | _, _, _, _ => Ok (false, l)
  end.

(** ** The answer *)

(** Provenance the item lacks, from the payload of its point. *)
Definition fill_text (payload : row) (item : row) (name : string) : row :=
  if negb (py_truthy (dict_read name item)) && py_truthy (dict_read name payload)
  then dict_set name (dict_read name payload) item else item.

Definition fill_page (payload : row) (item : row) (name : string) : row :=
  if is_none (dict_read name item) && negb (is_none (dict_read name payload))
  then dict_set name (dict_read name payload) item else item.

Definition filled (payload item : row) : row :=
  let item := fold_left (fill_text payload) ["source"; "title"; "section"; "checksum"; "document_version"] item in
  fold_left (fill_page payload) ["page_start"; "page_end"] item.

Definition is_text (lo hi : Z) (v : pyval) : bool := match v with VStr s => length_in lo hi s | _ => false end.
Definition is_page (v : pyval) : bool := match v with VNone => true | VInt n => 0 <=? n | _ => false end.
Definition is_score (v : pyval) : bool := match v with VFloat f => fisfinite f | _ => false end.

(** [EvidenceDto.model_validate] of an item the engine made; the model keeps
    its values. *)
Definition EvidenceDto_validate (item : row) : res ret_error row :=
  let field := fun name => dict_read name item in
  raise_if (negb (forallb (fun n => is_text 1 128 (field n)) ["evidence_id"; "document_id"; "chunk_id"; "workspace_id"; "collection_id"]
                  && is_text 1 1000000 (field "text") && is_text 0 512 (field "source") && is_text 0 512 (field "title")
                  && is_text 0 256 (field "checksum")
                  && (is_none (field "tenant_id") || is_text 1 128 (field "tenant_id"))
                  && (is_none (field "section") || match field "section" with VStr _ => true | _ => false end)
                  && (is_none (field "document_version") || is_text 1 128 (field "document_version"))
                  && is_page (field "page_start") && is_page (field "page_end")
                  && match field "rank" with VInt n => (0 <=? n) && (n <=? 1000000) | _ => false end
                  && forallb (fun n => is_score (field n))
                       ["score"; "dense_score"; "sparse_score"; "retrieval_quality_score"; "confidence_score"]))
    RetValidationError;;
  Ok item.

Record RetrievalResultDto : Type := mk_result_dto {
  rd_query : string; rd_evidence : list row; rd_candidate_count : Z; rd_selected_count : Z;
  rd_backend : string; rd_fallback_used : bool; rd_metadata : list (string * pyval) }.

Definition scalar (v : pyval) : bool := match v with VList _ | VDict _ => false | _ => true end.

Definition RetrievalResultDto_new (query : string) (evidence : list row) (candidates selected : Z) (backend : string)
    (fallback : bool) (metadata : list (string * pyval)) : res ret_error RetrievalResultDto :=
  raise_if (negb (length_in 1 2000 query && (candidates <=? 1000000) && (selected <=? 1000000)
                  && (slen backend <=? 128) && forallb (fun kv => scalar (snd kv)) metadata)) RetValidationError;;
  Ok (mk_result_dto query evidence candidates selected backend fallback metadata).

Definition _lifecycle_denied (query : string) (context : row) : res ret_error RetrievalResultDto :=
  RetrievalResultDto_new query [] 0 0 EmptyString false
    [("authorization", VStr "lifecycle_denied"); ("workspace_id", get_default "workspace_id" (VStr EmptyString) context);
     ("tenant_id", get_default "tenant_id" (VStr EmptyString) context)].

Section service.
Context (tanh : pyfloat -> pyfloat) (str_of : pyval -> string).

(** The items that may be shown, in order. *)
Fixpoint project (sv : service) (context : row) (query : string) (items : list row) (l : lifecycle) : res ret_error (list row) :=
  match items with
  | [] => Ok []
  | raw :: items' =>
      r ← _projectable (sv_knowledge sv) context raw l;
      let '(shown, l) := (r : bool * lifecycle) in
      if shown then
        let chunk := match get_default "chunk_id" (VStr EmptyString) raw with VStr s => s | v => str_of v end in
        let item := filled (from_option id [] (dict_get chunk (sv_provenance sv))) raw in
        quality ← retrieval_quality_score tanh item query;
        let item := dict_set "confidence_score" (VFloat quality) (dict_set "retrieval_quality_score" (VFloat quality) item) in
        e ← EvidenceDto_validate item;
        rest ← project sv context query items' l;
        Ok (e :: rest)
      else project sv context query items' l
  end.

(** [RetrievalApplicationService.retrieve]: the service afterwards, and the
    answer. *)
Definition service_retrieve (sv : service) (a_query : string) (context : row) (top_k : Z)
    : service * res ret_error RetrievalResultDto :=
  let granted := py_truthy (dict_read "allowed_collection_ids" context) in
  match (if granted then _admitted (sv_knowledge sv) context [] else Ok (true, [])) with
  | Err e => (sv, Err e)
  | Ok (false, _) => (sv, _lifecycle_denied a_query context)
  | Ok (true, l) =>
      match (if granted then _ensure_index sv context else (sv, Ok tt)) with
      | (sv, Err e) => (sv, Err e)
      | (sv, Ok _) =>
          (sv,
           options ← RetrievalOptions_new top_k true 12000 10;
           result ← retrieve tanh str_of (sv_engine sv) a_query context options;
           evidence ← project sv context (r_query result) (r_evidence result) l;
           RetrievalResultDto_new (r_query result) evidence (r_candidate_count result)
             (if (length evidence =? length (r_evidence result))%nat then r_selected_count result else Z.of_nat (length evidence))
             (r_backend result) (r_fallback_used result)
             (match dict_get "authorization" (r_metadata result) with Some a => [("authorization", a)] | None => [] end
              ++ [("workspace_id", get_default "workspace_id" (VStr EmptyString) context); ("tenant_id", dict_read "tenant_id" context)]))
      end
  end.
End service.
