(* ===== verification/RetrievalLemmas.v ===== *)
(** * Lemmas on retrieval

    The scope of a query, the fusion of the dense and lexical lists, and the stability of the
    reranker among ties. *)

From Stdlib Require Import Ascii String.
From stdpp Require Import strings list.
From S2P Require Import Prelude PyFloat PyStr PyVal PyNumber ProfessorModels OrchestratorLemmas RequestPolicy.
From S2P Require Import RetrievalText Fusion Retrieval Rerank.

Local Open Scope string_scope.
Local Open Scope Z_scope.
Local Open Scope list_scope.

(** ** Lemmas on retrieval

    Scope through fusion, deduplication and ranking, the selection of the
    context, and the score of a fused candidate. *)

(** ** Lists *)

Lemma filter_idem {A} (P : A -> bool) l : List.filter P (List.filter P l) = List.filter P l.
Proof.
  induction l as [|x l IH]; cbn; [reflexivity|]. destruct (P x) eqn:E; cbn; [now rewrite E, IH | exact IH].
Qed.

Lemma dict_read_set name name' v d : dict_read name (dict_set name' v d) = if str_eqb name name' then v else dict_read name d.
Proof. unfold dict_read. rewrite dict_get_set. now destruct (str_eqb name name'). Qed.

(** ** Scope *)

Section scope.
Context (workspace_id : pyval) (allowed : list pyval) (tenant_id : string).

Definition kept (c : row) : bool := _in_scope c workspace_id allowed tenant_id.

(** What an item in scope says of itself. *)
Record scoped (c : row) : Prop := {
  sc_tenant : dict_read "tenant_id" c = VStr tenant_id;
  sc_workspace : py_eqb (dict_read "workspace_id" c) workspace_id = true;
  sc_collection : exists collection, dict_read "collection_id" c = VStr collection /\ collection <> EmptyString
    /\ (In (VStr "*") allowed \/ In (VStr collection) allowed) }.

Lemma in_allowed s : existsb (fun v => is_str v s) allowed = true <-> In (VStr s) allowed.
Proof.
  rewrite existsb_exists. split; [intros (v & Hv & H); apply is_str_eq in H as ->; exact Hv|].
  intros H. exists (VStr s). split; [exact H | apply is_str_refl].
Qed.

Lemma kept_scoped c : kept c = true -> scoped c.
Proof.
  unfold kept, _in_scope. rewrite !andb_true_iff. intros [[H1 H2] H3]. apply is_str_eq in H1. constructor; auto.
  destruct (dict_read "collection_id" c) as [| | | |s| |]; try discriminate. apply andb_true_iff in H3 as [H3 H4].
  apply orb_true_iff in H4. rewrite !in_allowed in H4. exists s. split_and!; auto. intros ->. discriminate.
Qed.

(** The scope reads three fields. *)
Lemma kept_same c d : (forall name, name = "tenant_id" \/ name = "workspace_id" \/ name = "collection_id" ->
  dict_read name c = dict_read name d) -> kept c = kept d.
Proof. intros H. unfold kept, _in_scope. rewrite !(H _) by tauto. reflexivity. Qed.

Lemma dedupe_incl l : forall before out, dedupe_from before l = Ok out -> incl out l.
Proof.
  induction l as [|c l IH]; intros before out H; cbn [dedupe_from] in H; [apply Ok_inj in H as ->; intros x []|].
  apply bind_Ok in H as (f & _ & H). destruct (seen f before).
  - apply IH in H. now apply incl_tl.
  - apply bind_Ok in H as (rest & Hr & H). apply Ok_inj in H as ->. apply IH in Hr.
    intros x [->|Hx]; [apply in_eq | right; now apply Hr].
Qed.

Lemma with_quality_reads tanh query item item' name : with_quality tanh query item = Ok item' ->
  name <> "confidence_score" -> name <> "retrieval_quality_score" -> dict_read name item' = dict_read name item.
Proof.
  unfold with_quality. intros H H1 H2. apply bind_Ok in H as (q & _ & H). apply Ok_inj in H as ->.
  rewrite !dict_read_set. unfold str_eqb. now rewrite !bool_decide_eq_false_2 by assumption.
Qed.

Lemma ranked_kept tanh query dense sparse l : ranked tanh query workspace_id allowed tenant_id dense sparse = Ok l ->
  forall c, In c l -> kept c = true.
Proof.
  unfold ranked. cbv zeta. intros H c Hc. apply bind_Ok in H as (fused & _ & H). apply bind_Ok in H as (deduped & Hd & H).
  apply bind_Ok in H as (rated & Hr & H). apply Ok_inj in H as ->. apply sort_by_In in Hc.
  destruct (res_mapM_In _ _ _ _ Hr Hc) as (x & Hx & Hq). apply dedupe_incl in Hd. apply Hd, filter_In in Hx as [_ Hx].
  rewrite (kept_same c x); [exact Hx|]. intros name Hn. eapply with_quality_reads; [exact Hq | |]; intros ->; intuition discriminate.
Qed.
End scope.

(** ** The selection of the context *)

Definition rank_of (e : row) : Z := match dict_read "rank" e with VInt n => n | _ => -1 end.
Definition text_of (e : row) : string := match dict_read "text" e with VStr s => s | _ => EmptyString end.

Definition total_text (l : list row) : Z := foldr (fun e n => slen (text_of e) + n) 0 l.

(** The evidence of an item: its identity, its scope, and the beginning of its
    text. *)
Record taken (item e : row) : Prop := {
  tk_chunk : dict_read "chunk_id" e = dict_read "chunk_id" item;
  tk_document : dict_read "document_id" e = dict_read "document_id" item;
  tk_tenant : dict_read "tenant_id" e = dict_read "tenant_id" item;
  tk_workspace : dict_read "workspace_id" e = dict_read "workspace_id" item;
  tk_collection : dict_read "collection_id" e = py_or (dict_read "collection_id" item) (VStr "rag_phase0");
  tk_text : text_of e <> EmptyString /\ exists rest, dict_get "text" item = Some (VStr (text_of e +:+ rest)) }.

Lemma evidence_row_Ok str_of rank item text e : evidence_row str_of rank item text = Ok e ->
  rank_of e = Z.of_nat rank /\ text_of e = text /\ dict_read "chunk_id" e = dict_read "chunk_id" item
  /\ dict_read "document_id" e = dict_read "document_id" item /\ dict_read "tenant_id" e = dict_read "tenant_id" item
  /\ dict_read "workspace_id" e = dict_read "workspace_id" item
  /\ dict_read "collection_id" e = py_or (dict_read "collection_id" item) (VStr "rag_phase0").
Proof.
  unfold evidence_row. intros H. apply bind_Ok in H as (s & _ & H). apply bind_Ok in H as (d & _ & H).
  apply bind_Ok in H as (p & _ & H). apply Ok_inj in H as ->. repeat split; reflexivity.
Qed.

Lemma select_context_spec str_of items : forall rank budget out, select_context str_of rank items budget = Ok out ->
  (forall e, In e out -> exists item, In item items /\ taken item e)
  /\ total_text out <= Z.max 0 budget /\ (length out <= length items)%nat
  /\ Forall (fun e => Z.of_nat rank <= rank_of e) out /\ StronglySorted (fun a b => rank_of a < rank_of b) out.
Proof.
  assert (forall rank budget, (forall e : row, In e [] -> exists item : row, In item items /\ taken item e)
    /\ total_text [] <= Z.max 0 budget /\ (length (@nil row) <= length items)%nat
    /\ Forall (fun e => Z.of_nat rank <= rank_of e) [] /\ StronglySorted (fun a b => rank_of a < rank_of b) []) as Hnil.
  { intros rank budget. split_and!; [intros e [] | cbn; lia | cbn; lia | constructor | constructor]. }
  induction items as [|item items IH]; intros rank budget out H; cbn [select_context] in H.
  - apply Ok_inj in H as ->. apply (Hnil rank budget).
  - assert (select_context str_of (S rank) items budget = Ok out ->
      (forall e, In e out -> exists i, In i (item :: items) /\ taken i e)
      /\ total_text out <= Z.max 0 budget /\ (length out <= length (item :: items))%nat
      /\ Forall (fun e => Z.of_nat rank <= rank_of e) out /\ StronglySorted (fun a b => rank_of a < rank_of b) out) as Hskip.
    { intros Hs. apply IH in Hs as (H1 & H2 & H3 & H4 & H5); [|intros; split_and!; [intros e [] | cbn; lia | cbn; lia | constructor | constructor]].
      split_and!; auto; [|cbn; lia|].
      - intros e He. destruct (H1 e He) as (i & Hi & Ht). exists i. auto using in_cons.
      - eapply Forall_impl; [exact H4|]. cbn. lia. }
    destruct (budget <=? 0) eqn:Eb; [apply Ok_inj in H as ->; apply (Hnil rank budget)|].
    destruct (from_option id (VStr EmptyString) (dict_get "text" item)) as [| | | |s| |] eqn:Et; try (exact (Hskip H)).
    cbv zeta in H. destruct (is_empty (cut budget s)) eqn:Ec; [exact (Hskip H)|]. clear Hskip.
    apply bind_Ok in H as (e & He & H). apply bind_Ok in H as (rest & Hr & H). apply Ok_inj in H as ->.
    apply IH in Hr as (H1 & H2 & H3 & H4 & H5); [|intros; split_and!; [intros ? [] | cbn; lia | cbn; lia | constructor | constructor]].
    apply evidence_row_Ok in He as (E1 & E2 & E3 & E4 & E5 & E6 & E7). bool_to_prop.
    assert (text_of e <> EmptyString) as Hne by (rewrite E2; intros Hx; rewrite Hx in Ec; discriminate).
    split_and!.
    + intros x [<-|Hx]; [|destruct (H1 x Hx) as (i & Hi & Ht); exists i; auto using in_cons].
      exists item. split; [apply in_eq|]. constructor; auto. split; [exact Hne|]. rewrite E2.
      destruct (cut_prefix budget s) as [r Hpre]. exists r. rewrite <- Hpre.
      destruct (dict_get "text" item) as [v|]; [now f_equal|]. cbn in Et. injection Et as <-.
      exfalso. clear -Ec. unfold cut in Ec. now destruct (Z.to_nat budget).
    + cbn [total_text foldr]. fold (total_text rest). rewrite E2.
      pose proof (slen_cut budget s ltac:(lia)). lia.
    + cbn. lia.
    + constructor; [lia|]. eapply Forall_impl; [exact H4|]. cbn. lia.
    + constructor; [exact H5|]. eapply Forall_impl; [exact H4|]. cbn. lia.
Qed.

(** ** Retrieval *)

Lemma RetrievalOptions_Ok top_k rerank chars multiplier o : RetrievalOptions_new top_k rerank chars multiplier = Ok o ->
  o = mk_options top_k rerank chars multiplier /\ 1 <= top_k /\ 1 <= chars.
Proof.
  unfold RetrievalOptions_new. intros H. apply bind_Ok in H as (u1 & O1 & H). apply bind_Ok in H as (u2 & O2 & H).
  apply bind_Ok in H as (u3 & _ & H). apply Ok_inj in H as ->. apply raise_if_Ok, negb_false_iff in O1, O2. bool_to_prop. split_and!; auto; lia.
Qed.

(** The tenant of a request, without the blanks around it. *)
Definition request_tenant (context : row) (tenant : string) : Prop :=
  exists t, dict_read "tenant_id" context = VStr t /\ tenant = strip t /\ tenant <> EmptyString.

(** What an answer is made of: the context selected from candidates in the
    scope of the request. *)
Lemma retrieve_Ok tanh str_of en a_query context o r : retrieve tanh str_of en a_query context o = Ok r ->
  exists tenant, request_tenant context tenant /\ r_selected_count r = Z.of_nat (length (r_evidence r))
  /\ (r_evidence r = [] /\ r_candidate_count r = 0
     \/ exists workspace allowed final,
          dict_get "workspace_id" context = Some workspace /\ list_of (dict_read "allowed_collection_ids" context) = Ok allowed
          /\ (forall c, In c final -> kept workspace allowed tenant c = true) /\ r_candidate_count r = Z.of_nat (length final)
          /\ select_context str_of O (firstn (Z.to_nat (o_top_k o)) final) (o_max_context_chars o) = Ok (r_evidence r)).
Proof.
  unfold retrieve. intros H. apply bind_Ok in H as (q & _ & H). apply bind_Ok in H as (workspace & Hw & H).
  apply bind_Ok in H as (tenant & Ht & H). apply bind_Ok in H as (allowed & Ha & H).
  assert (dict_get "workspace_id" context = Some workspace) as Hws
    by (destruct (dict_get "workspace_id" context); [now apply Ok_inj in Hw as -> | discriminate]).
  assert (request_tenant context tenant) as Htenant.
  { unfold request_tenant. destruct (dict_read "tenant_id" context) as [| | | |t| |]; try discriminate.
    apply bind_Ok in Ht as (u & Hu & Ht). apply Ok_inj in Ht as ->. apply raise_if_Ok in Hu. exists t. split_and!; auto.
    intros E. now rewrite E in Hu. }
  exists tenant. split; [exact Htenant|]. destruct allowed as [|a al]; [apply Ok_inj in H as ->; cbn; auto|].
  apply bind_Ok in H as (v & _ & H). cbv zeta in H. apply bind_Ok in H as (found & _ & H).
  destruct found as [[[[dense sparse] name] fb] meta]. apply bind_Ok in H as (u & _ & H).
  apply bind_Ok in H as (fused & Hf & H). apply bind_Ok in H as (final & Hr & H). apply bind_Ok in H as (ev & He & H).
  apply Ok_inj in H as ->. cbn [r_evidence r_selected_count r_candidate_count]. split; [reflexivity|]. right.
  exists workspace, (a :: al), final. split_and!; auto. destruct (o_rerank o).
  - apply bind_Ok in Hr as (l & _ & Hr). apply Ok_inj in Hr as ->. intros c Hc. now apply filter_In in Hc as [_ Hc].
  - apply Ok_inj in Hr as ->. exact (ranked_kept _ _ _ _ _ _ _ _ Hf).
Qed.

(** The context selected from candidates in scope. *)
Lemma context_items str_of workspace allowed tenant final top_k chars out :
  (forall c, In c final -> kept workspace allowed tenant c = true) ->
  select_context str_of O (firstn top_k final) chars = Ok out ->
  Forall (fun e => scoped workspace allowed tenant e /\ text_of e <> EmptyString) out
  /\ (length out <= top_k /\ length out <= length final)%nat /\ total_text out <= Z.max 0 chars
  /\ StronglySorted (fun a b => rank_of a < rank_of b) out.
Proof.
  intros Hkept He. apply select_context_spec in He as (H1 & H2 & H3 & _ & H5). rewrite length_firstn in H3.
  split_and!; try lia; [|exact H5]. apply List.Forall_forall. intros e Hin.
  destruct (H1 e Hin) as (item & Hitem & Htk). apply firstn_In in Hitem. specialize (Hkept item Hitem).
  split; [|apply (tk_text _ _ Htk)]. apply kept_scoped in Hkept as [K1 K2 (c & K3 & K4 & K5)]. constructor.
  - now rewrite (tk_tenant _ _ Htk).
  - now rewrite (tk_workspace _ _ Htk).
  - exists c. rewrite (tk_collection _ _ Htk), K3. unfold py_or. cbn [py_truthy]. destruct c; [contradiction | auto].
Qed.

(** ** Lemmas on rank fusion

    The reference score of a chunk, the table of the candidates, and the two
    passes of the fusion against the reference. *)

(** ** The reference *)

Definition has_chunk (i : string) (r : row) : bool := is_str (dict_read "chunk_id" r) i.

(** The reciprocal ranks of a chunk in one leg. *)
Fixpoint contributions (i : string) (rank : nat) (results : list row) : list pyfloat :=
  match results with
  | [] => []
  | r :: results' => (if has_chunk i r then [reciprocal rank] else []) ++ contributions i (S rank) results'
  end.

Definition rrf_score (i : string) (dense sparse : list row) : pyfloat :=
  fold_left fadd (contributions i 0 dense ++ contributions i 0 sparse) (Fin 0).

(** Rows identified by strings. *)
Definition identified (r : row) : Prop := exists s, dict_get "chunk_id" r = Some (VStr s).

(** ** Nonnegative floats *)

Definition fnonneg (x : pyfloat) : Prop := fle (Fin 0) x = true.

Lemma fnonneg_add x y : fnonneg x -> fnonneg y -> fnonneg (fadd x y).
Proof.
  unfold fnonneg. destruct x as [a|[]|], y as [b|[]|]; cbn [fle fadd Bool.eqb negb orb]; try discriminate; try reflexivity.
  intros Ha Hb. apply to_float_nonneg; lia.
Qed.

Lemma reciprocal_nonneg rank : fnonneg (reciprocal rank).
Proof. apply to_float_nonneg; [unfold RRF_K; lia | pose proof scale_pos; lia]. Qed.

Lemma fadd_zero x : fwf x -> fadd (Fin 0) x = x.
Proof.
  destruct x as [m|s|]; cbn [fadd]; [|reflexivity..]. intros [Hd Hl]. rewrite Z.add_0_l. unfold to_float.
  rewrite Hd. destruct (Z.leb_spec overflow_limit (Z.abs m)); [lia | reflexivity].
Qed.

Lemma fold_nonneg l : forall x, fnonneg x -> Forall fnonneg l -> fnonneg (fold_left fadd l x).
Proof.
  induction l as [|y l IH]; intros x Hx Hl; cbn; [exact Hx|]. inversion Hl; subst. apply IH; auto using fnonneg_add.
Qed.

Lemma contributions_nonneg i results : forall rank, Forall fnonneg (contributions i rank results).
Proof.
  induction results as [|r results IH]; intros rank; cbn [contributions]; [constructor|].
  apply Forall_app. split; [|apply IH]. destruct (has_chunk i r); [|constructor]. constructor; [apply reciprocal_nonneg | constructor].
Qed.

(** ** Tables keyed by strings *)

Lemma key_eqb a b : py_eqb (VStr a) (VStr b) = str_eqb a b.
Proof. reflexivity. Qed.

Lemma table_get_set i j d t : table_get (VStr i) (table_set (VStr j) d t) = if str_eqb i j then Some d else table_get (VStr i) t.
Proof.
  induction t as [|[k d'] t IH]; cbn [table_set table_get]; [now rewrite key_eqb|].
  destruct (py_eqb (VStr j) k) eqn:E; cbn [table_get].
  - rewrite py_eqb_str in E. apply is_str_eq in E as ->. rewrite key_eqb. now destruct (str_eqb i j).
  - rewrite IH. destruct (py_eqb (VStr i) k) eqn:E2; [|reflexivity]. destruct (str_eqb i j) eqn:E3; [|reflexivity].
    apply str_eqb_eq in E3 as ->. congruence.
Qed.

(** The keys are strings, and each candidate carries its key. *)
Record table_ok (t : table) : Prop := {
  to_keys : Forall (fun kd => exists s, fst kd = VStr s /\ dict_read "chunk_id" (snd kd) = VStr s) t;
  to_distinct : NoDup (map fst t) }.

Lemma table_set_keys j d t : Forall (fun kd => exists s, fst kd = VStr s) t ->
  map fst (table_set (VStr j) d t) = if existsb (fun k => is_str k j) (map fst t) then map fst t else map fst t ++ [VStr j].
Proof.
  induction 1 as [|[k d'] t (s & Hs) _ IH]; cbn [table_set map existsb fst]; [reflexivity|]. cbn in Hs. subst k. cbn [fst] in *.
  rewrite key_eqb. cbn [is_str]. replace (str_eqb s j) with (str_eqb j s) by (unfold str_eqb; apply bool_decide_ext; split; congruence).
  destruct (str_eqb j s); cbn [map fst orb]; [reflexivity|]. rewrite IH. now destruct (existsb _ _).
Qed.

Lemma table_set_ok i d t : table_ok t -> dict_read "chunk_id" d = VStr i -> table_ok (table_set (VStr i) d t).
Proof.
  intros [Hk Hn] Hd. constructor.
  - clear Hn. induction Hk as [|[k d'] t (s & Hs & Hc) Hk IH]; cbn [table_set]; [constructor; [exists i; auto | constructor]|].
    cbn in Hs, Hc. subst k. destruct (py_eqb (VStr i) (VStr s)) eqn:E.
    + rewrite key_eqb in E. apply str_eqb_eq in E as ->. constructor; [exists s; auto | exact Hk].
    + constructor; [exists s; auto | exact IH].
  - rewrite table_set_keys by (eapply Forall_impl; [exact Hk|]; cbn; intros x (s & Hs & _); eauto).
    destruct (existsb _ _) eqn:E; [exact Hn|]. apply NoDup_app. split_and!; [exact Hn | | apply NoDup_singleton].
    intros x Hx Hy. apply list_elem_of_singleton in Hy as ->. apply not_true_iff_false in E. apply E.
    apply existsb_exists. exists (VStr i). split; [now apply list_elem_of_In | apply is_str_refl].
Qed.

Lemma table_get_In i t : table_get (VStr i) t <> None <-> In (VStr i) (map fst t).
Proof.
  induction t as [|[k d] t IH]; cbn [table_get map In fst]; [tauto|]. rewrite py_eqb_str. destruct (is_str k i) eqn:E.
  - apply is_str_eq in E. split; [auto | discriminate].
  - rewrite IH. split; [auto|]. intros [->|H]; [|exact H]. now rewrite is_str_refl in E.
Qed.

Lemma table_get_row i d t : table_get (VStr i) t = Some d -> In (VStr i, d) t.
Proof.
  induction t as [|[k d'] t IH]; cbn [table_get]; [discriminate|]. rewrite py_eqb_str. destruct (is_str k i) eqn:E; [|auto using in_cons].
  apply is_str_eq in E as ->. intros [= ->]. apply in_eq.
Qed.

(** ** The passes *)

Lemma float_set name name' x d : float_field name (dict_set name' (VFloat x) d) = if str_eqb name name' then x else float_field name d.
Proof. unfold float_field. rewrite dict_read_set. now destruct (str_eqb name name'). Qed.

Lemma merge_score target result : float_field "score" (_merge_provenance target result) = float_field "score" target.
Proof.
  unfold _merge_provenance. revert target. induction result as [|[f v] result IH]; intros target; cbn [fold_left fst snd]; [reflexivity|].
  rewrite IH. destruct (str_in f _SCORE_FIELDS) eqn:E; [reflexivity|]. destruct (_ && _); [|reflexivity].
  unfold float_field. rewrite dict_read_set. destruct (str_eqb "score" f) eqn:E2; [|reflexivity].
  apply str_eqb_eq in E2 as <-. discriminate.
Qed.

(** A merge keeps a chunk identifier that the row confirms. *)
Lemma merge_chunk target result i : dict_read "chunk_id" target = VStr i ->
  (forall v, In ("chunk_id", v) result -> v = VStr i) -> dict_read "chunk_id" (_merge_provenance target result) = VStr i.
Proof.
  unfold _merge_provenance. revert target. induction result as [|[f v] result IH]; intros target Ht Hr; cbn [fold_left fst snd]; [exact Ht|].
  apply IH; [|intros w Hw; apply Hr; now right]. destruct (str_in f _SCORE_FIELDS); [exact Ht|].
  destruct (_ && _) eqn:E; [|exact Ht]. rewrite dict_read_set. destruct (str_eqb "chunk_id" f) eqn:E2; [|exact Ht].
  apply str_eqb_eq in E2 as <-. apply Hr. now left.
Qed.

Lemma setdefault_other name name' v d : name <> name' -> dict_read name (setdefault name' v d) = dict_read name d.
Proof.
  intros H. unfold setdefault. destruct (dict_get name' d); [reflexivity|]. rewrite dict_read_set. unfold str_eqb.
  now rewrite bool_decide_eq_false_2.
Qed.

Lemma blank_chunk result i : dict_read "chunk_id" (_blank result (VStr i)) = VStr i.
Proof.
  unfold _blank. cbv zeta. do 3 (rewrite dict_read_set; change (str_eqb "chunk_id" _) with false; cbv iota).
  match goal with |- dict_read _ (if ?b then ?x else ?y) = _ => assert (dict_read "chunk_id" x = VStr i) as H end.
  { repeat rewrite setdefault_other by discriminate. rewrite dict_read_set. reflexivity. }
  destruct (py_truthy _); [exact H|]. rewrite dict_read_set. exact H.
Qed.

Lemma blank_score result i : float_field "score" (_blank result i) = Fin 0.
Proof. unfold _blank. cbv zeta. rewrite !float_set. reflexivity. Qed.

Lemma score_raised name x item : name <> "score" -> float_field "score" (raise_score name x item) = float_field "score" item.
Proof. intros H. unfold raise_score. rewrite float_set. unfold str_eqb. now rewrite bool_decide_eq_false_2 by congruence. Qed.

Lemma score_added x item : float_field "score" (add_score x item) = fadd (float_field "score" item) x.
Proof. unfold add_score. now rewrite float_set. Qed.

Lemma chunk_raised name x item : name <> "chunk_id" -> dict_read "chunk_id" (raise_score name x item) = dict_read "chunk_id" item.
Proof. intros H. unfold raise_score. rewrite dict_read_set. unfold str_eqb. now rewrite bool_decide_eq_false_2 by congruence. Qed.

Lemma chunk_added x item : dict_read "chunk_id" (add_score x item) = dict_read "chunk_id" item.
Proof. unfold add_score. now rewrite dict_read_set. Qed.

Definition score_in (i : string) (t : table) : pyfloat :=
  match table_get (VStr i) t with Some d => float_field "score" d | None => Fin 0 end.

(** A row whose only chunk identifier is a string. *)
Definition row_ok (r : row) : Prop := NoDup (dict_keys r) /\ identified r.

Lemma row_chunk r i : row_ok r -> dict_get "chunk_id" r = Some (VStr i) -> forall v, In ("chunk_id", v) r -> v = VStr i.
Proof. intros [Hn _] Hg v Hv. apply (In_dict_get _ _ _ Hn) in Hv. congruence. Qed.

(** One step of a pass: the candidate of one chunk is replaced. *)
Record passed (results : list row) (rank : nat) (t t' : table) : Prop := {
  pa_ok : table_ok t';
  pa_score : forall i, score_in i t' = fold_left fadd (contributions i rank results) (score_in i t);
  pa_keys : forall i, In (VStr i) (map fst t') <-> In (VStr i) (map fst t) \/ Exists (fun r => has_chunk i r = true) results }.

Lemma passed_nil rank t : table_ok t -> passed [] rank t t.
Proof. intros H. constructor; [exact H | reflexivity|]. intros i. rewrite Exists_nil. tauto. Qed.

Lemma passed_cons r results rank t t' i d : row_ok r -> dict_get "chunk_id" r = Some (VStr i) ->
  dict_read "chunk_id" d = VStr i -> float_field "score" d = fadd (score_in i t) (reciprocal rank) -> table_ok t ->
  (table_ok (table_set (VStr i) d t) -> passed results (S rank) (table_set (VStr i) d t) t') -> passed (r :: results) rank t t'.
Proof.
  intros Hr Hg Hd Hs Ht Hrest. destruct (Hrest (table_set_ok _ _ _ Ht Hd)) as [H1 H2 H3].
  assert (forall j, has_chunk j r = str_eqb j i) as Hc.
  { intros j. unfold has_chunk, dict_read. rewrite Hg. cbn. unfold str_eqb. apply bool_decide_ext. split; congruence. }
  constructor; [exact H1 | |].
  - intros j. rewrite H2. cbn [contributions]. rewrite Hc. unfold score_in at 1. rewrite table_get_set.
    destruct (str_eqb j i) eqn:E; [|reflexivity]. apply str_eqb_eq in E as ->. cbn. now rewrite Hs.
  - intros j. rewrite H3, Exists_cons, <- !table_get_In, table_get_set, Hc. destruct (str_eqb j i) eqn:E; [|intuition discriminate].
    apply str_eqb_eq in E as ->. split; [auto | left; discriminate].
Qed.

Lemma fuse_dense_passed results : forall rank t t', Forall row_ok results -> table_ok t ->
  fuse_dense rank results t = Ok t' -> passed results rank t t'.
Proof.
  induction results as [|r results IH]; intros rank t t' Hrs Ht H; cbn [fuse_dense] in H.
  - apply Ok_inj in H as ->. now apply passed_nil.
  - inversion Hrs as [|? ? Hr Hrs']; subst. pose proof Hr as [_ (i & Hi)]. unfold chunk_key in H. rewrite Hi in H. cbn [py_hashable negb] in H.
    cbn [mbind res_mbind raise_if] in H. apply bind_Ok in H as (x & _ & H).
    eapply (passed_cons _ _ _ _ _ i); [exact Hr | exact Hi | | | exact Ht | intros Hok; eapply IH; [exact Hrs' | exact Hok | exact H]].
    + rewrite chunk_raised, chunk_added by discriminate. destruct (table_get (VStr i) t) as [target|] eqn:E; [|apply blank_chunk].
      apply merge_chunk; [|now apply row_chunk].
      apply table_get_row in E. destruct (proj1 (List.Forall_forall _ _) (to_keys _ Ht) _ E) as (s & [= <-] & Hs). exact Hs.
    + rewrite score_raised, score_added by discriminate. unfold score_in. destruct (table_get (VStr i) t); [now rewrite merge_score | now rewrite blank_score].
Qed.

Lemma fuse_sparse_passed results : forall rank t t', Forall row_ok results -> table_ok t ->
  fuse_sparse rank results t = Ok t' -> passed results rank t t'.
Proof.
  induction results as [|r results IH]; intros rank t t' Hrs Ht H; cbn [fuse_sparse] in H.
  - apply Ok_inj in H as ->. now apply passed_nil.
  - inversion Hrs as [|? ? Hr Hrs']; subst. pose proof Hr as [_ (i & Hi)]. unfold chunk_key in H. rewrite Hi in H. cbn [py_hashable negb] in H.
    cbn [mbind res_mbind raise_if] in H. apply bind_Ok in H as (x & _ & H).
    eapply (passed_cons _ _ _ _ _ i); [exact Hr | exact Hi | | | exact Ht | intros Hok; eapply IH; [exact Hrs' | exact Hok | exact H]].
    + rewrite chunk_raised by discriminate. destruct (table_get (VStr i) t) as [target|] eqn:E; [|rewrite dict_read_set; apply blank_chunk].
      rewrite chunk_added. apply merge_chunk; [|now apply row_chunk].
      apply table_get_row in E. destruct (proj1 (List.Forall_forall _ _) (to_keys _ Ht) _ E) as (s & [= <-] & Hs). exact Hs.
    + rewrite score_raised by discriminate. unfold score_in. destruct (table_get (VStr i) t).
      * now rewrite score_added, merge_score.
      * rewrite float_set. cbn. symmetry. apply fadd_zero, to_float_wf. unfold RRF_K. lia.
Qed.

(** ** The result *)

Definition finalized_fields : list string := ["page_start"; "page_end"; "source"; "document_filename"; "title"].

Lemma finalize_other name d : ~ In name finalized_fields -> dict_read name (_finalize_provenance d) = dict_read name d.
Proof.
  intros H. assert (forall n v e, In n finalized_fields -> dict_read name (dict_set n v e) = dict_read name e) as Hset.
  { intros n v e Hn. rewrite dict_read_set. unfold str_eqb. rewrite bool_decide_eq_false_2; [reflexivity|]. intros ->. contradiction. }
  unfold _finalize_provenance. cbv zeta.
  repeat match goal with |- context [if _has_value ?v then _ else _] => destruct (_has_value v) end;
    repeat (rewrite Hset by (cbn; tauto)); reflexivity.
Qed.

Lemma finalize_score d : float_field "score" (_finalize_provenance d) = float_field "score" d.
Proof. unfold float_field. rewrite finalize_other; [reflexivity|]. intros H. cbn in H. intuition discriminate. Qed.

Lemma finalize_chunk d : dict_read "chunk_id" (_finalize_provenance d) = dict_read "chunk_id" d.
Proof. apply finalize_other. intros H. cbn in H. intuition discriminate. Qed.

(** Sorting depends on the order of the elements at hand only. *)
Lemma insert_by_ext {A} (f g : A -> A -> bool) x l : (forall y, In y l -> f x y = g x y) -> insert_by f x l = insert_by g x l.
Proof.
  induction l as [|y l IH]; intros H; cbn; [reflexivity|]. rewrite (H y) by apply in_eq.
  destruct (g x y); [reflexivity|]. rewrite IH; [reflexivity|]. intros z Hz. apply H. now right.
Qed.

Lemma sort_by_ext {A} (f g : A -> A -> bool) l : (forall x y, In x l -> In y l -> f x y = g x y) -> sort_by f l = sort_by g l.
Proof.
  induction l as [|x l IH]; intros H; cbn; [reflexivity|]. rewrite IH by (intros; apply H; now right).
  apply insert_by_ext. intros y Hy. apply H; [apply in_eq | right; now apply sort_by_In in Hy].
Qed.

(** Nonnegative floats are ordered. *)
Definition fpos (x : pyfloat) : pyfloat := match x with NaN | Inf true => Fin 0 | _ => x end.

Lemma fpos_nonneg x : fnonneg x -> fpos x = x.
Proof. unfold fnonneg. destruct x as [m|[]|]; cbn; congruence. Qed.

Lemma fle_total x y : fle (fpos x) (fpos y) = false -> fle (fpos y) (fpos x) = true.
Proof. destruct x as [a|[]|], y as [b|[]|]; cbn; try reflexivity; try discriminate; lia. Qed.

Lemma flt_fle x y : fnonneg x -> fnonneg y -> negb (flt x y) = fle (fpos y) (fpos x).
Proof. unfold fnonneg. destruct x as [a|[]|], y as [b|[]|]; cbn; try reflexivity; try discriminate; lia. Qed.

Lemma sort_scores l : Forall (fun d => fnonneg (float_field "score" d)) l ->
  StronglySorted (fun a b => fle (float_field "score" b) (float_field "score" a) = true) (sort_by score_leb l).
Proof.
  intros Hl. pose (f := fun a b : row => fle (fpos (float_field "score" b)) (fpos (float_field "score" a))).
  rewrite List.Forall_forall in Hl. rewrite (sort_by_ext score_leb f).
  2: { intros x y Hx Hy. unfold score_leb, f. apply flt_fle; auto. }
  assert (forall x, In x (sort_by f l) -> fnonneg (float_field "score" x)) as Hn by (intros x Hx; apply Hl; now apply sort_by_In in Hx).
  assert (StronglySorted (fun a b => f a b = true) (sort_by f l)) as Hs.
  { apply sort_by_sorted; unfold f; intros; [now apply fle_total | eapply fle_trans; eassumption]. }
  clear Hl. revert Hn Hs. generalize (sort_by f l) as s. induction s as [|x s IH]; intros Hn Hs; [constructor|].
  inversion Hs as [|? ? Hs' Hx]; subst. constructor; [apply IH; [intros y Hy; apply Hn; now right | exact Hs']|].
  apply List.Forall_forall. intros y Hy. rewrite List.Forall_forall in Hx. specialize (Hx y Hy). unfold f in Hx.
  now rewrite !fpos_nonneg in Hx by (apply Hn; auto using in_eq, in_cons).
Qed.

(** ** Both passes return *)

(** The scores of a row, where it has them, are floats. *)
Definition numeric (r : row) : Prop :=
  forall name, name = "score" \/ name = "sparse_score" -> dict_read name r = VNone \/ exists f, dict_read name r = VFloat f.

Lemma float_or_zero_total v : v = VNone \/ (exists f, v = VFloat f) -> exists x, float_or_zero v = Ok x.
Proof.
  intros [->|[f ->]]; [now eexists|]. unfold float_or_zero. destruct (py_truthy (VFloat f)); eexists; reflexivity.
Qed.

Lemma default_number v o : (o = VNone \/ exists f, o = VFloat f) -> (exists f, v = VFloat f) ->
  forall r name, dict_read name r = o -> from_option id v (dict_get name r) = VNone \/ exists f, from_option id v (dict_get name r) = VFloat f.
Proof.
  intros Ho [f ->] r name H. unfold dict_read in H. destruct (dict_get name r) as [w|]; cbn in *; [subst; exact Ho | eauto].
Qed.

Lemma numeric_default r name f : numeric r -> name = "score" \/ name = "sparse_score" ->
  from_option id (VFloat f) (dict_get name r) = VNone \/ exists g, from_option id (VFloat f) (dict_get name r) = VFloat g.
Proof. intros Hr Hn. eapply default_number; eauto. Qed.

Lemma fuse_dense_total results : forall rank t, Forall row_ok results -> Forall numeric results -> exists t', fuse_dense rank results t = Ok t'.
Proof.
  induction results as [|r results IH]; intros rank t Hr Hn; cbn [fuse_dense]; [eauto|].
  inversion Hr as [|? ? [_ (i & Hi)] Hr']; inversion Hn as [|? ? Hn1 Hn']; subst. unfold chunk_key. rewrite Hi.
  cbn [py_hashable negb mbind res_mbind raise_if].
  destruct (float_or_zero_total _ (numeric_default r "score" (Fin 0) Hn1 (or_introl eq_refl))) as [x Hx]. rewrite Hx. cbn [mbind res_mbind].
  apply IH; assumption.
Qed.

Lemma fuse_sparse_total results : forall rank t, Forall row_ok results -> Forall numeric results -> exists t', fuse_sparse rank results t = Ok t'.
Proof.
  induction results as [|r results IH]; intros rank t Hr Hn; cbn [fuse_sparse]; [eauto|].
  inversion Hr as [|? ? [_ (i & Hi)] Hr']; inversion Hn as [|? ? Hn1 Hn']; subst. unfold chunk_key. rewrite Hi.
  cbn [py_hashable negb mbind res_mbind raise_if].
  assert (exists x, float_or_zero (from_option id (from_option id (VFloat (Fin 0)) (dict_get "score" r)) (dict_get "sparse_score" r)) = Ok x) as [x Hx].
  { apply float_or_zero_total. pose proof (Hn1 "sparse_score" (or_intror eq_refl)) as Hs. unfold dict_read in Hs.
    destruct (dict_get "sparse_score" r); cbn [from_option] in *; [exact Hs | exact (numeric_default r "score" (Fin 0) Hn1 (or_introl eq_refl))]. }
  rewrite Hx. cbn [mbind res_mbind]. apply IH; assumption.
Qed.

(** The fused table against the reference. *)
Lemma fused_table dense sparse : Forall row_ok (dense ++ sparse) -> Forall numeric (dense ++ sparse) ->
  exists t, rrf_fusion dense sparse = Ok (sort_by score_leb (map (fun kd => _finalize_provenance (snd kd)) t))
    /\ table_ok t /\ (forall i, score_in i t = rrf_score i dense sparse)
    /\ (forall i, In (VStr i) (map fst t) <-> Exists (fun r => has_chunk i r = true) (dense ++ sparse)).
Proof.
  intros Hr Hn. apply Forall_app in Hr as [Hd Hs]. apply Forall_app in Hn as [Nd Ns].
  assert (table_ok []) as H0 by (constructor; constructor).
  destruct (fuse_dense_total dense 0 [] Hd Nd) as [t1 H1]. destruct (fuse_sparse_total sparse 0 t1 Hs Ns) as [t2 H2].
  destruct (fuse_dense_passed _ _ _ _ Hd H0 H1) as [P1 P2 P3]. destruct (fuse_sparse_passed _ _ _ _ Hs P1 H2) as [Q1 Q2 Q3].
  exists t2. unfold rrf_fusion. rewrite H1. cbn [mbind res_mbind]. rewrite H2. cbn [mbind res_mbind]. split_and!; [reflexivity | exact Q1 | |].
  - intros i. rewrite Q2, P2. unfold rrf_score. now rewrite fold_left_app.
  - intros i. rewrite Q3, P3, Exists_app. cbn. tauto.
Qed.

Lemma table_get_unique t i d : NoDup (map fst t) -> In (VStr i, d) t -> table_get (VStr i) t = Some d.
Proof.
  induction t as [|[k d'] t IH]; cbn [map fst table_get In]; [intros _ []|]. intros Hn [Heq|Hin].
  - injection Heq as -> ->. rewrite py_eqb_str, is_str_refl. reflexivity.
  - apply NoDup_cons in Hn as [Hk Hn]. rewrite py_eqb_str. destruct (is_str k i) eqn:E; [|auto].
    apply is_str_eq in E as ->. exfalso. apply Hk, list_elem_of_In. apply in_map_iff. exists (VStr i, d). auto.
Qed.

Lemma in_map_str i l : In (VStr i) (map VStr l) <-> In i l.
Proof. rewrite in_map_iff. split; [intros (x & [= ->] & H); exact H | intros H; exists i; auto]. Qed.

Example fusion_ex :
  match rrf_fusion [[("chunk_id", VStr "a"); ("score", VFloat (lit 9 10))]; [("chunk_id", VStr "b"); ("text", VStr "B")]]
          [[("chunk_id", VStr "b"); ("score", VFloat (lit 1 2)); ("section", VStr "s")]] with
  | Ok l => map (fun d => (dict_read "chunk_id" d, dict_read "section" d, dict_read "sparse_score" d)) l
  | Err _ => []
  end = [(VStr "b", VStr "s", VFloat (lit 1 2)); (VStr "a", VNone, VFloat (Fin 0))].
Proof. vm_compute. reflexivity. Qed.

(** ** Lemmas on reranking

    Regrouping the ties permutes the candidates, class by class, and puts the
    candidates of the sparse leg first within each class. *)

Section ties.
Context {A : Type} (group : A -> pyfloat) (first : A -> bool).

Notation tied := (tied group).

Lemma tied_refl c : tied c c = true.
Proof. unfold Rerank.tied. now apply bool_decide_eq_true. Qed.

Lemma tied_eq c x : tied c x = true <-> group x = group c.
Proof. apply bool_decide_eq_true. Qed.

Lemma tied_same c d : tied c d = true -> forall x, tied d x = tied c x.
Proof. intros H x. apply tied_eq in H. unfold Rerank.tied. now rewrite H. Qed.

Lemma filter_ext_In {B} (P Q : B -> bool) l : (forall x, In x l -> P x = Q x) -> List.filter P l = List.filter Q l.
Proof.
  induction l as [|x l IH]; intros H; cbn; [reflexivity|]. rewrite (H x) by apply in_eq.
  rewrite IH by (intros; apply H; now right). reflexivity.
Qed.

Lemma regroup_same c d l : tied c d = true -> regroup group first d l = regroup group first c l.
Proof. intros H. unfold regroup. rewrite (filter_ext_In (tied d) (tied c)); [reflexivity|]. intros x _. now apply tied_same. Qed.

Lemma filter_split (P : A -> bool) l : Permutation l (List.filter P l ++ List.filter (fun x => negb (P x)) l).
Proof.
  induction l as [|x l IH]; cbn; [reflexivity|]. destruct (P x); cbn; [now constructor|].
  etransitivity; [apply Permutation_cons, IH; reflexivity|]. apply Permutation_middle.
Qed.

Lemma regroup_perm c l : Permutation (List.filter (tied c) l) (regroup group first c l).
Proof. apply filter_split. Qed.

Lemma regroup_tied c l x : In x (regroup group first c l) -> tied c x = true.
Proof.
  intros H. assert (In x (List.filter (tied c) l)) as Hx by (eapply Permutation_in; [symmetry; apply regroup_perm | exact H]).
  now apply filter_In in Hx.
Qed.

Lemma drop_nth {B} (l : list B) n d : (n < length l)%nat -> skipn n l = nth n l d :: skipn (S n) l.
Proof.
  revert n. induction l as [|x l IH]; intros [|n] H; cbn in *; try lia; [reflexivity|]. now rewrite IH by lia.
Qed.

(** The members of one class, in the slots from [l] on. *)
Lemma filter_retie o l : forall before all, all = before ++ l ->
  List.filter (tied o) (retie_from group first all before l)
  = skipn (length (List.filter (tied o) before)) (regroup group first o all).
Proof.
  induction l as [|c l IH]; intros before all Hall; cbn [retie_from List.filter].
  - rewrite app_nil_r in Hall. subst. rewrite skipn_all2; [reflexivity|].
    rewrite <- (Permutation_length (regroup_perm o before)). reflexivity.
  - rewrite (IH (before ++ [c]) all) by (now rewrite <- app_assoc). rewrite List.filter_app, length_app. cbn [List.filter].
    set (k := length (List.filter (tied o) before)).
    destruct (tied o c) eqn:E.
    + rewrite (regroup_same o c all E). rewrite (filter_ext_In (tied c) (tied o)) by (intros; now apply tied_same). fold k.
      assert (k < length (regroup group first o all))%nat as Hk.
      { rewrite <- (Permutation_length (regroup_perm o all)), Hall, List.filter_app, length_app. cbn [List.filter]. rewrite E. cbn. fold k. lia. }
      pose proof (nth_In _ c Hk) as Hin. apply regroup_tied in Hin. rewrite Hin. cbn [length]. rewrite Nat.add_1_r.
      symmetry. now apply drop_nth.
    + assert (tied o (nth (length (List.filter (tied c) before)) (regroup group first c all) c) = false) as ->.
      { apply not_true_iff_false. intros Hn. apply not_true_iff_false in E. apply E. apply tied_eq.
        set (x := nth _ _ _) in *. apply tied_eq in Hn. rewrite <- Hn.
        destruct (nth_in_or_default (length (List.filter (tied c) before)) (regroup group first c all) c) as [Hi|Hi].
        - apply regroup_tied, tied_eq in Hi. symmetry. exact Hi.
        - unfold x. now rewrite Hi. }
      cbn [length]. now rewrite Nat.add_0_r.
Qed.

Lemma filter_retie_all o l : List.filter (tied o) (retie group first l) = regroup group first o l.
Proof. unfold retie. now rewrite (filter_retie o l [] l eq_refl). Qed.

(** Two lists with the same classes, up to order, are permutations. *)
Lemma perm_by_class : forall n l m, (length l <= n)%nat ->
  (forall o, Permutation (List.filter (tied o) l) (List.filter (tied o) m)) -> Permutation l m.
Proof.
  induction n as [|n IH]; intros l m Hn H.
  - destruct l; [|cbn in Hn; lia]. destruct m as [|x m]; [reflexivity|]. exfalso. specialize (H x). cbn in H.
    rewrite tied_refl in H. now apply Permutation_nil_cons in H.
  - destruct l as [|c l].
    + destruct m as [|x m]; [reflexivity|]. exfalso. specialize (H x). cbn in H. rewrite tied_refl in H. now apply Permutation_nil_cons in H.
    + rewrite (filter_split (tied c) (c :: l)), (filter_split (tied c) m). apply Permutation_app; [apply H|].
      assert (forall k, (forall o, List.filter (tied o) (List.filter (fun x => negb (tied c x)) k)
        = if tied c o then [] else List.filter (tied o) k)) as Hrest.
      { intros k o. induction k as [|x k IHk]; cbn; [now destruct (tied c o)|]. destruct (tied c x) eqn:E1; cbn.
        - rewrite IHk. destruct (tied c o) eqn:E2; [reflexivity|]. destruct (tied o x) eqn:E3; [|reflexivity].
          exfalso. apply tied_eq in E1, E3. apply not_true_iff_false in E2. apply E2, tied_eq. congruence.
        - rewrite IHk. destruct (tied o x) eqn:E3; [|reflexivity]. destruct (tied c o) eqn:E2; [|reflexivity].
          exfalso. apply tied_eq in E2, E3. apply not_true_iff_false in E1. apply E1, tied_eq. congruence. }
      apply IH.
      * cbn [List.filter]. rewrite tied_refl. cbn [negb]. etransitivity; [apply filter_length_le|]. cbn in Hn. lia.
      * intros o. rewrite !Hrest. destruct (tied c o); [reflexivity | apply H].
Qed.

Lemma retie_perm l : Permutation l (retie group first l).
Proof.
  apply (perm_by_class (length l)); [lia|]. intros o. rewrite filter_retie_all. apply regroup_perm.
Qed.

(** Within a class, what comes before a [first] one is [first]. *)
Lemma first_before (a b p q r : list A) x d : (forall y, In y b -> first y = false) -> (forall y, In y a -> first y = true) ->
  p ++ x :: q ++ d :: r = a ++ b -> first d = true -> first x = true.
Proof.
  intros Hb. revert p. induction a as [|y a IH]; intros p Ha Heq Hd.
  - cbn in Heq. rewrite (Hb d) in Hd; [discriminate|]. rewrite <- Heq. apply in_or_app. right. right. apply in_or_app. right. apply in_eq.
  - destruct p as [|z p]; cbn in Heq; injection Heq as <- Heq; [apply Ha, in_eq|].
    apply (IH p); auto. intros w Hw. apply Ha. now right.
Qed.

Lemma retie_first l before x between d after : retie group first l = before ++ x :: between ++ d :: after ->
  group x = group d -> first d = true -> first x = true.
Proof.
  intros Hl Hg Hd. pose proof (filter_retie_all d l) as Hf. rewrite Hl in Hf.
  rewrite List.filter_app in Hf. cbn [List.filter] in Hf. rewrite List.filter_app in Hf. cbn [List.filter] in Hf.
  rewrite tied_refl in Hf. assert (tied d x = true) as Hx by (now apply tied_eq). rewrite Hx in Hf.
  eapply first_before; [| | exact Hf | exact Hd]; intros y Hy; apply filter_In in Hy as [_ Hy]; [now apply negb_true_iff | exact Hy].
Qed.
End ties.

(** ** The reranker *)

Definition reranked_fields : list string := ["score"; "bm25f_score"; "original_score"].

(** A candidate and itself with new scores. *)
Record rescoring (c c' : row) : Prop := {
  rs_fields : forall name, ~ In name reranked_fields -> dict_get name c' = dict_get name c;
  rs_original : dict_read "original_score" c' = from_option id (VFloat (Fin 0)) (dict_get "score" c) }.

Lemma rescored_spec ph terms f c text c' : rescored ph terms f c text = Ok c' -> rescoring c c'.
Proof.
  unfold rescored. intros H. apply bind_Ok in H as (fn & _ & H). apply bind_Ok in H as (tg & _ & H). cbv zeta in H.
  apply bind_Ok in H as (q & _ & H). apply Ok_inj in H as ->. constructor.
  - intros name Hn. rewrite !dict_get_set. cbn in Hn. unfold str_eqb. rewrite !bool_decide_eq_false_2 by (intros ->; tauto). reflexivity.
  - unfold dict_read. rewrite !dict_get_set. reflexivity.
Qed.

Lemma rescore_all_spec ph terms f cands : forall texts l, length texts = length cands -> rescore_all ph terms f cands texts = Ok l ->
  Forall2 rescoring cands l.
Proof.
  induction cands as [|c cands IH]; intros [|t texts] l Hl H; try discriminate Hl; cbn [rescore_all] in H.
  - apply Ok_inj in H as ->. constructor.
  - apply bind_Ok in H as (c' & Hc & H). apply bind_Ok in H as (rest & Hr & H). apply Ok_inj in H as ->.
    constructor; [exact (rescored_spec _ _ _ _ _ _ Hc)|]. apply (IH texts); [now injection Hl | exact Hr].
Qed.
