(* ===== verification/ServiceLemmas.v ===== *)
(** * Lemmas on the retrieval service

    The memo of the collection states, what an active collection and a
    published document are, and the items of an answer. *)

From Stdlib Require Import Ascii String.
From stdpp Require Import strings list.
From S2P Require Import Prelude PyFloat PyStr PyVal PyNumber KnowledgeModels ProfessorModels Orchestrator DecisionGate.
From S2P Require Import RetrievalText Fusion Retrieval RetrievalLemmas RetrievalService.

Local Open Scope string_scope.
Local Open Scope Z_scope.
Local Open Scope list_scope.

(** The knowledge holds the collection, active, under the identifier or an
    alias of it. *)
Definition active_collection (kn : knowledge) (tenant workspace collection : string) : Prop :=
  exists c, kn_get_collection kn workspace collection tenant = Returns (Some c) /\ co_tenant_id c = tenant
    /\ co_workspace_id c = workspace /\ _same_collection (co_collection_id c) collection = true
    /\ (co_status c = "active" \/ co_status c = EmptyString).

Definition published_document (kn : knowledge) (tenant workspace document : string) : Prop :=
  exists d, kn_get_document kn document tenant workspace = Returns (Some d) /\ d_tenant_id d = tenant
    /\ d_workspace_id d = workspace /\ d_document_id d = document /\ d_status d = "published".

Lemma collection_active kn tenant workspace collection :
  resolve_collection_state kn tenant workspace collection = Ok "active" -> active_collection kn tenant workspace collection.
Proof.
  unfold resolve_collection_state. destruct (kn_get_collection _ _ _ _) as [[c|]|] eqn:E; try discriminate.
  destruct (_ || _) eqn:Eb; [discriminate|]. apply orb_false_iff in Eb as [Eb E3]. apply orb_false_iff in Eb as [E1 E2].
  apply negb_false_iff in E1, E2, E3. apply str_eqb_eq in E1, E2. intros H. exists c. split_and!; auto.
  destruct (is_empty (co_status c)) eqn:Es; [right; now apply is_empty_true|].
  destruct (str_eqb (co_status c) "active") eqn:Ea; [left; now apply str_eqb_eq | discriminate].
Qed.

Lemma document_published kn tenant workspace document :
  resolve_document_state kn tenant workspace document = Ok "published" -> published_document kn tenant workspace document.
Proof.
  unfold resolve_document_state. destruct (kn_get_document _ _ _ _) as [[d|]|] eqn:E; try discriminate.
  destruct (_ || _) eqn:Eb; [discriminate|]. apply orb_false_iff in Eb as [Eb E3]. apply orb_false_iff in Eb as [E1 E2].
  apply negb_false_iff in E1, E2, E3. apply str_eqb_eq in E1, E2, E3. intros H. exists d. split_and!; auto.
  destruct (str_eqb (d_status d) "published") eqn:Ea; [now apply str_eqb_eq | discriminate].
Qed.

(** ** The memo *)

Section memo.
Context (kn : knowledge) (tenant workspace : string).

(** What is memoized is what the authority said in this query. *)
Definition memo_ok (l : lifecycle) : Prop := forall i s, dict_get i l = Some s -> resolve_collection_state kn tenant workspace i = Ok s.

Lemma memo_nil : memo_ok [].
Proof. intros i s H. discriminate. Qed.

Lemma collection_state_ok i l s l' : memo_ok l -> _collection_state kn tenant workspace i l = Ok (s, l') ->
  resolve_collection_state kn tenant workspace i = Ok s /\ memo_ok l'.
Proof.
  intros Hl. unfold _collection_state. destruct (dict_get i l) as [cached|] eqn:E.
  - intros H. apply Ok_inj in H. injection H as -> ->. auto.
  - intros H. apply bind_Ok in H as (s' & Hs & H). apply Ok_inj in H. injection H as -> ->. split; [exact Hs|].
    intros j t. rewrite dict_get_set. destruct (str_eqb j i) eqn:Ej; [|apply Hl]. apply str_eqb_eq in Ej as ->. now intros [= <-].
Qed.

Lemma collection_states_ok ids : forall l ss l', memo_ok l -> collection_states kn tenant workspace ids l = Ok (ss, l') -> memo_ok l'.
Proof.
  induction ids as [|i ids IH]; intros l ss l' Hl H; cbn [collection_states] in H.
  - apply Ok_inj in H. injection H as _ ->. exact Hl.
  - apply bind_Ok in H as ([s l1] & Hs & H). apply bind_Ok in H as ([rest l2] & Hr & H). apply Ok_inj in H. injection H as _ ->.
    apply (collection_state_ok _ _ _ _ Hl) in Hs as [_ Hl1]. exact (IH _ _ _ Hl1 Hr).
Qed.
End memo.

Lemma admitted_memo kn context b l tenant workspace : dict_read "tenant_id" context = VStr tenant ->
  dict_read "workspace_id" context = VStr workspace -> _admitted kn context [] = Ok (b, l) -> memo_ok kn tenant workspace l.
Proof.
  unfold _admitted. intros -> -> H. apply bind_Ok in H as (allowed & _ & H). destruct (concrete allowed) as [|i ids].
  - apply Ok_inj in H. injection H as _ ->. apply memo_nil.
  - apply bind_Ok in H as ([ss l'] & Hs & H). apply Ok_inj in H. injection H as _ ->.
    eapply collection_states_ok; [apply memo_nil | exact Hs].
Qed.

Lemma text_field_Some name d s : text_field name d = Some s -> dict_read name d = VStr s.
Proof. unfold text_field. destruct (dict_read name d); try discriminate. destruct (is_empty s0); [discriminate | congruence]. Qed.

(** The item may be shown. *)
Definition showable (kn : knowledge) (context item : row) : Prop :=
  exists tenant workspace collection document,
    dict_read "tenant_id" context = VStr tenant /\ dict_read "workspace_id" context = VStr workspace
    /\ dict_read "collection_id" item = VStr collection /\ dict_read "document_id" item = VStr document
    /\ active_collection kn tenant workspace collection /\ published_document kn tenant workspace document.

(** A memo of the context. *)
Definition memo_of (kn : knowledge) (context : row) (l : lifecycle) : Prop :=
  forall tenant workspace, dict_read "tenant_id" context = VStr tenant -> dict_read "workspace_id" context = VStr workspace ->
    memo_ok kn tenant workspace l.

Lemma projectable_ok kn context item l b l' : memo_of kn context l -> _projectable kn context item l = Ok (b, l') ->
  memo_of kn context l' /\ (b = true -> showable kn context item).
Proof.
  intros Hl. unfold _projectable.
  destruct (text_field "tenant_id" context) as [t|] eqn:Et; [|intros H; apply Ok_inj in H; injection H as -> ->; split; [exact Hl | discriminate]].
  destruct (text_field "workspace_id" context) as [w|] eqn:Ew; [|intros H; apply Ok_inj in H; injection H as -> ->; split; [exact Hl | discriminate]].
  destruct (text_field "collection_id" item) as [c|] eqn:Ec; [|intros H; apply Ok_inj in H; injection H as -> ->; split; [exact Hl | discriminate]].
  destruct (text_field "document_id" item) as [d|] eqn:Ed; [|intros H; apply Ok_inj in H; injection H as -> ->; split; [exact Hl | discriminate]].
  apply text_field_Some in Et, Ew, Ec, Ed. intros H. apply bind_Ok in H as ([s l1] & Hs & H).
  apply (collection_state_ok kn t w _ _ _ _ (Hl t w Et Ew)) in Hs as [Hs Hl1].
  assert (memo_of kn context l1) as Hm by (intros t' w' Ht' Hw'; rewrite Et in Ht'; rewrite Ew in Hw'; injection Ht' as <-; injection Hw' as <-; exact Hl1).
  destruct (negb (str_eqb s "active")) eqn:Ea; [apply Ok_inj in H; injection H as -> ->; split; [exact Hm | discriminate]|].
  apply negb_false_iff, str_eqb_eq in Ea. subst s. apply bind_Ok in H as (ds & Hd & H). apply Ok_inj in H. injection H as -> ->.
  split; [exact Hm|]. intros Hds. apply str_eqb_eq in Hds. subst ds. exists t, w, c, d.
  split_and!; auto using collection_active, document_published.
Qed.

(** ** The items of the answer *)

Definition filled_fields : list string :=
  ["source"; "title"; "section"; "checksum"; "document_version"; "page_start"; "page_end"; "retrieval_quality_score"; "confidence_score"].

Lemma filled_other payload item name : ~ In name filled_fields -> dict_read name (filled payload item) = dict_read name item.
Proof.
  intros H. unfold filled. cbv zeta.
  assert (forall n, In n filled_fields -> str_eqb name n = false) as E
    by (intros n Hn; unfold str_eqb; apply bool_decide_eq_false_2; intros ->; contradiction).
  assert (forall n it, In n filled_fields -> dict_read name (fill_text payload it n) = dict_read name it) as Ht
    by (intros n it Hn; unfold fill_text; destruct (_ && _); [|reflexivity]; now rewrite dict_read_set, E).
  assert (forall n it, In n filled_fields -> dict_read name (fill_page payload it n) = dict_read name it) as Hp
    by (intros n it Hn; unfold fill_page; destruct (_ && _); [|reflexivity]; now rewrite dict_read_set, E).
  cbn [fold_left]. now rewrite !Hp, !Ht by (cbn; tauto).
Qed.

(** The item shown is the item of the engine, but for provenance it lacked
    and the quality. *)
Definition shown_as (raw e : row) : Prop := forall name, ~ In name filled_fields -> dict_read name e = dict_read name raw.

Lemma project_ok tanh str_of sv context query items : forall l out, memo_of (sv_knowledge sv) context l ->
  project tanh str_of sv context query items l = Ok out ->
  exists picked, picked `sublist_of` items /\ Forall2 shown_as picked out /\ Forall (showable (sv_knowledge sv) context) picked.
Proof.
  induction items as [|raw items IH]; intros l out Hl H; cbn [project] in H.
  - apply Ok_inj in H as ->. exists []. split_and!; [reflexivity | constructor | constructor].
  - apply bind_Ok in H as ([b l'] & Hb & H). apply (projectable_ok _ _ _ _ _ _ Hl) in Hb as [Hl' Hshow]. destruct b.
    + cbv zeta in H. apply bind_Ok in H as (q & _ & H). apply bind_Ok in H as (e & He & H). apply bind_Ok in H as (rest & Hr & H).
      apply Ok_inj in H as ->. destruct (IH _ _ Hl' Hr) as (picked & Hsub & Hf & Hs). exists (raw :: picked).
      split_and!; [now apply sublist_skip | | constructor; auto]. constructor; [|exact Hf].
      unfold EvidenceDto_validate in He. cbv zeta in He. apply bind_Ok in He as (u & _ & He). apply Ok_inj in He as ->.
      intros name Hn. rewrite !dict_read_set. unfold str_eqb.
      rewrite !bool_decide_eq_false_2 by (intros ->; apply Hn; cbn; tauto). now apply filled_other.
    + destruct (IH _ _ Hl' H) as (picked & Hsub & Hf & Hs). exists picked. split_and!; auto. now apply sublist_cons.
Qed.

(** ** One query *)

Lemma memo_of_nil kn context : memo_of kn context [].
Proof. intros t w _ _ i s H. discriminate. Qed.

(** Filling the index changes neither the knowledge nor an index there is. *)
Lemma ensure_index_spec sv context sv' r : _ensure_index sv context = (sv', r) ->
  sv_knowledge sv' = sv_knowledge sv /\ (sv_indexed sv = true -> sv' = sv /\ r = Ok tt) /\ (r = Ok tt -> sv_indexed sv' = true).
Proof.
  unfold _ensure_index. destruct (sv_indexed sv) eqn:E; [intros [= <- <-]; auto|].
  destruct (points_for sv context) as [points|e].
  - destruct (index_points _ _ _) as [pv [chunks|e]]; intros [= <- <-]; split_and!; auto; discriminate.
  - intros [= <- <-]; split_and!; auto; discriminate.
Qed.

(** What a query that answers went through: the memo, the index, the engine,
    and the items that may be shown. *)
Lemma service_retrieve_Ok tanh str_of sv q context top_k sv' dto :
  service_retrieve tanh str_of sv q context top_k = (sv', Ok dto) ->
  sv_knowledge sv' = sv_knowledge sv /\ (sv_indexed sv = true -> sv' = sv)
  /\ (rd_evidence dto = [] /\ rd_selected_count dto = 0
      \/ exists r l, retrieve tanh str_of (sv_engine sv') q context (mk_options top_k true 12000 10) = Ok r
           /\ 1 <= top_k /\ memo_of (sv_knowledge sv) context l
           /\ project tanh str_of sv' context (r_query r) (r_evidence r) l = Ok (rd_evidence dto)
           /\ rd_selected_count dto = (if (length (rd_evidence dto) =? length (r_evidence r))%nat
                                       then r_selected_count r else Z.of_nat (length (rd_evidence dto)))).
Proof.
  unfold service_retrieve. cbv zeta. set (granted := py_truthy _).
  destruct (if granted then _admitted (sv_knowledge sv) context [] else Ok (true, [])) as [[[] l]|e] eqn:Ea; [| |intros [=]].
  - assert (memo_of (sv_knowledge sv) context l) as Hl.
    { destruct granted; [intros t w Ht Hw; now apply (admitted_memo _ _ true _ _ _ Ht Hw) | injection Ea as <-; apply memo_of_nil]. }
    destruct (if granted then _ensure_index sv context else (sv, Ok tt)) as [sv1 [u|e]] eqn:Ei; [|intros [=]].
    assert (sv_knowledge sv1 = sv_knowledge sv /\ (sv_indexed sv = true -> sv1 = sv)) as [Hkn Hidx].
    { destruct granted; [|injection Ei as <- <-; auto]. destruct (ensure_index_spec _ _ _ _ Ei) as (H1 & H2 & _).
      split; [exact H1 | intros H; now apply H2]. }
    intros [= <- H]. split_and!; auto. right. apply bind_Ok in H as (o & Ho & H). apply RetrievalOptions_Ok in Ho as (-> & Ho & _).
    apply bind_Ok in H as (r & Hr & H). apply bind_Ok in H as (ev & Hev & H). exists r, l.
    unfold RetrievalResultDto_new in H. apply bind_Ok in H as (u' & _ & H). apply Ok_inj in H as ->. cbn [rd_evidence rd_selected_count].
    split_and!; auto.
  - intros [= <- H]. split_and!; auto. left. unfold _lifecycle_denied, RetrievalResultDto_new in H.
    apply bind_Ok in H as (u' & _ & H). apply Ok_inj in H as ->. auto.
Qed.

Lemma sublist_all {A} (P : A -> Prop) l k : l `sublist_of` k -> Forall P k -> Forall P l.
Proof. induction 1; intros Hf; [constructor | inversion Hf; subst; auto | inversion Hf; auto]. Qed.

(** The items shown keep the scope, the texts and the count of the items of
    the engine. *)
Lemma shown_items workspace allowed tenant picked items out : picked `sublist_of` items -> Forall2 shown_as picked out ->
  Forall (fun e => scoped workspace allowed tenant e /\ text_of e <> EmptyString) items ->
  Forall (fun e => scoped workspace allowed tenant e /\ text_of e <> EmptyString) out.
Proof.
  intros Hsub Hf Hall. apply (sublist_all _ _ _ Hsub) in Hall as Hp.
  clear Hsub Hall. induction Hf as [|raw e picked out Hs _ IH]; [constructor|]. inversion Hp as [|? ? [[K1 K2 K3] K4] Hp']; subst.
  assert (forall name, ~ In name filled_fields -> dict_read name e = dict_read name raw) as Hr by exact Hs.
  constructor; [|now apply IH]. split; [|unfold text_of in *; rewrite Hr by (cbn; intuition discriminate); exact K4].
  constructor; rewrite Hr by (cbn; intuition discriminate); assumption.
Qed.

Lemma shown_size picked items out : picked `sublist_of` items -> Forall2 shown_as picked out ->
  (length out <= length items)%nat /\ total_text out <= total_text items.
Proof.
  intros Hsub Hf. rewrite <- (Forall2_length _ _ _ Hf). assert (total_text out = total_text picked) as ->.
  { clear Hsub. induction Hf as [|raw e picked out Hs _ IH]; [reflexivity|]. cbn [total_text foldr]. f_equal; [f_equal|exact IH].
    unfold text_of. now rewrite (Hs "text") by (cbn; intuition discriminate). }
  split; [now apply sublist_length|]. clear Hf. unfold total_text.
  induction Hsub as [|x l k _ IH|x l k _ IH]; cbn [foldr]; [lia | lia | pose proof (slen_nonneg (text_of x)); lia].
Qed.

Lemma shown_showable kn context picked out : Forall2 shown_as picked out -> Forall (showable kn context) picked ->
  Forall (showable kn context) out.
Proof.
  intros Hf. induction Hf as [|raw e picked out Hs _ IH]; [constructor|]. intros H. inversion H as [|? ? H1 H2]; subst.
  constructor; [|now apply IH]. destruct H1 as (t & w & c & d & H1). exists t, w, c, d.
  rewrite !(Hs _) by (cbn; intuition discriminate). exact H1.
Qed.
