(* ===== verification/RetrievalProperties.v ===== *)
(** * What retrieval guarantees *)

From Stdlib Require Import Ascii String.
From stdpp Require Import strings list.
From S2P Require Import Prelude PyFloat PyStr PyVal PyNumber ProfessorModels RequestPolicy RetrievalText Fusion Retrieval RetrievalLemmas.

Local Open Scope string_scope.
Local Open Scope Z_scope.
Local Open Scope list_scope.

(** C14: whatever the backend, the fallback and the reranker return, every item
    of a retrieval is in the tenant and workspace of the request and in a
    collection it grants, with a nonempty text; there are at most [top_k]
    items, in strictly increasing rank, and their texts together fit the
    budget. *)
Theorem retrieval_scoped tanh str_of en a_query context top_k rerank chars multiplier options r :
  RetrievalOptions_new top_k rerank chars multiplier = Ok options ->
  retrieve tanh str_of en a_query context options = Ok r ->
  exists tenant, request_tenant context tenant
  /\ (r_evidence r = [] \/ exists workspace allowed,
       dict_get "workspace_id" context = Some workspace /\ list_of (dict_read "allowed_collection_ids" context) = Ok allowed
       /\ Forall (fun e => scoped workspace allowed tenant e /\ text_of e <> EmptyString) (r_evidence r))
  /\ Z.of_nat (length (r_evidence r)) <= top_k /\ total_text (r_evidence r) <= chars
  /\ StronglySorted (fun a b => rank_of a < rank_of b) (r_evidence r)
  /\ r_selected_count r = Z.of_nat (length (r_evidence r)) /\ r_selected_count r <= r_candidate_count r.
Proof.
  intros Ho H. apply RetrievalOptions_Ok in Ho as (-> & O1 & O2). destruct (retrieve_Ok _ _ _ _ _ _ _ H) as (tenant & Ht & Hsel & Hcase).
  exists tenant. split; [exact Ht|]. destruct Hcase as [[He Hc]|(workspace & allowed & final & Hw & Ha & Hk & Hc & Hs)].
  - rewrite Hsel, He, Hc. cbn. split_and!; [now left | lia | lia | constructor | reflexivity | lia].
  - destruct (context_items _ _ _ _ _ _ _ _ Hk Hs) as (H1 & H2 & H3 & H4). cbn [o_top_k o_max_context_chars] in *.
    split_and!; [right; eauto 6 | lia | lia | exact H4 | exact Hsel | rewrite Hsel, Hc; lia].
Qed.

(** ** Fusion *)

(** C23: fusion returns for any rows with string identifiers and float scores;
    each chunk of either leg is one candidate, its score is the sum of its
    reciprocal ranks in the dense and then in the sparse leg, and the
    candidates come in descending order of score. *)
Theorem fusion_reference dense sparse : Forall row_ok (dense ++ sparse) -> Forall numeric (dense ++ sparse) ->
  exists fused ids, rrf_fusion dense sparse = Ok fused
  /\ map (dict_read "chunk_id") fused = map VStr ids /\ NoDup ids
  /\ (forall i, In i ids <-> Exists (fun r => has_chunk i r = true) (dense ++ sparse))
  /\ Forall (fun c => exists i, dict_read "chunk_id" c = VStr i /\ float_field "score" c = rrf_score i dense sparse) fused
  /\ StronglySorted (fun a b => fle (float_field "score" b) (float_field "score" a) = true) fused.
Proof.
  intros Hr Hn. destruct (fused_table dense sparse Hr Hn) as (t & Hf & [Hk Hd] & Hs & Hids).
  set (cands := map (fun kd => _finalize_provenance (snd kd)) t) in *.
  assert (map (dict_read "chunk_id") cands = map fst t) as Hchunks.
  { unfold cands. rewrite map_map. clear -Hk. induction Hk as [|[k d] t (s & Hk & Hc) _ IH]; cbn [map fst snd] in *; [reflexivity|].
    rewrite IH, finalize_chunk. now rewrite Hc, Hk. }
  assert (Permutation (map (dict_read "chunk_id") (sort_by score_leb cands)) (map fst t)) as Hperm.
  { rewrite <- Hchunks. apply Permutation_map. symmetry. apply sort_by_perm. }
  assert (exists ids, map fst t = map VStr ids) as [ids0 H0].
  { clear -Hk. induction Hk as [|[k d] t (s & Hk & _) _ (ids & IH)]; [now exists []|]. exists (s :: ids). cbn [map fst] in *. now rewrite IH, Hk. }
  rewrite H0 in Hperm. apply Permutation_map_inv in Hperm as (ids & Hids' & Hp).
  exists (sort_by score_leb cands), ids. split_and!; [exact Hf | exact Hids' | | | |].
  - rewrite <- Hp. rewrite H0 in Hd. now apply NoDup_fmap_1 in Hd.
  - intros i. rewrite <- Hids, H0, in_map_str. now rewrite Hp.
  - apply List.Forall_forall. intros c Hc. apply sort_by_In in Hc. unfold cands in Hc. apply in_map_iff in Hc as ([k d] & <- & Hin).
    destruct (proj1 (List.Forall_forall _ _) Hk _ Hin) as (i & Hi & Hci). cbn in Hi, Hci. subst k. exists i. cbn [snd].
    rewrite finalize_chunk, finalize_score. split; [exact Hci|]. rewrite <- Hs. unfold score_in.
    now rewrite (table_get_unique _ _ _ Hd Hin).
  - apply sort_scores. apply List.Forall_forall. intros c Hc. unfold cands in Hc. apply in_map_iff in Hc as ([k d] & <- & Hin).
    destruct (proj1 (List.Forall_forall _ _) Hk _ Hin) as (i & Hi & _). cbn in Hi. subst k. cbn [snd]. rewrite finalize_score.
    assert (float_field "score" d = rrf_score i dense sparse) as ->
      by (rewrite <- Hs; unfold score_in; now rewrite (table_get_unique _ _ _ Hd Hin)).
    apply fold_nonneg; [reflexivity|]. apply Forall_app. split; apply contributions_nonneg.
Qed.

(** ** A sample engine *)

Definition sample_row (chunk tenant text : string) (score : pyfloat) : row :=
  [("chunk_id", VStr chunk); ("document_id", VStr ("doc-" +:+ chunk)); ("tenant_id", VStr tenant); ("workspace_id", VStr "w1");
   ("collection_id", VStr "c1"); ("text", VStr text); ("score", VFloat score)].

Definition sample_rows : list row :=
  [sample_row "k9" "t2" "secret upload" (lit 99 100); sample_row "k1" "t1" "press upload" (lit 9 10);
   sample_row "k2" "t1" "upload a document" (lit 8 10)].

Definition sample_backend : search_backend :=
  {| be_name := "memory"; be_search := fun _ => Ok (mk_search sample_rows [sample_row "k2" "t1" "upload a document" (lit 7 10)] None false []) |}.

Definition sample_engine : engine :=
  {| en_backend := sample_backend; en_fallback := None; en_reranker := DisabledReranker; en_embed := None; en_index := [] |}.

Definition sample_scope : list (string * pyval) :=
  [("tenant_id", VStr "t1"); ("workspace_id", VStr "w1"); ("allowed_collection_ids", VList [VStr "c1"])].

Local Notation sample_retrieval :=
  (retrieve (fun x => x) (fun _ => EmptyString) sample_engine " upload  a document" sample_scope (mk_options 3 true 20 10)) (only parsing).

Lemma retrieval_scoped_witness : exists r, sample_retrieval = Ok r
  /\ map (fun e => (dict_read "chunk_id" e, text_of e)) (r_evidence r) = [(VStr "k2", "upload a document"); (VStr "k1", "pre")]
  /\ total_text (r_evidence r) <= 20.
Proof.
  assert (match sample_retrieval with Ok r => map (fun e => (dict_read "chunk_id" e, text_of e)) (r_evidence r) | Err _ => [] end
          = [(VStr "k2", "upload a document"); (VStr "k1", "pre")]) as H by (vm_compute; reflexivity).
  destruct sample_retrieval as [r|] eqn:E; [|discriminate]. exists r. split; [reflexivity | split; [exact H|]].
  destruct (retrieval_scoped (fun x => x) (fun _ => EmptyString) sample_engine " upload  a document" sample_scope 3 true 20 10
    (mk_options 3 true 20 10) r eq_refl E) as (t & _ & _ & _ & Ht & _). exact Ht.
Defined.

Definition dense_sample : list row := [sample_row "k1" "t1" "press upload" (lit 9 10); sample_row "k2" "t1" "upload a document" (lit 8 10)].
Definition sparse_sample : list row := [sample_row "k2" "t1" "upload a document" (lit 7 10)].

Lemma sample_row_ok chunk tenant text score : row_ok (sample_row chunk tenant text score) /\ numeric (sample_row chunk tenant text score).
Proof.
  split.
  - split; [|eexists; reflexivity]. cbn. repeat (apply NoDup_cons; split; [rewrite ?elem_of_cons, ?elem_of_nil; intuition discriminate|]). constructor.
  - intros name [->| ->]; cbn; eauto.
Qed.

(** The chunk both legs found comes first, with the sum of its reciprocal ranks. *)
Lemma fusion_reference_witness : exists fused, rrf_fusion dense_sample sparse_sample = Ok fused
  /\ map (dict_read "chunk_id") fused = [VStr "k2"; VStr "k1"]
  /\ map (float_field "score") fused = [fadd (lit 1 62) (lit 1 61); lit 1 61]
  /\ Forall (fun c => exists i, dict_read "chunk_id" c = VStr i /\ float_field "score" c = rrf_score i dense_sample sparse_sample) fused.
Proof.
  assert (Forall row_ok (dense_sample ++ sparse_sample)) as H1 by (cbn [dense_sample sparse_sample app]; repeat (constructor; [apply sample_row_ok|]); constructor).
  assert (Forall numeric (dense_sample ++ sparse_sample)) as H2 by (cbn [dense_sample sparse_sample app]; repeat (constructor; [apply sample_row_ok|]); constructor).
  destruct (fusion_reference dense_sample sparse_sample H1 H2) as (fused & ids & Hf & _ & _ & _ & Hs & _). exists fused.
  split; [exact Hf|].
  assert (match rrf_fusion dense_sample sparse_sample with Ok l => map (dict_read "chunk_id") l | Err _ => [] end
          = [VStr "k2"; VStr "k1"]) as H by (vm_compute; reflexivity).
  assert (match rrf_fusion dense_sample sparse_sample with Ok l => map (float_field "score") l | Err _ => [] end
          = [fadd (lit 1 62) (lit 1 61); lit 1 61]) as H' by (vm_compute; reflexivity).
  rewrite Hf in H, H'. split; [exact H | split; [exact H' | exact Hs]].
Defined.

(** ** Rows out of scope *)

(** The backend with every row out of the scope of the search removed. *)
Definition scoped_backend (b : search_backend) : search_backend :=
  {| be_name := be_name b;
     be_search := fun r =>
       found ← be_search b r;
       let keep := List.filter (kept (q_workspace r) (q_allowed r) (q_tenant r)) in
       Ok (mk_search (keep (sr_dense found)) (keep (sr_sparse found)) (sr_backend found) (sr_fallback_used found) (sr_metadata found)) |}.

Definition scoped_engine (en : engine) : engine :=
  {| en_backend := scoped_backend (en_backend en); en_fallback := en_fallback en; en_reranker := en_reranker en;
     en_embed := en_embed en; en_index := en_index en |}.

Lemma ranked_filtered tanh query workspace allowed tenant dense sparse :
  ranked tanh query workspace allowed tenant (List.filter (kept workspace allowed tenant) dense) (List.filter (kept workspace allowed tenant) sparse)
  = ranked tanh query workspace allowed tenant dense sparse.
Proof.
  unfold ranked. cbv zeta. change (List.filter (fun c => _in_scope c workspace allowed tenant)) with (List.filter (kept workspace allowed tenant)).
  now rewrite !filter_idem.
Qed.

(** C22: without a fallback, rows out of the scope of the request change
    nothing: not the candidates, their scores, ranks, provenance or counts,
    nor an error. *)
Theorem foreign_rows_irrelevant tanh str_of en a_query context options : en_fallback en = None ->
  retrieve tanh str_of (scoped_engine en) a_query context options = retrieve tanh str_of en a_query context options.
Proof.
  intros Hfb. unfold retrieve. destruct (normalize_query a_query) as [q|]; [|reflexivity]. cbn [mbind res_mbind].
  destruct (match dict_get "workspace_id" context with Some w => Ok w | None => Err RetKeyError end) as [workspace|]; [|reflexivity].
  cbn [mbind res_mbind]. match goal with |- (?m ≫= _) = _ => destruct m as [tenant|]; [|reflexivity] end. cbn [mbind res_mbind].
  destruct (list_of _) as [[|a al]|]; try reflexivity. cbn [mbind res_mbind]. cbn [en_embed scoped_engine en_index en_reranker].
  match goal with |- (?m ≫= _) = _ => destruct m as [v|]; [|reflexivity] end. cbn [mbind res_mbind]. cbv zeta.
  unfold search_all. cbv zeta. cbn [en_backend en_fallback scoped_engine be_name be_search scoped_backend]. rewrite Hfb.
  set (request := mk_search_request _ _ _ _ _ _ _).
  destruct (be_search (en_backend en) request) as [found|[]]; cbn [mbind res_mbind]; try reflexivity.
  cbn [sr_dense sr_sparse sr_backend sr_fallback_used sr_metadata].
  assert (forall (d s : list row) (n : string) (f : bool) (m : list (string * pyval)),
    match d, s with [], [] => Ok (d, s, n, f, m) | _, _ => Ok (d, s, n, f, m) end = (Ok (d, s, n, f, m) : res ret_error legs)) as Hm
    by (intros [|] [|]; reflexivity).
  repeat rewrite Hm. cbn [mbind res_mbind]. destruct (raise_if _ _) as [u|]; [|reflexivity]. cbn [mbind res_mbind].
  unfold request at 1 2 3 4 5 6. cbn [q_workspace q_allowed q_tenant]. now rewrite ranked_filtered.
Qed.

(** The first of the three rows is another tenant's. *)
Lemma foreign_rows_irrelevant_witness : en_fallback sample_engine = None
  /\ match be_search (en_backend (scoped_engine sample_engine)) (mk_search_request "upload" [] (VStr "w1") [VStr "c1"] [] 20 "t1") with
     | Ok found => map (dict_read "chunk_id") (sr_dense found) = [VStr "k1"; VStr "k2"]
     | Err _ => False
     end
  /\ retrieve (fun x => x) (fun _ => EmptyString) (scoped_engine sample_engine) "upload" sample_scope (mk_options 3 true 20 10)
     = retrieve (fun x => x) (fun _ => EmptyString) sample_engine "upload" sample_scope (mk_options 3 true 20 10).
Proof. split_and!; [reflexivity | vm_compute; reflexivity | apply foreign_rows_irrelevant; reflexivity]. Defined.
