(* ===== verification/ServiceProperties.v ===== *)
(** * What reranking and the retrieval service guarantee *)

From Stdlib Require Import Ascii String.
From stdpp Require Import strings list.
From S2P Require Import Prelude PyFloat PyStr PyVal PyNumber KnowledgeModels ProfessorModels Orchestrator DecisionGate.
From S2P Require Import RequestPolicy RetrievalText Fusion Retrieval Rerank RetrievalService RetrievalLemmas ServiceLemmas.

Local Open Scope string_scope.
Local Open Scope Z_scope.
Local Open Scope list_scope.

(** ** Reranking *)

(** C24: the lexical reranker neither drops, invents nor duplicates a
    candidate: what it returns is a permutation of its candidates, each
    unchanged but for its scores, with the fused score kept beside the new
    one; and among candidates with the same fused score those the sparse leg
    found come first. *)
Theorem rerank_permutes log pow_half query candidates l : BM25FReranker log pow_half query candidates = Ok l ->
  l = candidates \/ exists scored, Forall2 rescoring candidates scored /\ Permutation scored l
    /\ (forall before x between d after, l = before ++ x :: between ++ d :: after ->
          float_field "original_score" x = float_field "original_score" d -> sparse_found d = true -> sparse_found x = true).
Proof.
  unfold BM25FReranker. destruct candidates as [|c cs]; [intros H; apply Ok_inj in H as ->; now left|].
  destruct (query_vocabulary query); [intros H; apply Ok_inj in H as ->; now left|].
  intros H. apply bind_Ok in H as (texts & Ht & H). cbv zeta in H. apply bind_Ok in H as (scored & Hs & H). apply Ok_inj in H as ->.
  right. exists scored. split_and!.
  - eapply rescore_all_spec; [|exact Hs]. apply res_mapM_Ok, Forall2_length in Ht. now symmetry.
  - etransitivity; [apply sort_by_perm | apply retie_perm].
  - intros before x between d after. apply retie_first.
Qed.

(** ** The service *)

(** C13: whatever the index and the backends hold, every item a query shows
    is of a document the knowledge says is published and of a collection it
    says is active, when the query asks, in the tenant, the workspace and the
    grants of the request; there are at most [top_k] items whose texts fit
    12,000 characters and [selected_count] counts them; and a query leaves an
    index already filled as it is. *)
Theorem service_lifecycle tanh str_of sv a_query context top_k sv' dto :
  service_retrieve tanh str_of sv a_query context top_k = (sv', Ok dto) ->
  Forall (showable (sv_knowledge sv) context) (rd_evidence dto)
  /\ (rd_evidence dto = [] \/ exists tenant workspace allowed,
       request_tenant context tenant /\ dict_get "workspace_id" context = Some workspace
       /\ list_of (dict_read "allowed_collection_ids" context) = Ok allowed
       /\ Forall (fun e => scoped workspace allowed tenant e /\ text_of e <> EmptyString) (rd_evidence dto))
  /\ Z.of_nat (length (rd_evidence dto)) <= Z.max 0 top_k /\ total_text (rd_evidence dto) <= 12000
  /\ rd_selected_count dto = Z.of_nat (length (rd_evidence dto))
  /\ sv_knowledge sv' = sv_knowledge sv /\ (sv_indexed sv = true -> sv' = sv).
Proof.
  intros H. destruct (service_retrieve_Ok _ _ _ _ _ _ _ _ H) as (Hkn & Hidx & [[He Hc]|(r & l & Hr & Ho & Hl & Hp & Hc)]).
  - rewrite He, Hc. cbn. split_and!; auto; lia.
  - rewrite <- Hkn in Hl. destruct (project_ok _ _ _ _ _ _ _ _ Hl Hp) as (picked & Hsub & Hf & Hs). rewrite Hkn in Hs.
    destruct (shown_size _ _ _ Hsub Hf) as [Hlen Htot]. pose proof (shown_showable _ _ _ _ Hf Hs) as Hshow.
    destruct (retrieve_Ok _ _ _ _ _ _ _ Hr) as (tenant & Ht & Hsel & Hcase).
    assert (rd_selected_count dto = Z.of_nat (length (rd_evidence dto))) as Hcount
      by (rewrite Hc; destruct (_ =? _)%nat eqn:E; [apply Nat.eqb_eq in E; congruence | reflexivity]).
    destruct Hcase as [[Hev _]|(workspace & allowed & final & Hw & Ha & Hk & _ & Hsc)].
    + rewrite Hev in Hlen, Htot. destruct (rd_evidence dto); [|cbn in Hlen; lia]. split_and!; auto; cbn; lia.
    + destruct (context_items _ _ _ _ _ _ _ _ Hk Hsc) as (H1 & H2 & H3 & _). cbn [o_top_k o_max_context_chars] in *.
      split_and!; auto; try lia. right. exists tenant, workspace, allowed. eauto using shown_items.
Qed.

(** ** Samples *)

Definition fused_row (chunk text : string) (score : pyfloat) (sparse : list (string * pyval)) : row :=
  [("chunk_id", VStr chunk); ("text", VStr text); ("score", VFloat score)] ++ sparse.

(** Two tied candidates. *)
Definition tied_rows : list row :=
  [fused_row "k1" "pump" (Fin 2) []; fused_row "k2" "valve" (Fin 2) [("sparse_score", VFloat (Fin 1))]].

Local Notation sample_rerank := (BM25FReranker (fun x => x) (fun x => x) "seal" tied_rows) (only parsing).

Lemma rerank_permutes_witness : exists l, sample_rerank = Ok l /\ map (dict_read "chunk_id") l = [VStr "k2"; VStr "k1"]
  /\ (l = tied_rows \/ exists scored, Forall2 rescoring tied_rows scored /\ Permutation scored l).
Proof.
  assert (match sample_rerank with Ok l => map (dict_read "chunk_id") l | Err _ => [] end = [VStr "k2"; VStr "k1"]) as H
    by (vm_compute; reflexivity).
  destruct sample_rerank as [l|] eqn:E; [|discriminate]. exists l. split; [reflexivity | split; [exact H|]].
  destruct (rerank_permutes _ _ _ _ _ E) as [Hl|(scored & H1 & H2 & _)]; [now left | right; eauto].
Defined.

Definition point (document tenant text : string) : pyval :=
  VDict [("payload", VDict [("document_id", VStr document); ("chunk_id", VStr (document +:+ "-0")); ("tenant_id", VStr tenant);
                            ("workspace_id", VStr "w1"); ("collection_id", VStr "c1"); ("text", VStr text);
                            ("title", VStr "Manual"); ("page_start", VInt 4)]);
         ("vector", VList [])].

Definition sample_document (document tenant status : string) : Document :=
  mk_document document "w1" "c1" tenant "v1" "sum" "manual.pdf" EmptyString "Manual" "pdf" "application/pdf" None status
    "p1" "k1" "m1" "e1" [] "v1" "obj" None None.

(** Documents [a] and [c] are published, [b] is still processed. *)
Definition sample_knowledge : knowledge := {|
  kn_get_document := fun d t w =>
    Returns (if str_eqb d "a" || str_eqb d "c" then Some (sample_document d t "published")
             else if str_eqb d "b" then Some (sample_document d t "processing") else None);
  kn_get_collection := fun w c t => Returns (if str_eqb c "c1" then Some (mk_collection w c t "Manuals" EmptyString "active" 1 []) else None);
  kn_scoped_chunks := false;
  kn_get_chunks := fun d _ => Returns [] |}.

(** A vector store of two tenants, read within a scope. *)
Definition sample_reader (tenant workspace : string) (allowed : list pyval) : points_call :=
  Points (if str_eqb tenant "t1" then [point "b" "t1" "draft pump"; point "a" "t1" "pump inspection"] else [point "c" tenant "pump repair"]).

Definition fresh_service : service :=
  mk_service {| en_backend := InMemoryBackend (fun x => x) (fun x => x) (fun _ => 0); en_fallback := None;
                en_reranker := DisabledReranker; en_embed := None; en_index := [] |}
    sample_knowledge (Some sample_reader) false false [] [].

Definition request_of (tenant : string) : row :=
  [("tenant_id", VStr tenant); ("workspace_id", VStr "w1"); ("allowed_collection_ids", VList [VStr "c1"])].

Definition shown (r : res ret_error RetrievalResultDto) : list (pyval * pyval * pyval) :=
  match r with
  | Ok dto => map (fun e => (dict_read "document_id" e, dict_read "title" e, dict_read "page_start" e)) (rd_evidence dto)
  | Err _ => []
  end.

Local Notation ask sv tenant := (service_retrieve (fun x => x) (fun _ => EmptyString) sv "pump" (request_of tenant) 3) (only parsing).

(** The draft is not shown. *)
Lemma service_lifecycle_witness : exists sv dto, ask fresh_service "t1" = (sv, Ok dto)
  /\ shown (Ok dto) = [(VStr "a", VStr "Manual", VInt 4)] /\ Forall (showable sample_knowledge (request_of "t1")) (rd_evidence dto).
Proof.
  assert (match ask fresh_service "t1" with (_, r) => shown r end = [(VStr "a", VStr "Manual", VInt 4)]) as H by (vm_compute; reflexivity).
  destruct (ask fresh_service "t1") as [sv [dto|e]] eqn:E; [|discriminate]. exists sv, dto. split; [reflexivity | split; [exact H|]].
  apply (service_lifecycle _ _ _ _ _ _ _ _ E).
Defined.

(** The index is filled once, within the scope of the first request: another
    tenant, whose first request finds its document, finds nothing when it asks
    second. *)
Example index_of_the_first_scope :
  shown (snd (ask fresh_service "t2")) = [(VStr "c", VStr "Manual", VInt 4)]
  /\ shown (snd (ask (fst (ask fresh_service "t1")) "t2")) = [].
Proof. split; vm_compute; reflexivity. Qed.
