(* ===== verification/Chunking.v ===== *)
(** * Splitting a document into chunks (packages/ingestion, chunking.py)

    The recursive splitter: paragraphs are packed into chunks with a window of
    overlap, an oversized paragraph is packed by sentences, and every character
    keeps its position in the source, from which the pages of a chunk are read. *)

From Stdlib Require Import Ascii String.
From stdpp Require Import strings list.
From S2P Require Import Prelude PyStr Identity.

Local Open Scope string_scope.
Local Open Scope Z_scope.
Local Open Scope list_scope.

Record ChunkPlan : Type := mk_plan {
  cp_text : string; cp_chunk_index : Z; cp_page_start : option Z; cp_checksum : string; cp_page_end : option Z }.

Definition DEFAULT_CHUNK_SIZE : Z := 1200.
Definition DEFAULT_OVERLAP : Z := 240.

(** [s[n:]] and [s[start:end]] for [0 <= start]. *)
Fixpoint sskip (n : nat) (s : string) : string :=
  match n, s with S n', String _ s' => sskip n' s' | _, _ => s end.

Definition slice (from to : Z) (s : string) : string := stake (Z.to_nat (to - from)) (sskip (Z.to_nat from) s).

(** [range(a, b)]. *)
Definition zrange (a b : Z) : list Z := map (fun k => a + Z.of_nat k) (seq 0 (Z.to_nat (b - a))).

(** ** Pages *)

Fixpoint _page_hint (char_pos : Z) (boundaries : list (Z * Z)) : option Z :=
  match boundaries with
  | [] => None
  | [(_, page)] => Some page
  | (start, page) :: (((end_, _) :: _) as rest) =>
      if (start <=? char_pos) && (char_pos <? end_) then Some page else _page_hint char_pos rest
  end.

Definition _trimmed_span (start : Z) (value : string) : Z * Z :=
  (start + (slen value - slen (lstrip value)), start + slen (rstrip value)).

Definition _page_span (char_positions : list Z) (boundaries : list (Z * Z)) : option Z * option Z :=
  match char_positions with
  | [] => (None, None)
  | p :: ps => (_page_hint (fold_left Z.min ps p) boundaries, _page_hint (fold_left Z.max ps p) boundaries)
  end.

(** The text of the pages, and where each begins. *)
Fixpoint page_boundaries (char_pos : Z) (pages : list (Z * string)) : string * list (Z * Z) :=
  match pages with
  | [] => (EmptyString, [])
  | (page_number, page_text) :: pages' =>
      let '(text, boundaries) := page_boundaries (char_pos + slen page_text + 1) pages' in
      (page_text +:+ String (chr 10) text, (char_pos, page_number) :: boundaries)
  end.

(** ** Sentences *)

Definition sentence_end (c : ascii) : bool := is_char 46 c || is_char 33 c || is_char 63 c.

(** The segments between the matches of [(?<=[.!?])\s+], with their starts.
    [ended]: the character before is the end of a sentence; [gap]: the
    whitespace of a match is being consumed. *)
Fixpoint segments (ended gap : bool) (segment_start pos : Z) (segment s : string) : list (Z * string) :=
  match s with
  | EmptyString => [(segment_start, segment)]
  | String c s' =>
      if gap then
        if isspace c then segments false true (pos + 1) (pos + 1) EmptyString s'
        else segments (sentence_end c) false pos (pos + 1) (String c EmptyString) s'
      else if ended && isspace c then (segment_start, segment) :: segments false true (pos + 1) (pos + 1) EmptyString s'
      else segments (sentence_end c) false segment_start (pos + 1) (segment +:+ String c EmptyString) s'
  end.

Definition _sentence_spans (text : string) (text_start : Z) : list (string * Z * Z) :=
  flat_map (fun seg => let '(start, end_) := _trimmed_span (fst seg) (snd seg) in
                       if start <? end_ then [(slice start end_ text, text_start + start, text_start + end_)] else [])
    (segments false false 0 0 EmptyString text).

(** ** Paragraphs *)

Fixpoint newlines (n : nat) : string := match n with O => EmptyString | S n' => String (chr 10) (newlines n') end.

(** [re.split(r"\n{2,}", s)]; [nl] newlines are pending. *)
Fixpoint split_blank_lines (current : string) (nl : nat) (s : string) : list string :=
  match s with
  | EmptyString => if (2 <=? nl)%nat then [current; EmptyString] else [current +:+ newlines nl]
  | String c s' =>
      if is_char 10 c then split_blank_lines current (S nl) s'
      else if (2 <=? nl)%nat then current :: split_blank_lines (String c EmptyString) O s'
      else split_blank_lines (current +:+ newlines nl +:+ String c EmptyString) O s'
  end.

(** [text.find(part, pos)] on the text from [pos]. *)
Fixpoint find_from (part s : string) (pos : Z) : option Z :=
  if String.prefix part s then Some pos
  else match s with EmptyString => None | String _ s' => find_from part s' (pos + 1) end.

Fixpoint locate (text : string) (current_pos : Z) (parts : list string) : list (Z * string) :=
  match parts with
  | [] => []
  | part :: parts' =>
      if is_empty (strip part) then locate text current_pos parts'
      else match find_from part (sskip (Z.to_nat current_pos) text) current_pos with
      | Some found => (found, part) :: locate text (found + slen part) parts'
      | None => locate text current_pos parts'
      end
  end.

Definition _paragraphs_with_positions (text : string) : list (Z * string) :=
  locate text 0 (if contains (newlines 2) text then split_blank_lines EmptyString O text else split_on (chr 10) text).

(** [_SEPARATOR_PATTERN.match] on a stripped text. *)
Definition is_separator (para_text : string) : bool :=
  (3 <=? slen para_text) && (sall (is_char 45) para_text || sall (is_char 42) para_text || sall (is_char 95) para_text).

(** ** The splitter *)

Record chunk_state : Type := mk_chunking {
  cs_plans : list ChunkPlan; cs_current_text : string; cs_current_positions : list Z }.

Section chunk.
Context (chunk_size overlap : Z) (boundaries : list (Z * Z)).

(** Sentences packed up to the size of a chunk, with the positions of their
    characters. *)
Fixpoint pack (sentences : list (string * Z * Z)) (current : string) (current_positions : list Z)
    : list (string * list Z) :=
  match sentences with
  | [] => if is_empty (strip current) then [] else [(strip current, current_positions)]
  | (sentence, sentence_start, sentence_end) :: sentences' =>
      if slen current + slen sentence + 1 <=? chunk_size then
        if is_empty current then
          pack sentences' sentence (current_positions ++ zrange sentence_start sentence_end)
        else
          pack sentences' (current +:+ " " +:+ sentence)
            (current_positions ++ [Z.max (sentence_start - 1) 0] ++ zrange sentence_start sentence_end)
      else
        let rest := pack sentences' sentence (zrange sentence_start sentence_end) in
        if is_empty current then rest else (current, current_positions) :: rest
  end.

Definition _split_sentences_with_positions (text : string) (text_start : Z) : list (string * list Z) :=
  pack (_sentence_spans text text_start) EmptyString [].

(** [char_positions[left:len(char_positions) - right]]. *)
Definition trimmed_positions (chunk_text : string) (char_positions : list Z) : list Z :=
  let left := (Strings.String.length chunk_text - Strings.String.length (lstrip chunk_text))%nat in
  let right := (Strings.String.length chunk_text - Strings.String.length (rstrip chunk_text))%nat in
  skipn left (firstn (length char_positions - right) char_positions).

Definition append_plan (chunk_text : string) (char_positions : list Z) (plans : list ChunkPlan) : list ChunkPlan :=
  let clean_text := strip chunk_text in
  if is_empty clean_text then plans
  else
    let '(page_start, page_end) := _page_span (trimmed_positions chunk_text char_positions) boundaries in
    plans ++ [mk_plan clean_text (Z.of_nat (length plans)) page_start (content_checksum clean_text) page_end].

Definition flush (st : chunk_state) : chunk_state :=
  if is_empty (strip (cs_current_text st)) then st
  else mk_chunking (append_plan (cs_current_text st) (cs_current_positions st) (cs_plans st)) EmptyString [].

(** [s[-n:]] and [l[-n:]] for [0 < n]. *)
Definition slast (n : Z) (s : string) : string := sskip (Strings.String.length s - Z.to_nat n) s.
Definition llast {A} (n : Z) (l : list A) : list A := skipn (length l - Z.to_nat n) l.

Definition start_with_overlap (prev_text : string) (prev_positions : list Z) (st : chunk_state) : chunk_state :=
  let overlap_text := if 0 <? overlap then slast overlap prev_text else EmptyString in
  mk_chunking (cs_plans st) overlap_text
    (if is_empty overlap_text then [] else llast (slen overlap_text) prev_positions).

(** [flush()] and [start_with_overlap(...)] on what was current before. *)
Definition flush_with_overlap (st : chunk_state) : chunk_state :=
  start_with_overlap (cs_current_text st) (cs_current_positions st) (flush st).

Definition clear (st : chunk_state) : chunk_state := mk_chunking (cs_plans st) EmptyString [].

(** The body of the loop over the paragraphs. *)
Definition chunk_paragraph (st : chunk_state) (para : Z * string) : chunk_state :=
  let '(para_start, para_text) := para in
  let '(para_content_start, para_content_end) := _trimmed_span para_start para_text in
  let para_text := strip para_text in
  if is_empty para_text then st
  else if is_separator para_text then
    if is_empty (strip (cs_current_text st)) then st else clear (flush_with_overlap st)
  else if chunk_size <? slen para_text then
    let st := if is_empty (cs_current_text st) then st else clear (flush_with_overlap st) in
    mk_chunking
      (fold_left (fun plans sp => append_plan (fst sp) (snd sp) plans)
         (_split_sentences_with_positions para_text para_content_start) (cs_plans st))
      (cs_current_text st) (cs_current_positions st)
  else
    let st := if (chunk_size <? slen (cs_current_text st) + slen para_text + 1) && negb (is_empty (cs_current_text st))
              then flush_with_overlap st else st in
    if is_empty (cs_current_text st) then
      mk_chunking (cs_plans st) para_text (zrange para_content_start para_content_end)
    else
      mk_chunking (cs_plans st) (cs_current_text st +:+ String (chr 10) para_text)
        (cs_current_positions st ++ [Z.max (para_content_start - 1) 0] ++ zrange para_content_start para_content_end).
End chunk.

(** [RecursiveChunkingStrategy.chunk]; its [text] and [document_id] are not
    read. *)
Definition chunk (pages : list (Z * string)) (chunk_size overlap : Z) : list ChunkPlan :=
  let '(all_text, boundaries) := page_boundaries 0 pages in
  let st := fold_left (chunk_paragraph chunk_size overlap boundaries) (_paragraphs_with_positions all_text) (mk_chunking [] EmptyString []) in
  cs_plans (flush boundaries st).
