(* ===== verification/ChunkLemmas.v ===== *)
(** * Lemmas on the chunker

    White space and splitting, where each chunk comes from in the source text, and the
    invariants of the packing loop of packages/ingestion/src/rick_ingestion/chunking.py. *)

From Stdlib Require Import Ascii String.
From stdpp Require Import strings list.
From S2P Require Import Prelude PyStr Identity Chunking.

Local Open Scope string_scope.
Local Open Scope Z_scope.
Local Open Scope list_scope.

(** ** Lemmas on the splitter

    Characters and their positions: stripping, searching and splitting keep
    each character that is not whitespace at its place in the source. *)

(** ** Strings as their characters *)

Notation chars := list_ascii_of_string.
Notation spaces w := (sall isspace w = true).

Lemma chars_app s t : chars (s +:+ t) = chars s ++ chars t.
Proof. induction s as [|c s IH]; [reflexivity|]. cbn. now rewrite IH. Qed.

Lemma chars_length s : length (chars s) = Strings.String.length s.
Proof. induction s as [|c s IH]; cbn; [reflexivity | now rewrite IH]. Qed.

Lemma slen_chars s : slen s = Z.of_nat (length (chars s)).
Proof. now rewrite chars_length. Qed.

Lemma sapp_nil_r s : s +:+ EmptyString = s.
Proof. induction s as [|c s IH]; cbn; [reflexivity | now rewrite IH]. Qed.

Lemma sapp_assoc s t u : (s +:+ t) +:+ u = s +:+ t +:+ u.
Proof. induction s as [|c s IH]; cbn; [reflexivity | now rewrite IH]. Qed.

Lemma sskip_app s t : sskip (Strings.String.length s) (s +:+ t) = t.
Proof. induction s as [|c s IH]; cbn; [now destruct t | exact IH]. Qed.

Lemma stake_app s t : stake (Strings.String.length s) (s +:+ t) = s.
Proof. induction s as [|c s IH]; cbn; [now destruct t | now rewrite IH]. Qed.

Lemma sskip_split n s : exists a, s = a +:+ sskip n s /\ Strings.String.length a = Nat.min n (Strings.String.length s).
Proof.
  revert n; induction s as [|c s IH]; intros [|n]; cbn; [exists EmptyString; auto | exists EmptyString; auto | exists EmptyString; auto|].
  destruct (IH n) as (a & Ha & Hl). exists (String c a). cbn. rewrite <- Ha, Hl. auto.
Qed.

Lemma spaces_In w c : spaces w -> In c (chars w) -> isspace c = true.
Proof. induction w as [|d w IH]; cbn; [tauto|]. rewrite andb_true_iff. intros [H1 H2] [<-|H]; auto. Qed.

(** ** Stripping *)

Lemma lstrip_split s : exists w, s = w +:+ lstrip s /\ spaces w.
Proof.
  induction s as [|c s (w & IH & Hw)]; cbn; [now exists EmptyString|].
  destruct (isspace c) eqn:E; [|now exists EmptyString]. exists (String c w). cbn. rewrite <- IH, E, Hw. auto.
Qed.

Lemma rstrip_split s : exists w, s = rstrip s +:+ w /\ spaces w.
Proof.
  induction s as [|c s (w & IH & Hw)]; cbn; [now exists EmptyString|].
  destruct (isspace c && is_empty (rstrip s)) eqn:E.
  - apply andb_true_iff in E as [E1 E2]. apply is_empty_true in E2. rewrite E2 in IH. cbn in IH. subst w.
    exists (String c s). cbn. now rewrite E1, Hw.
  - exists w. cbn. now rewrite <- IH.
Qed.

Lemma rstrip_app s t : rstrip t <> EmptyString -> rstrip (s +:+ t) = s +:+ rstrip t.
Proof.
  intros H. induction s as [|c s IH]; cbn; [reflexivity|]. rewrite IH.
  destruct (isspace c && is_empty (s +:+ rstrip t)) eqn:E; [|reflexivity]. apply andb_true_iff in E as [_ E].
  apply is_empty_true in E. destruct s; [contradiction | discriminate].
Qed.

(** A string that begins and ends with characters that are not whitespace. *)
Definition trimmed (s : string) : Prop := s <> EmptyString /\ strip s = s.
(** A string that ends with such a character. *)
Definition rtrimmed (s : string) : Prop := s <> EmptyString /\ rstrip s = s.

Lemma strip_trimmed s : strip s <> EmptyString -> trimmed (strip s).
Proof. intros H. split; [exact H | apply strip_idem]. Qed.

Lemma strip_nil : strip EmptyString = EmptyString.
Proof. reflexivity. Qed.

Lemma trimmed_rtrimmed s : trimmed s -> rtrimmed s.
Proof. intros [H1 H2]. split; [exact H1|]. rewrite <- H2 at 1. unfold strip. rewrite rstrip_idem. exact H2. Qed.

Lemma trimmed_head s : trimmed s -> exists c s', s = String c s' /\ isspace c = false.
Proof.
  intros [H1 H2]. destruct s as [|c s]; [contradiction|]. exists c, s. split; [reflexivity|].
  destruct (isspace c) eqn:E; [|reflexivity]. exfalso. apply (f_equal slen) in H2. unfold strip in H2. cbn [lstrip] in H2. rewrite E in H2.
  pose proof (slen_rstrip (lstrip s)). pose proof (slen_lstrip s). rewrite slen_cons in H2. lia.
Qed.

Lemma rtrimmed_app s t : rtrimmed t -> rtrimmed (s +:+ t).
Proof.
  intros [H1 H2]. split; [destruct s; [exact H1 | discriminate]|]. rewrite rstrip_app, H2; congruence.
Qed.

Lemma trimmed_app s m t : trimmed s -> trimmed t -> trimmed (s +:+ m +:+ t).
Proof.
  intros Hs Ht. assert (rtrimmed (s +:+ m +:+ t)) as [H1 H2] by (do 2 apply rtrimmed_app; now apply trimmed_rtrimmed).
  split; [exact H1|]. destruct (trimmed_head _ Hs) as (c & s' & -> & Hc). unfold strip. cbn [append lstrip]. rewrite Hc. exact H2.
Qed.

Lemma rtrimmed_strip s : rtrimmed s -> strip s <> EmptyString.
Proof.
  intros [H1 H2] E. destruct (lstrip_split s) as (w & Hs & Hw). unfold strip in E.
  destruct (rstrip_split (lstrip s)) as (v & Hl & Hv). rewrite E in Hl. cbn in Hl.
  assert (spaces s) as Hsp by (rewrite Hs, Hl, sall_app, Hw, Hv; reflexivity).
  clear -H1 H2 Hsp. induction s as [|c s IH]; [contradiction|]. cbn in Hsp, H2. apply andb_true_iff in Hsp as [Hc Hsp]. rewrite Hc in H2.
  destruct (rstrip s) eqn:E; [discriminate|]. cbn in H2. injection H2 as H2. apply IH; auto. now intros ->.
Qed.

(** What [strip] removes, with the lengths the spans are computed from. *)
Lemma strip_split s : strip s <> EmptyString ->
  exists w1 w2, s = w1 +:+ strip s +:+ w2 /\ spaces w1 /\ spaces w2
    /\ Strings.String.length (lstrip s) = (Strings.String.length s - Strings.String.length w1)%nat
    /\ Strings.String.length (rstrip s) = (Strings.String.length s - Strings.String.length w2)%nat.
Proof.
  intros H. destruct (lstrip_split s) as (w1 & H1 & Hw1). destruct (rstrip_split (lstrip s)) as (w2 & H2 & Hw2).
  fold (strip s) in H2. exists w1, w2. assert (s = w1 +:+ strip s +:+ w2) as Hs by (now rewrite <- H2).
  split_and!; auto.
  - rewrite H1 at 2. rewrite <- !chars_length, chars_app, length_app. lia.
  - assert (rstrip s = w1 +:+ strip s) as ->.
    { rewrite H1 at 1. unfold strip. apply rstrip_app. exact H. }
    rewrite Hs at 2. rewrite <- !chars_length, !chars_app, !length_app. lia.
Qed.

(** ** Occurrences *)

(** [s] stands in [src] from position [i]. *)
Definition occurs (src : string) (i : Z) (s : string) : Prop := exists a b, src = a +:+ s +:+ b /\ slen a = i.

(** The character of [src] at [i]. *)
Definition at_pos (src : string) (i : Z) (c : ascii) : Prop := occurs src i (String c EmptyString).

Lemma at_pos_lookup s i c : at_pos s i c <-> 0 <= i /\ chars s !! Z.to_nat i = Some c.
Proof.
  split.
  - intros (a & b & -> & <-). split; [apply slen_nonneg|]. rewrite slen_chars, Nat2Z.id, chars_app. now apply list_lookup_middle.
  - intros [Hi H]. apply list_elem_of_split_length in H as (l1 & l2 & Hs & Hl).
    exists (string_of_list_ascii l1), (string_of_list_ascii l2). split.
    + rewrite <- (string_of_list_ascii_of_string s), Hs. clear. induction l1 as [|d l1 IH]; cbn; [reflexivity | now rewrite IH].
    + rewrite slen_chars, list_ascii_of_string_of_list_ascii. lia.
Qed.

Lemma occurs_inner src i a s b : occurs src i (a +:+ s +:+ b) -> occurs src (i + slen a) s.
Proof.
  intros (x & y & -> & <-). exists (x +:+ a), (b +:+ y). rewrite slen_app. split; [|reflexivity]. now rewrite !sapp_assoc.
Qed.

Lemma occurs_bound src i s : occurs src i s -> 0 <= i /\ i + slen s <= slen src.
Proof. intros (a & b & -> & <-). rewrite !slen_app. pose proof (slen_nonneg a). pose proof (slen_nonneg b). lia. Qed.

Lemma occurs_trans src i s j t : occurs src i s -> occurs s j t -> occurs src (i + j) t.
Proof. intros H (a & b & -> & <-). now apply occurs_inner in H. Qed.


(** ** Searching and splitting *)

Lemma prefix_split p s : String.prefix p s = true -> exists b, s = p +:+ b.
Proof.
  revert s; induction p as [|c p IH]; intros s H; [now exists s|]. destruct s as [|d s]; cbn in H; [discriminate|].
  destruct (ascii_dec c d) as [->|]; [|discriminate]. destruct (IH s H) as [b ->]. now exists b.
Qed.

Lemma prefix_app p b : String.prefix p (p +:+ b) = true.
Proof. induction p as [|c p IH]; cbn; [now destruct b|]. destruct (ascii_dec c c); [exact IH | contradiction]. Qed.

(** A text that is not blank is found at its place behind whitespace. *)
Lemma find_from_exact part w rest pos : strip part <> EmptyString -> spaces w ->
  find_from part (w +:+ part +:+ rest) pos = Some (pos + slen w).
Proof.
  intros Hp. revert pos. induction w as [|c w IH]; intros pos Hw.
  - change (slen EmptyString) with 0. rewrite Z.add_0_r. cbn [append]. assert (String.prefix part (part +:+ rest) = true) as H by apply prefix_app.
    destruct (part +:+ rest); cbn [find_from]; now rewrite H.
  - cbn in Hw. apply andb_true_iff in Hw as [Hc Hw]. cbn [append find_from].
    destruct (String.prefix part (String c (w +:+ part +:+ rest))) eqn:E; [|rewrite IH, slen_cons by exact Hw; f_equal; lia].
    exfalso. apply prefix_split in E as [b E].
    assert (forall x u, strip u <> EmptyString -> lstrip (u +:+ x) = lstrip u +:+ x) as Hl.
    { intros x u Hu. induction u as [|d u IHu]; [now contradict Hu|]. cbn. unfold strip in Hu, IHu. cbn [lstrip] in Hu.
      destruct (isspace d); [now apply IHu | reflexivity]. }
    assert (forall v u, spaces v -> lstrip (v +:+ u) = lstrip u) as Hs.
    { intros v u Hv. induction v as [|d v IHv]; [reflexivity|]. cbn in *. apply andb_true_iff in Hv as [-> Hv]. now apply IHv. }
    apply (f_equal (fun s => slen (lstrip s))) in E as E1. apply (f_equal slen) in E.
    change (String c (w +:+ part +:+ rest)) with (String c w +:+ part +:+ rest) in E, E1.
    rewrite (Hs (String c w)) in E1 by (cbn; now rewrite Hc, Hw). rewrite !Hl in E1 by exact Hp.
    rewrite !slen_app, slen_cons in E. rewrite !slen_app in E1. pose proof (slen_nonneg w). lia.
Qed.

(** A text cut into parts by whitespace, with the place of each part. *)
Inductive parted : Z -> string -> list (Z * string) -> Prop :=
| parted_one i p : parted i p [(i, p)]
| parted_cons i p sep t ps : spaces sep -> parted (i + slen p + slen sep) t ps -> parted i (p +:+ sep +:+ t) ((i, p) :: ps).

Lemma parted_occurs src i t ps : occurs src i t -> parted i t ps -> Forall (fun ip => occurs src (fst ip) (snd ip)) ps.
Proof.
  intros Ho Hp. induction Hp as [i p|i p sep t ps Hsep _ IH]; [now constructor|]. constructor.
  - apply (occurs_inner src i EmptyString p (sep +:+ t)) in Ho. cbn in Ho. now rewrite Z.add_0_r in Ho.
  - apply IH. assert (occurs src i ((p +:+ sep) +:+ t +:+ EmptyString)) as Ho' by (now rewrite sapp_nil_r, sapp_assoc).
    apply occurs_inner in Ho'. rewrite slen_app in Ho'. now rewrite <- Z.add_assoc.
Qed.

Lemma at_pos_app s t i c : at_pos (s +:+ t) i c -> at_pos s i c \/ at_pos t (i - slen s) c.
Proof.
  intros (a & b & H & <-). revert s H. induction a as [|d a IH]; intros s H.
  - destruct s as [|e s]; cbn in H.
    + right. exists EmptyString, b. cbn. auto.
    + injection H as -> H. left. exists EmptyString, s. auto.
  - destruct s as [|e s]; cbn in H.
    + right. exists (String d a), b. split; [exact H | change (slen EmptyString) with 0; lia].
    + injection H as -> H. destruct (IH s H) as [(x & y & -> & Hx)|(x & y & Hy & Hx)].
      * left. exists (String d x), y. rewrite !slen_cons. split; [reflexivity | lia].
      * right. exists x, y. split; [exact Hy|]. rewrite !slen_cons. lia.
Qed.

Lemma at_pos_spaces w i c : spaces w -> at_pos w i c -> isspace c = true.
Proof. intros Hw (a & b & -> & _). apply (spaces_In _ _ Hw). rewrite !chars_app. apply in_or_app. right. apply in_eq. Qed.

Lemma at_pos_bound s i c : at_pos s i c -> 0 <= i < slen s.
Proof. intros H. apply occurs_bound in H. change (slen (String c EmptyString)) with 1 in H. lia. Qed.

(** A trimmed span is the span of the stripped text. *)
Lemma trimmed_span_occurs src start v a b : occurs src start v -> strip v <> EmptyString -> _trimmed_span start v = (a, b) ->
  occurs src a (strip v) /\ b = a + slen (strip v) /\ start <= a
  /\ (forall i c, at_pos v i c -> isspace c = false -> a <= start + i < b /\ at_pos (strip v) (start + i - a) c).
Proof.
  intros Ho Hv. unfold _trimmed_span. intros [= <- <-]. destruct (strip_split v Hv) as (w1 & w2 & Hs & Hw1 & Hw2 & H1 & H2).
  set (t := strip v) in *. pose proof (f_equal slen Hs) as Hl. rewrite !slen_app in Hl.
  pose proof (slen_nonneg w1). pose proof (slen_nonneg w2). pose proof (slen_nonneg t).
  assert (slen (lstrip v) = slen v - slen w1) as E1 by (unfold slen in *; rewrite H1; lia).
  assert (slen (rstrip v) = slen v - slen w2) as E2 by (unfold slen in *; rewrite H2; lia).
  rewrite E1, E2. replace (start + (slen v - (slen v - slen w1))) with (start + slen w1) by lia. split_and!; try lia.
  - rewrite Hs in Ho at 1. now apply occurs_inner in Ho.
  - intros i c Hat Hc. rewrite Hs in Hat. apply at_pos_app in Hat as [Hat|Hat]; [rewrite (at_pos_spaces _ _ _ Hw1 Hat) in Hc; discriminate|].
    apply at_pos_app in Hat as [Hat|Hat]; [|rewrite (at_pos_spaces _ _ _ Hw2 Hat) in Hc; discriminate].
    pose proof (at_pos_bound _ _ _ Hat). replace (start + i - (start + slen w1)) with (i - slen w1) by lia. split; [lia | exact Hat].
Qed.

(** No character but whitespace is lost between the parts. *)
Lemma parted_cover i t ps j c : parted i t ps -> at_pos t j c -> isspace c = false ->
  exists f p, In (f, p) ps /\ f <= i + j < f + slen p /\ at_pos p (i + j - f) c.
Proof.
  intros Hp. revert j. induction Hp as [i p|i p sep t ps Hsep _ IH]; intros j Hat Hc.
  - exists i, p. pose proof (at_pos_bound _ _ _ Hat). replace (i + j - i) with j by lia. split_and!; try lia; auto using in_eq.
  - apply at_pos_app in Hat as [Hat|Hat].
    + exists i, p. pose proof (at_pos_bound _ _ _ Hat). replace (i + j - i) with j by lia. split_and!; try lia; auto using in_eq.
    + apply at_pos_app in Hat as [Hat|Hat]; [rewrite (at_pos_spaces _ _ _ Hsep Hat) in Hc; discriminate|].
      destruct (IH _ Hat Hc) as (f & q & Hin & Hb & Hq). exists f, q.
      replace (i + j - f) with (i + slen p + slen sep + (j - slen p - slen sep) - f) by lia. split_and!; auto using in_cons; lia.
Qed.

(** ** Paragraphs *)

Lemma strip_blank s : strip s = EmptyString -> spaces s.
Proof.
  intros E. destruct (lstrip_split s) as (w & Hs & Hw). destruct (rstrip_split (lstrip s)) as (v & Hl & Hv).
  fold (strip s) in Hl. rewrite E in Hl. cbn in Hl. rewrite Hs, Hl, sall_app, Hw, Hv. reflexivity.
Qed.

Definition nonblank (ip : Z * string) : bool := negb (is_empty (strip (snd ip))).

Lemma sskip_slen pre t : sskip (Z.to_nat (slen pre)) (pre +:+ t) = t.
Proof. unfold slen. rewrite Nat2Z.id. apply sskip_app. Qed.

(** Every part that is not blank is located where it was cut. *)
Lemma locate_parted text i t ps : parted i t ps -> forall pre w, text = pre +:+ w +:+ t -> spaces w -> slen pre + slen w = i ->
  locate text (slen pre) (map snd ps) = List.filter nonblank ps.
Proof.
  induction 1 as [i p|i p sep t ps Hsep Hp IH]; intros pre w Htext Hw Hi; cbn [map snd locate List.filter]; unfold nonblank at 1; cbn [snd].
  - destruct (is_empty (strip p)) eqn:E; [reflexivity|]. cbn [negb].
    replace (sskip (Z.to_nat (slen pre)) text) with (w +:+ p +:+ EmptyString) by (now rewrite Htext, sskip_slen, sapp_nil_r).
    rewrite find_from_exact; [now rewrite Hi | intros H; now rewrite H in E | exact Hw].
  - destruct (is_empty (strip p)) eqn:E; cbn [negb].
    + apply is_empty_true, strip_blank in E. apply (IH pre (w +:+ p +:+ sep)).
      * now rewrite Htext, !sapp_assoc.
      * now rewrite !sall_app, Hw, E, Hsep.
      * rewrite !slen_app. lia.
    + replace (sskip (Z.to_nat (slen pre)) text) with (w +:+ p +:+ sep +:+ t) by (now rewrite Htext, sskip_slen).
      rewrite find_from_exact; [|intros H; now rewrite H in E | exact Hw]. rewrite Hi. f_equal. replace (i + slen p) with (slen (pre +:+ w +:+ p)) by (rewrite !slen_app; lia). apply (IH _ sep).
      * now rewrite Htext, !sapp_assoc.
      * exact Hsep.
      * rewrite !slen_app. lia.
Qed.

(** A character before the first part belongs to it. *)
Lemma parted_cons_char i d t j w ws : parted (i + 1) t ((j, w) :: ws) -> parted i (String d t) ((i, String d w) :: ws).
Proof.
  inversion 1; subst; [constructor|]. apply (parted_cons i (String d w) sep); [assumption|].
  rewrite slen_cons. now replace (i + (slen w + 1) + slen sep) with (i + 1 + slen w + slen sep) by lia.
Qed.

Lemma split_on_parted c s : isspace c = true -> forall i, exists ps, map snd ps = split_on c s /\ parted i s ps.
Proof.
  intros Hc. induction s as [|d s IH]; intros i; cbn [split_on]; [exists [(i, EmptyString)]; split; [reflexivity | constructor]|].
  destruct (IH (i + 1)) as (ps & Hps & Hp). destruct ps as [|[j w] ps]; [inversion Hp|]. cbn in Hps. rewrite <- Hps.
  destruct (Ascii.eqb c d) eqn:E.
  - apply Ascii.eqb_eq in E as <-. exists ((i, EmptyString) :: (j, w) :: ps). split; [reflexivity|].
    apply (parted_cons i EmptyString (String c EmptyString)); [cbn; now rewrite Hc|].
    now replace (i + slen EmptyString + slen (String c EmptyString)) with (i + 1) by (change (slen EmptyString) with 0; rewrite slen_cons; change (slen EmptyString) with 0; lia).
  - exists ((i, String d w) :: ps). split; [reflexivity|]. eapply parted_cons_char; exact Hp.
Qed.

Lemma newlines_spaces n : spaces (newlines n).
Proof. induction n; cbn; auto. Qed.

Lemma newlines_snoc n s : newlines n +:+ String (chr 10) s = newlines (S n) +:+ s.
Proof. induction n as [|n IH]; [reflexivity|]. cbn in *. now rewrite IH. Qed.

Lemma split_blank_lines_parted s : forall current nl i, exists ps, map snd ps = split_blank_lines current nl s
  /\ parted i (current +:+ newlines nl +:+ s) ps.
Proof.
  induction s as [|c s IH]; intros current nl i; cbn [split_blank_lines].
  - rewrite !sapp_nil_r. destruct (2 <=? nl)%nat.
    + exists [(i, current); (i + slen current + slen (newlines nl), EmptyString)]. split; [reflexivity|].
      rewrite <- (sapp_nil_r (newlines nl)). apply parted_cons; [apply newlines_spaces | rewrite sapp_nil_r; constructor].
    + exists [(i, current +:+ newlines nl)]. split; [reflexivity | constructor].
  - destruct (is_char 10 c) eqn:E.
    + assert (c = chr 10) as -> by (unfold is_char in E; apply Z.eqb_eq in E; rewrite <- (chr_code c), E; reflexivity).
      rewrite newlines_snoc. apply IH.
    + destruct (2 <=? nl)%nat.
      * destruct (IH (String c EmptyString) O (i + slen current + slen (newlines nl))) as (ps & Hps & Hp).
        exists ((i, current) :: ps). split; [cbn; now rewrite Hps|]. apply parted_cons; [apply newlines_spaces | exact Hp].
      * destruct (IH (current +:+ newlines nl +:+ String c EmptyString) O i) as (ps & Hps & Hp). exists ps. split; [exact Hps|].
        rewrite !sapp_assoc in Hp. exact Hp.
Qed.

(** The paragraphs are the parts of the text that are not blank, at their
    places. *)
Lemma paragraphs_spec text : exists ps, parted 0 text ps /\ _paragraphs_with_positions text = List.filter nonblank ps.
Proof.
  unfold _paragraphs_with_positions. set (parts := if contains _ _ then _ else _).
  assert (exists ps, map snd ps = parts /\ parted 0 text ps) as (ps & <- & Hp)
    by (unfold parts; destruct (contains _ _); [apply split_blank_lines_parted | now apply split_on_parted]).
  exists ps. split; [exact Hp|]. now apply (locate_parted text 0 text ps Hp EmptyString EmptyString).
Qed.

(** ** Sentences *)

Lemma segments_parted s : forall ended,
  (forall start pos segment, pos = start + slen segment -> parted start (segment +:+ s) (segments ended false start pos segment s))
  /\ (forall pos, exists w r, s = w +:+ r /\ spaces w /\ parted (pos + slen w) r (segments ended true pos pos EmptyString s)).
Proof.
  induction s as [|c s IH]; intros ended; (split; [intros start pos segment Hpos | intros pos]); cbn [segments].
  - rewrite sapp_nil_r. constructor.
  - exists EmptyString, EmptyString. split_and!; auto. change (slen EmptyString) with 0. rewrite Z.add_0_r. constructor.
  - destruct (ended && isspace c) eqn:E.
    + apply andb_true_iff in E as [_ E]. destruct (proj2 (IH false) (pos + 1)) as (w & r & -> & Hw & Hp).
      apply (parted_cons start segment (String c w) r); [cbn; now rewrite E|]. rewrite slen_cons.
      now replace (start + slen segment + (slen w + 1)) with (pos + 1 + slen w) by lia.
    + replace (segment +:+ String c s) with ((segment +:+ String c EmptyString) +:+ s) by (now rewrite sapp_assoc).
      apply IH. rewrite slen_app, slen_cons. change (slen EmptyString) with 0. lia.
  - destruct (isspace c) eqn:E.
    + destruct (proj2 (IH false) (pos + 1)) as (w & r & -> & Hw & Hp). exists (String c w), r.
      split_and!; [reflexivity | cbn; now rewrite E | rewrite slen_cons; now replace (pos + (slen w + 1)) with (pos + 1 + slen w) by lia].
    + exists EmptyString, (String c s). split_and!; auto. change (slen EmptyString) with 0. rewrite Z.add_0_r.
      apply (proj1 (IH (sentence_end c)) pos (pos + 1) (String c EmptyString)). rewrite slen_cons. change (slen EmptyString) with 0. lia.
Qed.

(** No end of a sentence is followed by whitespace. *)
Definition unbroken (s : string) : Prop :=
  forall i c d, at_pos s i c -> at_pos s (i + 1) d -> sentence_end c = true -> isspace d = false.

Lemma at_pos_inner a s b i c : at_pos s i c -> at_pos (a +:+ s +:+ b) (slen a + i) c.
Proof. intros H. apply (occurs_trans _ _ s); [exists a, b; auto | exact H]. Qed.

Lemma unbroken_inner a s b : unbroken (a +:+ s +:+ b) -> unbroken s.
Proof.
  intros H i c d Hc Hd. apply (H (slen a + i)); [now apply at_pos_inner|].
  rewrite <- Z.add_assoc. now apply at_pos_inner.
Qed.

Lemma at_pos_single e i c : at_pos (String e EmptyString) i c -> i = 0 /\ c = e.
Proof.
  intros (a & b & H & <-). destruct a as [|d a]; cbn in H; [injection H as <- _; auto|]. injection H as _ H. now destruct a.
Qed.

Lemma unbroken_snoc s e : unbroken s -> (forall c, at_pos s (slen s - 1) c -> sentence_end c = true -> isspace e = false) ->
  unbroken (s +:+ String e EmptyString).
Proof.
  intros Hs He i c d Hc Hd Hend. apply at_pos_app in Hc, Hd. destruct Hd as [Hd|Hd].
  - destruct Hc as [Hc|Hc]; [now apply (Hs i c d)|]. apply at_pos_bound in Hd. apply at_pos_single in Hc as [Hc _]. lia.
  - apply at_pos_single in Hd as [Hi ->]. destruct Hc as [Hc|Hc]; [|apply at_pos_single in Hc as [Hc _]; lia].
    apply (He c); [|exact Hend]. now replace (slen s - 1) with i by lia.
Qed.

Lemma segments_unbroken s : forall ended gap start pos segment, unbroken segment ->
  (gap = false -> forall c, at_pos segment (slen segment - 1) c -> sentence_end c = true -> ended = true) ->
  Forall (fun ip => unbroken (snd ip)) (segments ended gap start pos segment s).
Proof.
  assert (unbroken EmptyString) as Hnil by (intros i c d H; apply at_pos_bound in H; change (slen EmptyString) with 0 in H; lia).
  assert (forall e, unbroken (String e EmptyString)) as Hone.
  { intros e i c d Hc Hd. apply at_pos_single in Hc as [-> _]. apply at_pos_single in Hd as [Hd _]. discriminate. }
  induction s as [|c s IH]; intros ended gap start pos segment Hs He; cbn [segments]; [now constructor|].
  destruct gap.
  - destruct (isspace c); apply IH; auto; try discriminate.
    intros _ d Hd Hend. apply at_pos_single in Hd as [_ ->]. exact Hend.
  - destruct (ended && isspace c) eqn:E; [constructor; [exact Hs | apply IH; auto; discriminate]|]. apply IH.
    + apply unbroken_snoc; [exact Hs|]. intros d Hd Hend. rewrite (He eq_refl d Hd Hend) in E. exact E.
    + intros _ d Hd Hend. rewrite slen_app in Hd. apply at_pos_app in Hd as [Hd|Hd].
      * apply at_pos_bound in Hd. change (slen (String c EmptyString)) with 1 in Hd. lia.
      * apply at_pos_single in Hd as [_ ->]. exact Hend.
Qed.

Lemma slice_occurs t i s : occurs t i s -> slice i (i + slen s) t = s.
Proof.
  intros (a & b & -> & <-). unfold slice. rewrite sskip_slen. replace (slen a + slen s - slen a) with (slen s) by lia.
  unfold slen. rewrite Nat2Z.id. apply stake_app.
Qed.

Lemma blank_span start v : strip v = EmptyString -> let '(a, b) := _trimmed_span start v in (a <? b) = false.
Proof.
  intros H. apply strip_blank in H. unfold _trimmed_span.
  assert (lstrip v = EmptyString /\ rstrip v = EmptyString) as [-> ->].
  { clear -H. induction v as [|c v IH]; [auto|]. cbn in *. apply andb_true_iff in H as [Hc H]. destruct (IH H) as [-> ->]. rewrite Hc. auto. }
  change (slen EmptyString) with 0. pose proof (slen_nonneg v). lia.
Qed.

(** The sentences stand at their places, and cover the text. *)
Lemma sentence_spans_spec text ts :
  Forall (fun x => let '(s, a, b) := (x : string * Z * Z) in occurs text (a - ts) s /\ b = a + slen s /\ trimmed s /\ unbroken s) (_sentence_spans text ts)
  /\ (forall j c, at_pos text j c -> isspace c = false -> exists s a b, In (s, a, b) (_sentence_spans text ts) /\ at_pos s (ts + j - a) c).
Proof.
  pose proof (proj1 (segments_parted text false) 0 0 EmptyString eq_refl) as Hp. cbn [append] in Hp.
  assert (Forall (fun ip => unbroken (snd ip)) (segments false false 0 0 EmptyString text)) as Hu.
  { apply segments_unbroken; [intros i c d H | intros _ c H]; apply at_pos_bound in H; change (slen EmptyString) with 0 in H; lia. }
  assert (occurs text 0 text) as Ho by (exists EmptyString, EmptyString; cbn; now rewrite sapp_nil_r).
  pose proof (parted_occurs _ _ _ _ Ho Hp) as Hocc. unfold _sentence_spans. split.
  - apply List.Forall_forall. intros x Hx. apply in_flat_map in Hx as ([i p] & Hin & Hx). cbn [fst snd] in Hx.
    destruct (_trimmed_span i p) as [a b] eqn:Es. destruct (a <? b) eqn:Eab; [|destruct Hx]. destruct Hx as [<-|[]].
    destruct (decide (strip p = EmptyString)) as [Hb|Hb]; [pose proof (blank_span i p Hb) as Hf; rewrite Es in Hf; congruence|].
    rewrite List.Forall_forall in Hocc, Hu. pose proof (Hocc _ Hin) as Hoi. cbn in Hoi.
    destruct (trimmed_span_occurs _ _ _ _ _ Hoi Hb Es) as (H1 & -> & _). rewrite (slice_occurs _ _ _ H1).
    split_and!; [now replace (ts + a - ts) with a by lia | lia | now apply strip_trimmed|].
    destruct (strip_split p Hb) as (w1 & w2 & Hs & _). apply (unbroken_inner w1 _ w2). rewrite <- Hs. apply (Hu _ Hin).
  - intros j c Hat Hc. destruct (parted_cover _ _ _ _ _ Hp Hat Hc) as (f & p & Hin & Hb & Hpc).
    assert (strip p <> EmptyString) as Hne by (intros E; apply strip_blank in E; rewrite (at_pos_spaces _ _ _ E Hpc) in Hc; discriminate).
    destruct (_trimmed_span f p) as [a b] eqn:Es. rewrite List.Forall_forall in Hocc. pose proof (Hocc _ Hin) as Hoi. cbn in Hoi.
    destruct (trimmed_span_occurs _ _ _ _ _ Hoi Hne Es) as (H1 & H2 & _ & H3). destruct (H3 _ _ Hpc Hc) as [H4 H5].
    exists (strip p), (ts + a), (ts + (a + slen (strip p))).
    replace (ts + j - (ts + a)) with (f + (0 + j - f) - a) by lia. split; [|exact H5]. apply in_flat_map. exists (f, p). split; [exact Hin|]. cbn [fst snd]. rewrite Es.
    subst b. assert ((a <? a + slen (strip p)) = true) as -> by lia. rewrite (slice_occurs _ _ _ H1). apply in_eq.
Qed.

(** ** Where the characters of a chunk come from

    The splitter keeps, for every character of the text it assembles, a
    position in the source.  Through packing, overlap and stripping, each is
    the source's character there or a joining newline or space, and no
    character of a paragraph that is not whitespace is lost. *)

(** ** Characters with their positions *)

Definition joiner (c : ascii) : Prop := c = chr 10 \/ c = chr 32.

Definition placed (src : string) (c : ascii) (i : Z) : Prop := at_pos src i c \/ (joiner c /\ 0 <= i < slen src).

(** [s] with the positions [ps] of its characters. *)
Definition spelled (src s : string) (ps : list Z) : Prop := Forall2 (placed src) (chars s) ps.

Definition holds (c : ascii) (i : Z) (s : string) (ps : list Z) : Prop := In (c, i) (combine (chars s) ps).

Lemma zrange_cons a n : 0 <= n -> zrange a (a + (n + 1)) = a :: zrange (a + 1) (a + 1 + n).
Proof.
  intros Hn. unfold zrange. replace (Z.to_nat (a + (n + 1) - a)) with (S (Z.to_nat n)) by lia.
  replace (Z.to_nat (a + 1 + n - (a + 1))) with (Z.to_nat n) by lia. cbn [seq map]. f_equal; [lia|].
  rewrite <- seq_shift, map_map. apply map_ext. intros k. lia.
Qed.

Lemma zrange_nil a : zrange a (a + 0) = [].
Proof. unfold zrange. now replace (Z.to_nat (a + 0 - a)) with O by lia. Qed.

Lemma occurs_spelled src s : forall i, occurs src i s -> spelled src s (zrange i (i + slen s)).
Proof.
  unfold spelled. induction s as [|c s IH]; intros i Ho.
  - change (slen EmptyString) with 0. rewrite zrange_nil. constructor.
  - rewrite slen_cons, zrange_cons by apply slen_nonneg. cbn [list_ascii_of_string]. constructor.
    + left. apply (occurs_inner src i EmptyString (String c EmptyString) s) in Ho. change (slen EmptyString) with 0 in Ho. now rewrite Z.add_0_r in Ho.
    + apply IH. assert (occurs src i (String c EmptyString +:+ s +:+ EmptyString)) as Ho' by (now rewrite sapp_nil_r).
      now apply occurs_inner in Ho'.
Qed.

Lemma occurs_holds s : forall i j c, at_pos s j c -> holds c (i + j) s (zrange i (i + slen s)).
Proof.
  unfold holds. induction s as [|d s IH]; intros i j c Hat.
  - apply at_pos_bound in Hat. change (slen EmptyString) with 0 in Hat. lia.
  - rewrite slen_cons, zrange_cons by apply slen_nonneg. cbn [list_ascii_of_string combine].
    change (String d s) with (String d EmptyString +:+ s) in Hat. apply at_pos_app in Hat as [Hat|Hat].
    + apply at_pos_single in Hat as [-> ->]. left. f_equal. lia.
    + right. apply (IH (i + 1)) in Hat. change (slen (String d EmptyString)) with 1 in Hat.
      now replace (i + 1 + (j - 1)) with (i + j) in Hat by lia.
Qed.

Lemma holds_at s : forall a c i, holds c i s (zrange a (a + slen s)) -> at_pos s (i - a) c.
Proof.
  unfold holds. induction s as [|d s IH]; intros a c i H; [destruct H|].
  rewrite slen_cons, zrange_cons in H by apply slen_nonneg. destruct H as [[= <- <-]|H].
  - exists EmptyString, s. split; [reflexivity|]. change (slen EmptyString) with 0. lia.
  - apply IH in H as (x & y & -> & Hx). exists (String d x), y. split; [reflexivity|]. rewrite slen_cons. lia.
Qed.

Lemma spelled_app src s t ps qs : spelled src s ps -> spelled src t qs -> spelled src (s +:+ t) (ps ++ qs).
Proof. unfold spelled. intros H1 H2. rewrite chars_app. now apply Forall2_app. Qed.

Lemma spelled_length src s ps : spelled src s ps -> length ps = Strings.String.length s.
Proof. intros H. apply Forall2_length in H. now rewrite chars_length in H. Qed.

Lemma combine_app {A B} (l1 l2 : list A) (k1 k2 : list B) : length l1 = length k1 ->
  combine (l1 ++ l2) (k1 ++ k2) = combine l1 k1 ++ combine l2 k2.
Proof. revert k1; induction l1 as [|x l1 IH]; intros [|y k1] H; try discriminate; cbn; [reflexivity|]. rewrite IH; auto. Qed.

Lemma holds_app c i s t ps qs : length ps = Strings.String.length s ->
  holds c i (s +:+ t) (ps ++ qs) <-> holds c i s ps \/ holds c i t qs.
Proof. intros H. unfold holds. rewrite chars_app, combine_app by (now rewrite chars_length). apply in_app_iff. Qed.

Lemma holds_char c i s ps : holds c i s ps -> In c (chars s).
Proof. apply in_combine_l. Qed.

Lemma spelled_split src s t ps : spelled src (s +:+ t) ps -> exists qs rs, ps = qs ++ rs /\ spelled src s qs /\ spelled src t rs.
Proof. unfold spelled. rewrite chars_app. intros H. apply Forall2_app_inv_l in H as (qs & rs & H1 & H2 & ->). eauto. Qed.

(** Stripping keeps the position of every character it keeps. *)
Lemma trimmed_positions_spec src s ps : spelled src s ps -> strip s <> EmptyString ->
  spelled src (strip s) (trimmed_positions s ps)
  /\ (forall c i, holds c i s ps -> isspace c = false -> holds c i (strip s) (trimmed_positions s ps)).
Proof.
  intros Hs Hne. destruct (strip_split s Hne) as (w1 & w2 & Heq & Hw1 & Hw2 & H1 & H2). unfold trimmed_positions.
  set (t := strip s) in *. pose proof (f_equal Strings.String.length Heq) as Hlen. rewrite <- !chars_length, !chars_app, !length_app, !chars_length in Hlen.
  rewrite Heq in Hs at 1. destruct (spelled_split _ _ _ _ Hs) as (p1 & r & -> & S1 & Hr). destruct (spelled_split _ _ _ _ Hr) as (pt & p2 & -> & St & S2).
  pose proof (spelled_length _ _ _ S1) as L1. pose proof (spelled_length _ _ _ St) as Lt. pose proof (spelled_length _ _ _ S2) as L2.
  assert (skipn (Strings.String.length s - Strings.String.length (lstrip s))
    (firstn (length (p1 ++ pt ++ p2) - (Strings.String.length s - Strings.String.length (rstrip s))) (p1 ++ pt ++ p2)) = pt) as ->.
  { rewrite H1, H2, !length_app, app_assoc. replace (_ - _)%nat with (length p1) at 1 by lia.
    match goal with |- skipn _ (firstn ?n _) = _ => replace n with (length (p1 ++ pt)) by (rewrite length_app; lia) end.
    rewrite firstn_app, Nat.sub_diag, firstn_all, app_nil_r. rewrite skipn_app, skipn_all, Nat.sub_diag. reflexivity. }
  split; [exact St|]. intros c i Hh Hc. rewrite Heq in Hh. apply holds_app in Hh; [|exact L1]. destruct Hh as [Hh|Hh].
  - apply holds_char in Hh. rewrite (spaces_In _ _ Hw1 Hh) in Hc. discriminate.
  - apply holds_app in Hh; [|exact Lt]. destruct Hh as [Hh|Hh]; [exact Hh|].
    apply holds_char in Hh. rewrite (spaces_In _ _ Hw2 Hh) in Hc. discriminate.
Qed.

(** ** Pages *)

Definition source (pages : list (Z * string)) : string := fst (page_boundaries 0 pages).

(** The character at [i] is on a page numbered [n], its final newline
    included. *)
Definition on_page (pages : list (Z * string)) (i n : Z) : Prop :=
  exists before text after, pages = before ++ (n, text) :: after /\ slen (source before) <= i <= slen (source before) + slen text.

Lemma page_boundaries_text k pages : fst (page_boundaries k pages) = source pages.
Proof.
  unfold source. revert k. assert (forall k j, fst (page_boundaries k pages) = fst (page_boundaries j pages)) as H; [|auto].
  induction pages as [|[n t] pages IH]; intros k j; cbn [page_boundaries]; [reflexivity|].
  specialize (IH (k + slen t + 1) (j + slen t + 1)). destruct (page_boundaries _ pages), (page_boundaries _ pages). cbn in *. now rewrite IH.
Qed.

Lemma source_cons n t pages : source ((n, t) :: pages) = t +:+ String (chr 10) (source pages).
Proof.
  unfold source at 1. cbn [page_boundaries]. rewrite <- (page_boundaries_text (0 + slen t + 1)). now destruct (page_boundaries _ pages).
Qed.

Lemma page_boundaries_nil k pages : snd (page_boundaries k pages) = [] -> pages = [].
Proof. destruct pages as [|[n t] pages]; [reflexivity|]. cbn [page_boundaries]. now destruct (page_boundaries _ pages). Qed.

Lemma page_boundaries_head k n t pages : exists bs, snd (page_boundaries k ((n, t) :: pages)) = (k, n) :: bs
  /\ bs = snd (page_boundaries (k + slen t + 1) pages).
Proof. cbn [page_boundaries]. destruct (page_boundaries (k + slen t + 1) pages) as [u bs]. now exists bs. Qed.

Lemma page_hint_spec pages : forall k j, 0 <= j < slen (source pages) ->
  exists n, _page_hint (k + j) (snd (page_boundaries k pages)) = Some n /\ on_page pages j n.
Proof.
  induction pages as [|[n t] pages IH]; intros k j Hj; [change (slen (source [])) with 0 in Hj; lia|].
  rewrite source_cons, slen_app, slen_cons in Hj. destruct (page_boundaries_head k n t pages) as (bs & -> & Hbs).
  assert (j <= slen t -> on_page ((n, t) :: pages) j n) as Hhere
    by (intros H; exists [], t, pages; split; [reflexivity | change (slen (source [])) with 0; lia]).
  destruct pages as [|[n' t'] pages].
  - cbn in Hbs. subst bs. exists n. split; [reflexivity|]. apply Hhere. change (slen (source [])) with 0 in Hj. lia.
  - destruct (page_boundaries_head (k + slen t + 1) n' t' pages) as (bs' & Hbs' & _). rewrite Hbs' in Hbs. subst bs.
    cbn [_page_hint]. destruct ((k <=? k + j) && (k + j <? k + slen t + 1)) eqn:E.
    + exists n. split; [reflexivity | apply Hhere; lia].
    + destruct (IH (k + slen t + 1) (j - slen t - 1)) as (m & Hm & Hon); [lia|].
      exists m. replace (k + slen t + 1 + (j - slen t - 1)) with (k + j) in Hm by lia. rewrite Hbs' in Hm. split; [exact Hm|].
      destruct Hon as (before & u & after & -> & Hb). exists ((n, t) :: before), u, after. split; [reflexivity|].
      rewrite source_cons, slen_app, slen_cons. lia.
Qed.

(** ** Plans *)

(** A plan with the positions of the characters of its text. *)
Record traced (pages : list (Z * string)) (plan : ChunkPlan) (ps : list Z) : Prop := {
  tr_spelled : spelled (source pages) (cp_text plan) ps;
  tr_pages : exists first last n m, In first ps /\ In last ps /\ (forall p, In p ps -> first <= p <= last)
    /\ cp_page_start plan = Some n /\ on_page pages first n /\ cp_page_end plan = Some m /\ on_page pages last m }.

Lemma fold_min_spec ps : forall p, In (fold_left Z.min ps p) (p :: ps) /\ (forall x, In x (p :: ps) -> fold_left Z.min ps p <= x).
Proof.
  induction ps as [|q ps IH]; intros p; cbn [fold_left]; [split; [apply in_eq | intros x [->|[]]; lia]|].
  destruct (IH (Z.min p q)) as [H1 H2]. split.
  - destruct H1 as [H1|H1]; [|right; right; exact H1]. rewrite <- H1. destruct (Z.min_spec p q) as [[_ ->]|[_ ->]]; cbn; auto.
  - intros x [<-|[<-|Hx]]; [| |apply H2; now right]; (etransitivity; [apply H2, in_eq|]); lia.
Qed.

Lemma fold_max_spec ps : forall p, In (fold_left Z.max ps p) (p :: ps) /\ (forall x, In x (p :: ps) -> x <= fold_left Z.max ps p).
Proof.
  induction ps as [|q ps IH]; intros p; cbn [fold_left]; [split; [apply in_eq | intros x [->|[]]; lia]|].
  destruct (IH (Z.max p q)) as [H1 H2]. split.
  - destruct H1 as [H1|H1]; [|right; right; exact H1]. rewrite <- H1. destruct (Z.max_spec p q) as [[_ ->]|[_ ->]]; cbn; auto.
  - intros x [<-|[<-|Hx]]; [| |apply H2; now right]; (etransitivity; [|apply H2, in_eq]); lia.
Qed.

Lemma placed_bound src c i : placed src c i -> 0 <= i < slen src.
Proof. intros [H|[_ H]]; [exact (at_pos_bound _ _ _ H) | exact H]. Qed.

Lemma spelled_bound src s ps p : spelled src s ps -> In p ps -> 0 <= p < slen src.
Proof.
  intros H. induction H as [|c i l l' Hci _ IH]; [intros []|]. intros [<-|Hp]; [exact (placed_bound _ _ _ Hci) | now apply IH].
Qed.

Section pages.
Context (pages : list (Z * string)).

Notation src := (source pages).
Notation boundaries := (snd (page_boundaries 0 pages)).

Lemma page_span_traced s ps idx sum : s <> EmptyString -> spelled src s ps ->
  let '(a, b) := _page_span ps boundaries in traced pages (mk_plan s idx a sum b) ps.
Proof.
  intros Hne Hs. destruct ps as [|p ps]; [destruct s; [contradiction | inversion Hs]|]. cbn [_page_span].
  destruct (fold_min_spec ps p) as [I1 B1]. destruct (fold_max_spec ps p) as [I2 B2].
  destruct (page_hint_spec pages 0 _ (spelled_bound _ _ _ _ Hs I1)) as (n & H1 & O1).
  destruct (page_hint_spec pages 0 _ (spelled_bound _ _ _ _ Hs I2)) as (m & H2 & O2). rewrite Z.add_0_l in H1, H2.
  constructor; cbn [cp_text cp_page_start cp_page_end]; [exact Hs|].
  exists (fold_left Z.min ps p), (fold_left Z.max ps p), n, m. split_and!; auto.
Qed.

(** The character is in the text of a plan. *)
Definition found (plans : list ChunkPlan) (pss : list (list Z)) (c : ascii) (i : Z) : Prop :=
  exists plan ps, In (plan, ps) (combine plans pss) /\ holds c i (cp_text plan) ps.

Lemma append_plan_spec s ps plans pss : Forall2 (traced pages) plans pss -> spelled src s ps ->
  exists pss', Forall2 (traced pages) (append_plan boundaries s ps plans) pss'
  /\ (forall c i, found plans pss c i -> found (append_plan boundaries s ps plans) pss' c i)
  /\ (forall c i, holds c i s ps -> isspace c = false -> found (append_plan boundaries s ps plans) pss' c i).
Proof.
  intros Ht Hs. unfold append_plan. destruct (is_empty (strip s)) eqn:E.
  - exists pss. split_and!; auto. intros c i Hh Hc. apply holds_char in Hh.
    apply is_empty_true, strip_blank in E. rewrite (spaces_In _ _ E Hh) in Hc. discriminate.
  - assert (strip s <> EmptyString) as Hne by (intros H; now rewrite H in E).
    destruct (trimmed_positions_spec _ _ _ Hs Hne) as [S1 H1].
    pose proof (page_span_traced _ _ (Z.of_nat (length plans)) (content_checksum (strip s)) Hne S1) as Hp.
    destruct (_page_span _ _) as [a b]. exists (pss ++ [trimmed_positions s ps]). pose proof (Forall2_length _ _ _ Ht) as Hl.
    split_and!.
    + apply Forall2_app; [exact Ht | constructor; [exact Hp | constructor]].
    + intros c i (plan & qs & Hin & Hh). exists plan, qs. split; [|exact Hh]. rewrite combine_app by exact Hl. apply in_or_app. now left.
    + intros c i Hh Hc. eexists _, (trimmed_positions s ps). split; [rewrite combine_app by exact Hl; apply in_or_app; right; now left|].
      cbn [cp_text]. now apply H1.
Qed.

Lemma append_plans_spec l : forall plans pss, Forall2 (traced pages) plans pss -> Forall (fun sp => spelled src (fst sp) (snd sp)) l ->
  exists pss', Forall2 (traced pages) (fold_left (fun plans sp => append_plan boundaries (fst sp) (snd sp) plans) l plans) pss'
  /\ (forall c i, found plans pss c i -> found (fold_left (fun plans sp => append_plan boundaries (fst sp) (snd sp) plans) l plans) pss' c i)
  /\ (forall c i s ps, In (s, ps) l -> holds c i s ps -> isspace c = false ->
        found (fold_left (fun plans sp => append_plan boundaries (fst sp) (snd sp) plans) l plans) pss' c i).
Proof.
  induction l as [|[s ps] l IH]; intros plans pss Ht Hl; cbn [fold_left]; [exists pss; split_and!; auto; intros c i s ps []|].
  inversion Hl as [|? ? Hs Hl']; subst. cbn [fst snd] in *.
  destruct (append_plan_spec s ps plans pss Ht Hs) as (pss1 & T1 & F1 & N1). destruct (IH _ _ T1 Hl') as (pss2 & T2 & F2 & N2).
  exists pss2. split_and!; auto. intros c i s' ps' [[= <- <-]|Hin] Hh Hc; [apply F2; auto | eapply N2; eauto].
Qed.
End pages.

(** ** The splitter, paragraph by paragraph

    Packing sentences, overlapping and flushing keep what has been read: every
    character that is not whitespace is in a plan or in the current text. *)

(** ** Packing sentences *)

(** A sentence at its place in [src]. *)
Definition sentence_at (src : string) (x : string * Z * Z) : Prop :=
  let '(s, a, b) := x in occurs src a s /\ b = a + slen s /\ trimmed s.

Lemma trimmed_slen s : trimmed s -> 1 <= slen s.
Proof. intros [H _]. destruct s as [|c s]; [contradiction|]. rewrite slen_cons. pose proof (slen_nonneg s). lia. Qed.

Lemma sentence_spelled src s a b : sentence_at src (s, a, b) -> spelled src s (zrange a b).
Proof. intros (Ho & -> & _). now apply occurs_spelled. Qed.

Lemma joined_spelled src c cur ps s a b : joiner c -> spelled src cur ps -> sentence_at src (s, a, b) ->
  spelled src (cur +:+ String c s) (ps ++ [Z.max (a - 1) 0] ++ zrange a b).
Proof.
  intros Hj Hc Hs. apply spelled_app; [exact Hc|]. change (String c s) with (String c EmptyString +:+ s). apply spelled_app; [|now apply sentence_spelled].
  constructor; [|constructor]. right. split; [exact Hj|]. destruct Hs as (Ho & _ & Ht). apply occurs_bound in Ho. apply trimmed_slen in Ht. lia.
Qed.

Lemma joined_holds src c cur ps s a b i d : spelled src cur ps -> holds d i cur ps \/ holds d i s (zrange a b) ->
  holds d i (cur +:+ String c s) (ps ++ [Z.max (a - 1) 0] ++ zrange a b).
Proof.
  intros Hc Hd. apply holds_app; [now apply (spelled_length src)|]. destruct Hd as [Hd|Hd]; [now left|]. right. right. exact Hd.
Qed.

Section pack.
Context (src : string) (chunk_size : Z).

Lemma pack_spec sentences : forall cur ps, Forall (sentence_at src) sentences -> spelled src cur ps -> (cur = EmptyString \/ trimmed cur) ->
  Forall (fun sp => spelled src (fst sp) (snd sp)) (pack chunk_size sentences cur ps)
  /\ (forall c i, holds c i cur ps \/ (exists s a b, In (s, a, b) sentences /\ holds c i s (zrange a b)) ->
        exists s qs, In (s, qs) (pack chunk_size sentences cur ps) /\ holds c i s qs).
Proof.
  induction sentences as [|[[s a] b] l IH]; intros cur ps Hl Hc Ht; cbn [pack].
  - destruct Ht as [->|[Hne Ht]].
    + cbn. split; [constructor|]. intros c i [[]|(s & a & b & [] & _)].
    + rewrite Ht. destruct (is_empty cur) eqn:E; [apply is_empty_true in E; contradiction|].
      split; [constructor; [exact Hc | constructor]|]. intros c i [Hh|(s & a & b & [] & _)]. exists cur, ps. split; [apply in_eq | exact Hh].
  - inversion Hl as [|? ? Hs Hl']; subst. pose proof (sentence_spelled _ _ _ _ Hs) as Hsp. pose proof Hs as (_ & _ & Htr).
    destruct (slen cur + slen s + 1 <=? chunk_size); destruct (is_empty cur) eqn:E.
    + apply is_empty_true in E. subst cur. assert (ps = []) as -> by (apply nil_length_inv; now apply (spelled_length src EmptyString)).
      cbn [app]. destruct (IH s (zrange a b) Hl' Hsp (or_intror Htr)) as [H1 H2]. split; [exact H1|].
      intros c i [[]|(s' & a' & b' & [[= <- <- <-]|Hin] & Hh)]; apply H2; [now left | right; eauto 6].
    + assert (trimmed (cur +:+ " " +:+ s)) as Htr' by (apply trimmed_app; [destruct Ht as [->|Ht]; [discriminate | exact Ht] | exact Htr]).
      pose proof (joined_spelled src " " cur ps s a b (or_intror eq_refl) Hc Hs) as Hj.
      destruct (IH (cur +:+ " " +:+ s) _ Hl' Hj (or_intror Htr')) as [H1 H2]. split; [exact H1|].
      intros c i [Hh|(s' & a' & b' & [[= <- <- <-]|Hin] & Hh)]; apply H2;
        [left; apply (joined_holds src); auto | left; apply (joined_holds src); auto | right; eauto 6].
    + destruct (IH s (zrange a b) Hl' Hsp (or_intror Htr)) as [H1 H2]. split; [exact H1|]. apply is_empty_true in E. subst cur.
      intros c i [Hh|(s' & a' & b' & [[= <- <- <-]|Hin] & Hh)]; [destruct Hh | apply H2; now left | apply H2; right; eauto 6].
    + destruct (IH s (zrange a b) Hl' Hsp (or_intror Htr)) as [H1 H2]. split; [constructor; [exact Hc | exact H1]|].
      intros c i [Hh|(s' & a' & b' & [[= <- <- <-]|Hin] & Hh)]; [exists cur, ps; split; [apply in_eq | exact Hh] | |];
        (destruct (H2 c i) as (t & qs & Hi & Hq); [try (now left); right; eauto 6|]); exists t, qs; split; auto using in_cons.
Qed.

(** A packed text fits, or is one sentence. *)
Lemma pack_bounded sentences : forall cur ps, Forall (fun x => let '(s, a, b) := (x : string * Z * Z) in trimmed s /\ unbroken s) sentences ->
  (cur = EmptyString \/ trimmed cur) -> (slen cur <= Z.max chunk_size 0 \/ unbroken cur) ->
  Forall (fun sp => trimmed (fst sp) /\ (slen (fst sp) <= chunk_size \/ unbroken (fst sp))) (pack chunk_size sentences cur ps).
Proof.
  induction sentences as [|[[s a] b] l IH]; intros cur ps Hl Ht Hb; cbn [pack].
  - destruct (is_empty (strip cur)) eqn:E; [constructor|]. assert (strip cur <> EmptyString) as Hne by (intros H; now rewrite H in E).
    destruct Ht as [->|Ht]; [now contradict Hne|]. pose proof (trimmed_slen _ Ht). destruct Ht as [_ Ht]. rewrite Ht in *.
    constructor; [|constructor]. cbn [fst]. split; [split; auto|]. destruct Hb as [Hb|Hb]; [left; lia | now right].
  - inversion Hl as [|? ? Hsu Hl']; subst. cbn in Hsu. destruct Hsu as [Hs Hu]. destruct (slen cur + slen s + 1 <=? chunk_size) eqn:Ef; destruct (is_empty cur) eqn:E.
    + apply IH; auto.
    + apply IH; auto.
      * right. apply trimmed_app; [destruct Ht as [->|Ht]; [discriminate | exact Ht] | exact Hs].
      * left. rewrite !slen_app. change (slen " ") with 1. lia.
    + apply IH; auto.
    + constructor; [|apply IH; auto]. cbn [fst]. destruct Ht as [->|Ht]; [discriminate|]. split; [exact Ht|].
      destruct Hb as [Hb|Hb]; [pose proof (trimmed_slen _ Ht); left; lia | now right].
Qed.
End pack.

(** ** The state of the splitter *)

Section runs.
Context (pages : list (Z * string)) (chunk_size overlap : Z).

Notation src := (source pages).
Notation boundaries := (snd (page_boundaries 0 pages)).
Notation step := (chunk_paragraph chunk_size overlap boundaries).
Notation flush := (flush boundaries).
Notation flush_with_overlap := (flush_with_overlap overlap boundaries).

(** The current text is at its positions, and ends with no whitespace. *)
Definition current_ok (st : chunk_state) : Prop :=
  spelled src (cs_current_text st) (cs_current_positions st)
  /\ (cs_current_text st = EmptyString \/ rtrimmed (cs_current_text st)).

(** The plans are traced, and hold every character of [D] that is not
    whitespace. *)
Definition settled (D : list (ascii * Z)) (plans : list ChunkPlan) (pss : list (list Z)) : Prop :=
  Forall2 (traced pages) plans pss /\ (forall c i, In (c, i) D -> isspace c = false -> found plans pss c i).

(** The plans and the current text hold them. *)
Definition kept (D : list (ascii * Z)) (st : chunk_state) (pss : list (list Z)) : Prop :=
  Forall2 (traced pages) (cs_plans st) pss /\ current_ok st
  /\ (forall c i, In (c, i) D -> isspace c = false ->
        holds c i (cs_current_text st) (cs_current_positions st) \/ found (cs_plans st) pss c i).

Lemma settled_kept D st pss : settled D (cs_plans st) pss -> current_ok st -> kept D st pss.
Proof. intros [H1 H2] H3. split_and!; auto. Qed.

Lemma flush_settles D st pss : kept D st pss -> exists pss', settled D (cs_plans (flush st)) pss'.
Proof.
  intros (Ht & [Hs Hc] & Hd). unfold Chunking.flush. destruct (is_empty (strip (cs_current_text st))) eqn:E.
  - exists pss. split; [exact Ht|]. intros c i Hin Hsp. destruct (Hd c i Hin Hsp) as [Hh|Hh]; [|exact Hh].
    destruct Hc as [Hc|Hc]; [rewrite Hc in Hh; destruct Hh|]. apply rtrimmed_strip in Hc. apply is_empty_true in E. contradiction.
  - cbn [cs_plans]. destruct (append_plan_spec pages _ _ _ _ Ht Hs) as (pss' & T & F & N). exists pss'. split; [exact T|].
    intros c i Hin Hsp. destruct (Hd c i Hin Hsp); auto.
Qed.

Lemma overlap_ok st : current_ok st -> current_ok (flush_with_overlap st).
Proof.
  intros [Hs Hc]. unfold Chunking.flush_with_overlap, start_with_overlap, current_ok. cbn [cs_current_text cs_current_positions].
  set (cur := cs_current_text st) in *. set (ps := cs_current_positions st) in *.
  destruct (is_empty (if 0 <? overlap then slast overlap cur else EmptyString)) eqn:E.
  { apply is_empty_true in E. rewrite E. split; [constructor | now left]. }
  destruct (0 <? overlap); [|discriminate]. unfold slast, llast in *. set (k := (Strings.String.length cur - Z.to_nat overlap)%nat) in *.
  destruct (sskip_split k cur) as (a & Ha & Hl). pose proof (spelled_length _ _ _ Hs) as Hlen.
  assert (skipn (length ps - Z.to_nat (slen (sskip k cur))) ps = skipn (Strings.String.length a) ps) as ->.
  { f_equal. pose proof (f_equal Strings.String.length Ha) as H. rewrite <- !chars_length, chars_app, length_app, !chars_length in H.
    unfold slen. rewrite Nat2Z.id. lia. }
  split.
  - rewrite Ha in Hs at 1. destruct (spelled_split _ _ _ _ Hs) as (qs & rs & -> & H1 & H2).
    rewrite <- (spelled_length _ _ _ H1), drop_app_length. exact H2.
  - right. split; [intros H; now rewrite H in E|]. destruct Hc as [Hc|[_ Hc]]; [rewrite Hc in E; now destruct k|].
    assert (sskip k cur <> EmptyString) as Hne by (intros H; now rewrite H in E).
    destruct (rstrip_split (sskip k cur)) as (w & Hr & Hw). destruct (decide (rstrip (sskip k cur) = EmptyString)) as [Hb|Hb].
    + exfalso. rewrite Hb in Hr. cbn in Hr. rewrite Ha, Hr in Hc. clear -Hc Hw Hne Hr.
      assert (w <> EmptyString) as Hw0 by congruence. clear -Hc Hw Hw0. pose proof (f_equal slen Hc) as Hl.
      assert (slen (rstrip (a +:+ w)) <= slen a) as Hle; [|rewrite Hl, slen_app in Hle; destruct w; [contradiction|]; rewrite slen_cons in Hle; pose proof (slen_nonneg w); lia].
      clear -Hw. assert (rstrip w = EmptyString) as Hw' by (induction w as [|c w IH]; [reflexivity|]; cbn in *; apply andb_true_iff in Hw as [-> Hw]; now rewrite IH).
      induction a as [|c a IH]; cbn [append rstrip]; [rewrite Hw'; lia|]. destruct (isspace c && is_empty (rstrip (a +:+ w))); rewrite ?slen_cons;
        [change (slen EmptyString) with 0; pose proof (slen_nonneg a); lia | lia].
    + rewrite Ha, (rstrip_app a _ Hb) in Hc. clear -Hc. revert Hc. generalize (sskip k cur) as t. generalize (rstrip (sskip k cur)) as r. intros r t.
      induction a as [|c a IH]; cbn; [auto|]. intros [= H]. now apply IH.
Qed.

Lemma nil_current_ok plans : current_ok (mk_chunking plans EmptyString []).
Proof. split; [constructor | now left]. Qed.

(** Before a paragraph that does not join the current text. *)
Lemma cut_settles D st pss : kept D st pss ->
  exists pss', settled D (cs_plans (flush_with_overlap st)) pss' /\ current_ok (flush_with_overlap st).
Proof.
  intros H. destruct (flush_settles D st pss H) as [pss' Hs]. exists pss'. split; [exact Hs|]. apply overlap_ok. apply H.
Qed.

(** The characters of a paragraph the splitter keeps. *)
Definition para_chars (para : Z * string) : list (ascii * Z) :=
  let '(a, b) := _trimmed_span (fst para) (snd para) in
  if is_separator (strip (snd para)) then [] else combine (chars (strip (snd para))) (zrange a b).

Lemma join_kept D st pss para a : kept D st pss -> trimmed para -> occurs src a para ->
  kept (D ++ combine (chars para) (zrange a (a + slen para)))
    (if is_empty (cs_current_text st) then mk_chunking (cs_plans st) para (zrange a (a + slen para))
     else mk_chunking (cs_plans st) (cs_current_text st +:+ String (chr 10) para)
            (cs_current_positions st ++ [Z.max (a - 1) 0] ++ zrange a (a + slen para))) pss.
Proof.
  intros (Ht & [Hs Hc] & Hd) Hp Ho. pose proof (occurs_spelled _ _ _ Ho) as Hsp.
  assert (sentence_at src (para, a, a + slen para)) as Hat by (split_and!; auto). destruct (is_empty (cs_current_text st)) eqn:E.
  - split_and!; [exact Ht | split; [exact Hsp | right; now apply trimmed_rtrimmed] |]. cbn [cs_plans cs_current_text cs_current_positions].
    apply is_empty_true in E. rewrite E in Hd. intros c i Hin Hsp'. apply in_app_or in Hin as [Hin|Hin]; [|now left].
    destruct (Hd c i Hin Hsp') as [[]|Hf]; now right.
  - split_and!; [exact Ht | split; cbn [cs_current_text cs_current_positions] |]; cbn [cs_plans cs_current_text cs_current_positions].
    + apply (joined_spelled src); auto. now left.
    + right. change (String (chr 10) para) with (String (chr 10) EmptyString +:+ para). do 2 apply rtrimmed_app. now apply trimmed_rtrimmed.
    + intros c i Hin Hsp'. apply in_app_or in Hin as [Hin|Hin].
      * destruct (Hd c i Hin Hsp') as [Hh|Hf]; [left; apply (joined_holds src); auto | now right].
      * left. apply (joined_holds src); auto.
Qed.

Lemma step_kept D st pss para : kept D st pss -> occurs src (fst para) (snd para) -> strip (snd para) <> EmptyString ->
  exists pss', kept (D ++ para_chars para) (step st para) pss'.
Proof.
  intros Hk Ho Hne. destruct para as [start text]. cbn [fst snd] in *. unfold chunk_paragraph, para_chars. cbn [fst snd].
  destruct (_trimmed_span start text) as [a b] eqn:Es. destruct (trimmed_span_occurs _ _ _ _ _ Ho Hne Es) as (Hoc & -> & _ & _).
  pose proof (strip_trimmed _ Hne) as Hp. set (para := strip text) in *. destruct (is_empty para) eqn:E0; [apply is_empty_true in E0; contradiction|].
  destruct (is_separator para).
  { rewrite app_nil_r. destruct (is_empty (strip (cs_current_text st))); [now exists pss|].
    destruct (cut_settles D st pss Hk) as (pss' & Hs & _). exists pss'. apply settled_kept; [exact Hs | apply nil_current_ok]. }
  destruct (chunk_size <? slen para).
  - set (st1 := if is_empty (cs_current_text st) then st else clear (flush_with_overlap st)).
    assert (exists pss1, settled D (cs_plans st1) pss1 /\ current_ok st1) as (pss1 & [T1 F1] & C1).
    { unfold st1. destruct (is_empty (cs_current_text st)) eqn:E.
      - exists pss. destruct Hk as (T & C & F). split; [split; [exact T|] | exact C]. apply is_empty_true in E. rewrite E in F.
        intros c i Hin Hsp. destruct (F c i Hin Hsp) as [[]|Hf]. exact Hf.
      - destruct (cut_settles D st pss Hk) as (pss' & Hs & _). exists pss'. split; [exact Hs | apply nil_current_ok]. }
    destruct (sentence_spans_spec para a) as [Hsent Hcov].
    assert (Forall (sentence_at src) (_sentence_spans para a)) as Hat.
    { eapply Forall_impl; [exact Hsent|]. intros [[s x] y] (Hos & -> & Htr & _). split_and!; auto.
      pose proof (occurs_trans _ _ _ _ _ Hoc Hos) as H. now replace (a + (x - a)) with x in H by lia. }
    destruct (pack_spec src chunk_size _ EmptyString [] Hat (List.Forall2_nil _) (or_introl eq_refl)) as [P1 P2].
    destruct (append_plans_spec pages _ _ _ T1 P1) as (pss' & T2 & F2 & N2). exists pss'.
    apply settled_kept; [|exact C1]. split; [exact T2|]. cbn [cs_plans]. intros c i Hin Hsp. apply in_app_or in Hin as [Hin|Hin]; [apply F2, F1; auto|].
    apply holds_at in Hin. destruct (Hcov _ _ Hin Hsp) as (s & x & y & Hxy & Hats). rewrite List.Forall_forall in Hat.
    destruct (Hat _ Hxy) as (_ & -> & _). apply (occurs_holds s x) in Hats. replace (x + (a + (i - a) - x)) with i in Hats by lia.
    destruct (P2 c i) as (s' & qs & Hin' & Hh); [right; eauto 6|]. exact (N2 _ _ _ _ Hin' Hh Hsp).
  - match goal with |- context [if is_empty (cs_current_text ?s) then _ else _] => set (st1 := s) end.
    assert (exists pss1, kept D st1 pss1) as [pss1 K1].
    { unfold st1. destruct (_ && _); [|now exists pss]. destruct (cut_settles D st pss Hk) as (pss' & Hs & Hc). exists pss'. now apply settled_kept. }
    exists pss1. now apply join_kept.
Qed.

(** The characters of the paragraphs that are not separators. *)
Definition kept_chars (paras : list (Z * string)) : list (ascii * Z) := flat_map para_chars paras.

Lemma run_kept paras : forall D st pss, kept D st pss ->
  Forall (fun para => occurs src (fst para) (snd para) /\ strip (snd para) <> EmptyString) paras ->
  exists pss', kept (D ++ kept_chars paras) (fold_left step paras st) pss'.
Proof.
  induction paras as [|para paras IH]; intros D st pss Hk Hp; cbn [fold_left kept_chars flat_map]; [exists pss; now rewrite app_nil_r|].
  inversion Hp as [|? ? [Ho Hne] Hp']; subst. destruct (step_kept D st pss para Hk Ho Hne) as [pss1 K1].
  destruct (IH _ _ _ K1 Hp') as [pss2 K2]. exists pss2. now rewrite <- app_assoc in K2.
Qed.
End runs.

(** ** The whole document *)

Lemma paragraphs_located text : Forall (fun para => occurs text (fst para) (snd para) /\ strip (snd para) <> EmptyString)
  (_paragraphs_with_positions text).
Proof.
  destruct (paragraphs_spec text) as (ps & Hp & ->).
  assert (occurs text 0 text) as Ho by (exists EmptyString, EmptyString; cbn; now rewrite sapp_nil_r).
  pose proof (parted_occurs _ _ _ _ Ho Hp) as Hocc. rewrite List.Forall_forall in Hocc.
  apply List.Forall_forall. intros x Hx. apply filter_In in Hx as [Hx Hn]. split; [now apply Hocc|].
  intros E. unfold nonblank in Hn. now rewrite E in Hn.
Qed.

Lemma paragraphs_cover text i c : at_pos text i c -> isspace c = false ->
  exists start para, In (start, para) (_paragraphs_with_positions text) /\ start <= i < start + slen para /\ at_pos para (i - start) c.
Proof.
  intros Hat Hc. destruct (paragraphs_spec text) as (ps & Hp & ->).
  destruct (parted_cover _ _ _ _ _ Hp Hat Hc) as (f & p & Hin & Hb & Hpc). exists f, p. rewrite Z.add_0_l in Hb, Hpc.
  split_and!; [|lia | lia | exact Hpc]. apply filter_In. split; [exact Hin|]. unfold nonblank. cbn [snd].
  destruct (is_empty (strip p)) eqn:E; [|reflexivity]. apply is_empty_true, strip_blank in E.
  rewrite (at_pos_spaces _ _ _ E Hpc) in Hc. discriminate.
Qed.

Lemma chunk_unfold pages chunk_size overlap :
  chunk pages chunk_size overlap
  = cs_plans (Chunking.flush (snd (page_boundaries 0 pages))
      (fold_left (chunk_paragraph chunk_size overlap (snd (page_boundaries 0 pages))) (_paragraphs_with_positions (source pages))
         (mk_chunking [] EmptyString []))).
Proof. unfold chunk, source. now destruct (page_boundaries 0 pages). Qed.

(** Every plan is traced to the source, and every character of the source
    that is neither whitespace nor in a separator is in a plan. *)
Lemma chunk_settled pages chunk_size overlap : exists pss, Forall2 (traced pages) (chunk pages chunk_size overlap) pss
  /\ (forall i c, at_pos (source pages) i c -> isspace c = false ->
        (exists start para, In (start, para) (_paragraphs_with_positions (source pages)) /\ start <= i < start + slen para
           /\ is_separator (strip para) = true)
        \/ found (chunk pages chunk_size overlap) pss c i).
Proof.
  rewrite chunk_unfold. destruct (run_kept pages chunk_size overlap (_paragraphs_with_positions (source pages)) [] (mk_chunking [] EmptyString []) [])
    as [pss K]; [split_and!; [constructor | apply nil_current_ok | intros c i []] | apply paragraphs_located|].
  destruct (flush_settles pages _ _ _ K) as [pss' [T F]]. exists pss'. split; [exact T|]. intros i c Hat Hc.
  destruct (paragraphs_cover _ _ _ Hat Hc) as (start & para & Hin & Hb & Hp).
  destruct (is_separator (strip para)) eqn:E; [left; eauto 6|]. right. apply F; [|exact Hc]. cbn [app].
  apply in_flat_map. exists (start, para). split; [exact Hin|]. unfold para_chars. cbn [fst snd].
  pose proof (paragraphs_located (source pages)) as Hl. rewrite List.Forall_forall in Hl. destruct (Hl _ Hin) as [Ho Hne]. cbn [fst snd] in *.
  destruct (_trimmed_span start para) as [a b] eqn:Es. destruct (trimmed_span_occurs _ _ _ _ _ Ho Hne Es) as (_ & -> & _ & H4).
  rewrite E. destruct (H4 _ _ Hp Hc) as [_ H5]. apply (occurs_holds _ a) in H5.
  now replace (a + (start + (i - start) - a)) with i in H5 by lia.
Qed.

(** ** Sizes *)

(** What holds of a plan wherever it stands in the list. *)
Record sized (chunk_size overlap : Z) (index : nat) (plan : ChunkPlan) : Prop := {
  sz_index : cp_chunk_index plan = Z.of_nat index;
  sz_checksum : cp_checksum plan = content_checksum (cp_text plan);
  sz_trimmed : trimmed (cp_text plan);
  sz_size : slen (cp_text plan) <= Z.max 0 chunk_size + Z.max 0 overlap + 1 \/ unbroken (cp_text plan) }.

Section sizes.
Context (chunk_size overlap : Z) (boundaries : list (Z * Z)).

Notation bound := (Z.max 0 chunk_size + Z.max 0 overlap + 1).

Definition all_sized (plans : list ChunkPlan) : Prop := forall k plan, plans !! k = Some plan -> sized chunk_size overlap k plan.

Lemma append_plan_sized s ps plans : all_sized plans -> (slen s <= bound \/ unbroken (strip s)) ->
  all_sized (append_plan boundaries s ps plans).
Proof.
  intros Hp Hs. unfold append_plan. destruct (is_empty (strip s)) eqn:E; [exact Hp|]. destruct (_page_span _ _) as [a b].
  intros k plan Hk. apply lookup_app_Some in Hk as [Hk|[Hl Hk]]; [now apply Hp|]. apply list_lookup_singleton_Some in Hk as [Hk <-].
  assert (strip s <> EmptyString) as Hne by (intros H; now rewrite H in E). constructor; cbn [cp_chunk_index cp_checksum cp_text].
  - f_equal. lia.
  - reflexivity.
  - now apply strip_trimmed.
  - destruct Hs as [Hs|Hs]; [left; pose proof (slen_strip s); lia | now right].
Qed.

Lemma flush_sized st : all_sized (cs_plans st) -> slen (cs_current_text st) <= bound -> all_sized (cs_plans (Chunking.flush boundaries st)).
Proof.
  intros Hp Hs. unfold Chunking.flush. destruct (is_empty _); [exact Hp|]. cbn [cs_plans]. apply append_plan_sized; auto.
Qed.

Lemma slen_slast n s : slen (slast n s) <= Z.max 0 n.
Proof.
  unfold slast. destruct (sskip_split (Strings.String.length s - Z.to_nat n) s) as (a & Ha & Hl).
  apply (f_equal slen) in Ha. rewrite slen_app in Ha. unfold slen in *. lia.
Qed.

Lemma cut_sized st : all_sized (cs_plans st) -> slen (cs_current_text st) <= bound ->
  all_sized (cs_plans (Chunking.flush_with_overlap overlap boundaries st))
  /\ slen (cs_current_text (Chunking.flush_with_overlap overlap boundaries st)) <= Z.max 0 overlap.
Proof.
  intros Hp Hs. split; [now apply flush_sized|]. unfold Chunking.flush_with_overlap, start_with_overlap. cbn [cs_current_text].
  destruct (0 <? overlap); [apply slen_slast | change (slen EmptyString) with 0; lia].
Qed.

Lemma append_plans_sized l : forall plans, all_sized plans -> Forall (fun sp => slen (fst sp) <= bound \/ unbroken (strip (fst sp))) l ->
  all_sized (fold_left (fun plans sp => append_plan boundaries (fst sp) (snd sp) plans) l plans).
Proof.
  induction l as [|sp l IH]; intros plans Hp Hl; cbn [fold_left]; [exact Hp|]. inversion Hl; subst. apply IH; [now apply append_plan_sized | assumption].
Qed.

Lemma step_sized st para : all_sized (cs_plans st) -> slen (cs_current_text st) <= bound ->
  all_sized (cs_plans (chunk_paragraph chunk_size overlap boundaries st para))
  /\ slen (cs_current_text (chunk_paragraph chunk_size overlap boundaries st para)) <= bound.
Proof.
  intros Hp Hs. destruct para as [start text]. unfold chunk_paragraph. destruct (_trimmed_span start text) as [a b].
  set (para := strip text). destruct (cut_sized st Hp Hs) as [C1 C2]. destruct (is_empty para) eqn:E; [auto|].
  destruct (is_separator para); [destruct (is_empty (strip (cs_current_text st))); [auto | cbn; split; [exact C1 | change (slen EmptyString) with 0; lia]]|].
  destruct (chunk_size <? slen para) eqn:El.
  - cbn [cs_plans cs_current_text].
    match goal with |- context [fold_left _ _ (cs_plans ?s)] => set (st1 := s) end.
    assert (all_sized (cs_plans st1) /\ slen (cs_current_text st1) <= bound) as [H1 H2].
    { unfold st1. destruct (is_empty (cs_current_text st)); [auto | cbn; split; [exact C1 | change (slen EmptyString) with 0; lia]]. }
    split; [|exact H2]. apply append_plans_sized; [exact H1|].
    destruct (sentence_spans_spec para a) as [Hsent _].
    assert (Forall (fun sp => trimmed (fst sp) /\ (slen (fst sp) <= chunk_size \/ unbroken (fst sp)))
      (pack chunk_size (_sentence_spans para a) EmptyString [])) as Hpack.
    { apply pack_bounded; [|now left | left; change (slen EmptyString) with 0; lia].
      eapply Forall_impl; [exact Hsent|]. intros [[s x] y] (_ & _ & H3 & H4). auto. }
    eapply Forall_impl; [exact Hpack|]. intros [s qs] [[_ Ht] [Hb|Hb]]; cbn [fst] in *; [left; lia | right; now rewrite Ht].
  - match goal with |- context [if is_empty (cs_current_text ?s) then _ else _] => set (st1 := s) end.
    assert (all_sized (cs_plans st1) /\ (is_empty (cs_current_text st1) = false -> slen (cs_current_text st1) + slen para + 1 <= bound)) as [H1 H2].
    { unfold st1. destruct (chunk_size <? slen (cs_current_text st) + slen para + 1) eqn:Eo; cbn [andb];
        [|split; [exact Hp | intros _; lia]].
      destruct (is_empty (cs_current_text st)) eqn:Ec; cbn [negb]; [split; [exact Hp | congruence]|]. split; [exact C1 | intros _; lia]. }
    destruct (is_empty (cs_current_text st1)) eqn:Ec; cbn [cs_plans cs_current_text]; (split; [exact H1|]); [lia|].
    rewrite slen_app, slen_cons. specialize (H2 eq_refl). lia.
Qed.
End sizes.

Lemma chunk_sized pages chunk_size overlap : all_sized chunk_size overlap (chunk pages chunk_size overlap).
Proof.
  rewrite chunk_unfold. set (b := snd _). assert (forall paras st, all_sized chunk_size overlap (cs_plans st) ->
    slen (cs_current_text st) <= Z.max 0 chunk_size + Z.max 0 overlap + 1 ->
    all_sized chunk_size overlap (cs_plans (fold_left (chunk_paragraph chunk_size overlap b) paras st))
    /\ slen (cs_current_text (fold_left (chunk_paragraph chunk_size overlap b) paras st)) <= Z.max 0 chunk_size + Z.max 0 overlap + 1) as Hrun.
  { induction paras as [|para paras IH]; intros st H1 H2; cbn [fold_left]; [auto|].
    destruct (step_sized chunk_size overlap b st para H1 H2) as [H3 H4]. now apply IH. }
  destruct (Hrun (_paragraphs_with_positions (source pages)) (mk_chunking [] EmptyString [])) as [H1 H2].
  - intros k plan H. cbn [cs_plans] in H. now rewrite lookup_nil in H.
  - change (slen (cs_current_text _)) with 0. lia.
  - now apply flush_sized.
Qed.
