(* ===== verification/ChunkProperties.v ===== *)
(** * What splitting a document guarantees *)

From Stdlib Require Import Ascii String.
From stdpp Require Import strings list.
From S2P Require Import Prelude PyStr Identity Chunking ChunkLemmas.

Local Open Scope string_scope.
Local Open Scope Z_scope.
Local Open Scope list_scope.


(** C25: nothing is lost: every character of the source that is neither
    whitespace nor in a separator line is in the text of a chunk, at that
    position. *)
Theorem chunk_complete pages chunk_size overlap i c : at_pos (source pages) i c -> isspace c = false ->
  (exists start para, In (start, para) (_paragraphs_with_positions (source pages)) /\ start <= i < start + slen para
     /\ is_separator (strip para) = true)
  \/ exists plan ps, In plan (chunk pages chunk_size overlap) /\ traced pages plan ps /\ holds c i (cp_text plan) ps.
Proof.
  destruct (chunk_settled pages chunk_size overlap) as (pss & T & F). intros Hat Hc.
  destruct (F i c Hat Hc) as [Hs|(plan & ps & Hin & Hh)]; [now left|]. right. exists plan, ps. split_and!; [| |exact Hh].
  - now apply in_combine_l in Hin.
  - clear -T Hin. induction T as [|a b l k Hab _ IH]; [destruct Hin|]. destruct Hin as [[= -> ->]|Hin]; auto.
Qed.

(** C27: the chunks are numbered in order, carry the checksum of their text,
    begin and end with no whitespace, and have at most [chunk_size + overlap +
    1] characters, unless one is a single unbroken sentence. *)
Theorem chunk_bounded pages chunk_size overlap index plan : chunk pages chunk_size overlap !! index = Some plan ->
  cp_chunk_index plan = Z.of_nat index /\ cp_checksum plan = content_checksum (cp_text plan)
  /\ cp_text plan <> EmptyString /\ strip (cp_text plan) = cp_text plan
  /\ (slen (cp_text plan) <= Z.max 0 chunk_size + Z.max 0 overlap + 1 \/ unbroken (cp_text plan)).
Proof. intros H. destruct (chunk_sized _ _ _ _ _ H) as [H1 H2 [H3 H4] H5]. auto. Qed.

(** ** A sample document *)

Definition line (s : string) : string := s +:+ String (chr 10) EmptyString.

Definition sample_pages : list (Z * string) :=
  [(1, line "Hello world." +:+ line EmptyString +:+ line "Second para");
   (2, line "---" +:+ line EmptyString +:+ line "One. Two! A long sentence here." +:+ line EmptyString +:+ "end")].

Example sample_chunks :
  map (fun p => (cp_text p, cp_page_start p, cp_page_end p)) (chunk sample_pages 20 5)
  = [("Hello world.", Some 1, Some 1); ("orld." +:+ String (chr 10) "Second para", Some 1, Some 1); ("One. Two!", Some 2, Some 2);
     ("A long sentence here.", Some 2, Some 2); ("end", Some 2, Some 2)].
Proof. lazy. reflexivity. Qed.

(** The exclamation mark is the 41st character, and no separator holds it. *)
Lemma chunk_complete_witness : exists plan ps,
  In plan (chunk sample_pages 20 5) /\ traced sample_pages plan ps /\ holds (chr 33) 40 (cp_text plan) ps.
Proof.
  assert (at_pos (source sample_pages) 40 (chr 33)) as H by (apply at_pos_lookup; split; [lia | lazy; reflexivity]).
  destruct (chunk_complete sample_pages 20 5 40 (chr 33) H eq_refl) as [(start & para & Hin & Hb & Hs)|(plan & ps & H1 & H2 & H3)];
    [exfalso | exists plan, ps; exact (conj H1 (conj H2 H3))].
  assert (Forall (fun sp => is_separator (strip (snd sp)) = true -> fst sp + slen (snd sp) <= 40) (_paragraphs_with_positions (source sample_pages))) as Hall
    by (apply List.Forall_forall; intros x Hx; lazy in Hx; repeat destruct Hx as [<-|Hx]; [lazy; congruence..|destruct Hx]).
  rewrite List.Forall_forall in Hall. specialize (Hall _ Hin Hs). cbn in Hall. lia.
Defined.

(** The long sentence is one chunk. *)
Lemma chunk_bounded_witness : exists plan, chunk sample_pages 20 5 !! 3%nat = Some plan /\ cp_text plan = "A long sentence here."
  /\ cp_chunk_index plan = 3 /\ cp_checksum plan = content_checksum "A long sentence here.".
Proof.
  destruct (chunk sample_pages 20 5 !! 3%nat) as [plan|] eqn:E; [|lazy in E; discriminate]. exists plan.
  assert (option_map cp_text (chunk sample_pages 20 5 !! 3%nat) = Some "A long sentence here.") as H by (lazy; reflexivity).
  rewrite E in H. injection H as H. destruct (chunk_bounded _ _ _ _ _ E) as (H1 & H2 & _). rewrite H in H2. auto.
Defined.
