(* ===== verification/IngestPorts.v ===== *)
(** * The ports and the effects of the ingestion pipeline

    The records that packages/ingestion/src/rick_ingestion/pipeline.py exchanges with its adapters,
    the adapters themselves as a record of functions, and the monad of one run: state, errors,
    the trace of the calls it made, and the cancellation that may interleave with any of them. *)

From Stdlib Require Import Ascii String.
From stdpp Require Import strings list.
From S2P Require Import Prelude PyFloat PyStr PyVal Json CanonicalJson IngestionJobs StateError KnowledgeModels.
From S2P Require Import Publication Chunking.

Local Open Scope string_scope.
Local Open Scope Z_scope.
Local Open Scope list_scope.

(** ** The ports of the ingestion pipeline (packages/ingestion, pipeline.py)

    What [IngestionService] asks of its collaborators, and the state a call
    works on.  A collaborator is any function of the calls made before: it may
    return anything of the type the pipeline reads, or raise.  Every call is
    recorded, so a run leaves the trace of its effects.  Job objects live on a
    heap, as the registry, a running call and a cancelling thread share them.

    Another thread may cancel a job whenever the service lock is free and the
    pipeline calls out or changes the status of a job. *)

(** ** Exceptions *)

(** [Raised] is any other [Exception]: whether it is a [ValueError], its [code]
    and [retryable] attributes.  [Interrupted] is a [BaseException] no handler of
    the pipeline catches. *)
Inductive exn : Type :=
| OwnershipLost
| ExecutionOwnershipLost
| CancellationRequested
| ParseError (code message : string)
| EmbeddingBatchError (code message : string)
| TypeError
| TimeoutError
| Raised (value_error : bool) (code : option string) (retryable : bool)
| CancelledError
| Interrupted.

Definition RuntimeError : exn := Raised false None false.
Definition ValueError' : exn := Raised true None false.
Definition InvalidTransition : exn := Raised false None false.

Definition of_k (e : k_error) : exn :=
  match e with OwnershipLostError => OwnershipLost | ValueError => ValueError' | KeyError => RuntimeError end.

Definition lift_k {S A} (r : res k_error A) : M S exn A :=
  lift (match r with Ok a => Ok a | Err e => Err (of_k e) end).

(** [except (Exception, CancelledError)], [except Exception], and
    [except OwnershipLostError]. *)
Definition caught (e : exn) : bool := match e with Interrupted => false | _ => true end.
Definition is_exception (e : exn) : bool := match e with CancelledError | Interrupted => false | _ => true end.
Definition is_ownership (e : exn) : bool := match e with OwnershipLost | ExecutionOwnershipLost => true | _ => false end.
Definition is_cancellation (e : exn) : bool := match e with CancellationRequested => true | _ => false end.

(** [getattr(exc, "code", None)]. *)
Definition exn_code (e : exn) : option string :=
  match e with
  | OwnershipLost | ExecutionOwnershipLost => Some "lock_unavailable"
  | ParseError code _ | EmbeddingBatchError code _ => Some code
  | Raised _ code _ => code
  | _ => None
  end.

(** ** Calls *)

(** A tenant and a workspace, when the method takes them. *)
Definition scope : Type := option (string * string).

Inductive guard : Type :=
| GDocument (document_id : string)
| GCollection (tenant_id workspace_id collection_id : string)
| GDecision (record : Receipt)
| GPublication.

Record ParsedDocument : Type := mk_parsed { pd_text : string; pd_pages : list (Z * string) }.

(** The calls, each with the type of what it returns.  [UpsertDocument] gives
    the document as the adapter leaves it; [SaveCheckpoint] also says whether
    the adapter marked the job as cancelled; [ParserBeats] are the heartbeats a
    parser sends, [ParserResult] what it gives once they were handled. *)
Inductive call : Type -> Type :=
| GetDocument (document_id : string) (sc : scope) : call (option Document)
| GetCollection (tenant_id workspace_id collection_id : string) : call (option Collection)
| EnsureCollection (c : Collection) : call Collection
| UpsertDocument (d : Document) : call Document
| ReplaceChunks (document_id : string) (chunks : list Chunk) (sc : scope) : call unit
| GetChunks (document_id : string) (sc : scope) : call (list Chunk)
| SetStatus (document_id status : string) (sc : scope) : call unit
| DeleteRow (document_id : string) (sc : scope) : call unit
| GetPublication (key : pub_key) : call (option Receipt)
| BeginPublication (j : IngestionJob) (document_attempt : option pyval) (ready_count : Z) : call unit
| ResolvePublication (record : Receipt) (name : string) : call (option Receipt)
| RequestPublicationCancel (j : IngestionJob) : call unit
| SavePublicationSnapshot (j : IngestionJob) : call unit
| GetCheckpoint (key : pub_key) : call (option Checkpoint)
| BeginCheckpoint (j : IngestionJob) : call Checkpoint
| SaveCheckpoint (j : IngestionJob) (fingerprint : pyval) (artifacts : list (string * pyval)) : call (bool * Checkpoint)
| FinishCheckpoint (j : IngestionJob) : call unit
| RequestIngestionCancel (j : IngestionJob) : call unit
| RepairCheckpoint (j : IngestionJob) : call bool
| Enter (g : guard) : call unit
| Exit (g : guard) : call unit
| GuardCheck : call unit
| UpsertPoints (batch : list pyval) : call pyval
| DeleteVectors (document_id collection_id : string) (sc : scope) : call unit
| CountVectors (document_id collection_id : string) (sc : scope) : call pyval
| SnapshotDocument (document_id collection_id tenant_id workspace_id : string) : call (list pyval)
| AllPoints (limited : bool) : call (list pyval)
| PlanBatches (points : list pyval) : call (list (list pyval))
| PrepareIndex (dimensions : pyval) : call (bool * pyval)
| IndexKey (model version : string) : call string
| Embed (texts : list string) : call pyval
| ValidateFile : call unit
| ChecksumFile : call string
| ParserFor : call unit
| ParserBeats : call (list (list (string * pyval)))
| ParserResult (refused : option exn) : call ParsedDocument
| ChunkText (text : string) (pages : list (Z * string)) (document_id : string) : call (list ChunkPlan)
| Emit (kind : string) (fields : list (string * pyval)) : call unit
| CancelCheck : call bool
| LeaseLost : call bool.

Inductive event : Type :=
| Ev {A : Type} (c : call A) (r : res exn A).

(** Newest first. *)
Definition trace : Type := list event.

(** ** Collaborators *)

(** [offers name]: [callable(getattr(adapter, name, None))]; [scoped name]: the
    method takes [tenant_id] and [workspace_id]; [cancels]: a job another thread
    cancels now; then the clocks, a fresh identifier, and the attributes of the
    adapters and of the service that the pipeline reads. *)
Record adapters : Type := mk_adapters {
  answer : forall A, call A -> trace -> res exn A;
  offers : string -> bool;
  scoped : string -> bool;
  cancels : trace -> option string;
  clock : trace -> pyfloat;
  utc : trace -> stamps;
  uuid4_hex : trace -> string;
  embedding_model : string; embedding_dimensions : pyval; embedding_version : string;
  vectors_collection : string; max_points : option Z;
  max_jobs : Z; parser_limits : option pyval; default_parser_limits : pyval;
  chunker_type : string; chunker_options : pyval; parser_version : string; chunker_version : string;
  display_filename : string; source_suffix : string; declared_mime : option string }.

(** ** State *)

Definition addr : Type := nat.

(** What [recover_attempt] closes over. *)
Record frame : Type := mk_frame {
  f_job : addr; f_tenant_id : string; f_workspace_id : string; f_collection_id : string; f_attempt_id : string;
  f_document_id : option string; f_document_written : bool;
  f_publication_committed : bool; f_publication_attempted : bool;
  f_counts : option (Z * Z); f_base_event : list (string * pyval); f_callbacks : bool * bool }.

(** Local variables that a handler reads after an exception: the frame of the
    running ingestion, the receipt a recovery has read last, whether a cleanup
    has emptied the index, and how far a retirement went (the points it saved,
    whether it started, whether the saved points are incomplete). *)
Record locals : Type := mk_locals {
  l_frame : frame; l_record : option Receipt; l_vectors_clean : bool; l_retirement : list pyval * bool * bool }.

(** [w_jobs], [w_pending] and [w_recovery] are the registry, the jobs whose
    commit is unresolved and the recoveries of the service; [w_locked] counts
    how often this thread holds the service lock. *)
Record world : Type := mk_world {
  w_trace : trace; w_heap : list IngestionJob; w_jobs : list (string * addr);
  w_pending : list string; w_recovery : list (string * (frame * exn)); w_locked : nat; w_locals : locals }.

Definition push (e : event) (w : world) : world :=
  mk_world (e :: w_trace w) (w_heap w) (w_jobs w) (w_pending w) (w_recovery w) (w_locked w) (w_locals w).
Definition set_heap (h : list IngestionJob) (w : world) : world :=
  mk_world (w_trace w) h (w_jobs w) (w_pending w) (w_recovery w) (w_locked w) (w_locals w).
Definition set_jobs (j : list (string * addr)) (w : world) : world :=
  mk_world (w_trace w) (w_heap w) j (w_pending w) (w_recovery w) (w_locked w) (w_locals w).
Definition set_pending (p : list string) (w : world) : world :=
  mk_world (w_trace w) (w_heap w) (w_jobs w) p (w_recovery w) (w_locked w) (w_locals w).
Definition set_recovery (r : list (string * (frame * exn))) (w : world) : world :=
  mk_world (w_trace w) (w_heap w) (w_jobs w) (w_pending w) r (w_locked w) (w_locals w).
Definition set_locked (n : nat) (w : world) : world :=
  mk_world (w_trace w) (w_heap w) (w_jobs w) (w_pending w) (w_recovery w) n (w_locals w).
Definition set_locals (l : locals) (w : world) : world :=
  mk_world (w_trace w) (w_heap w) (w_jobs w) (w_pending w) (w_recovery w) (w_locked w) l.

Definition the_frame (w : world) : frame := l_frame (w_locals w).
Definition set_frame (f : frame) (w : world) : world :=
  let l := w_locals w in set_locals (mk_locals f (l_record l) (l_vectors_clean l) (l_retirement l)) w.
Definition set_record (r : option Receipt) (w : world) : world :=
  let l := w_locals w in set_locals (mk_locals (l_frame l) r (l_vectors_clean l) (l_retirement l)) w.
Definition set_vectors_clean (b : bool) (w : world) : world :=
  let l := w_locals w in set_locals (mk_locals (l_frame l) (l_record l) b (l_retirement l)) w.
Definition set_retirement (r : list pyval * bool * bool) (w : world) : world :=
  let l := w_locals w in set_locals (mk_locals (l_frame l) (l_record l) (l_vectors_clean l) r) w.

Definition frame_document (document_id : option string) (f : frame) : frame :=
  mk_frame (f_job f) (f_tenant_id f) (f_workspace_id f) (f_collection_id f) (f_attempt_id f) document_id
    (f_document_written f) (f_publication_committed f) (f_publication_attempted f) (f_counts f) (f_base_event f) (f_callbacks f).
Definition frame_written (f : frame) : frame :=
  mk_frame (f_job f) (f_tenant_id f) (f_workspace_id f) (f_collection_id f) (f_attempt_id f) (f_document_id f)
    true (f_publication_committed f) (f_publication_attempted f) (f_counts f) (f_base_event f) (f_callbacks f).
Definition frame_committed (b : bool) (f : frame) : frame :=
  mk_frame (f_job f) (f_tenant_id f) (f_workspace_id f) (f_collection_id f) (f_attempt_id f) (f_document_id f)
    (f_document_written f) b (f_publication_attempted f) (f_counts f) (f_base_event f) (f_callbacks f).
Definition frame_attempted (f : frame) : frame :=
  mk_frame (f_job f) (f_tenant_id f) (f_workspace_id f) (f_collection_id f) (f_attempt_id f) (f_document_id f)
    (f_document_written f) (f_publication_committed f) true (f_counts f) (f_base_event f) (f_callbacks f).
Definition frame_counts (chunks indexed : Z) (f : frame) : frame :=
  mk_frame (f_job f) (f_tenant_id f) (f_workspace_id f) (f_collection_id f) (f_attempt_id f) (f_document_id f)
    (f_document_written f) (f_publication_committed f) (f_publication_attempted f) (Some (chunks, indexed))
    (f_base_event f) (f_callbacks f).

(** ** Job objects *)

Definition no_job : IngestionJob := IngestionJob_new EmptyString EmptyString EmptyString EmptyString (Fin 0).

Definition job_at (a : addr) (w : world) : IngestionJob := nth a (w_heap w) no_job.
Definition update_job (a : addr) (f : IngestionJob -> IngestionJob) (w : world) : world :=
  set_heap (<[a := f (job_at a w)]> (w_heap w)) w.

(** [job.metadata[k] = v], [job.metadata.pop(k, None)], [job.metadata.get(k)]. *)
Definition with_metadata (f : list (string * pyval) -> list (string * pyval)) (j : IngestionJob) : IngestionJob :=
  mk_ijob (ij_tenant_id j) (ij_workspace_id j) (ij_collection_id j) (ij_job_id j) (ij_document_id j)
    (ij_status j) (ij_stage j) (ij_progress j) (ij_attempt j) (ij_error_code j) (ij_safe_error_message j)
    (ij_created_at j) (ij_started_at j) (ij_finished_at j) (ij_cancel_requested j) (ij_heartbeats j) (f (ij_metadata j)).
Definition set_meta (k : string) (v : pyval) : IngestionJob -> IngestionJob := with_metadata (dict_set k v).
Definition pop_meta (k : string) : IngestionJob -> IngestionJob := with_metadata (dict_del k).
Definition meta (k : string) (j : IngestionJob) : pyval := dict_read k (ij_metadata j).

(** [job.status = job.stage = status]. *)
Definition with_job_status (status : string) (j : IngestionJob) : IngestionJob :=
  mk_ijob (ij_tenant_id j) (ij_workspace_id j) (ij_collection_id j) (ij_job_id j) (ij_document_id j)
    status status (ij_progress j) (ij_attempt j) (ij_error_code j) (ij_safe_error_message j)
    (ij_created_at j) (ij_started_at j) (ij_finished_at j) (ij_cancel_requested j) (ij_heartbeats j) (ij_metadata j).
Definition with_finished_at (t : option pyfloat) (j : IngestionJob) : IngestionJob :=
  mk_ijob (ij_tenant_id j) (ij_workspace_id j) (ij_collection_id j) (ij_job_id j) (ij_document_id j)
    (ij_status j) (ij_stage j) (ij_progress j) (ij_attempt j) (ij_error_code j) (ij_safe_error_message j)
    (ij_created_at j) (ij_started_at j) t (ij_cancel_requested j) (ij_heartbeats j) (ij_metadata j).
Definition with_document_id (document_id : option string) (j : IngestionJob) : IngestionJob :=
  mk_ijob (ij_tenant_id j) (ij_workspace_id j) (ij_collection_id j) (ij_job_id j) document_id
    (ij_status j) (ij_stage j) (ij_progress j) (ij_attempt j) (ij_error_code j) (ij_safe_error_message j)
    (ij_created_at j) (ij_started_at j) (ij_finished_at j) (ij_cancel_requested j) (ij_heartbeats j) (ij_metadata j).
Definition with_cancel_requested (b : bool) (j : IngestionJob) : IngestionJob :=
  mk_ijob (ij_tenant_id j) (ij_workspace_id j) (ij_collection_id j) (ij_job_id j) (ij_document_id j)
    (ij_status j) (ij_stage j) (ij_progress j) (ij_attempt j) (ij_error_code j) (ij_safe_error_message j)
    (ij_created_at j) (ij_started_at j) (ij_finished_at j) b (ij_heartbeats j) (ij_metadata j).
(** [attempt], [created_at] and [started_at] of an authority. *)
Definition with_times (attempt : Z) (created : pyfloat) (started : option pyfloat) (j : IngestionJob) : IngestionJob :=
  mk_ijob (ij_tenant_id j) (ij_workspace_id j) (ij_collection_id j) (ij_job_id j) (ij_document_id j)
    (ij_status j) (ij_stage j) (ij_progress j) attempt (ij_error_code j) (ij_safe_error_message j)
    created started (ij_finished_at j) (ij_cancel_requested j) (ij_heartbeats j) (ij_metadata j).
Definition with_heartbeats (beats : list pyval) (j : IngestionJob) : IngestionJob :=
  mk_ijob (ij_tenant_id j) (ij_workspace_id j) (ij_collection_id j) (ij_job_id j) (ij_document_id j)
    (ij_status j) (ij_stage j) (ij_progress j) (ij_attempt j) (ij_error_code j) (ij_safe_error_message j)
    (ij_created_at j) (ij_started_at j) (ij_finished_at j) (ij_cancel_requested j) beats (ij_metadata j).
Definition with_progress (p : pyfloat) (j : IngestionJob) : IngestionJob :=
  mk_ijob (ij_tenant_id j) (ij_workspace_id j) (ij_collection_id j) (ij_job_id j) (ij_document_id j)
    (ij_status j) (ij_stage j) p (ij_attempt j) (ij_error_code j) (ij_safe_error_message j)
    (ij_created_at j) (ij_started_at j) (ij_finished_at j) (ij_cancel_requested j) (ij_heartbeats j) (ij_metadata j).
(** [for key, value in saved.items(): setattr(job, key, value)]. *)
Definition with_saved (s : Snapshot) (j : IngestionJob) : IngestionJob :=
  with_heartbeats (sn_heartbeats s) (with_metadata (fun _ => sn_metadata s)
    (with_finished_at (sn_finished_at s) (with_times (sn_attempt s) (sn_created_at s) (sn_started_at s) j))).

(** [_cancellation_cleanup_pending]. *)
Definition cancellation_cleanup_pending (j : IngestionJob) : IngestionJob :=
  set_meta "cancellation_cleanup_pending" (VBool true) (with_cancel_requested true (with_finished_at None (with_job_status "verifying" j))).

(** ** Guarded effects and their compensation (packages/ingestion, pipeline.py)

    The registry of jobs, cancellation, the checkpoint of a running job, the
    fence around every effect on a document, and the cleanup of what a failed
    attempt has written. *)

Definition MAX_POINT_SNAPSHOT : Z := 100000.
Definition MAX_POINT_SNAPSHOT_BYTES : Z := 64 * 1024 * 1024.

(** The pipeline's calls. *)
Definition IM (A : Type) : Type := M world exn A.
#[export] Instance IM_ret : MRet IM := M_ret.
#[export] Instance IM_bind : MBind IM := @M_bind world exn.

Definition when (b : bool) (m : IM unit) : IM unit := if b then m else mret tt.

(** [try: m except <the exceptions p holds of> as e: h e]. *)
Definition catching {A} (p : exn -> bool) (m : IM A) (h : exn -> IM A) : IM A :=
  try_except m (fun e => if p e then h e else raise e).

Section effects.
Context (d : adapters).

(** A call by this thread or another, with the recorded outcome. *)
Definition perform {A} (c : call A) : IM A := fun w => let r := answer d A c (w_trace w) in (push (Ev c r) w, r).

Definition job (a : addr) : IM IngestionJob := gets (job_at a).
Definition change (a : addr) (f : IngestionJob -> IngestionJob) : IM unit := modify (update_job a f).
Definition new_job (j : IngestionJob) : IM addr :=
  a ← gets (fun w => length (w_heap w));
  modify (fun w => set_heap (w_heap w ++ [j]) w);;
  mret a.

(** The clock is read once the transition is allowed. *)
Definition transition_now (a : addr) (to_status : string) (error_code message : option string) (progress : option pyfloat)
    : IM unit :=
  j ← job a;
  now ← gets (fun w => clock d (w_trace w));
  j' ← lift (match job_transition now to_status error_code message progress j with
             | Ok j' => Ok j'
             | Err InvalidTransitionError => Err InvalidTransition
             end);
  change a (fun _ => j').

Definition mark (a : addr) (key : string) : IM unit := change a (set_meta key (VBool true)).

(** ** Cancellation *)

Definition get_status (job_id : string) : IM (option addr) := gets (fun w => dict_get job_id (w_jobs w)).

Definition pending_has (job_id : string) (w : world) : bool := str_in job_id (w_pending w).

Definition cancel (job_id : string) : IM bool :=
  found ← get_status job_id;
  match found with
  | None => mret false
  | Some a =>
      j ← job a;
      if str_in (ij_status j) ["published"; "failed"; "cancelled"] then mret false
      else
        change a (with_cancel_requested true);;
        j ← job a;
        when (offers d "request_ingestion_cancel")
          (catching caught (perform (RequestIngestionCancel j)) (fun _ => mark a "cancellation_persistence_unavailable"));;
        waiting ← gets (pending_has job_id);
        if (waiting : bool) then
          j ← job a;
          when (offers d "request_publication_cancel")
            (catching caught (perform (RequestPublicationCancel j)) (fun _ => mark a "cancellation_persistence_unavailable"));;
          mret true
        else
          transition_now a "cancelled" None (Some "Cancelled by operator.") None;;
          mark a "cancellation_notification_attempted";;
          catching (fun e => match e with CancelledError => true | _ => false end)
            (perform (Emit "ingestion.cancelled" [("job_id", VStr job_id)]))
            (fun _ => mark a "cancellation_notification_cancelled");;
          mret true
  end.

(** Another thread may run [cancel] here unless this one holds the lock. *)
Definition interleave : IM unit := fun w =>
  match w_locked w, cancels d (w_trace w) with
  | O, Some job_id => (exec (cancel job_id) w, Ok tt)
  | _, _ => (w, Ok tt)
  end.

Definition call_out {A} (c : call A) : IM A := interleave;; perform c.

Definition transition (a : addr) (to_status : string) (error_code message : option string) (progress : option pyfloat)
    : IM unit :=
  interleave;; transition_now a to_status error_code message progress.

(** ** Context managers *)

(** [with self._lock: body]. *)
Definition with_lock {A} (body : IM A) : IM A :=
  interleave;;
  modify (fun w => set_locked (S (w_locked w)) w);;
  r ← attempt body;
  modify (fun w => set_locked (Nat.pred (w_locked w)) w);;
  lift r.

(** [with <guard g>: body]; an exception of the exit replaces the body's. *)
Definition with_guard {A} (g : guard) (body : IM A) : IM A :=
  call_out (Enter g);;
  r ← attempt body;
  call_out (Exit g);;
  lift r.

(** [with ExitStack() as guards: ...] over several documents. *)
Fixpoint with_documents {A} (ids : list string) (body : IM A) : IM A :=
  match ids with
  | [] => body
  | i :: ids' => with_guard (GDocument i) (with_documents ids' body)
  end.

(** ** Scoped calls *)

(** [_scoped_call]: the scope is passed when the method takes it. *)
Definition scope_of (method tenant_id workspace_id : string) : scope :=
  if scoped d method then Some (tenant_id, workspace_id) else None.

Definition get_document (document_id tenant_id workspace_id : string) : IM (option Document) :=
  call_out (GetDocument document_id (scope_of "get_document" tenant_id workspace_id)).
Definition get_chunks (document_id tenant_id workspace_id : string) : IM (list Chunk) :=
  call_out (GetChunks document_id (scope_of "get_chunks" tenant_id workspace_id)).
Definition set_document_status (document_id status tenant_id workspace_id : string) : IM unit :=
  call_out (SetStatus document_id status (scope_of "set_document_status" tenant_id workspace_id)).
Definition replace_document_chunks (document_id : string) (chunks : list Chunk) (tenant_id workspace_id : string) : IM unit :=
  call_out (ReplaceChunks document_id chunks (scope_of "replace_document_chunks" tenant_id workspace_id)).
Definition delete_row (document_id tenant_id workspace_id : string) : IM unit :=
  call_out (DeleteRow document_id (scope_of "delete_document" tenant_id workspace_id)).
Definition delete_vectors (document_id collection_id tenant_id workspace_id : string) : IM unit :=
  call_out (DeleteVectors document_id collection_id (scope_of "vectors.delete_document" tenant_id workspace_id)).
Definition count_vectors (document_id collection_id tenant_id workspace_id : string) : IM pyval :=
  call_out (CountVectors document_id collection_id (scope_of "vectors.count_for_document" tenant_id workspace_id)).

(** ** The registry *)

Definition is_terminal_job (w : world) (entry : string * addr) : bool :=
  str_in (ij_status (job_at (snd entry) w)) ["published"; "failed"; "cancelled"].

(** The order of [(created_at, job_id)]. *)
Definition older (w : world) (x y : string * addr) : bool :=
  let a := ij_created_at (job_at (snd x) w) in
  let b := ij_created_at (job_at (snd y) w) in
  if feq a b then str_leb (fst x) (fst y) else flt a b.

Fixpoint evict (limit : Z) (terminal : list (string * addr)) (jobs : list (string * addr)) : list (string * addr) :=
  match terminal with
  | [] => jobs
  | (job_id, _) :: terminal' =>
      if limit <=? Z.of_nat (length jobs) then evict limit terminal' (dict_del job_id jobs) else jobs
  end.

Definition _evict_jobs : IM unit := modify (fun w =>
  set_jobs (evict (max_jobs d) (sort_by (older w) (List.filter (is_terminal_job w) (w_jobs w))) (w_jobs w)) w).

Definition _register_job (a : addr) : IM unit :=
  _evict_jobs;;
  n ← gets (fun w => Z.of_nat (length (w_jobs w)));
  guard_not (max_jobs d <=? n) RuntimeError;;
  j ← job a;
  modify (fun w => set_jobs (dict_set (ij_job_id j) a (w_jobs w)) w).

(** ** The checkpoint of a running job *)

(** [_checkpoint]; the pair says whether the caller gave a lease check and a
    cancellation check. *)
Definition _checkpoint (a : addr) (callbacks : bool * bool) : IM unit :=
  lost ← (if fst callbacks then call_out LeaseLost else mret false);
  guard_not lost ExecutionOwnershipLost;;
  when (offers d "get_ingestion_checkpoint")
    (j ← job a;
     checkpoint ← call_out (GetCheckpoint (job_key j));
     match checkpoint with
     | None => mret tt
     | Some c =>
         j ← job a;
         attempt_id ← lift_k (job_attempt j);
         guard_not (negb (is_str attempt_id (ck_attempt_id c))) OwnershipLost;;
         change a (fun j => with_cancel_requested (ij_cancel_requested j || ck_cancel_requested c) j)
     end);;
  interleave;;
  j ← job a;
  guard_not (str_eqb (ij_status j) "cancelled" || ij_cancel_requested j) CancellationRequested;;
  stop ← (if snd callbacks then call_out CancelCheck else mret false);
  if (stop : bool) then
    j ← job a;
    when (negb (str_in (ij_status j) ["published"; "failed"; "cancelled"])) (cancel (ij_job_id j);; mret tt);;
    raise CancellationRequested
  else mret tt.

(** ** The effect fence *)

Definition require_effect_owner (allow_tombstone : bool) (attempt_id : string) (document : option Document) : res exn unit :=
  match document with
  | Some doc =>
      if allow_tombstone && str_eqb (d_status doc) "deleted" && is_str (attempt_of doc) attempt_id then Ok tt
      else match require_owner (Some doc) attempt_id with Ok u => Ok u | Err e => Err (of_k e) end
  | None => Err OwnershipLost
  end.

Definition in_collection (expected : option string) (document : option Document) : res exn unit :=
  match expected, document with
  | Some c, Some doc => raise_if (negb (str_eqb (d_collection_id doc) c)) OwnershipLost
  | _, _ => Ok tt
  end.

Definition active_collection (c : option Collection) : bool :=
  match c with Some c => str_eqb (co_status c) "active" | None => false end.

Definition archived_error : exn := ParseError "validation_error" "Collection is archived.".

(** [_effect_guard] around [body]; [owner] is the job with its callbacks. *)
Definition effect_guard {A} (document_id attempt_id tenant_id workspace_id : string) (owner : option (addr * (bool * bool)))
    (collection_id : option string) (allow_tombstone : bool) (body : IM A) : IM A :=
  expected ← (match owner with
              | Some (a, _) => j ← job a; mret (Some (ij_collection_id j))
              | None => mret collection_id
              end);
  with_guard (GDocument document_id)
    (document ← get_document document_id tenant_id workspace_id;
     lift (require_effect_owner allow_tombstone attempt_id document);;
     lift (in_collection expected document);;
     match owner, document with
     | Some (a, callbacks), Some doc =>
         _checkpoint a callbacks;;
         collection ← call_out (GetCollection tenant_id workspace_id (d_collection_id doc));
         guard_not (negb (active_collection collection)) archived_error
     | _, _ => mret tt
     end;;
     r ← body;
     document ← get_document document_id tenant_id workspace_id;
     lift (require_effect_owner allow_tombstone attempt_id document);;
     lift (in_collection expected document);;
     mret r).

(** ** Compensation of a failed attempt *)

(** [except OwnershipLostError: raise], [except (Exception, CancelledError): pass]. *)
Definition best_effort (m : IM unit) : IM unit :=
  catching (fun e => caught e && negb (is_ownership e)) m (fun _ => mret tt).

Definition is_zero (v : pyval) : bool := match v with VInt n => n =? 0 | _ => false end.

Definition _vectors_confirmed_empty (document_id collection_id tenant_id workspace_id : string) : IM bool :=
  catching caught
    (remaining ← count_vectors document_id collection_id tenant_id workspace_id; mret (is_zero remaining))
    (fun _ => mret false).

(** The failed state of a document; [false] when the adapter cannot write it. *)
Definition mark_failed (document_id collection_id tenant_id workspace_id attempt_id : string) : IM bool :=
  if offers d "set_document_status" then
    catching (fun e => caught e && negb (is_ownership e))
      (when (offers d "replace_document_chunks")
         (effect_guard document_id attempt_id tenant_id workspace_id None (Some collection_id) false
            (replace_document_chunks document_id [] tenant_id workspace_id));;
       effect_guard document_id attempt_id tenant_id workspace_id None (Some collection_id) false
         (set_document_status document_id "failed" tenant_id workspace_id);;
       mret true)
      (fun _ => mret false)
  else mret false.

Definition _cleanup_owned_document (document_id collection_id tenant_id workspace_id attempt_id : string)
    (confirm_vectors : bool) : IM bool :=
  modify (set_vectors_clean false);;
  best_effort
    (effect_guard document_id attempt_id tenant_id workspace_id None (Some collection_id) true
       (delete_vectors document_id collection_id tenant_id workspace_id;; modify (set_vectors_clean true)));;
  when confirm_vectors
    (modify (set_vectors_clean false);;
     best_effort
       (effect_guard document_id attempt_id tenant_id workspace_id None (Some collection_id) true
          (remaining ← count_vectors document_id collection_id tenant_id workspace_id;
           modify (set_vectors_clean (is_zero remaining)))));;
  clean ← gets (fun w => l_vectors_clean (w_locals w));
  document ← get_document document_id tenant_id workspace_id;
  if match document with Some doc => str_eqb (d_status doc) "deleted" | None => false end then mret clean
  else
    failed ← mark_failed document_id collection_id tenant_id workspace_id attempt_id;
    if (failed : bool) then mret clean
    else
      when (clean && offers d "delete_document")
        (best_effort
           (effect_guard document_id attempt_id tenant_id workspace_id None (Some collection_id) false
              (delete_row document_id tenant_id workspace_id)));;
      mret false.

Definition _cleanup_failed_document (document_id : option string) (collection_id : string) (document_written : bool)
    (tenant_id workspace_id attempt_id : string) (confirm_vectors : bool) : IM bool :=
  match document_id with
  | None => mret true
  | Some document_id =>
      if is_empty document_id || negb document_written then mret true
      else
        try_except
          (effect_guard document_id attempt_id tenant_id workspace_id None (Some collection_id) true
             (_cleanup_owned_document document_id collection_id tenant_id workspace_id attempt_id confirm_vectors))
          (fun e =>
             if is_ownership e then
               if confirm_vectors then
                 catching caught
                   (empty ← with_guard (GDocument document_id)
                              (document ← get_document document_id tenant_id workspace_id;
                               match document with
                               | None => r ← _vectors_confirmed_empty document_id collection_id tenant_id workspace_id;
                                         mret (Some r)
                               | Some _ => mret None
                               end);
                    mret (from_option id true empty))
                   (fun _ => mret false)
               else mret true
             else if caught e then
               catching caught
                 (call_out (Emit "ingestion.compensation.pending"
                              [("document_id", VStr document_id); ("error_code", VStr "storage_unavailable")]))
                 (fun _ => mret tt);;
               mret false
             else raise e)
  end.
End effects.
