(* ===== verification/IngestRetire.v ===== *)
(** * Points, snapshots and the retirement of a previous version

    The points a chunk is stored as, the snapshot of the vectors and of the catalog that a
    rollback uses, the embedding loop, and the retirement of the previously published version. *)

From Stdlib Require Import Ascii String.
From stdpp Require Import strings list.
From S2P Require Import Prelude PyFloat PyStr PyVal Json CanonicalJson Sha256 IngestionJobs StateError.
From S2P Require Import KnowledgeModels Publication Identity Chunking IngestPorts.

Local Open Scope string_scope.
Local Open Scope Z_scope.
Local Open Scope list_scope.

(** ** Points and vectors of the pipeline (packages/ingestion, pipeline.py; packages/knowledge, payload.py)

    The payload of a chunk, the manifest that binds a set of points, the
    snapshot taken before a compensation, and the validation of embeddings. *)

(** ** Payloads (payload.py) *)

Definition LINEAGE_PAYLOAD_FIELDS : list string :=
  ["document_id"; "document_version"; "ingestion_version"; "parser_version"; "chunker_version"; "embedding_model";
   "embedding_version"; "index_version"; "checksum"; "object_ref"; "created_at"; "published_at"].

Definition REQUIRED_PAYLOAD_FIELDS : list string :=
  ["schema_version"; "tenant_id"; "workspace_id"; "collection_id"; "document_id"; "document_version"; "ingestion_version";
   "chunk_id"; "parent_chunk_id"; "chunk_index"; "text"; "source"; "title"; "page_start"; "page_end"; "section"; "checksum";
   "object_ref"; "created_at"; "published_at"; "parser_version"; "chunker_version"; "embedding_model"; "embedding_version";
   "index_version"; "metadata"].

Definition opt_int (n : option Z) : pyval := match n with Some n => VInt n | None => VNone end.
Definition opt_text (s : option string) : pyval := match s with Some s => VStr s | None => VNone end.

Definition payload_items (tenant : string) (c : Chunk) (doc : Document) : list (string * pyval) :=
  [("schema_version", VStr "rag-contract-v1"); ("tenant_id", VStr tenant); ("workspace_id", VStr (d_workspace_id doc));
   ("collection_id", VStr (d_collection_id doc)); ("document_id", VStr (d_document_id doc));
   ("document_version", VStr (d_document_version doc)); ("ingestion_version", VStr (d_ingestion_version doc));
   ("chunk_id", VStr (ch_chunk_id c)); ("parent_chunk_id", opt_text (ch_parent_chunk_id c));
   ("chunk_index", VInt (ch_chunk_index c)); ("text", VStr (ch_text c));
   ("source", VStr (str_or (d_display_filename doc) (d_filename doc)));
   ("title", VStr (str_or (str_or (d_title doc) (d_display_filename doc)) (d_filename doc)));
   ("page_start", opt_int (ch_page_start c)); ("page_end", opt_int (ch_page_end c)); ("section", opt_text (ch_section c));
   ("checksum", VStr (str_or (ch_checksum c) (d_content_checksum doc))); ("object_ref", VStr (d_object_ref doc));
   ("created_at", opt_text (d_created_at doc)); ("published_at", opt_text (d_published_at doc));
   ("parser_version", VStr (str_or (ch_parser_version c) (d_parser_version doc)));
   ("chunker_version", VStr (str_or (ch_chunker_version c) (d_chunker_version doc)));
   ("embedding_model", VStr (d_embedding_model doc));
   ("embedding_version", VStr (str_or (ch_embedding_version c) (d_embedding_version doc)));
   ("index_version", VStr (ch_index_version c)); ("metadata", VDict (ch_metadata c));
   ("document_filename", VStr (str_or (d_display_filename doc) (d_filename doc)));
   ("qdrant_collection", VStr (d_collection_id doc)); ("object_key", VStr (d_object_ref doc))].

(** The document gets its lineage in place, so it is given back with the
    payload. *)
Definition build_point_payload (now : stamps) (c : Chunk) (doc : Document) : res exn (list (string * pyval) * Document) :=
  match normalize_tenant_id (d_tenant_id doc), normalize_tenant_id (ch_tenant_id c) with
  | Some document_tenant, Some chunk_tenant =>
      raise_if (negb (str_eqb document_tenant chunk_tenant)) ValueError';;
      match materialize_lineage now (str_eqb (d_status doc) "published") doc with
      | (doc', Ok _) => Ok (payload_items document_tenant c doc', doc')
      | (_, Err e) => Err (of_k e)
      end
  | _, _ => Err ValueError'
  end.

Definition validate_payload (payload : pyval) : list string :=
  match payload with
  | VDict items =>
      match List.filter (fun f => match dict_get f items with Some _ => false | None => true end) REQUIRED_PAYLOAD_FIELDS with
      | [] =>
          List.filter (fun f => match dict_read f items with VStr s => negb (nonblank s) | _ => true end)
            ["tenant_id"; "workspace_id"; "collection_id"; "document_id"; "document_version"; "ingestion_version"; "chunk_id";
             "object_ref"; "created_at"]
          ++ match dict_read "published_at" items with
             | VNone => []
             | VStr s => if nonblank s then [] else ["published_at"]
             | _ => ["published_at"]
             end
      | missing => missing
      end
  | _ => REQUIRED_PAYLOAD_FIELDS
  end.

(** ** The manifest *)

(** A double rounded to binary32; [None] is [OverflowError]. *)
Definition round_single (m : Z) : option Z :=
  let q := Z.max 925 (Z.log2 (Z.abs m) - 23) in
  let r := round_half_even (Z.abs m) (2 ^ q) * 2 ^ q in
  if r <? 2 ^ 1202 then Some (Z.sgn m * r) else None.

(** [struct.unpack("!f", struct.pack("!f", v))[0]] of a finite real. *)
Definition binary32_value (v : pyval) : res exn pyval :=
  let single m := match round_single m with Some r => Ok (VFloat (Fin r)) | None => Err RuntimeError end in
  match v with
  | VInt n => match to_float (n * scale) 1 with Fin m => single m | _ => Err RuntimeError end
  | VFloat (Fin m) => single m
  | _ => Err ValueError'
  end.

Definition binary32 (values : pyval) : res exn pyval :=
  match values with VList l => l' ← res_mapM binary32_value l; Ok (VList l') | _ => Err ValueError' end.

(** [mapping[key]]. *)
Definition subscript (key : string) (v : pyval) : res exn pyval :=
  match v with
  | VDict items => match dict_get key items with Some x => Ok x | None => Err RuntimeError end
  | _ => Err TypeError
  end.

(** [list(v)] of a list. *)
Definition as_list (v : pyval) : res exn pyval := match v with VList l => Ok (VList l) | _ => Err TypeError end.

(** What a manifest says of one point; its identity is a string. *)
Definition point_fact (p : pyval) : res exn (string * pyval) :=
  point_id ← subscript "point_id" p;
  payload ← subscript "payload" p;
  vector ← subscript "vector" p;
  vector ← binary32 vector;
  sparse ← match p with
           | VDict items =>
               match dict_get "sparse_vector" items with
               | Some s =>
                   indices ← subscript "indices" s; indices ← as_list indices;
                   values ← subscript "values" s; values ← binary32 values;
                   Ok [("sparse_vector", VDict [("indices", indices); ("values", values)])]
               | None => Ok []
               end
           | _ => Ok []
           end;
  match point_id with
  | VStr i => Ok (i, VDict ([("point_id", VStr i); ("payload", payload); ("vector", vector)] ++ sparse))
  | _ => Err TypeError
  end.

Definition fact_leb (a b : string * pyval) : bool := str_leb (fst a) (fst b).

Definition _point_manifest (points : list pyval) : res exn string :=
  facts ← res_mapM point_fact points;
  raise_if ((MAX_POINT_SNAPSHOT <? Z.of_nat (length facts)) || negb (bool_decide (NoDup (map fst facts)))) ValueError';;
  match json_utf8 (VList (map snd (sort_by fact_leb facts))) with
  | Some encoded =>
      raise_if (MAX_POINT_SNAPSHOT_BYTES <? utf8_len encoded) ValueError';;
      Ok (hexdigest (utf8 encoded))
  | None => Err ValueError'
  end.

(** ** The compensation snapshot *)

Definition in_scope (document_id collection_id tenant_id workspace_id : string) (payload : list (string * pyval)) : bool :=
  is_str (dict_read "document_id" payload) document_id && is_str (dict_read "collection_id" payload) collection_id
  && is_str (dict_read "tenant_id" payload) tenant_id && is_str (dict_read "workspace_id" payload) workspace_id.

(** The points of the scope, within the limits. *)
Fixpoint snapshot_from (wanted : list (string * pyval) -> bool) (index total : Z) (points : list pyval) : res exn (list pyval) :=
  match points with
  | [] => Ok []
  | p :: points' =>
      if index =? MAX_POINT_SNAPSHOT then Err RuntimeError
      else
        match match p with VDict items => dict_get "payload" items | _ => None end with
        | Some (VDict payload) =>
            if wanted payload then
              match json_utf8 p with
              | None => Err RuntimeError
              | Some encoded =>
                  raise_if (MAX_POINT_SNAPSHOT_BYTES <? total + utf8_len encoded) RuntimeError;;
                  rest ← snapshot_from wanted (index + 1) (total + utf8_len encoded) points';
                  Ok (p :: rest)
              end
            else snapshot_from wanted (index + 1) total points'
        | _ => snapshot_from wanted (index + 1) total points'
        end
  end.

Section snapshot.
Context (d : adapters).

(** [except Exception: raise RuntimeError(...) from None]. *)
Definition unavailable {A} (m : IM A) : IM A := catching is_exception m (fun _ => raise RuntimeError).

Definition _snapshot_points (document_id collection_id tenant_id workspace_id : string) : IM (list pyval) :=
  points ← (if offers d "snapshot_document" then
              unavailable (call_out d (SnapshotDocument document_id collection_id tenant_id workspace_id))
            else if offers d "all_points" then
              unavailable (catching (fun e => match e with TypeError => true | _ => false end)
                (call_out d (AllPoints true)) (fun _ => call_out d (AllPoints false)))
            else raise RuntimeError);
  lift (snapshot_from (in_scope document_id collection_id tenant_id workspace_id) 0 0 points).
End snapshot.

(** ** Embeddings *)

Definition MAX_EMBEDDING_BATCH : Z := 256.

Definition _TYPED_PROVIDER_ERROR_CODES : list string :=
  ["timeout"; "unavailable"; "rate_limit"; "server_error"; "malformed_response"; "missing_field"; "invalid_json";
   "invalid_model"; "embedding_dimension_mismatch"; "model_not_found"; "http_error"; "invalid_configuration"; "cancelled";
   "internal_error"].
Definition _PROVIDER_RETRYABLE_CODES : list string := ["timeout"; "unavailable"; "rate_limit"; "server_error"].

(** A finite real; an integer too large for a float raises. *)
Definition finite_real (v : pyval) : res exn bool :=
  match v with
  | VInt n => match to_float (n * scale) 1 with Fin _ => Ok true | _ => Err RuntimeError end
  | VFloat f => Ok (fisfinite f)
  | _ => Ok false
  end.

(** [all(...)] of a test that may raise. *)
Fixpoint res_forall {A} (p : A -> res exn bool) (l : list A) : res exn bool :=
  match l with
  | [] => Ok true
  | x :: l' => b ← p x; if (b : bool) then res_forall p l' else Ok false
  end.

Definition _embedding_is_valid (embedding : pyval) (dimensions : Z) : res exn bool :=
  match embedding with
  | VList values => if Z.of_nat (length values) =? dimensions then res_forall finite_real values else Ok false
  | _ => Ok false
  end.

Definition _validate_embeddings (vectors : pyval) (expected_count : Z) (dimensions : pyval) : res exn (list pyval) :=
  match vectors with
  | VList l =>
      raise_if (negb (Z.of_nat (length l) =? expected_count)) ValueError';;
      match dimensions with
      | VInt n =>
          raise_if (n <=? 0) ValueError';;
          valid ← res_forall (fun v => _embedding_is_valid v n) l;
          raise_if (negb valid) ValueError';;
          Ok l
      | _ => Err ValueError'
      end
  | _ => Err ValueError'
  end.

Definition _embedding_batch_failure (e : exn) : exn :=
  match exn_code e with
  | Some code =>
      if str_in code _TYPED_PROVIDER_ERROR_CODES then
        EmbeddingBatchError
          (if str_in code _PROVIDER_RETRYABLE_CODES || match e with Raised _ _ retryable => retryable | _ => false end
           then "provider_timeout" else "validation_error") "Embedding batch rejected by provider."
      else match e with
           | Raised true _ _ => EmbeddingBatchError "validation_error" "Embedding batch is invalid."
           | _ => EmbeddingBatchError "provider_unavailable" "Embedding provider failed during a bounded batch."
           end
  | None =>
      match e with
      | Raised true _ _ => EmbeddingBatchError "validation_error" "Embedding batch is invalid."
      | _ => EmbeddingBatchError "provider_unavailable" "Embedding provider failed during a bounded batch."
      end
  end.

(** The fingerprint and the artifacts of the checkpoint in progress. *)
Definition phase : Type := option (pyval * list (string * pyval)).

(** The vectors a checkpoint already holds. *)
Definition resumed_vectors (ph : phase) (dimensions : pyval) : res exn (list pyval) :=
  match ph with
  | None => Ok []
  | Some (_, artifacts) =>
      match dict_get "vectors" artifacts with
      | None => Ok []
      | Some (VList l) => if bool_decide (length l = 0%nat) then Ok [] else _validate_embeddings (VList l) (Z.of_nat (length l)) dimensions
      | Some v => if py_truthy v then Err ValueError' else Err TypeError
      end
  end.

Section embed.
Context (d : adapters).

Definition save_checkpoint (a : addr) (fingerprint : pyval) (artifacts : list (string * pyval)) : IM Checkpoint :=
  j ← job a;
  saved ← call_out d (SaveCheckpoint j fingerprint artifacts);
  change a (fun j => with_cancel_requested (ij_cancel_requested j || fst saved) j);;
  mret (snd saved).

(** One batch: nothing of it is kept unless all of it is valid. *)
Definition embed_batch (batch : list string) : IM (list pyval) :=
  catching (fun e => is_exception e && negb (is_cancellation e))
    (response ← call_out d (Embed batch);
     lift (_validate_embeddings response (Z.of_nat (length batch)) (embedding_dimensions d)))
    (fun e => raise (_embedding_batch_failure e)).

(** The batches from the next offset on; [fuel] bounds their number. *)
Fixpoint embed_from (fuel : nat) (a : addr) (callbacks : bool * bool) (ph : phase) (texts : list string)
    (vectors : list pyval) : IM (list pyval * phase) :=
  match fuel, texts with
  | S fuel', _ :: _ =>
      _checkpoint d a callbacks;;
      let batch := take (Z.to_nat MAX_EMBEDDING_BATCH) texts in
      validated ← embed_batch batch;
      let vectors := vectors ++ validated in
      ph ← (match ph with
            | Some (fingerprint, artifacts) =>
                let artifacts := dict_set "vectors" (VList vectors) artifacts in
                save_checkpoint a fingerprint artifacts;;
                _checkpoint d a callbacks;;
                mret (Some (fingerprint, artifacts))
            | None => mret None
            end);
      embed_from fuel' a callbacks ph (drop (Z.to_nat MAX_EMBEDDING_BATCH) texts) vectors
  | _, _ => mret (vectors, ph)
  end.

Definition _embed_in_batches (a : addr) (callbacks : bool * bool) (ph : phase) (plans : list ChunkPlan)
    : IM (list pyval * phase) :=
  let texts := map cp_text plans in
  vectors ← lift (resumed_vectors ph (embedding_dimensions d));
  guard_not ((length texts <? length vectors)%nat
             || (negb (length vectors =? length texts)%nat
                 && negb (Z.of_nat (length vectors) mod MAX_EMBEDDING_BATCH =? 0))) OwnershipLost;;
  embed_from (length texts) a callbacks ph (drop (length vectors) texts) vectors.
End embed.

(** ** Retiring a replaced document version (packages/ingestion, pipeline.py)

    After a new version is published, the old one is hidden and its vectors are
    deleted.  A complete snapshot of its points is taken first; when the
    retirement fails, the points are restored and checked, or the old version
    stays hidden. *)

(** Consecutive slices of [n] items; [fuel] bounds their number. *)
Fixpoint slices {A} (fuel : nat) (n : nat) (l : list A) : list (list A) :=
  match fuel, l with
  | S fuel', _ :: _ => take n l :: slices fuel' n (drop n l)
  | _, _ => []
  end.

(** A raised error that is not modelled further. *)
Definition or_raise {A} (e : exn) (o : option A) : IM A := match o with Some a => mret a | None => raise e end.

(** The point identities and payloads of the chunks of a document. *)
Fixpoint expected_payloads (now : stamps) (doc : Document) (chunks : list Chunk)
    (acc : list (string * list (string * pyval))) : res exn (list (string * list (string * pyval))) :=
  match chunks with
  | [] => Ok acc
  | c :: chunks' =>
      built ← build_point_payload now c doc;
      expected_payloads now (snd built) chunks' (dict_set (point_id_for_chunk (ch_chunk_id c)) (fst built) acc)
  end.

Definition source_fields : list string :=
  ["chunk_id"; "document_version"; "ingestion_version"; "checksum"; "object_ref"; "source"; "text"; "parser_version";
   "chunker_version"; "embedding_model"; "embedding_version"].

(** [point["point_id"]] as an element of a set. *)
Definition hashable_id (p : pyval) : res exn pyval :=
  i ← subscript "point_id" p;
  match i with VList _ | VDict _ => Err TypeError | _ => Ok i end.

Definition distinct_count (ids : list pyval) : nat :=
  length (fold_left (fun seen i => if existsb (py_eqb i) seen then seen else i :: seen) ids []).

(** The point is expected, with the same source facts. *)
Definition source_matches (expected : list (string * list (string * pyval))) (p : pyval) : bool :=
  match p with
  | VDict items =>
      match dict_read "point_id" items, dict_read "payload" items with
      | VStr i, VDict payload =>
          match dict_get i expected with
          | Some wanted => forallb (fun k => py_eqb (dict_read k payload) (dict_read k wanted)) source_fields
          | None => false
          end
      | _, _ => false
      end
  | _ => false
  end.

Definition same_source (expected : list (string * list (string * pyval))) (old_count : Z) (old_points : list pyval)
    : res exn bool :=
  if negb (Z.of_nat (length expected) =? old_count) then Ok false
  else
    ids ← res_mapM hashable_id old_points;
    Ok ((Z.of_nat (distinct_count ids) =? old_count) && forallb (source_matches expected) old_points).

Section retire.
Context (d : adapters).

(** ** Restoring the old points *)

Definition restore_batch (batch_size total restored : Z) (batch : list pyval) : IM Z :=
  let n := Z.of_nat (length batch) in
  guard_not ((n =? 0) || (batch_size <? n) || (total <? restored + n)) RuntimeError;;
  written ← call_out d (UpsertPoints batch);
  guard_not (negb (py_eqb written (VInt n))) RuntimeError;;
  mret (restored + n).

Fixpoint restore_batches (batch_size total restored : Z) (batches : list (list pyval)) : IM Z :=
  match batches with
  | [] => mret restored
  | batch :: batches' =>
      restored ← restore_batch batch_size total restored batch;
      restore_batches batch_size total restored batches'
  end.

Definition restore_points (old_document_id collection_id : string) (old_points : list pyval) (tenant_id workspace_id : string)
    : IM bool :=
  let total := Z.of_nat (length old_points) in
  let batch_size := match max_points d with Some n => if 0 <? n then Z.min 1000 n else 1000 | None => 1000 end in
  batches ← (if offers d "plan_upsert_batches" then call_out d (PlanBatches old_points)
             else mret (slices (length old_points) (Z.to_nat batch_size) old_points));
  restored_points ← restore_batches batch_size total 0 batches;
  guard_not (negb (restored_points =? total)) RuntimeError;;
  count ← count_vectors d old_document_id collection_id tenant_id workspace_id;
  mret (py_eqb count (VInt total)).

Definition _rollback_replacement (a : addr) (old_document_id collection_id : string) (old_points : list pyval)
    (tenant_id workspace_id : string) (retirement_started : bool) : IM unit :=
  restored ← (if retirement_started && negb (bool_decide (length old_points = 0%nat)) then
                catching caught (restore_points old_document_id collection_id old_points tenant_id workspace_id)
                  (fun _ => mret false)
              else mret (negb retirement_started));
  restored ← catching caught
    (set_document_status d old_document_id (if restored : bool then "published" else "unpublished") tenant_id workspace_id;;
     mret restored)
    (fun _ =>
       catching caught (set_document_status d old_document_id "unpublished" tenant_id workspace_id) (fun _ => mret tt);;
       mret false);
  mark a "retirement_pending";;
  change a (set_meta "retirement_deferred" (VStr "storage_unavailable"));;
  mark a "retirement_error_after_commit";;
  change a (set_meta "previous_document_id" (VStr old_document_id));;
  change a (set_meta "previous_publication_restored" (VBool restored)).

(** ** Retirement *)

Definition same_version (saved current : Document) : bool :=
  str_eqb (d_tenant_id current) (d_tenant_id saved) && str_eqb (d_workspace_id current) (d_workspace_id saved)
  && str_eqb (d_collection_id current) (d_collection_id saved)
  && str_eqb (d_content_checksum current) (d_content_checksum saved)
  && str_eqb (d_document_version current) (d_document_version saved)
  && str_eqb (d_object_ref current) (d_object_ref saved) && str_eqb (d_filename current) (d_filename saved)
  && py_eqb (attempt_of current) (attempt_of saved).

Definition version_owned (a : addr) (tenant_id workspace_id : string) (saved : Document) : IM bool :=
  current ← get_document d (d_document_id saved) tenant_id workspace_id;
  j ← job a;
  mret match current with
       | None => false
       | Some cur =>
           str_in (d_status cur) ["published"; "unpublished"]
           && negb (opt_str_eqb (Some (d_document_id saved)) (ij_document_id j) && negb (str_eqb (d_status cur) "published"))
           && same_version saved cur
       end.

Definition still_owned (a : addr) (tenant_id workspace_id : string) (owners : option (Document * Document)) : IM bool :=
  match owners with
  | None => mret true
  | Some (old, new) =>
      first ← version_owned a tenant_id workspace_id old;
      if (first : bool) then version_owned a tenant_id workspace_id new else mret false
  end.

Definition note_incomplete (b : bool) : IM unit :=
  modify (fun w => let '(points, started, _) := l_retirement (w_locals w) in set_retirement (points, started, b) w).
Definition note_points (points : list pyval) : IM unit :=
  modify (fun w => let '(_, started, incomplete) := l_retirement (w_locals w) in set_retirement (points, started, incomplete) w).
Definition note_started : IM unit :=
  modify (fun w => let '(points, _, incomplete) := l_retirement (w_locals w) in set_retirement (points, true, incomplete) w).

(** A snapshot the old version can be restored from. *)
Definition saved_points (document_id collection_id tenant_id workspace_id : string) (owners : option (Document * Document))
    : IM unit :=
  let owned := match owners with Some _ => true | None => false end in
  old_count ← count_vectors d document_id collection_id tenant_id workspace_id;
  old_count ← (match old_count with
               | VInt n => if n <=? 0 then note_incomplete (owned && (n =? 0));; raise RuntimeError else mret n
               | _ => raise RuntimeError
               end);
  old_points ← _snapshot_points d document_id collection_id tenant_id workspace_id;
  note_points old_points;;
  when (negb (Z.of_nat (length old_points) =? old_count)) (note_incomplete owned;; raise RuntimeError);;
  match owners with
  | None => mret tt
  | Some (old, _) =>
      chunks ← get_chunks d document_id tenant_id workspace_id;
      now ← gets (fun w => utc d (w_trace w));
      expected ← lift (expected_payloads now old chunks []);
      same ← lift (same_source expected old_count old_points);
      when (negb same) (note_incomplete true;; raise RuntimeError)
  end.

Definition retire_version (document_id collection_id tenant_id workspace_id : string) (owners : option (Document * Document))
    : IM unit :=
  collection_id ← or_raise ValueError' (normalize_collection_id collection_id);
  saved_points document_id collection_id tenant_id workspace_id owners;;
  note_started;;
  delete_vectors d document_id collection_id tenant_id workspace_id;;
  set_document_status d document_id "unpublished" tenant_id workspace_id.

Definition _retire_replacement (a : addr) (document_id tenant_id workspace_id collection_id : string)
    (owners : option (Document * Document)) : IM unit :=
  j ← job a;
  when (str_eqb (ij_status j) "published")
    (modify (set_retirement ([], false, false));;
     outcome ← attempt (retire_version document_id collection_id tenant_id workspace_id owners);
     match outcome with
     | Ok _ => change a (set_meta "retirement_pending" (VBool false))
     | Err e =>
         if caught e then
           owned ← still_owned a tenant_id workspace_id owners;
           if negb owned then
             change a (set_meta "retirement_pending" (VBool false));;
             mark a "retirement_superseded"
           else
             progress ← gets (fun w => l_retirement (w_locals w));
             let '(old_points, started, incomplete) := progress in
             collection_id ← or_raise ValueError' (normalize_collection_id collection_id);
             _rollback_replacement a document_id collection_id (if incomplete : bool then [] else old_points)
               tenant_id workspace_id (incomplete || started)
         else raise e
     end).

(** ** Retirement owned by a committed receipt *)

Definition recovery_superseded (j : IngestionJob) (attempt : pyval) (new old : option Document) : bool :=
  match new, old with
  | Some new, Some old =>
      negb (str_eqb (d_status new) "published") || negb (str_eqb (d_collection_id new) (ij_collection_id j))
      || negb (str_eqb (d_tenant_id new) (ij_tenant_id j) && str_eqb (d_workspace_id new) (ij_workspace_id j))
      || negb (py_eqb (attempt_of new) attempt)
      || negb (str_eqb (d_collection_id old) (ij_collection_id j))
      || negb (str_eqb (d_tenant_id old) (ij_tenant_id j) && str_eqb (d_workspace_id old) (ij_workspace_id j))
      || negb (py_eqb (attempt_of old) (meta "previous_document_attempt" j))
  | _, _ => true
  end.

Definition retire_recovered (a : addr) (old_id new_id : string) : IM unit :=
  j ← job a;
  new ← get_document d new_id (ij_tenant_id j) (ij_workspace_id j);
  old ← get_document d old_id (ij_tenant_id j) (ij_workspace_id j);
  j ← job a;
  publication_attempt ← lift_k (job_attempt j);
  let attempt := from_option id publication_attempt (dict_get "published_document_attempt" (ij_metadata j)) in
  match new, old with
  | Some new', Some old' =>
      if recovery_superseded j attempt new old then
        change a (set_meta "retirement_pending" (VBool false));; mark a "retirement_superseded"
      else if py_truthy (meta "index_activation_required" j) then mret tt
      else if py_truthy (dict_read "vector_index" (d_metadata new'))
              && negb (py_eqb (dict_read "vector_index" (d_metadata new')) (dict_read "vector_index" (d_metadata old')))
      then mark a "index_activation_required"
      else if negb (str_in (d_status old') ["published"; "unpublished"]) then
        change a (set_meta "retirement_pending" (VBool false))
      else if str_eqb (d_status old') "published" then
        _retire_replacement a old_id (ij_tenant_id j) (ij_workspace_id j) (ij_collection_id j) (Some (old', new'))
      else
        set_document_status d old_id "unpublished" (ij_tenant_id j) (ij_workspace_id j);;
        delete_vectors d old_id (ij_collection_id j) (ij_tenant_id j) (ij_workspace_id j);;
        change a (set_meta "retirement_pending" (VBool false));;
        change a (pop_meta "retirement_deferred")
  | _, _ =>
      change a (set_meta "retirement_pending" (VBool false));; mark a "retirement_superseded"
  end.

Definition _recover_retirement (a : addr) : IM unit :=
  j ← job a;
  when (py_truthy (meta "retirement_pending" j))
    (old_id ← or_raise RuntimeError (match meta "previous_document_id" j with VStr s => Some s | _ => None end);
     if opt_str_eqb (Some old_id) (ij_document_id j) then change a (set_meta "retirement_pending" (VBool false))
     else
       catching caught
         (new_id ← or_raise TypeError (ij_document_id j);
          with_documents d (sort_by str_leb [old_id; new_id]) (retire_recovered a old_id new_id))
         (fun _ =>
            change a (set_meta "retirement_deferred" (VStr "storage_unavailable"));;
            mark a "retirement_error_after_commit")).

(** ** Retirement after a reindex *)

(** What must still hold of the two versions under their guards. *)
Definition retirement_deferred (j : IngestionJob) (previous : Document) (old new : option Document) : bool :=
  match old, new with
  | Some old, Some new =>
      negb (str_eqb (d_status old) (d_status previous)) || negb (str_eqb (d_collection_id old) (ij_collection_id j))
      || negb (py_eqb (attempt_of old) (attempt_of previous))
      || negb (str_eqb (d_status new) "published") || negb (str_eqb (d_collection_id new) (ij_collection_id j))
      || (negb (py_truthy (meta "deduplicated" j))
          && negb (py_eqb (attempt_of new) (meta "publication_attempt" j)))
  | _, _ => true
  end.

Definition defer (a : addr) (document_id : option string) : IM unit :=
  change a (set_meta "retirement_deferred" (VStr "lock_unavailable"));;
  match document_id with
  | Some i => change a (set_meta "previous_document_id" (VStr i))
  | None => mret tt
  end.

Definition finalize_guarded (a : addr) (document_id new_id : string) (previous : Document)
    (tenant_id workspace_id collection_id : string) (has_cancel_check : bool) : IM unit :=
  stop ← (if has_cancel_check then call_out d CancelCheck else mret false);
  if (stop : bool) then defer a (Some document_id)
  else
    current_old ← get_document d document_id tenant_id workspace_id;
    current_new ← get_document d new_id tenant_id workspace_id;
    j ← job a;
    match current_old, current_new with
    | Some old, Some new =>
        if retirement_deferred j previous current_old current_new then defer a None
        else if str_eqb (d_status old) "unpublished" then
          delete_vectors d document_id (ij_collection_id j) (ij_tenant_id j) (ij_workspace_id j);;
          change a (set_meta "retirement_pending" (VBool false))
        else _retire_replacement a document_id tenant_id workspace_id collection_id (Some (old, new))
    | _, _ => defer a None
    end.

Definition _finalize_reindex (a : addr) (document_id : string) (previous : option Document)
    (tenant_id workspace_id collection_id : string) (has_cancel_check : bool) : IM unit :=
  j ← job a;
  match previous, ij_document_id j with
  | Some prev, Some new_id =>
      if str_eqb (ij_status j) "published" && negb (is_empty new_id) && negb (str_eqb new_id document_id) then
        if negb (is_str (meta "previous_document_id" j) document_id)
           || negb (py_eqb (meta "previous_document_attempt" j) (attempt_of prev))
        then mark a "retirement_superseded"
        else if py_truthy (meta "publication_guard_error_after_commit" j) then defer a (Some document_id)
        else if offers d "ingestion_index_key"
                && negb (is_str (dict_read "vector_index" (d_metadata prev)) (vectors_collection d))
        then
          change a (set_meta "previous_document_id" (VStr document_id));;
          mark a "index_activation_required";;
          call_out d (Emit "ingestion.reindex.staged"
            [("job_id", VStr (ij_job_id j)); ("document_id", VStr new_id); ("previous_document_id", VStr document_id)])
        else
          stop ← (if has_cancel_check then call_out d CancelCheck else mret false);
          if (stop : bool) then defer a None
          else
            with_documents d (sort_by str_leb [document_id; new_id])
              (finalize_guarded a document_id new_id prev tenant_id workspace_id collection_id has_cancel_check)
      else mret tt
  | _, _ => mret tt
  end.
End retire.
