(* ===== verification/IngestRecover.v ===== *)
(** * Recovering a publication (packages/ingestion, pipeline.py)

    [recover_publication] settles a job from its durable receipt and
    checkpoint, without parsing or embedding again: a pending receipt is
    decided under the guards of the collection, the document and the receipt,
    and a job whose outcome stays unknown stays verifying. *)

From Stdlib Require Import Ascii String.
From stdpp Require Import strings list.
From S2P Require Import Prelude PyFloat PyStr PyVal Json CanonicalJson StateError IngestionJobs KnowledgeModels Publication.
From S2P Require Import Identity IngestPorts IngestRetire.

Local Open Scope string_scope.
Local Open Scope Z_scope.
Local Open Scope list_scope.

(** The job a caller passes: none, a copy, or the live object. *)
Inductive projection : Type := NoSnapshot | Detached (j : IngestionJob) | Live (a : addr).

Definition projected (p : projection) : IM (option IngestionJob) :=
  match p with
  | NoSnapshot => mret None
  | Detached j => mret (Some j)
  | Live a => j ← job a; mret (Some j)
  end.

Definition RECOVERY_DIAGNOSTIC_METADATA : list string :=
  ["request_id"; "correlation_id"; "traceparent"; "tracestate"; "durability"; "restart_recovery";
   "publication_guard_error_after_commit"; "completion_notification_error_after_commit"].

(** [(field("metadata", {}) or {}).get(k)]. *)
Definition snapshot_meta (k : string) (snap : option IngestionJob) : pyval :=
  match snap with Some j => meta k j | None => VNone end.

Definition scope_eqb (j : IngestionJob) (tenant_id workspace_id collection_id : string) : bool :=
  str_eqb (ij_tenant_id j) tenant_id && str_eqb (ij_workspace_id j) workspace_id && str_eqb (ij_collection_id j) collection_id.

(** Absent, or equal. *)
Definition none_or_str (v : pyval) (s : string) : bool := is_none v || is_str v s.

Definition target_of (o : outcome) : string := match o with committed => "published" | o => outcome_name o end.

(** A job rebuilt from a snapshot of its attempt. *)
Definition rebuilt_job (job_id tenant_id workspace_id collection_id : string) (document_id : option string)
    (progress : pyfloat) (cancel : bool) (s : Snapshot) : IngestionJob :=
  with_saved s (with_cancel_requested cancel (with_progress progress (with_document_id document_id
    (with_job_status "verifying" (IngestionJob_new tenant_id workspace_id collection_id job_id (sn_created_at s)))))).

Definition with_sn_metadata (m : list (string * pyval)) (s : Snapshot) : Snapshot :=
  mk_snapshot (sn_attempt s) (sn_created_at s) (sn_started_at s) (sn_finished_at s) m (sn_heartbeats s).

(** [{**diagnostics, **metadata}]. *)
Definition merge_diagnostics (diagnostics metadata : list (string * pyval)) : list (string * pyval) :=
  fold_left (fun acc kv => dict_set (fst kv) (snd kv) acc) metadata
    (List.filter (fun kv => str_in (fst kv) RECOVERY_DIAGNOSTIC_METADATA) diagnostics).

(** The identity of a decision is that of the receipt it decides. *)
Definition same_receipt (a b : Receipt) : bool :=
  str_eqb (rc_job_id a) (rc_job_id b) && str_eqb (rc_tenant_id a) (rc_tenant_id b)
  && str_eqb (rc_workspace_id a) (rc_workspace_id b) && str_eqb (rc_collection_id a) (rc_collection_id b)
  && str_eqb (rc_document_id a) (rc_document_id b) && str_eqb (rc_attempt_id a) (rc_attempt_id b)
  && str_eqb (rc_document_attempt a) (rc_document_attempt b).

Definition chunk_leb (a b : Chunk) : bool := ch_chunk_index a <=? ch_chunk_index b.

(** The points of the chunks and the saved vectors. *)
Fixpoint expected_points (now : stamps) (doc : Document) (chunks : list Chunk) (vectors : list pyval) : res exn (list pyval) :=
  match chunks, vectors with
  | c :: chunks', v :: vectors' =>
      built ← build_point_payload now c doc;
      rest ← expected_points now (snd built) chunks' vectors';
      Ok (VDict [("point_id", VStr (point_id_for_chunk (ch_chunk_id c))); ("vector", v); ("payload", VDict (fst built))] :: rest)
  | _, _ => Ok []
  end.

Section recover.
Context (d : adapters).

(** ** The effects of a pending publication *)

(** The checkpoint holds the outputs of this very attempt. *)
Definition outputs_saved (record : Receipt) (document : Document) (chunks : list Chunk) (c : Checkpoint)
    : res exn (option (string * list pyval)) :=
  if negb (str_eqb (ck_attempt_id c) (rc_attempt_id record))
     || negb (opt_str_eqb (ck_document_id c) (Some (rc_document_id record)))
     || negb (bool_decide (ck_state c = active)) then Ok None
  else
    fingerprint ← (match ck_fingerprint c with
                   | VDict f => Ok f
                   | v => if py_truthy v then Err RuntimeError else Ok []
                   end);
    match dict_read "point_manifest" (ck_artifacts c), dict_read "vectors" (ck_artifacts c) with
    | VStr manifest, VList vectors =>
        if negb (Z.of_nat (length chunks) =? rc_ready_count record) || negb (length vectors =? length chunks)%nat
           || negb (is_str (dict_read "checksum" fingerprint) (d_content_checksum document))
           || negb (is_str (dict_read "document_id" fingerprint) (d_document_id document)) then Ok None
        else Ok (Some (manifest, vectors))
    | _, _ => Ok None
    end.

Definition _verify_pending_points (record : Receipt) (document : Document) (chunks : list Chunk) : IM bool :=
  checkpoint ← call_out d (GetCheckpoint (receipt_key record));
  match checkpoint with
  | None => mret false
  | Some c =>
      saved ← lift (outputs_saved record document chunks c);
      match saved with
      | None => mret false
      | Some (manifest, vectors) =>
          now ← gets (fun w => utc d (w_trace w));
          expected ← lift (expected_points now document (sort_by chunk_leb chunks) vectors);
          expected ← (if offers d "plan_upsert_batches" then
                        batches ← call_out d (PlanBatches expected); mret (concat batches)
                      else mret expected);
          authorized ← lift (_point_manifest expected);
          if negb (str_eqb authorized manifest) then mret false
          else
            observed ← _snapshot_points d (rc_document_id record) (rc_collection_id record)
                         (rc_tenant_id record) (rc_workspace_id record);
            found ← lift (_point_manifest observed);
            mret (str_eqb found manifest)
      end
  end.

(** ** Reading the receipt *)

(** At most [n] reads; [RuntimeError] when none succeeds. *)
Fixpoint read_receipt (n : nat) (key : pub_key) : IM (option Receipt) :=
  match n with
  | O => raise RuntimeError
  | S n' => catching caught (call_out d (GetPublication key)) (fun _ => read_receipt n' key)
  end.

Definition checkpoint_if_offered (key : pub_key) : IM (option Checkpoint) :=
  if offers d "get_ingestion_checkpoint" then call_out d (GetCheckpoint key) else mret None.

(** A cancellation that outranks an older failed receipt. *)
Definition current_cancel (checkpoint : option Checkpoint) (record : option Receipt) : bool :=
  match checkpoint with
  | None => false
  | Some c =>
      ck_cancel_requested c && (bool_decide (ck_state c = active) || bool_decide (ck_state c = c_cancelled))
      && match record with
         | None => true
         | Some r => bool_decide (rc_outcome r = failed)
                     && (sn_attempt (rc_job_snapshot r) <? sn_attempt (ck_job_snapshot c))
         end
  end.

(** A newer attempt is running over a failed receipt. *)
Definition newer_attempt (checkpoint : option Checkpoint) (r : Receipt) (snap : option IngestionJob) : bool :=
  match checkpoint with
  | None => false
  | Some c =>
      bool_decide (rc_outcome r = failed) && bool_decide (ck_state c = active)
      && (sn_attempt (rc_job_snapshot r) <? sn_attempt (ck_job_snapshot c))
      && match snap with
         | Some j => match dict_get "publication_attempt" (ij_metadata j) with
                     | Some v => is_str v (ck_attempt_id c)
                     | None => true
                     end
         | None => true
         end
  end.

(** ** A cancelled checkpoint without a decision *)

(** The effects of the attempt are removed first; [true]: the cleanup stays
    pending. *)
Definition clean_cancelled (a : addr) (document_id collection_id tenant_id workspace_id attempt_id : string) : IM bool :=
  with_guard d (GDocument document_id)
    (document ← get_document d document_id tenant_id workspace_id;
     match document with
     | None =>
         empty ← _vectors_confirmed_empty d document_id collection_id tenant_id workspace_id;
         if (empty : bool) then mret false
         else change a cancellation_cleanup_pending;; _register_job d a;; mret true
     | Some doc =>
         guard_not (negb (str_eqb (d_collection_id doc) collection_id)) OwnershipLost;;
         if is_str (attempt_of doc) attempt_id then
           guard_not (str_eqb (d_status doc) "published") RuntimeError;;
           complete ← _cleanup_failed_document d (Some document_id) collection_id true tenant_id workspace_id attempt_id true;
           if (complete : bool) then mret false
           else change a cancellation_cleanup_pending;; _register_job d a;; mret true
         else mret false
     end).

Definition settle_cancelled (job_id tenant_id workspace_id collection_id : string) (c : Checkpoint)
    (snap existing : option IngestionJob) : IM addr :=
  guard_not (negb (none_or_str (snapshot_meta "publication_attempt" snap) (ck_attempt_id c))) OwnershipLost;;
  guard_not match existing with
            | Some e => negb (is_str (meta "publication_attempt" e) (ck_attempt_id c))
            | None => false
            end OwnershipLost;;
  guard_not match snap with Some j => negb (opt_str_eqb (ij_document_id j) (ck_document_id c)) | None => false end OwnershipLost;;
  a ← new_job (rebuilt_job job_id tenant_id workspace_id collection_id (ck_document_id c) (Fin 0) true (ck_job_snapshot c));
  pending ← (match ck_document_id c with
             | Some document_id => clean_cancelled a document_id collection_id tenant_id workspace_id (ck_attempt_id c)
             | None => mret false
             end);
  if (pending : bool) then mret a
  else
    change a (pop_meta "cancellation_cleanup_pending");;
    j ← job a;
    let finished := ij_finished_at j in
    transition d a "cancelled" None (Some "Cancelled by operator.") None;;
    when (negb (is_none (opt_float finished)) || bool_decide (ck_state c = c_cancelled))
      (change a (with_finished_at finished));;
    j ← job a;
    call_out d (FinishCheckpoint j);;
    _register_job d a;;
    mret a.

(** ** A pending receipt *)

Definition resolve (record : Receipt) (o : outcome) : IM Receipt :=
  resolved ← call_out d (ResolvePublication record (outcome_name o));
  resolved ← or_raise TypeError resolved;
  modify (set_record (Some resolved));;
  mret resolved.

(** The owned document is already published: by this attempt, or, for a
    deduplication, by the one the receipt names. *)
Definition decide_published (a : addr) (record : Receipt) (tenant_id workspace_id collection_id : string) : IM outcome :=
  o ← (if negb (str_eqb (rc_document_attempt record) (rc_attempt_id record)) then
         collection ← call_out d (GetCollection tenant_id workspace_id collection_id);
         j ← job a;
         mret (if ij_cancel_requested j then cancelled else if active_collection collection then committed else failed)
       else mret committed);
  resolved ← resolve record o;
  mret (rc_outcome resolved).

(** All the points were written, and nobody asked to cancel: publish them if
    they are still exactly the authorized ones.  [None]: stay verifying. *)
Definition decide_ready (record : Receipt) (document : Document) (tenant_id workspace_id collection_id : string)
    : IM (option outcome) :=
  collection ← call_out d (GetCollection tenant_id workspace_id collection_id);
  if negb (active_collection collection) || negb (str_eqb (d_status document) "processing") then
    _cleanup_failed_document d (Some (rc_document_id record)) collection_id true tenant_id workspace_id
      (rc_document_attempt record) false;;
    resolved ← resolve record failed;
    mret (Some (rc_outcome resolved))
  else
    chunks ← get_chunks d (rc_document_id record) tenant_id workspace_id;
    verified ← _verify_pending_points record document chunks;
    if negb verified then mret None
    else
      set_document_status d (rc_document_id record) "published" tenant_id workspace_id;;
      decided ← call_out d (GetPublication (tenant_id, workspace_id, collection_id, rc_job_id record));
      decided ← or_raise OwnershipLost decided;
      guard_not (negb (same_receipt decided record)) OwnershipLost;;
      modify (set_record (Some decided));;
      mret (if bool_decide (rc_outcome decided = committed) then Some committed else None).

(** Otherwise nothing can be published: compensate and decide. *)
Definition decide_unready (a : addr) (record : Receipt) (document : option Document) (owned : bool)
    (tenant_id workspace_id collection_id : string) : IM (option outcome) :=
  let document_id := rc_document_id record in
  j ← job a;
  unconfirmed ← (match ij_cancel_requested j, document with
                 | true, None =>
                     empty ← _vectors_confirmed_empty d document_id collection_id tenant_id workspace_id; mret (negb empty)
                 | _, _ => mret false
                 end);
  incomplete ← (if unconfirmed : bool then mret true
                else if owned then
                  j ← job a;
                  complete ← _cleanup_failed_document d (Some document_id) collection_id true tenant_id workspace_id
                               (rc_attempt_id record) (ij_cancel_requested j);
                  j ← job a;
                  mret (ij_cancel_requested j && negb complete)
                else mret false);
  if (incomplete : bool) then change a cancellation_cleanup_pending;; mret None
  else
    with_lock d
      (j ← job a;
       resolved ← call_out d (ResolvePublication record (if ij_cancel_requested j then "cancelled" else "failed"));
       resolved ← or_raise TypeError resolved;
       change a (fun j => with_cancel_requested (ij_cancel_requested j || rc_cancel_requested resolved) j);;
       modify (set_record (Some resolved));;
       mret (Some (rc_outcome resolved))).

(** One try, under the guards; the receipt is read again there. *)
Definition decide_pending (a : addr) (key : pub_key) (record : Receipt) (tenant_id workspace_id collection_id : string)
    : IM (option outcome) :=
  with_guard d (GCollection tenant_id workspace_id collection_id)
  (with_guard d (GDocument (rc_document_id record))
  (with_guard d (GDecision record)
    (reread ← call_out d (GetPublication key);
     modify (set_record reread);;
     record ← or_raise OwnershipLost reread;
     j ← job a;
     attempt_id ← lift_k (job_attempt j);
     guard_not (negb (is_str attempt_id (rc_attempt_id record))) OwnershipLost;;
     change a (fun j => with_cancel_requested (ij_cancel_requested j || rc_cancel_requested record) j);;
     if negb (bool_decide (rc_outcome record = pending)) then mret (Some (rc_outcome record))
     else
       document ← get_document d (rc_document_id record) tenant_id workspace_id;
       let owned := match document with Some doc => _publication_matches record doc | None => false end in
       j ← job a;
       match document with
       | Some doc =>
           if owned && str_eqb (d_status doc) "published" then
             o ← decide_published a record tenant_id workspace_id collection_id; mret (Some o)
           else if owned && negb (rc_ready_count record =? 0) && negb (ij_cancel_requested j) then
             decide_ready record doc tenant_id workspace_id collection_id
           else decide_unready a record document owned tenant_id workspace_id collection_id
       | None => decide_unready a record document owned tenant_id workspace_id collection_id
       end))).

(** At most [n] tries; [None]: the job stays verifying. *)
Fixpoint pending_tries (n : nat) (a : addr) (key : pub_key) (tenant_id workspace_id collection_id : string)
    : IM (option outcome) :=
  match n with
  | O => mret None
  | S n' =>
      record ← gets (fun w => l_record (w_locals w));
      catching (fun e => caught e && negb (is_ownership e))
        (record ← or_raise TypeError record;
         decide_pending a key record tenant_id workspace_id collection_id)
        (fun _ => pending_tries n' a key tenant_id workspace_id collection_id)
  end.
End recover.

(** ** Installing a decision *)

(** The facts of a terminal checkpoint that agree with the receipt. *)
Definition finish_conflict (c : Checkpoint) (r : Receipt) : bool :=
  let saved := ck_job_snapshot c in
  let authority := rc_job_snapshot r in
  negb (opt_str_eqb (ck_document_id c) (Some (rc_document_id r)))
  || negb (sn_attempt saved =? sn_attempt authority) || negb (feq (sn_created_at saved) (sn_created_at authority))
  || negb (opt_feq (sn_started_at saved) (sn_started_at authority))
  || (negb (is_none (opt_float (sn_finished_at authority))) && negb (is_none (opt_float (sn_finished_at saved)))
      && negb (opt_feq (sn_finished_at authority) (sn_finished_at saved))).

(** The authority, with a finish only its checkpoint knows. *)
Definition completed_authority (terminal : option Checkpoint) (r : Receipt) (o : outcome) : res exn Snapshot :=
  let authority := rc_job_snapshot r in
  match terminal with
  | Some c =>
      if str_eqb (ck_attempt_id c) (rc_attempt_id r) && str_eqb (state_name (ck_state c)) (outcome_name o) then
        raise_if (finish_conflict c r) OwnershipLost;;
        Ok (match sn_finished_at authority with
            | None => with_finished (sn_finished_at (ck_job_snapshot c)) authority
            | Some _ => authority
            end)
      else Ok authority
  | None => Ok authority
  end.

Definition validate_snapshot (r : Receipt) (s : Snapshot) : IM unit :=
  lift_k (validate_publication_snapshot s (VStr (rc_attempt_id r)) (VStr (rc_document_attempt r))).

Section install.
Context (d : adapters).

(** The checkpoint of a deduplication written before its document was known is
    repaired from the receipt. *)
Definition terminal_checkpoint (a : addr) (key : pub_key) (o : outcome) : IM (option Checkpoint) :=
  terminal ← checkpoint_if_offered d key;
  match terminal with
  | Some c =>
      if bool_decide (o = committed) && bool_decide (ck_state c = c_committed) && is_none (opt_str (ck_document_id c))
         && offers d "repair_deduplicated_checkpoint" then
        j ← job a;
        repaired ← call_out d (RepairCheckpoint j);
        if (repaired : bool) then call_out d (GetCheckpoint key) else mret terminal
      else mret terminal
  | None => mret terminal
  end.

(** The job takes the decided status with the times of the authority. *)
Definition install_status (a : addr) (target : string) (authority : Snapshot) : IM unit :=
  change a (fun j => with_finished_at (sn_finished_at authority)
    (with_times (sn_attempt authority) (sn_created_at authority) (sn_started_at authority) j));;
  j ← job a;
  when (negb (str_eqb (ij_status j) target) || is_none (opt_float (ij_finished_at j)))
    (when (negb (str_eqb (ij_status j) "verifying"))
       (change a (fun j => with_finished_at (sn_finished_at authority) (with_job_status "verifying" j)));;
     j ← job a;
     let finished_at := ij_finished_at j in
     transition d a target (if str_eqb target "failed" then Some "lock_unavailable" else None) None
       (Some (if str_eqb target "published" then lit 1 1 else ij_progress j));;
     change a (fun j => with_times (ij_attempt j) (ij_created_at j) (sn_started_at authority) (with_finished_at finished_at j))).

Definition finish_matching_checkpoint (a : addr) (key : pub_key) (attempt_id : string) : IM unit :=
  when (offers d "get_ingestion_checkpoint")
    (catching caught
       (checkpoint ← call_out d (GetCheckpoint key);
        match checkpoint with
        | Some c => when (str_eqb (ck_attempt_id c) attempt_id) (j ← job a; call_out d (FinishCheckpoint j))
        | None => mret tt
        end)
       (fun _ => mark a "checkpoint_cleanup_pending")).

Definition install_outcome (a : addr) (key : pub_key) (o : outcome) : IM addr :=
  record ← gets (fun w => l_record (w_locals w));
  record ← or_raise TypeError record;
  let target := target_of o in
  validate_snapshot record (rc_job_snapshot record);;
  terminal ← terminal_checkpoint a key o;
  authority ← lift (completed_authority terminal record o);
  install_status a target authority;;
  change a (pop_meta "publication_outcome_unknown");;
  j ← job a;
  modify (fun w => set_pending (List.filter (fun i => negb (str_eqb i (ij_job_id j))) (w_pending w)) w);;
  when (str_eqb target "published") (_recover_retirement d a);;
  finish_matching_checkpoint a key (rc_attempt_id record);;
  j ← job a;
  catching (fun e => caught e && negb (is_ownership e))
    (call_out d (SavePublicationSnapshot j)) (fun _ => mark a "publication_snapshot_pending");;
  mret a.

(** ** From a receipt to a job *)

(** The snapshot of the receipt with the diagnostics of the caller, twice
    validated. *)
Definition saved_snapshot (r : Receipt) (snap : option IngestionJob) : IM Snapshot :=
  validate_snapshot r (rc_job_snapshot r);;
  guard_not match snap with
            | Some j => negb (opt_str_eqb (ij_document_id j) (Some (rc_document_id r)))
            | None => false
            end OwnershipLost;;
  let diagnostics := match snap with Some j => ij_metadata j | None => [] end in
  let saved := with_sn_metadata (merge_diagnostics diagnostics (sn_metadata (rc_job_snapshot r))) (rc_job_snapshot r) in
  validate_snapshot r saved;;
  mret saved.

(** The cached job brought to the receipt, or a new one. *)
Definition recovered_job (existing : option addr) (key : pub_key) (r : Receipt) (saved : Snapshot) (snap : option IngestionJob)
    : IM addr :=
  let '(tenant_id, workspace_id, collection_id, job_id) := key in
  match existing with
  | Some a =>
      e ← job a;
      guard_not match ij_document_id e with
                | Some i => negb (str_eqb i (rc_document_id r))
                | None => false
                end OwnershipLost;;
      guard_not (negb (bool_decide (rc_outcome r = committed)) && negb (is_str (meta "publication_attempt" e) (rc_attempt_id r)))
        OwnershipLost;;
      change a (fun j => with_saved saved (with_document_id (Some (rc_document_id r)) j));;
      mret a
  | None =>
      new_job (rebuilt_job job_id tenant_id workspace_id collection_id (Some (rc_document_id r)) (lit 9 10)
                 (match snap with Some j => ij_cancel_requested j | None => false end) saved)
  end.

Definition add_pending (job_id : string) : IM unit :=
  modify (fun w => set_pending (if str_in job_id (w_pending w) then w_pending w else job_id :: w_pending w) w).

(** What follows the reading of a receipt that is still valid. *)
Definition recover_receipt (existing : option addr) (key : pub_key) (r : Receipt) (snap : option IngestionJob) : IM addr :=
  let '(tenant_id, workspace_id, collection_id, job_id) := key in
  guard_not (negb (bool_decide (receipt_key r = key))) OwnershipLost;;
  guard_not (negb (bool_decide (rc_outcome r = committed))
             && negb (none_or_str (snapshot_meta "publication_attempt" snap) (rc_attempt_id r))) OwnershipLost;;
  saved ← saved_snapshot r snap;
  a ← recovered_job existing key r saved snap;
  change a (fun j => with_cancel_requested (ij_cancel_requested j || rc_cancel_requested r) j);;
  match existing with None => _register_job d a | Some _ => mret tt end;;
  mark a "publication_outcome_unknown";;
  add_pending job_id;;
  modify (set_record (Some r));;
  decision ← (if bool_decide (rc_outcome r = pending) then
                change a (fun j => if str_eqb (ij_status j) "verifying" then j
                                   else with_finished_at None (with_job_status "verifying" j));;
                pending_tries d 3 a key tenant_id workspace_id collection_id
              else mret (Some (rc_outcome r)));
  match decision with
  | None => mret a
  | Some o => install_outcome a key o
  end.

Definition recover_publication (job_id tenant_id workspace_id collection_id : string) (snapshot : projection)
    : IM (option addr) :=
  if negb (offers d "get_publication") then mret None
  else
    let key := (tenant_id, workspace_id, collection_id, job_id) in
    snap ← projected snapshot;
    guard_not match snap with
              | Some j => negb (str_eqb (ij_job_id j) job_id) || negb (scope_eqb j tenant_id workspace_id collection_id)
              | None => false
              end OwnershipLost;;
    existing ← get_status job_id;
    cached ← (match existing with Some a => j ← job a; mret (Some j) | None => mret None end);
    guard_not match cached with Some e => negb (scope_eqb e tenant_id workspace_id collection_id) | None => false end OwnershipLost;;
    record ← read_receipt d 3 key;
    checkpoint ← (if match record with Some r => bool_decide (rc_outcome r = committed) | None => false end then mret None
                  else checkpoint_if_offered d key);
    snap ← projected snapshot;
    cached ← (match existing with Some a => j ← job a; mret (Some j) | None => mret None end);
    match checkpoint, record with
    | Some c, _ =>
        if current_cancel checkpoint record then
          a ← settle_cancelled d job_id tenant_id workspace_id collection_id c snap cached; mret (Some a)
        else
          match record with
          | None => mret None
          | Some r => if newer_attempt checkpoint r snap then mret None
                      else a ← recover_receipt existing key r snap; mret (Some a)
          end
    | None, None => mret None
    | None, Some r => a ← recover_receipt existing key r snap; mret (Some a)
    end.
End install.
