(* ===== verification/IngestPipeline.v ===== *)
(** * The commit and the whole ingestion pipeline

    The books of one attempt, the decision of its receipt and the recovery of an interrupted
    one; then the stages of IngestionService.ingest and reindex, in the order of the code. *)

From Stdlib Require Import Ascii String.
From stdpp Require Import strings list.
From S2P Require Import Prelude PyFloat PyStr PyVal Json CanonicalJson IngestionJobs StateError KnowledgeModels.
From S2P Require Import Publication Identity Chunking IngestPorts IngestRetire IngestRecover.

Local Open Scope string_scope.
Local Open Scope Z_scope.
Local Open Scope list_scope.

(** ** Committing and recovering an ingestion attempt (packages/ingestion, pipeline.py)

    The closures of [_ingest]: reading the decision back, completing a
    publication, publishing a duplicate, and settling an attempt that raised. *)

(** The arguments of [ingest]; [ia_guard] says whether a publication guard is
    given, and whether it has a [check].  A queue attempt is an int and queue
    times are floats, as the worker passes them. *)
Record ingest_args : Type := mk_args {
  ia_workspace_id : string; ia_collection_id : string; ia_tenant_id : string; ia_job_id : option string;
  ia_request_id : option string; ia_correlation_id : option string; ia_callbacks : bool * bool;
  ia_guard : option bool; ia_document_metadata : pyval; ia_recovery_metadata : list (string * pyval) }.

Section commit.
Context (d : adapters).

Definition frame_now : IM frame := gets the_frame.
Definition change_frame (f : frame -> frame) : IM unit := modify (fun w => set_frame (f (the_frame w)) w).

(** [advance] and [heartbeat]. *)
Definition advance (a : addr) (callbacks : bool * bool) (to_status : string) (progress : pyfloat) : IM unit :=
  _checkpoint d a callbacks;;
  transition d a to_status None None (Some progress).

Definition heartbeat (a : addr) (callbacks : bool * bool) (fields : list (string * pyval)) : IM unit :=
  _checkpoint d a callbacks;;
  now ← gets (fun w => clock d (w_trace w));
  change a (job_heartbeat now fields).

(** ** Completion *)

Definition facts_differ (j : IngestionJob) (s : Snapshot) : bool :=
  negb (ij_attempt j =? sn_attempt s) || negb (feq (ij_created_at j) (sn_created_at s))
  || negb (opt_feq (ij_started_at j) (sn_started_at s)).

(** The job is published only as its committed receipt says. *)
Definition project_publication (a : addr) (key : pub_key) : IM unit :=
  with_lock d
    (found ← call_out d (GetPublication key);
     receipt ← or_raise OwnershipLost found;
     j ← job a;
     guard_not (negb (bool_decide (rc_outcome receipt = committed))) OwnershipLost;;
     attempt_id ← lift_k (job_attempt j);
     guard_not (negb (is_str attempt_id (rc_attempt_id receipt))
                || negb (opt_str_eqb (Some (rc_document_id receipt)) (ij_document_id j))) OwnershipLost;;
     validate_snapshot receipt (rc_job_snapshot receipt);;
     guard_not (facts_differ j (rc_job_snapshot receipt)) OwnershipLost;;
     when (negb (str_eqb (ij_status j) "published")) (transition d a "published" None None (Some (lit 1 1)));;
     change a (with_finished_at (sn_finished_at (rc_job_snapshot receipt)))).

Definition frame_key (f : frame) (j : IngestionJob) : pub_key :=
  (f_tenant_id f, f_workspace_id f, f_collection_id f, ij_job_id j).

(** The fields of the completion event; without a count the name is unbound. *)
Definition completion_fields (f : frame) (j : IngestionJob) : res exn (list (string * pyval)) :=
  let base := dict_set "document_id" (opt_text (f_document_id f)) (dict_set "type" (VStr "ingestion.completed") (f_base_event f)) in
  if py_truthy (meta "deduplicated" j) then Ok (dict_set "deduplicated" (VBool true) base)
  else match f_counts f with
       | Some (chunks, points) => Ok (dict_set "points" (VInt points) (dict_set "chunks" (VInt chunks) base))
       | None => Err RuntimeError
       end.

(** After the commit nothing but the projection may raise. *)
Definition finish_publication (guard_error : bool) : IM addr :=
  f ← frame_now;
  let a := f_job f in
  j ← job a;
  project_publication a (frame_key f j);;
  when guard_error (mark a "publication_guard_error_after_commit");;
  when (offers d "finish_ingestion_checkpoint")
    (j ← job a;
     catching caught (call_out d (FinishCheckpoint j)) (fun _ => mark a "checkpoint_cleanup_pending"));;
  when (offers d "save_publication_snapshot")
    (j ← job a;
     catching caught (call_out d (SavePublicationSnapshot j)) (fun _ => mark a "publication_snapshot_pending"));;
  catching caught
    (j ← job a;
     fields ← lift (completion_fields f j);
     call_out d (Emit "ingestion.completed" fields))
    (fun _ => mark a "completion_notification_error_after_commit");;
  mret a.

(** [with publication_guard() as guard: guard.check(); body]. *)
Definition with_publication_guard {A} (args : ingest_args) (body : IM A) : IM A :=
  match ia_guard args with
  | None => body
  | Some has_check => with_guard d GPublication (when has_check (call_out d GuardCheck);; body)
  end.

(** ** Publishing a duplicate *)

Definition decide_duplicate (a : addr) (f : frame) (current : Document) : IM unit :=
  with_lock d
    (_checkpoint d a (f_callbacks f);;
     change a (set_meta "published_document_attempt" (attempt_of current));;
     when (offers d "begin_publication")
       (j ← job a;
        call_out d (BeginPublication j (Some (attempt_of current)) 0);;
        change_frame frame_attempted;;
        add_pending (ij_job_id j);;
        found ← call_out d (GetPublication (frame_key f j));
        receipt ← or_raise TypeError found;
        when (rc_cancel_requested receipt)
          (change a (with_cancel_requested true);; raise CancellationRequested);;
        call_out d (ResolvePublication receipt "committed");;
        mret tt);;
     change_frame (frame_committed true);;
     j ← job a;
     project_publication a (frame_key f j)).

Definition publish_duplicate (args : ingest_args) : IM addr :=
  f ← frame_now;
  let a := f_job f in
  mark a "deduplicated";;
  j ← job a;
  when (str_eqb (ij_status j) "validating")
    (advance a (f_callbacks f) "parsing" (lit 1 2);;
     advance a (f_callbacks f) "chunking" (lit 7 10);;
     advance a (f_callbacks f) "embedding" (lit 8 10);;
     advance a (f_callbacks f) "indexing" (lit 9 10));;
  advance a (f_callbacks f) "verifying" (lit 95 100);;
  with_publication_guard args
    (with_guard d (GCollection (f_tenant_id f) (f_workspace_id f) (f_collection_id f))
       (document_id ← or_raise TypeError (f_document_id f);
        with_guard d (GDocument document_id)
          (_checkpoint d a (f_callbacks f);;
           found ← get_document d document_id (f_tenant_id f) (f_workspace_id f);
           current ← or_raise OwnershipLost found;
           guard_not (negb (str_eqb (d_status current) "published")) OwnershipLost;;
           collection ← call_out d (GetCollection (f_tenant_id f) (f_workspace_id f) (f_collection_id f));
           guard_not (negb (active_collection collection)) archived_error;;
           decide_duplicate a f current)));;
  finish_publication false.

(** ** Settling an attempt that raised *)

Definition is_published (doc : option Document) : bool :=
  match doc with Some doc => str_eqb (d_status doc) "published" | None => false end.

(** Whether this attempt's commit took place, read under the document's guard;
    with the receipt it was read from. *)
Definition read_commit (f : frame) : IM (bool * option Receipt) :=
  let a := f_job f in
  document_id ← or_raise TypeError (f_document_id f);
  with_guard d (GDocument document_id)
    (document ← get_document d document_id (f_tenant_id f) (f_workspace_id f);
     let owned := is_published document
                  && match document with Some doc => is_str (attempt_of doc) (f_attempt_id f) | None => false end in
     if offers d "get_publication" then
       j ← job a;
       found ← call_out d (GetPublication (frame_key f j));
       receipt ← or_raise OwnershipLost found;
       guard_not (negb (str_eqb (rc_attempt_id receipt) (f_attempt_id f))) OwnershipLost;;
       change a (fun j => with_cancel_requested (ij_cancel_requested j || rc_cancel_requested receipt) j);;
       mret (bool_decide (rc_outcome receipt = committed) || owned, Some receipt)
     else mret (owned, None)).

(** At most [n] reads; [None]: the outcome is unknown. *)
Fixpoint read_commit_tries (n : nat) (f : frame) : IM (option (bool * option Receipt)) :=
  match n with
  | O => mret None
  | S n' => catching caught (r ← read_commit f; mret (Some r)) (fun _ => read_commit_tries n' f)
  end.

Definition store_recovery (e : exn) : IM unit :=
  f ← frame_now;
  j ← job (f_job f);
  modify (fun w => set_recovery (dict_set (ij_job_id j) (f, e) (w_recovery w)) w).
Definition drop_recovery : IM unit :=
  f ← frame_now;
  j ← job (f_job f);
  modify (fun w => set_recovery (dict_del (ij_job_id j) (w_recovery w)) w).

Definition emit_event (kind : string) (fields : list (string * pyval)) : IM unit :=
  f ← frame_now;
  call_out d (Emit kind (fold_left (fun acc kv => dict_set (fst kv) (snd kv) acc) (("type", VStr kind) :: fields) (f_base_event f))).

(** [except CancelledError: job.metadata["failure_notification_cancelled"] = True]. *)
Definition notify (a : addr) (kind : string) (fields : list (string * pyval)) : IM unit :=
  catching (fun e => match e with CancelledError => true | _ => false end)
    (emit_event kind fields) (fun _ => mark a "failure_notification_cancelled").

Definition _failure_code (j : IngestionJob) : string :=
  if str_eqb (ij_stage j) "embedding" then "provider_unavailable"
  else if str_in (ij_stage j) ["indexing"; "verifying"] then "storage_unavailable" else "ingestion_failed".

(** The code and the message of a failure. *)
Definition failure_of (e : exn) (j : IngestionJob) : string * string :=
  match e with
  | ParseError code message | EmbeddingBatchError code message => (code, message)
  | _ => (match exn_code e with
          | Some c => if str_eqb c "lock_unavailable" then c else _failure_code j
          | None => _failure_code j
          end, "Ingestion failed.")
  end.

Definition was_cancelled (e : exn) (j : IngestionJob) : bool :=
  is_cancellation e || str_eqb (ij_status j) "cancelled" || ij_cancel_requested j.

(** How the job ends: [None] when its cleanup stays pending, otherwise whether
    it was cancelled, with the error code of a failure. *)
Definition terminate (a : addr) (e : exn) (cleanup_complete : bool) : IM (option (option string)) :=
  with_lock d
    (j ← job a;
     if was_cancelled e j then
       change a (with_cancel_requested true);;
       if negb cleanup_complete then change a cancellation_cleanup_pending;; mret None
       else
         change a (pop_meta "cancellation_cleanup_pending");;
         when (negb (str_eqb (ij_status j) "cancelled"))
           (transition d a "cancelled" None (Some "Cancelled by operator.") None);;
         mret (Some None)
     else
       let '(error_code, message) := failure_of e j in
       transition d a "failed" (Some error_code) (Some message) None;;
       mret (Some (Some error_code))).

(** No commit: compensate, end the job and say so. *)
Definition settle_failure (e : exn) : IM addr :=
  f ← frame_now;
  let a := f_job f in
  j ← job a;
  cleanup_complete ← _cleanup_failed_document d (f_document_id f) (f_collection_id f) (f_document_written f)
                       (f_tenant_id f) (f_workspace_id f) (f_attempt_id f) (was_cancelled e j);
  ended ← terminate a e cleanup_complete;
  match ended with
  | None => mret a
  | Some failure =>
      j ← job a;
      when (offers d "finish_ingestion_checkpoint") (call_out d (FinishCheckpoint j));;
      j ← job a;
      match failure with
      | None =>
          when (negb (py_truthy (meta "cancellation_notification_attempted" j))) (notify a "ingestion.cancelled" [])
      | Some code =>
          notify a "ingestion.failed" [("error_code", VStr code); ("retryable", VBool (is_retryable (Some code)))]
      end;;
      mret a
  end.

(** A pending receipt is settled by its recovery. *)
Definition settle_pending (e : exn) : IM addr :=
  f ← frame_now;
  j ← job (f_job f);
  found ← recover_publication d (ij_job_id j) (f_tenant_id f) (f_workspace_id f) (f_collection_id f) (Live (f_job f));
  recovered ← or_raise RuntimeError found;
  r ← job recovered;
  if str_eqb (ij_status r) "verifying" then with_lock d (store_recovery e);; mret recovered
  else
    with_lock d drop_recovery;;
    if str_eqb (ij_status r) "published" then
      change_frame (frame_committed true);; finish_publication true
    else
      catching caught
        (emit_event ("ingestion." +:+ ij_status r) [("error_code", opt_text (ij_error_code r))]) (fun _ => mret tt);;
      mret recovered.

(** The commit outcome comes before the kind of the error. *)
Definition recover_attempt (e : exn) : IM addr :=
  f ← frame_now;
  known ← (if f_publication_attempted f && negb (f_publication_committed f) then
             tried ← read_commit_tries 3 f;
             match tried with
             | Some (owned, receipt) => change_frame (frame_committed owned);; mret (Some receipt)
             | None => mret None
             end
           else mret (Some None));
  match known with
  | None =>
      with_lock d (mark (f_job f) "publication_outcome_unknown";; store_recovery e);;
      mret (f_job f)
  | Some receipt =>
      f ← frame_now;
      if match receipt with Some r => bool_decide (rc_outcome r = pending) | None => false end
         && negb (f_publication_committed f)
      then settle_pending e
      else
        with_lock d (change (f_job f) (pop_meta "publication_outcome_unknown");; drop_recovery);;
        if f_publication_committed f then finish_publication true else settle_failure e
  end.
End commit.

(** ** The ingestion pipeline (packages/ingestion, pipeline.py)

    [_ingest] validates, parses, chunks, embeds, indexes, verifies and
    publishes one document; [reindex] replaces a version; [reconcile] settles an
    unresolved commit. *)

(** ** Document metadata *)

Definition has_control (s : string) : bool := sany (fun c => (code c <? 32) || is_char 127 c) s.

Fixpoint safe_strings (keys : list string) (value : list (string * pyval)) : res exn (list (string * pyval)) :=
  match keys with
  | [] => Ok []
  | key :: keys' =>
      match dict_read key value with
      | VNone => safe_strings keys' value
      | VStr raw =>
          raise_if (is_empty (strip raw) || (512 <? slen raw)) ValueError';;
          raise_if (has_control raw) ValueError';;
          rest ← safe_strings keys' value;
          Ok ((key, VStr (strip raw)) :: rest)
      | _ => Err ValueError'
      end
  end.

Definition _safe_document_metadata (value : pyval) : res exn (list (string * pyval)) :=
  match value with
  | VNone => Ok []
  | VDict items =>
      result ← safe_strings ["object_key"; "object_source_id"; "created_by"] items;
      match dict_read "byte_size" items with
      | VNone => Ok result
      | VInt n => raise_if (negb ((0 <=? n) && (n <=? 50 * 1024 * 1024))) ValueError';; Ok (result ++ [("byte_size", VInt n)])
      | _ => Err ValueError'
      end
  | _ => Err ValueError'
  end.

(** ** Artifacts of a checkpoint *)

Definition page_value (p : Z * string) : pyval := VDict [("page_number", VInt (fst p)); ("text", VStr (snd p))].
Definition parsed_value (p : ParsedDocument) : pyval :=
  VDict [("text", VStr (pd_text p)); ("pages", VList (map page_value (pd_pages p)))].

Definition page_of (v : pyval) : res exn (Z * string) :=
  match v with
  | VDict items => match dict_read "page_number" items, dict_read "text" items with
                   | VInt n, VStr t => Ok (n, t) | _, _ => Err TypeError end
  | _ => Err TypeError
  end.
Definition parsed_of (v : pyval) : res exn ParsedDocument :=
  match v with
  | VDict items => match dict_read "text" items, dict_read "pages" items with
                   | VStr t, VList l => pages ← res_mapM page_of l; Ok (mk_parsed t pages) | _, _ => Err TypeError end
  | _ => Err TypeError
  end.

Definition plan_value (p : ChunkPlan) : pyval :=
  VDict [("text", VStr (cp_text p)); ("chunk_index", VInt (cp_chunk_index p)); ("page_start", opt_int (cp_page_start p));
         ("checksum", VStr (cp_checksum p)); ("page_end", opt_int (cp_page_end p))].
Definition int_or_none (v : pyval) : res exn (option Z) :=
  match v with VNone => Ok None | VInt n => Ok (Some n) | _ => Err TypeError end.
Definition plan_of (v : pyval) : res exn ChunkPlan :=
  match v with
  | VDict items =>
      page_start ← int_or_none (dict_read "page_start" items);
      page_end ← int_or_none (dict_read "page_end" items);
      match dict_read "text" items, dict_read "chunk_index" items, dict_read "checksum" items with
      | VStr t, VInt i, VStr c => Ok (mk_plan t i page_start c page_end)
      | _, _, _ => Err TypeError
      end
  | _ => Err TypeError
  end.
Definition plans_of (v : pyval) : res exn (list ChunkPlan) :=
  match v with VList l => res_mapM plan_of l | _ => Err TypeError end.

Section pipeline.
Context (d : adapters).

(** ** Starting an attempt *)

(** [metadata.update(other)]. *)
Definition update_meta (other : list (string * pyval)) : IngestionJob -> IngestionJob :=
  with_metadata (fun m => fold_left (fun acc kv => dict_set (fst kv) (snd kv) acc) other m).

Definition queue_facts (j : IngestionJob) : IngestionJob :=
  with_times (match dict_get "queue_attempt" (ij_metadata j) with Some (VInt n) => n | _ => ij_attempt j end)
    (match dict_get "queue_created_at" (ij_metadata j) with Some (VFloat t) => t | _ => ij_created_at j end)
    (match dict_get "queue_started_at" (ij_metadata j) with
     | Some (VFloat t) => Some t | Some VNone => None | _ => ij_started_at j end) j.

Definition fresh_attempt (recovery : list (string * pyval)) (w : world) : string :=
  match dict_get "publication_attempt" recovery with
  | Some (VStr s) => if is_empty s then uuid4_hex d (w_trace w) else s
  | _ => uuid4_hex d (w_trace w)
  end.

Definition attempt_job (args : ingest_args) (tenant_id collection_id : string) (recovered : option IngestionJob) (w : world)
    : IngestionJob :=
  let j := IngestionJob_new tenant_id (ia_workspace_id args) collection_id
             (from_option id ("ing-" +:+ stake 12 (uuid4_hex d (w_trace w))) (ia_job_id args)) (clock d (w_trace w)) in
  let j := match recovered with
           | Some r => update_meta (ij_metadata r) (with_times (ij_attempt r + 1) (ij_created_at r) (ij_started_at j) j)
           | None => j
           end in
  queue_facts (update_meta (ia_recovery_metadata args) j).

(** The attempt taken over from a checkpoint: its identity, and whether it has
    outputs. *)
Definition resume (args : ingest_args) (a : addr) (attempt_id : string) (recovered : option IngestionJob)
    (checkpoint : option Checkpoint) : IM (string * bool) :=
  j ← job a;
  match checkpoint with
  | None => mret (attempt_id, false)
  | Some c =>
      let saved := ck_job_snapshot c in
      if match recovered with None => true | Some _ => sn_attempt saved =? ij_attempt j end then
        let canonical := dict_read "queue_attempt" (ia_recovery_metadata args) in
        if (bool_decide (ck_state c = active) || bool_decide (ck_state c = c_cancelled))
           && (is_none canonical || py_eqb canonical (VInt (sn_attempt saved))) then
          guard_not match dict_get "publication_attempt" (ia_recovery_metadata args) with
                    | Some v => negb (is_str v (ck_attempt_id c))
                    | None => false
                    end OwnershipLost;;
          change a (fun j => with_cancel_requested (ck_cancel_requested c) (with_saved saved j));;
          mret (ck_attempt_id c, negb (bool_decide (length (ck_artifacts c) = 0%nat)))
        else if is_none canonical then
          change a (fun j => with_times (sn_attempt saved + 1) (sn_created_at saved) (ij_started_at j) j);;
          mret (attempt_id, false)
        else mret (attempt_id, false)
      else mret (attempt_id, false)
  end.

Definition base_event (args : ingest_args) (job_id collection_id : string) : list (string * pyval) :=
  [("job_id", VStr job_id); ("workspace_id", VStr (ia_workspace_id args)); ("collection_id", VStr collection_id);
   ("request_id", opt_text (ia_request_id args)); ("correlation_id", opt_text (ia_correlation_id args))].

(** What the stages of an attempt work with. *)
Record attempt_context : Type := mk_context {
  ac_checkpoint : option Checkpoint; ac_resumed : bool; ac_metadata : list (string * pyval) }.

(** The job of the attempt, with its checkpoint; it is registered last. *)
Definition begin_attempt (args : ingest_args) (tenant_id collection_id : string) (recovered : option IngestionJob)
    : IM attempt_context :=
  metadata ← lift (_safe_document_metadata (ia_document_metadata args));
  attempt_id ← gets (fresh_attempt (ia_recovery_metadata args));
  j ← gets (attempt_job args tenant_id collection_id recovered);
  a ← new_job j;
  checkpoint ← checkpoint_if_offered d (job_key j);
  resumed ← resume args a attempt_id recovered checkpoint;
  let '(attempt_id, resumed) := resumed in
  change a (set_meta "publication_attempt" (VStr attempt_id));;
  j ← job a;
  lift_k (publication_snapshot j None);;
  checkpoint ← (if offers d "begin_ingestion_checkpoint" then
                  begun ← call_out d (BeginCheckpoint j);
                  change a (with_cancel_requested (ck_cancel_requested begun));;
                  mret (Some begun)
                else mret checkpoint);
  _register_job d a;;
  modify (set_frame (mk_frame a tenant_id (ia_workspace_id args) collection_id attempt_id None false false false None
                       (base_event args (ij_job_id j) collection_id) (ia_callbacks args)));;
  mret (mk_context checkpoint resumed (dict_set ATTEMPT_METADATA_KEY (VStr attempt_id) metadata)).

(** ** Validation and identity *)

Record prepared : Type := mk_prepared {
  pr_document_id : string; pr_checksum : string; pr_metadata : list (string * pyval);
  pr_schema : option (bool * pyval); pr_existing : option Document; pr_phase : phase }.

Definition validate_source (a : addr) (callbacks : bool * bool) : IM string :=
  f ← frame_now;
  emit_event d "ingestion.start" [("stage", VStr "validating")];;
  advance d a callbacks "validating" (lit 5 100);;
  call_out d ValidateFile;;
  _checkpoint d a callbacks;;
  checksum ← call_out d ChecksumFile;
  collection ← call_out d (GetCollection (f_tenant_id f) (f_workspace_id f) (f_collection_id f));
  guard_not match collection with Some c => negb (str_eqb (co_status c) "active") | None => false end archived_error;;
  mret checksum.

Definition prepare_schema (a : addr) : IM (option (bool * pyval)) :=
  if offers d "prepare_index" then
    schema ← call_out d (PrepareIndex (embedding_dimensions d));
    change a (set_meta "index_mode" (VStr (if (fst schema : bool) then "hybrid" else "dense")));;
    mret (Some schema)
  else mret None.

(** The identities of the content, and the metadata that names its index. *)
Definition content_identity (a : addr) (f : frame) (checksum : string) (metadata : list (string * pyval))
    : IM (string * string * list (string * pyval)) :=
  document_id ← or_raise ValueError'
    (document_id_for_content (f_workspace_id f) (f_collection_id f) checksum (f_tenant_id f));
  legacy_id ← or_raise ValueError'
    (legacy_document_id_for_content (f_workspace_id f) (f_collection_id f) checksum (f_tenant_id f));
  if offers d "ingestion_index_key" then
    contract ← call_out d (IndexKey (embedding_model d) (embedding_version d));
    change a (set_meta "index_contract" (VStr contract));;
    mret (indexed_document_id document_id contract, indexed_document_id legacy_id contract,
          dict_set "index_contract" (VStr contract) (dict_set "vector_index" (VStr (vectors_collection d)) metadata))
  else mret (document_id, legacy_id, metadata).

(** A row of the first version keeps its identity when the complete scope and
    the content agree. *)
Definition legacy_owner (f : frame) (checksum : string) (legacy : option Document) : bool :=
  match legacy with
  | Some l => str_eqb (d_tenant_id l) (f_tenant_id f) && str_eqb (d_workspace_id l) (f_workspace_id f)
              && str_eqb (d_collection_id l) (f_collection_id f) && str_eqb (d_content_checksum l) checksum
  | None => false
  end.

Definition resolve_identity (a : addr) (f : frame) (checksum document_id legacy_id : string) : IM string :=
  legacy ← get_document d legacy_id (f_tenant_id f) (f_workspace_id f);
  if legacy_owner f checksum legacy then
    change a (set_meta "identity_encoding" (VStr "legacy-v1"));; mret legacy_id
  else
    change a (set_meta "identity_encoding"
      (VStr (if str_eqb document_id legacy_id then "legacy-compatible-v1" else "tuple-v2")));;
    mret document_id.

Definition fingerprint_of (j : IngestionJob) (document_id checksum : string) (metadata : list (string * pyval)) : pyval :=
  VDict [("checksum", VStr checksum); ("document_id", VStr document_id); ("parser_version", VStr (parser_version d));
         ("chunker_version", VStr (chunker_version d)); ("chunker_type", VStr (chunker_type d));
         ("chunker_options", chunker_options d);
         ("parser_limits", from_option id (default_parser_limits d) (parser_limits d));
         ("embedding_model", VStr (embedding_model d)); ("embedding_version", VStr (embedding_version d));
         ("dimensions", embedding_dimensions d); ("index_contract", meta "index_contract" j);
         ("declared_mime", opt_text (declared_mime d)); ("filename", VStr (display_filename d));
         ("document_metadata", VDict metadata)].

Definition open_phase (a : addr) (callbacks : bool * bool) (checkpoint : option Checkpoint) (document_id checksum : string)
    (metadata : list (string * pyval)) : IM phase :=
  match checkpoint with
  | None => mret None
  | Some c =>
      j ← job a;
      saved ← save_checkpoint d a (fingerprint_of j document_id checksum metadata) (ck_artifacts c);
      _checkpoint d a callbacks;;
      mret (Some (ck_fingerprint saved, ck_artifacts saved))
  end.

Definition prepare (args : ingest_args) (ctx : attempt_context) : IM prepared :=
  f ← frame_now;
  let a := f_job f in
  checksum ← validate_source a (ia_callbacks args);
  schema ← prepare_schema a;
  ids ← content_identity a f checksum (ac_metadata ctx);
  let '(document_id, legacy_id, metadata) := ids in
  change_frame (frame_document (Some document_id));;
  document_id ← resolve_identity a f checksum document_id legacy_id;
  change_frame (frame_document (Some document_id));;
  change a (with_document_id (Some document_id));;
  existing ← get_document d document_id (f_tenant_id f) (f_workspace_id f);
  ph ← open_phase a (ia_callbacks args) (ac_checkpoint ctx) document_id checksum metadata;
  mret (mk_prepared document_id checksum metadata schema existing ph).

(** ** Parsing, chunking, embedding *)

(** [execute_parser]: only a [ParseError] keeps its text. *)
Definition parser_failure (e : exn) : exn :=
  match e with
  | ParseError _ _ => e
  | TimeoutError => ParseError "parser_timeout" "Document parser exceeded its time limit."
  | _ => if is_exception e then ParseError "ingestion_failed" "Could not parse document." else e
  end.

Fixpoint send_beats (a : addr) (callbacks : bool * bool) (beats : list (list (string * pyval))) : IM unit :=
  match beats with
  | [] => mret tt
  | fields :: beats' => heartbeat d a callbacks fields;; send_beats a callbacks beats'
  end.

(** The parser sends heartbeats while it runs; what they raise reaches it. *)
Definition execute_parser (a : addr) (callbacks : bool * bool) : IM ParsedDocument :=
  catching (fun _ => true)
    (beats ← call_out d ParserBeats;
     sent ← attempt (send_beats a callbacks beats);
     call_out d (ParserResult (match sent with Ok _ => None | Err e => Some e end)))
    (fun e => raise (parser_failure e)).

(** Saves an output in the phase. *)
Definition save_output (a : addr) (callbacks : bool * bool) (ph : phase) (key : string) (v : pyval) : IM phase :=
  match ph with
  | None => mret None
  | Some (fingerprint, artifacts) =>
      let artifacts := dict_set key v artifacts in
      save_checkpoint d a fingerprint artifacts;;
      _checkpoint d a callbacks;;
      mret (Some (fingerprint, artifacts))
  end.

Definition artifact (key : string) (ph : phase) : option pyval :=
  match ph with Some (_, artifacts) => dict_get key artifacts | None => None end.

Definition parse_stage (a : addr) (callbacks : bool * bool) (ph : phase) : IM (ParsedDocument * phase) :=
  advance d a callbacks "parsing" (lit 15 100);;
  heartbeat d a callbacks [];;
  call_out d ParserFor;;
  match artifact "parsed" ph with
  | Some raw => parsed ← lift (parsed_of raw); mret (parsed, ph)
  | None =>
      parsed ← execute_parser a callbacks;
      ph ← save_output a callbacks ph "parsed" (parsed_value parsed);
      mret (parsed, ph)
  end.

Definition run_chunker (parsed : ParsedDocument) (document_id : string) : IM (list ChunkPlan) :=
  if offers d "chunk" then call_out d (ChunkText (pd_text parsed) (pd_pages parsed) document_id)
  else mret (chunk (pd_pages parsed) DEFAULT_CHUNK_SIZE DEFAULT_OVERLAP).

Definition chunk_stage (a : addr) (callbacks : bool * bool) (ph : phase) (parsed : ParsedDocument) (document_id : string)
    : IM (list ChunkPlan * phase) :=
  advance d a callbacks "chunking" (lit 35 100);;
  match artifact "plans" ph with
  | Some raw => plans ← lift (plans_of raw); mret (plans, ph)
  | None =>
      plans ← run_chunker parsed document_id;
      guard_not (bool_decide (length plans = 0%nat)) (ParseError "validation_error" "Document produced no chunks.");;
      ph ← save_output a callbacks ph "plans" (VList (map plan_value plans));
      mret (plans, ph)
  end.

Definition outputs (a : addr) (callbacks : bool * bool) (pr : prepared) : IM (list ChunkPlan * list pyval * phase) :=
  parsed ← parse_stage a callbacks (pr_phase pr);
  plans ← chunk_stage a callbacks (snd parsed) (fst parsed) (pr_document_id pr);
  advance d a callbacks "embedding" (lit 55 100);;
  vectors ← _embed_in_batches d a callbacks (snd plans) (fst plans);
  mret (fst plans, fst vectors, snd vectors).

(** ** Claiming the document *)

Definition new_document (f : frame) (pr : prepared) (w : world) : Document :=
  mk_document (pr_document_id pr) (f_workspace_id f) (f_collection_id f) (f_tenant_id f)
    (document_version (pr_checksum pr)) (pr_checksum pr) (display_filename d) (display_filename d) (display_filename d)
    (str_or (source_suffix d) "unknown") EmptyString None "processing" (parser_version d) (chunker_version d)
    (embedding_model d) (embedding_version d) (pr_metadata pr) EmptyString EmptyString
    (Some (fst (utc d (w_trace w)))) None.

Definition new_collection (f : frame) (pr : prepared) : Collection :=
  mk_collection (f_workspace_id f) (f_collection_id f) (f_tenant_id f) (f_collection_id f) EmptyString "active" 1
    (match dict_get "created_by" (pr_metadata pr) with Some v => [("created_by", v)] | None => [] end).

Definition owned_by (attempt_id : string) (doc : Document) : bool := is_str (attempt_of doc) attempt_id.

Definition require_document_owner (f : frame) (document_id : string) : IM unit :=
  found ← get_document d document_id (f_tenant_id f) (f_workspace_id f);
  lift_k (require_owner found (f_attempt_id f)).

(** Under the document's guard: [None] when another attempt has published it,
    otherwise the document as it was stored. *)
Definition claim_guarded (a : addr) (callbacks : bool * bool) (f : frame) (resumed : bool) (document : Document)
    : IM (option Document) :=
  let document_id := d_document_id document in
  _checkpoint d a callbacks;;
  collection ← call_out d (GetCollection (f_tenant_id f) (f_workspace_id f) (f_collection_id f));
  guard_not (negb (active_collection collection)) archived_error;;
  current ← get_document d document_id (f_tenant_id f) (f_workspace_id f);
  if is_published current then mret None
  else
    guard_not match current with Some c => str_eqb (d_status c) "deleted" | None => false end
      (ParseError "validation_error" "Deleted document cannot be reingested.");;
    guard_not match current with Some c => resumed && negb (owned_by (f_attempt_id f) c) | None => false end OwnershipLost;;
    let document := match current with Some c => if resumed : bool then c else document | None => document end in
    change_frame frame_written;;
    document ← call_out d (UpsertDocument document);
    require_document_owner f document_id;;
    when (match current with Some c => negb (owned_by (f_attempt_id f) c) | None => false end)
      (delete_vectors d document_id (f_collection_id f) (f_tenant_id f) (f_workspace_id f);;
       require_document_owner f document_id);;
    mret (Some document).

Definition claim (a : addr) (callbacks : bool * bool) (ctx : attempt_context) (pr : prepared) : IM (option Document) :=
  f ← frame_now;
  advance d a callbacks "indexing" (lit 75 100);;
  document ← gets (new_document f pr);
  collection ← call_out d (EnsureCollection (new_collection f pr));
  guard_not (negb (str_eqb (co_status collection) "active")) archived_error;;
  with_guard d (GDocument (pr_document_id pr)) (claim_guarded a callbacks f (ac_resumed ctx) document).

(** ** Indexing *)

Definition knowledge_chunk (f : frame) (document_id : string) (p : ChunkPlan) : Chunk :=
  mk_chunk (chunk_id_for_document document_id (cp_chunk_index p)) document_id (f_tenant_id f) None (cp_chunk_index p)
    (cp_text p) (cp_page_start p) (match cp_page_end p with Some e => Some e | None => cp_page_start p end) None None 0
    (cp_checksum p) (parser_version d) (chunker_version d) (embedding_version d) EmptyString [].

Definition own_guard {A} (a : addr) (callbacks : bool * bool) (f : frame) (document_id : string) (body : IM A) : IM A :=
  effect_guard d document_id (f_attempt_id f) (f_tenant_id f) (f_workspace_id f) (Some (a, callbacks)) None false body.

(** [type(n) is not int or n != len(batch)]. *)
Definition wrote_all (n : pyval) (batch : list pyval) : bool :=
  match n with VInt k => k =? Z.of_nat (length batch) | _ => false end.

Fixpoint write_batches (a : addr) (callbacks : bool * bool) (f : frame) (document_id : string) (indexed : Z)
    (batches : list (list pyval)) : IM Z :=
  match batches with
  | [] => mret indexed
  | batch :: batches' =>
      written ← own_guard a callbacks f document_id (call_out d (UpsertPoints batch));
      guard_not (negb (wrote_all written batch)) RuntimeError;;
      write_batches a callbacks f document_id (indexed + Z.of_nat (length batch)) batches'
  end.

(** The batches, authorized in the checkpoint before any of them is written. *)
Definition plan_batches (a : addr) (ph : phase) (points : list pyval) : IM (list (list pyval)) :=
  batches ← (if offers d "plan_upsert_batches" then call_out d (PlanBatches points)
             else mret (slices (length points) (Z.to_nat MAX_EMBEDDING_BATCH) points));
  match ph with
  | None => mret tt
  | Some (fingerprint, artifacts) =>
      manifest ← lift (_point_manifest (concat batches));
      save_checkpoint d a fingerprint (dict_set "point_manifest" (VStr manifest) artifacts);; mret tt
  end;;
  mret batches.

Definition index (a : addr) (callbacks : bool * bool) (f : frame) (document : Document) (document_id : string)
    (plans : list ChunkPlan) (vectors : list pyval) (ph : phase) : IM Z :=
  let chunks := map (knowledge_chunk f document_id) plans in
  own_guard a callbacks f document_id
    (replace_document_chunks d document_id chunks (f_tenant_id f) (f_workspace_id f));;
  now ← gets (fun w => utc d (w_trace w));
  points ← lift (expected_points now document chunks vectors);
  batches ← plan_batches a ph points;
  indexed ← write_batches a callbacks f document_id 0 batches;
  change_frame (frame_counts (Z.of_nat (length chunks)) indexed);;
  mret (Z.of_nat (length chunks)).

(** ** Verification and publication *)

(** [count < n]. *)
Definition below (count : pyval) (n : Z) : res exn bool :=
  match count with
  | VInt k => Ok (k <? n)
  | VBool b => Ok ((if b then 1 else 0) <? n)
  | VFloat x => Ok (flt x (to_float (n * scale) 1))
  | _ => Err TypeError
  end.

Definition schema_eqb (a b : bool * pyval) : bool := Bool.eqb (fst a) (fst b) && py_eqb (snd a) (snd b).

Definition verify (a : addr) (callbacks : bool * bool) (f : frame) (pr : prepared) (chunk_count : Z) : IM unit :=
  advance d a callbacks "verifying" (lit 9 10);;
  count ← count_vectors d (pr_document_id pr) (f_collection_id f) (f_tenant_id f) (f_workspace_id f);
  missing ← lift (below count chunk_count);
  guard_not missing RuntimeError;;
  match pr_schema pr with
  | Some schema =>
      again ← call_out d (PrepareIndex (embedding_dimensions d));
      guard_not (negb (schema_eqb again schema)) RuntimeError
  | None => mret tt
  end.

(** The decision: a pending receipt of this attempt that nobody cancelled, then
    the document is published and the commit projected on the job. *)
Definition decide_publication (a : addr) (callbacks : bool * bool) (f : frame) (document_id : string) (chunk_count : Z)
    : IM unit :=
  with_lock d
    (_checkpoint d a callbacks;;
     j ← job a;
     when (offers d "begin_publication") (call_out d (BeginPublication j None chunk_count));;
     change_frame frame_attempted;;
     add_pending (ij_job_id j);;
     when (offers d "begin_publication")
       (found ← call_out d (GetPublication (frame_key f j));
        match found with
        | None => mret tt
        | Some receipt =>
            guard_not (negb (str_eqb (rc_attempt_id receipt) (f_attempt_id f))
                       || negb (bool_decide (rc_outcome receipt = pending))) OwnershipLost;;
            when (rc_cancel_requested receipt) (change a (with_cancel_requested true);; raise CancellationRequested)
        end);;
     set_document_status d document_id "published" (f_tenant_id f) (f_workspace_id f);;
     change_frame (frame_committed true);;
     project_publication d a (frame_key f j)).

Definition publish (args : ingest_args) (a : addr) (f : frame) (pr : prepared) (chunk_count : Z) : IM addr :=
  verify a (ia_callbacks args) f pr chunk_count;;
  with_publication_guard d args
    (with_guard d (GCollection (f_tenant_id f) (f_workspace_id f) (f_collection_id f))
       (own_guard a (ia_callbacks args) f (pr_document_id pr)
          (decide_publication a (ia_callbacks args) f (pr_document_id pr) chunk_count)));;
  finish_publication d false.

(** ** The whole attempt *)

Definition run_attempt (args : ingest_args) (ctx : attempt_context) : IM addr :=
  f ← frame_now;
  let a := f_job f in
  let callbacks := ia_callbacks args in
  pr ← prepare args ctx;
  if is_published (pr_existing pr) then publish_duplicate d args
  else
    produced ← outputs a callbacks pr;
    let '(plans, vectors, ph) := produced in
    claimed ← claim a callbacks ctx pr;
    match claimed with
    | None => publish_duplicate d args
    | Some document =>
        chunk_count ← index a callbacks f document (pr_document_id pr) plans vectors ph;
        publish args a f pr chunk_count
    end.

(** [except (Exception, CancelledError) as exc]. *)
Definition handle_failure (args : ingest_args) (e : exn) : IM addr :=
  f ← frame_now;
  lost ← (if f_publication_committed f then mret false
          else match e with
               | ExecutionOwnershipLost => mret true
               | _ => if fst (ia_callbacks args) then call_out d LeaseLost else mret false
               end);
  if (lost : bool) then raise ExecutionOwnershipLost
  else if is_ownership e && negb (f_document_written f) then raise e
  else recover_attempt d e.

(** The [finally] of an attempt. *)
Definition release_pending : IM unit :=
  f ← frame_now;
  with_lock d
    (j ← job (f_job f);
     modify (fun w => if match dict_get (ij_job_id j) (w_recovery w) with Some _ => true | None => false end then w
                      else set_pending (List.filter (fun i => negb (str_eqb i (ij_job_id j))) (w_pending w)) w)).

Definition finally {A} (m : IM A) (cleanup : IM unit) : IM A :=
  r ← attempt m;
  cleanup;;
  lift r.

Definition _ingest (args : ingest_args) : IM addr :=
  tenant_id ← or_raise ValueError' (normalize_tenant_id (ia_tenant_id args));
  collection_id ← or_raise ValueError' (normalize_collection_id (ia_collection_id args));
  recovered ← (match ia_job_id args with
               | Some job_id => recover_publication d job_id tenant_id (ia_workspace_id args) collection_id NoSnapshot
               | None => mret None
               end);
  status ← (match recovered with Some r => j ← job r; mret (ij_status j) | None => mret EmptyString end);
  match recovered with
  | Some r =>
      if str_in status ["verifying"; "published"; "cancelled"] then mret r
      else
        previous ← job r;
        ctx ← begin_attempt args tenant_id collection_id (Some previous);
        finally (catching caught (run_attempt args ctx) (handle_failure args)) release_pending
  | None =>
      ctx ← begin_attempt args tenant_id collection_id None;
      finally (catching caught (run_attempt args ctx) (handle_failure args)) release_pending
  end.

(** ** The service's operations *)

Definition ingest (args : ingest_args) : IM addr := _ingest args.

Definition reconcile_publication (job_id : string) : IM (option addr) :=
  finally
    (recovery ← gets (fun w => dict_get job_id (w_recovery w));
     match recovery with
     | Some (f, e) => modify (set_frame f);; a ← recover_attempt d e; mret (Some a)
     | None =>
         found ← get_status job_id;
         match found with
         | Some a =>
             j ← job a;
             if py_truthy (meta "publication_outcome_unknown" j) || py_truthy (meta "retirement_pending" j)
             then recover_publication d job_id (ij_tenant_id j) (ij_workspace_id j) (ij_collection_id j) (Live a)
             else mret (Some a)
         | None => mret None
         end
     end)
    (with_lock d
       (found ← get_status job_id;
        unknown ← (match found with Some a => j ← job a; mret (py_truthy (meta "publication_outcome_unknown" j))
                   | None => mret false end);
        modify (fun w =>
          if match dict_get job_id (w_recovery w) with Some _ => true | None => false end || unknown then w
          else set_pending (List.filter (fun i => negb (str_eqb i job_id)) (w_pending w)) w))).

Definition with_recovery_metadata (m : list (string * pyval)) (args : ingest_args) : ingest_args :=
  mk_args (ia_workspace_id args) (ia_collection_id args) (ia_tenant_id args) (ia_job_id args) (ia_request_id args)
    (ia_correlation_id args) (ia_callbacks args) (ia_guard args) (ia_document_metadata args) m.

Definition replacement_metadata (document_id : string) (previous : option Document) (m : list (string * pyval))
    : list (string * pyval) :=
  match previous with
  | Some p => dict_set "retirement_pending" (VBool true)
                (dict_set "previous_document_attempt" (attempt_of p) (dict_set "previous_document_id" (VStr document_id) m))
  | None => m
  end.

Definition reindex (document_id : string) (args : ingest_args) : IM addr :=
  previous ← get_document d document_id (ia_tenant_id args) (ia_workspace_id args);
  match previous with
  | Some p =>
      collection_id ← or_raise ValueError' (normalize_collection_id (ia_collection_id args));
      guard_not (negb (str_eqb (d_tenant_id p) (ia_tenant_id args) && str_eqb (d_workspace_id p) (ia_workspace_id args)
                       && str_eqb (d_collection_id p) collection_id)) OwnershipLost
  | None => mret tt
  end;;
  a ← ingest (with_recovery_metadata (replacement_metadata document_id previous (ia_recovery_metadata args)) args);
  catching caught
    (_finalize_reindex d a document_id previous (ia_tenant_id args) (ia_workspace_id args) (ia_collection_id args)
       (snd (ia_callbacks args));;
     j ← job a;
     when (str_eqb (ij_status j) "published") (call_out d (SavePublicationSnapshot j)))
    (fun _ =>
       j ← job a;
       when (str_eqb (ij_status j) "published")
         (change a (set_meta "retirement_deferred" (VStr "lock_unavailable"));;
          mark a "retirement_error_after_commit";;
          change a (set_meta "previous_document_id" (VStr document_id));;
          j ← job a;
          catching caught (call_out d (SavePublicationSnapshot j)) (fun _ => mark a "publication_snapshot_pending")));;
  mret a.
End pipeline.

(** ** Runs of the service *)

Inductive service_call : Type :=
| Call_ingest (args : ingest_args)
| Call_reindex (document_id : string) (args : ingest_args)
| Call_cancel (job_id : string)
| Call_reconcile (job_id : string)
| Call_recover (job_id tenant_id workspace_id collection_id : string) (snapshot : option IngestionJob).

Definition service_do (d : adapters) (w : world) (c : service_call) : world :=
  match c with
  | Call_ingest args => exec (ingest d args) w
  | Call_reindex document_id args => exec (reindex d document_id args) w
  | Call_cancel job_id => exec (cancel d job_id) w
  | Call_reconcile job_id => exec (reconcile_publication d job_id) w
  | Call_recover job_id tenant_id workspace_id collection_id snapshot =>
      exec (recover_publication d job_id tenant_id workspace_id collection_id
              (match snapshot with Some j => Detached j | None => NoSnapshot end)) w
  end.

Definition service_run (d : adapters) (w : world) (calls : list service_call) : world := fold_left (service_do d) calls w.

(** A new service: no job, and no local variable yet. *)
Definition no_frame : frame :=
  mk_frame 0%nat EmptyString EmptyString EmptyString EmptyString None false false false None [] (false, false).
Definition new_service : world := mk_world [] [] [] [] [] 0%nat (mk_locals no_frame None false ([], false, false)).
