(* ===== verification/IngestLogic.v ===== *)
(** * Reasoning about one run of the ingestion pipeline

    The relations between worlds that every neutral operation respects, and the fence: every
    effect on a document is made while its guard, or its receipt's, is held. *)

From Stdlib Require Import Ascii String.
From stdpp Require Import strings list.
From S2P Require Import Prelude PyFloat PyStr PyVal IngestionJobs StateError KnowledgeModels Publication Chunking.
From S2P Require Import IngestPorts IngestRetire IngestRecover IngestPipeline.

Local Open Scope string_scope.
Local Open Scope Z_scope.
Local Open Scope list_scope.

(** ** Reasoning about runs of the pipeline

    Most of the pipeline is neutral: it reads, keeps its books and emits
    events.  [Neutral] is what a relation between worlds needs so that every
    neutral step respects it; the lemmas below carry a relation through the
    neutral operations once and for all. *)

(** Every call but the effects on documents, the index and the guards. *)
Definition mild {A} (c : call A) : bool :=
  match c with
  | SetStatus _ _ _ | UpsertPoints _ | DeleteVectors _ _ _ | ReplaceChunks _ _ _ | UpsertDocument _ | DeleteRow _ _
  | Enter _ | Exit _ => false
  | _ => true
  end.

(** A change of a job that publishes nothing. *)
Definition tame (f : IngestionJob -> IngestionJob) : Prop :=
  forall j, ij_status (f j) = "published" -> ij_status j = "published" /\ job_key (f j) = job_key j.

(** The jobs of [w'] that are published were so in [w]. *)
Definition tamer (w w' : world) : Prop :=
  forall a, ij_status (job_at a w') = "published" ->
  ij_status (job_at a w) = "published" /\ job_key (job_at a w') = job_key (job_at a w).

(** Whether the retirement of the running recovery has started to delete. *)
Definition started (w : world) : bool := snd (fst (l_retirement (w_locals w))).

Class Neutral (R : world -> world -> Prop) : Prop := {
  neutral_order :: PreOrder R;
  neutral_books : forall w w', w_trace w' = w_trace w -> started w' = started w -> tamer w w' -> R w w';
  neutral_mild : forall A (c : call A) r w, mild c = true -> R w (push (Ev c r) w) }.

Lemma tamer_same w w' : w_heap w' = w_heap w -> tamer w w'.
Proof. intros H a. unfold job_at. rewrite H. auto. Qed.

Lemma job_at_update a b f w :
  job_at b (update_job a f w) = if decide (a = b /\ (a < length (w_heap w))%nat) then f (job_at a w) else job_at b w.
Proof.
  unfold job_at, update_job. cbn. rewrite !nth_lookup.
  destruct (decide (a = b /\ (a < length (w_heap w))%nat)) as [[<- Hlt]|Hn].
  - rewrite list_lookup_insert_eq by exact Hlt. cbn. unfold job_at. now rewrite nth_lookup.
  - destruct (decide (a = b)) as [<-|Hne]; [|now rewrite list_lookup_insert_ne].
    rewrite list_insert_ge by (destruct (decide (a < length (w_heap w))%nat); [destruct Hn; auto | lia]). reflexivity.
Qed.

Lemma tamer_update a f w : tame f -> tamer w (update_job a f w).
Proof.
  intros Hf b. rewrite job_at_update. destruct (decide _) as [[<- _]|_]; [apply Hf | auto].
Qed.

Lemma tamer_alloc j w : ij_status j <> "published" -> tamer w (set_heap (w_heap w ++ [j]) w).
Proof.
  intros Hj a. unfold job_at. cbn. rewrite !nth_lookup.
  destruct (decide (a < length (w_heap w))%nat) as [Hlt|Hge].
  - rewrite lookup_app_l by exact Hlt. auto.
  - rewrite lookup_app_r by lia. destruct (a - length (w_heap w))%nat as [|n]; cbn; [congruence|].
    intros H. discriminate H.
Qed.

(** ** Control *)

Section control.
Context {R : world -> world -> Prop} `{!Neutral R}.

Lemma respects_attempt {A} (m : IM A) : respects R m -> respects R (attempt m).
Proof. intros H w. specialize (H w). unfold exec, attempt in *. now destruct (m w). Qed.

Lemma respects_try {A} (m : IM A) h : respects R m -> (forall e, respects R (h e)) -> respects R (try_except m h).
Proof.
  intros Hm Hh w. specialize (Hm w). unfold exec, try_except in *.
  destruct (m w) as [w' [a|e]]; cbn in *; [exact Hm|]. etrans; [exact Hm | apply Hh].
Qed.

Lemma respects_catching {A} p (m : IM A) h : respects R m -> (forall e, respects R (h e)) -> respects R (catching p m h).
Proof.
  intros Hm Hh. apply respects_try; [exact Hm|]. intros e.
  destruct (p e); [apply Hh | apply respects_raise; exact _].
Qed.

Lemma respects_when b (m : IM unit) : respects R m -> respects R (when b m).
Proof. intros H. destruct b; [exact H | apply respects_mret; exact _]. Qed.

Lemma respects_books f :
  (forall w, w_trace (f w) = w_trace w) -> (forall w, started (f w) = started w) -> (forall w, w_heap (f w) = w_heap w) ->
  respects R (modify (E := exn) f).
Proof. intros Ht Hs Hh w. apply neutral_books; [apply Ht | apply Hs | apply tamer_same, Hh]. Qed.

Lemma respects_change a f : tame f -> respects R (change a f).
Proof. intros Hf w. apply neutral_books; [reflexivity | reflexivity | now apply tamer_update]. Qed.

Lemma respects_bind_gets {A B} (f : world -> A) (k : A -> IM B) :
  (forall w, respects R (k (f w))) -> respects R (gets f ≫= k).
Proof. intros H w. apply (H w w). Qed.

Lemma respects_lift_k {A} (r : res k_error A) : respects R (lift_k r).
Proof. apply respects_lift; exact _. Qed.

Lemma respects_job a : respects R (job a).
Proof. apply respects_gets; exact _. Qed.

Lemma respects_new_job j : ij_status j <> "published" -> respects R (new_job j).
Proof.
  intros Hj w. cbv [new_job gets modify mret mbind IM_bind M_bind IM_ret M_ret exec]. cbn. apply neutral_books; [reflexivity | reflexivity | now apply tamer_alloc].
Qed.

Lemma respects_best_effort (m : IM unit) : respects R m -> respects R (best_effort m).
Proof. intros H. apply respects_catching; [exact H | intros e; apply respects_mret; exact _]. Qed.
End control.

(** ** Tame changes *)

Create HintDb tame.
Ltac tame_book := intros ?; cbn; auto; discriminate.

Lemma tame_id : tame id. Proof. tame_book. Qed.
Lemma tame_const j : ij_status j <> "published" -> tame (fun _ => j).
Proof. intros H j'. cbn. intros E. destruct (H E). Qed.
Lemma tame_set_meta k v : tame (set_meta k v). Proof. tame_book. Qed.
Lemma tame_pop_meta k : tame (pop_meta k). Proof. tame_book. Qed.
Lemma tame_with_metadata f : tame (with_metadata f). Proof. tame_book. Qed.
Lemma tame_cancel b : tame (with_cancel_requested b). Proof. tame_book. Qed.
Lemma tame_cancel_or b : tame (fun j => with_cancel_requested (ij_cancel_requested j || b) j). Proof. tame_book. Qed.
Lemma tame_finished t : tame (with_finished_at t). Proof. tame_book. Qed.
Lemma tame_document i : tame (with_document_id i). Proof. tame_book. Qed.
Lemma tame_times a c s : tame (with_times a c s). Proof. tame_book. Qed.
Lemma tame_saved s : tame (with_saved s). Proof. tame_book. Qed.
Lemma tame_status s : s <> "published" -> tame (with_job_status s). Proof. intros H j E. destruct (H E). Qed.
Lemma tame_pending : tame cancellation_cleanup_pending. Proof. tame_book. Qed.
Lemma tame_heartbeat now fields : tame (job_heartbeat now fields). Proof. tame_book. Qed.
Lemma tame_compose f g : tame f -> tame g -> tame (fun j => f (g j)).
Proof. intros Hf Hg j E. apply Hf in E as [E K]. apply Hg in E as [E K']. split; [exact E | congruence]. Qed.
#[export] Hint Resolve tame_id tame_set_meta tame_pop_meta tame_with_metadata tame_cancel tame_cancel_or tame_finished
  tame_document tame_times tame_saved tame_pending tame_heartbeat : tame.

(** ** Calls *)

Section calls.
Context {R : world -> world -> Prop} `{!Neutral R} (d : adapters).

Lemma respects_perform {A} (c : call A) : mild c = true -> respects R (perform d c).
Proof. intros H w. apply neutral_mild, H. Qed.

(** A transition to another status than published, from a known job. *)
Lemma job_transition_status now to ec m p j j' : job_transition now to ec m p j = Ok j' -> ij_status j' = to.
Proof. unfold job_transition. destruct (raise_if _ _) as [u|e]; cbn; [intros [= <-]; reflexivity | discriminate]. Qed.

Lemma respects_transition_now a to ec m p : to <> "published" -> respects R (transition_now d a to ec m p).
Proof.
  intros Hto w. cbv [transition_now job gets lift modify change mbind IM_bind M_bind exec].
  destruct (job_transition _ to ec m p _) as [j'|[]] eqn:E; cbn [fst]; [|reflexivity].
  apply neutral_books; [reflexivity | reflexivity|]. apply tamer_update, tame_const. rewrite (job_transition_status _ _ _ _ _ _ _ E). exact Hto.
Qed.
End calls.

Section cancel.
Context {R : world -> world -> Prop} `{!Neutral R} (d : adapters).

Ltac quietly :=
  repeat first
  [ progress cbv zeta
  | lazymatch goal with
    | |- respects _ (_ ≫= _) => apply respects_bind; [exact _ | | intros ?]
    | |- respects _ (catching _ _ _) => apply respects_catching; [ | intros ?]
    | |- respects _ (when _ _) => apply respects_when
    | |- respects _ (if ?b then _ else _) => destruct b
    | |- respects _ (match ?o with _ => _ end) => destruct o
    end ].

Lemma respects_cancel job_id : respects R (cancel d job_id).
Proof.
  unfold cancel, get_status, mark. quietly; try (apply respects_gets; exact _); try (apply respects_mret; exact _);
  try (apply respects_job); try (apply respects_perform; reflexivity); try (apply respects_change; auto with tame).
  apply respects_transition_now. discriminate.
Qed.

Lemma respects_interleave : respects R (interleave d).
Proof.
  intros w. unfold exec, interleave. destruct (w_locked w); [|cbn; reflexivity].
  destruct (cancels d (w_trace w)) as [i|]; [apply respects_cancel | cbn; reflexivity].
Qed.

(** A call is respected when every record of it is. *)
Lemma respects_call {A} (c : call A) : (forall r w, R w (push (Ev c r) w)) -> respects R (call_out d c).
Proof.
  intros H. apply respects_bind; [exact _ | apply respects_interleave | intros _]. intros w. apply H.
Qed.

Lemma respects_mild {A} (c : call A) : mild c = true -> respects R (call_out d c).
Proof. intros H. apply respects_call. intros r w. now apply neutral_mild. Qed.

Lemma respects_transition a to ec m p : to <> "published" -> respects R (transition d a to ec m p).
Proof. intros H. apply respects_bind; [exact _ | apply respects_interleave | intros _]. now apply respects_transition_now. Qed.

Lemma respects_with_lock {A} (m : IM A) : respects R m -> respects R (with_lock d m).
Proof.
  intros H. unfold with_lock. apply respects_bind; [exact _ | apply respects_interleave | intros _].
  apply respects_bind; [exact _ | apply respects_books; reflexivity | intros _].
  apply respects_bind; [exact _ | now apply respects_attempt | intros r].
  apply respects_bind; [exact _ | apply respects_books; reflexivity | intros _].
  apply respects_lift; exact _.
Qed.
End cancel.

#[export] Hint Resolve respects_mild respects_lift_k respects_job respects_cancel respects_interleave : respects.

(** One step through a program that respects a neutral relation; what it
    cannot decide it leaves. *)
Ltac neutral_step :=
  first
  [ progress cbv zeta
  | lazymatch goal with
    | |- respects _ (_ ≫= _) => apply respects_bind; [exact _ | | intros ?]
    | |- respects _ (catching _ _ _) => apply respects_catching; [ | intros ?]
    | |- respects _ (try_except _ _) => apply respects_try; [ | intros ?]
    | |- respects _ (attempt _) => apply respects_attempt
    | |- respects _ (best_effort _) => apply respects_best_effort
    | |- respects _ (with_lock _ _) => apply respects_with_lock
    | |- respects _ (when _ _) => apply respects_when
    | |- respects _ (if ?b then _ else _) => destruct b
    | |- respects _ (match ?o with _ => _ end) => destruct o
    | |- respects _ (call_out _ _) => apply respects_mild; reflexivity
    | |- respects _ (gets _) => apply respects_gets; exact _
    | |- respects _ (mret _) => apply respects_mret; exact _
    | |- respects _ (raise _) => apply respects_raise; exact _
    | |- respects _ (lift _) => apply respects_lift; exact _
    | |- respects _ (guard_not _ _) => apply respects_guard; exact _
    | |- respects _ (mark _ _) => apply respects_change, tame_set_meta
    | |- respects _ (change _ _) => apply respects_change; solve [auto with tame]
    | |- respects _ (modify _) => apply respects_books; intros ?; reflexivity
    | |- respects _ (new_job _) => apply respects_new_job
    | |- respects _ (transition _ _ _ _ _ _) => apply respects_transition; discriminate
    | |- _ => solve [eauto with respects typeclass_instances]
    end ].
Ltac neutral := repeat neutral_step.

Section operations.
Context {R : world -> world -> Prop} `{!Neutral R} (d : adapters).

Lemma respects_evict : respects R (_evict_jobs d).
Proof. unfold _evict_jobs. neutral. Qed.

Lemma respects_register a : respects R (_register_job d a).
Proof. unfold _register_job. neutral. all: try apply respects_evict. Qed.

Lemma respects_checkpoint a cb : respects R (_checkpoint d a cb).
Proof. unfold _checkpoint. neutral. Qed.

Lemma respects_get_document i t w : respects R (get_document d i t w).
Proof. unfold get_document. neutral. Qed.

Lemma respects_get_chunks i t w : respects R (get_chunks d i t w).
Proof. unfold get_chunks. neutral. Qed.

Lemma respects_count_vectors i c t w : respects R (count_vectors d i c t w).
Proof. unfold count_vectors. neutral. Qed.
End operations.
#[export] Hint Resolve respects_evict respects_register respects_checkpoint respects_get_document respects_get_chunks
  respects_count_vectors : respects.

Section guarded.
Context {R : world -> world -> Prop} `{!Neutral R} (d : adapters).

Lemma respects_confirmed_empty i c t w : respects R (_vectors_confirmed_empty d i c t w).
Proof. unfold _vectors_confirmed_empty. neutral. Qed.
End guarded.
#[export] Hint Resolve respects_confirmed_empty : respects.

(** ** Runs of calls and guards *)

Section runs.
Context (d : adapters).

Lemma interleave_ok w : interleave d w = (exec (interleave d) w, Ok tt).
Proof. unfold exec, interleave. destruct (w_locked w); [|reflexivity]. now destruct (cancels d (w_trace w)). Qed.

Lemma call_out_run {A} (c : call A) w :
  let w0 := exec (interleave d) w in
  let r := answer d A c (w_trace w0) in call_out d c w = (push (Ev c r) w0, r).
Proof. cbv zeta. unfold call_out. cbv [mbind IM_bind M_bind]. rewrite interleave_ok. reflexivity. Qed.

(** The worlds a guarded body starts from and ends in. *)
Definition entered (g : guard) (w : world) : res exn unit * world :=
  let w0 := exec (interleave d) w in
  let r := answer d unit (Enter g) (w_trace w0) in (r, push (Ev (Enter g) r) w0).
Definition left_guard (g : guard) (w : world) : world :=
  let w0 := exec (interleave d) w in push (Ev (Exit g) (answer d unit (Exit g) (w_trace w0))) w0.

Lemma exec_with_guard {A} g (body : IM A) w :
  exec (with_guard d g body) w =
  match fst (entered g w) with
  | Ok _ => left_guard g (exec body (snd (entered g w)))
  | Err _ => snd (entered g w)
  end.
Proof.
  unfold exec at 1, with_guard, attempt. cbv [mbind IM_bind M_bind]. rewrite (call_out_run (Enter g) w).
  unfold entered. cbv zeta. cbn [fst snd].
  destruct (answer d unit (Enter g) _) as [u|e]; [|reflexivity].
  unfold exec. destruct (body _) as [w2 r2]. cbn [fst]. rewrite (call_out_run (Exit g) w2). unfold left_guard, exec.
  cbv zeta. destruct (answer d unit (Exit g) _); reflexivity.
Qed.
End runs.

(** ** Neutral parts of the pipeline

    What neither writes to a document nor decides a publication respects every
    neutral relation; what writes to documents without publishing or hiding
    one respects every lenient relation. *)

Section neutral_points.
Context {R : world -> world -> Prop} `{!Neutral R} (d : adapters).

Lemma respects_or_raise {A} e (o : option A) : respects R (or_raise e o).
Proof. unfold or_raise. neutral. Qed.

Lemma respects_snapshot i c t w : respects R (_snapshot_points d i c t w).
Proof. unfold _snapshot_points, unavailable. neutral. Qed.

Lemma respects_save_checkpoint a f x : respects R (save_checkpoint d a f x).
Proof. unfold save_checkpoint. neutral. Qed.

Lemma respects_embed_batch b : respects R (embed_batch d b).
Proof. unfold embed_batch. neutral. Qed.
End neutral_points.
#[export] Hint Resolve respects_or_raise respects_snapshot respects_save_checkpoint respects_embed_batch : respects.

Section neutral_embedding.
Context {R : world -> world -> Prop} `{!Neutral R} (d : adapters).

Lemma respects_embed_from fuel : forall a cb ph texts vectors, respects R (embed_from d fuel a cb ph texts vectors).
Proof. induction fuel; intros; cbn [embed_from]; neutral. Qed.

Lemma respects_embed a cb ph plans : respects R (_embed_in_batches d a cb ph plans).
Proof. unfold _embed_in_batches. neutral. apply respects_embed_from. Qed.

Lemma respects_advance a cb s p : s <> "published" -> respects R (advance d a cb s p).
Proof. intros H. unfold advance. neutral. now apply respects_transition. Qed.

Lemma respects_heartbeat a cb fields : respects R (heartbeat d a cb fields).
Proof. unfold heartbeat. neutral. Qed.

Lemma respects_emit k fields : respects R (emit_event d k fields).
Proof. unfold emit_event, frame_now. neutral. Qed.
End neutral_embedding.
#[export] Hint Resolve respects_embed respects_heartbeat respects_emit : respects.
#[export] Hint Extern 2 (respects _ (advance _ _ _ _ _)) => apply respects_advance; discriminate : respects.

Section neutral_recovery.
Context {R : world -> world -> Prop} `{!Neutral R} (d : adapters).

Lemma respects_verify_points r doc chunks : respects R (_verify_pending_points d r doc chunks).
Proof. unfold _verify_pending_points. neutral. Qed.

Lemma respects_read_receipt n key : respects R (read_receipt d n key).
Proof. induction n; cbn [read_receipt]; neutral. Qed.

Lemma respects_checkpoint_if key : respects R (checkpoint_if_offered d key).
Proof. unfold checkpoint_if_offered. neutral. Qed.

Lemma respects_resolve r o : respects R (resolve d r o).
Proof. unfold resolve. neutral. Qed.

Lemma respects_projected p : respects R (projected p).
Proof. unfold projected. neutral. Qed.

Lemma respects_get_status i : respects R (get_status i).
Proof. unfold get_status. neutral. Qed.

Lemma respects_validate r s : respects R (validate_snapshot r s).
Proof. unfold validate_snapshot. neutral. Qed.

Lemma respects_add_pending i : respects R (add_pending i).
Proof. unfold add_pending. neutral. Qed.
End neutral_recovery.
#[export] Hint Resolve respects_verify_points respects_read_receipt respects_checkpoint_if respects_resolve
  respects_projected respects_get_status respects_validate respects_add_pending : respects.

Section neutral_install.
Context {R : world -> world -> Prop} `{!Neutral R} (d : adapters).

Lemma respects_terminal_checkpoint a key o : respects R (terminal_checkpoint d a key o).
Proof. unfold terminal_checkpoint. neutral. Qed.

Lemma respects_finish_matching a key i : respects R (finish_matching_checkpoint d a key i).
Proof. unfold finish_matching_checkpoint. neutral. Qed.

Lemma respects_saved_snapshot r snap : respects R (saved_snapshot r snap).
Proof. unfold saved_snapshot. neutral. Qed.

Lemma rebuilt_status j t w c i p b s : ij_status (rebuilt_job j t w c i p b s) = "verifying".
Proof. reflexivity. Qed.

Lemma respects_recovered_job existing key r saved snap : respects R (recovered_job existing key r saved snap).
Proof.
  unfold recovered_job. destruct key as [[[t w] c] i]. neutral.
Qed.

Lemma respects_note_incomplete b : respects R (note_incomplete b).
Proof. apply respects_books; intros w; unfold started; destruct (l_retirement (w_locals w)) as [[]]; reflexivity. Qed.
Lemma respects_note_points ps : respects R (note_points ps).
Proof. apply respects_books; intros w; unfold started; destruct (l_retirement (w_locals w)) as [[]]; reflexivity. Qed.
End neutral_install.
#[export] Hint Resolve respects_terminal_checkpoint respects_finish_matching respects_saved_snapshot respects_recovered_job
  respects_note_incomplete respects_note_points : respects.

Section neutral_retirement.
Context {R : world -> world -> Prop} `{!Neutral R} (d : adapters).

Lemma respects_version_owned a t w doc : respects R (version_owned d a t w doc).
Proof. unfold version_owned. neutral. Qed.

Lemma respects_saved_points i c t w owners : respects R (saved_points d i c t w owners).
Proof. unfold saved_points. neutral. Qed.

Lemma respects_frame_now : respects R frame_now.
Proof. unfold frame_now. neutral. Qed.
Lemma respects_change_frame f : respects R (change_frame f).
Proof. unfold change_frame. neutral. Qed.
Lemma respects_store_recovery e : respects R (store_recovery e).
Proof. unfold store_recovery, frame_now. neutral. Qed.
Lemma respects_drop_recovery : respects R drop_recovery.
Proof. unfold drop_recovery, frame_now. neutral. Qed.

Lemma respects_defer a i : respects R (defer a i).
Proof. unfold defer. neutral. Qed.
End neutral_retirement.
#[export] Hint Resolve respects_version_owned respects_saved_points respects_frame_now respects_change_frame
  respects_store_recovery respects_drop_recovery respects_defer : respects.

Section neutral_attempt.
Context {R : world -> world -> Prop} `{!Neutral R} (d : adapters).

Lemma respects_still_owned a t w owners : respects R (still_owned d a t w owners).
Proof. unfold still_owned. neutral. Qed.

Lemma respects_notify a k fields : respects R (notify d a k fields).
Proof. unfold notify. neutral. Qed.

Lemma respects_terminate a e b : respects R (terminate d a e b).
Proof. unfold terminate. neutral. Qed.

Lemma respects_release : respects R (release_pending d).
Proof.
  unfold release_pending. neutral. apply respects_books; intros w; destruct (dict_get (ij_job_id _) (w_recovery w)); reflexivity.
Qed.

Lemma attempt_job_status args t c r w : ij_status (attempt_job d args t c r w) = "queued".
Proof. destruct r; reflexivity. Qed.

Lemma respects_resume args a i r c : respects R (resume args a i r c).
Proof. unfold resume. neutral. Qed.

Lemma respects_begin_attempt args t c r : respects R (begin_attempt d args t c r).
Proof.
  unfold begin_attempt. neutral_step; [neutral|]. neutral_step; [neutral|]. apply respects_bind_gets. intros w0.
  neutral_step; [apply respects_new_job; rewrite attempt_job_status; discriminate|].
  neutral. apply respects_resume.
Qed.
End neutral_attempt.
#[export] Hint Resolve respects_still_owned respects_notify respects_terminate respects_release respects_begin_attempt : respects.

Section neutral_stages.
Context {R : world -> world -> Prop} `{!Neutral R} (d : adapters).

Lemma respects_validate_source a cb : respects R (validate_source d a cb).
Proof. unfold validate_source. neutral. Qed.

Lemma respects_prepare_schema a : respects R (prepare_schema d a).
Proof. unfold prepare_schema. neutral. Qed.

Lemma respects_content_identity a f c m : respects R (content_identity d a f c m).
Proof. unfold content_identity. neutral. Qed.

Lemma respects_resolve_identity a f c i l : respects R (resolve_identity d a f c i l).
Proof. unfold resolve_identity. neutral. Qed.

Lemma respects_open_phase a cb c i s m : respects R (open_phase d a cb c i s m).
Proof. unfold open_phase. neutral. Qed.

Lemma respects_send_beats a cb beats : respects R (send_beats d a cb beats).
Proof. induction beats; cbn [send_beats]; neutral. Qed.

Lemma respects_save_output a cb ph k v : respects R (save_output d a cb ph k v).
Proof. unfold save_output. neutral. Qed.

Lemma respects_run_chunker p i : respects R (run_chunker d p i).
Proof. unfold run_chunker. neutral. Qed.

Lemma respects_plan_batches a ph points : respects R (plan_batches d a ph points).
Proof. unfold plan_batches. neutral. Qed.

Lemma respects_verify a cb f pr n : respects R (verify d a cb f pr n).
Proof. unfold verify. neutral. Qed.

Lemma respects_require_owner f i : respects R (require_document_owner d f i).
Proof. unfold require_document_owner. neutral. Qed.
End neutral_stages.
#[export] Hint Resolve respects_validate_source respects_prepare_schema respects_content_identity respects_resolve_identity
  respects_open_phase respects_send_beats respects_save_output respects_run_chunker respects_plan_batches respects_verify
  respects_require_owner : respects.

Section neutral_outputs.
Context {R : world -> world -> Prop} `{!Neutral R} (d : adapters).

Lemma respects_prepare args ctx : respects R (prepare d args ctx).
Proof. unfold prepare. neutral. Qed.

Lemma respects_execute_parser a cb : respects R (execute_parser d a cb).
Proof. unfold execute_parser. neutral. Qed.

Lemma respects_parse_stage a cb ph : respects R (parse_stage d a cb ph).
Proof. unfold parse_stage. neutral; apply respects_execute_parser. Qed.

Lemma respects_chunk_stage a cb ph p i : respects R (chunk_stage d a cb ph p i).
Proof. unfold chunk_stage. neutral. Qed.

Lemma respects_outputs a cb pr : respects R (outputs d a cb pr).
Proof. unfold outputs. neutral; [apply respects_parse_stage | apply respects_chunk_stage]. Qed.
End neutral_outputs.
#[export] Hint Resolve respects_prepare respects_outputs : respects.

(** ** Lenient relations *)

(** A call that neither publishes nor hides a document. *)
Definition discreet {A} (c : call A) : bool :=
  match c with SetStatus _ s _ => negb (str_in s ["published"; "unpublished"]) | _ => true end.

Class Lenient (R : world -> world -> Prop) : Prop := {
  lenient_neutral :: Neutral R;
  lenient_call : forall A (c : call A) r w, discreet c = true -> R w (push (Ev c r) w) }.

Section lenient.
Context {R : world -> world -> Prop} `{!Lenient R} (d : adapters).

Lemma respects_discreet {A} (c : call A) : discreet c = true -> respects R (call_out d c).
Proof. intros H. apply respects_call. intros r w. now apply lenient_call. Qed.

Lemma respects_with_guard {A} g (m : IM A) : respects R m -> respects R (with_guard d g m).
Proof.
  intros H. unfold with_guard. neutral_step; [now apply respects_discreet|].
  neutral_step; [now apply respects_attempt|]. neutral_step; [now apply respects_discreet | neutral].
Qed.

Lemma respects_with_documents {A} ids (m : IM A) : respects R m -> respects R (with_documents d ids m).
Proof. intros H. induction ids; cbn [with_documents]; [exact H | now apply respects_with_guard]. Qed.

Lemma respects_effect_guard {A} i at_ t w owner c b (m : IM A) :
  respects R m -> respects R (effect_guard d i at_ t w owner c b m).
Proof.
  intros H. unfold effect_guard. neutral_step; [neutral|]. apply respects_with_guard. neutral.
Qed.
End lenient.

Ltac lenient_step :=
  first
  [ neutral_step
  | lazymatch goal with
    | |- respects _ (call_out _ _) => apply respects_discreet; reflexivity
    | |- respects _ (with_guard _ _ _) => apply respects_with_guard
    | |- respects _ (with_documents _ _ _) => apply respects_with_documents
    | |- respects _ (effect_guard _ _ _ _ _ _ _ _ _) => apply respects_effect_guard
    end ].
Ltac lenient := repeat lenient_step.

Section lenient_cleanup.
Context {R : world -> world -> Prop} `{!Lenient R} (d : adapters).

Lemma respects_mark_failed i c t w at_ : respects R (mark_failed d i c t w at_).
Proof. unfold mark_failed, replace_document_chunks, set_document_status. lenient. Qed.

Lemma respects_cleanup_owned i c t w at_ b : respects R (_cleanup_owned_document d i c t w at_ b).
Proof.
  unfold _cleanup_owned_document, delete_vectors, delete_row. lenient; try apply respects_mark_failed.
Qed.

Lemma respects_cleanup_failed i c b t w at_ cf : respects R (_cleanup_failed_document d i c b t w at_ cf).
Proof. unfold _cleanup_failed_document. lenient. apply respects_cleanup_owned. Qed.
End lenient_cleanup.
#[export] Hint Resolve respects_cleanup_failed : respects.

Section lenient_stages.
Context {R : world -> world -> Prop} `{!Lenient R} (d : adapters).

Lemma respects_clean_cancelled a i c t w at_ : respects R (clean_cancelled d a i c t w at_).
Proof. unfold clean_cancelled. lenient. Qed.

Lemma respects_settle_cancelled i t w c k snap ex : respects R (settle_cancelled d i t w c k snap ex).
Proof.
  unfold settle_cancelled. lenient; try apply respects_clean_cancelled.
Qed.

Lemma respects_decide_published a r t w c : respects R (decide_published d a r t w c).
Proof. unfold decide_published. lenient. Qed.

Lemma respects_decide_unready a r doc b t w c : respects R (decide_unready d a r doc b t w c).
Proof. unfold decide_unready. lenient. Qed.

Lemma respects_restore_batches size total batches : forall n, respects R (restore_batches d size total n batches).
Proof. induction batches; intros n; cbn [restore_batches]; unfold restore_batch; lenient. Qed.

Lemma respects_restore_points i c ps t w : respects R (restore_points d i c ps t w).
Proof. unfold restore_points. lenient. all: try apply respects_restore_batches. Qed.

Lemma respects_claim_guarded a cb f r doc : respects R (claim_guarded d a cb f r doc).
Proof. unfold claim_guarded, delete_vectors. lenient. Qed.

Lemma respects_claim a cb ctx pr : respects R (claim d a cb ctx pr).
Proof. unfold claim. lenient. apply respects_claim_guarded. Qed.

Lemma respects_write_batches a cb f i batches : forall n, respects R (write_batches d a cb f i n batches).
Proof. induction batches; intros n; cbn [write_batches]; unfold own_guard; lenient. Qed.

Lemma respects_index a cb f doc i plans vs ph : respects R (index d a cb f doc i plans vs ph).
Proof. unfold index, own_guard, replace_document_chunks. lenient. apply respects_write_batches. Qed.
End lenient_stages.
#[export] Hint Resolve respects_settle_cancelled respects_decide_published respects_decide_unready respects_restore_points
  respects_claim respects_index : respects.

(** ** The effect fence

    Every effect of the pipeline on a document or on the index happens while a
    guard of the document is held. *)

(** ** Events in their context *)

(** Every event of [new], which came after [older], is as [J] demands of it
    after the events before it. *)
Fixpoint accords (J : trace -> event -> Prop) (older new : trace) : Prop :=
  match new with [] => True | e :: new' => J (new' ++ older) e /\ accords J older new' end.

Lemma accords_app J older new1 new2 :
  accords J older (new2 ++ new1) <-> accords J (new1 ++ older) new2 /\ accords J older new1.
Proof.
  induction new2 as [|e new2 IH]; cbn; [tauto|]. rewrite IH, app_assoc. tauto.
Qed.

(** ** Guards *)

Definition guard_change (p : guard -> bool) (e : event) : Z :=
  match e with
  | Ev c r => match c with
              | Enter g => if p g && is_ok r then 1 else 0
              | Exit g => if p g then -1 else 0
              | _ => 0
              end
  end.

(** How many guards that [p] holds of are held. *)
Fixpoint depth (p : guard -> bool) (tr : trace) : Z :=
  match tr with [] => 0 | e :: tr' => guard_change p e + depth p tr' end.

Definition on_document (document_id : string) (g : guard) : bool :=
  match g with GDocument i => str_eqb i document_id | _ => false end.
Definition on_decision (g : guard) : bool := match g with GDecision _ => true | _ => false end.

Definition document_held (document_id : string) (tr : trace) : Prop := 0 < depth (on_document document_id) tr.
Definition decision_held (tr : trace) : Prop := 0 < depth on_decision tr.

(** An effect is fenced.  A recovered publication writes the status of the
    document of the receipt it re-read under the receipt's own guard. *)
Definition fenced (older : trace) (e : event) : Prop :=
  match e with
  | Ev c _ =>
      match c with
      | SetStatus i s _ => document_held i older \/ (s = "published" /\ decision_held older)
      | DeleteVectors i _ _ | ReplaceChunks i _ _ | DeleteRow i _ => document_held i older
      | UpsertDocument _ | UpsertPoints _ => exists i, document_held i older
      | _ => True
      end
  end.

(** What is held: the documents, and whether a decision; no guard was given
    back more often than taken. *)
Definition holding (ids : list string) (decision : bool) (tr : trace) : Prop :=
  (forall p, 0 <= depth p tr) /\ (forall i, i ∈ ids -> document_held i tr) /\ (decision = true -> decision_held tr).

(** A run that gives back the guards it takes, and whose effects are fenced when
    the guards it relies on are held. *)
Definition fences (ids : list string) (decision : bool) (w w' : world) : Prop :=
  exists new, w_trace w' = new ++ w_trace w
  /\ (forall p, depth p (w_trace w') = depth p (w_trace w))
  /\ (holding ids decision (w_trace w) -> accords fenced (w_trace w) new).

Lemma holding_same ids b tr tr' : (forall p, depth p tr' = depth p tr) -> holding ids b tr -> holding ids b tr'.
Proof.
  unfold holding, document_held, decision_held. intros E (H0 & H1 & H2). split_and!; intros; rewrite E; auto.
Qed.

#[export] Instance fences_order ids b : PreOrder (fences ids b).
Proof.
  split.
  - intros w. exists []. split; [reflexivity|]. split; [reflexivity | cbn; auto].
  - intros w1 w2 w3 (n1 & T1 & D1 & A1) (n2 & T2 & D2 & A2). exists (n2 ++ n1).
    split; [rewrite T2, T1; apply app_assoc|]. split; [intros p; now rewrite D2, D1|].
    intros H. apply accords_app. rewrite <- T1. split; [|now apply A1]. apply A2. now apply (holding_same _ _ _ _ D1).
Qed.

Lemma fences_push ids b A (c : call A) r w :
  (forall p, guard_change p (Ev c r) = 0) -> (holding ids b (w_trace w) -> fenced (w_trace w) (Ev c r)) ->
  fences ids b w (push (Ev c r) w).
Proof.
  intros Hg Hf. exists [Ev c r]. split; [reflexivity|]. split; [intros p; cbn [push w_trace depth]; now rewrite Hg|].
  intros H. split; [now apply Hf | exact I].
Qed.

#[export] Instance fences_neutral ids b : Neutral (fences ids b).
Proof.
  split; [exact _| |].
  - intros w w' T _ _. exists []. rewrite T. split; [reflexivity|]. split; [reflexivity | cbn; auto].
  - intros A c r w Hc. apply fences_push; destruct c; try discriminate Hc; cbn; auto.
Qed.

(** ** Taking guards *)

Lemma depth_enter p g r w : is_ok r = true -> depth p (w_trace (push (Ev (Enter g) r) w)) = (if p g then 1 else 0) + depth p (w_trace w).
Proof. intros H. cbn. rewrite H, andb_true_r. reflexivity. Qed.

Lemma fences_weaken ids ids' b b' w w' :
  (holding ids' b' (w_trace w) -> holding ids b (w_trace w)) -> fences ids b w w' -> fences ids' b' w w'.
Proof. intros H (n & T & D & A). exists n. auto. Qed.

(** A body that relies on one more guard, inside that guard. *)
Lemma fences_entered d g ids b w :
  is_ok (fst (entered d g w)) = false -> fences ids b w (snd (entered d g w)).
Proof.
  intros E. unfold entered in *. cbv zeta in *. cbn [fst snd] in *.
  etrans; [apply (respects_interleave d)|]. apply fences_push; [intros p; cbn; now rewrite E, andb_false_r | cbn; auto].
Qed.

Lemma fences_with_guard {A} (d : adapters) g (body : IM A) ids b ids' b' :
  (forall r w, holding ids b (w_trace w) -> holding ids' b' (w_trace (push (Ev (Enter g) (Ok r)) w))) ->
  respects (fences ids' b') body -> respects (fences ids b) (with_guard d g body).
Proof.
  intros Hin Hbody w. rewrite exec_with_guard. destruct (fst (entered d g w)) as [u|e] eqn:E.
  2:{ apply fences_entered. now rewrite E. }
  assert (fences ids b w (exec (interleave d) w)) as (n0 & T0 & D0 & A0) by apply respects_interleave.
  unfold entered in *. cbv zeta in *. cbn [fst snd] in *. rewrite E. set (w0 := exec (interleave d) w) in *.
  set (w1 := push (Ev (Enter g) (Ok u)) w0).
  destruct (Hbody w1) as (n2 & T2 & D2 & A2). set (w2 := exec body w1) in *.
  assert (fences ids' b' w2 (exec (interleave d) w2)) as (n3 & T3 & D3 & A3) by apply respects_interleave.
  unfold left_guard. cbv zeta. set (w3 := exec (interleave d) w2) in *.
  exists (Ev (Exit g) (answer d unit (Exit g) (w_trace w3)) :: n3 ++ n2 ++ Ev (Enter g) (Ok u) :: n0).
  split; [cbn; now rewrite T3, T2; cbn; rewrite T0, <- !app_assoc|]. split.
  - intros p. cbn. rewrite D3, D2. subst w1. cbn. rewrite D0, andb_true_r. destruct (p g); lia.
  - intros H. split; [exact I|]. pose proof (holding_same _ _ _ _ D0 H) as H0.
    pose proof (Hin u w0 H0) as H1. pose proof (holding_same _ _ _ _ D2 H1) as H2.
    rewrite app_assoc. apply accords_app. split.
    + apply accords_app. cbn. rewrite <- T0. change (Ev (Enter g) (Ok u) :: w_trace w0) with (w_trace w1). split; [rewrite <- T2; now apply A3 | now apply A2].
    + split; [exact I | now apply A0].
Qed.

(** What a guard adds to what is held. *)
Lemma holding_enter g r ids b tr :
  holding ids b tr ->
  holding (match g with GDocument i => i :: ids | _ => ids end) (on_decision g || b) (Ev (Enter g) (Ok r) :: tr).
Proof.
  intros (H0 & H1 & H2). assert (forall p, depth p tr <= depth p (Ev (Enter g) (Ok r) :: tr)) as Hle.
  { intros p. cbn. destruct (p g); cbn; lia. }
  split_and!.
  - intros p. specialize (H0 p). specialize (Hle p). lia.
  - intros i Hi. assert (i ∈ ids -> document_held i (Ev (Enter g) (Ok r) :: tr)) as Hold.
    { intros Hin. specialize (H1 i Hin). specialize (Hle (on_document i)). unfold document_held in *. lia. }
    destruct g as [j| | |]; try (now apply Hold). apply elem_of_cons in Hi as [->|Hi]; [|now apply Hold].
    unfold document_held. cbn. specialize (H0 (on_document j)). unfold str_eqb. rewrite bool_decide_eq_true_2 by reflexivity.
    cbn. lia.
  - unfold decision_held. destruct g; cbn; intros Hb; try (now apply H2).
    specialize (H0 on_decision). lia.
Qed.

Lemma fences_guard {A} (d : adapters) g (body : IM A) ids b :
  respects (fences (match g with GDocument i => i :: ids | _ => ids end) (on_decision g || b)) body ->
  respects (fences ids b) (with_guard d g body).
Proof. apply fences_with_guard. intros r w. apply holding_enter. Qed.

Lemma fences_documents {A} (d : adapters) is_ (body : IM A) b : forall ids,
  (forall ids', (forall i, i ∈ is_ \/ i ∈ ids -> i ∈ ids') -> respects (fences ids' b) body) ->
  respects (fences ids b) (with_documents d is_ body).
Proof.
  induction is_ as [|i is_ IH]; intros ids H; cbn [with_documents].
  - apply H. intros i [Hi|Hi]; [now apply elem_of_nil in Hi | exact Hi].
  - apply fences_guard. cbn. apply IH. intros ids' Hsub. apply H. intros j [Hj|Hj].
    + apply elem_of_cons in Hj as [->|Hj]; apply Hsub; [right; left | now left].
    + apply Hsub. right. now right.
Qed.

(** ** Effects under guards *)

Section effects.
Context (d : adapters) (ids : list string) (b : bool).

Lemma fences_call {A} (c : call A) :
  (forall p r, guard_change p (Ev c r) = 0) -> (forall tr r, holding ids b tr -> fenced tr (Ev c r)) ->
  respects (fences ids b) (call_out d c).
Proof. intros Hg Hf. apply respects_call. intros r w. apply fences_push; auto. Qed.

Lemma fences_status i s t w : i ∈ ids -> respects (fences ids b) (set_document_status d i s t w).
Proof. intros Hi. apply fences_call; [reflexivity|]. intros tr r (_ & H & _). left. now apply H. Qed.

Lemma fences_publish i t w : b = true -> respects (fences ids b) (set_document_status d i "published" t w).
Proof. intros Hb. apply fences_call; [reflexivity|]. intros tr r (_ & _ & H). right. auto. Qed.

Lemma fences_delete i c t w : i ∈ ids -> respects (fences ids b) (delete_vectors d i c t w).
Proof. intros Hi. apply fences_call; [reflexivity|]. intros tr r (_ & H & _). now apply H. Qed.

Lemma fences_delete_row i t w : i ∈ ids -> respects (fences ids b) (delete_row d i t w).
Proof. intros Hi. apply fences_call; [reflexivity|]. intros tr r (_ & H & _). now apply H. Qed.

Lemma fences_replace i cs t w : i ∈ ids -> respects (fences ids b) (replace_document_chunks d i cs t w).
Proof. intros Hi. apply fences_call; [reflexivity|]. intros tr r (_ & H & _). now apply H. Qed.

Lemma fences_upsert i doc : i ∈ ids -> respects (fences ids b) (call_out d (UpsertDocument doc)).
Proof. intros Hi. apply fences_call; [reflexivity|]. intros tr r (_ & H & _). exists i. now apply H. Qed.

Lemma fences_points i batch : i ∈ ids -> respects (fences ids b) (call_out d (UpsertPoints batch)).
Proof. intros Hi. apply fences_call; [reflexivity|]. intros tr r (_ & H & _). exists i. now apply H. Qed.

Lemma fences_effect_guard {A} i at_ t w owner c tomb (body : IM A) :
  respects (fences (i :: ids) b) body -> respects (fences ids b) (effect_guard d i at_ t w owner c tomb body).
Proof.
  intros H. unfold effect_guard. neutral_step; [neutral|]. apply fences_guard. cbn [orb on_decision]. neutral.
Qed.
End effects.

Ltac held := first [assumption | left | right; held].
Ltac fence_step :=
  first
  [ lazymatch goal with
    | |- respects _ (set_document_status _ _ _ _ _) => apply fences_status; held
    | |- respects _ (delete_vectors _ _ _ _ _) => apply fences_delete; held
    | |- respects _ (delete_row _ _ _ _) => apply fences_delete_row; held
    | |- respects _ (replace_document_chunks _ _ _ _ _) => apply fences_replace; held
    | |- respects _ (with_guard _ _ _) => apply fences_guard; cbn [orb on_decision]
    | |- respects _ (effect_guard _ _ _ _ _ _ _ _ _) => apply fences_effect_guard
    | |- respects _ (own_guard _ _ _ _ _ _) => unfold own_guard; apply fences_effect_guard
    end
  | neutral_step ].
Ltac fence := repeat fence_step.

Section cleanup.
Context (d : adapters).

Lemma fences_mark_failed i c t w at_ ids b : respects (fences ids b) (mark_failed d i c t w at_).
Proof. unfold mark_failed. fence. Qed.

Lemma fences_cleanup_owned i c t w at_ cf ids b : respects (fences ids b) (_cleanup_owned_document d i c t w at_ cf).
Proof. unfold _cleanup_owned_document. fence; apply fences_mark_failed. Qed.

Lemma fences_cleanup_failed i c wr t w at_ cf ids b : respects (fences ids b) (_cleanup_failed_document d i c wr t w at_ cf).
Proof. unfold _cleanup_failed_document. fence. apply fences_cleanup_owned. Qed.
End cleanup.
#[export] Hint Resolve fences_cleanup_failed : respects.

(** A status of the job changes nothing that is fenced. *)
Lemma fences_books ids b f : (forall w, w_trace (f w) = w_trace w) -> respects (fences ids b) (modify (E := exn) f).
Proof.
  intros H w. exists []. cbn. rewrite H. split; [reflexivity|]. split; [reflexivity | cbn; auto].
Qed.

Lemma fences_transition d ids b a to ec m p : respects (fences ids b) (transition d a to ec m p).
Proof.
  unfold transition, transition_now, change. neutral. apply fences_books. reflexivity.
Qed.

Lemma fences_note_started ids b : respects (fences ids b) note_started.
Proof. apply fences_books. intros w. now destruct (l_retirement (w_locals w)) as [[]]. Qed.

Ltac fence ::= repeat first
  [ lazymatch goal with
    | |- respects (fences _ _) (transition _ _ _ _ _ _) => apply fences_transition
    | |- respects (fences _ _) (change _ _) => apply fences_books; intros ?; reflexivity
    | |- respects (fences _ _) note_started => apply fences_note_started
    | |- respects (fences _ _) (modify (set_retirement _)) => apply fences_books; intros ?; reflexivity
    end
  | fence_step ].

Section recovery.
Context (d : adapters).

Lemma fences_clean_cancelled a i c t w at_ ids b : respects (fences ids b) (clean_cancelled d a i c t w at_).
Proof. unfold clean_cancelled. fence. Qed.

Lemma fences_settle_cancelled i t w c k snap ex ids b : respects (fences ids b) (settle_cancelled d i t w c k snap ex).
Proof. unfold settle_cancelled. fence; apply fences_clean_cancelled. Qed.

Lemma fences_decide_published a r t w c ids b : respects (fences ids b) (decide_published d a r t w c).
Proof. unfold decide_published. fence. Qed.

Lemma fences_decide_ready r doc t w c ids : respects (fences ids true) (decide_ready d r doc t w c).
Proof. unfold decide_ready. fence. now apply fences_publish. Qed.

Lemma fences_decide_unready a r doc o t w c ids b : respects (fences ids b) (decide_unready d a r doc o t w c).
Proof. unfold decide_unready. fence. Qed.

Lemma fences_decide_pending a key r t w c ids b : respects (fences ids b) (decide_pending d a key r t w c).
Proof.
  unfold decide_pending. fence; first [apply fences_decide_published | apply fences_decide_ready | apply fences_decide_unready].
Qed.

Lemma fences_tries n a key t w c ids b : respects (fences ids b) (pending_tries d n a key t w c).
Proof. induction n; cbn [pending_tries]; fence. apply fences_decide_pending. Qed.
End recovery.
#[export] Hint Resolve fences_settle_cancelled fences_tries : respects.

Section retirement.
Context (d : adapters).

Lemma fences_restore_batches i size total batches ids b : i ∈ ids -> forall n, respects (fences ids b) (restore_batches d size total n batches).
Proof.
  intros Hi. induction batches; intros n; cbn [restore_batches]; unfold restore_batch; fence. now apply (fences_points _ _ _ i).
Qed.

Lemma fences_restore_points i c ps t w ids b : i ∈ ids -> respects (fences ids b) (restore_points d i c ps t w).
Proof. intros Hi. unfold restore_points. fence. now apply (fences_restore_batches i). Qed.

Lemma fences_rollback a i c ps t w s ids b : i ∈ ids -> respects (fences ids b) (_rollback_replacement d a i c ps t w s).
Proof. intros Hi. unfold _rollback_replacement. fence. now apply fences_restore_points. Qed.

Lemma fences_retire_version i c t w owners ids b : i ∈ ids -> respects (fences ids b) (retire_version d i c t w owners).
Proof. intros Hi. unfold retire_version. fence. Qed.

Lemma fences_retire_replacement a i t w c owners ids b : i ∈ ids -> respects (fences ids b) (_retire_replacement d a i t w c owners).
Proof.
  intros Hi. unfold _retire_replacement. fence; first [now apply fences_retire_version | now apply fences_rollback].
Qed.

Lemma fences_retire_recovered a old new ids b : old ∈ ids -> respects (fences ids b) (retire_recovered d a old new).
Proof. intros Hi. unfold retire_recovered. fence. now apply fences_retire_replacement. Qed.

Lemma sorted_pair_In i x y : i = x \/ i = y -> i ∈ sort_by str_leb [x; y].
Proof. intros H. apply list_elem_of_In, sort_by_In. destruct H as [->| ->]; cbn; auto. Qed.

Lemma fences_recover_retirement a ids b : respects (fences ids b) (_recover_retirement d a).
Proof.
  unfold _recover_retirement. fence. apply fences_documents. intros ids' H. apply fences_retire_recovered.
  apply H. left. apply sorted_pair_In. auto.
Qed.

Lemma fences_finalize_guarded a i n p t w c hc ids b : i ∈ ids -> respects (fences ids b) (finalize_guarded d a i n p t w c hc).
Proof. intros Hi. unfold finalize_guarded. fence. now apply fences_retire_replacement. Qed.
End retirement.
#[export] Hint Resolve fences_recover_retirement : respects.

Section operations.
Context (d : adapters).

Lemma fences_finalize a i p t w c hc ids b : respects (fences ids b) (_finalize_reindex d a i p t w c hc).
Proof.
  unfold _finalize_reindex. fence. apply fences_documents. intros ids' H. apply fences_finalize_guarded.
  apply H. left. apply sorted_pair_In. auto.
Qed.

Lemma fences_install_status a t s ids b : respects (fences ids b) (install_status d a t s).
Proof. unfold install_status. fence. Qed.

Lemma fences_install a key o ids b : respects (fences ids b) (install_outcome d a key o).
Proof. unfold install_outcome. fence. apply fences_install_status. Qed.

Lemma fences_recover_receipt ex key r snap ids b : respects (fences ids b) (recover_receipt d ex key r snap).
Proof. unfold recover_receipt. destruct key as [[[t w] c] i]. fence; try apply fences_install. Qed.

Lemma fences_recover i t w c p ids b : respects (fences ids b) (recover_publication d i t w c p).
Proof. unfold recover_publication. fence; apply fences_recover_receipt. Qed.

Lemma fences_project a key ids b : respects (fences ids b) (project_publication d a key).
Proof. unfold project_publication. fence. Qed.
End operations.
#[export] Hint Resolve fences_finalize fences_recover fences_project : respects.

Section attempts.
Context (d : adapters).

Lemma fences_finish e ids b : respects (fences ids b) (finish_publication d e).
Proof. unfold finish_publication. fence. Qed.

Lemma fences_publication_guard {A} args (m : IM A) ids b :
  respects (fences ids b) m -> respects (fences ids b) (with_publication_guard d args m).
Proof. intros H. unfold with_publication_guard. fence. Qed.

Lemma fences_decide_duplicate a f doc ids b : respects (fences ids b) (decide_duplicate d a f doc).
Proof. unfold decide_duplicate. fence. Qed.

Lemma fences_publish_duplicate args ids b : respects (fences ids b) (publish_duplicate d args).
Proof.
  unfold publish_duplicate. fence; [|apply fences_finish]. apply fences_publication_guard. fence. apply fences_decide_duplicate.
Qed.

Lemma fences_read_commit f ids b : respects (fences ids b) (read_commit d f).
Proof. unfold read_commit. fence. Qed.

Lemma fences_commit_tries n f ids b : respects (fences ids b) (read_commit_tries d n f).
Proof. induction n; cbn [read_commit_tries]; fence. apply fences_read_commit. Qed.

Lemma fences_settle_failure e ids b : respects (fences ids b) (settle_failure d e).
Proof. unfold settle_failure. fence. Qed.

Lemma fences_settle_pending e ids b : respects (fences ids b) (settle_pending d e).
Proof. unfold settle_pending. fence. apply fences_finish. Qed.

Lemma fences_recover_attempt e ids b : respects (fences ids b) (recover_attempt d e).
Proof.
  unfold recover_attempt. fence; first [apply fences_commit_tries | apply fences_settle_pending | apply fences_finish
    | apply fences_settle_failure].
Qed.

Lemma fences_claim_guarded a cb f r doc ids b : d_document_id doc ∈ ids -> respects (fences ids b) (claim_guarded d a cb f r doc).
Proof. intros Hi. unfold claim_guarded. fence; now apply (fences_upsert _ _ _ (d_document_id doc)). Qed.

Lemma fences_claim a cb ctx pr ids b : respects (fences ids b) (claim d a cb ctx pr).
Proof.
  unfold claim. neutral_step; [neutral|]. neutral_step; [neutral|]. apply respects_bind_gets. intros w.
  fence. apply fences_claim_guarded. left.
Qed.

Lemma fences_write_batches a cb f i batches ids b : forall n, respects (fences ids b) (write_batches d a cb f i n batches).
Proof. induction batches; intros n; cbn [write_batches]; fence. apply (fences_points _ _ _ i). left. Qed.

Lemma fences_index a cb f doc i plans vs ph ids b : respects (fences ids b) (index d a cb f doc i plans vs ph).
Proof. unfold index. fence. apply fences_write_batches. Qed.

Lemma fences_decide_publication a cb f i n ids b : i ∈ ids -> respects (fences ids b) (decide_publication d a cb f i n).
Proof. intros Hi. unfold decide_publication. fence. Qed.

Lemma fences_publish_attempt args a f pr n ids b : respects (fences ids b) (publish d args a f pr n).
Proof.
  unfold publish. fence; [|apply fences_finish]. apply fences_publication_guard. fence. apply fences_decide_publication. left.
Qed.

Lemma fences_run_attempt args ctx ids b : respects (fences ids b) (run_attempt d args ctx).
Proof.
  unfold run_attempt. fence; first [apply fences_publish_duplicate | apply fences_claim | apply fences_index | apply fences_publish_attempt].
Qed.

Lemma fences_handle_failure args e ids b : respects (fences ids b) (handle_failure d args e).
Proof. unfold handle_failure. fence; apply fences_recover_attempt. Qed.

Lemma fences_finally {A} (m : IM A) k ids b :
  respects (fences ids b) m -> respects (fences ids b) k -> respects (fences ids b) (finally m k).
Proof. intros Hm Hk. unfold finally. fence. Qed.

Lemma fences_ingest args ids b : respects (fences ids b) (_ingest d args).
Proof.
  unfold _ingest. fence; (apply fences_finally; [fence; [apply fences_run_attempt | apply fences_handle_failure] | fence]).
Qed.

Lemma fences_reconcile i ids b : respects (fences ids b) (reconcile_publication d i).
Proof.
  unfold reconcile_publication. apply fences_finally; fence.
  - apply fences_recover_attempt.
  - apply fences_books. intros w. now destruct (match dict_get i (w_recovery w) with Some _ => true | None => false end || _).
Qed.

Lemma fences_reindex i args ids b : respects (fences ids b) (reindex d i args).
Proof. unfold reindex, ingest. fence. apply fences_ingest. Qed.
End attempts.
