(* ===== verification/IngestVerify.v ===== *)
(** * Verification before publication

    Triples over the monad of a run and what an attempt has seen when it publishes: complete
    batches of valid embeddings, a full count, an owned and pending receipt. *)

From Stdlib Require Import Ascii String.
From stdpp Require Import strings list.
From S2P Require Import Prelude PyFloat PyStr PyVal IngestionJobs StateError KnowledgeModels Publication Chunking.
From S2P Require Import IngestPorts IngestRetire IngestRecover IngestPipeline IngestLogic.

Local Open Scope string_scope.
Local Open Scope Z_scope.
Local Open Scope list_scope.

(** ** What is known when a document is published

    The facts a publication rests on, as facts about the trace before it, and
    the rules that carry such facts through the pipeline. *)

(** ** Inside a document's guard *)

(** The events since a guard that [p] holds of was last taken, when none has
    been given back. *)
Fixpoint since (p : guard -> bool) (tr : trace) : option trace :=
  match tr with
  | [] => None
  | Ev c r :: tr' =>
      match c with
      | Enter g => if p g && is_ok r then Some [] else cons (Ev c r) <$> since p tr'
      | Exit g => if p g then None else cons (Ev c r) <$> since p tr'
      | _ => cons (Ev c r) <$> since p tr'
      end
  end.

(** [P] holds of the events since then. *)
Definition inside_guard (p : guard -> bool) (P : trace -> Prop) (tr : trace) : Prop :=
  exists recent, since p tr = Some recent /\ P recent.

Definition inside (document_id : string) : (trace -> Prop) -> trace -> Prop := inside_guard (on_document document_id).

Definition seen {A} (c : call A) (a : A) (tr : trace) : Prop := In (Ev c (Ok a)) tr.

(** The attempt was read as the owner of the document. *)
Definition owner_seen (document_id attempt_id : string) (tr : trace) : Prop :=
  exists sc doc, seen (GetDocument document_id sc) (Some doc) tr /\ require_owner (Some doc) attempt_id = Ok tt.

Definition active_seen (tr : trace) : Prop :=
  exists tenant_id workspace_id collection_id c, seen (GetCollection tenant_id workspace_id collection_id) (Some c) tr /\ co_status c = "active".

(** The publication was begun with the number of chunks, and its receipt was
    read back: pending, of the attempt, and not cancelled. *)
Definition receipt_seen (attempt_id : string) (n : Z) (tr : trace) : Prop :=
  exists j key found, seen (BeginPublication j None n) tt tr /\ seen (GetPublication key) found tr
  /\ forall r, found = Some r -> rc_attempt_id r = attempt_id /\ rc_outcome r = pending /\ rc_cancel_requested r = false.

(** ** What was indexed *)

Definition batch_written (tr : trace) (batch : list pyval) : Prop := seen (UpsertPoints batch) (VInt (Z.of_nat (length batch))) tr.

Definition valid_vector (d : adapters) (v : pyval) : Prop :=
  exists dim, embedding_dimensions d = VInt dim /\ _embedding_is_valid v dim = Ok true.

(** A point for every chunk, from a valid embedding; the planned batches were
    all written in full, and the chunks were stored. *)
Definition indexed (d : adapters) (document_id : string) (n : Z) (tr : trace) : Prop :=
  exists sc chunks document vectors points batches now,
    n = Z.of_nat (length chunks) /\ seen (ReplaceChunks document_id chunks sc) tt tr
    /\ length vectors = length chunks /\ Forall (valid_vector d) vectors
    /\ expected_points now document chunks vectors = Ok points
    /\ (seen (PlanBatches points) batches tr \/ concat batches = points)
    /\ Forall (batch_written tr) batches.

Definition counted (document_id : string) (n : Z) (tr : trace) : Prop :=
  exists collection_id sc count, seen (CountVectors document_id collection_id sc) count tr /\ below count n = Ok false.

(** A publication by the attempt itself. *)
Definition attempt_verified (d : adapters) (document_id : string) (tr : trace) : Prop :=
  exists attempt_id n, indexed d document_id n tr /\ counted document_id n tr
  /\ inside document_id (fun recent => owner_seen document_id attempt_id recent /\ active_seen recent
       /\ (offers d "begin_publication" = true -> receipt_seen attempt_id n recent)) tr.

(** The points found in the index are exactly those that the checkpoint of the
    receipt's attempt authorized. *)
Definition points_verified (record : Receipt) (tr : trace) : Prop :=
  exists c manifest raw points,
    seen (GetCheckpoint (receipt_key record)) (Some c) tr /\ ck_attempt_id c = rc_attempt_id record
    /\ dict_read "point_manifest" (ck_artifacts c) = VStr manifest
    /\ (seen (SnapshotDocument (rc_document_id record) (rc_collection_id record) (rc_tenant_id record) (rc_workspace_id record)) raw tr
        \/ exists b, seen (AllPoints b) raw tr)
    /\ snapshot_from (in_scope (rc_document_id record) (rc_collection_id record) (rc_tenant_id record) (rc_workspace_id record)) 0 0 raw
       = Ok points
    /\ _point_manifest points = Ok manifest.

(** A publication recovered from a pending receipt, under the guard of the
    decision: the document is still processing and of the receipt's attempt,
    its collection is active, and its points are verified. *)
Definition recovery_verified (document_id : string) (tr : trace) : Prop :=
  exists key record sc document,
    rc_document_id record = document_id /\ rc_outcome record = pending /\ rc_ready_count record <> 0
    /\ _publication_matches record document = true /\ d_status document = "processing"
    /\ inside_guard on_decision (fun recent => seen (GetPublication key) (Some record) recent
         /\ seen (GetDocument document_id sc) (Some document) recent /\ active_seen recent /\ points_verified record recent) tr.

(** A replaced version put back after its retirement failed: nothing of it was
    deleted since its guard was taken, or its points were written again and counted. *)
Definition no_deletion (document_id : string) (tr : trace) : Prop :=
  forall c sc r, ~ In (Ev (DeleteVectors document_id c sc) r) tr.

Definition batch_rewritten (tr : trace) (batch : list pyval) : Prop :=
  exists v, seen (UpsertPoints batch) v tr /\ py_eqb v (VInt (Z.of_nat (length batch))) = true.

Definition restored (document_id : string) (tr : trace) : Prop :=
  exists c sc count n batches, seen (CountVectors document_id c sc) count tr /\ py_eqb count (VInt n) = true /\ 0 < n
  /\ Forall (batch_rewritten tr) batches /\ Z.of_nat (length (concat batches)) = n.

Definition version_seen (document_id : string) (tr : trace) : Prop :=
  exists sc doc sc' current, seen (GetDocument document_id sc) (Some doc) tr
  /\ seen (GetDocument (d_document_id doc) sc') (Some current) tr /\ same_version doc current = true
  /\ str_in (d_status current) ["published"; "unpublished"] = true.

Definition version_restored (document_id : string) (tr : trace) : Prop :=
  inside document_id (fun recent => version_seen document_id recent
    /\ (no_deletion document_id recent \/ restored document_id recent)) tr.

(** Only what was verified is published. *)
Definition verified (d : adapters) (older : trace) (e : event) : Prop :=
  match e with
  | Ev c _ =>
      match c with
      | SetStatus i s _ => s = "published" -> attempt_verified d i older \/ recovery_verified i older \/ version_restored i older
      | _ => True
      end
  end.

(** ** Runs that publish only what was verified *)

Definition stays (d : adapters) (w w' : world) : Prop :=
  exists new, w_trace w' = new ++ w_trace w /\ accords (verified d) (w_trace w) new.

#[export] Instance stays_order d : PreOrder (stays d).
Proof.
  split.
  - intros w. exists []. split; [reflexivity | exact I].
  - intros w1 w2 w3 (n1 & T1 & A1) (n2 & T2 & A2). exists (n2 ++ n1).
    split; [rewrite T2, T1; apply app_assoc|]. apply accords_app. rewrite <- T1. auto.
Qed.

Lemma stays_push d A (c : call A) r w : verified d (w_trace w) (Ev c r) -> stays d w (push (Ev c r) w).
Proof. intros H. exists [Ev c r]. split; [reflexivity | split; [exact H | exact I]]. Qed.

Lemma stays_books d w w' : w_trace w' = w_trace w -> stays d w w'.
Proof. intros T. exists []. rewrite T. split; [reflexivity | exact I]. Qed.

#[export] Instance stays_lenient d : Lenient (stays d).
Proof.
  split; [split|].
  - exact _.
  - intros w w' T _ _. now apply stays_books.
  - intros A c r w Hc. apply stays_push. destruct c; try discriminate Hc; exact I.
  - intros A c r w Hc. apply stays_push. destruct c; try exact I. cbn in *. intros ->. discriminate Hc.
Qed.

(** ** Facts that last *)

Definition plain (e : event) : bool := match e with Ev c _ => match c with Enter _ | Exit _ => false | _ => true end end.
Definition mildly (e : event) : bool := match e with Ev c _ => mild c end.

(** The events of a run satisfy [p]. *)
Definition grows (p : event -> bool) (w w' : world) : Prop :=
  exists new, w_trace w' = new ++ w_trace w /\ forallb p new = true.

#[export] Instance grows_order p : PreOrder (grows p).
Proof.
  split.
  - intros w. exists []. split; reflexivity.
  - intros w1 w2 w3 (n1 & T1 & A1) (n2 & T2 & A2). exists (n2 ++ n1).
    split; [rewrite T2, T1; apply app_assoc|]. now rewrite forallb_app, A1, A2.
Qed.

Lemma grows_push p A (c : call A) r w : p (Ev c r) = true -> grows p w (push (Ev c r) w).
Proof. intros H. exists [Ev c r]. split; [reflexivity|]. cbn. now rewrite H. Qed.

Lemma grows_mild p : (forall e, mildly e = true -> p e = true) -> Neutral (grows p).
Proof.
  intros H. split; [exact _| |].
  - intros w w' T _ _. exists []. split; [exact T | reflexivity].
  - intros A c r w Hc. apply grows_push, H. exact Hc.
Qed.

Lemma mildly_plain e : mildly e = true -> plain e = true.
Proof. destruct e as [A c r]. now destruct c. Qed.

#[export] Instance grows_neutral : Neutral (grows plain).
Proof. apply grows_mild, mildly_plain. Qed.
#[export] Instance grows_mildly : Neutral (grows mildly).
Proof. now apply grows_mild. Qed.

#[export] Instance grows_lenient : Lenient (grows (fun _ => true)).
Proof.
  split; [split; [exact _| |]|].
  - intros w w' T _ _. exists []. split; [exact T | reflexivity].
  - intros A c r w Hc. now apply grows_push.
  - intros A c r w Hc. now apply grows_push.
Qed.

(** [F] still holds after an event that [p] holds of. *)
Definition kept (p : event -> bool) (F : trace -> Prop) : Prop := forall tr e, p e = true -> F tr -> F (e :: tr).

Lemma kept_grows p F w w' : kept p F -> grows p w w' -> F (w_trace w) -> F (w_trace w').
Proof.
  intros K (new & -> & H). induction new as [|e new IH]; cbn in *; [auto|].
  apply andb_prop in H as [He H]. intros HF. apply K; auto.
Qed.

Lemma kept_seen p {A} (c : call A) a : kept p (seen c a).
Proof. intros tr e _ H. now right. Qed.

Lemma kept_and p F G : kept p F -> kept p G -> kept p (fun tr => F tr /\ G tr).
Proof. intros KF KG tr e He [HF HG]. split; [now apply KF | now apply KG]. Qed.

Lemma kept_const p P : kept p (fun _ => P).
Proof. intros tr e _ H. exact H. Qed.

Lemma kept_mildly F : kept plain F -> kept mildly F.
Proof. intros K tr e He. apply K, mildly_plain, He. Qed.

Lemma kept_weaken F : kept (fun _ => true) F -> kept plain F.
Proof. intros K tr e _. now apply K. Qed.

Lemma since_plain p e tr : plain e = true -> since p (e :: tr) = cons e <$> since p tr.
Proof. destruct e as [A c r]. destruct c; try discriminate; reflexivity. Qed.

Lemma kept_inside_guard p P : kept (fun _ => true) P -> kept plain (inside_guard p P).
Proof.
  intros K tr e He (rec & E & HP). exists (e :: rec). rewrite (since_plain _ _ _ He), E. split; [reflexivity|]. now apply K.
Qed.

Lemma kept_inside i P : kept (fun _ => true) P -> kept plain (inside i P).
Proof. apply kept_inside_guard. Qed.

Lemma inside_mono p (P Q : trace -> Prop) tr : (forall rec, P rec -> Q rec) -> inside_guard p P tr -> inside_guard p Q tr.
Proof. intros H (rec & E & HP). exists rec. auto. Qed.

Lemma inside_and p P Q tr : inside_guard p P tr -> inside_guard p Q tr -> inside_guard p (fun rec => P rec /\ Q rec) tr.
Proof. intros (r1 & E1 & H1) (r2 & E2 & H2). rewrite E1 in E2. injection E2 as <-. exists r1. auto. Qed.

(** The newest event is inside when the guard is held. *)
Lemma inside_new p P {A} (c : call A) a tr :
  plain (Ev c (Ok a)) = true -> kept (fun _ => true) P -> inside_guard p P tr ->
  inside_guard p (fun rec => P rec /\ seen c a rec) (Ev c (Ok a) :: tr).
Proof.
  intros Hc K (rec & E & HP). exists (Ev c (Ok a) :: rec). rewrite (since_plain _ _ _ Hc), E.
  split; [reflexivity|]. split; [now apply K | now left].
Qed.

(** ** Triples *)

Section triples.
Context (d : adapters).

(** From a trace with [F], [m] publishes only what is verified, and returns
    with [G]. *)
Definition triple {A} (F : trace -> Prop) (m : IM A) (G : A -> trace -> Prop) : Prop :=
  forall w, F (w_trace w) -> stays d w (exec m w) /\ forall a, eval m w = Ok a -> G a (w_trace (exec m w)).

Lemma triple_respects {A} (m : IM A) F G : (forall tr, F tr) -> triple F m G -> respects (stays d) m.
Proof. intros H T w. apply T, H. Qed.

Lemma triple_weaken {A} (m : IM A) F F' (G G' : A -> trace -> Prop) :
  triple F m G -> (forall tr, F' tr -> F tr) -> (forall a tr, G a tr -> G' a tr) -> triple F' m G'.
Proof. intros T HF HG w Hw. destruct (T w (HF _ Hw)) as [S E]. split; [exact S|]. intros a Ha. apply HG, E, Ha. Qed.

Lemma triple_bind {A B} (m : IM A) (f : A -> IM B) F G H :
  triple F m G -> (forall a, triple (G a) (f a) H) -> triple F (m ≫= f) H.
Proof.
  intros T1 T2 w Hw. destruct (T1 w Hw) as [S1 E1]. unfold exec, eval in *. cbv [mbind IM_bind M_bind].
  destruct (m w) as [w1 [a|e]]; cbn [fst snd] in *; [|split; [exact S1 | discriminate]].
  destruct (T2 a w1 (E1 a eq_refl)) as [S2 E2]. split; [etrans; eassumption | exact E2].
Qed.

Lemma triple_ret {A} (a : A) F (G : A -> trace -> Prop) : (forall tr, F tr -> G a tr) -> triple F (mret a) G.
Proof. intros H w Hw. split; [reflexivity|]. cbn. intros b [= <-]. now apply H. Qed.

Lemma triple_raise {A} e F (G : A -> trace -> Prop) : triple F (raise e) G.
Proof. intros w Hw. split; [reflexivity | discriminate]. Qed.

Lemma triple_lift {A} (r : res exn A) F : triple F (lift r) (fun a tr => F tr /\ r = Ok a).
Proof. intros w Hw. split; [reflexivity|]. cbn. auto. Qed.

Lemma triple_lift_k {A} (r : res k_error A) F : triple F (lift_k r) (fun a tr => F tr /\ r = Ok a).
Proof. intros w Hw. split; [reflexivity|]. destruct r; cbn; [intros b [= <-]; auto | discriminate]. Qed.

Lemma triple_guard b e F : triple F (guard_not b e) (fun _ tr => F tr /\ b = false).
Proof. intros w Hw. split; [reflexivity|]. destruct b; cbn; [discriminate | auto]. Qed.

Lemma triple_modify f F : (forall w, w_trace (f w) = w_trace w) -> triple F (modify f) (fun _ => F).
Proof.
  intros H w Hw. split; [now apply stays_books|]. cbn. rewrite H. auto.
Qed.

Lemma triple_gets {A} (f : world -> A) F : triple F (gets f) (fun _ => F).
Proof. intros w Hw. split; [reflexivity|]. cbn. auto. Qed.

(** Neutral calls keep what lasts inside a guard, lenient ones what lasts. *)
Lemma triple_mild {A} (m : IM A) F :
  (forall R, Neutral R -> respects R m) -> kept mildly F -> triple F m (fun _ => F).
Proof.
  intros H K w Hw. split; [apply (H (stays d) _)|]. intros a _. exact (kept_grows mildly F w _ K (H (grows mildly) _ w) Hw).
Qed.

Lemma triple_neutral {A} (m : IM A) F :
  (forall R, Neutral R -> respects R m) -> kept plain F -> triple F m (fun _ => F).
Proof. intros H K. apply triple_mild; [exact H | now apply kept_mildly]. Qed.

Lemma triple_lenient {A} (m : IM A) F :
  (forall R, Lenient R -> respects R m) -> kept (fun _ => true) F -> triple F m (fun _ => F).
Proof.
  intros H K w Hw. split; [apply (H (stays d) _)|]. intros a _.
  exact (kept_grows (fun _ => true) F w _ K (H (grows (fun _ => true)) _ w) Hw).
Qed.

Lemma triple_mild_call {A} (c : call A) F (G : A -> trace -> Prop) :
  (forall tr r, F tr -> verified d tr (Ev c r)) -> kept mildly F -> (forall a tr, F tr -> G a (Ev c (Ok a) :: tr)) ->
  triple F (call_out d c) G.
Proof.
  intros Hv K HG w Hw. unfold exec, eval. rewrite call_out_run. cbv zeta. cbn [fst snd].
  set (w1 := exec (interleave d) w). assert (F (w_trace w1)) as Hw1.
  { apply (kept_grows mildly F w _ K); [apply respects_interleave | exact Hw]. }
  split; [etrans; [apply (respects_interleave d) | apply stays_push; now apply Hv]|].
  intros a E. cbn. rewrite E. now apply HG.
Qed.

Lemma triple_call {A} (c : call A) F (G : A -> trace -> Prop) :
  (forall tr r, F tr -> verified d tr (Ev c r)) -> kept plain F -> (forall a tr, F tr -> G a (Ev c (Ok a) :: tr)) ->
  triple F (call_out d c) G.
Proof. intros Hv K. apply triple_mild_call; [exact Hv | now apply kept_mildly]. Qed.

(** A call that publishes nothing is seen afterwards. *)
Lemma triple_seen {A} (c : call A) F :
  discreet c = true -> plain (Ev c (Err Interrupted)) = true -> kept plain F ->
  triple F (call_out d c) (fun a tr => F tr /\ seen c a tr).
Proof.
  intros Hd Hp K. apply triple_call; [|exact K|].
  - intros tr r _. destruct c; try exact I. cbn in *. intros ->. discriminate Hd.
  - intros a tr HF. split; [apply K; [destruct c; exact Hp | exact HF] | now left].
Qed.

Lemma triple_when b (m : IM unit) F G :
  (b = true -> triple F m (fun _ => G)) -> (b = false -> forall tr, F tr -> G tr) -> triple F (when b m) (fun _ => G).
Proof. intros Ht Hf. destruct b; cbn; [now apply Ht | apply triple_ret; now apply Hf]. Qed.

Lemma triple_attempt {A} (m : IM A) F G : triple F m G -> triple F (attempt m) (fun r tr => forall a, r = Ok a -> G a tr).
Proof.
  intros T w Hw. destruct (T w Hw) as [S E]. unfold exec, eval, attempt in *. destruct (m w) as [w1 r]. cbn [fst snd] in *.
  split; [exact S|]. intros b [= <-] a ->. now apply E.
Qed.

Lemma triple_lock {A} (m : IM A) F G : kept plain F -> (forall a, kept plain (G a)) -> triple F m G -> triple F (with_lock d m) G.
Proof.
  intros K KG T. unfold with_lock. eapply triple_bind; [apply triple_neutral; [intros; apply respects_interleave; assumption|exact K]|intros ?].
  eapply triple_bind; [apply triple_modify; reflexivity|intros ?].
  eapply triple_bind; [apply triple_attempt, T|intros r].
  eapply triple_bind; [apply triple_modify; reflexivity|intros ?].
  eapply triple_weaken; [apply triple_lift | intros tr H; exact H |]. intros v tr [H E]. now apply H.
Qed.

(** The body starts from what holds once the guard is taken. *)
Lemma triple_entering {A} g (m : IM A) F F' G :
  kept mildly F -> (forall tr, F tr -> F' (Ev (Enter g) (Ok tt) :: tr)) -> (forall a, kept (fun _ => true) (G a)) ->
  triple F' m G -> triple F (with_guard d g m) G.
Proof.
  intros K HF KG T. unfold with_guard. eapply triple_bind.
  { apply (triple_mild_call (Enter g) F (fun _ => F')); [intros; exact I | exact K |]. intros [] tr. apply HF. }
  intros ?. eapply triple_bind; [apply triple_attempt, T|intros r].
  eapply triple_bind.
  { apply (triple_call (Exit g) _ (fun _ tr => forall a, r = Ok a -> G a tr)).
    - intros; exact I.
    - intros tr e _ H v E. now apply KG, H.
    - intros u tr H v E. now apply KG, H. }
  intros ?. eapply triple_weaken; [apply triple_lift | intros tr H; exact H |]. intros v tr [H E]. now apply H.
Qed.

(** A guarded body keeps what lasts; inside, the guard has just been taken. *)
Lemma triple_guarded {A} g (m : IM A) F G :
  kept (fun _ => true) F -> (forall a, kept (fun _ => true) (G a)) ->
  triple (fun tr => F tr /\ (forall p, p g = true -> inside_guard p (fun _ => True) tr)) m G ->
  triple F (with_guard d g m) G.
Proof.
  intros K KG. apply triple_entering; [now apply kept_mildly, kept_weaken | | exact KG].
  intros tr HF. split; [now apply K|]. intros p Hp. exists []. cbn. now rewrite Hp.
Qed.

(** The same inside the guard of a document. *)
Lemma triple_document_guard {A} i (m : IM A) F G :
  kept (fun _ => true) F -> (forall a, kept (fun _ => true) (G a)) ->
  triple (fun tr => F tr /\ inside i (fun _ => True) tr) m G -> triple F (with_guard d (GDocument i) m) G.
Proof.
  intros K KG T. apply triple_guarded; [exact K | exact KG|]. eapply triple_weaken; [exact T | | auto].
  intros tr [HF H]. split; [exact HF|]. apply H. cbn. unfold str_eqb. now apply bool_decide_eq_true.
Qed.
End triples.

(** ** Publications are verified

    The facts of [IngestVerify], carried through the attempt, the recovery of a
    receipt and the rollback of a retirement. *)

(** Facts built from what was seen last. *)
Create HintDb kept.
#[export] Hint Resolve kept_seen kept_and kept_const kept_weaken kept_inside kept_inside_guard : kept.

Lemma kept_exists {X} p (F : X -> trace -> Prop) : (forall x, kept p (F x)) -> kept p (fun tr => exists x, F x tr).
Proof. intros K tr e He [x H]. exists x. now apply K. Qed.
Lemma kept_forall {X} p (F : X -> trace -> Prop) : (forall x, kept p (F x)) -> kept p (fun tr => forall x, F x tr).
Proof. intros K tr e He H x. now apply K. Qed.
Lemma kept_impl p (P : Prop) F : kept p F -> kept p (fun tr => P -> F tr).
Proof. intros K tr e He H HP. apply K; auto. Qed.
Lemma kept_or p F G : kept p F -> kept p G -> kept p (fun tr => F tr \/ G tr).
Proof. intros KF KG tr e He [H|H]; [left; now apply KF | right; now apply KG]. Qed.
#[export] Hint Resolve kept_exists kept_forall kept_impl kept_or : kept.

Lemma kept_owner p i a : kept p (owner_seen i a). Proof. unfold owner_seen. auto with kept. Qed.
Lemma kept_active p : kept p active_seen. Proof. unfold active_seen. auto 9 with kept. Qed.
Lemma kept_receipt p a n : kept p (receipt_seen a n). Proof. unfold receipt_seen. auto 9 with kept. Qed.
Lemma kept_written p b : kept p (fun tr => batch_written tr b). Proof. unfold batch_written. auto with kept. Qed.
Lemma kept_batches {X} p (P : trace -> X -> Prop) l : (forall x, kept p (fun tr => P tr x)) -> kept p (fun tr => Forall (P tr) l).
Proof. intros K tr e He H. eapply Forall_impl; [exact H|]. intros x Hx. now apply K. Qed.
#[export] Hint Resolve kept_owner kept_active kept_receipt kept_written kept_batches : kept.

Section attempt.
Context (d : adapters).

(** ** The fence of an attempt *)

Definition fence_seen (i attempt_id : string) (tr : trace) : Prop :=
  inside i (fun recent => owner_seen i attempt_id recent /\ active_seen recent) tr.

Lemma kept_fence i at_ : kept plain (fence_seen i at_).
Proof. unfold fence_seen. auto with kept. Qed.

Lemma active_collection_seen t w c col tr :
  seen (GetCollection t w c) col tr -> negb (active_collection col) = false -> active_seen tr.
Proof.
  intros H E. destruct col as [col|]; [|discriminate]. cbn in E. apply negb_false_iff, str_eqb_eq in E.
  exists t, w, c, col. auto.
Qed.

Lemma effect_owner_owns at_ doc u : require_effect_owner false at_ (Some doc) = Ok u -> require_owner (Some doc) at_ = Ok tt.
Proof. unfold require_effect_owner. cbn [andb]. destruct (require_owner (Some doc) at_) as [[]|]; [reflexivity | discriminate]. Qed.

Lemma triple_own_guard {A} a cb f i (body : IM A) F G :
  kept (fun _ => true) F -> (forall v, kept (fun _ => true) (G v)) ->
  triple d (fun tr => F tr /\ fence_seen i (f_attempt_id f) tr) body G ->
  triple d F (own_guard d a cb f i body) G.
Proof.
  intros K KG T. unfold own_guard, effect_guard.
  apply (triple_bind _ _ _ F (fun _ => F)); [apply triple_neutral; [intros; neutral | now apply kept_weaken]|].
  intros expected. apply triple_document_guard; [exact K | exact KG |].
  set (sc := scope_of d "get_document" (f_tenant_id f) (f_workspace_id f)).
  apply (triple_bind _ _ _ _ (fun doc tr => F tr /\ inside i (fun rec => True /\ seen (GetDocument i sc) doc rec) tr)).
  { apply triple_call.
    - intros; exact I.
    - apply kept_and; [now apply kept_weaken | auto with kept].
    - intros doc tr [HF Hi]. split; [now apply K | apply inside_new; auto with kept]. }
  intros doc. eapply triple_bind; [apply triple_lift|intros u]. eapply triple_bind; [apply triple_lift|intros u'].
  apply (triple_bind _ _ _ _ (fun _ tr => F tr /\ fence_seen i (f_attempt_id f) tr)).
  - destruct doc as [doc|]; [|intros w [[_ E] _]; discriminate E].
    eapply triple_bind; [apply triple_neutral; [intros; neutral|]|intros u2].
    { repeat apply kept_and; auto with kept. }
    set (cc := GetCollection (f_tenant_id f) (f_workspace_id f) (d_collection_id doc)).
    apply (triple_bind _ _ _ _ (fun col tr => (F tr /\ require_effect_owner false (f_attempt_id f) (Some doc) = Ok u)
              /\ inside i (fun rec => (True /\ seen (GetDocument i sc) (Some doc) rec) /\ seen cc col rec) tr)).
    { apply triple_call.
      - intros; exact I.
      - repeat apply kept_and; auto with kept.
      - intros col tr [[[HF Hi] E] _]. split; [split; [now apply K | exact E] | apply inside_new; auto with kept]. }
    intros col. eapply triple_weaken; [apply triple_guard | intros tr H; exact H|].
    intros v tr [[[HF E] Hi] Ha]. split; [exact HF|]. refine (inside_mono _ _ _ _ _ Hi).
    intros rec [[_ Hd] Hc]. split; [|exact (active_collection_seen _ _ _ _ _ Hc Ha)].
    exists sc, doc. split; [exact Hd|]. exact (effect_owner_owns _ _ _ E).
  - intros u2. apply (triple_bind _ _ _ _ G); [exact T|]. intros r.
    assert (kept plain (G r)) as KGr by (apply kept_weaken, KG).
    eapply triple_bind; [apply triple_neutral; [intros; apply respects_get_document; assumption | exact KGr]|intros doc'].
    eapply triple_bind; [apply triple_lift|intros v1]. eapply triple_bind; [apply triple_lift|intros v2].
    apply triple_ret. tauto.
Qed.

(** ** The decision of an attempt *)

Lemma triple_any {A} (m : IM A) F : respects (stays d) m -> triple d F m (fun _ _ => True).
Proof. intros H w _. split; [apply H | auto]. Qed.

Lemma stays_change a f : respects (stays d) (change a f).
Proof. intros w. now apply stays_books. Qed.

Lemma stays_transition a to ec m p : respects (stays d) (transition d a to ec m p).
Proof. unfold transition, transition_now. neutral. apply stays_change. Qed.

Lemma stays_project a key : respects (stays d) (project_publication d a key).
Proof. unfold project_publication. neutral; apply stays_transition. Qed.

(** What a publication by the attempt rests on, before its receipt. *)
Definition ready_seen (i attempt_id : string) (n : Z) (tr : trace) : Prop :=
  (indexed d i n tr /\ counted i n tr) /\ fence_seen i attempt_id tr.

Lemma kept_indexed p i n : kept p (indexed d i n).
Proof.
  intros tr e He (sc & chunks & doc & vs & ps & bs & now & H1 & H2 & H3 & H4 & H5 & H6 & H7).
  exists sc, chunks, doc, vs, ps, bs, now. split_and!; try assumption.
  - now right.
  - destruct H6 as [H6|H6]; [left; now right | now right].
  - exact (kept_batches p batch_written bs (kept_written p) tr e He H7).
Qed.

Lemma kept_counted p i n : kept p (counted i n).
Proof. unfold counted. auto 9 with kept. Qed.

Lemma kept_ready i at_ n : kept plain (ready_seen i at_ n).
Proof. apply kept_and; [apply kept_and; [apply kept_indexed | apply kept_counted] | apply kept_fence]. Qed.

(** With a receipt, when the adapter keeps receipts. *)
Lemma triple_begun a j f n i :
  offers d "begin_publication" = true ->
  triple d (ready_seen i (f_attempt_id f) n)
    (call_out d (BeginPublication j None n);; change_frame frame_attempted;; add_pending (ij_job_id j);;
     (found ← call_out d (GetPublication (frame_key f j));
      match found with
      | None => mret tt
      | Some receipt =>
          guard_not (negb (str_eqb (rc_attempt_id receipt) (f_attempt_id f))
                     || negb (bool_decide (rc_outcome receipt = pending))) OwnershipLost;;
          when (rc_cancel_requested receipt) (change a (with_cancel_requested true);; raise CancellationRequested)
      end))
    (fun _ => attempt_verified d i).
Proof.
  intros Hb. set (P rec := owner_seen i (f_attempt_id f) rec /\ active_seen rec).
  set (B := BeginPublication j None n). set (IC tr := indexed d i n tr /\ counted i n tr).
  assert (kept (fun _ => true) IC) as KIC by (apply kept_and; [apply kept_indexed | apply kept_counted]).
  assert (kept (fun _ => true) P) as KP by (unfold P; auto with kept).
  apply (triple_bind _ _ _ _ (fun _ tr => IC tr /\ inside i (fun rec => P rec /\ seen B tt rec) tr)).
  { apply triple_call; [intros; exact I | apply kept_ready|].
    intros [] tr [HI Hf]. split; [now apply KIC | apply inside_new; auto with kept]. }
  intros u. eapply triple_bind; [apply triple_modify; reflexivity|intros u1].
  eapply triple_bind; [apply triple_modify; reflexivity|intros u2].
  set (G := GetPublication (frame_key f j)).
  apply (triple_bind _ _ _ _ (fun found tr => IC tr /\ inside i (fun rec => (P rec /\ seen B tt rec) /\ seen G found rec) tr)).
  { apply triple_call; [intros; exact I | |].
    - apply kept_and; [now apply kept_weaken | auto with kept].
    - intros found tr [HI Hf]. split; [now apply KIC | apply inside_new; auto with kept]. }
  intros found.
  assert (forall tr, IC tr /\ inside i (fun rec => (P rec /\ seen B tt rec) /\ seen G found rec) tr ->
    (forall r, found = Some r -> rc_attempt_id r = f_attempt_id f /\ rc_outcome r = pending /\ rc_cancel_requested r = false) ->
    attempt_verified d i tr) as Done.
  { intros tr [[HI HC] Hin] Hr. exists (f_attempt_id f), n. split; [exact HI|]. split; [exact HC|].
    refine (inside_mono _ _ _ _ _ Hin). intros rec [[[Ho Ha] HB] HG]. split; [exact Ho|]. split; [exact Ha|].
    intros _. exists j, (frame_key f j), found. auto. }
  destruct found as [r|]; [|apply triple_ret; intros tr H; apply (Done tr H); discriminate].
  eapply triple_bind; [apply triple_guard|intros u3].
  destruct (rc_cancel_requested r) eqn:Hc; cbn [when].
  - eapply triple_bind; [apply triple_any, stays_change|intros u4]. apply triple_raise.
  - apply triple_ret. intros tr [H E]. apply (Done tr H). intros r' [= <-].
    apply orb_false_iff in E as [E1 E2]. apply negb_false_iff in E1, E2. apply str_eqb_eq in E1. apply bool_decide_eq_true in E2. auto.
Qed.

Lemma triple_ext {A} (m m' : IM A) F G : (forall w, m w = m' w) -> triple d F m' G -> triple d F m G.
Proof. intros E T w Hw. unfold exec, eval. rewrite E. now apply T. Qed.

Lemma bind_assoc {A B C} (m : IM A) (f : A -> IM B) (g : B -> IM C) w :
  (m ≫= fun a => f a ≫= g) w = ((m ≫= f) ≫= g) w.
Proof. cbv [mbind IM_bind M_bind]. now destruct (m w) as [w1 [a|e]]. Qed.

Lemma bind_ext {A B} (m : IM A) (f g : A -> IM B) w : (forall a w', f a w' = g a w') -> (m ≫= f) w = (m ≫= g) w.
Proof. intros H. cbv [mbind IM_bind M_bind]. destruct (m w) as [w1 [a|e]]; [apply H | reflexivity]. Qed.

Lemma triple_set_published i f F (G : unit -> trace -> Prop) :
  (forall tr, F tr -> verified d tr (Ev (SetStatus i "published" (scope_of d "set_document_status" (f_tenant_id f) (f_workspace_id f))) (Ok tt))) ->
  kept plain F -> (forall u tr, G u tr) -> triple d F (set_document_status d i "published" (f_tenant_id f) (f_workspace_id f)) G.
Proof.
  intros Hv K HG. apply triple_call; [|exact K | intros; apply HG]. intros tr r HF. exact (Hv tr HF).
Qed.

Lemma kept_verified i : kept plain (attempt_verified d i).
Proof.
  unfold attempt_verified. apply kept_exists; intros at_. apply kept_exists; intros n.
  apply kept_and; [apply kept_indexed|]. apply kept_and; [apply kept_counted|]. apply kept_inside. auto with kept.
Qed.

(** The decision publishes under a verified receipt. *)
Lemma triple_decide a cb f i n :
  triple d (ready_seen i (f_attempt_id f) n) (decide_publication d a cb f i n) (fun _ _ => True).
Proof.
  unfold decide_publication. apply triple_lock; [apply kept_ready | intros; apply kept_const|].
  eapply triple_bind; [apply triple_neutral; [intros; apply respects_checkpoint; assumption | apply kept_ready]|intros u].
  eapply triple_bind; [apply triple_gets|intros j].
  assert (forall F, (forall tr, F tr -> attempt_verified d i tr) -> kept plain F ->
    triple d F (set_document_status d i "published" (f_tenant_id f) (f_workspace_id f);;
      change_frame (frame_committed true);; project_publication d a (frame_key f j)) (fun _ _ => True)) as Rest.
  { intros F HF K. eapply triple_bind; [apply (triple_set_published i f F (fun _ _ => True)); [|exact K|auto]|intros u1].
    - intros tr H _. left. now apply HF.
    - apply triple_any. neutral. apply stays_project. }
  destruct (offers d "begin_publication") eqn:Hb; cbn [when].
  - eapply triple_ext.
    { intros w. etrans; [apply bind_ext; intros u1 w1; etrans; [apply bind_ext; intros u2 w2; apply bind_assoc | apply bind_assoc] | apply bind_assoc]. }
    eapply triple_bind; [apply (triple_begun a j f n i Hb)|intros u1]. apply Rest; [auto | apply kept_verified].
  - apply (triple_bind _ _ _ _ (fun _ => ready_seen i (f_attempt_id f) n)); [apply triple_ret; auto|intros u1].
    eapply triple_bind; [apply triple_modify; reflexivity|intros u2].
    eapply triple_bind; [apply triple_modify; reflexivity|intros u3].
    apply (triple_bind _ _ _ _ (fun _ => ready_seen i (f_attempt_id f) n)); [apply triple_ret; auto|intros u4].
    apply Rest; [|apply kept_ready]. intros tr [[HI HC] Hf]. exists (f_attempt_id f), n. split; [exact HI|]. split; [exact HC|].
    refine (inside_mono _ _ _ _ _ Hf). intros rec [Ho Ha]. split; [exact Ho|]. split; [exact Ha|]. intros E. rewrite E in Hb. discriminate Hb.
Qed.

(** ** Embeddings *)

Lemma res_forall_true {A} (p : A -> res exn bool) l : res_forall p l = Ok true -> Forall (fun x => p x = Ok true) l.
Proof.
  induction l as [|x l IH]; cbn; [constructor|]. destruct (p x) as [[]|] eqn:E; cbn; [|discriminate|discriminate].
  intros H. constructor; [exact E | now apply IH].
Qed.

Lemma validate_embeddings_ok v n l :
  _validate_embeddings v n (embedding_dimensions d) = Ok l -> Z.of_nat (length l) = n /\ Forall (valid_vector d) l.
Proof.
  unfold _validate_embeddings. destruct v as [| | | | |vs|]; try discriminate.
  destruct (Z.of_nat (length vs) =? n) eqn:E; cbn; [|discriminate]. unfold valid_vector.
  destruct (embedding_dimensions d) as [| |dim| | | |]; try discriminate.
  destruct (dim <=? 0); cbn; [discriminate|]. destruct (res_forall _ vs) as [[]|] eqn:F; cbn; try discriminate.
  intros [= <-]. split; [lia|]. apply res_forall_true in F. eapply Forall_impl; [exact F|]. eauto.
Qed.

(** What [embed_from] returns extends what it started from, by as many valid
    vectors as there are texts. *)
Definition embedded (vs : list pyval) (k : nat) (out : list pyval) : Prop :=
  exists more, out = vs ++ more /\ length more = k /\ Forall (valid_vector d) more.

Lemma embed_batch_ok b w l : eval (embed_batch d b) w = Ok l -> length l = length b /\ Forall (valid_vector d) l.
Proof.
  unfold embed_batch, catching, try_except, eval. cbv [mbind IM_bind M_bind].
  destruct (call_out d (Embed b) w) as [w1 [v|e]]; [|destruct (_ && _); discriminate].
  unfold lift. destruct (_validate_embeddings _ _ _) as [l'|e] eqn:E; cbn; [|destruct (_ && _); discriminate].
  intros [= ->]. apply validate_embeddings_ok in E as [L V]. split; [lia | exact V].
Qed.

Lemma embed_from_ok a cb : forall fuel ph texts vs w out ph',
  (length texts <= fuel)%nat -> eval (embed_from d fuel a cb ph texts vs) w = Ok (out, ph') -> embedded vs (length texts) out.
Proof.
  induction fuel as [|fuel IH]; intros ph texts vs w out ph' Hf.
  { destruct texts; [|cbn in Hf; lia]. cbn. intros [= <- <-]. exists []. rewrite app_nil_r. auto. }
  destruct texts as [|t texts]; [cbn; intros [= <- <-]; exists []; rewrite app_nil_r; auto|].
  cbn [embed_from]. set (batch := take _ _). set (rest := drop _ _).
  assert (length batch + length rest = length (t :: texts))%nat as Hlen by (rewrite <- length_app; unfold batch, rest; now rewrite take_drop).
  assert (length rest < length (t :: texts))%nat as Hlt by (unfold rest; rewrite length_drop; unfold MAX_EMBEDDING_BATCH; cbn [length]; lia).
  unfold eval. cbv [mbind IM_bind M_bind]. destruct (_checkpoint d a cb w) as [w1 [u|e]]; [|discriminate].
  destruct (embed_batch d batch w1) as [w2 [l|e]] eqn:E1; [|discriminate].
  destruct (embed_batch_ok batch w1 l) as [Hl Hv]; [unfold eval; now rewrite E1|].
  match goal with |- snd (let (s', r) := ?m in _) = _ -> _ => destruct m as [w3 [ph2|e]] eqn:E2; [|discriminate] end.
  intros H. apply IH in H; [|cbn [length] in *; lia]. destruct H as (more & -> & L & V).
  exists (l ++ more). rewrite app_assoc. split; [reflexivity|]. split; [rewrite length_app; lia | now apply Forall_app].
Qed.

(** One valid vector for every text. *)
Lemma embed_ok a cb ph plans w out ph' :
  eval (_embed_in_batches d a cb ph plans) w = Ok (out, ph') -> length out = length plans /\ Forall (valid_vector d) out.
Proof.
  unfold _embed_in_batches, eval. cbv zeta. cbv [mbind IM_bind M_bind].
  unfold lift at 1. destruct (resumed_vectors ph (embedding_dimensions d)) as [vs|e] eqn:E0; [|discriminate].
  unfold guard_not, lift. destruct (raise_if _ _) as [[]|] eqn:E1; [|discriminate]. apply raise_if_Ok in E1.
  intros H. apply orb_false_iff in E1 as [E1 _]. apply Nat.ltb_ge in E1. rewrite length_map in E1.
  apply (embed_from_ok a cb) in H; [|rewrite length_drop, length_map; lia].
  destruct H as (more & -> & L & V). rewrite length_drop, length_map in L. split; [rewrite length_app; lia|].
  apply Forall_app. split; [|exact V].
  unfold resumed_vectors in E0. destruct ph as [[fp arts]|]; [|injection E0 as <-; constructor].
  destruct (dict_get "vectors" arts) as [[| | | | |l|]|]; try (destruct (py_truthy _); discriminate); [|injection E0 as <-; constructor].
  destruct (bool_decide _); [injection E0 as <-; constructor|]. now apply validate_embeddings_ok in E0.
Qed.

Lemma triple_eval {A} (m : IM A) F P :
  (forall R, Neutral R -> respects R m) -> kept plain F -> (forall w a, eval m w = Ok a -> P a) ->
  triple d F m (fun a tr => F tr /\ P a).
Proof.
  intros H K HP w Hw. destruct (triple_neutral d m F H K w Hw) as [S E]. split; [exact S|]. intros a Ha. split; [exact (E a Ha) | now apply (HP w a)].
Qed.

Lemma triple_outputs a cb pr F :
  kept plain F -> triple d F (outputs d a cb pr)
    (fun out tr => F tr /\ length (snd (fst out)) = length (fst (fst out)) /\ Forall (valid_vector d) (snd (fst out))).
Proof.
  intros K. apply triple_eval; [intros; apply respects_outputs; assumption | exact K|].
  intros w [[plans vs] ph]. unfold outputs, eval. cbv [mbind IM_bind M_bind].
  destruct (parse_stage _ _ _ _ w) as [w1 [parsed|e]]; [|discriminate].
  destruct (chunk_stage _ _ _ _ _ _ w1) as [w2 [pl|e]]; [|discriminate].
  destruct (advance _ _ _ _ _ w2) as [w3 [u|e]]; [|discriminate].
  destruct (_embed_in_batches _ _ _ _ _ w3) as [w4 [[out ph']|e]] eqn:E; [|discriminate].
  cbn. intros [= <- <- <-]. apply (embed_ok a cb (snd pl) (fst pl) w3 out ph'). unfold eval. now rewrite E.
Qed.
End attempt.
