(* ===== verification/IngestPublish.v ===== *)
(** * Publication, its attempts and its rollback

    The triples of the publishing attempt, of the recovery of an interrupted one, of the
    restoration of the previous version and of the retirement that follows a publication. *)

From Stdlib Require Import Ascii String.
From stdpp Require Import strings list.
From S2P Require Import Prelude PyFloat PyStr PyVal IngestionJobs StateError KnowledgeModels Publication Identity.
From S2P Require Import Chunking IngestPorts IngestRetire IngestRecover IngestPipeline IngestLogic IngestVerify.

Local Open Scope string_scope.
Local Open Scope Z_scope.
Local Open Scope list_scope.

(** ** Verified attempts

    What an attempt knows at each of its stages, up to its publication: the
    batches it wrote, the count it read, the receipt it began. *)

(** Consecutive slices are the list again. *)
Lemma concat_slices {A} k fuel (l : list A) : (0 < k)%nat -> (length l <= fuel)%nat -> concat (slices fuel k l) = l.
Proof.
  intros Hk. revert l. induction fuel as [|fuel IH]; intros l Hl; [now destruct l; [|cbn in Hl; lia]|].
  destruct l as [|x l]; [reflexivity|]. cbn [slices concat]. rewrite IH; [apply take_drop|].
  rewrite length_drop. cbn [length] in *. lia.
Qed.

Section attempts.
Context (d : adapters).

Lemma triple_pure {A} (P : Prop) (m : IM A) F G : (P -> triple d F m G) -> triple d (fun tr => F tr /\ P) m G.
Proof. intros T w [HF HP]. exact (T HP w HF). Qed.

(** ** Indexing *)

Lemma triple_plan_batches a ph points F :
  kept plain F ->
  triple d F (plan_batches d a ph points) (fun batches tr => F tr /\ (seen (PlanBatches points) batches tr \/ concat batches = points)).
Proof.
  intros K. unfold plan_batches.
  apply (triple_bind _ _ _ _ (fun batches tr => F tr /\ (seen (PlanBatches points) batches tr \/ concat batches = points))).
  - destruct (offers d "plan_upsert_batches").
    + eapply triple_weaken; [apply triple_seen; [reflexivity | reflexivity | exact K] | tauto |]. intros b tr [HF H]. auto.
    + apply triple_ret. intros tr HF. split; [exact HF|]. right. apply concat_slices; [unfold MAX_EMBEDDING_BATCH; lia | lia].
  - intros batches. eapply triple_bind; [|intros u; apply triple_ret; intros tr H; exact H].
    apply triple_neutral; [intros; neutral|]. apply kept_and; [exact K|]. auto with kept.
Qed.

Lemma triple_write_batches a cb f i batches F : kept (fun _ => true) F -> forall n,
  triple d F (write_batches d a cb f i n batches) (fun _ tr => F tr /\ Forall (batch_written tr) batches).
Proof.
  intros K. induction batches as [|b batches IH]; intros n; cbn [write_batches].
  { apply triple_ret. intros tr HF. auto. }
  eapply triple_bind.
  { apply (triple_own_guard d a cb f i _ F (fun v tr => F tr /\ seen (UpsertPoints b) v tr)); [exact K | |].
    - intros v. apply kept_and; [exact K | auto with kept].
    - eapply triple_weaken; [apply triple_seen; [reflexivity | reflexivity |] | intros tr H; exact H |].
      + apply kept_and; [now apply kept_weaken | apply kept_fence].
      + intros v tr [[HF _] H]. auto. }
  intros written. eapply triple_bind; [apply triple_guard|intros u].
  intros w [[HF H] E]. apply negb_false_iff in E. destruct written; try discriminate E. cbn in E. apply Z.eqb_eq in E. subst.
  assert (triple d (fun tr => F tr /\ batch_written tr b) (write_batches d a cb f i (n + Z.of_nat (length b)) batches)
    (fun _ tr => F tr /\ Forall (batch_written tr) (b :: batches))) as T; [|apply (T w); auto].
  intros w' [HF' Hb]. pose proof (respects_write_batches (R := grows (fun _ => true)) d a cb f i batches (n + Z.of_nat (length b)) w') as Hg.
  destruct (IH (n + Z.of_nat (length b)) w' HF') as [S E]. split; [exact S|]. intros z Hz. destruct (E z Hz) as [HF2 HB].
  split; [exact HF2|]. constructor; [|exact HB]. exact (kept_grows _ (fun tr => batch_written tr b) w' _ (kept_written _ _) Hg Hb).
Qed.

Lemma triple_index a cb f doc i plans vs ph :
  length vs = length plans -> Forall (valid_vector d) vs ->
  triple d (fun _ => True) (index d a cb f doc i plans vs ph) (fun n => indexed d i n).
Proof.
  intros Hlen Hv. unfold index. cbv zeta. set (chunks := map (knowledge_chunk d f i) plans).
  set (sc := scope_of d "replace_document_chunks" (f_tenant_id f) (f_workspace_id f)).
  set (Stored := seen (ReplaceChunks i chunks sc) tt).
  eapply triple_bind.
  { apply (triple_own_guard d a cb f i _ (fun _ => True) (fun _ => Stored)); [apply kept_const | intros; apply kept_seen|].
    eapply triple_weaken; [apply triple_seen; [reflexivity | reflexivity |] | intros tr H; exact H |].
    - apply kept_and; [apply kept_const | apply kept_fence].
    - intros [] tr [_ H]. exact H. }
  intros u. eapply triple_bind; [apply triple_gets|intros now].
  eapply triple_bind; [apply triple_lift|intros points].
  eapply triple_bind; [apply triple_plan_batches; unfold Stored; auto with kept|intros batches].
  eapply triple_bind; [apply triple_write_batches; unfold Stored; repeat apply kept_and; auto with kept|intros done].
  eapply triple_bind; [apply triple_modify; reflexivity|intros u2].
  apply triple_ret. intros tr [[[H1 H2] H3] H4].
  exists sc, chunks, doc, vs, points, batches, now. split; [reflexivity|]. split; [exact H1|].
  split; [unfold chunks; now rewrite length_map|]. auto.
Qed.

(** ** Verification and publication *)

Lemma triple_verify a cb f pr n F :
  kept plain F -> triple d F (verify d a cb f pr n) (fun _ tr => F tr /\ counted (pr_document_id pr) n tr).
Proof.
  intros K. unfold verify. eapply triple_bind; [apply triple_neutral; [intros; apply respects_advance; discriminate | exact K]|intros u].
  eapply triple_bind; [apply triple_seen; [reflexivity | reflexivity | exact K]|intros count].
  eapply triple_bind; [apply triple_lift|intros missing]. eapply triple_bind; [apply triple_guard|intros u1].
  eapply triple_weaken; [apply triple_neutral; [intros; neutral|] | intros tr H; exact H |].
  - repeat apply kept_and; auto with kept.
  - intros u2 tr [[[HF Hc] E] ->]. split; [exact HF|]. eexists _, _, count. eauto.
Qed.

Lemma triple_publication_guard {A} args (m : IM A) F G :
  kept (fun _ => true) F -> (forall a, kept (fun _ => true) (G a)) -> triple d F m G -> triple d F (with_publication_guard d args m) G.
Proof.
  intros K KG T. unfold with_publication_guard. destruct (ia_guard args) as [check|]; [|exact T].
  apply triple_guarded; [exact K | exact KG |]. eapply triple_bind; [|intros u; exact T].
  eapply triple_weaken; [apply (triple_neutral d _ F); [intros; neutral | now apply kept_weaken] | tauto | auto].
Qed.

Lemma stays_finish e : respects (stays d) (finish_publication d e).
Proof. unfold finish_publication. neutral. apply stays_project. Qed.

Lemma triple_publish args a f pr n :
  triple d (indexed d (pr_document_id pr) n) (publish d args a f pr n) (fun _ _ => True).
Proof.
  unfold publish. eapply triple_bind; [apply triple_verify; apply kept_indexed|intros u].
  eapply triple_bind; [|intros u1; apply triple_any, stays_finish].
  apply (triple_publication_guard args _ _ (fun _ _ => True)).
  1: apply kept_and; [apply kept_indexed | apply kept_counted].
  1: intros; apply kept_const.
  eapply triple_weaken; [apply (triple_guarded d _ _ (fun tr => indexed d (pr_document_id pr) n tr /\ counted (pr_document_id pr) n tr) (fun _ _ => True)) | tauto | auto].
  - apply kept_and; [apply kept_indexed | apply kept_counted].
  - intros; apply kept_const.
  - eapply triple_weaken; [apply triple_own_guard with (G := fun _ _ => True) | intros tr [H _]; exact H | auto].
    + apply kept_and; [apply kept_indexed | apply kept_counted].
    + intros; apply kept_const.
    + apply triple_decide.
Qed.

Lemma stays_duplicate args : respects (stays d) (publish_duplicate d args).
Proof.
  unfold publish_duplicate, with_publication_guard, decide_duplicate. lenient; try apply stays_project; apply stays_finish.
Qed.

Lemma stays_run_attempt args ctx : respects (stays d) (run_attempt d args ctx).
Proof.
  apply (triple_respects d _ (fun _ => True) (fun _ _ => True)); [auto|]. unfold run_attempt.
  eapply triple_bind; [apply triple_any; neutral|intros f]. cbv zeta.
  eapply triple_bind; [apply triple_any; neutral|intros pr].
  destruct (is_published (pr_existing pr)); [apply triple_any, stays_duplicate|].
  eapply triple_bind; [apply triple_outputs, kept_const|intros [[plans vs] ph]]. cbn [fst snd].
  apply triple_pure. intros [Hlen Hv].
  eapply triple_bind; [apply triple_any; lenient|intros claimed].
  destruct claimed as [doc|]; [|apply triple_any, stays_duplicate].
  eapply triple_bind; [now apply triple_index|intros n]. apply triple_publish.
Qed.
End attempts.

(** ** Verified recoveries and restorations

    What is known when the recovery of a pending receipt publishes a document,
    and when a failed retirement puts the replaced version back. *)

Section rules.
Context (d : adapters).

(** Nothing is known in a handler. *)
Lemma triple_catching {A} p (m : IM A) h F G :
  triple d F m G -> (forall e, p e = true -> triple d (fun _ => True) (h e) G) -> triple d F (catching p m h) G.
Proof.
  intros T H w Hw. destruct (T w Hw) as [S E]. unfold exec, eval, catching, try_except in *.
  destruct (m w) as [w1 [a|e]]; cbn [fst snd] in *; [auto|].
  destruct (p e) eqn:Hp; [|split; [exact S | discriminate]].
  destruct (H e Hp w1 I) as [S2 E2]. split; [etrans; eassumption | exact E2].
Qed.

(** After a call that raised, what lasts still holds. *)
Lemma triple_catching_call {A} p (c : call A) h F (G : A -> trace -> Prop) :
  discreet c = true -> plain (Ev c (Err Interrupted)) = true -> kept plain F ->
  (forall a tr, F tr -> G a (Ev c (Ok a) :: tr)) -> (forall e, triple d F (h e) G) -> triple d F (catching p (call_out d c) h) G.
Proof.
  intros Hd Hp K HG H w Hw.
  assert (forall e, verified d (w_trace (exec (interleave d) w)) (Ev c e)) as Hv.
  { intros e. destruct c; try exact I. cbn in *. intros ->. discriminate Hd. }
  assert (forall r, stays d w (push (Ev c r) (exec (interleave d) w))) as S.
  { intros r. etrans; [apply (respects_interleave d) | apply stays_push, Hv]. }
  assert (F (w_trace (exec (interleave d) w))) as H1.
  { apply (kept_grows mildly F w _ (kept_mildly _ K)); [apply respects_interleave | exact Hw]. }
  unfold exec, eval, catching, try_except. rewrite call_out_run. cbv zeta. fold (exec (interleave d) w).
  destruct (answer d A c _) as [a|e] eqn:E; cbn [fst snd].
  - split; [apply S|]. intros b [= <-]. cbn. apply HG, H1.
  - destruct (p e); [|split; [apply S | discriminate]].
    assert (F (w_trace (push (Ev c (Err e)) (exec (interleave d) w)))) as H2 by (apply K; [now destruct c | exact H1]).
    destruct (H e _ H2) as [S2 E2]. split; [etrans; [apply S | exact S2] | exact E2].
Qed.

Lemma triple_or_raise {A} e (o : option A) F : triple d F (or_raise e o) (fun a tr => F tr /\ o = Some a).
Proof. unfold or_raise. destruct o; [apply triple_ret; auto | apply triple_raise]. Qed.

(** A call inside a guard is seen there. *)
Lemma triple_inside {A} (c : call A) p P :
  discreet c = true -> plain (Ev c (Err Interrupted)) = true -> kept (fun _ => true) P ->
  triple d (inside_guard p P) (call_out d c) (fun a => inside_guard p (fun rec => P rec /\ seen c a rec)).
Proof.
  intros Hd Hp K. apply triple_call; [| now apply kept_inside_guard |].
  - intros tr r _. destruct c; try exact I. cbn in *. intros ->. discriminate Hd.
  - intros a tr H. apply inside_new; [now destruct c | exact K | exact H].
Qed.

Lemma inside_pure p (P : trace -> Prop) (Q : Prop) tr : inside_guard p P tr -> Q -> inside_guard p (fun rec => P rec /\ Q) tr.
Proof. intros H HQ. refine (inside_mono _ _ _ _ _ H). auto. Qed.

Lemma stays_set_status i s t w : s <> "published" -> respects (stays d) (set_document_status d i s t w).
Proof. intros H. apply respects_call. intros r w'. apply stays_push. intros E. destruct (H E). Qed.
End rules.

(** The operations that publish nothing. *)
Ltac stay_step := first
  [ lazymatch goal with
    | |- respects (stays _) (transition _ _ _ _ _ _) => apply stays_transition
    | |- respects (stays _) (change _ _) => apply stays_change
    | |- respects (stays _) (modify _) => intros ?; apply stays_books; reflexivity
    | |- respects (stays _) (set_document_status _ _ _ _ _) => apply stays_set_status; discriminate
    | |- respects (stays _) (project_publication _ _ _) => apply stays_project
    | |- respects (stays _) (finish_publication _ _) => apply stays_finish
    end
  | progress unfold delete_vectors, delete_row, replace_document_chunks
  | lenient_step ].
Ltac stay := repeat stay_step.

Section recovery.
Context (d : adapters).

(** ** A pending receipt *)

Definition observed_points (record : Receipt) (points : list pyval) (tr : trace) : Prop :=
  exists raw,
    (seen (SnapshotDocument (rc_document_id record) (rc_collection_id record) (rc_tenant_id record) (rc_workspace_id record)) raw tr
     \/ exists b, seen (AllPoints b) raw tr)
    /\ snapshot_from (in_scope (rc_document_id record) (rc_collection_id record) (rc_tenant_id record) (rc_workspace_id record)) 0 0 raw
       = Ok points.

Lemma triple_snapshot record p P :
  kept (fun _ => true) P ->
  triple d (inside_guard p P)
    (_snapshot_points d (rc_document_id record) (rc_collection_id record) (rc_tenant_id record) (rc_workspace_id record))
    (fun points => inside_guard p (fun rec => P rec /\ observed_points record points rec)).
Proof.
  intros K. unfold _snapshot_points, unavailable.
  set (sn := SnapshotDocument (rc_document_id record) (rc_collection_id record) (rc_tenant_id record) (rc_workspace_id record)).
  eapply (triple_bind _ _ _ _ (fun raw => inside_guard p (fun rec => P rec /\ (seen sn raw rec \/ exists b, seen (AllPoints b) raw rec)))).
  - destruct (offers d "snapshot_document"); [|destruct (offers d "all_points"); [|apply triple_raise]].
    + apply triple_catching; [|intros; apply triple_raise].
      eapply triple_weaken; [apply (triple_inside d sn p P); [reflexivity | reflexivity | exact K] | auto |].
      intros raw tr H. refine (inside_mono _ _ _ _ _ H). tauto.
    + apply triple_catching; [|intros; apply triple_raise].
      apply triple_catching_call; [reflexivity | reflexivity | now apply kept_inside_guard | |].
      * intros raw tr H. refine (inside_mono _ _ _ _ _ (inside_new _ _ (AllPoints true) raw tr eq_refl K H)). intuition eauto.
      * intros e. eapply triple_weaken; [apply (triple_inside d (AllPoints false) p P); [reflexivity | reflexivity | exact K] | auto |].
        intros raw tr H. refine (inside_mono _ _ _ _ _ H). intuition eauto.
  - intros raw. eapply triple_weaken; [apply triple_lift | intros tr H; exact H |]. intros points tr [H E].
    refine (inside_mono _ _ _ _ _ H). intros rec [HP Hs]. split; [exact HP|]. exists raw. auto.
Qed.

Lemma outputs_saved_facts record document chunks c manifest vectors :
  outputs_saved record document chunks c = Ok (Some (manifest, vectors)) ->
  ck_attempt_id c = rc_attempt_id record /\ dict_read "point_manifest" (ck_artifacts c) = VStr manifest.
Proof.
  unfold outputs_saved. destruct (_ || _) eqn:E; [discriminate|].
  apply orb_false_iff in E as [E _]. apply orb_false_iff in E as [E _]. apply negb_false_iff, str_eqb_eq in E.
  destruct (match ck_fingerprint c with VDict f => _ | _ => _ end) as [fp|]; [cbn [mbind res_mbind]|discriminate].
  destruct (dict_read "point_manifest" _) eqn:Em; try discriminate.
  destruct (dict_read "vectors" _); try discriminate. destruct (_ || _); [discriminate|]. intros [= <- <-]. auto.
Qed.

Lemma kept_points_verified p record : kept p (points_verified record).
Proof. unfold points_verified. repeat (apply kept_exists; intros). repeat apply kept_and; auto with kept. Qed.
Hint Resolve kept_points_verified : kept.

Lemma triple_verify_points record document chunks p P :
  kept (fun _ => true) P ->
  triple d (inside_guard p P) (_verify_pending_points d record document chunks)
    (fun v tr => v = true -> inside_guard p (fun rec => P rec /\ points_verified record rec) tr).
Proof.
  intros K. unfold _verify_pending_points.
  eapply triple_bind; [apply (triple_inside d _ p P); [reflexivity | reflexivity | exact K]|intros [c|]; [|apply triple_ret; discriminate]].
  eapply triple_bind; [apply triple_lift|intros [[manifest vectors]|]; [|apply triple_ret; discriminate]].
  set (P1 := fun rec => P rec /\ seen (GetCheckpoint (receipt_key record)) (Some c) rec).
  set (Saved := outputs_saved record document chunks c = Ok (Some (manifest, vectors))).
  assert (kept (fun _ => true) (fun rec => P1 rec /\ Saved)) as K1 by (unfold P1; auto with kept).
  eapply (triple_weaken d _ (inside_guard p (fun rec => P1 rec /\ Saved))); [| intros tr [H E]; now apply inside_pure | intros v tr H; exact H].
  eapply triple_bind; [apply triple_gets|intros now]. eapply triple_bind; [apply triple_lift|intros expected].
  eapply triple_bind.
  { apply triple_neutral; [intros; neutral|]. apply kept_and; [now apply kept_inside_guard | apply kept_const]. }
  intros expected'. eapply triple_bind; [apply triple_lift|intros authorized].
  destruct (negb _); [apply triple_ret; discriminate|].
  eapply triple_bind; [eapply triple_weaken; [apply (triple_snapshot record p _ K1) | tauto | intros v tr H; exact H]|intros observed].
  eapply triple_bind; [apply triple_lift|intros found]. apply triple_ret. intros tr [H E] Ef. apply str_eqb_eq in Ef as ->.
  refine (inside_mono _ _ _ _ _ H). intros rec [[[HP Hc] HS] (raw & Hr & Hs)]. split; [exact HP|].
  destruct (outputs_saved_facts _ _ _ _ _ _ HS) as [Ha Hm]. exists c, manifest, raw, observed. auto 9.
Qed.

(** The receipt read again under the guard of the decision, and its document. *)
Definition decision_seen (key : pub_key) (sc : scope) (record : Receipt) (document : Document) (recent : trace) : Prop :=
  seen (GetPublication key) (Some record) recent /\ seen (GetDocument (rc_document_id record) sc) (Some document) recent.

Lemma triple_decide_ready key sc record document t w c :
  rc_outcome record = pending -> rc_ready_count record <> 0 -> _publication_matches record document = true ->
  triple d (inside_guard on_decision (decision_seen key sc record document)) (decide_ready d record document t w c) (fun _ _ => True).
Proof.
  intros Ho Hn Hm. unfold decide_ready. set (P := decision_seen key sc record document).
  assert (kept (fun _ => true) P) as K by (unfold P, decision_seen; auto with kept).
  eapply triple_bind; [apply (triple_inside d _ on_decision P); [reflexivity | reflexivity | exact K]|intros col].
  destruct (negb (active_collection col) || negb (str_eqb (d_status document) "processing")) eqn:E; [apply triple_any; stay|].
  apply orb_false_iff in E as [Ea Es]. apply negb_false_iff, str_eqb_eq in Es.
  eapply triple_bind; [apply triple_neutral; [intros; neutral | auto with kept]|intros chunks].
  eapply triple_bind; [apply (triple_verify_points _ _ _ on_decision (fun rec => P rec /\ seen (GetCollection t w c) col rec)); auto with kept|intros v].
  destruct v; [|apply triple_ret; auto]. cbn [negb].
  eapply triple_bind; [|intros u; apply (triple_any d _ (fun _ => True)); stay].
  apply triple_call; [| | auto].
  - intros tr r H _. right. left. exists key, record, sc, document. do 5 (split; [assumption || reflexivity|]).
    refine (inside_mono _ _ _ _ _ (H eq_refl)). intros rec [[[H1 H2] Hc] Hp].
    split; [exact H1|]. split; [exact H2|]. split; [exact (active_collection_seen _ _ _ _ _ Hc Ea) | exact Hp].
  - apply kept_impl. auto with kept.
Qed.

Lemma stays_decide_pending a key r t w c : respects (stays d) (decide_pending d a key r t w c).
Proof.
  unfold decide_pending. do 2 apply respects_with_guard.
  apply (triple_respects d _ (fun _ => True) (fun _ _ => True)); [auto|].
  apply triple_guarded; [apply kept_const | intros; apply kept_const|].
  set (P0 := fun _ : trace => True). set (O := on_decision).
  eapply (triple_weaken d _ (inside_guard O P0)); [| intros tr [_ H]; now apply H | intros v tr H; exact H].
  eapply triple_bind; [apply (triple_inside d _ O P0); [reflexivity | reflexivity | apply kept_const]|intros reread].
  eapply triple_bind; [apply triple_modify; reflexivity|intros u].
  eapply triple_bind; [apply triple_or_raise|intros record]. cbv beta. set (P1 := fun rec => P0 rec /\ seen (GetPublication key) reread rec).
  assert (kept (fun _ => true) P1) as K1 by (unfold P1, P0; auto with kept).
  apply triple_pure. intros ->.
  eapply triple_bind; [apply triple_gets|intros j]. eapply triple_bind; [apply triple_lift_k|intros i]. apply triple_pure. intros _.
  eapply triple_bind; [apply triple_guard|intros u1]. apply triple_pure. intros _.
  eapply triple_bind; [apply triple_modify; reflexivity|intros u2].
  destruct (negb (bool_decide (rc_outcome record = pending))) eqn:Eo; [apply triple_ret; intros; exact I|].
  apply negb_false_iff, bool_decide_eq_true in Eo.
  eapply triple_bind; [apply (triple_inside d _ O P1); [reflexivity | reflexivity | exact K1]|intros document].
  eapply triple_bind; [apply triple_gets|intros j']. destruct document as [doc|]; [|apply triple_any; stay].
  destruct (_publication_matches record doc && str_eqb (d_status doc) "published"); [apply triple_any; stay|].
  destruct (_publication_matches record doc && negb (rc_ready_count record =? 0) && negb (ij_cancel_requested j')) eqn:E; [|apply triple_any; stay].
  apply andb_prop in E as [E _]. apply andb_prop in E as [Em En].
  eapply triple_weaken; [eapply (triple_decide_ready key _ record doc); [exact Eo | | exact Em] | | auto].
  - apply negb_true_iff, Z.eqb_neq in En. exact En.
  - intros tr H. refine (inside_mono _ _ _ _ _ H). intros rec [[_ H1] H2]. split; eassumption.
Qed.

Lemma stays_tries n a key t w c : respects (stays d) (pending_tries d n a key t w c).
Proof. induction n; cbn [pending_tries]; stay. apply stays_decide_pending. Qed.
End recovery.

(** ** Verified rollbacks

    A replaced version is published again only when nothing of it was deleted,
    or when its points were written again; with it every operation of the
    service publishes only what was verified. *)

(** ** Restoring points *)

Section restore.
Context (d : adapters).

Lemma kept_rewritten p b : kept p (fun tr => batch_rewritten tr b).
Proof. unfold batch_rewritten. auto with kept. Qed.
Hint Resolve kept_rewritten : kept.

Lemma triple_restore_batches size total p batches : forall P n, kept (fun _ => true) P ->
  triple d (inside_guard p P) (restore_batches d size total n batches)
    (fun r tr => inside_guard p (fun rec => P rec /\ Forall (batch_rewritten rec) batches) tr
                 /\ r = n + Z.of_nat (length (concat batches))).
Proof.
  induction batches as [|b batches IH]; intros P n K; cbn [restore_batches concat length].
  { apply triple_ret. intros tr H. split; [refine (inside_mono _ _ _ _ _ H); auto | lia]. }
  unfold restore_batch. eapply triple_bind.
  - eapply triple_bind; [apply triple_guard|intros u].
    eapply triple_bind; [eapply triple_weaken; [apply (triple_inside d (UpsertPoints b) p P); [reflexivity | reflexivity | exact K] | tauto | intros v tr H; exact H]|intros written].
    eapply triple_bind; [apply triple_guard|intros u1].
    apply (triple_ret d _ _ (fun m tr => inside_guard p (fun rec => P rec /\ batch_rewritten rec b) tr /\ m = n + Z.of_nat (length b))).
    intros tr [H E]. split; [|reflexivity]. refine (inside_mono _ _ _ _ _ H). intros rec [HP Hs]. split; [exact HP|].
    exists written. split; [exact Hs | now apply negb_false_iff].
  - intros m. cbv beta. apply triple_pure. intros ->.
    eapply triple_weaken; [apply (IH (fun rec => P rec /\ batch_rewritten rec b)); auto with kept | intros tr H; exact H |].
    intros r tr [H ->]. split; [|rewrite length_app; lia]. refine (inside_mono _ _ _ _ _ H).
    intros rec [[HP Hb] HB]. split; [exact HP | now constructor].
Qed.

Lemma triple_restore_points i c points t w P :
  kept (fun _ => true) P -> points <> [] ->
  triple d (inside i P) (restore_points d i c points t w)
    (fun b tr => b = true -> inside i (fun rec => P rec /\ restored i rec) tr).
Proof.
  intros K Hne. unfold restore_points. cbv zeta.
  eapply triple_bind; [apply triple_neutral; [intros; neutral | now apply kept_inside]|intros batches].
  eapply triple_bind; [apply triple_restore_batches; exact K|intros r]. cbv beta. apply triple_pure. intros ->.
  eapply triple_bind; [apply triple_guard|intros u]. apply triple_pure. intros E. apply negb_false_iff, Z.eqb_eq in E.
  eapply triple_bind.
  { apply triple_inside; [reflexivity | reflexivity|]. apply kept_and; [exact K|].
    apply (kept_batches _ batch_rewritten). intros b. apply kept_rewritten. }
  intros count. apply triple_ret. intros tr H Ec. refine (inside_mono _ _ _ _ _ H).
  intros rec [[HP HB] Hc]. split; [exact HP|]. eexists c, _, count, _, batches.
  split; [exact Hc|]. split; [exact Ec|]. split; [destruct points; [congruence | cbn; lia]|]. split; [exact HB | lia].
Qed.

(** ** The rollback *)

Definition replaced_seen (i : string) (rs : bool) (rec : trace) : Prop := version_seen i rec /\ (rs = false -> no_deletion i rec).

Definition undeleted (i : string) (e : event) : bool :=
  match e with Ev c _ => match c with DeleteVectors j _ _ => negb (str_eqb j i) | _ => true end end.

Lemma kept_no_deletion i : kept (undeleted i) (no_deletion i).
Proof.
  intros tr e He H c sc r [E|Hin]; [|exact (H c sc r Hin)]. subst e. cbn in He. unfold str_eqb in He.
  rewrite bool_decide_eq_true_2 in He by reflexivity. discriminate He.
Qed.

Lemma mildly_undeleted i e : mildly e = true -> undeleted i e = true.
Proof. destruct e as [A c r]. now destruct c. Qed.

(** Inside a guard, what mild events keep is kept. *)
Lemma kept_inside_mild p P : kept mildly P -> kept mildly (inside_guard p P).
Proof.
  intros K tr e He (rec & E & HP). exists (e :: rec). rewrite (since_plain _ _ _ (mildly_plain _ He)), E.
  split; [reflexivity | now apply K].
Qed.

Lemma kept_version p i : kept p (version_seen i).
Proof. unfold version_seen. auto 9 with kept. Qed.

Lemma kept_replaced i rs : kept mildly (inside i (replaced_seen i rs)).
Proof.
  apply kept_inside_mild, kept_and; [apply kept_version|]. apply kept_impl. intros tr e He. apply kept_no_deletion, mildly_undeleted, He.
Qed.

Lemma kept_restored p i : kept p (restored i).
Proof.
  unfold restored. repeat (apply kept_exists; intros). repeat apply kept_and; auto with kept.
Qed.

Lemma kept_version_restored i : kept mildly (version_restored i).
Proof.
  apply kept_inside_mild, kept_and; [apply kept_version|]. apply kept_or; [|apply kept_restored].
  intros tr e He. apply kept_no_deletion, mildly_undeleted, He.
Qed.

Lemma triple_rollback a i c points t w rs :
  triple d (inside i (replaced_seen i rs)) (_rollback_replacement d a i c points t w rs) (fun _ _ => True).
Proof.
  unfold _rollback_replacement.
  apply (triple_bind _ _ _ _ (fun b tr => b = true -> version_restored i tr)).
  - destruct (rs && negb (bool_decide (length points = 0%nat))) eqn:E.
    + apply andb_prop in E as [_ E]. apply triple_catching; [|intros e _; apply triple_ret; discriminate].
      eapply triple_weaken; [apply (triple_restore_points i c points t w (version_seen i)); [apply kept_version|] | |].
      * intros ->. discriminate E.
      * intros tr H. refine (inside_mono _ _ _ _ _ H). intros rec [H1 _]. exact H1.
      * intros b tr H Hb. refine (inside_mono _ _ _ _ _ (H Hb)). intros rec [H1 H2]. auto.
    + apply triple_ret. intros tr H Hrs. apply negb_true_iff in Hrs. refine (inside_mono _ _ _ _ _ H).
      intros rec [H1 H2]. split; [exact H1 | left; now apply H2].
  - intros b. eapply (triple_bind _ _ _ _ (fun _ _ => True)); [|intros b'; apply triple_any; stay].
    apply triple_catching; [|intros e _; apply triple_any; stay].
    eapply (triple_bind _ _ _ _ (fun _ _ => True)); [|intros; apply triple_ret; auto].
    apply triple_mild_call; [| | auto].
    + intros tr r H. cbn. destruct b; [intros _; right; right; now apply H | discriminate].
    + apply kept_impl, kept_version_restored.
Qed.
End restore.

(** ** Retirement *)

(** Until the retirement has started, nothing of the document is deleted. *)
Definition retiring (i : string) (w w' : world) : Prop :=
  grows plain w w' /\ (started w = true -> started w' = true)
  /\ (started w' = false -> grows (fun e => plain e && undeleted i e) w w').

#[export] Instance retiring_order i : PreOrder (retiring i).
Proof.
  split.
  - intros w. split; [reflexivity|]. split; [auto | reflexivity].
  - intros w1 w2 w3 (G1 & S1 & U1) (G2 & S2 & U2). split; [etrans; eassumption|]. split; [auto|].
    intros H. etrans; [apply U1 | now apply U2]. destruct (started w2); [now rewrite S2 in H | reflexivity].
Qed.

#[export] Instance retiring_neutral i : Neutral (retiring i).
Proof.
  assert (Neutral (grows (fun e => plain e && undeleted i e))) as N.
  { apply grows_mild. intros e H. apply andb_true_intro. split; [now apply mildly_plain | now apply mildly_undeleted]. }
  split; [exact _| |].
  - intros w w' T S B. split; [now apply neutral_books|]. rewrite S. split; [auto | intros _; now apply neutral_books].
  - intros A c r w H. split; [now apply neutral_mild|]. split; [auto | intros _; now apply neutral_mild].
Qed.

(** A step that keeps the mark of a started retirement. *)
Definition marked (w w' : world) : Prop := grows plain w w' /\ (started w = true -> started w' = true).

#[export] Instance marked_neutral : Neutral marked.
Proof.
  split.
  - split; [intros w; split; [reflexivity | auto]|]. intros w1 w2 w3 [G1 S1] [G2 S2]. split; [etrans; eassumption | auto].
  - intros w w' T S B. split; [now apply neutral_books | now rewrite S].
  - intros A c r w H. split; [now apply neutral_mild | auto].
Qed.

Section retirement.
Context (d : adapters).

Lemma marked_call {A} (c : call A) : plain (Ev c (Err Interrupted)) = true -> respects marked (call_out d c).
Proof. intros H. apply respects_call. intros r w. split; [apply grows_push; now destruct c | auto]. Qed.

(** What comes after the mark may delete. *)
Lemma retiring_start i (m : IM unit) : respects marked m -> respects (retiring i) (note_started;; m).
Proof.
  intros H w. unfold note_started, modify. cbv [mbind IM_bind M_bind exec].
  set (w1 := let '(points, _, incomplete) := l_retirement (w_locals w) in set_retirement (points, true, incomplete) w).
  assert (started w1 = true /\ w_trace w1 = w_trace w) as [S1 T1] by (subst w1; now destruct (l_retirement (w_locals w)) as [[]]).
  destruct (H w1) as [(new & T & P) S]. unfold exec in *. destruct (m w1) as [w2 r]. cbn [fst] in *. specialize (S S1).
  split; [exists new; now rewrite T, T1|]. split; [auto | intros E; congruence].
Qed.

Lemma retiring_version i c t w owners : respects (retiring i) (retire_version d i c t w owners).
Proof.
  unfold retire_version. neutral_step; [neutral|]. neutral_step; [neutral|]. apply retiring_start.
  neutral_step; apply marked_call; reflexivity.
Qed.

Lemma stays_version i c t w owners : respects (stays d) (retire_version d i c t w owners).
Proof.
  unfold retire_version. stay. intros w'. apply stays_books. cbn. now destruct (l_retirement (w_locals w')) as [[]].
Qed.

(** The version is read again before it is put back. *)
Lemma triple_still_owned a i sc t w old new s :
  triple d (inside i (fun rec => seen (GetDocument i sc) (Some old) rec /\ (s = false -> no_deletion i rec)))
    (still_owned d a t w (Some (old, new))) (fun b tr => b = true -> inside i (replaced_seen i s) tr).
Proof.
  set (P := fun rec => seen (GetDocument i sc) (Some old) rec /\ (s = false -> no_deletion i rec)).
  assert (kept mildly P) as K.
  { apply kept_and; [auto with kept|]. apply kept_impl. intros tr e He. apply kept_no_deletion, mildly_undeleted, He. }
  unfold still_owned. apply (triple_bind _ _ _ _ (fun b tr => b = true -> inside i (replaced_seen i s) tr)).
  - unfold version_owned. set (sc' := scope_of d "get_document" t w).
    apply (triple_bind _ _ _ _ (fun current => inside i (fun rec => P rec /\ seen (GetDocument (d_document_id old) sc') current rec))).
    { apply triple_mild_call; [intros; exact I | now apply kept_inside_mild |].
      intros current tr (rec & E & HP). exists (Ev (GetDocument (d_document_id old) sc') (Ok current) :: rec).
      rewrite since_plain by reflexivity. rewrite E. split; [reflexivity|]. split; [now apply K | now left]. }
    intros current. eapply triple_bind; [apply triple_gets|intros j]. apply triple_ret.
    intros tr H Hb. destruct current as [cur|]; [|discriminate]. apply andb_prop in Hb as [Hb Hv]. apply andb_prop in Hb as [Hs _].
    refine (inside_mono _ _ _ _ _ H). intros rec [[Ho Hn] Hc]. split; [|exact Hn]. exists sc, old, sc', cur. auto.
  - intros b. destruct b; [|apply triple_ret; auto].
    apply (triple_weaken d _ (inside i (replaced_seen i s)) _ (fun _ => inside i (replaced_seen i s))); [| auto | auto].
    apply triple_mild; [intros; neutral | apply kept_replaced].
Qed.

Lemma same_started : Neutral (fun w w' => started w' = started w).
Proof.
  split; [split|..]; auto. intros w1 w2 w3 H1 H2. congruence.
Qed.

(** What the failure of a retirement leaves inside the guard. *)
Lemma retiring_inside i sc old w w' :
  retiring i w w' -> inside i (fun rec => no_deletion i rec /\ seen (GetDocument i sc) (Some old) rec) (w_trace w) ->
  inside i (fun rec => seen (GetDocument i sc) (Some old) rec /\ (started w' = false -> no_deletion i rec)) (w_trace w').
Proof.
  intros (G & _ & U) H. destruct (started w') eqn:S.
  - refine (kept_grows plain (inside i (fun rec => seen (GetDocument i sc) (Some old) rec /\ (true = false -> no_deletion i rec))) w w' _ G _).
    + apply kept_inside, kept_and; [auto with kept|]. intros tr e _ _ E. discriminate E.
    + refine (inside_mono _ _ _ _ _ H). intros rec [_ Hs]. split; [exact Hs | discriminate].
  - specialize (U eq_refl). refine (kept_grows _ (inside i (fun rec => seen (GetDocument i sc) (Some old) rec /\ (false = false -> no_deletion i rec))) w w' _ U _).
    + intros tr e He (rec & E & Hs & Hn). apply andb_prop in He as [Hp Hu]. exists (e :: rec).
      rewrite (since_plain _ _ _ Hp), E. split; [reflexivity|]. split; [now right|]. intros _. apply kept_no_deletion; auto.
    + refine (inside_mono _ _ _ _ _ H). intros rec [H1 H2]. auto.
Qed.

(** The handler of a failed retirement. *)
Lemma stays_retirement_failed a i sc t w c old new w0 :
  inside i (fun rec => seen (GetDocument i sc) (Some old) rec /\ (started w0 = false -> no_deletion i rec)) (w_trace w0) ->
  stays d w0 (exec
    (owned ← still_owned d a t w (Some (old, new));
     if negb owned then change a (set_meta "retirement_pending" (VBool false));; mark a "retirement_superseded"
     else
       progress ← gets (fun w => l_retirement (w_locals w));
       let '(old_points, started, incomplete) := progress in
       collection_id ← or_raise ValueError' (normalize_collection_id c);
       _rollback_replacement d a i collection_id (if incomplete : bool then [] else old_points) t w (incomplete || started)) w0).
Proof.
  intros H. destruct (triple_still_owned a i sc t w old new (started w0) w0 H) as [S E].
  assert (started (exec (still_owned d a t w (Some (old, new))) w0) = started w0) as St.
  { exact (respects_still_owned (R := fun w w' => started w' = started w) (Neutral0 := same_started) d a t w (Some (old, new)) w0). }
  unfold exec, eval in *. cbv [mbind IM_bind M_bind]. destruct (still_owned d a t w (Some (old, new)) w0) as [w1 [b|e]]; cbn [fst snd] in *; [|exact S].
  specialize (E b eq_refl). destruct b; cbn [negb]; [|etrans; [exact S|]; apply (stays_books d); reflexivity].
  unfold gets. unfold started in St. destruct (l_retirement (w_locals w1)) as [[points st] inc]. cbn [fst snd] in St.
  etrans; [exact S|]. unfold or_raise. destruct (normalize_collection_id c) as [col|]; [|cbn; reflexivity].
  apply (triple_rollback d a i col (if inc : bool then [] else points) t w (inc || st)).
  refine (inside_mono _ _ _ _ _ (E eq_refl)). intros rec [Hv Hn]. split; [exact Hv|]. intros Hf.
  apply orb_false_iff in Hf as [_ Hf]. apply Hn. unfold started in *. congruence.
Qed.

Lemma triple_retire_replacement a i sc t w c old new :
  triple d (inside i (fun rec => no_deletion i rec /\ seen (GetDocument i sc) (Some old) rec))
    (_retire_replacement d a i t w c (Some (old, new))) (fun _ _ => True).
Proof.
  intros w0 H. split; [|auto]. unfold _retire_replacement. cbv [mbind IM_bind M_bind job gets exec].
  destruct (str_eqb (ij_status (job_at a w0)) "published"); cbn [when]; [|reflexivity].
  cbv [modify attempt]. set (w1 := set_retirement ([], false, false) w0).
  assert (stays d w0 w1) as S0 by now apply stays_books.
  pose proof (stays_version i c t w (Some (old, new)) w1) as S1.
  pose proof (retiring_version i c t w (Some (old, new)) w1) as R1. unfold exec in S1, R1.
  destruct (retire_version d i c t w (Some (old, new)) w1) as [w2 [u|e]]; cbn [fst] in *.
  { etrans; [exact S0|]. etrans; [exact S1|]. now apply stays_books. }
  etrans; [exact S0|]. etrans; [exact S1|]. destruct (caught e); [|cbn; reflexivity].
  exact (stays_retirement_failed a i sc t w c old new w2 (retiring_inside i sc old w1 w2 R1 H)).
Qed.
End retirement.

(** ** Only what was verified is published

    The facts of the attempt, of the recovery and of the rollback, put together
    over the operations of the service. *)

Section retirement.
Context (d : adapters).

(** ** Retirement under the guards of both versions *)

Lemma kept_untouched i : kept mildly (inside i (no_deletion i)).
Proof. apply kept_inside_mild. intros tr e He. apply kept_no_deletion, mildly_undeleted, He. Qed.

(** Taking another guard deletes nothing. *)
Lemma untouched_enter i g tr : inside i (no_deletion i) tr -> inside i (no_deletion i) (Ev (Enter g) (Ok tt) :: tr).
Proof.
  intros (rec & E & H). unfold inside, inside_guard. cbn [since]. rewrite E, andb_true_r.
  destruct (on_document i g); eexists; (split; [reflexivity|]).
  - intros c sc r [].
  - apply kept_no_deletion; [reflexivity | exact H].
Qed.

Lemma triple_untouched i ids (m : IM unit) :
  triple d (inside i (no_deletion i)) m (fun _ _ => True) -> triple d (inside i (no_deletion i)) (with_documents d ids m) (fun _ _ => True).
Proof.
  intros T. induction ids as [|x ids IH]; cbn [with_documents]; [exact T|].
  apply triple_entering with (F' := inside i (no_deletion i)); [apply kept_untouched | apply untouched_enter | intros; apply kept_const | exact IH].
Qed.

Lemma stays_documents i ids (m : IM unit) :
  i ∈ ids -> triple d (inside i (no_deletion i)) m (fun _ _ => True) -> respects (stays d) (with_documents d ids m).
Proof.
  intros Hi T. apply (triple_respects d _ (fun _ => True) (fun _ _ => True)); [auto|].
  induction ids as [|x ids IH]; [now apply elem_of_nil in Hi|]. cbn [with_documents].
  destruct (decide (x = i)) as [->|Hne].
  - apply triple_entering with (F' := inside i (no_deletion i)); [apply kept_const | | intros; apply kept_const | now apply triple_untouched].
    intros tr _. exists []. cbn. unfold str_eqb. rewrite bool_decide_eq_true_2 by reflexivity. split; [reflexivity|]. intros c sc r [].
  - apply triple_entering with (F' := fun _ => True); [apply kept_const | auto | intros; apply kept_const | apply IH].
    apply elem_of_cons in Hi as [->|Hi]; [congruence | exact Hi].
Qed.

(** Reading the version inside its guard. *)
Lemma triple_read_version i t w :
  triple d (inside i (no_deletion i)) (get_document d i t w)
    (fun doc => inside i (fun rec => no_deletion i rec /\ seen (GetDocument i (scope_of d "get_document" t w)) doc rec)).
Proof.
  apply triple_mild_call; [intros; exact I | apply kept_untouched|].
  intros doc tr (rec & E & H). exists (Ev (GetDocument i (scope_of d "get_document" t w)) (Ok doc) :: rec).
  rewrite since_plain by reflexivity. rewrite E. split; [reflexivity|]. split; [now apply kept_no_deletion | now left].
Qed.

Lemma kept_read i sc doc : kept mildly (inside i (fun rec => no_deletion i rec /\ seen (GetDocument i sc) doc rec)).
Proof.
  apply kept_inside_mild, kept_and; [|auto with kept]. intros tr e He. apply kept_no_deletion, mildly_undeleted, He.
Qed.

(** Up to the guards of the versions. *)
Ltac stay_outside := repeat (lazymatch goal with |- respects _ (with_documents _ _ _) => fail | |- _ => stay_step end).

Ltac version_known :=
  lazymatch goal with
  | |- triple _ _ (_retire_replacement _ _ _ _ _ _ (Some (_, _))) _ => apply triple_retire_replacement
  | |- _ => apply triple_any; stay
  end.

Lemma triple_retire_recovered a old_id new_id :
  triple d (inside old_id (no_deletion old_id)) (retire_recovered d a old_id new_id) (fun _ _ => True).
Proof.
  unfold retire_recovered. eapply triple_bind; [apply triple_gets|intros j].
  eapply triple_bind; [apply triple_mild; [intros; neutral | apply kept_untouched]|intros new].
  eapply triple_bind; [apply triple_read_version|intros old]. cbv beta.
  eapply triple_bind; [apply triple_gets|intros j2].
  eapply triple_bind; [apply triple_lift_k|intros att]. apply triple_pure. intros _. cbv zeta.
  destruct new as [new|]; [|version_known]. destruct old as [old|]; [|version_known].
  repeat (lazymatch goal with |- triple _ _ (if ?b then _ else _) _ => destruct b end; [version_known|]).
  version_known.
Qed.

Lemma stays_recover_retirement a : respects (stays d) (_recover_retirement d a).
Proof.
  unfold _recover_retirement. stay_outside. eapply stays_documents; [|apply triple_retire_recovered]; apply sorted_pair_In; auto.
Qed.

Lemma triple_finalize_guarded a i new_id p t w c hc :
  triple d (inside i (no_deletion i)) (finalize_guarded d a i new_id p t w c hc) (fun _ _ => True).
Proof.
  unfold finalize_guarded.
  eapply triple_bind; [apply triple_mild; [intros; neutral | apply kept_untouched]|intros stop].
  destruct stop; [version_known|]. eapply triple_bind; [apply triple_read_version|intros old]. cbv beta.
  eapply triple_bind; [apply triple_mild; [intros; neutral | apply kept_read]|intros new].
  eapply triple_bind; [apply triple_gets|intros j].
  destruct old as [old|]; [|version_known]. destruct new as [new|]; [|version_known].
  repeat (lazymatch goal with |- triple _ _ (if ?b then _ else _) _ => destruct b end; [version_known|]).
  version_known.
Qed.

Lemma stays_finalize a i p t w c hc : respects (stays d) (_finalize_reindex d a i p t w c hc).
Proof.
  unfold _finalize_reindex. stay_outside. eapply stays_documents; [|apply triple_finalize_guarded]; apply sorted_pair_In; auto.
Qed.
End retirement.

Ltac published := repeat first
  [ lazymatch goal with
    | |- respects (stays _) (_recover_retirement _ _) => apply stays_recover_retirement
    | |- respects (stays _) (pending_tries _ _ _ _ _ _ _) => apply stays_tries
    | |- respects (stays _) (_finalize_reindex _ _ _ _ _ _ _ _) => apply stays_finalize
    | |- respects (stays _) (run_attempt _ _ _) => apply stays_run_attempt
    end
  | progress stay ].

Section operations.
Context (d : adapters).

Lemma stays_install a key o : respects (stays d) (install_outcome d a key o).
Proof. unfold install_outcome, install_status. published. Qed.

Lemma stays_recover_receipt ex key r snap : respects (stays d) (recover_receipt d ex key r snap).
Proof. unfold recover_receipt. destruct key as [[[t w] c] i]. published; apply stays_install. Qed.

Lemma stays_recover i t w c p : respects (stays d) (recover_publication d i t w c p).
Proof. unfold recover_publication. published; apply stays_recover_receipt. Qed.

Lemma stays_commit_tries n f : respects (stays d) (read_commit_tries d n f).
Proof. induction n; cbn [read_commit_tries]; unfold read_commit; published. Qed.

Lemma stays_recover_attempt e : respects (stays d) (recover_attempt d e).
Proof.
  unfold recover_attempt, settle_pending, settle_failure. published; first [apply stays_commit_tries | apply stays_recover].
Qed.

Lemma stays_finally {A} (m : IM A) k : respects (stays d) m -> respects (stays d) k -> respects (stays d) (finally m k).
Proof. intros Hm Hk. unfold finally. published. Qed.

Lemma stays_ingest args : respects (stays d) (_ingest d args).
Proof.
  unfold _ingest. published; try apply stays_recover;
    (apply stays_finally; [unfold handle_failure; published; apply stays_recover_attempt | published]).
Qed.

Lemma stays_reconcile i : respects (stays d) (reconcile_publication d i).
Proof.
  unfold reconcile_publication. apply stays_finally; published.
  - apply stays_recover_attempt.
  - apply stays_recover.
  - intros w. apply stays_books. unfold exec, modify. cbn [fst]. now destruct (_ || _).
Qed.

Lemma stays_reindex i args : respects (stays d) (reindex d i args).
Proof. unfold reindex, ingest. published. apply stays_ingest. Qed.
End operations.
