(* ===== verification/IngestProperties.v ===== *)
(** * Properties of the ingestion pipeline *)

From Stdlib Require Import Ascii String.
From stdpp Require Import strings list.
From S2P Require Import Prelude PyFloat PyStr PyVal StateError IngestionJobs KnowledgeModels Publication.
From S2P Require Import IngestPorts IngestRetire IngestRecover IngestPipeline.
From S2P Require Import IngestLogic IngestVerify IngestPublish.

Local Open Scope string_scope.
Local Open Scope Z_scope.
Local Open Scope list_scope.

(** A relation every operation respects holds between the ends of a run. *)
Lemma service_respects (R : world -> world -> Prop) `{!PreOrder R} d :
  (forall args, respects R (ingest d args)) -> (forall i args, respects R (reindex d i args)) ->
  (forall i, respects R (cancel d i)) -> (forall i, respects R (reconcile_publication d i)) ->
  (forall i t w c p, respects R (recover_publication d i t w c p)) ->
  forall calls w, R w (service_run d w calls).
Proof.
  intros H1 H2 H3 H4 H5 calls. induction calls as [|c calls IH]; intros w; cbn; [reflexivity|].
  etrans; [|apply IH]. destruct c; cbn [service_do]; [apply H1 | apply H2 | apply H3 | apply H4 | apply H5].
Qed.


