(* ===== verification/Redaction.v ===== *)
(** * Redaction of events (packages/observability, redaction.py)

    [redact] copies an event within a budget of nodes and bytes: sensitive keys
    lose their value, texts are cleaned, what does not fit is cut.  The rewriting
    of URLs and credentials inside a text is an argument, [inline]. *)

From Stdlib Require Import Ascii String.
From stdpp Require Import strings list.
From S2P Require Import Prelude PyFloat PyStr PyVal Json CanonicalJson.

Local Open Scope string_scope.
Local Open Scope Z_scope.
Local Open Scope list_scope.

Definition MAX_EVENT_KEYS : nat := 64.
Definition MAX_VALUE_CHARS : nat := 512.
Definition MAX_NESTING : nat := 4.
Definition MAX_EVENT_NODES : Z := 512.
Definition MAX_EVENT_BYTES : Z := 16 * 1024.
Definition _NODE_OVERHEAD_BYTES : Z := 8.

Definition _SENSITIVE : list string :=
  ["authorization"; "api_key"; "apikey"; "cookie"; "credential"; "password"; "secret"; "token"; "set_cookie"; "prompt";
   "document"; "content"; "body"; "stack"; "traceback"; "raw_response"].

(** [_CONTROL.sub(" ", s)]. *)
Fixpoint without_controls (s : string) : string :=
  match s with
  | EmptyString => EmptyString
  | String c s' => String (if (code c <? 32) || is_char 127 c then chr 32 else c) (without_controls s')
  end.

Definition safe_text (value : string) (limit : nat) : option string :=
  let cleaned := strip (without_controls value) in
  if is_empty cleaned then None else Some (stake limit cleaned).

(** [key.lower().replace("-", "_")]. *)
Fixpoint underscored (s : string) : string :=
  match s with EmptyString => EmptyString | String c s' => String (if is_char 45 c then chr 95 else c) (underscored s') end.

Definition sensitive (key : string) : bool := existsb (fun marker => contains marker (underscored (lower key))) _SENSITIVE.

(** ** The budget *)

Record _RedactionBudget : Type := mk_budget { nodes_left : Z; bytes_left : Z }.

Definition exhausted (b : _RedactionBudget) : bool := (nodes_left b <=? 0) || (bytes_left b <? _NODE_OVERHEAD_BYTES).

Definition reserve_node (b : _RedactionBudget) : _RedactionBudget * bool :=
  if exhausted b then (b, false) else (mk_budget (nodes_left b - 1) (bytes_left b - _NODE_OVERHEAD_BYTES), true).

(** The bytes of [json.dumps(s, ensure_ascii=False)]. *)
Definition encoded_size (s : string) : Z := utf8_len (json_quote s).

Definition charge (b : _RedactionBudget) (s : string) : _RedactionBudget := mk_budget (nodes_left b) (bytes_left b - encoded_size s).

Definition marker (b : _RedactionBudget) : _RedactionBudget * option string :=
  if bytes_left b <? encoded_size "[truncated]" then (b, None) else (charge b "[truncated]", Some "[truncated]").

Definition text (b : _RedactionBudget) (value : string) : _RedactionBudget * option string :=
  if encoded_size value <=? bytes_left b then (charge b value, Some value) else marker b.

Definition text_value (s : option string) : pyval := match s with Some t => VStr t | None => VNone end.

(** ** Redaction *)

(** A number, or its text when it was cut. *)
Definition redact_number (value : pyval) (candidate : string) (replaced : bool) (b : _RedactionBudget) : _RedactionBudget * pyval :=
  let '(b, charged) := text b candidate in
  (b, match charged with
      | None => VNone
      | Some t => if str_eqb t candidate && negb replaced then value else VStr t
      end).

Section redact.
Context (inline : string -> string).

(** The members of a dict; [k] of them are read at most. *)
Fixpoint redact_items (f : pyval -> _RedactionBudget -> _RedactionBudget * pyval) (k : nat) (items : list (string * pyval))
    (result : list (string * pyval)) (b : _RedactionBudget) : _RedactionBudget * list (string * pyval) :=
  match k, items with
  | S k', (raw_key, raw_value) :: items' =>
      match safe_text raw_key 64 with
      | None => redact_items f k' items' result b
      | Some key =>
          let '(b, reserved) := reserve_node b in
          if negb reserved then (b, result)
          else
            let '(b, charged) := text b key in
            match charged with
            | None => (b, result)
            | Some key =>
                if sensitive key then
                  let '(b, redacted) := text b "[redacted]" in
                  match redacted with
                  | None => (b, result)
                  | Some t => redact_items f k' items' (dict_set key (VStr t) result) b
                  end
                else
                  let '(b, redacted) := f raw_value b in
                  if is_none redacted && exhausted b then (b, result)
                  else redact_items f k' items' (dict_set key redacted result) b
            end
      end
  | _, _ => (b, result)
  end.

Fixpoint redact_list (f : pyval -> _RedactionBudget -> _RedactionBudget * pyval) (k : nat) (l : list pyval)
    (b : _RedactionBudget) : _RedactionBudget * list pyval :=
  match k, l with
  | S k', item :: l' =>
      let '(b, redacted) := f item b in
      if is_none redacted && exhausted b then (b, [])
      else let '(b, rest) := redact_list f k' l' b in (b, redacted :: rest)
  | _, _ => (b, [])
  end.

(** [redact] with [levels = MAX_NESTING + 1 - _depth]. *)
Fixpoint redact (levels : nat) (value : pyval) (b : _RedactionBudget) : _RedactionBudget * pyval :=
  let '(b, reserved) := reserve_node b in
  if negb reserved then (b, VNone)
  else
    match levels with
    | O => let '(b, m) := marker b in (b, text_value m)
    | S levels' =>
        match value with
        | VDict items => let '(b, result) := redact_items (redact levels') MAX_EVENT_KEYS items [] b in (b, VDict result)
        | VList l => let '(b, result) := redact_list (redact levels') MAX_EVENT_KEYS l b in (b, VList result)
        | VNone | VBool _ => (b, value)
        | VInt n =>
            let large := 2 ^ 53 <=? Z.abs n in
            redact_number value (if large then "[bounded-integer]" else int_repr n) large b
        | VFloat f =>
            redact_number value (if fisfinite f then float_text f else "[non-finite]") (negb (fisfinite f)) b
        | VStr s =>
            match safe_text s MAX_VALUE_CHARS with
            | None => (b, VNone)
            | Some cleaned => let '(b, t) := text b (inline cleaned) in (b, text_value t)
            end
        end
    end.

(** ** Events *)

Definition event_char (c : ascii) : bool := is_alnum_az c || one_of "_.:-" c.
Definition letter (c : ascii) : bool := is_upper_az c || is_lower_az c.

Definition safe_event_name (value : string) : string :=
  match safe_text value 96 with
  | Some candidate => if matches_head_tail letter event_char 95 candidate then candidate else "event"
  | None => "event"
  end.

Definition envelope (name : string) (fields : pyval) : pyval := VDict [("event", VStr name); ("fields", fields)].

(** The bytes of the envelope around its fields. *)
Definition envelope_overhead (name : string) : Z :=
  match json_utf8 (envelope name (VDict [])) with Some t => utf8_len t - 2 | None => 0 end.

Definition safe_event (event : list (string * pyval)) (event_name : string) : pyval :=
  let name := safe_event_name event_name in
  let budget := mk_budget (Z.max 1 (MAX_EVENT_NODES - 4)) (Z.max 0 (MAX_EVENT_BYTES - envelope_overhead name)) in
  match redact (S MAX_NESTING) (VDict event) budget with
  | (_, VDict payload) => envelope name (VDict payload)
  | _ => envelope name (VDict [])
  end.
End redact.
