(* ===== verification/RedactionProperties.v ===== *)
(** * Properties of redaction

    The size of a value as JSON, what the budget says of it, that a redacted event stays within
    its bounds and that no value below a sensitive key is in it. *)

From Stdlib Require Import Ascii String.
From stdpp Require Import strings list.
From S2P Require Import Prelude PyFloat PyStr PyVal Json CanonicalJson Redaction.

Local Open Scope string_scope.
Local Open Scope Z_scope.
Local Open Scope list_scope.

(** ** Lemmas on redaction

    The size of a value as JSON, and what the budget says of it. *)

(** ** The size of a JSON text *)

Definition total {A} (f : A -> Z) (l : list A) : Z := fold_right (fun x n => f x + n) 0 l.

Lemma total_perm {A} (f : A -> Z) l l' : Permutation l l' -> total f l = total f l'.
Proof. induction 1; unfold total in *; cbn; lia. Qed.

Lemma total_nonneg {A} (f : A -> Z) l : (forall x, In x l -> 0 <= f x) -> 0 <= total f l.
Proof.
  unfold total. induction l as [|x l IH]; cbn; [lia|]. intros H. pose proof (H x (or_introl eq_refl)).
  pose proof (IH (fun y Hy => H y (or_intror Hy))). lia.
Qed.

Lemma total_le {A} (f g : A -> Z) l : (forall x, In x l -> f x <= g x) -> total f l <= total g l.
Proof.
  unfold total. induction l as [|x l IH]; cbn; [lia|]. intros H. pose proof (H x (or_introl eq_refl)).
  pose proof (IH (fun y Hy => H y (or_intror Hy))). lia.
Qed.

(** The bytes of the compact JSON of a value, a separator after every member. *)
Fixpoint json_size (v : pyval) : Z :=
  match v with
  | VNone => 4
  | VBool b => if b then 4 else 5
  | VInt n => utf8_len (int_repr n)
  | VFloat f => utf8_len (float_text f)
  | VStr s => encoded_size s
  | VList l => 2 + total (fun x => json_size x + 1) l
  | VDict d => 2 + total (fun kv => encoded_size (fst kv) + json_size (snd kv) + 2) d
  end.

Definition member_size (kv : string * pyval) : Z := encoded_size (fst kv) + json_size (snd kv) + 2.

Lemma member_size_eq k v : member_size (k, v) = encoded_size k + json_size v + 2.
Proof. reflexivity. Qed.

(** No NaN, no infinity. *)
Inductive finite : pyval -> Prop :=
| finite_none : finite VNone
| finite_bool b : finite (VBool b)
| finite_int n : finite (VInt n)
| finite_float m : finite (VFloat (Fin m))
| finite_str s : finite (VStr s)
| finite_list l : (forall x, In x l -> finite x) -> finite (VList l)
| finite_dict d : (forall k x, In (k, x) d -> finite x) -> finite (VDict d).

Lemma utf8_len_nonneg s : 0 <= utf8_len s.
Proof. induction s as [|c s IH]; cbn; [lia|]. destruct (code c <? 128); lia. Qed.

Lemma utf8_len_app s t : utf8_len (s +:+ t) = utf8_len s + utf8_len t.
Proof. induction s as [|c s IH]; cbn; [lia|]. rewrite IH. lia. Qed.

Lemma utf8_len_cons c s : utf8_len (String c s) = (if code c <? 128 then 1 else 2) + utf8_len s.
Proof. reflexivity. Qed.

Lemma utf8_join l : utf8_len (join_commas l) <= total (fun s => utf8_len s + 1) l.
Proof.
  induction l as [|s l IH]; [cbn; lia|]. destruct l as [|t l]; [cbn; lia|].
  change (join_commas (s :: t :: l)) with (s +:+ String (chr 44) (join_commas (t :: l))).
  rewrite utf8_len_app, utf8_len_cons. change (code (chr 44) <? 128) with true. cbv iota.
  change (total (fun s => utf8_len s + 1) (s :: t :: l)) with (utf8_len s + 1 + total (fun s => utf8_len s + 1) (t :: l)). lia.
Qed.

(** The texts of a list of finite values. *)
Lemma texts_some {A B} (f : A -> option B) (g : B -> Z) (h : A -> Z) l :
  (forall x, In x l -> exists t, f x = Some t /\ g t <= h x) ->
  exists ts, all_some (map f l) = Some ts /\ total g ts <= total h l.
Proof.
  induction l as [|x l IH]; intros H; [exists []; split; [reflexivity | cbn; lia]|].
  destruct (H x (or_introl eq_refl)) as (t & E & Ht). destruct IH as (ts & Es & Hts); [intros y Hy; apply H; now right|].
  exists (t :: ts). cbn. rewrite E, Es. split; [reflexivity | unfold total in *; cbn; lia].
Qed.

Lemma json_utf8_list l : json_utf8 (VList l) =
  (items ← all_some (map json_utf8 l); Some (String (chr 91) (join_commas items +:+ String (chr 93) EmptyString))).
Proof. reflexivity. Qed.

Lemma json_utf8_dict d : json_utf8 (VDict d) =
  (members ← all_some (map (fun kv => t ← json_utf8 (snd kv); Some (fst kv, t)) d);
   Some (String (chr 123)
     (join_commas (map (fun kt => json_quote (fst kt) +:+ String (chr 58) (snd kt)) (dict_sorted members))
      +:+ String (chr 125) EmptyString))).
Proof. unfold json_utf8. cbn. f_equal. f_equal. induction d as [|[k x] d IH]; cbn; congruence. Qed.

Lemma total_map {A B} (f : B -> Z) (g : A -> B) l : total f (map g l) = total (fun x => f (g x)) l.
Proof. unfold total. induction l as [|x l IH]; cbn; lia. Qed.

(** A finite value has a JSON text, no longer than its size. *)
Lemma json_size_ok v : finite v -> exists t, json_utf8 v = Some t /\ utf8_len t <= json_size v.
Proof.
  induction v as [|b|n|f|s|l IH|d IH] using pyval_nested_ind; intros F.
  - exists "null". split; [reflexivity | apply Z.le_refl].
  - destruct b; eexists; (split; [reflexivity | apply Z.le_refl]).
  - exists (int_repr n). split; [reflexivity | apply Z.le_refl].
  - inversion F; subst. exists (float_repr m). split; [reflexivity | cbn; lia].
  - exists (json_quote s). split; [reflexivity | cbn; unfold encoded_size; lia].
  - inversion F as [| | | | |l' Hl|]; subst. rewrite json_utf8_list.
    destruct (texts_some json_utf8 (fun s => utf8_len s + 1) (fun x => json_size x + 1) l) as (ts & E & H).
    { intros x Hx. destruct (IH x Hx (Hl x Hx)) as (t & E & Ht). exists t. split; [exact E | lia]. }
    rewrite E. cbn [mbind option_bind]. eexists. split; [reflexivity|].
    rewrite utf8_len_cons, utf8_len_app. pose proof (utf8_join ts).
    change (code (chr 91) <? 128) with true. change (utf8_len (String (chr 93) EmptyString)) with 1. cbn [json_size]. lia.
  - inversion F as [| | | | | |d' Hd]; subst. rewrite json_utf8_dict.
    destruct (texts_some (fun kv => t ← json_utf8 (snd kv); Some (fst kv, t))
                (fun kt => encoded_size (fst kt) + utf8_len (snd kt) + 2) member_size d) as (ts & E & H).
    { intros [k x] Hx. destruct (IH k x Hx (Hd k x Hx)) as (t & E & Ht). exists (k, t). cbn [snd fst]. rewrite E.
      split; [reflexivity | unfold member_size; cbn [fst snd]; lia]. }
    rewrite E. cbn [mbind option_bind]. eexists. split; [reflexivity|].
    rewrite utf8_len_cons, utf8_len_app.
    set (texts := map _ (dict_sorted ts)). pose proof (utf8_join texts) as Hj. unfold texts in Hj at 2. rewrite total_map in Hj.
    rewrite (total_le _ (fun kt => encoded_size (fst kt) + utf8_len (snd kt) + 2)) in Hj.
    2:{ intros [k t] _. cbn [fst snd]. rewrite utf8_len_app, utf8_len_cons. change (code (chr 58) <? 128) with true. unfold encoded_size. lia. }
    rewrite (total_perm _ (dict_sorted ts) ts) in Hj by (symmetry; apply sort_by_perm).
    change (code (chr 123) <? 128) with true. change (utf8_len (String (chr 125) EmptyString)) with 1.
    cbn [json_size]. change (total (fun kv => encoded_size (fst kv) + json_size (snd kv) + 2) d) with (total member_size d). lia.
Qed.

(** ** The budget *)

Lemma encoded_size_nonneg s : 2 <= encoded_size s.
Proof.
  unfold encoded_size, json_quote. rewrite utf8_len_cons, utf8_len_app. change (utf8_len (String quote_char EmptyString)) with 1.
  change (code quote_char <? 128) with true. cbv iota. pose proof (utf8_len_nonneg (escape s)). lia.
Qed.

(** What a charged text costs, and which it is. *)
Lemma text_spec b s b' o : text b s = (b', o) -> 0 <= bytes_left b ->
  0 <= bytes_left b' /\ nodes_left b' = nodes_left b
  /\ match o with
     | Some t => bytes_left b' = bytes_left b - encoded_size t /\ (t = s \/ t = "[truncated]")
     | None => b' = b
     end.
Proof.
  unfold text, marker. destruct (encoded_size s <=? bytes_left b) eqn:E.
  - intros [= <- <-] _. unfold charge. cbn [bytes_left nodes_left]. apply Z.leb_le in E. repeat split; [lia | auto].
  - destruct (bytes_left b <? encoded_size "[truncated]") eqn:E2; intros [= <- <-] H; [auto|].
    apply Z.ltb_ge in E2. unfold charge. cbn [bytes_left nodes_left]. repeat split; [lia | auto].
Qed.

Lemma reserve_spec b b' ok : reserve_node b = (b', ok) ->
  if ok then bytes_left b' = bytes_left b - 8 /\ nodes_left b' = nodes_left b - 1 /\ 8 <= bytes_left b
  else b' = b /\ exhausted b = true.
Proof.
  unfold reserve_node. destruct (exhausted b) eqn:E; intros [= <- <-]; [auto|].
  unfold exhausted in E. apply orb_false_iff in E as [_ E]. apply Z.ltb_ge in E. unfold _NODE_OVERHEAD_BYTES in *. cbn. lia.
Qed.

(** What a redaction takes from the budget covers what it gives. *)
Definition spends (f : pyval -> _RedactionBudget -> _RedactionBudget * pyval) : Prop :=
  forall v b b' out, f v b = (b', out) -> 0 <= bytes_left b ->
  0 <= bytes_left b' /\ finite out
  /\ (json_size out + 3 <= bytes_left b - bytes_left b' \/ (out = VNone /\ b' = b /\ exhausted b = true)).

Lemma total_set k v d : total member_size (dict_set k v d) <= total member_size d + member_size (k, v).
Proof.
  assert (forall x, 0 <= json_size x) as Hs.
  { intros x. induction x as [|b|n|f|s|l IH|e IH] using pyval_nested_ind; cbn [json_size].
    - lia.
    - destruct b; lia.
    - apply utf8_len_nonneg.
    - apply utf8_len_nonneg.
    - pose proof (encoded_size_nonneg s). lia.
    - pose proof (total_nonneg (fun x => json_size x + 1) l). assert (forall x, In x l -> 0 <= json_size x + 1) by (intros x Hx; specialize (IH x Hx); lia).
      intuition lia.
    - pose proof (total_nonneg (fun kv => encoded_size (fst kv) + json_size (snd kv) + 2) e) as T.
      assert (0 <= total (fun kv => encoded_size (fst kv) + json_size (snd kv) + 2) e); [|lia]. apply T.
      intros [k0 x] Hx. specialize (IH k0 x Hx). pose proof (encoded_size_nonneg k0). cbn [fst snd]. lia. }
  unfold total. induction d as [|[k' v'] d IH]; cbn; [lia|].
  destruct (str_eqb k k') eqn:E; cbn; [|lia]. apply str_eqb_eq in E as ->. rewrite !member_size_eq. pose proof (Hs v'). pose proof (encoded_size_nonneg k'). lia.
Qed.

Lemma finite_set k v d : finite v -> (forall k x, In (k, x) d -> finite x) -> forall k' x, In (k', x) (dict_set k v d) -> finite x.
Proof.
  intros Hv Hd k' x. induction d as [|[k0 v0] d IH]; cbn; [intros [[= _ <-]|[]]; exact Hv|].
  destruct (str_eqb k k0); cbn; intros [[= <- <-]|H].
  - exact Hv.
  - apply (Hd k' x). now right.
  - apply (Hd k0 v0). now left.
  - apply IH; [|exact H]. intros k1 x1 H1. apply (Hd k1 x1). now right.
Qed.

Lemma items_spend f : spends f -> forall k items result b b' r,
  redact_items f k items result b = (b', r) -> 0 <= bytes_left b -> (forall k x, In (k, x) result -> finite x) ->
  0 <= bytes_left b' /\ (forall k x, In (k, x) r -> finite x)
  /\ total member_size r + bytes_left b' <= total member_size result + bytes_left b.
Proof.
  intros Hf. induction k as [|k IH]; intros items result b b' r H Hb Hr; [destruct items; injection H as <- <-; repeat split; auto; lia|].
  destruct items as [|[key v] items]; [injection H as <- <-; repeat split; auto; lia|]. cbn [redact_items] in H.
  destruct (safe_text key 64) as [k1|]; [|now apply (IH _ _ _ _ _ H)].
  destruct (reserve_node b) as [b1 [|]] eqn:E1; apply reserve_spec in E1; cbn [negb] in H.
  2:{ destruct E1 as [-> _]. injection H as <- <-. repeat split; auto; lia. }
  destruct E1 as (E1 & _ & E8). destruct (text b1 k1) as [b2 o] eqn:E2. apply text_spec in E2 as (H2 & _ & E2); [|lia].
  destruct o as [k2|]; [|subst; injection H as <- <-; repeat split; auto; lia]. destruct E2 as [E2 _]. pose proof (encoded_size_nonneg k2).
  destruct (sensitive k2).
  - destruct (text b2 "[redacted]") as [b3 o3] eqn:E3. apply text_spec in E3 as (H3 & _ & E3); [|lia].
    destruct o3 as [t|]; [|subst; injection H as <- <-; repeat split; auto; lia]. destruct E3 as [E3 _].
    apply IH in H as (Hb' & Hfin & Ht); [|lia|now apply finite_set; [constructor|]].
    split; [exact Hb'|]. split; [exact Hfin|]. pose proof (total_set k2 (VStr t) result) as Hset.
    rewrite member_size_eq in Hset. cbn [json_size] in Hset. lia.
  - destruct (f v b2) as [b3 out] eqn:E3. destruct (Hf v b2 b3 out E3 H2) as (H3 & Hout & E4). clear E3; rename E4 into E3.
    destruct (is_none out && exhausted b3) eqn:En; [injection H as <- <-; split; [exact H3|]; split; [exact Hr|];
      destruct E3 as [E3|(_ & -> & _)]; [|lia]; apply andb_prop in En as [En _]; destruct out; try discriminate; cbn in E3; lia|].
    destruct E3 as [E3|(-> & -> & E3)]; [|cbn in En; congruence].
    apply IH in H as (Hb' & Hfin & Ht); [|lia|now apply finite_set].
    split; [exact Hb'|]. split; [exact Hfin|]. pose proof (total_set k2 out result) as Hset.
    rewrite member_size_eq in Hset. lia.
Qed.

Lemma list_spends f : spends f -> forall k l b b' r,
  redact_list f k l b = (b', r) -> 0 <= bytes_left b ->
  0 <= bytes_left b' /\ (forall x, In x r -> finite x) /\ total (fun x => json_size x + 1) r + bytes_left b' <= bytes_left b.
Proof.
  intros Hf. induction k as [|k IH]; intros l b b' r H Hb; [destruct l; injection H as <- <-; cbn; repeat split; auto; lia || (intros ? [])|].
  destruct l as [|v l]; [injection H as <- <-; cbn; repeat split; auto; lia || (intros ? [])|]. cbn [redact_list] in H.
  destruct (f v b) as [b1 out] eqn:E1. destruct (Hf v b b1 out E1 Hb) as (H1 & Hout & E4). clear E1; rename E4 into E1.
  destruct (is_none out && exhausted b1) eqn:En.
  { injection H as <- <-. split; [exact H1|]. split; [intros x []|]. cbn.
    destruct E1 as [E1|(_ & -> & _)]; [|lia]. apply andb_prop in En as [En _]. destruct out; try discriminate; cbn in E1; lia. }
  destruct E1 as [E1|(-> & -> & E1)]; [|cbn in En; congruence].
  destruct (redact_list f k l b1) as [b2 rest] eqn:E2. injection H as <- <-. apply IH in E2 as (H2 & Hrest & Ht); [|lia].
  split; [exact H2|]. split; [intros x [<-|Hx]; auto|]. unfold total in *. cbn. lia.
Qed.

(** ** Properties of redaction *)

(** ** Size *)

Lemma number_spends v candidate replaced b b' out :
  redact_number v candidate replaced b = (b', out) -> 0 <= bytes_left b ->
  (replaced = false -> finite v /\ json_size v <= encoded_size candidate) ->
  0 <= bytes_left b' /\ finite out /\ (json_size out + bytes_left b' <= bytes_left b \/ out = VNone /\ b' = b).
Proof.
  intros H Hb Hv. unfold redact_number in H. destruct (text b candidate) as [b1 [t|]] eqn:E; injection H as <- <-;
    apply text_spec in E as (H1 & _ & E); auto.
  - destruct E as [E _]. split; [exact H1|]. destruct (str_eqb t candidate) eqn:Et; cbn [andb].
    + apply str_eqb_eq in Et as ->. destruct replaced; cbn [negb].
      * split; [constructor|]. left. cbn [json_size]. lia.
      * destruct (Hv eq_refl) as [F S]. split; [exact F|]. left. lia.
    + split; [constructor|]. left. cbn [json_size]. lia.
  - subst. split; [exact H1|]. split; [constructor | auto].
Qed.

Lemma quoted_size s : utf8_len s <= encoded_size s.
Proof.
  unfold encoded_size, json_quote. rewrite utf8_len_cons, utf8_len_app. change (utf8_len (String quote_char EmptyString)) with 1.
  change (code quote_char <? 128) with true. cbv iota. enough (utf8_len s <= utf8_len (escape s)) by lia.
  induction s as [|c s IH]; [cbn; lia|]. cbn [escape]. rewrite utf8_len_cons, utf8_len_app.
  enough ((if code c <? 128 then 1 else 2) <= utf8_len (escape_char c)) by lia. now destruct c as [[][][][][][][][]].
Qed.

(** What fits the budget: every value is paid for. *)
Lemma redact_spends inline levels : spends (redact inline levels).
Proof.
  induction levels as [|levels IH]; intros v b b' out H Hb.
  - cbn [redact] in H. destruct (reserve_node b) as [b1 [|]] eqn:E; apply reserve_spec in E; cbn [negb] in H.
    2:{ destruct E as [-> E]. injection H as <- <-. split; [exact Hb|]. split; [constructor | auto]. }
    destruct E as (E & _ & E8). assert (marker b1 = text b1 "[truncated]") as Em.
    { unfold text, marker. destruct (encoded_size "[truncated]" <=? bytes_left b1) eqn:L; destruct (bytes_left b1 <? encoded_size "[truncated]") eqn:M; lia || reflexivity. }
    rewrite Em in H. destruct (text b1 "[truncated]") as [b2 o] eqn:E2. apply text_spec in E2 as (H2 & _ & E2); [|lia].
    injection H as <- <-. split; [exact H2|]. destruct o as [t|]; [destruct E2 as [E2 _] | subst b2]; (split; [constructor|]; left; cbn [text_value json_size]; lia).
  - cbn [redact] in H. destruct (reserve_node b) as [b1 [|]] eqn:E; apply reserve_spec in E; cbn [negb] in H.
    2:{ destruct E as [-> E]. injection H as <- <-. split; [exact Hb|]. split; [constructor | auto]. }
    destruct E as (E & _ & E8). assert (0 <= bytes_left b1) as H1 by lia.
    assert (forall w candidate replaced, redact_number w candidate replaced b1 = (b', out) ->
      (replaced = false -> finite w /\ json_size w <= encoded_size candidate) ->
      0 <= bytes_left b' /\ finite out /\ (json_size out + 3 <= bytes_left b - bytes_left b' \/ (out = VNone /\ b' = b /\ exhausted b = true))) as Num.
    { intros w candidate replaced Hn Hw. destruct (number_spends _ _ _ _ _ _ Hn H1 Hw) as (Hb' & Hf & [Ho|[-> ->]]);
        (split; [exact Hb'|]; split; [exact Hf|]; left; cbn [json_size]; lia). }
    destruct v as [|[|]|n|f|s|l|d].
    + injection H as <- <-. split; [exact H1|]. split; [constructor|]. left. cbn [json_size]. lia.
    + injection H as <- <-. split; [exact H1|]. split; [constructor|]. left. cbn [json_size]. lia.
    + injection H as <- <-. split; [exact H1|]. split; [constructor|]. left. cbn [json_size]. lia.
    + apply Num in H; [exact H|]. destruct (2 ^ 53 <=? Z.abs n); [discriminate|]. intros _. split; [constructor | apply quoted_size].
    + apply Num in H; [exact H|]. destruct f as [m|neg|]; cbn [fisfinite negb]; try discriminate. intros _. split; [constructor | apply quoted_size].
    + destruct (safe_text s MAX_VALUE_CHARS) as [c|]; [|injection H as <- <-; split; [exact H1|]; split; [constructor|]; left; cbn [json_size]; lia].
      destruct (text b1 (inline c)) as [b2 o] eqn:E2. apply text_spec in E2 as (H2 & _ & E2); [|lia]. injection H as <- <-.
      split; [exact H2|]. destruct o as [t|]; [destruct E2 as [E2 _] | subst b2]; (split; [constructor|]; left; cbn [text_value json_size]; lia).
    + destruct (redact_list (redact inline levels) MAX_EVENT_KEYS l b1) as [b2 r] eqn:E2. injection H as <- <-.
      destruct (list_spends _ IH _ _ _ _ _ E2 H1) as (H2 & Hf & Ht). split; [exact H2|]. split; [now constructor|]. left. cbn [json_size]. lia.
    + destruct (redact_items (redact inline levels) MAX_EVENT_KEYS d [] b1) as [b2 r] eqn:E2. injection H as <- <-.
      destruct (items_spend _ IH _ _ _ _ _ _ E2 H1) as (H2 & Hf & Ht); [intros k x []|]. split; [exact H2|]. split; [now constructor|].
      left. cbn [json_size]. change (total (fun kv => encoded_size (fst kv) + json_size (snd kv) + 2) r) with (total member_size r).
      change (total member_size []) with 0 in Ht. lia.
Qed.

Definition envelope_prefix (name : string) : string :=
  String (chr 123) (json_quote "event" +:+ String (chr 58) (json_quote name +:+ String (chr 44) (json_quote "fields" +:+ String (chr 58) EmptyString))).

Lemma envelope_text name v t :
  json_utf8 v = Some t -> json_utf8 (envelope name v) = Some (envelope_prefix name +:+ t +:+ String (chr 125) EmptyString).
Proof.
  intros E. unfold envelope. rewrite json_utf8_dict. cbn [map fst snd]. rewrite E.
  change (json_utf8 (VStr name)) with (Some (json_quote name)). cbn [mbind option_bind all_some].
  change (dict_sorted [("event", json_quote name); ("fields", t)]) with [("event", json_quote name); ("fields", t)].
  cbn [map fst snd join_commas]. unfold envelope_prefix. f_equal. cbn [Strings.String.append].
  rewrite !app_assoc_str. cbn [Strings.String.append]. rewrite !app_assoc_str. reflexivity.
Qed.

Lemma envelope_overhead_eq name : envelope_overhead name = utf8_len (envelope_prefix name) + 1.
Proof.
  unfold envelope_overhead. rewrite (envelope_text name (VDict []) "{}") by reflexivity. rewrite !utf8_len_app.
  change (utf8_len "{}") with 2. change (utf8_len (String (chr 125) EmptyString)) with 1. lia.
Qed.

Lemma escape_event_name s : sall event_char s = true -> escape s = s /\ utf8_len s = slen s.
Proof.
  unfold slen. induction s as [|c s IH]; cbn; [auto|]. intros [Hc Hs]%andb_prop. destruct (IH Hs) as [E U].
  assert (escape_char c = String c EmptyString /\ (code c <? 128) = true) as [Ec Eu] by (clear -Hc; destruct c as [[][][][][][][][]]; cbn in Hc; try discriminate Hc; split; reflexivity).
  rewrite Ec, Eu, E, U. cbn. split; [reflexivity | lia].
Qed.

Lemma letter_event c : letter c = true -> event_char c = true.
Proof. unfold letter, event_char, is_alnum_az. intros ->. reflexivity. Qed.

(** An event name is plain and short. *)
Lemma event_name_ok value : sall event_char (safe_event_name value) = true /\ slen (safe_event_name value) <= 96.
Proof.
  unfold safe_event_name. destruct (safe_text value 96) as [s|]; [|split; [reflexivity | vm_compute; discriminate]].
  destruct (matches_head_tail letter event_char 95 s) eqn:E; [|split; [reflexivity | vm_compute; discriminate]].
  destruct s as [|c s]; [discriminate|]. cbn in E. apply andb_prop in E as [E Es]. apply andb_prop in E as [Ec El].
  unfold slen in *. cbn. rewrite (letter_event _ Ec), Es. split; [reflexivity | lia].
Qed.

Lemma overhead_small value : 0 <= envelope_overhead (safe_event_name value) <= 200.
Proof.
  rewrite envelope_overhead_eq. pose proof (utf8_len_nonneg (envelope_prefix (safe_event_name value))) as H0. split; [lia|].
  destruct (event_name_ok value) as [H L]. apply escape_event_name in H as [E U].
  unfold envelope_prefix, json_quote in *. rewrite E. rewrite ?utf8_len_cons, ?utf8_len_app, ?utf8_len_cons, ?utf8_len_app, ?utf8_len_cons, ?utf8_len_app, ?utf8_len_cons, ?utf8_len_app, ?utf8_len_cons.
  rewrite U. unfold quote_char. vm_compute (utf8_len (escape _)). vm_compute (code _ <? 128). cbv iota. cbn [utf8_len]. lia.
Qed.

(** C28: The JSON of a redacted event, envelope included, exists and has at most
    [MAX_EVENT_BYTES] bytes, whatever the event is and however the texts in it
    are rewritten. *)
Theorem safe_event_bounded inline event event_name :
  exists t, json_utf8 (safe_event inline event event_name) = Some t /\ utf8_len t <= MAX_EVENT_BYTES.
Proof.
  unfold safe_event. cbv zeta. pose proof (overhead_small event_name) as [O1 O2].
  set (name := safe_event_name event_name) in *. set (b := mk_budget _ _).
  assert (bytes_left b = MAX_EVENT_BYTES - envelope_overhead name) as Eb by (unfold b, MAX_EVENT_BYTES; cbn [bytes_left]; lia).
  assert (forall d, finite (VDict d) -> json_size (VDict d) <= bytes_left b ->
    exists t, json_utf8 (envelope name (VDict d)) = Some t /\ utf8_len t <= MAX_EVENT_BYTES) as Fit.
  { intros d F S. destruct (json_size_ok _ F) as (t & E & H). eexists. split; [exact (envelope_text name _ t E)|].
    rewrite !utf8_len_app. change (utf8_len (String (chr 125) EmptyString)) with 1. rewrite envelope_overhead_eq in Eb. lia. }
  destruct (redact inline (S MAX_NESTING) (VDict event) b) as [b' out] eqn:E.
  destruct (redact_spends inline _ _ _ _ _ E) as (Hb & Hf & Hs); [unfold MAX_EVENT_BYTES in Eb; lia|].
  assert (json_size (VDict []) <= bytes_left b) as Hempty by (cbn [json_size total fold_right]; unfold MAX_EVENT_BYTES in Eb; lia).
  destruct out; try (apply Fit; [constructor; intros k x []|exact Hempty]).
  apply Fit; [exact Hf|]. destruct Hs as [Hs|(H & _)]; [lia | discriminate H].
Qed.

(** ** What is hidden *)

Section hiding.
Context (inline : string -> string).

(** A text of the output: a marker, or a cleaned text after [inline]. *)
Definition shown (s : string) : Prop :=
  s ∈ ["[truncated]"; "[bounded-integer]"; "[non-finite]"; "[redacted]"]
  \/ exists raw cleaned, safe_text raw MAX_VALUE_CHARS = Some cleaned /\ s = inline cleaned.

(** No member with a sensitive key shows anything of its value. *)
Inductive hides : pyval -> Prop :=
| hides_none : hides VNone
| hides_bool b : hides (VBool b)
| hides_int n : Z.abs n < 2 ^ 53 -> hides (VInt n)
| hides_float m : hides (VFloat (Fin m))
| hides_text s : shown s -> hides (VStr s)
| hides_list l : (forall x, In x l -> hides x) -> hides (VList l)
| hides_dict d :
    (forall k x, In (k, x) d -> hides x /\ (sensitive k = true -> x ∈ [VStr "[redacted]"; VStr "[truncated]"])) -> hides (VDict d).

Lemma shown_marker s : s ∈ ["[truncated]"; "[bounded-integer]"; "[non-finite]"; "[redacted]"] -> hides (VStr s).
Proof. intros H. constructor. now left. Qed.

Lemma text_which b s b' o : text b s = (b', o) -> forall t, o = Some t -> t = s \/ t = "[truncated]".
Proof.
  unfold text, marker. destruct (encoded_size s <=? bytes_left b); [intros [= _ <-] t [= <-]; auto|].
  destruct (bytes_left b <? _); intros [= _ <-] t; [discriminate | intros [= <-]; auto].
Qed.

Lemma number_hides v candidate replaced b b' out :
  redact_number v candidate replaced b = (b', out) -> (replaced = false -> hides v) ->
  (replaced = true -> candidate ∈ ["[truncated]"; "[bounded-integer]"; "[non-finite]"; "[redacted]"]) -> hides out.
Proof.
  unfold redact_number. destruct (text b candidate) as [b1 [t|]] eqn:E; intros [= _ <-] Hv Hc; [|constructor].
  destruct (text_which _ _ _ _ E t eq_refl) as [->| ->].
  - rewrite (proj2 (str_eqb_eq _ _) eq_refl). destruct replaced; cbn; [apply shown_marker | ]; auto.
  - destruct (str_eqb "[truncated]" candidate && negb replaced) eqn:Et; [|apply shown_marker; left].
    apply andb_prop in Et as [_ Et]. apply negb_true_iff in Et. auto.
Qed.

Lemma items_hide f : (forall v b b' out, f v b = (b', out) -> hides out) -> forall k items result b b' r,
  redact_items f k items result b = (b', r) -> hides (VDict result) -> hides (VDict r).
Proof.
  intros Hf. induction k as [|k IH]; intros items result b b' r H Hr; [destruct items; injection H as <- <-; exact Hr|].
  destruct items as [|[key v] items]; [injection H as <- <-; exact Hr|]. cbn [redact_items] in H.
  destruct (safe_text key 64) as [k1|]; [|exact (IH _ _ _ _ _ H Hr)].
  destruct (reserve_node b) as [b1 [|]]; cbn [negb] in H; [|injection H as <- <-; exact Hr].
  destruct (text b1 k1) as [b2 [k2|]]; [|injection H as <- <-; exact Hr].
  assert (forall x, hides x -> (sensitive k2 = true -> x ∈ [VStr "[redacted]"; VStr "[truncated]"]) -> hides (VDict (dict_set k2 x result))) as Set_.
  { intros x Hx Hs. constructor. intros k' x' [[= -> ->]|Hin]%In_dict_set; [auto|]. inversion Hr; subst. eauto. }
  destruct (sensitive k2) eqn:Es.
  - destruct (text b2 "[redacted]") as [b3 [t|]] eqn:E3; [|injection H as <- <-; exact Hr]. apply IH in H; [exact H|].
    destruct (text_which _ _ _ _ E3 t eq_refl) as [->| ->]; apply Set_; try (apply shown_marker; set_solver); intros _; set_solver.
  - destruct (f v b2) as [b3 out] eqn:E3. destruct (is_none out && exhausted b3); [injection H as <- <-; exact Hr|].
    apply IH in H; [exact H|]. apply Set_; [exact (Hf _ _ _ _ E3) | discriminate].
Qed.

Lemma list_hides f : (forall v b b' out, f v b = (b', out) -> hides out) -> forall k l b b' r,
  redact_list f k l b = (b', r) -> forall x, In x r -> hides x.
Proof.
  intros Hf. induction k as [|k IH]; intros l b b' r H x; [destruct l; injection H as <- <-; intros []|].
  destruct l as [|v l]; [injection H as <- <-; intros []|]. cbn [redact_list] in H. destruct (f v b) as [b1 out] eqn:E1.
  destruct (is_none out && exhausted b1); [injection H as <- <-; intros []|].
  destruct (redact_list f k l b1) as [b2 rest] eqn:E2. injection H as <- <-. intros [<-|Hx]; [exact (Hf _ _ _ _ E1) | exact (IH _ _ _ _ E2 x Hx)].
Qed.

Lemma redact_hides levels : forall v b b' out, redact inline levels v b = (b', out) -> hides out.
Proof.
  induction levels as [|levels IH]; intros v b b' out H; cbn [redact] in H;
    (destruct (reserve_node b) as [b1 [|]]; cbn [negb] in H; [|injection H as <- <-; constructor]).
  - unfold marker in H. destruct (bytes_left b1 <? _); injection H as <- <-; [constructor | apply shown_marker; left].
  - destruct v as [|bv|n|f|s|l|d].
    + injection H as <- <-. constructor.
    + injection H as <- <-. constructor.
    + apply number_hides in H; [exact H | |].
      * intros E. apply Z.leb_gt in E. now constructor.
      * intros ->. set_solver.
    + apply number_hides in H; [exact H | |].
      * destruct f; try discriminate. constructor.
      * intros E. apply negb_true_iff in E. rewrite E. set_solver.
    + destruct (safe_text s MAX_VALUE_CHARS) as [c|] eqn:Ec; [|injection H as <- <-; constructor].
      destruct (text b1 (inline c)) as [b2 [t|]] eqn:E2; injection H as <- <-; [|constructor].
      destruct (text_which _ _ _ _ E2 t eq_refl) as [->| ->]; [|apply shown_marker; left]. constructor. right. eauto.
    + destruct (redact_list _ _ l b1) as [b2 r] eqn:E2. injection H as <- <-. constructor. exact (list_hides _ IH _ _ _ _ _ E2).
    + destruct (redact_items _ _ d [] b1) as [b2 r] eqn:E2. injection H as <- <-. apply (items_hide _ IH _ _ _ _ _ _ E2).
      constructor. intros k x [].
Qed.
End hiding.

(** C29: In a redacted event, at any depth, a member whose key names something
    sensitive holds nothing but a marker, every other text is a marker or a
    bounded, cleaned text after its credentials were rewritten, and every
    number is finite and exact. *)
Theorem safe_event_hides inline event event_name : exists name fields,
  safe_event inline event event_name = envelope name (VDict fields) /\ hides inline (VDict fields).
Proof.
  unfold safe_event. cbv zeta. exists (safe_event_name event_name).
  destruct (redact inline (S MAX_NESTING) (VDict event) _) as [b' out] eqn:E. apply redact_hides in E.
  destruct out; try (exists []; split; [reflexivity | constructor; intros k x []]). eauto.
Qed.

(** A key that no longer fits is replaced before it is tested, and the value of
    a sensitive key is shown. *)
Example truncated_key_leaks :
  redact id 5 (VDict [("authorization_header_for_downstream_gateway", VStr "s3cret-value")]) (mk_budget 10 60)
  = (mk_budget 7 9, VDict [("[truncated]", VStr "s3cret-value")]).
Proof. vm_compute. reflexivity. Qed.

(** So is the value of a key whose marker comes after its first 64 characters. *)
Example long_key_leaks :
  snd (redact id 5 (VDict [("upstream_gateway_configuration_value_for_the_internal_request_signing_password", VStr "s3cret")])
         (mk_budget 500 9000))
  = VDict [("upstream_gateway_configuration_value_for_the_internal_request_si", VStr "s3cret")].
Proof. vm_compute. reflexivity. Qed.

Example redact_ex :
  safe_event id [("User-Token", VStr "abc"); ("n", VInt 3); ("t", VStr " a"); ("l", VList [VBool true; VFloat NaN])] "job.done"
  = envelope "job.done" (VDict [("User-Token", VStr "[redacted]"); ("n", VInt 3); ("t", VStr "a"); ("l", VList [VBool true; VStr "[non-finite]"])]).
Proof. vm_compute. reflexivity. Qed.
