(* ===== verification/AuditSink.v ===== *)
(** * The local audit sink (apps/api, services/audit.py)

    [InMemoryAuditSink] keeps a bounded list of redacted events; [emit_required]
    makes a mutation fail when its event is not kept.  The stripping of
    credentials from a URL, [strip_url], is an argument, as is the rewriting
    [inline] of texts in [Redaction]. *)

From Stdlib Require Import Ascii String.
From stdpp Require Import strings list.
From S2P Require Import Prelude PyFloat PyStr PyVal Redaction.

Local Open Scope string_scope.
Local Open Scope Z_scope.
Local Open Scope list_scope.

Definition DEFAULT_RETENTION : Z := 10000.

Definition _ALLOWED_FIELDS : list string :=
  ["action"; "actor_user_id"; "target_id"; "target_type"; "tenant_id"; "workspace_id"; "request_id"; "correlation_id"; "reason";
   "status"; "error_code"; "user_id"; "session_id"; "collection_id"].

Definition _SENSITIVE_VALUE_MARKERS : list string :=
  ["authorization"; "bearer "; "api key"; "apikey"; "cookie"; "credential"; "password"; "passphrase"; "private document";
   "document content"; "prompt"; "secret"; "token="; "reset token"; "access token"].

(** [_SAFE_STRING.fullmatch]. *)
Definition safe_char (c : ascii) : bool := is_alnum_az c || one_of "_.:@/%+~-" c.
Definition _SAFE_STRING (s : string) : bool := negb (is_empty s) && sall safe_char s.

(** ** Emission *)

Inductive audit_error : Type := provider_unavailable | ValueError.

(** A sink as [emit_required] sees it: no method, or what a call of it gives;
    [Err tt] is any exception. *)
Record sink : Type := mk_sink { health_check : option (res unit pyval); emitter : option (res unit pyval) }.

Definition is_true (v : pyval) : bool := match v with VBool true => true | _ => false end.
Definition is_false (v : pyval) : bool := match v with VBool false => true | _ => false end.

Definition emit_required (s : option sink) : res audit_error unit :=
  match s with
  | None => Err provider_unavailable
  | Some s =>
      match health_check s with
      | None => Ok tt
      | Some (Ok healthy) => if is_true healthy then Ok tt else Err provider_unavailable
      | Some (Err _) => Err provider_unavailable
      end;;
      match emitter s with
      | None => Err provider_unavailable
      | Some (Ok result) => if is_false result then Err provider_unavailable else Ok tt
      | Some (Err _) => Err provider_unavailable
      end
  end.

(** ** The sink *)

Definition audit_event : Type := list (string * string).

Record InMemoryAuditSink : Type := mk_audit { max_events : Z; events : list audit_event }.

Definition InMemoryAuditSink_new (max_events : Z) : res audit_error InMemoryAuditSink :=
  if max_events <=? 0 then Err ValueError else Ok (mk_audit max_events []).

Section emit.
Context (inline : string -> string) (strip_url : string -> option string).

(** One value, or [None] when it is left out.  [casefold] and [lower] differ
    only on characters that [_SAFE_STRING] refuses. *)
Definition safe_value (value : pyval) : option string :=
  match value with
  | VStr s =>
      let s := strip s in
      if is_empty s || (512 <? slen s) then None
      else
        match (if contains "://" s then strip_url s else Some s) with
        | Some s =>
            if existsb (fun marker => contains marker (lower s)) _SENSITIVE_VALUE_MARKERS then None
            else if _SAFE_STRING s then Some s else None
        | None => None
        end
  | _ => None
  end.

Fixpoint safe_fields (items : list (string * pyval)) : audit_event :=
  match items with
  | [] => []
  | (k, v) :: items' =>
      if str_in k _ALLOWED_FIELDS then
        match safe_value v with Some s => (k, s) :: safe_fields items' | None => safe_fields items' end
      else safe_fields items'
  end.

(** [del events[:-n]] of a longer list. *)
Definition retained (n : Z) (l : list audit_event) : list audit_event :=
  if n <? Z.of_nat (length l) then drop (length l - Z.to_nat n) l else l.

Definition emit (event : pyval) (s : InMemoryAuditSink) : InMemoryAuditSink * bool :=
  match snd (redact inline (S MAX_NESTING) event (mk_budget MAX_EVENT_NODES MAX_EVENT_BYTES)) with
  | VDict sanitized =>
      let safe := safe_fields sanitized in
      match dict_get "action" safe with
      | Some _ => (mk_audit (max_events s) (retained (max_events s) (events s ++ [safe])), true)
      | None => (s, false)
      end
  | _ => (s, false)
  end.
End emit.

(** ** Listing *)

Definition _DESCENDING : list string := ["desc"; "descending"; "newest"].
Definition _ASCENDING : list string := ["asc"; "ascending"; "oldest"].

Definition in_audit_scope (tenant_id : string) (workspace_id : option string) (e : audit_event) : bool :=
  match dict_get "tenant_id" e with Some t => str_eqb t tenant_id | None => false end
  && match workspace_id with
     | None => true
     | Some w => match dict_get "workspace_id" e with None => true | Some w' => str_eqb w' w end
     end.

Definition audit_list (tenant_id : string) (workspace_id : option string) (limit : Z) (order : string) (s : InMemoryAuditSink)
    : res audit_error (list audit_event) :=
  if is_empty (strip tenant_id) then Err ValueError
  else if negb ((1 <=? limit) && (limit <=? 1000)) then Err ValueError
  else
    let normalized_order := lower (strip order) in
    if negb (str_in normalized_order (_ASCENDING ++ _DESCENDING)) then Err ValueError
    else
      let items := List.filter (in_audit_scope tenant_id workspace_id) (events s) in
      Ok (take (Z.to_nat limit) (if str_in normalized_order _DESCENDING then reverse items else items)).
