(* ===== verification/AuditProperties.v ===== *)
(** * Properties of the local audit sink *)

From Stdlib Require Import Ascii String.
From stdpp Require Import strings list.
From S2P Require Import Prelude PyFloat PyStr PyVal Redaction AuditSink.

Local Open Scope string_scope.
Local Open Scope Z_scope.
Local Open Scope list_scope.

(** A field that may be stored. *)
Definition safe_field (kv : string * string) : Prop :=
  str_in (fst kv) _ALLOWED_FIELDS = true /\ _SAFE_STRING (snd kv) = true
  /\ Forall (fun m => contains m (lower (snd kv)) = false) _SENSITIVE_VALUE_MARKERS.

Definition safe_audit (e : audit_event) : Prop := Forall safe_field e /\ exists action, dict_get "action" e = Some action.

Section sink.
Context (inline : string -> string) (strip_url : string -> option string).

(** The event that is stored, if it is. *)
Definition accepted (event : pyval) : list audit_event :=
  match snd (redact inline (S MAX_NESTING) event (mk_budget MAX_EVENT_NODES MAX_EVENT_BYTES)) with
  | VDict sanitized =>
      let safe := safe_fields strip_url sanitized in
      match dict_get "action" safe with Some _ => [safe] | None => [] end
  | _ => []
  end.

Lemma emit_accepted event s :
  emit inline strip_url event s =
  match accepted event with
  | safe :: _ => (mk_audit (max_events s) (retained (max_events s) (events s ++ [safe])), true)
  | [] => (s, false)
  end.
Proof. unfold emit, accepted. destruct (snd _); try reflexivity. cbv zeta. now destruct (dict_get "action" _). Qed.

Lemma safe_value_ok v s : safe_value strip_url v = Some s ->
  _SAFE_STRING s = true /\ Forall (fun m => contains m (lower s) = false) _SENSITIVE_VALUE_MARKERS.
Proof.
  unfold safe_value. destruct v as [| | | |raw| |]; try discriminate. cbv zeta. destruct (_ || _); [discriminate|].
  destruct (if contains "://" (strip raw) then strip_url (strip raw) else Some (strip raw)) as [t|]; [|discriminate].
  destruct (existsb _ _) eqn:E; [discriminate|]. destruct (_SAFE_STRING t) eqn:F; intros [= <-]. split; [exact F|].
  apply Forall_forall. intros m Hm. apply not_true_iff_false. intros H. apply not_true_iff_false in E. apply E, existsb_exists.
  exists m. split; [now apply list_elem_of_In | exact H].
Qed.

Lemma safe_fields_ok items : Forall safe_field (safe_fields strip_url items).
Proof.
  induction items as [|[k v] items IH]; cbn [safe_fields]; [constructor|].
  destruct (str_in k _ALLOWED_FIELDS) eqn:Ek; [|exact IH]. destruct (safe_value strip_url v) as [s|] eqn:Ev; [|exact IH].
  constructor; [|exact IH]. apply safe_value_ok in Ev as [H1 H2]. now split.
Qed.

Lemma accepted_safe event : Forall safe_audit (accepted event).
Proof.
  unfold accepted. destruct (snd _); try constructor. cbv zeta. destruct (dict_get "action" _) as [a|] eqn:E; [|constructor].
  constructor; [|constructor]. split; [apply safe_fields_ok | eauto].
Qed.

Lemma retained_nil n : retained n [] = [].
Proof. unfold retained. now destruct (n <? Z.of_nat (length [])). Qed.

Lemma retained_app n l e : 0 < n -> retained n (retained n l ++ [e]) = retained n (l ++ [e]).
Proof.
  intros Hn. unfold retained. rewrite !length_app. cbn [length].
  destruct (n <? Z.of_nat (length l)) eqn:E; [|reflexivity]. apply Z.ltb_lt in E. rewrite length_drop.
  replace (n <? Z.of_nat (length l - (length l - Z.to_nat n) + 1)) with true by (symmetry; apply Z.ltb_lt; lia).
  replace (n <? Z.of_nat (length l + 1)) with true by (symmetry; apply Z.ltb_lt; lia).
  rewrite !skipn_app, skipn_skipn, !length_drop. f_equal; f_equal; lia.
Qed.

Definition audit_run (n : Z) (log : list pyval) : InMemoryAuditSink :=
  fold_left (fun s event => fst (emit inline strip_url event s)) log (mk_audit n []).

Lemma audit_fold n log : 0 < n -> forall l s, max_events s = n -> events s = retained n l ->
  let s' := fold_left (fun s event => fst (emit inline strip_url event s)) log s in
  max_events s' = n /\ events s' = retained n (l ++ concat (map accepted log)).
Proof.
  intros Hn. induction log as [|event log IH]; intros l s Hm He; cbn [fold_left map concat]; [now rewrite app_nil_r|].
  rewrite app_assoc. apply IH.
  - rewrite emit_accepted. now destruct (accepted event).
  - rewrite emit_accepted. destruct (accepted event) as [|e [|e2 es]] eqn:E; cbn [fst].
    + now rewrite app_nil_r.
    + cbn [events]. rewrite Hm, He. now apply retained_app.
    + exfalso. unfold accepted in E. destruct (snd _); try discriminate E. cbv zeta in E. destruct (dict_get "action" _); discriminate E.
Qed.
End sink.



(** An accepted mutation is recorded, a refused one leaves the sink unchanged. *)
Lemma emit_required_recorded inline strip_url event s :
  0 < max_events s ->
  let '(s', kept) := emit inline strip_url event s in
  match emit_required (Some (mk_sink (Some (Ok (VBool true))) (Some (Ok (VBool kept))))) with
  | Ok _ => exists safe, safe_audit safe /\ last (events s') = Some safe
  | Err _ => s' = s
  end.
Proof.
  intros Hm. rewrite emit_accepted. pose proof (accepted_safe inline strip_url event) as F.
  destruct (accepted inline strip_url event) as [|e es]; cbn; [reflexivity|]. exists e. split; [now inversion F|].
  unfold retained. destruct (_ <? _) eqn:L; [|apply last_snoc]. apply Z.ltb_lt in L. rewrite length_app in *. cbn [length] in *.
  rewrite skipn_app. replace (length (events s) + 1 - Z.to_nat (max_events s) - length (events s))%nat with 0%nat by lia. apply last_snoc.
Qed.
